(* ===== verification/_CoqProject ===== *)
-Q . S2P
Prelude.v
JsValue.v
Codec.v
Json.v
Sha256.v
Platform.v
Models.v
SdkErrors.v
SdkTypes.v
SdkAuth.v
SdkClient.v
SdkProps.v
RustLib.v
Binary64.v
WasmHost.v
RustModels.v
Merkle.v
StateStore.v
UnifiedStore.v
ChunkTransfer.v
ContentDetector.v
Consensus.v
ConsensusVotes.v
ConsensusState.v
ConsensusKills.v
ConsensusDemo.v
SerdeWire.v
NodeRpc.v
GoLib.v
IdentityProgram.v
IdentityLedger.v
IdentityRules.v
IdentityCards.v
NbookProgram.v
NbookBlobs.v
NbookStore.v
NbookSpec.v
NbookSocial.v
NbookSteps.v
NbookRules.v
NbookRank.v
SchoolProgram.v
SchoolStore.v
SchoolRules.v
NodeAuth.v
Toast.v
Browser.v
NbookClient.v
NbookAuth.v
NbookRoutes.v
NbookWire.v
NbookDemo.v
Gateway.v
GatewayServer.v
ProgramCall.v
SchoolClient.v
SchoolViews.v
SchoolWire.v
SchoolDemo.v
Async.v
SchoolGrades.v
SchoolDashboard.v
Identity.v
IdentityWire.v
IdentityDemo.v
Liveness.v
NbookPages.v
NbookFeed.v
NbookCards.v
NbookCardProps.v
NbookProfile.v
SharedUi.v
