(* ===== verification/Prelude.v ===== *)
(** * Verification of the ONVM code base: SDK, front ends, programs and node

    ** The program

    ONVM is a network that stores blobs and runs WebAssembly programs.  Its node is
    written in Rust; this development verifies what users meet of it, and the parts of
    the node on which that rests:

    - the SDK (src/onvm-sdk/src): an RPC client of the node that signs requests,
      decrypts responses and maps failures to error classes;
    - nbook, a social program: the Rust program itself (src/wasm_programs/nbook/src),
      and its front end (nbook/ui): a browser client, sessions in localStorage, two
      Next.js route handlers that forward calls to the node through the SDK, and pages;
    - the identity registry (src/wasm_programs/identity_card: Rust program and ui) and
      the school administration (src/wasm_programs/school_management: Go program and
      ui), whose front ends call the node from the browser through the SDK;
    - the explorer of the blob gateway (src/src/blob_gateway/ui);
    - the toast store and the collapsible sidebar that the front ends carry.

    Of the node (src/src) these parts are modelled: the authentication middleware, the
    other half of the SDK's protocol; the host functions the programs import; the state
    store with its Merkle trees; the object store; the transfer of objects between nodes;
    the consensus on the transitions of programs; what the RPC endpoints answer; and the
    server of the blob gateway.

    ** Files

    Language and platform.
    - Prelude: outcomes, the effect monad [M E S A] (explicit state passing; the
      state survives a throw) with its laws, tactics, the hint database [onvm].
    - JsValue: strings as UTF-16 code units, numbers, dynamic values, exceptions,
      interface types as terms of [ty] with decidable conformance.
    - Codec: hexadecimal, base64 (of Buffer, btoa and atob), UTF-8, URI encoding.
    - Json: JSON.stringify and JSON.parse.
    - Sha256: SHA-256 and HMAC as the crypto module computes them.
    - Platform: fetch, clock, entropy and the AEAD package, as classes; a [world]
      records what was sent and read.  Browser: localStorage, DOM exceptions.
    - Async: handlers that await, as tasks whose calls settle in any order.  Liveness:
      that pools of tasks come to rest.
    - RustLib, GoLib: what the programs use of the two languages' libraries.  SerdeWire:
      the JSON of serde's derived implementations.  Binary64: floating point sums and
      quotients of integers.
    - Models, RustModels: concrete instances of the classes, for the witnesses.

    SDK and node.
    - SdkErrors (errors.ts), SdkTypes (types.ts), SdkAuth (auth.ts), SdkClient
      (client.ts: record [OnvmClient], state [sdk], one definition per method),
      SdkProps (properties of the client).
    - NodeAuth (auth.rs): [NonceCache], [TokenBucket], [verify_signed_request].
    - WasmHost (host_apis.rs, types.rs, runtime.rs, execution.rs): [ExecutionContext],
      the state, clock, random and blob functions, and how writes are committed.
    - Merkle (merkle/mod.rs): the plain and the sparse tree, proofs and their check.
      StateStore (storage/state_store.rs, and the roots of runtime.rs, host_apis.rs,
      network_handlers.rs and rpc/mod.rs): the scoped state over the class [Sled].
    - UnifiedStore (storage/unified_store.rs, types.rs): [Db], objects, manifests, chunks;
      its Module StoreHost is an instance of the blob functions of WasmHost.
    - ChunkTransfer (network/chunk_distributor.rs, unified_protocol.rs, the object
      messages of network_handlers.rs, ingestion.rs): [Distributor], fetches over the
      class [World], which says what peers answer and which events arrive meanwhile.
    - Consensus (consensus/core: engine.rs, network_handlers.rs, execution.rs,
      receipt_verifier.rs; storage/program_catalog.rs): [Node], one definition per
      handler.  ConsensusVotes (the relation of events and steps, votes, quorums),
      ConsensusState (commitments, finalization, loops), ConsensusKills (nodes killed
      between two flushed writes), ConsensusDemo (three nodes).
    - NodeRpc (rpc/mod.rs, jobs.rs, health.rs and the records they answer from): the
      routes and the JSON of every answer, against the types the SDK declares.
    - ContentDetector (blob_gateway/content_detector.rs), GatewayServer
      (blob_gateway/server.rs, fetcher.rs): routes and handlers over ChunkTransfer, and
      their composition with the explorer of Gateway.

    Programs.  Each is written once over the host functions or over an interface of its
    store, refined to typed maps, and reasoned about there.
    - nbook (lib.rs): NbookProgram (the operations, over the class [Storage]), NbookStore
      and NbookBlobs (the helpers over the host), NbookSpec (the same operations over
      typed maps, and the refinement), NbookSocial (the invariant [well_kept]),
      NbookSteps (what a request can change, as the relation [step]), NbookRules
      (life cycles), NbookRank (feeds and lists), NbookWire (JSON, entry point,
      agreement with the client), NbookDemo (witnesses).
    - identity (lib.rs): IdentityProgram, IdentityLedger ([answer] on a [ledger] and the
      refinement), IdentityRules (invariant, panics, life cycle), IdentityCards (markup),
      IdentityWire (JSON, agreement, from form to page), IdentityDemo (witnesses).
    - school (main.go): SchoolProgram (four kinds of records as instances of [Entity]),
      SchoolStore ([answer] on a [school] and the refinement), SchoolRules (lists,
      enrolment, what can change), SchoolWire (JSON, records and pages end to end),
      SchoolDemo (witnesses).

    Front ends.
    - Toast (use-toast.ts): the module variables as [store], what happens to them as [call].
    - SharedUi (sidebar.tsx, use-mobile.ts): the provider, its context and shortcut.
    - NbookClient (lib/onvm-client.ts), NbookAuth (lib/auth.ts, lib/api.ts; state
      [nbook]), NbookRoutes (app/api/onvm/route.ts and blob/[id]/route.ts; state
      [route]), NbookPages (login, registration, posting), NbookFeed (feed, side panel,
      navigation), NbookCards and NbookCardProps (post cards with the module variables
      they share), NbookProfile (profile page).
    - Gateway (pages/Index.tsx, pages/SharePage.tsx, lib/format.ts, two components).
    - ProgramCall (the program call the next two share), SchoolClient (types and
      client), SchoolViews (students, teachers and courses views), SchoolGrades
      (grades view, page), SchoolDashboard (dashboard), Identity (types, client, registration form, gallery,
      statistics).

    A React component is a record of its state; a handler is one definition per
    synchronous segment or one task; events and settling calls are the rules of an
    inductive step relation, the client's answers being arbitrary; a view function
    says what is rendered and which elements react.  Styling is dropped.  A program's
    execution is a function on [ExecutionContext]; a panic is an outcome of its own,
    which leaves the context as it was.

    ** What is proved

    - Keys, signatures, encryption (SdkAuth): HKDF is RFC 5869 for every length the
      code uses; secrets are accepted exactly when they have 32 bytes; different
      requests have different signed texts; decryption inverts the node's sealing,
      delivers nothing the AEAD rejected, and fails only with an OnvmAuthError.
    - Client (SdkProps): every failure of a request is an OnvmError with the right
      status; in prod mode the signature covers the message on the wire; what happens with
      missing credentials and with rejected fetches.  With the node's answers (NodeRpc):
      each method sends the request of its route, and which results have the declared type.
    - Client against node (NodeAuth): signed requests are accepted and their
      answers decrypted end to end, for JSON, uploads and downloads; nonces are not
      accepted twice while the cache holds them, and how forged requests flush it.
    - State roots (Merkle, StateStore): the root an execution announces is the one the
      state has once its writes are committed, whatever the order of the hash maps; of
      which moments root, proof and value of an answer are when other tasks commit between
      the three reads, and a proof that verifies names the stored value unless two hashed
      texts collide.
    - Objects (UnifiedStore, ChunkTransfer): what is put is what is read, also by other
      nodes through peers that answer or fall silent; a crash while putting never shows
      other bytes; a node that has a manifest serves the bytes it names, unless an answer
      nobody waits for or another task replaces the manifest during the fetch.
    - Consensus: a member votes once per height through restarts and any messages;
      overlapping quorums verify one receipt; the state of a program has the root of its
      last commitment in every history, but for the values that were being written when
      the node was killed; the vote that reaches the threshold commits the transition;
      loops end; and how a leader that proposes twice makes nodes diverge.
    - Gateway server: what each request is answered with for any network, the types that
      are detected, and a blob that one node put, looked up and downloaded in the
      explorer another node serves, is the file that is saved.
    - Programs: each refines its maps for every sequence of requests.  nbook keeps its
      records consistent, touches only the requester's records, ranks and bounds its
      answers; accounts, posts and follows have the life cycles they should.  Identities
      stay with their dates and checksums, nothing registered but the initial of a name
      adds to a card's markup, and the program panics in exactly one case.  The school's lists
      have what was added in its order, records come back as they were sent, enrolment
      is idempotent, and deletion always traps.
    - Clients against programs: the program reads every request of its client as it is
      meant and answers with the declared types (NbookWire, IdentityWire, SchoolWire);
      the registration form and the school's pages are proved with the programs' own
      answers.
    - Toast: after any calls closed toasts and removal timers correspond, with the exact
      exceptions; every dispatch reaches every subscriber.
    - nbook pages: what a call from browser to program and back delivers for every text,
      in ASCII and outside; sessions expire and are cleared; login and registration end on
      the feed or with a message; every page comes to rest whatever the answers and their
      order (the feed as long as the stored session is JSON); cards have one request of a
      kind under way.
    - School and identity pages: program calls round trip for all characters; the list
      views render typed lists without exception, and the program's lists but for students
      with null subjects; a grades refresh ends whatever is answered and joins the right
      names; the dashboard comes to rest however it is answered, and with the
      program's answers shows its counts and exactly the rounded mean of the scores;
      the registration form never has two requests under way.
    - Gateway: one panel at a time and no spinner without an outstanding answer;
      sizes are correct to half a hundredth of the unit; the share page's life.
    - Several properties state defects: stale answers, follows before registration,
      feeds cut before they are ranked, identifiers with commas, cards with an
      unescaped initial, updates dated before the registration, nonces recorded before
      signatures are checked, manifests that are not compared with the identifier, a
      leader that signs two receipts of one height, a node killed while it commits that
      does not go on, optional fields written as null, texts outside Latin-1 that cannot
      be sent, a spinner that an unreadable session leaves on.

    ** Bounds and fuel

    The JSON parser recurses on fuel 2 * length + 2; Json proves that this is always
    enough for text that stringify wrote (json_parse_text) and that more fuel never
    changes a result (p_value_fuel).  Decimal digits use fuel log2 n + 1, proved
    enough by digits_value.  The loops that read the state have the rounds of the
    source, six in nbook and five in identity, of which two are proved enough
    (state_get_terminates, resize_run).  A binary64 number is printed with at most 20
    digits after the point, enough for what the dashboard shows (number_text_integer,
    attendance_number).  A fetch polls for providers and for gossip as often as the source
    does within its deadlines (25, 6 and 10 pauses) and asks for the parts of a chunk with
    as many rounds as there are parts, proved enough by replication.  Finalized
    transitions are applied with one round more than there are stored ones (apply_ends);
    the queue of a forwarded call has a round for each entry it can hold
    (forward_loop_ends).  All other recursion is structural.

    Digests are those of an arbitrary function: theorems that need distinct texts to have
    distinct digests name the finite list of texts among which a collision is excluded.

    ** What is not modelled

    Numbers are exact decimals except where NodeAuth, the score of a post and the
    dashboard follow floating point; engine and library error texts, Unicode case mapping, locale dates,
    the AEAD primitive, BLAKE3, and the text of stored records are parameters with their
    documented laws.  One SDK client is used by one call at a time.  Go's matching of
    member names is modelled for objects without two names that are the same up to case.
    Not modelled of the node: the job scheduler with its queues and its store, the work
    of the RPC endpoints before they answer (but for program information, state roots and
    executions), the event loop around libp2p with its codecs and peer bookkeeping, the wrappers of
    blst, k256 and wasmtime, the formation of committees and background synchronisation,
    configuration and command line; failures of the disk other than a crash between two
    writes.  Not modelled of the rest: the programs without a front end, the generated component libraries (markup around
    Radix primitives, but for the toast store and the sidebar's provider), layout and
    landing pages, and nbook's sample pages (literal data and switches that nothing
    reads). *)

From Stdlib Require Export ZArith Lia.
From stdpp Require Export base list numbers gmap strings.

#[global] Open Scope Z_scope.
#[export] Set Warnings "-clear-no-such-hyp".

(** ** Scopes and hint databases of the development *)

Declare Scope onvm_scope.
Delimit Scope onvm_scope with onvm.

(** [onvm]: well-formedness facts ([Forall]-style range facts, length facts)
    that the components discharge with [eauto with onvm]. *)
Create HintDb onvm discriminated.

(** ** Outcomes: normal completion or a thrown exception *)

Inductive outcome (E A : Type) : Type :=
| Ok (a : A)
| Throw (e : E).
Arguments Ok {E A} a.
Arguments Throw {E A} e.

Definition outcome_bind {E A B} (o : outcome E A) (k : A → outcome E B) : outcome E B :=
  match o with
  | Ok a => k a
  | Throw e => Throw e
  end.

(** ** The effect monad

    Asynchronous TypeScript code is modelled by explicit state passing: a
    computation maps a state to an outcome and the state it leaves behind.
    The state survives a throw, as it does in JavaScript. *)

Definition M (E S A : Type) : Type := S → outcome E A * S.

Section Effects.
Context {E S : Type}.

Definition retM {A} (a : A) : M E S A := λ s, (Ok a, s).

Definition bindM {A B} (c : M E S A) (k : A → M E S B) : M E S B :=
  λ s, match c s with
       | (Ok a, s') => k a s'
       | (Throw e, s') => (Throw e, s')
       end.

Definition throwM {A} (e : E) : M E S A := λ s, (Throw e, s).

Definition liftM {A} (o : outcome E A) : M E S A := λ s, (o, s).

Definition getM : M E S S := λ s, (Ok s, s).

Definition putM (s : S) : M E S () := λ _, (Ok tt, s).

Definition modifyM (f : S → S) : M E S () := λ s, (Ok tt, f s).

(** [try { c } catch (e) { h(e) }]. *)
Definition catchM {A} (c : M E S A) (h : E → M E S A) : M E S A :=
  λ s, match c s with
       | (Ok a, s') => (Ok a, s')
       | (Throw e, s') => h e s'
       end.

(** [try { c } finally { f }] where the finaliser does not throw. *)
Definition finallyM {A} (c : M E S A) (f : S → S) : M E S A :=
  λ s, let '(o, s') := c s in (o, f s').

(** [for (const x of l) body(x)]. *)
Fixpoint forM {A} (l : list A) (body : A → M E S ()) : M E S () :=
  match l with
  | [] => retM tt
  | x :: l' => bindM (body x) (λ _, forM l' body)
  end.

(** [l.map(f)] with an effectful [f], results in order. *)
Fixpoint mapM_ {A B} (f : A → M E S B) (l : list A) : M E S (list B) :=
  match l with
  | [] => retM []
  | x :: l' => bindM (f x) (λ y, bindM (mapM_ f l') (λ ys, retM (y :: ys)))
  end.
End Effects.

Notation "'let*' x := c 'in' k" := (bindM c (λ x, k))
  (at level 10, x name, c at level 100, k at level 200,
   format "'[v' 'let*'  x  :=  c  'in' '/' k ']'") : onvm_scope.
Notation "'let*' ' p := c 'in' k" := (bindM c (λ x, match x with p => k end))
  (at level 10, p strict pattern, c at level 100, k at level 200) : onvm_scope.
Notation "'do*' c 'in' k" := (bindM c (λ _, k))
  (at level 10, c at level 100, k at level 200,
   format "'[v' 'do*'  c  'in' '/' k ']'") : onvm_scope.
Notation "'let!' x := c 'in' k" := (outcome_bind c (λ x, k))
  (at level 10, x name, c at level 100, k at level 200) : onvm_scope.
#[global] Open Scope onvm_scope.

(** ** Laws of the effect monad *)

Section EffectLaws.
Context {E S : Type}.

Lemma bindM_ret {A B} (a : A) (k : A → M E S B) s : bindM (retM a) k s = k a s.
Proof. reflexivity. Qed.

Lemma bindM_throw {A B} (e : E) (k : A → M E S B) s : bindM (throwM e) k s = (Throw e, s).
Proof. reflexivity. Qed.

Lemma bindM_assoc {A B C} (c : M E S A) (k : A → M E S B) (h : B → M E S C) s :
  bindM (bindM c k) h s = bindM c (λ a, bindM (k a) h) s.
Proof. unfold bindM. by destruct (c s) as [[a|e] s']. Qed.

Lemma bindM_ok {A B} (c : M E S A) (k : A → M E S B) s a s' :
  c s = (Ok a, s') → bindM c k s = k a s'.
Proof. unfold bindM. by intros ->. Qed.

Lemma bindM_err {A B} (c : M E S A) (k : A → M E S B) s e s' :
  c s = (Throw e, s') → bindM c k s = (Throw e, s').
Proof. unfold bindM. by intros ->. Qed.

(** Inversion of a sequence that completed normally. *)
Lemma bindM_inv_ok {A B} (c : M E S A) (k : A → M E S B) s b s'' :
  bindM c k s = (Ok b, s'') → ∃ a s', c s = (Ok a, s') ∧ k a s' = (Ok b, s'').
Proof. unfold bindM. destruct (c s) as [[a|e] s'] eqn:?; naive_solver. Qed.

(** An invariant of the state that every step keeps is kept by a sequence. *)
Definition preserves {A} (P : S → Prop) (c : M E S A) : Prop :=
  ∀ s, P s → P (c s).2.

Lemma preserves_ret {A} P (a : A) : preserves P (retM a).
Proof. by intros s Hs. Qed.

Lemma preserves_throw {A} P (e : E) : preserves P (@throwM E S A e).
Proof. by intros s Hs. Qed.

Lemma preserves_lift {A} P (o : outcome E A) : preserves P (liftM o).
Proof. by intros s Hs. Qed.

Lemma preserves_get P : preserves P (@getM E S).
Proof. by intros s Hs. Qed.

Lemma preserves_bind {A B} P (c : M E S A) (k : A → M E S B) :
  preserves P c → (∀ a, preserves P (k a)) → preserves P (bindM c k).
Proof.
  intros Hc Hk s Hs. unfold bindM. specialize (Hc s Hs).
  destruct (c s) as [[a|e] s']; simpl in *; [by apply Hk | done].
Qed.

Lemma preserves_catch {A} P (c : M E S A) (h : E → M E S A) :
  preserves P c → (∀ e, preserves P (h e)) → preserves P (catchM c h).
Proof.
  intros Hc Hh s Hs. unfold catchM. specialize (Hc s Hs).
  destruct (c s) as [[a|e] s']; simpl in *; [done | by apply Hh].
Qed.

Lemma preserves_finally {A} P (c : M E S A) (f : S → S) :
  preserves P c → (∀ s, P s → P (f s)) → preserves P (finallyM c f).
Proof.
  intros Hc Hf s Hs. unfold finallyM. specialize (Hc s Hs).
  destruct (c s) as [o s']; simpl in *; by apply Hf.
Qed.
End EffectLaws.

#[export] Hint Resolve preserves_ret preserves_throw preserves_lift preserves_get
  preserves_bind preserves_catch preserves_finally : onvm.

(** ** Proof steps shared by the components *)

(** Case analysis on the tests the code performs, one at a time. *)
Ltac case_if :=
  match goal with
  | |- context [if ?b then _ else _] => destruct b eqn:?
  | H : context [if ?b then _ else _] |- _ => destruct b eqn:?
  end.

Ltac case_ifs := repeat (case_if; simplify_eq/=; try done).

(** Unfold the monad once the computation is applied to a state. *)
Ltac run_monad :=
  unfold bindM, retM, throwM, liftM, getM, putM, modifyM, catchM, finallyM in *; simpl in *.

(** Turn the boolean comparisons of the code into propositions for [lia]. *)
Ltac zbool :=
  repeat match goal with
  | H : (_ && _)%bool = true |- _ => apply andb_prop in H as [? ?]
  | H : (_ <=? _)%Z = true |- _ => apply Z.leb_le in H
  | H : (_ <=? _)%Z = false |- _ => apply Z.leb_gt in H
  | H : (_ <? _)%Z = true |- _ => apply Z.ltb_lt in H
  | H : (_ <? _)%Z = false |- _ => apply Z.ltb_ge in H
  | H : (_ =? _)%Z = true |- _ => apply Z.eqb_eq in H
  | H : (_ =? _)%Z = false |- _ => apply Z.eqb_neq in H
  end.

(** ** Generic lemmas on lists and integers *)

(** Every element of a concrete range satisfies a boolean predicate: the range
    facts of the codecs are proved by evaluating the predicate on the range. *)
Fixpoint forall_from (n : nat) (z : Z) (P : Z → bool) : bool :=
  match n with
  | O => true
  | S k => P z && forall_from k (z + 1) P
  end.

Lemma forall_from_spec n z P c :
  forall_from n z P = true → z ≤ c < z + Z.of_nat n → P c = true.
Proof.
  revert z. induction n as [|n IH]; intros z; simpl; [lia|].
  intros [Hz Hn]%andb_prop Hc. destruct (Z.eq_dec c z) as [->|]; [done|].
  apply (IH (z + 1)); [done | lia].
Qed.

Lemma take_app_exact {A} (l k : list A) n : n = length l → take n (l ++ k) = l.
Proof. intros ->. by rewrite take_app_length. Qed.

Lemma drop_app_exact {A} (l k : list A) n : n = length l → drop n (l ++ k) = k.
Proof. intros ->. by rewrite drop_app_length. Qed.

(** A separator that occurs in neither prefix splits a list in one way. *)
Lemma app_sep_inj {A} (sep : A) (a b x y : list A) :
  sep ∉ a → sep ∉ b → a ++ sep :: x = b ++ sep :: y → a = b ∧ x = y.
Proof.
  revert b. induction a as [|c a IHa]; intros b Ha Hb Heq; destruct b as [|d b]; simpl in Heq.
  - by injection Heq.
  - injection Heq as -> _. by destruct Hb; left.
  - injection Heq as -> _. by destruct Ha; left.
  - injection Heq as -> Heq. rewrite not_elem_of_cons in Ha, Hb. destruct (IHa b) as [-> ->]; [apply Ha | apply Hb | done | done].
Qed.
