(* ===== verification/JsValue.v ===== *)
(** * The JavaScript values the TypeScript code computes with

    Strings as sequences of UTF-16 code units, numbers, dynamic values with
    property access and truthiness, exceptions, and the TypeScript interface
    types as a first-order type language whose conformance is decidable.

    What of the language is modelled: numbers are exact decimals (the rounding
    of binary64 is not modelled; every number the programs compute with is an
    integer below 2^53, where it is the identity, apart from the quotients
    the gateway displays, which are treated there); objects are insertion-ordered
    association lists without prototype chain. *)

From S2P Require Import Prelude.

#[local] Set Warnings "-register-all".

(** ** Strings: UTF-16 code units *)

Abbreviation jstr := (list Z).

(** ASCII literals of the source. *)
Fixpoint js (s : string) : jstr :=
  match s with
  | EmptyString => []
  | String c r => Z.of_N (Ascii.N_of_ascii c) :: js r
  end.
Arguments js _%_string.

Definition is_code_unit (c : Z) : bool := (0 <=? c) && (c <=? 65535).

(** White space of [String.prototype.trim] and of the class [\s]. *)
Definition is_space (c : Z) : bool :=
  existsb (Z.eqb c) [9; 10; 11; 12; 13; 32; 160; 5760; 8232; 8233; 8239; 8287; 12288; 65279]
  || ((8192 <=? c) && (c <=? 8202)).

Fixpoint drop_while (p : Z → bool) (s : jstr) : jstr :=
  match s with
  | [] => []
  | c :: r => if p c then drop_while p r else s
  end.

Definition trim (s : jstr) : jstr :=
  rev (drop_while is_space (rev (drop_while is_space s))).

Fixpoint starts_with (prefix s : jstr) : bool :=
  match prefix, s with
  | [], _ => true
  | p :: ps, c :: cs => (p =? c) && starts_with ps cs
  | _ :: _, [] => false
  end.

Fixpoint includes (sub s : jstr) : bool :=
  starts_with sub s ||
  match s with
  | [] => false
  | _ :: r => includes sub r
  end.

(** [s.split(c)] on a one-unit separator. *)
Fixpoint split_on (sep : Z) (s : jstr) : list jstr :=
  match s with
  | [] => [[]]
  | c :: r =>
      if c =? sep then [] :: split_on sep r
      else match split_on sep r with
           | [] => [[c]]
           | w :: ws => (c :: w) :: ws
           end
  end.

(** [l.join(sep)]. *)
Fixpoint join (sep : jstr) (l : list jstr) : jstr :=
  match l with
  | [] => []
  | [x] => x
  | x :: r => x ++ sep ++ join sep r
  end.

(** [s.replace(/\/$/, '')]: drops one trailing slash. *)
Definition strip_trailing_slash (s : jstr) : jstr :=
  match rev s with
  | 47 :: r => rev r
  | _ => s
  end.

Definition str_eqb (a b : jstr) : bool := bool_decide (a = b).

(** [a || b] on strings: the empty string is falsy. *)
Definition str_or (a b : jstr) : jstr :=
  match a with [] => b | _ => a end.

(** ** Decimal notation *)

Definition is_digit (c : Z) : bool := (48 <=? c) && (c <=? 57).

Fixpoint digits_fuel (fuel : nat) (n : Z) (acc : jstr) : jstr :=
  match fuel with
  | O => acc
  | S f =>
      let acc' := (48 + n mod 10) :: acc in
      if n <? 10 then acc' else digits_fuel f (n / 10) acc'
  end.

(** Decimal digits of a non-negative integer; [log2 n + 1] rounds are enough
    because every round divides by ten. *)
Definition digits (n : Z) : jstr := digits_fuel (S (Z.to_nat (Z.log2 n))) n [].

Definition digits_val_from (a : Z) (l : jstr) : Z :=
  fold_left (λ a c, a * 10 + (c - 48)) l a.

Definition digits_val (l : jstr) : Z := digits_val_from 0 l.

(** [Number.prototype.toString] on an integer below 10^21. *)
Definition Z_to_str (z : Z) : jstr :=
  if z <? 0 then 45 :: digits (- z) else digits z.

(** [parseInt(s)] on decimal text: the longest digit prefix after white space
    and an optional sign; [None] is [NaN]. *)
Fixpoint take_while (p : Z → bool) (s : jstr) : jstr :=
  match s with
  | [] => []
  | c :: r => if p c then c :: take_while p r else []
  end.

Definition parse_int (s : jstr) : option Z :=
  let '(neg, r) := match drop_while is_space s with
                   | 45 :: r => (true, r)
                   | 43 :: r => (false, r)
                   | r => (false, r)
                   end in
  match take_while is_digit r with
  | [] => None
  | ds => Some (if neg then - digits_val ds else digits_val ds)
  end.

(** ** Numbers *)

(** [NFrac m k] is [m / 10^k] with [m] not a multiple of ten. *)
Inductive num : Type :=
| NInt (z : Z)
| NFrac (m : Z) (k : positive)
| NNaN.

#[global] Instance num_eq_dec : EqDecision num.
Proof. solve_decision. Defined.

(** [n > z] for an integer [z]. *)
Definition num_gt (n : num) (z : Z) : bool :=
  match n with
  | NInt a => z <? a
  | NFrac m k => z * 10 ^ Zpos k <? m
  | NNaN => false
  end.

(** [Number.prototype.toString]. *)
Fixpoint strip_zeros (fuel : nat) (m : Z) (k : Z) : Z * Z :=
  match fuel with
  | O => (m, k)
  | S f => if (m mod 10 =? 0) && negb (m =? 0) then strip_zeros f (m / 10) (k + 1) else (m, k)
  end.

Definition exp_form (sign : jstr) (ds : jstr) (n : Z) : jstr :=
  let e := n - 1 in
  let es := (if e <? 0 then [45] else [43]) ++ digits (Z.abs e) in
  match ds with
  | [] => []
  | [d] => sign ++ [d; 101] ++ es
  | d :: r => sign ++ [d; 46] ++ r ++ [101] ++ es
  end.

Definition num_to_str (n : num) : jstr :=
  match n with
  | NNaN => js "NaN"
  | NInt z =>
      if Z.abs z <? 10 ^ 21 then Z_to_str z
      else let '(m, _) := strip_zeros (Z.to_nat (Z.log2 (Z.abs z))) (Z.abs z) 0 in
           exp_form (if z <? 0 then [45] else []) (digits m) (Z.of_nat (length (digits (Z.abs z))))
  | NFrac m k =>
      let sign := if m <? 0 then [45] else [] in
      let ds := digits (Z.abs m) in
      let n := Z.of_nat (length ds) - Zpos k in
      if (0 <? n) && (n <=? 21) then sign ++ take (Z.to_nat n) ds ++ [46] ++ drop (Z.to_nat n) ds
      else if (-6 <? n) && (n <=? 0) then sign ++ [48; 46] ++ replicate (Z.to_nat (- n)) 48 ++ ds
      else exp_form sign ds n
  end.

(** ** Values *)

Inductive value : Type :=
| VUndef
| VNull
| VBool (b : bool)
| VNum (n : num)
| VStr (s : jstr)
| VArr (l : list value)
| VObj (fs : list (jstr * value)).

(** The induction principle with hypotheses for the elements of arrays and the
    fields of objects. *)
Section ValueInd.
Context (P : value → Prop).
Context (HU : P VUndef) (HN : P VNull) (HB : ∀ b, P (VBool b)) (Hn : ∀ n, P (VNum n))
        (HS : ∀ s, P (VStr s)) (HA : ∀ l, Forall P l → P (VArr l))
        (HO : ∀ fs, Forall (λ f, P f.2) fs → P (VObj fs)).

Fixpoint value_ind_strong (v : value) : P v :=
  match v with
  | VUndef => HU
  | VNull => HN
  | VBool b => HB b
  | VNum n => Hn n
  | VStr s => HS s
  | VArr l => HA l ((fix go (l : list value) : Forall P l :=
      match l with
      | [] => List.Forall_nil _
      | x :: r => List.Forall_cons _ _ _ (value_ind_strong x) (go r)
      end) l)
  | VObj fs => HO fs ((fix go (fs : list (jstr * value)) : Forall (λ f, P f.2) fs :=
      match fs with
      | [] => List.Forall_nil _
      | f :: r => List.Forall_cons _ _ _ (value_ind_strong f.2) (go r)
      end) fs)
  end.
End ValueInd.

Definition vint (z : Z) : value := VNum (NInt z).

(** JavaScript's [ToBoolean]. *)
Definition truthy (v : value) : bool :=
  match v with
  | VUndef | VNull => false
  | VBool b => b
  | VNum (NInt z) => negb (z =? 0)
  | VNum (NFrac _ _) => true
  | VNum NNaN => false
  | VStr [] => false
  | VStr (_ :: _) => true
  | VArr _ | VObj _ => true
  end.

(** [v === s] for a string [s]. *)
Definition is_str (s : jstr) (v : value) : bool :=
  match v with VStr t => str_eqb t s | _ => false end.

(** [a || b]. *)
Definition js_or (a b : value) : value := if truthy a then a else b.

Fixpoint obj_get {A} (k : jstr) (fs : list (jstr * A)) : option A :=
  match fs with
  | [] => None
  | (k', x) :: r => if str_eqb k k' then Some x else obj_get k r
  end.

(** Assignment to a property: an existing key keeps its place. *)
Fixpoint obj_set {A} (k : jstr) (x : A) (fs : list (jstr * A)) : list (jstr * A) :=
  match fs with
  | [] => [(k, x)]
  | (k', y) :: r => if str_eqb k k' then (k, x) :: r else (k', y) :: obj_set k x r
  end.

(** [Object.assign(target, source)] and object spread. *)
Definition obj_assign {A} (target source : list (jstr * A)) : list (jstr * A) :=
  fold_left (λ acc f, obj_set f.1 f.2 acc) source target.

(** ** Exceptions *)

(** The classes of onvm-sdk/src/errors.ts. *)
Inductive onvm_class : Type :=
| COnvmError
| COnvmAuthError
| COnvmNetworkError
| COnvmRateLimitError
| COnvmConfigError.

#[global] Instance onvm_class_eq_dec : EqDecision onvm_class.
Proof. solve_decision. Defined.

(** A thrown value: an instance of an [OnvmError] class, another [Error], or a
    value that is not an [Error].  [details] is the source's [any] field. *)
Inductive exn : Type :=
| OnvmErr (cls : onvm_class) (message : jstr) (statusCode : option Z) (details : detail)
| JsErr (name message : jstr)
| Thrown (v : value)
with detail : Type :=
| NoDetails
| DetVal (v : value)
| DetExn (e : exn).

(** Texts of the exceptions the JavaScript engine raises itself: they differ
    between engines and no theorem depends on them. *)
Class Engine : Type := {
  syntax_error_message : jstr → jstr;
  type_error_message : jstr → jstr;
}.

Section Access.
Context `{Engine}.

Definition type_error {A} (what : jstr) : outcome exn A :=
  Throw (JsErr (js "TypeError") (type_error_message what)).

(** Property access [v.k]. *)
Definition get (v : value) (k : jstr) : outcome exn value :=
  match v with
  | VUndef | VNull => type_error k
  | VObj fs => Ok (default VUndef (obj_get k fs))
  | VArr l => Ok (if str_eqb k (js "length") then vint (Z.of_nat (length l)) else VUndef)
  | VStr s => Ok (if str_eqb k (js "length") then vint (Z.of_nat (length s)) else VUndef)
  | VBool _ | VNum _ => Ok VUndef
  end.

(** [v.map(f)]: a [TypeError] unless [v] is an array. *)
Fixpoint traverse {A B} (f : A → outcome exn B) (l : list A) : outcome exn (list B) :=
  match l with
  | [] => Ok []
  | x :: r => let! y := f x in let! ys := traverse f r in Ok (y :: ys)
  end.

Definition js_map (v : value) (f : value → outcome exn value) : outcome exn value :=
  match v with
  | VArr l => let! ys := traverse f l in Ok (VArr ys)
  | _ => type_error (js "map")
  end.
End Access.

(** ** TypeScript types *)

(** An interface lists its members with an optionality mark ([?]). *)
Inductive ty : Type :=
| TAny
| TStr
| TNum
| TBool
| TNull
| TLit (s : jstr)
| TArr (t : ty)
| TDict (t : ty)
| TObj (members : list (jstr * (bool * ty)))
| TUnion (l : list ty).

(** A value conforms to a type; as in TypeScript, an object may have members
    the interface does not list. *)
Fixpoint conforms (t : ty) (v : value) {struct t} : bool :=
  match t with
  | TAny => true
  | TStr => match v with VStr _ => true | _ => false end
  | TNum => match v with VNum _ => true | _ => false end
  | TBool => match v with VBool _ => true | _ => false end
  | TNull => match v with VNull => true | _ => false end
  | TLit s => match v with VStr s' => str_eqb s s' | _ => false end
  | TArr t' => match v with VArr l => forallb (conforms t') l | _ => false end
  | TDict t' => match v with VObj fs => forallb (λ f, conforms t' f.2) fs | _ => false end
  | TObj ms =>
      match v with
      | VObj fs =>
          forallb (λ m, let '(k, (optional, t')) := m in
            match obj_get k fs with
            | None | Some VUndef => optional
            | Some x => conforms t' x
            end) ms
      | _ => false
      end
  | TUnion l => existsb (λ t', conforms t' v) l
  end.

(** Members of an interface: mandatory and optional. *)
Definition mem (k : string) (t : ty) : jstr * (bool * ty) := (js k, (false, t)).
Definition opt (k : string) (t : ty) : jstr * (bool * ty) := (js k, (true, t)).
Arguments mem _%_string _.
Arguments opt _%_string _.

(** [T | null]. *)
Definition nullable (t : ty) : ty := TUnion [t; TNull].

(** ** Lemmas *)

Lemma str_eqb_eq a b : str_eqb a b = true ↔ a = b.
Proof. apply bool_decide_eq_true. Qed.

Lemma str_eqb_refl a : str_eqb a a = true.
Proof. by apply str_eqb_eq. Qed.

Lemma str_eqb_neq a b : a ≠ b → str_eqb a b = false.
Proof. apply bool_decide_eq_false. Qed.

Lemma starts_with_app p s : starts_with p (p ++ s) = true.
Proof. induction p as [|c p IH]; simpl; [done|]. by rewrite Z.eqb_refl. Qed.

Lemma starts_with_spec p s : starts_with p s = true ↔ ∃ r, s = p ++ r.
Proof.
  split; [|intros [r ->]; apply starts_with_app].
  revert s. induction p as [|c p IH]; intros s; simpl; [eauto|].
  destruct s as [|d s]; [done|]. intros H. zbool. subst.
  destruct (IH s) as [r ->]; [done|]. by exists r.
Qed.

(** *** Decimal notation *)

Lemma digits_fuel_val fuel n acc :
  0 ≤ n < 2 ^ Z.of_nat fuel → (0 < fuel)%nat →
  digits_val (digits_fuel fuel n acc) = digits_val_from n acc.
Proof.
  unfold digits_val. revert n acc. induction fuel as [|f IH]; intros n acc Hn Hf; [lia|].
  simpl. pose proof (Z.div_mod n 10 ltac:(lia)) as Hdm.
  assert (0 ≤ n / 10) as Hdiv by (apply Z.div_pos; lia).
  case_if; zbool.
  - unfold digits_val_from. simpl. f_equal. rewrite (Z.mod_small n 10); lia.
  - destruct f as [|f]; [simpl in Hn; lia|].
    rewrite IH; [| |lia].
    + unfold digits_val_from. simpl. f_equal. lia.
    + rewrite Nat2Z.inj_succ, Z.pow_succ_r in Hn by lia. split; [done|].
      apply Z.div_lt_upper_bound; lia.
Qed.

Lemma digits_fuel_digit fuel n acc :
  Forall (λ c, is_digit c = true) acc → Forall (λ c, is_digit c = true) (digits_fuel fuel n acc).
Proof.
  revert n acc. induction fuel as [|f IH]; intros n acc Hacc; simpl; [done|].
  assert (is_digit (48 + n mod 10) = true).
  { pose proof (Z.mod_pos_bound n 10 ltac:(lia)). unfold is_digit.
    apply andb_true_intro. split; apply Z.leb_le; lia. }
  case_if; [by constructor|]. apply IH. by constructor.
Qed.

Lemma digits_digit n : Forall (λ c, is_digit c = true) (digits n).
Proof. by apply digits_fuel_digit. Qed.

Lemma digits_value n : 0 ≤ n → digits_val (digits n) = n.
Proof.
  intros Hn. unfold digits. rewrite digits_fuel_val; [done| |lia].
  split; [done|]. destruct (Z.eq_dec n 0) as [->|Hne]; [done|].
  rewrite Nat2Z.inj_succ, Z2Nat.id by apply Z.log2_nonneg.
  apply Z.log2_spec. lia.
Qed.

Lemma digits_fuel_app fuel n acc : ∃ l, digits_fuel fuel n acc = l ++ acc ∧ (0 < fuel → l ≠ [])%nat.
Proof.
  revert n acc. induction fuel as [|f IH]; intros n acc; simpl.
  - exists []. split; [done | lia].
  - case_if.
    + exists [48 + n mod 10]. done.
    + destruct (IH (n / 10) ((48 + n mod 10) :: acc)) as (l & -> & _).
      exists (l ++ [48 + n mod 10]). rewrite <- app_assoc. split; [done|]. by destruct l.
Qed.

Lemma digits_nonempty n : digits n ≠ [].
Proof.
  unfold digits. destruct (digits_fuel_app (S (Z.to_nat (Z.log2 n))) n []) as (l & -> & Hl).
  rewrite app_nil_r. apply Hl. lia.
Qed.

(** No leading zero, except for zero itself. *)
Lemma digits_fuel_head fuel n acc :
  0 < n < 2 ^ Z.of_nat fuel → ∃ d r, digits_fuel fuel n acc = d :: r ∧ 49 ≤ d ≤ 57.
Proof.
  revert n acc. induction fuel as [|f IH]; intros n acc Hn; [simpl in Hn; lia|].
  simpl. pose proof (Z.mod_pos_bound n 10 ltac:(lia)).
  case_if; zbool.
  - rewrite (Z.mod_small n 10) by lia. do 2 eexists. split; [done | lia].
  - apply IH. rewrite Nat2Z.inj_succ, Z.pow_succ_r in Hn by lia. split.
    + apply Z.div_str_pos. lia.
    + apply Z.div_lt_upper_bound; lia.
Qed.

Lemma digits_head n : 0 < n → ∃ d r, digits n = d :: r ∧ 49 ≤ d ≤ 57.
Proof.
  intros Hn. apply digits_fuel_head. split; [done|].
  rewrite Nat2Z.inj_succ, Z2Nat.id by apply Z.log2_nonneg. apply Z.log2_spec. lia.
Qed.

Lemma digits_zero : digits 0 = [48].
Proof. reflexivity. Qed.

Lemma take_while_app p l s :
  Forall (λ c, p c = true) l → (match s with [] => True | c :: _ => p c = false end) →
  take_while p (l ++ s) = l.
Proof.
  induction 1 as [|c l Hc _ IH]; intros Hs; simpl.
  - destruct s as [|c s]; simpl; [done|]. by rewrite Hs.
  - rewrite Hc, IH; done.
Qed.

(** [parseInt] reads back what [toString] wrote. *)
Lemma parse_int_Z_to_str z : parse_int (Z_to_str z) = Some z.
Proof.
  assert (∀ n, 0 ≤ n → ∃ d r, digits n = d :: r ∧ is_space d = false ∧ d ≠ 45 ∧ d ≠ 43) as Hhd.
  { intros n Hn. destruct (Z.eq_dec n 0) as [->|]; [by exists 48, []|].
    destruct (digits_head n ltac:(lia)) as (d & r & -> & Hd). exists d, r. split; [done|].
    split; [|lia]. unfold is_space. simpl.
    repeat (rewrite (proj2 (Z.eqb_neq d _)) by lia). simpl.
    rewrite (proj2 (Z.leb_gt 8192 d)) by lia. done. }
  assert (∀ n, take_while is_digit (digits n) = digits n) as Htw.
  { intros n. rewrite <- (app_nil_r (digits n)) at 1. apply take_while_app; [apply digits_digit|done]. }
  unfold parse_int, Z_to_str. case_if; zbool.
  - change (drop_while is_space (45 :: digits (- z))) with (45 :: digits (- z)). cbn iota beta.
    rewrite Htw. pose proof (digits_nonempty (- z)) as Hne.
    pose proof (digits_value (- z) ltac:(lia)) as Hv.
    destruct (digits (- z)) as [|d r]; [done|]. f_equal. lia.
  - destruct (Hhd z ltac:(lia)) as (d & r & E & Hsp & H1 & H2).
    pose proof (digits_value z ltac:(lia)) as Hv. pose proof (Htw z) as Ht.
    rewrite E in *. simpl. rewrite Hsp.
    assert (match d :: r with 45 :: r => (true, r) | 43 :: r => (false, r) | r => (false, r) end
            = (false, d :: r)) as ->.
    { destruct d as [|p|p]; try done. repeat (destruct p as [p|p|]; try done). }
    rewrite Ht. by f_equal.
Qed.

Lemma Z_to_str_inj a b : Z_to_str a = Z_to_str b → a = b.
Proof. intros H. pose proof (parse_int_Z_to_str a) as Ha. rewrite H, parse_int_Z_to_str in Ha. by simplify_eq. Qed.

(** A decimal number holds only digits and the minus sign. *)
Lemma Z_to_str_chars z : Forall (λ c, is_digit c = true ∨ c = 45) (Z_to_str z).
Proof.
  unfold Z_to_str. case_if; [constructor; [by right|]|];
    (eapply Forall_impl; [apply digits_digit | by left]).
Qed.

(** *** Objects *)

Section ObjectLemmas.
Context {A : Type}.
Implicit Types fs target source : list (jstr * A).

Lemma obj_get_set k x fs : obj_get k (obj_set k x fs) = Some x.
Proof.
  induction fs as [|[k' y] fs IH]; simpl; [by rewrite str_eqb_refl|].
  destruct (str_eqb k k') eqn:E; simpl; [by rewrite str_eqb_refl | by rewrite E].
Qed.

Lemma obj_get_set_ne k k' x fs : k ≠ k' → obj_get k (obj_set k' x fs) = obj_get k fs.
Proof.
  intros Hne. induction fs as [|[k'' y] fs IH]; simpl; [by rewrite str_eqb_neq|].
  destruct (str_eqb k' k'') eqn:E; simpl; [|by rewrite IH].
  apply str_eqb_eq in E as ->. by rewrite str_eqb_neq.
Qed.

Lemma obj_get_assign_miss k target source :
  obj_get k source = None → obj_get k (obj_assign target source) = obj_get k target.
Proof.
  unfold obj_assign. revert target. induction source as [|[k' y] source IH]; intros target; simpl; [done|].
  destruct (str_eqb k k') eqn:E; [done|]. intros H. rewrite IH by done. apply obj_get_set_ne.
  intros ->. by rewrite str_eqb_refl in E.
Qed.

(** The keys written by [Object.assign] win over the target's. *)
Lemma obj_get_assign_hit k x target source :
  NoDup source.*1 → obj_get k source = Some x → obj_get k (obj_assign target source) = Some x.
Proof.
  unfold obj_assign. revert target. induction source as [|[k' y] source IH]; intros target; simpl; [done|].
  rewrite NoDup_cons. intros [Hni Hnd]. destruct (str_eqb k k') eqn:E.
  - apply str_eqb_eq in E as ->. intros [= ->].
    fold (obj_assign (obj_set k' x target) source). rewrite obj_get_assign_miss.
    + apply obj_get_set.
    + clear -Hni. induction source as [|[k y] source IH]; [done|]. simpl in *.
      rewrite not_elem_of_cons in Hni. destruct Hni as [Hne Hni].
      rewrite str_eqb_neq by done. auto.
  - intros H. by apply IH.
Qed.
End ObjectLemmas.

Lemma traverse_ok {A B : Type} (f : A → outcome exn B) (g : A → B) l :
  Forall (λ x, f x = Ok (g x)) l → traverse f l = Ok (g <$> l).
Proof. induction 1 as [|x l Hx _ IH]; simpl; [done|]. by rewrite Hx, IH. Qed.

#[export] Hint Resolve str_eqb_refl digits_digit digits_nonempty : onvm.

(** Rebuilding an object from its own fields. *)
Lemma obj_set_fresh {A} k (x : A) fs : k ∉ fs.*1 → obj_set k x fs = fs ++ [(k, x)].
Proof.
  induction fs as [|[k' y] fs IH]; simpl; [done|]. rewrite not_elem_of_cons. intros [Hne Hni].
  rewrite str_eqb_neq by done. by rewrite IH.
Qed.

Lemma obj_assign_nodup {A} (fs acc : list (jstr * A)) :
  NoDup (acc ++ fs).*1 → obj_assign acc fs = acc ++ fs.
Proof.
  unfold obj_assign. revert acc. induction fs as [|[k x] fs IH]; intros acc Hnd; simpl; [by rewrite app_nil_r|].
  rewrite obj_set_fresh.
  - rewrite IH; [by rewrite <- app_assoc|]. by rewrite <- app_assoc.
  - rewrite fmap_app, NoDup_app in Hnd. destruct Hnd as (_ & Hd & _). intros Hk.
    apply (Hd k Hk). simpl. left.
Qed.

Lemma obj_assign_empty {A} (fs : list (jstr * A)) : NoDup fs.*1 → obj_assign [] fs = fs.
Proof. intros H. by apply obj_assign_nodup. Qed.

(** ** Conformance, member by member *)

Definition member_ok (optional : bool) (t : ty) (x : option value) : bool :=
  match x with
  | None | Some VUndef => optional
  | Some v => conforms t v
  end.

Lemma conforms_obj ms v :
  conforms (TObj ms) v = true ↔
  ∃ fs, v = VObj fs ∧ ∀ k o t, In (k, (o, t)) ms → member_ok o t (obj_get k fs) = true.
Proof.
  destruct v as [| | | | | |fs]; try (split; [done | by intros (? & ? & _)]).
  cbn [conforms]. rewrite forallb_forall. split.
  - intros Hall. exists fs. split; [done|]. intros k o t Hin. apply (Hall _ Hin).
  - intros (fs' & [= <-] & Hall) [k [o t]] Hin. apply (Hall _ _ _ Hin).
Qed.

(** Reading a member of an object of a known type. *)
Lemma conforms_get `{Engine} ms v k o t :
  conforms (TObj ms) v = true → In (k, (o, t)) ms →
  ∃ x, get v k = Ok x ∧ member_ok o t (Some x) = true.
Proof.
  intros (fs & -> & Hall)%conforms_obj Hin. specialize (Hall k o t Hin). simpl. eexists. split; [done|].
  by destruct (obj_get k fs) as [x|].
Qed.

(** Mapping over an array of a known element type. *)
Lemma js_map_conforms `{Engine} (f : value → outcome exn value) t t' v :
  (∀ x, conforms t x = true → ∃ y, f x = Ok y ∧ conforms t' y = true) →
  conforms (TArr t) v = true → ∃ w, js_map v f = Ok w ∧ conforms (TArr t') w = true.
Proof.
  intros Hf Hv. destruct v as [| | | | |l|]; try done. cbn [conforms] in Hv. simpl.
  assert (∃ ys, traverse f l = Ok ys ∧ forallb (conforms t') ys = true) as (ys & -> & Hys).
  { induction l as [|x l IH]; [by exists []|]. simpl in Hv. apply andb_prop in Hv as [Hx Hl].
    destruct (Hf x Hx) as (y & Hy & Hcy). destruct (IH Hl) as (ys & Hys & Hcs).
    exists (y :: ys). simpl. rewrite Hy. simpl. rewrite Hys. simpl. by rewrite Hcy, Hcs. }
  exists (VArr ys). done.
Qed.
