(* ===== verification/Codec.v ===== *)
(** * Byte codecs of the JavaScript platform

    What [Buffer], [btoa]/[atob] and [fetch] do with bytes: hexadecimal, base64
    and UTF-8, encoders and decoders, with the round trips between them. *)

From S2P Require Import Prelude JsValue.

(** Byte sequences ([Buffer], [Uint8Array], [ArrayBuffer]). *)
Abbreviation bytes := (list Z).

Definition is_byte (b : Z) : bool := (0 <=? b) && (b <=? 255).
Definition byte_list (bs : bytes) : Prop := Forall (λ b, 0 ≤ b ≤ 255) bs.
Definition unit_str (s : jstr) : Prop := Forall (λ c, 0 ≤ c ≤ 65535) s.

(** ** Hexadecimal *)

Definition hex_digit (n : Z) : Z := if n <? 10 then 48 + n else 87 + n.

(** [buf.toString('hex')]. *)
Fixpoint hex_encode (bs : bytes) : jstr :=
  match bs with
  | [] => []
  | b :: r => hex_digit (b / 16) :: hex_digit (b mod 16) :: hex_encode r
  end.

Definition hex_val (c : Z) : option Z :=
  if (48 <=? c) && (c <=? 57) then Some (c - 48)
  else if (97 <=? c) && (c <=? 102) then Some (c - 87)
  else if (65 <=? c) && (c <=? 70) then Some (c - 55)
  else None.

(** [Buffer.from(s, 'hex')]: decoding stops at the first pair that is not two
    hexadecimal digits, an odd last digit is dropped. *)
Fixpoint hex_decode (s : jstr) : bytes :=
  match s with
  | a :: b :: r =>
      match hex_val a, hex_val b with
      | Some x, Some y => (16 * x + y) :: hex_decode r
      | _, _ => []
      end
  | _ => []
  end.

Definition is_hex_lower (c : Z) : bool :=
  ((48 <=? c) && (c <=? 57)) || ((97 <=? c) && (c <=? 102)).

(** ** Base64 *)

Definition b64_char (n : Z) : Z :=
  if n <? 26 then 65 + n
  else if n <? 52 then 71 + n
  else if n <? 62 then n - 4
  else if n =? 62 then 43 else 47.

Definition b64_val (c : Z) : option Z :=
  if (65 <=? c) && (c <=? 90) then Some (c - 65)
  else if (97 <=? c) && (c <=? 122) then Some (c - 71)
  else if (48 <=? c) && (c <=? 57) then Some (c + 4)
  else if c =? 43 then Some 62
  else if c =? 47 then Some 63
  else None.

(** [buf.toString('base64')]. *)
Fixpoint b64_encode (bs : bytes) : jstr :=
  match bs with
  | a :: b :: c :: r =>
      b64_char (a / 4) :: b64_char (a mod 4 * 16 + b / 16)
      :: b64_char (b mod 16 * 4 + c / 64) :: b64_char (c mod 64) :: b64_encode r
  | [a; b] =>
      [b64_char (a / 4); b64_char (a mod 4 * 16 + b / 16); b64_char (b mod 16 * 4); 61]
  | [a] => [b64_char (a / 4); b64_char (a mod 4 * 16); 61; 61]
  | [] => []
  end.

(** Groups of four sextets to three bytes; left-over bits are dropped. *)
Fixpoint b64_groups (xs : list Z) : bytes :=
  match xs with
  | a :: b :: c :: d :: r =>
      (a * 4 + b / 16) :: (b mod 16 * 16 + c / 4) :: (c mod 4 * 64 + d) :: b64_groups r
  | [a; b; c] => [a * 4 + b / 16; b mod 16 * 16 + c / 4]
  | [a; b] => [a * 4 + b / 16]
  | _ => []
  end.

(** [Buffer.from(s, 'base64')]: lenient, accepts the URL alphabet, ignores the
    characters outside the alphabet and stops at the padding. *)
Definition b64_val_lenient (c : Z) : option Z :=
  if c =? 45 then Some 62 else if c =? 95 then Some 63 else b64_val c.

Definition b64_decode (s : jstr) : bytes :=
  b64_groups (omap b64_val_lenient (take_while (λ c, negb (c =? 61)) s)).

(** [btoa(s)]: [None] is the InvalidCharacterError raised when a code unit does
    not fit a byte. *)
Definition btoa (s : jstr) : option jstr :=
  if forallb is_byte s then Some (b64_encode s) else None.

Definition is_ascii_space (c : Z) : bool := existsb (Z.eqb c) [9; 10; 12; 13; 32].

Definition strip_padding (s : jstr) : jstr :=
  if Z.of_nat (length s) mod 4 =? 0 then
    match rev s with
    | 61 :: 61 :: r => rev r
    | 61 :: r => rev r
    | _ => s
    end
  else s.

(** [atob(s)]: [None] is the InvalidCharacterError of malformed input. *)
Definition atob (s : jstr) : option jstr :=
  let s := strip_padding (filter (λ c, is_ascii_space c = false) s) in
  if Z.of_nat (length s) mod 4 =? 1 then None
  else b64_groups <$> mapM b64_val s.

(** ** UTF-8 *)

Definition is_high (c : Z) : bool := (55296 <=? c) && (c <=? 56319).
Definition is_low (c : Z) : bool := (56320 <=? c) && (c <=? 57343).

(** Encoding of one scalar value of the basic plane. *)
Definition utf8_bmp (c : Z) : bytes :=
  if c <? 128 then [c]
  else if c <? 2048 then [192 + c / 64; 128 + c mod 64]
  else [224 + c / 4096; 128 + c / 64 mod 64; 128 + c mod 64].

Definition utf8_pair (hi lo : Z) : bytes :=
  let cp := 65536 + (hi - 55296) * 1024 + (lo - 56320) in
  [240 + cp / 262144; 128 + cp / 4096 mod 64; 128 + cp / 64 mod 64; 128 + cp mod 64].

Definition replacement : Z := 65533.

(** [Buffer.from(s)] and the body [fetch] sends for a string: unpaired
    surrogates become U+FFFD. *)
Fixpoint utf8_encode (s : jstr) : bytes :=
  match s with
  | [] => []
  | c :: r =>
      if is_high c then
        match r with
        | d :: r' => if is_low d then utf8_pair c d ++ utf8_encode r'
                     else utf8_bmp replacement ++ utf8_encode r
        | [] => utf8_bmp replacement
        end
      else if is_low c then utf8_bmp replacement ++ utf8_encode r
      else utf8_bmp c ++ utf8_encode r
  end.

(** The decoder of the Encoding standard: [cp] read so far, [need] bytes to go,
    the next one within [lo..hi]. *)
Inductive u8_state : Type :=
| U8Idle
| U8Need (cp : Z) (need : nat) (lo hi : Z).

#[global] Instance u8_state_eq_dec : EqDecision u8_state.
Proof. solve_decision. Defined.

Definition u8_start (b : Z) : jstr * u8_state :=
  if b <=? 127 then ([b], U8Idle)
  else if (194 <=? b) && (b <=? 223) then ([], U8Need (b - 192) 1 128 191)
  else if b =? 224 then ([], U8Need 0 2 160 191)
  else if b =? 237 then ([], U8Need 13 2 128 159)
  else if (225 <=? b) && (b <=? 239) then ([], U8Need (b - 224) 2 128 191)
  else if b =? 240 then ([], U8Need 0 3 144 191)
  else if (241 <=? b) && (b <=? 243) then ([], U8Need (b - 240) 3 128 191)
  else if b =? 244 then ([], U8Need 4 3 128 143)
  else ([replacement], U8Idle).

(** Code units of a code point. *)
Definition utf16 (cp : Z) : jstr :=
  if cp <? 65536 then [cp]
  else [55296 + (cp - 65536) / 1024; 56320 + (cp - 65536) mod 1024].

Definition u8_step (st : u8_state) (b : Z) : jstr * u8_state :=
  match st with
  | U8Idle => u8_start b
  | U8Need cp need lo hi =>
      if (lo <=? b) && (b <=? hi) then
        let cp' := cp * 64 + (b - 128) in
        match need with
        | S (S n) => ([], U8Need cp' (S n) 128 191)
        | _ => (utf16 cp', U8Idle)
        end
      else let '(o, st') := u8_start b in (replacement :: o, st')
  end.

Fixpoint u8_run (st : u8_state) (bs : bytes) : jstr :=
  match bs with
  | [] => match st with U8Idle => [] | _ => [replacement] end
  | b :: r => let '(o, st') := u8_step st b in o ++ u8_run st' r
  end.

(** [buf.toString('utf8')] and Rust's [String::from_utf8_lossy]. *)
Definition utf8_decode (bs : bytes) : jstr := u8_run U8Idle bs.

(** [await response.text()]: UTF-8 decoding with a leading byte order mark
    removed. *)
Definition strip_bom (bs : bytes) : bytes :=
  match bs with
  | 239 :: 187 :: 191 :: r => r
  | _ => bs
  end.

Definition utf8_text (bs : bytes) : jstr := utf8_decode (strip_bom bs).

(** Unpaired surrogates replaced ([String.prototype.toWellFormed]). *)
Fixpoint well_formed (s : jstr) : jstr :=
  match s with
  | [] => []
  | c :: r =>
      if is_high c then
        match r with
        | d :: r' => if is_low d then c :: d :: well_formed r' else replacement :: well_formed r
        | [] => [replacement]
        end
      else if is_low c then replacement :: well_formed r
      else c :: well_formed r
  end.

(** ** Lemmas *)

(** Split range facts about explicit lists into facts about their elements. *)
Ltac inv_forall :=
  unfold byte_list, unit_str in *;
  repeat match goal with H : Forall _ (_ :: _) |- _ => apply Forall_cons in H as [? H] end.

(** *** Hexadecimal *)

Lemma hex_val_digit n : 0 ≤ n < 16 → hex_val (hex_digit n) = Some n.
Proof.
  intros Hn.
  assert (bool_decide (hex_val (hex_digit n) = Some n) = true) as H
    by (apply (forall_from_spec 16 0 (λ n, bool_decide (hex_val (hex_digit n) = Some n)) n); [done | lia]).
  by apply bool_decide_eq_true in H.
Qed.

Lemma hex_digit_lower n : 0 ≤ n < 16 → is_hex_lower (hex_digit n) = true.
Proof.
  intros Hn. apply (forall_from_spec 16 0 (λ n, is_hex_lower (hex_digit n)) n); [done | lia].
Qed.

Lemma byte_nibbles b : 0 ≤ b ≤ 255 → 0 ≤ b / 16 < 16 ∧ 0 ≤ b mod 16 < 16.
Proof.
  intros Hb. split; [|apply Z.mod_pos_bound; lia].
  split; [apply Z.div_pos | apply Z.div_lt_upper_bound]; lia.
Qed.

Lemma hex_decode_encode bs : byte_list bs → hex_decode (hex_encode bs) = bs.
Proof.
  induction 1 as [|b bs Hb _ IH]; simpl; [done|].
  destruct (byte_nibbles b Hb). rewrite !hex_val_digit, IH by done. f_equal.
  pose proof (Z.div_mod b 16). lia.
Qed.

Lemma length_hex_encode bs : length (hex_encode bs) = (2 * length bs)%nat.
Proof. induction bs as [|b bs IH]; simpl; [done|]. rewrite IH. lia. Qed.

Lemma hex_encode_lower bs : byte_list bs → Forall (λ c, is_hex_lower c = true) (hex_encode bs).
Proof.
  induction 1 as [|b bs Hb _ IH]; simpl; [done|].
  destruct (byte_nibbles b Hb). repeat constructor; auto using hex_digit_lower.
Qed.

Lemma hex_val_range c x : hex_val c = Some x → 0 ≤ x < 16.
Proof. unfold hex_val. intros. case_ifs; zbool; lia. Qed.

Lemma hex_decode_props s :
  byte_list (hex_decode s) ∧ (2 * length (hex_decode s) ≤ length s)%nat.
Proof.
  induction s as [s IH] using (induction_ltof1 _ (@length Z)).
  destruct s as [|a [|b r]]; simpl; try (split; [constructor | lia]).
  destruct (hex_val a) as [x|] eqn:Ea; [|split; [constructor | simpl; lia]].
  destruct (hex_val b) as [y|] eqn:Eb; [|split; [constructor | simpl; lia]].
  destruct (IH r) as [H1 H2]; [unfold ltof; simpl; lia|]. simpl. split; [|lia].
  constructor; [|done]. apply hex_val_range in Ea, Eb. lia.
Qed.

(** *** Base64 *)

Lemma b64_val_char n : 0 ≤ n < 64 → b64_val (b64_char n) = Some n.
Proof.
  intros Hn.
  assert (bool_decide (b64_val (b64_char n) = Some n) = true) as H
    by (apply (forall_from_spec 64 0 (λ n, bool_decide (b64_val (b64_char n) = Some n)) n); [done | lia]).
  by apply bool_decide_eq_true in H.
Qed.

(** The characters the encoder uses before the padding. *)
Definition b64_plain (c : Z) : bool :=
  match b64_val c with
  | Some v => negb (c =? 61) && negb (is_ascii_space c)
              && bool_decide (b64_val_lenient c = Some v)
  | None => false
  end.

Lemma b64_char_plain n : 0 ≤ n < 64 → b64_plain (b64_char n) = true.
Proof.
  intros Hn. apply (forall_from_spec 64 0 (λ n, b64_plain (b64_char n)) n); [done | lia].
Qed.

(** The sextets of a byte sequence: [b64_encode] is their spelling plus padding. *)
Fixpoint b64_sextets (bs : bytes) : list Z :=
  match bs with
  | a :: b :: c :: r =>
      a / 4 :: a mod 4 * 16 + b / 16 :: b mod 16 * 4 + c / 64 :: c mod 64 :: b64_sextets r
  | [a; b] => [a / 4; a mod 4 * 16 + b / 16; b mod 16 * 4]
  | [a] => [a / 4; a mod 4 * 16]
  | [] => []
  end.

Definition b64_padding (bs : bytes) : jstr :=
  replicate (Z.to_nat ((- Z.of_nat (length bs)) mod 3)) 61.

(** Induction three elements at a time. *)
Lemma list_ind3 {A} (P : list A → Prop) :
  P [] → (∀ a, P [a]) → (∀ a b, P [a; b]) → (∀ a b c l, P l → P (a :: b :: c :: l)) → ∀ l, P l.
Proof.
  intros H0 H1 H2 H3 l. induction l as [l IH] using (induction_ltof1 _ (@length A)).
  destruct l as [|a [|b [|c r]]]; auto. apply H3, IH. unfold ltof. simpl. lia.
Qed.

Lemma b64_encode_split bs : b64_encode bs = (b64_char <$> b64_sextets bs) ++ b64_padding bs.
Proof.
  induction bs as [|a|a b|a b c bs IH] using list_ind3; [done..|].
  simpl. rewrite IH. do 5 f_equal. unfold b64_padding. do 2 f_equal.
  simpl length. rewrite !Nat2Z.inj_succ.
  replace (- Z.succ (Z.succ (Z.succ (Z.of_nat (length bs))))) with (- Z.of_nat (length bs) + -1 * 3) by lia.
  by rewrite Z.mod_add.
Qed.

Lemma b64_sextets_range bs : byte_list bs → Forall (λ n, 0 ≤ n < 64) (b64_sextets bs).
Proof.
  induction bs as [|a|a b|a b c bs IH] using list_ind3; intros Hbs; simpl;
    inv_forall;
    repeat apply List.Forall_cons; auto using List.Forall_nil;
    Z.to_euclidean_division_equations; lia.
Qed.

Lemma b64_groups_sextets bs : byte_list bs → b64_groups (b64_sextets bs) = bs.
Proof.
  induction bs as [|a|a b|a b c bs IH] using list_ind3; intros Hbs; simpl;
    inv_forall.
  - done.
  - f_equal. Z.to_euclidean_division_equations; lia.
  - f_equal; [|f_equal]; Z.to_euclidean_division_equations; lia.
  - rewrite IH by done. f_equal; [|f_equal; [|f_equal]]; Z.to_euclidean_division_equations; lia.
Qed.

Lemma b64_chars_plain bs : byte_list bs → Forall (λ c, b64_plain c = true) (b64_char <$> b64_sextets bs).
Proof.
  intros H. apply Forall_fmap. eapply Forall_impl; [by apply b64_sextets_range|].
  intros n Hn. by apply b64_char_plain.
Qed.

Lemma b64_plain_inv c :
  b64_plain c = true →
  ∃ v, b64_val c = Some v ∧ b64_val_lenient c = Some v ∧ c ≠ 61 ∧ is_ascii_space c = false.
Proof.
  unfold b64_plain. destruct (b64_val c) as [v|]; [|done].
  intros [[H1 H2]%andb_prop H3]%andb_prop. exists v.
  apply bool_decide_eq_true in H3. apply negb_true_iff in H1, H2. by zbool.
Qed.

(** [Buffer.from(buf.toString('base64'), 'base64')] is [buf]. *)
Lemma b64_decode_encode bs : byte_list bs → b64_decode (b64_encode bs) = bs.
Proof.
  intros Hbs. unfold b64_decode. rewrite b64_encode_split, take_while_app.
  - rewrite <- (b64_groups_sextets bs) at 2 by done. f_equal.
    pose proof (b64_sextets_range bs Hbs) as Hr. induction Hr as [|n ns Hn _ IH]; csimpl; [done|].
    destruct (b64_plain_inv _ (b64_char_plain n Hn)) as (v & Hv & -> & _).
    rewrite b64_val_char in Hv by done. by simplify_eq/=; rewrite IH.
  - eapply Forall_impl; [by apply b64_chars_plain|]. intros c Hc. simpl.
    destruct (b64_plain_inv c Hc) as (_ & _ & _ & Hne & _). apply negb_true_iff. by apply Z.eqb_neq.
  - unfold b64_padding. by destruct (Z.to_nat _).
Qed.

Lemma length_b64_encode bs : (length (b64_encode bs) = 4 * ((length bs + 2) / 3))%nat.
Proof.
  induction bs as [|a|a b|a b c bs IH] using list_ind3; [done..|].
  simpl length. rewrite IH.
  replace (S (S (S (length bs))) + 2)%nat with (length bs + 2 + 1 * 3)%nat by lia.
  rewrite Nat.div_add by lia. lia.
Qed.

Lemma rev_not_pad (l : jstr) :
  Forall (λ c, b64_plain c = true) l → ∀ r, rev l = 61 :: r → False.
Proof.
  intros Hl r Hr. assert (61 ∈ l) as Hin.
  { apply list_elem_of_In, in_rev. rewrite Hr. by left. }
  rewrite Forall_forall in Hl. by destruct (b64_plain_inv _ (Hl _ Hin)) as (? & ? & ? & ? & ?).
Qed.

Lemma strip_padding_encode bs :
  byte_list bs → strip_padding (b64_encode bs) = b64_char <$> b64_sextets bs.
Proof.
  intros Hbs. unfold strip_padding.
  assert (Z.of_nat (length (b64_encode bs)) mod 4 = 0) as ->.
  { rewrite length_b64_encode, Nat2Z.inj_mul, Z.mul_comm. by apply Z.mod_mul. }
  simpl. rewrite b64_encode_split, rev_app_distr. unfold b64_padding.
  pose proof (rev_not_pad _ (b64_chars_plain bs Hbs)) as Hnp.
  pose proof (Z.mod_pos_bound (- Z.of_nat (length bs)) 3 ltac:(lia)) as Hm.
  set (m := (- Z.of_nat (length bs)) mod 3) in *.
  assert (m = 0 ∨ m = 1 ∨ m = 2) as [->| [->| ->]] by lia; simpl.
  - rewrite app_nil_r. destruct (rev (b64_char <$> b64_sextets bs)) as [|c r] eqn:E; [done|].
    assert (c ≠ 61) as Hc by (intros ->; by eapply Hnp).
    destruct c as [|p|p]; try done. repeat (destruct p as [p|p|]; try done).
  - destruct (rev (b64_char <$> b64_sextets bs)) as [|c r] eqn:E.
    + rewrite <- E. by rewrite rev_involutive.
    + assert (c ≠ 61) as Hc by (intros ->; by eapply Hnp).
      assert (rev (c :: r) = b64_char <$> b64_sextets bs) as <- by (rewrite <- E; apply rev_involutive).
      destruct c as [|p|p]; try done. repeat (destruct p as [p|p|]; try done).
  - apply rev_involutive.
Qed.

(** [atob(btoa(s))] is [s]. *)
Lemma atob_encode bs : byte_list bs → atob (b64_encode bs) = Some bs.
Proof.
  intros Hbs. unfold atob.
  assert (filter (λ c, is_ascii_space c = false) (b64_encode bs) = b64_encode bs) as ->.
  { rewrite b64_encode_split, filter_app. f_equal.
    - pose proof (b64_chars_plain bs Hbs) as H.
      induction H as [|c l Hc _ IH]; [done|]. rewrite filter_cons.
      destruct (b64_plain_inv c Hc) as (_ & _ & _ & _ & ->).
      rewrite decide_True by done. by rewrite IH.
    - unfold b64_padding. induction (Z.to_nat _) as [|n IH]; [done|]. simpl.
      rewrite filter_cons, decide_True by done. by rewrite IH. }
  rewrite strip_padding_encode by done.
  assert (mapM b64_val (b64_char <$> b64_sextets bs) = Some (b64_sextets bs)) as ->.
  { apply mapM_Some. pose proof (b64_sextets_range bs Hbs) as Hr.
    induction Hr; constructor; auto using b64_val_char. }
  simpl. rewrite b64_groups_sextets by done.
  assert (Z.of_nat (length (b64_char <$> b64_sextets bs)) mod 4 ≠ 1) as Hl.
  { rewrite length_fmap. clear Hbs. induction bs as [|a|a b|a b c bs IH] using list_ind3; [done..|].
    simpl length. rewrite !Nat2Z.inj_succ.
    replace (Z.succ (Z.succ (Z.succ (Z.succ (Z.of_nat (length (b64_sextets bs)))))))
      with (Z.of_nat (length (b64_sextets bs)) + 1 * 4) by lia. by rewrite Z.mod_add. }
  apply Z.eqb_neq in Hl. by rewrite Hl.
Qed.

Lemma is_byte_iff b : is_byte b = true ↔ 0 ≤ b ≤ 255.
Proof. unfold is_byte. rewrite andb_true_iff, !Z.leb_le. done. Qed.

Lemma btoa_bytes s : byte_list s → btoa s = Some (b64_encode s).
Proof.
  intros Hs. unfold btoa. assert (forallb is_byte s = true) as ->; [|done].
  apply forallb_forall. intros c Hc%list_elem_of_In. unfold byte_list in Hs.
  rewrite Forall_forall in Hs. by apply is_byte_iff, Hs.
Qed.

(** A string with a code unit above 255 is refused. *)
Lemma btoa_none s c : c ∈ s → 255 < c → btoa s = None.
Proof.
  intros Hc Hgt. unfold btoa. destruct (forallb is_byte s) eqn:E; [|done].
  rewrite forallb_forall in E. apply list_elem_of_In in Hc. apply E, is_byte_iff in Hc. lia.
Qed.

(** *** UTF-8 *)

Lemma u8_run_step st b r : u8_run st (b :: r) = (u8_step st b).1 ++ u8_run (u8_step st b).2 r.
Proof. simpl. by destruct (u8_step st b). Qed.

(** Outcome of a byte sequence, output and state. *)
Definition u8_feed (st : u8_state) (bs : bytes) : jstr * u8_state :=
  fold_left (λ acc b, let '(o, st') := u8_step acc.2 b in (acc.1 ++ o, st')) bs ([], st).

Lemma u8_feed_gen bs st o :
  fold_left (λ acc b, let '(o', st') := u8_step acc.2 b in (acc.1 ++ o', st')) bs (o, st)
  = (o ++ (u8_feed st bs).1, (u8_feed st bs).2).
Proof.
  unfold u8_feed. revert st o. induction bs as [|b bs IH]; intros st o; simpl; [by rewrite app_nil_r|].
  destruct (u8_step st b) as [o' st']. rewrite IH, (IH st' o'). simpl. by rewrite app_assoc.
Qed.

Lemma u8_run_app st bs r : u8_run st (bs ++ r) = (u8_feed st bs).1 ++ u8_run (u8_feed st bs).2 r.
Proof.
  revert st. induction bs as [|b bs IH]; intros st; [done|].
  simpl app. rewrite u8_run_step, IH. unfold u8_feed at 3 4. simpl.
  destruct (u8_step st b) as [o st']. rewrite u8_feed_gen. simpl. by rewrite app_assoc.
Qed.

Definition scalar_bmp (c : Z) : bool := is_code_unit c && negb (is_high c) && negb (is_low c).

(** Decide the comparisons of the decoder by linear arithmetic. *)
Ltac ztest :=
  repeat (match goal with
  | |- context [?a <=? ?b] =>
      first [rewrite (proj2 (Z.leb_le a b)) by lia | rewrite (proj2 (Z.leb_gt a b)) by lia]
  | |- context [?a <? ?b] =>
      first [rewrite (proj2 (Z.ltb_lt a b)) by lia | rewrite (proj2 (Z.ltb_ge a b)) by lia]
  | |- context [?a =? ?b] =>
      first [rewrite (proj2 (Z.eqb_eq a b)) by lia | rewrite (proj2 (Z.eqb_neq a b)) by lia]
  end; simpl).

Lemma u8_feed_bmp c : scalar_bmp c = true → u8_feed U8Idle (utf8_bmp c) = ([c], U8Idle).
Proof.
  unfold scalar_bmp, is_code_unit, is_high, is_low. intros [[Hc Hh]%andb_prop Hl]%andb_prop.
  zbool. apply negb_true_iff, andb_false_iff in Hh, Hl. rewrite !Z.leb_gt in Hh, Hl.
  unfold utf8_bmp. case_if; zbool; [|case_if; zbool].
  - unfold u8_feed, u8_step, u8_start. simpl. ztest. done.
  - pose proof (Z.div_mod c 64 ltac:(lia)). pose proof (Z.mod_pos_bound c 64 ltac:(lia)).
    generalize dependent (c / 64). generalize dependent (c mod 64). intros r Hr q Hq.
    unfold u8_feed, u8_step, u8_start. simpl. ztest. unfold utf16. ztest.
    do 2 f_equal. lia.
  - assert (c / 4096 = c / 64 / 64) as -> by (by rewrite Z.div_div).
    pose proof (Z.div_mod c 64 ltac:(lia)). pose proof (Z.mod_pos_bound c 64 ltac:(lia)).
    pose proof (Z.div_mod (c / 64) 64 ltac:(lia)).
    pose proof (Z.mod_pos_bound (c / 64) 64 ltac:(lia)).
    generalize dependent (c / 64 / 64). generalize dependent (c / 64 mod 64).
    generalize dependent (c / 64). generalize dependent (c mod 64). intros r Hr q Hq r' Hr' q' Hq'.
    unfold u8_feed, u8_step, u8_start. simpl.
    assert (q' = 0 ∨ q' = 13 ∨ (0 < q' < 16 ∧ q' ≠ 13)) as [->| [->|?]] by lia; simpl;
      ztest; unfold utf16; ztest; do 2 f_equal; lia.
Qed.

Lemma u8_feed_pair hi lo :
  is_high hi = true → is_low lo = true → u8_feed U8Idle (utf8_pair hi lo) = ([hi; lo], U8Idle).
Proof.
  unfold is_high, is_low, utf8_pair. intros Hh Hl. zbool.
  set (cp := 65536 + (hi - 55296) * 1024 + (lo - 56320)).
  assert (65536 ≤ cp ≤ 1114111) as Hcp by (unfold cp; lia).
  assert ((cp - 65536) / 1024 = hi - 55296) as Ehi
    by (unfold cp; symmetry; apply (Z.div_unique _ _ _ (lo - 56320)); lia).
  assert ((cp - 65536) mod 1024 = lo - 56320) as Elo
    by (unfold cp; symmetry; apply (Z.mod_unique _ _ (hi - 55296)); lia).
  clearbody cp.
  assert (cp / 4096 = cp / 64 / 64) as -> by (by rewrite Z.div_div).
  assert (cp / 262144 = cp / 64 / 64 / 64) as -> by (by rewrite !Z.div_div).
  pose proof (Z.div_mod cp 64 ltac:(lia)). pose proof (Z.mod_pos_bound cp 64 ltac:(lia)).
  pose proof (Z.div_mod (cp / 64) 64 ltac:(lia)).
  pose proof (Z.mod_pos_bound (cp / 64) 64 ltac:(lia)).
  pose proof (Z.div_mod (cp / 64 / 64) 64 ltac:(lia)).
  pose proof (Z.mod_pos_bound (cp / 64 / 64) 64 ltac:(lia)).
  set (d := cp mod 64) in *. set (q1 := cp / 64) in *. set (c := q1 mod 64) in *.
  set (q2 := q1 / 64) in *. set (b := q2 mod 64) in *. set (a := q2 / 64) in *.
  clearbody a b c d q1 q2.
  unfold u8_feed, u8_step, u8_start. simpl.
  assert (a = 0 ∨ a = 4 ∨ 0 < a < 4) as [->| [->|?]] by lia; simpl; ztest;
    match goal with |- context [utf16 ?x] => replace x with cp by lia end;
    unfold utf16; ztest; rewrite Ehi, Elo; do 2 f_equal; [|f_equal| |f_equal| |f_equal]; lia.
Qed.

#[local] Opaque utf8_bmp utf8_pair.

(** Induction that may skip one or two elements: the shape of the recursions on
    code units. *)
Lemma list_ind12 {A} (P : list A → Prop) :
  P [] → (∀ a, P [a]) → (∀ a b l, P l → P (b :: l) → P (a :: b :: l)) → ∀ l, P l.
Proof.
  intros H0 H1 H2 l. induction l as [l IH] using (induction_ltof1 _ (@length A)).
  destruct l as [|a [|b r]]; auto. apply H2; apply IH; unfold ltof; simpl; lia.
Qed.

Lemma utf8_encode_cons2 c d s :
  utf8_encode (c :: d :: s) =
  if is_high c then
    if is_low d then utf8_pair c d ++ utf8_encode s else utf8_bmp replacement ++ utf8_encode (d :: s)
  else if is_low c then utf8_bmp replacement ++ utf8_encode (d :: s)
  else utf8_bmp c ++ utf8_encode (d :: s).
Proof. reflexivity. Qed.

Lemma utf8_encode_scalar c s :
  is_high c = false → is_low c = false → utf8_encode (c :: s) = utf8_bmp c ++ utf8_encode s.
Proof. simpl. by intros -> ->. Qed.

Lemma well_formed_cons2 c d s :
  well_formed (c :: d :: s) =
  if is_high c then
    if is_low d then c :: d :: well_formed s else replacement :: well_formed (d :: s)
  else if is_low c then replacement :: well_formed (d :: s)
  else c :: well_formed (d :: s).
Proof. reflexivity. Qed.

Lemma scalar_bmp_intro c :
  0 ≤ c ≤ 65535 → is_high c = false → is_low c = false → scalar_bmp c = true.
Proof.
  intros Hc Hh Hl. unfold scalar_bmp, is_code_unit. rewrite Hh, Hl.
  rewrite (proj2 (Z.leb_le 0 c)), (proj2 (Z.leb_le c 65535)) by lia. done.
Qed.

Lemma u8_run_bmp c r :
  scalar_bmp c = true → u8_run U8Idle (utf8_bmp c ++ r) = c :: u8_run U8Idle r.
Proof. intros Hc. by rewrite u8_run_app, u8_feed_bmp. Qed.

Lemma utf8_run_encode s r :
  unit_str s → u8_run U8Idle (utf8_encode s ++ r) = well_formed s ++ u8_run U8Idle r.
Proof.
  assert (scalar_bmp replacement = true) as Hrep by done.
  induction s as [|c|c d s IH IH'] using list_ind12; intros Hs; inv_forall.
  - done.
  - simpl. destruct (is_high c) eqn:Eh; [by rewrite u8_run_bmp|].
    destruct (is_low c) eqn:El; rewrite app_nil_r, u8_run_bmp; auto using scalar_bmp_intro.
  - rewrite utf8_encode_cons2, well_formed_cons2. destruct (is_high c) eqn:Eh; [destruct (is_low d) eqn:El|].
    + rewrite <- app_assoc, u8_run_app, u8_feed_pair by done. simpl. by rewrite IH.
    + rewrite <- app_assoc, u8_run_bmp, IH' by (done || by constructor). done.
    + destruct (is_low c) eqn:El;
        rewrite <- app_assoc, u8_run_bmp, IH' by (by constructor || auto using scalar_bmp_intro); done.
Qed.

(** [Buffer.from(s).toString('utf8')] replaces unpaired surrogates and is the
    identity on every other string. *)
Lemma utf8_decode_encode s : unit_str s → utf8_decode (utf8_encode s) = well_formed s.
Proof.
  intros Hs. unfold utf8_decode. rewrite <- (app_nil_r (utf8_encode s)), utf8_run_encode by done.
  apply app_nil_r.
Qed.

Lemma utf8_encode_well_formed s : utf8_encode (well_formed s) = utf8_encode s.
Proof.
  induction s as [|c|c d s IH IH'] using list_ind12.
  - done.
  - simpl. destruct (is_high c) eqn:Eh; [done|]. destruct (is_low c) eqn:El; [done|].
    simpl. by rewrite Eh, El.
  - rewrite utf8_encode_cons2, well_formed_cons2.
    destruct (is_high c) eqn:Eh; [destruct (is_low d) eqn:El|].
    + rewrite utf8_encode_cons2. by rewrite Eh, El, IH.
    + by rewrite utf8_encode_scalar, IH'.
    + destruct (is_low c) eqn:El; [by rewrite utf8_encode_scalar, IH'|].
      by rewrite utf8_encode_scalar, IH' by done.
Qed.

(** Encoding what was decoded from an encoding gives the encoding back. *)
Lemma utf8_encode_decode_encode s :
  unit_str s → utf8_encode (utf8_decode (utf8_encode s)) = utf8_encode s.
Proof. intros Hs. by rewrite utf8_decode_encode, utf8_encode_well_formed. Qed.

#[local] Transparent utf8_bmp utf8_pair.

(** *** ASCII text *)

Definition ascii_str (s : jstr) : Prop := Forall (λ c, 0 ≤ c ≤ 127) s.

Lemma ascii_not_surrogate c : 0 ≤ c ≤ 127 → is_high c = false ∧ is_low c = false.
Proof. unfold is_high, is_low. intros Hc. by split; ztest. Qed.

Lemma utf8_encode_ascii_cons c s : 0 ≤ c ≤ 127 → utf8_encode (c :: s) = c :: utf8_encode s.
Proof.
  intros Hc. simpl. destruct (ascii_not_surrogate c Hc) as [-> ->].
  unfold utf8_bmp. by rewrite (proj2 (Z.ltb_lt c 128)) by lia.
Qed.

Lemma utf8_encode_ascii_app a s : ascii_str a → utf8_encode (a ++ s) = a ++ utf8_encode s.
Proof.
  induction 1 as [|c a Hc _ IH]; [done|]. simpl app. by rewrite utf8_encode_ascii_cons, IH.
Qed.

Lemma utf8_encode_ascii a : ascii_str a → utf8_encode a = a.
Proof. intros Ha. rewrite <- (app_nil_r a) at 1. by rewrite utf8_encode_ascii_app, app_nil_r. Qed.

Lemma well_formed_ascii a : ascii_str a → well_formed a = a.
Proof.
  induction 1 as [|c a Hc _ IH]; [done|]. simpl.
  destruct (ascii_not_surrogate c Hc) as [-> ->]. by rewrite IH.
Qed.

Lemma ascii_unit a : ascii_str a → unit_str a.
Proof. intros H. eapply Forall_impl; [exact H|]. simpl. lia. Qed.

Lemma ascii_bytes a : ascii_str a → byte_list a.
Proof. intros H. eapply Forall_impl; [exact H|]. simpl. lia. Qed.

Lemma utf8_decode_ascii a : ascii_str a → utf8_decode a = a.
Proof.
  intros Ha. rewrite <- (utf8_encode_ascii a) at 1 by done.
  rewrite utf8_decode_encode by (by apply ascii_unit). by apply well_formed_ascii.
Qed.

Lemma utf8_text_ascii a : ascii_str a → utf8_text a = a.
Proof.
  intros Ha. unfold utf8_text. assert (strip_bom a = a) as ->; [|by apply utf8_decode_ascii].
  destruct Ha as [|c a Hc _]; [done|]. unfold strip_bom.
  destruct c as [|p|p]; try done. repeat (destruct p as [p|p|]; try done; try lia).
Qed.

Lemma hex_lower_ascii c : is_hex_lower c = true → 0 ≤ c ≤ 127.
Proof. unfold is_hex_lower. intros [?|?]%orb_true_iff; zbool; lia. Qed.

Lemma hex_encode_ascii bs : byte_list bs → ascii_str (hex_encode bs).
Proof.
  intros H. eapply Forall_impl; [by apply hex_encode_lower|]. apply hex_lower_ascii.
Qed.

Lemma b64_encode_ascii bs : byte_list bs → ascii_str (b64_encode bs).
Proof.
  intros H. rewrite b64_encode_split. apply Forall_app. split.
  - eapply Forall_impl; [by apply b64_chars_plain|]. intros c (v & Hv & _)%b64_plain_inv.
    unfold b64_val in Hv. case_ifs; zbool; lia.
  - unfold b64_padding. apply Forall_replicate. lia.
Qed.

Lemma digits_ascii n : ascii_str (digits n).
Proof.
  eapply Forall_impl; [apply digits_digit|]. unfold is_digit. intros c Hc. zbool. lia.
Qed.

Lemma Z_to_str_ascii z : ascii_str (Z_to_str z).
Proof.
  eapply Forall_impl; [apply Z_to_str_chars|]. unfold is_digit. intros c [Hc| ->]; zbool; lia.
Qed.

Lemma utf8_bmp_bytes c : 0 ≤ c ≤ 65535 → byte_list (utf8_bmp c).
Proof.
  intros Hc. unfold utf8_bmp, byte_list.
  case_if; zbool; [|case_if; zbool]; repeat apply List.Forall_cons; auto using List.Forall_nil;
    try (Z.to_euclidean_division_equations; lia).
Qed.

Lemma utf8_encode_bytes s : unit_str s → byte_list (utf8_encode s).
Proof.
  assert (byte_list (utf8_bmp replacement)) as Hrep by (by apply utf8_bmp_bytes).
  unfold byte_list.
  induction s as [|c|c d s IH IH'] using list_ind12; intros Hs; inv_forall.
  - constructor.
  - destruct (is_high c) eqn:Eh; [by simpl; rewrite Eh|].
    destruct (is_low c) eqn:El; [by simpl; rewrite Eh, El|].
    rewrite utf8_encode_scalar, app_nil_r by done. by apply utf8_bmp_bytes.
  - assert (Forall (λ c, 0 ≤ c ≤ 65535) (d :: s)) as Hds by (by constructor).
    rewrite utf8_encode_cons2. destruct (is_high c) eqn:Eh; [destruct (is_low d) eqn:El|].
    + apply Forall_app. split; [|by apply IH].
      unfold is_high, is_low in *. zbool. unfold utf8_pair.
      repeat apply List.Forall_cons; auto using List.Forall_nil;
        Z.to_euclidean_division_equations; lia.
    + apply Forall_app. split; [done | by apply IH'].
    + case_if; apply Forall_app; (split; [by try apply utf8_bmp_bytes | by apply IH']).
Qed.

#[export] Hint Resolve hex_decode_encode hex_encode_ascii hex_encode_lower b64_decode_encode
  b64_encode_ascii utf8_encode_bytes Z_to_str_ascii digits_ascii ascii_unit ascii_bytes : onvm.

(** ** [encodeURIComponent] *)

Definition uri_unreserved (c : Z) : bool :=
  ((48 <=? c) && (c <=? 57)) || ((65 <=? c) && (c <=? 90)) || ((97 <=? c) && (c <=? 122))
  || existsb (Z.eqb c) (js "-_.!~*'()").

Definition hex_upper (n : Z) : Z := if n <? 10 then 48 + n else 55 + n.

Definition percent_encode (b : Z) : jstr :=
  if uri_unreserved b then [b] else [37; hex_upper (b / 16); hex_upper (b mod 16)].

(** A lone surrogate is a [URIError]. *)
Definition encodeURIComponent (s : jstr) : outcome exn jstr :=
  if bool_decide (well_formed s = s) then Ok (utf8_encode s ≫= percent_encode)
  else Throw (JsErr (js "URIError") (js "URI malformed")).

(** Visible ASCII other than the characters that delimit URL components. *)
Definition uri_safe (c : Z) : bool := uri_unreserved c || (c =? 37).

Lemma uri_safe_byte b :
  0 ≤ b ≤ 255 → forallb uri_safe (percent_encode b) = true.
Proof.
  intros Hb. apply (forall_from_spec 256 0 (λ b, forallb uri_safe (percent_encode b))); [|lia].
  vm_compute. reflexivity.
Qed.

Lemma encodeURIComponent_safe s t :
  unit_str s → encodeURIComponent s = Ok t → Forall (λ c, uri_safe c = true) t.
Proof.
  unfold encodeURIComponent. case_if; [|done]. intros Hs [= <-].
  apply utf8_encode_bytes in Hs. induction Hs as [|b bs Hb _ IH]; [constructor|].
  apply Forall_app. split; [|exact IH].
  apply Forall_forall. intros c Hc. apply uri_safe_byte in Hb. rewrite forallb_forall in Hb.
  by apply Hb, list_elem_of_In.
Qed.

Lemma uri_safe_ascii c : uri_safe c = true → 33 ≤ c ≤ 126.
Proof.
  unfold uri_safe, uri_unreserved. simpl. rewrite !orb_true_iff, !andb_true_iff, !Z.leb_le, !Z.eqb_eq.
  lia.
Qed.

(** Clients reason about the codecs through the lemmas above. *)
#[global] Arguments hex_encode : simpl never.
#[global] Arguments hex_decode : simpl never.
#[global] Arguments b64_encode : simpl never.
#[global] Arguments b64_decode : simpl never.
#[global] Arguments utf8_encode : simpl never.
#[global] Arguments utf8_decode : simpl never.
#[global] Arguments utf8_text : simpl never.

(** Decides a closed range or membership fact by evaluation. *)
Ltac decide_closed :=
  unfold ascii_str, unit_str, byte_list;
  refine (bool_decide_eq_true_1 _ _); vm_compute; reflexivity.
