(* ===== verification/Json.v ===== *)
(** * JSON.stringify and JSON.parse

    The printer and the parser of the language, executable, and their round
    trip on the values the programs serialise. *)

From S2P Require Import Prelude JsValue Codec.

#[local] Set Warnings "-register-all".

(** ** JSON.stringify *)

Definition hex4 (c : Z) : jstr :=
  [hex_digit (c / 4096); hex_digit (c / 256 mod 16); hex_digit (c / 16 mod 16); hex_digit (c mod 16)].

Definition u_escape (c : Z) : jstr := 92 :: 117 :: hex4 c.

Definition json_escape (c : Z) : jstr :=
  if c =? 8 then [92; 98]
  else if c =? 9 then [92; 116]
  else if c =? 10 then [92; 110]
  else if c =? 12 then [92; 102]
  else if c =? 13 then [92; 114]
  else if c =? 34 then [92; 34]
  else if c =? 92 then [92; 92]
  else if c <? 32 then u_escape c
  else [c].

(** Unpaired surrogates are escaped (well-formed [JSON.stringify]). *)
Fixpoint quote_body (s : jstr) : jstr :=
  match s with
  | [] => []
  | c :: r =>
      if is_high c then
        match r with
        | d :: r' => if is_low d then c :: d :: quote_body r' else u_escape c ++ quote_body r
        | [] => u_escape c
        end
      else if is_low c then u_escape c ++ quote_body r
      else json_escape c ++ quote_body r
  end.

Definition json_quote (s : jstr) : jstr := 34 :: quote_body s ++ [34].

(** [JSON.stringify(v)]; [None] is the result [undefined]. *)
Fixpoint stringify (v : value) : option jstr :=
  match v with
  | VUndef => None
  | VNull => Some (js "null")
  | VBool b => Some (if b then js "true" else js "false")
  | VNum NNaN => Some (js "null")
  | VNum n => Some (num_to_str n)
  | VStr s => Some (json_quote s)
  | VArr l =>
      Some (91 :: join [44] (map (λ x, default (js "null") (stringify x)) l) ++ [93])
  | VObj fs =>
      Some (123 :: join [44] (flat_map (λ f,
        match stringify f.2 with
        | Some t => [json_quote f.1 ++ 58 :: t]
        | None => []
        end) fs) ++ [125])
  end.

(** ** JSON.parse *)

Definition is_json_space (c : Z) : bool := existsb (Z.eqb c) [9; 10; 13; 32].

Definition skip_ws (s : jstr) : jstr := drop_while is_json_space s.

Definition unescape (e : Z) : option Z :=
  if e =? 34 then Some 34 else if e =? 92 then Some 92 else if e =? 47 then Some 47
  else if e =? 98 then Some 8 else if e =? 102 then Some 12 else if e =? 110 then Some 10
  else if e =? 114 then Some 13 else if e =? 116 then Some 9 else None.

Definition hex4_val (a b c d : Z) : option Z :=
  match hex_val a, hex_val b, hex_val c, hex_val d with
  | Some w, Some x, Some y, Some z => Some (w * 4096 + x * 256 + y * 16 + z)
  | _, _, _, _ => None
  end.

Definition cons_fst {A B} (x : A) (o : option (list A * B)) : option (list A * B) :=
  match o with
  | Some (l, r) => Some (x :: l, r)
  | None => None
  end.

(** The characters of a string literal after the opening quote. *)
Fixpoint p_str (s : jstr) : option (jstr * jstr) :=
  match s with
  | [] => None
  | c :: r =>
      if c =? 34 then Some ([], r)
      else if c =? 92 then
        match r with
        | [] => None
        | e :: r1 =>
            if e =? 117 then
              match r1 with
              | h1 :: h2 :: h3 :: h4 :: r2 =>
                  match hex4_val h1 h2 h3 h4 with
                  | Some x => cons_fst x (p_str r2)
                  | None => None
                  end
              | _ => None
              end
            else match unescape e with
                 | Some x => cons_fst x (p_str r1)
                 | None => None
                 end
        end
      else if c <? 32 then None
      else cons_fst c (p_str r)
  end.

Definition span_digits (s : jstr) : jstr * jstr :=
  let ds := take_while is_digit s in (ds, drop (length ds) s).

(** [m * 10^e] as a number. *)
Definition mk_num (m e : Z) : num :=
  if 0 <=? e then NInt (m * 10 ^ e)
  else if m =? 0 then NInt 0
  else let '(m', e') := strip_zeros (Z.to_nat (- e)) m e in
       match e' with
       | Zneg k => NFrac m' k
       | _ => NInt m'
       end.

Definition p_int (s : jstr) : option (jstr * jstr) :=
  match span_digits s with
  | ([], _) => None
  | (48 :: _ :: _, _) => None
  | p => Some p
  end.

Definition p_frac (s : jstr) : option (jstr * jstr) :=
  match s with
  | 46 :: r => match span_digits r with
               | ([], _) => None
               | p => Some p
               end
  | _ => Some ([], s)
  end.

Definition p_exp (s : jstr) : option (Z * jstr) :=
  match s with
  | c :: r =>
      if (c =? 101) || (c =? 69) then
        let '(neg, r') := match r with
                          | 45 :: r' => (true, r')
                          | 43 :: r' => (false, r')
                          | _ => (false, r)
                          end in
        match span_digits r' with
        | ([], _) => None
        | (ds, r'') => Some (if neg then - digits_val ds else digits_val ds, r'')
        end
      else Some (0, s)
  | [] => Some (0, s)
  end.

Definition p_unsigned (neg : bool) (s : jstr) : option (num * jstr) :=
  match p_int s with
  | None => None
  | Some (ip, s2) =>
      match p_frac s2 with
      | None => None
      | Some (fp, s3) =>
          match p_exp s3 with
          | None => None
          | Some (e, s4) =>
              let m := digits_val (ip ++ fp) in
              Some (mk_num (if neg then - m else m) (e - Z.of_nat (length fp)), s4)
          end
      end
  end.

Definition p_num (s : jstr) : option (num * jstr) :=
  match s with
  | 45 :: r => p_unsigned true r
  | _ => p_unsigned false s
  end.

(** A literal name at the head of the input. *)
Definition p_lit (name : jstr) (v : value) (s : jstr) : option (value * jstr) :=
  if starts_with name s then Some (v, drop (length name) s) else None.

Fixpoint p_value (fuel : nat) (s : jstr) : option (value * jstr) :=
  match fuel with
  | O => None
  | S f =>
      match skip_ws s with
      | [] => None
      | c :: r =>
          if c =? 34 then
            match p_str r with
            | Some (t, r') => Some (VStr t, r')
            | None => None
            end
          else if c =? 91 then
            match skip_ws r with
            | 93 :: r' => Some (VArr [], r')
            | _ => match p_elems f r with
                   | Some (l, r') => Some (VArr l, r')
                   | None => None
                   end
            end
          else if c =? 123 then
            match skip_ws r with
            | 125 :: r' => Some (VObj [], r')
            | _ => match p_members f r with
                   | Some (fs, r') => Some (VObj (obj_assign [] fs), r')
                   | None => None
                   end
            end
          else if c =? 116 then p_lit (js "true") (VBool true) (c :: r)
          else if c =? 102 then p_lit (js "false") (VBool false) (c :: r)
          else if c =? 110 then p_lit (js "null") VNull (c :: r)
          else match p_num (c :: r) with
               | Some (n, r') => Some (VNum n, r')
               | None => None
               end
      end
  end
with p_elems (fuel : nat) (s : jstr) : option (list value * jstr) :=
  match fuel with
  | O => None
  | S f =>
      match p_value f s with
      | None => None
      | Some (v, r) =>
          match skip_ws r with
          | c :: r' => if c =? 44 then cons_fst v (p_elems f r')
                       else if c =? 93 then Some ([v], r')
                       else None
          | [] => None
          end
      end
  end
with p_members (fuel : nat) (s : jstr) : option (list (jstr * value) * jstr) :=
  match fuel with
  | O => None
  | S f =>
      match skip_ws s with
      | 34 :: r =>
          match p_str r with
          | None => None
          | Some (k, r1) =>
              match skip_ws r1 with
              | 58 :: r2 =>
                  match p_value f r2 with
                  | None => None
                  | Some (v, r3) =>
                      match skip_ws r3 with
                      | c :: r4 => if c =? 44 then cons_fst (k, v) (p_members f r4)
                                   else if c =? 125 then Some ([(k, v)], r4)
                                   else None
                      | [] => None
                      end
                  end
              | _ => None
              end
          end
      | _ => None
      end
  end.

(** Every two rounds of the parser consume a character, see [p_value_fuel]. *)
Definition parse_fuel (s : jstr) : nat := S (S (2 * length s)).

Section Parse.
Context `{Engine}.

Definition json_parse (s : jstr) : outcome exn value :=
  match p_value (parse_fuel s) s with
  | Some (v, r) =>
      match skip_ws r with
      | [] => Ok v
      | _ => Throw (JsErr (js "SyntaxError") (syntax_error_message s))
      end
  | None => Throw (JsErr (js "SyntaxError") (syntax_error_message s))
  end.
End Parse.

(** The text of a defined value. *)
Definition json_text (v : value) : jstr := default [] (stringify v).

(** ** The round trip *)

(** *** String literals *)

Lemma hex4_val_hex4 c :
  0 ≤ c ≤ 65535 →
  hex4_val (hex_digit (c / 4096)) (hex_digit (c / 256 mod 16)) (hex_digit (c / 16 mod 16))
    (hex_digit (c mod 16)) = Some c.
Proof.
  intros Hc. unfold hex4_val.
  assert (c / 4096 = c / 16 / 16 / 16) as -> by (by rewrite !Z.div_div).
  assert (c / 256 = c / 16 / 16) as -> by (by rewrite !Z.div_div).
  rewrite !hex_val_digit by (Z.to_euclidean_division_equations; lia).
  f_equal. Z.to_euclidean_division_equations; lia.
Qed.

Lemma p_str_u_escape c t : 0 ≤ c ≤ 65535 → p_str (u_escape c ++ t) = cons_fst c (p_str t).
Proof. intros Hc. simpl. by rewrite hex4_val_hex4. Qed.

Lemma p_str_raw c t : 32 ≤ c → c ≠ 34 → c ≠ 92 → p_str (c :: t) = cons_fst c (p_str t).
Proof. intros. simpl. by ztest. Qed.

Lemma p_str_escape c t : 0 ≤ c ≤ 65535 → p_str (json_escape c ++ t) = cons_fst c (p_str t).
Proof.
  intros Hc. unfold json_escape.
  repeat (case_if; zbool; [try (subst; reflexivity); try by apply p_str_u_escape|]).
  simpl app. apply p_str_raw; lia.
Qed.

Lemma quote_body_cons2 c d s :
  quote_body (c :: d :: s) =
  if is_high c then
    if is_low d then c :: d :: quote_body s else u_escape c ++ quote_body (d :: s)
  else if is_low c then u_escape c ++ quote_body (d :: s)
  else json_escape c ++ quote_body (d :: s).
Proof. reflexivity. Qed.

Lemma surrogate_raw c : is_high c = true ∨ is_low c = true → 32 ≤ c ∧ c ≠ 34 ∧ c ≠ 92.
Proof. unfold is_high, is_low. intros [?|?]; zbool; lia. Qed.

#[local] Opaque u_escape json_escape.

Lemma p_str_quote s r : unit_str s → p_str (quote_body s ++ 34 :: r) = Some (s, r).
Proof.
  induction s as [|c|c d s IH IH'] using list_ind12; intros Hs; inv_forall.
  - done.
  - simpl quote_body. destruct (is_high c); [by rewrite p_str_u_escape|].
    destruct (is_low c); rewrite app_nil_r; [by rewrite p_str_u_escape | by rewrite p_str_escape].
  - rewrite quote_body_cons2.
    assert (p_str (quote_body (d :: s) ++ 34 :: r) = Some (d :: s, r)) as Hd by (apply IH'; by constructor).
    destruct (is_high c) eqn:Eh; [destruct (is_low d) eqn:El|destruct (is_low c) eqn:El].
    + destruct (surrogate_raw c) as (?&?&?); [auto|]. destruct (surrogate_raw d) as (?&?&?); [auto|].
      simpl app. rewrite !p_str_raw by lia. by rewrite IH.
    + by rewrite <- app_assoc, p_str_u_escape, Hd.
    + by rewrite <- app_assoc, p_str_u_escape, Hd.
    + by rewrite <- app_assoc, p_str_escape, Hd.
Qed.

#[local] Transparent u_escape json_escape.

(** *** Numbers *)

(** What may follow a number in a JSON text. *)
Definition num_follow (r : jstr) : Prop :=
  match r with
  | [] => True
  | c :: _ => is_digit c = false ∧ c ≠ 46 ∧ c ≠ 101 ∧ c ≠ 69
  end.

Lemma span_digits_app ds r :
  Forall (λ c, is_digit c = true) ds → num_follow r → span_digits (ds ++ r) = (ds, r).
Proof.
  intros Hds Hr. unfold span_digits. rewrite take_while_app; [|done|by destruct r as [|c r]; [|apply Hr]].
  by rewrite drop_app_length.
Qed.

Lemma digits_canonical n :
  0 ≤ n → ∃ d ds, digits n = d :: ds ∧ 48 ≤ d ≤ 57 ∧ (d = 48 → ds = []).
Proof.
  intros Hn. destruct (Z.eq_dec n 0) as [->|Hne].
  - by exists 48, [].
  - destruct (digits_head n ltac:(lia)) as (d & ds & E & Hd). exists d, ds.
    split; [done|]. split; [lia|]. lia.
Qed.

Lemma p_int_digits n r : 0 ≤ n → num_follow r → p_int (digits n ++ r) = Some (digits n, r).
Proof.
  intros Hn Hr. unfold p_int. rewrite span_digits_app by (done || apply digits_digit).
  destruct (digits_canonical n Hn) as (d & ds & -> & Hd & Hz).
  destruct ds as [|d' ds].
  - destruct d as [|p|p]; try done. repeat (destruct p as [p|p|]; try done).
  - assert (d ≠ 48) as Hne by (intros ->; by specialize (Hz eq_refl)).
    destruct d as [|p|p]; try done. repeat (destruct p as [p|p|]; try done).
Qed.

Lemma p_frac_none r : num_follow r → p_frac r = Some ([], r).
Proof.
  destruct r as [|c r]; [done|]. intros (_ & Hc & _). unfold p_frac.
  destruct c as [|p|p]; try done. repeat (destruct p as [p|p|]; try done).
Qed.

Lemma p_exp_none r : num_follow r → p_exp r = Some (0, r).
Proof.
  destruct r as [|c r]; [done|]. intros (_ & _ & H1 & H2). unfold p_exp.
  by rewrite (proj2 (Z.eqb_neq c 101)), (proj2 (Z.eqb_neq c 69)).
Qed.

Lemma p_unsigned_digits neg n r :
  0 ≤ n → num_follow r →
  p_unsigned neg (digits n ++ r) = Some (NInt (if neg then - n else n), r).
Proof.
  intros Hn Hr. unfold p_unsigned. rewrite p_int_digits, p_frac_none, p_exp_none by done.
  rewrite app_nil_r, digits_value by done. cbn zeta.
  change (mk_num ?m (0 - Z.of_nat (length (@nil Z)))) with (NInt (m * 1)).
  by rewrite Z.mul_1_r.
Qed.

Lemma p_num_Z z r : num_follow r → p_num (Z_to_str z ++ r) = Some (NInt z, r).
Proof.
  intros Hr. unfold p_num, Z_to_str. case_if; zbool.
  - change (p_unsigned true (digits (- z) ++ r) = Some (NInt z, r)).
    rewrite p_unsigned_digits by (done || lia). do 3 f_equal. lia.
  - rewrite <- (p_unsigned_digits false z r) by (done || lia).
    destruct (digits_canonical z) as (d & ds & -> & Hd & _); [lia|]. simpl app.
    destruct d as [|p|p]; try done. repeat (destruct p as [p|p|]; try done; try lia).
Qed.

(** *** Values *)

(** The values the round trip is stated for: JSON data (no [undefined]) with
    integers written without exponent and objects without repeated keys. *)
Inductive json_data : value → Prop :=
| jd_null : json_data VNull
| jd_bool b : json_data (VBool b)
| jd_int z : Z.abs z < 10 ^ 21 → json_data (vint z)
| jd_str s : unit_str s → json_data (VStr s)
| jd_arr l : Forall json_data l → json_data (VArr l)
| jd_obj fs :
    NoDup fs.*1 → Forall (λ f, unit_str f.1) fs → Forall (λ f, json_data f.2) fs →
    json_data (VObj fs).

Lemma json_data_stringify v : json_data v → stringify v = Some (json_text v).
Proof. destruct 1; done. Qed.

(** Rounds of the parser a value needs. *)
Fixpoint rounds (v : value) : nat :=
  match v with
  | VArr l => S (list_sum (map (λ x, S (rounds x)) l))
  | VObj fs => S (list_sum (map (λ f, S (rounds f.2)) fs))
  | _ => 1
  end.

(** What may follow a value inside an array or an object, or at the end. *)
Definition value_follow (r : jstr) : Prop :=
  match r with
  | [] => True
  | c :: _ => c = 44 ∨ c = 93 ∨ c = 125
  end.

Lemma value_follow_num r : value_follow r → num_follow r.
Proof. destruct r as [|c r]; [done|]. by intros [->| [->| ->]]. Qed.

(** The first character of a JSON text is neither white space nor a closing
    bracket. *)
Definition text_head (c : Z) : Prop := is_json_space c = false ∧ c ≠ 93 ∧ c ≠ 125.

Lemma Z_to_str_head z : ∃ c t, Z_to_str z = c :: t ∧ (c = 45 ∨ 48 ≤ c ≤ 57).
Proof.
  unfold Z_to_str. case_if; zbool; [by eauto|].
  destruct (digits_canonical z) as (d & ds & -> & Hd & _); [lia|]. eauto.
Qed.

Lemma num_head_space c : c = 45 ∨ 48 ≤ c ≤ 57 → is_json_space c = false.
Proof.
  intros Hc. unfold is_json_space. simpl.
  repeat (rewrite (proj2 (Z.eqb_neq c _)) by lia). done.
Qed.

Lemma json_text_int z : Z.abs z < 10 ^ 21 → json_text (vint z) = Z_to_str z.
Proof. intros Hz. unfold json_text. simpl. by rewrite (proj2 (Z.ltb_lt _ _) Hz). Qed.

Lemma json_text_head v : json_data v → ∃ c t, json_text v = c :: t ∧ text_head c.
Proof.
  destruct 1; try (by do 2 eexists; split; [reflexivity | done]).
  - destruct b; by do 2 eexists.
  - rewrite json_text_int by done. destruct (Z_to_str_head z) as (c & t & -> & Hc).
    exists c, t. split; [done|]. split; [by apply num_head_space | lia].
Qed.

Lemma skip_ws_nonspace c s : is_json_space c = false → skip_ws (c :: s) = c :: s.
Proof. intros Hc. unfold skip_ws. simpl. by rewrite Hc. Qed.

(** What the round trip of a value says, for the induction. *)
Definition reads (v : value) : Prop :=
  ∀ f r, (rounds v ≤ f)%nat → value_follow r → p_value f (json_text v ++ r) = Some (v, r).

Lemma p_elems_join l f r :
  l ≠ [] → Forall reads l → (list_sum (map (λ x, S (rounds x)) l) ≤ f)%nat →
  p_elems f (join [44] (map json_text l) ++ 93 :: r) = Some (l, r).
Proof.
  intros Hne Hl. revert f. induction Hl as [|x l Hx Hl IH]; intros f Hf; [done|].
  simpl in Hf. destruct f as [|f]; [lia|].
  destruct l as [|y l].
  - simpl join. simpl p_elems. rewrite Hx; [done | lia | simpl; auto].
  - change (join [44] (map json_text (x :: y :: l)))
      with (json_text x ++ [44] ++ join [44] (map json_text (y :: l))).
    set (j := join [44] (map json_text (y :: l))) in *. clearbody j.
    simpl p_elems. rewrite <- !app_assoc, Hx; [|lia | simpl; auto].
    simpl. by rewrite IH by (done || simpl in *; lia).
Qed.

Definition member_text (fv : jstr * value) : jstr := json_quote fv.1 ++ 58 :: json_text fv.2.

Lemma p_members_join fs f r :
  fs ≠ [] → Forall (λ fv, unit_str fv.1) fs → Forall (λ fv, reads fv.2) fs →
  (list_sum (map (λ fv, S (rounds fv.2)) fs) ≤ f)%nat →
  p_members f (join [44] (map member_text fs) ++ 125 :: r) = Some (fs, r).
Proof.
  intros Hne Hk Hfs. revert f. induction Hfs as [|[k x] fs Hx Hfs IH]; intros f Hf; [done|].
  apply Forall_cons in Hk as [Hk1 Hk]. simpl in Hf, Hk1, Hx. destruct f as [|f]; [lia|].
  assert (∀ t, value_follow t → p_members (S f) (member_text (k, x) ++ t) =
    match skip_ws t with
    | c :: r4 => if c =? 44 then cons_fst (k, x) (p_members f r4)
                 else if c =? 125 then Some ([(k, x)], r4) else None
    | [] => None
    end) as Hstep.
  { intros t Ht. unfold member_text, json_quote. simpl. rewrite <- !app_assoc. simpl.
    rewrite p_str_quote by done. simpl. rewrite Hx; [done | lia | done]. }
  destruct fs as [|fv fs].
  - simpl join. rewrite Hstep; [done | simpl; auto].
  - change (join [44] (map member_text ((k, x) :: fv :: fs)))
      with (member_text (k, x) ++ [44] ++ join [44] (map member_text (fv :: fs))).
    set (j := join [44] (map member_text (fv :: fs))) in *. clearbody j.
    rewrite <- !app_assoc, Hstep by (simpl; auto).
    simpl. by rewrite IH by (done || simpl in *; lia).
Qed.

Lemma json_text_arr l : Forall json_data l → json_text (VArr l) = 91 :: join [44] (map json_text l) ++ [93].
Proof.
  intros Hl. unfold json_text at 1. simpl. do 3 f_equal. induction Hl as [|x l Hx _ IH]; [done|].
  simpl. rewrite IH. f_equal. by rewrite json_data_stringify.
Qed.

Lemma json_text_obj fs :
  Forall (λ f, json_data f.2) fs →
  json_text (VObj fs) = 123 :: join [44] (map member_text fs) ++ [125].
Proof.
  intros Hl. unfold json_text at 1. simpl. do 3 f_equal. induction Hl as [|[k x] l Hx _ IH]; [done|].
  simpl in *. by rewrite json_data_stringify, IH.
Qed.

Lemma join_head x l : x ≠ [] → ∃ t, join [44] (x :: l) = x ++ t.
Proof. destruct l as [|y l]; [exists []; by rewrite app_nil_r | simpl; eauto]. Qed.

Lemma p_value_int f z r : num_follow r → p_value (S f) (Z_to_str z ++ r) = Some (VNum (NInt z), r).
Proof.
  intros Hr. destruct (Z_to_str_head z) as (c & t & E & Hc).
  pose proof (p_num_Z z r Hr) as Hn. rewrite E in *. simpl app in *. cbn [p_value].
  rewrite skip_ws_nonspace by (by apply num_head_space).
  repeat (rewrite (proj2 (Z.eqb_neq c _)) by lia). by rewrite Hn.
Qed.

Lemma p_value_text v : json_data v → reads v.
Proof.
  induction v as [| |b|n|s|l IH|fs IH] using value_ind_strong; intros Hd f r Hf Hr;
    inversion Hd; subst; simpl in Hf; (destruct f as [|f]; [lia|]).
  - done.
  - by destruct b.
  - change (VNum (NInt ?z)) with (vint z). rewrite json_text_int by done.
    apply p_value_int, value_follow_num, Hr.
  - unfold json_text. simpl. rewrite <- app_assoc. simpl. by rewrite p_str_quote.
  - destruct (decide (l = [])) as [->|Hne]; [done|].
    assert (Forall reads l) as Hl.
    { rewrite Forall_forall in *. intros x Hx. by apply IH, H0. }
    rewrite json_text_arr by done. simpl app. rewrite <- app_assoc. simpl p_value.
    rewrite p_elems_join by (done || lia).
    destruct l as [|x l]; [done|]. apply Forall_cons in H0 as [Hx _].
    destruct (json_text_head x Hx) as (c & t & E & Hsp & H93 & _).
    destruct (join_head (json_text x) (map json_text l)) as [t' Et]; [by rewrite E|].
    simpl map. rewrite Et, E. simpl app. rewrite skip_ws_nonspace by done.
    destruct c as [|p|p]; try done. repeat (destruct p as [p|p|]; try done).
  - destruct (decide (fs = [])) as [->|Hne]; [done|].
    assert (Forall (λ fv, reads fv.2) fs) as Hl.
    { rewrite Forall_forall in *. intros x Hx. by apply IH, H2. }
    rewrite json_text_obj by done. simpl app. rewrite <- app_assoc. simpl p_value.
    rewrite p_members_join by (done || lia). rewrite obj_assign_empty by done.
    destruct fs as [|[k x] fs]; [done|]. simpl map.
    destruct (join_head (member_text (k, x)) (map member_text fs)) as [t' Et]; [done|].
    by rewrite Et.
Qed.

(** The fuel of the parser covers every text the printer writes. *)
Lemma rounds_text v : json_data v → (rounds v ≤ 2 * length (json_text v))%nat.
Proof.
  induction v as [| |b|n|s|l IH|fs IH] using value_ind_strong; intros Hd; inversion Hd; subst;
    try (destruct (json_text_head _ Hd) as (? & ? & -> & _); simpl; lia).
  - rewrite json_text_arr by done. simpl length. rewrite length_app. simpl.
    enough (list_sum (map (λ x, S (rounds x)) l) ≤ 2 * length (join [44%Z] (map json_text l)) + 1)%nat by lia.
    clear Hd. induction l as [|x l IHl]; simpl; [lia|].
    apply Forall_cons in IH as [Hx IH]. apply Forall_cons in H0 as [Hdx H0].
    specialize (IHl IH H0). specialize (Hx Hdx).
    destruct l as [|y l]; simpl in *; [lia|]. rewrite length_app. simpl. lia.
  - rewrite json_text_obj by done. simpl length. rewrite length_app. simpl.
    enough (list_sum (map (λ x, S (rounds x.2)) fs) ≤ 2 * length (join [44%Z] (map member_text fs)) + 1)%nat by lia.
    clear Hd H0 H1. induction fs as [|[k x] fs IHl]; simpl; [lia|].
    apply Forall_cons in IH as [Hx IH]. apply Forall_cons in H2 as [Hdx H2].
    specialize (IHl IH H2). specialize (Hx Hdx). simpl in Hx.
    assert (length (json_text x) ≤ length (member_text (k, x)))%nat as Hm.
    { unfold member_text. rewrite length_app. simpl. lia. }
    destruct fs as [|y fs]; simpl in *; [lia|]. rewrite length_app. simpl. lia.
Qed.

(** [JSON.parse(JSON.stringify(v))] is [v] on JSON data. *)
Lemma json_parse_text `{Engine} v : json_data v → json_parse (json_text v) = Ok v.
Proof.
  intros Hd. unfold json_parse. pose proof (p_value_text v Hd (parse_fuel (json_text v)) []) as Hp.
  rewrite app_nil_r in Hp. rewrite Hp; [done | | done].
  unfold parse_fuel. pose proof (rounds_text v Hd). lia.
Qed.

(** ** The fuel of the parser is enough *)

Lemma drop_while_length p s : (length (drop_while p s) ≤ length s)%nat.
Proof. induction s as [|c s IH]; simpl; [lia|]. case_if; simpl; lia. Qed.

Lemma skip_ws_length s : (length (skip_ws s) ≤ length s)%nat.
Proof. apply drop_while_length. Qed.

Lemma cons_fst_inv {A B} (x : A) (o : option (list A * B)) l r :
  cons_fst x o = Some (l, r) → ∃ l', o = Some (l', r) ∧ l = x :: l'.
Proof. destruct o as [[l' r']|]; simpl; [|done]. intros [= <- <-]. eauto. Qed.

Lemma p_str_length s t r : p_str s = Some (t, r) → (length r < length s)%nat.
Proof.
  revert t r. induction s as [s IH] using (induction_ltof1 _ (@length Z)). unfold ltof in IH.
  intros t r. destruct s as [|c s]; simpl; [done|].
  case_if; [intros [= <- <-]; lia|]. case_if.
  - destruct s as [|e s]; [done|]. case_if.
    + destruct s as [|h1 [|h2 [|h3 [|h4 s]]]]; try done.
      destruct (hex4_val h1 h2 h3 h4); [|done]. intros (l' & E & _)%cons_fst_inv.
      apply IH in E; simpl in *; lia.
    + destruct (unescape e); [|done]. intros (l' & E & _)%cons_fst_inv. apply IH in E; simpl in *; lia.
  - case_if; [done|]. intros (l' & E & _)%cons_fst_inv. apply IH in E; simpl in *; lia.
Qed.

Lemma span_digits_length s ds r : span_digits s = (ds, r) → (length r = length s - length ds)%nat.
Proof. unfold span_digits. intros [= <- <-]. apply length_drop. Qed.

Lemma p_unsigned_length neg s n r : p_unsigned neg s = Some (n, r) → (length r < length s)%nat.
Proof.
  unfold p_unsigned. destruct (p_int s) as [[ip s2]|] eqn:E1; [|done].
  destruct (p_frac s2) as [[fp s3]|] eqn:E2; [|done].
  destruct (p_exp s3) as [[e s4]|] eqn:E3; [|done]. intros [= _ <-].
  assert (length s2 < length s)%nat as H1.
  { unfold p_int in E1. destruct (span_digits s) as [ds t] eqn:E. pose proof (span_digits_length _ _ _ E).
    assert (t = s2 ∧ ds ≠ []) as [-> Hne].
    { destruct ds as [|d ds]; [done|]. split; [|done].
      destruct d as [|p|p]; try (by simplify_eq). repeat (destruct p as [p|p|]; try by simplify_eq).
      destruct ds; by simplify_eq. }
    destruct ds as [|d ds]; [done|]. destruct s; [|simpl in *; lia]. done. }
  assert (length s3 ≤ length s2)%nat as H2.
  { unfold p_frac in E2. destruct s2 as [|c t]; [by simplify_eq|].
    assert ((fp, s3) = ([], c :: t) ∨ ∃ ds, span_digits t = (ds, s3)) as [E|[ds E]].
    { destruct c as [|p|p]; try (left; congruence). repeat (destruct p as [p|p|]; try (left; congruence)).
      destruct (span_digits t) as [[|d ds] t'] eqn:E; [done|]. right. simplify_eq. eauto. }
    - by simplify_eq.
    - apply span_digits_length in E. simpl. lia. }
  enough (length s4 ≤ length s3)%nat by lia.
  unfold p_exp in E3. destruct s3 as [|c t]; [by simplify_eq|].
  case_if; [|by simplify_eq].
  destruct (match t with 45 :: r' => (true, r') | 43 :: r' => (false, r') | _ => (false, t) end)
    as [neg' t'] eqn:Et.
  assert (length t' ≤ length t)%nat.
  { destruct t as [|d t]; [by simplify_eq|]. destruct d as [|p|p]; try (by simplify_eq).
    repeat (destruct p as [p|p|]; try by simplify_eq); simplify_eq; simpl; lia. }
  destruct (span_digits t') as [ds t''] eqn:E. apply span_digits_length in E.
  destruct ds; [done|]. simplify_eq. simpl. lia.
Qed.

Lemma p_num_length s n r : p_num s = Some (n, r) → (length r < length s)%nat.
Proof.
  intros H. assert (p_unsigned false s = Some (n, r) ∨ (∃ c t, s = c :: t ∧ p_unsigned true t = Some (n, r)))
    as [E|(c & t & -> & E)].
  { unfold p_num in H. destruct s as [|c t]; [by left|].
    destruct c as [|p|p]; try (by left). repeat (destruct p as [p|p|]; try (by left)).
    right. eauto. }
  - by apply p_unsigned_length in E.
  - apply p_unsigned_length in E. simpl. lia.
Qed.

Lemma p_lit_length name v s w r :
  p_lit name v s = Some (w, r) → (length r = length s - length name)%nat.
Proof. unfold p_lit. case_if; [|done]. intros [= _ <-]. apply length_drop. Qed.

(** Parsing consumes input. *)
Lemma p_value_rest f :
  (∀ s l r, p_elems f s = Some (l, r) → (length r < length s)%nat) →
  (∀ s l r, p_members f s = Some (l, r) → (length r < length s)%nat) →
  ∀ s v r, p_value (S f) s = Some (v, r) → (length r < length s)%nat.
Proof.
  intros IHe IHm s v r. cbn [p_value]. pose proof (skip_ws_length s) as Hs.
  destruct (skip_ws s) as [|c t]; [done|]. simpl in Hs.
  repeat case_if.
  - destruct (p_str t) as [[u r']|] eqn:E; [|done]. intros [= _ <-]. apply p_str_length in E. lia.
  - pose proof (skip_ws_length t).
    assert ((∃ l, p_elems f t = Some (l, r)) ∨ (∃ c, skip_ws t = c :: r) → length r < length s)%nat as Hd.
    { intros [[l E%IHe]|[d E]]; [lia|]. rewrite E in *. simpl in *. lia. }
    intros Hp. apply Hd. destruct (skip_ws t) as [|d t'];
      [destruct (p_elems f t) as [[l r']|]; simplify_eq; eauto|].
    destruct (p_elems f t) as [[l r']|]; (destruct d as [|p|p]; try (by simplify_eq; eauto);
      repeat (destruct p as [p|p|]; try by simplify_eq; eauto)).
  - pose proof (skip_ws_length t).
    assert ((∃ l, p_members f t = Some (l, r)) ∨ (∃ c, skip_ws t = c :: r) → length r < length s)%nat as Hd.
    { intros [[l E%IHm]|[d E]]; [lia|]. rewrite E in *. simpl in *. lia. }
    intros Hp. apply Hd. destruct (skip_ws t) as [|d t'];
      [destruct (p_members f t) as [[l r']|]; simplify_eq; eauto|].
    destruct (p_members f t) as [[l r']|]; (destruct d as [|p|p]; try (by simplify_eq; eauto);
      repeat (destruct p as [p|p|]; try by simplify_eq; eauto)).
  - intros E%p_lit_length. simpl in E. lia.
  - intros E%p_lit_length. simpl in E. lia.
  - intros E%p_lit_length. simpl in E. lia.
  - destruct (p_num (c :: t)) as [[n r']|] eqn:E; [|done]. intros [= _ <-].
    apply p_num_length in E. simpl in E. lia.
Qed.

Lemma p_rest_length f :
  (∀ s v r, p_value f s = Some (v, r) → (length r < length s)%nat) ∧
  (∀ s l r, p_elems f s = Some (l, r) → (length r < length s)%nat) ∧
  (∀ s l r, p_members f s = Some (l, r) → (length r < length s)%nat).
Proof.
  induction f as [|f (IHv & IHe & IHm)]; [done|]. split; [|split]; intros s.
  - by apply p_value_rest.
  - intros l r. cbn [p_elems]. destruct (p_value f s) as [[v t]|] eqn:E; [|done]. apply IHv in E.
    pose proof (skip_ws_length t). destruct (skip_ws t) as [|c t']; [done|]. simpl in *. repeat case_if.
    + intros (l' & E'%IHe & _)%cons_fst_inv. lia.
    + intros [= _ <-]. lia.
    + done.
  - intros l r. cbn [p_members]. pose proof (skip_ws_length s). destruct (skip_ws s) as [|c t]; [done|].
    assert (c = 34 ∨ c ≠ 34) as [->|Hc] by lia; cycle 1.
    { destruct c as [|p|p]; try done. repeat (destruct p as [p|p|]; try done). }
    simpl in *. destruct (p_str t) as [[k r1]|] eqn:E1; [|done]. apply p_str_length in E1.
    pose proof (skip_ws_length r1). destruct (skip_ws r1) as [|d r2]; [done|].
    assert (d = 58 ∨ d ≠ 58) as [->|Hd] by lia; cycle 1.
    { destruct d as [|p|p]; try done. repeat (destruct p as [p|p|]; try done). }
    simpl in *. destruct (p_value f r2) as [[v r3]|] eqn:E2; [|done]. apply IHv in E2.
    pose proof (skip_ws_length r3). destruct (skip_ws r3) as [|e r4]; [done|]. simpl in *. repeat case_if.
    + intros (l' & E'%IHm & _)%cons_fst_inv. lia.
    + intros [= _ <-]. lia.
    + done.
Qed.

(** More fuel than [parse_fuel] gives the same result: the bound never cuts a
    parse short. *)
Lemma p_fuel f1 f2 s :
  ((2 * length s < f1)%nat → (2 * length s < f2)%nat → p_value f1 s = p_value f2 s) ∧
  ((2 * length s + 1 < f1)%nat → (2 * length s + 1 < f2)%nat →
     p_elems f1 s = p_elems f2 s ∧ p_members f1 s = p_members f2 s).
Proof.
  revert f2 s. induction f1 as [|f1 IH]; intros f2 s; [split; lia|].
  destruct f2 as [|f2]; [split; lia|]. split; intros H1 H2; [|split].
  - cbn [p_value]. pose proof (skip_ws_length s) as Hs. destruct (skip_ws s) as [|c t]; [done|].
    simpl in Hs. destruct (proj2 (IH f2 t)) as [-> ->]; [lia..|done].
  - cbn [p_elems]. rewrite (proj1 (IH f2 s)) by lia.
    destruct (p_value f2 s) as [[v r]|] eqn:E; [|done]. apply (proj1 (p_rest_length f2)) in E.
    pose proof (skip_ws_length r). destruct (skip_ws r) as [|c r']; [done|]. simpl in *.
    by rewrite (proj1 (proj2 (IH f2 r') ltac:(lia) ltac:(lia))).
  - cbn [p_members]. pose proof (skip_ws_length s). destruct (skip_ws s) as [|c t]; [done|].
    assert (c = 34 ∨ c ≠ 34) as [->|Hc] by lia; cycle 1.
    { destruct c as [|p|p]; try done. repeat (destruct p as [p|p|]; try done). }
    simpl in *. destruct (p_str t) as [[k r1]|] eqn:E1; [|done]. apply p_str_length in E1.
    pose proof (skip_ws_length r1). destruct (skip_ws r1) as [|d r2]; [done|].
    assert (d = 58 ∨ d ≠ 58) as [->|Hd] by lia; cycle 1.
    { destruct d as [|p|p]; try done. repeat (destruct p as [p|p|]; try done). }
    simpl in *. rewrite (proj1 (IH f2 r2)) by lia.
    destruct (p_value f2 r2) as [[v r3]|] eqn:E2; [|done]. apply (proj1 (p_rest_length f2)) in E2.
    pose proof (skip_ws_length r3). destruct (skip_ws r3) as [|e r4]; [done|]. simpl in *.
    by rewrite (proj2 (proj2 (IH f2 r4) ltac:(lia) ltac:(lia))).
Qed.

Lemma p_value_fuel s f : (parse_fuel s ≤ f)%nat → p_value f s = p_value (parse_fuel s) s.
Proof. unfold parse_fuel. intros Hf. apply p_fuel; lia. Qed.

(** ** Objects with optional members *)

Definition defined (v : value) : bool := match v with VUndef => false | _ => true end.

Definition drop_undefined (fs : list (jstr * value)) : list (jstr * value) :=
  List.filter (λ f, defined f.2) fs.

(** [JSON.stringify] leaves undefined members out. *)
Lemma stringify_drop_undefined fs : stringify (VObj fs) = stringify (VObj (drop_undefined fs)).
Proof.
  simpl. do 4 f_equal. induction fs as [|[k v] fs IH]; simpl; [done|].
  destruct (defined v) eqn:E; simpl.
  - by rewrite IH.
  - by destruct v.
Qed.

(** ** JSON text survives UTF-8 *)

(** Strings in which every surrogate is paired. *)
Inductive paired_units : jstr → Prop :=
| pu_nil : paired_units []
| pu_bmp c s : scalar_bmp c = true → paired_units s → paired_units (c :: s)
| pu_pair hi lo s : is_high hi = true → is_low lo = true → paired_units s → paired_units (hi :: lo :: s).

Lemma paired_units_app a b : paired_units a → paired_units b → paired_units (a ++ b).
Proof. induction 1; simpl; eauto using paired_units. Qed.

Lemma paired_units_well_formed s : paired_units s → well_formed s = s ∧ unit_str s.
Proof.
  induction 1 as [|c s Hc _ [IH1 IH2]|hi lo s Hh Hl _ [IH1 IH2]]; [by split; [|constructor]|..].
  - unfold scalar_bmp, is_code_unit in Hc. zbool. rewrite negb_true_iff in *.
    split; [|constructor; [lia|done]]. cbn [well_formed]. case_ifs. by rewrite IH1.
  - rewrite well_formed_cons2, Hh, Hl, IH1. split; [done|].
    unfold is_high, is_low in *. zbool. repeat (constructor; [lia|]). done.
Qed.

Lemma paired_units_ascii s : ascii_str s → paired_units s.
Proof.
  induction 1 as [|c s Hc _ IH]; [constructor|]. constructor; [|done].
  destruct (ascii_not_surrogate c Hc). apply scalar_bmp_intro; [lia|done..].
Qed.

Lemma hex_digit_ascii n : 0 ≤ n < 16 → 0 ≤ hex_digit n ≤ 127.
Proof. intros Hn. unfold hex_digit. case_if; zbool; lia. Qed.

Lemma u_escape_ascii c : 0 ≤ c ≤ 65535 → ascii_str (u_escape c).
Proof.
  intros Hc. unfold u_escape, hex4. repeat (constructor; [first [lia | apply hex_digit_ascii]|]); [..|constructor].
  - split; [apply Z.div_pos; lia | apply Z.div_lt_upper_bound; lia].
  - apply Z.mod_pos_bound. lia.
  - apply Z.mod_pos_bound. lia.
  - apply Z.mod_pos_bound. lia.
Qed.

Lemma json_escape_paired c : scalar_bmp c = true → paired_units (json_escape c).
Proof.
  intros Hc. unfold json_escape.
  do 7 (case_if; [apply paired_units_ascii; repeat (constructor; [lia|]); constructor|]).
  case_if; [|by repeat constructor]. apply paired_units_ascii, u_escape_ascii.
  unfold scalar_bmp, is_code_unit in Hc. zbool. lia.
Qed.

Lemma quote_body_paired s : unit_str s → paired_units (quote_body s).
Proof.
  induction s as [|c|c d s IH1 IH2] using list_ind12; intros Hs; [constructor|..].
  - cbn [quote_body]. apply Forall_cons in Hs as [Hc _].
    destruct (is_high c) eqn:Hh; [by apply paired_units_ascii, u_escape_ascii|].
    destruct (is_low c) eqn:Hl; rewrite app_nil_r; [by apply paired_units_ascii, u_escape_ascii|].
    by apply json_escape_paired, scalar_bmp_intro.
  - rewrite quote_body_cons2. apply Forall_cons in Hs as [Hc Hs].
    assert (unit_str s) by by apply Forall_cons in Hs as [_ ?].
    destruct (is_high c) eqn:Hh; [destruct (is_low d) eqn:Hl; [constructor; auto|]|];
      [|destruct (is_low c) eqn:Hl]; apply paired_units_app; auto using paired_units_ascii, u_escape_ascii.
    by apply json_escape_paired, scalar_bmp_intro.
Qed.

Lemma json_quote_paired s : unit_str s → paired_units (json_quote s).
Proof.
  intros Hs. constructor; [done|]. apply paired_units_app; [by apply quote_body_paired|]. by repeat constructor.
Qed.

Lemma join_paired l : Forall paired_units l → paired_units (join [44] l).
Proof.
  induction 1 as [|x l Hx _ IH]; [constructor|]. destruct l; [done|].
  simpl in *. apply paired_units_app; [done|]. by constructor.
Qed.

Lemma json_text_paired v : json_data v → paired_units (json_text v).
Proof.
  induction v as [| |b|n|s|l IH|fs IH] using value_ind_strong; inversion 1; subst.
  - by apply paired_units_ascii; repeat constructor; vm_compute.
  - destruct b; by apply paired_units_ascii; repeat constructor; vm_compute.
  - change (VNum (NInt z)) with (vint z). rewrite json_text_int by done. apply paired_units_ascii, Z_to_str_ascii.
  - by apply json_quote_paired.
  - rewrite json_text_arr by done. constructor; [done|]. apply paired_units_app; [|by repeat constructor].
    apply join_paired, Forall_map. rewrite Forall_forall in *. auto.
  - rewrite json_text_obj by done. constructor; [done|]. apply paired_units_app; [|by repeat constructor].
    apply join_paired, Forall_map. rewrite Forall_forall in *. intros f Hin. apply paired_units_app.
    + apply json_quote_paired. auto.
    + constructor; [done|]. auto.
Qed.

(** The bytes of JSON text decode to the text, whatever characters it has. *)
Lemma json_text_utf8 v : json_data v → utf8_decode (utf8_encode (json_text v)) = json_text v.
Proof.
  intros Hv. destruct (paired_units_well_formed _ (json_text_paired v Hv)) as [Hw Hu]. by rewrite utf8_decode_encode.
Qed.

Lemma json_text_bytes v : json_data v → byte_list (utf8_encode (json_text v)).
Proof.
  intros Hv. apply utf8_encode_bytes. by destruct (paired_units_well_formed _ (json_text_paired v Hv)).
Qed.

#[export] Hint Constructors json_data : onvm.
#[export] Hint Resolve json_parse_text : onvm.
