(* ===== verification/Sha256.v ===== *)
(** * HMAC-SHA256 of the platform's [crypto] module

    [createHmac('sha256', key)] of Node, executable, from FIPS 180-4 and
    RFC 2104.  The round constants are computed from their definition: the
    fractional parts of the cube (square) roots of the first primes. *)

From S2P Require Import Prelude JsValue Codec.

(** ** 32-bit words *)

Definition w32 (x : Z) : Z := x mod 2 ^ 32.

Definition rotr (n x : Z) : Z := Z.lor (Z.shiftr x n) (w32 (Z.shiftl x (32 - n))).

Definition small0 (x : Z) : Z := Z.lxor (Z.lxor (rotr 7 x) (rotr 18 x)) (Z.shiftr x 3).
Definition small1 (x : Z) : Z := Z.lxor (Z.lxor (rotr 17 x) (rotr 19 x)) (Z.shiftr x 10).
Definition big0 (x : Z) : Z := Z.lxor (Z.lxor (rotr 2 x) (rotr 13 x)) (rotr 22 x).
Definition big1 (x : Z) : Z := Z.lxor (Z.lxor (rotr 6 x) (rotr 11 x)) (rotr 25 x).
Definition choose (x y z : Z) : Z := Z.lxor (Z.land x y) (Z.land (2 ^ 32 - 1 - x) z).
Definition majority (x y z : Z) : Z := Z.lxor (Z.lxor (Z.land x y) (Z.land x z)) (Z.land y z).

(** ** Constants *)

Definition is_prime (n : Z) : bool :=
  forallb (λ d, negb (n mod Z.of_nat d =? 0)) (List.filter (λ d, Z.of_nat d <? n) (seq 2 20)).

Definition primes64 : list Z :=
  Eval vm_compute in take 64 (List.filter is_prime (map Z.of_nat (seq 2 400))).

(** Integer cube root by bits, from bit [k - 1] down. *)
Fixpoint cube_root (k : nat) (n acc : Z) : Z :=
  match k with
  | O => acc
  | S k' =>
      let c := acc + 2 ^ Z.of_nat k' in
      cube_root k' n (if c * c * c <=? n then c else acc)
  end.

Definition round_constants : list Z :=
  Eval vm_compute in map (λ p, w32 (cube_root 36 (p * 2 ^ 96) 0)) primes64.

Record hash_state : Type := HS { ha : Z; hb : Z; hc : Z; hd : Z; he : Z; hf : Z; hg : Z; hh : Z }.

Definition initial_state : hash_state :=
  Eval vm_compute in
  match map (λ p, w32 (Z.sqrt (p * 2 ^ 64))) primes64 with
  | a :: b :: c :: d :: e :: f :: g :: h :: _ => HS a b c d e f g h
  | _ => HS 0 0 0 0 0 0 0 0
  end.

(** ** Compression *)

Fixpoint be_words (bs : bytes) : list Z :=
  match bs with
  | a :: b :: c :: d :: r => (a * 2 ^ 24 + b * 2 ^ 16 + c * 2 ^ 8 + d) :: be_words r
  | _ => []
  end.

Definition be_bytes (n : nat) (x : Z) : bytes :=
  map (λ i, x / 2 ^ (8 * (Z.of_nat n - 1 - Z.of_nat i)) mod 256) (seq 0 n).

(** The message schedule, most recent word first. *)
Fixpoint schedule (n : nat) (ws : list Z) : list Z :=
  match n with
  | O => ws
  | S n' =>
      let w i := nth i ws 0 in
      schedule n' (w32 (small1 (w 1%nat) + w 6%nat + small0 (w 14%nat) + w 15%nat) :: ws)
  end.

Definition hash_round (s : hash_state) (kw : Z * Z) : hash_state :=
  let t1 := hh s + big1 (he s) + choose (he s) (hf s) (hg s) + kw.1 + kw.2 in
  let t2 := big0 (ha s) + majority (ha s) (hb s) (hc s) in
  HS (w32 (t1 + t2)) (ha s) (hb s) (hc s) (w32 (hd s + t1)) (he s) (hf s) (hg s).

Definition compress (s : hash_state) (block : bytes) : hash_state :=
  let ws := rev (schedule 48 (rev (be_words block))) in
  let t := fold_left hash_round (combine round_constants ws) s in
  HS (w32 (ha s + ha t)) (w32 (hb s + hb t)) (w32 (hc s + hc t)) (w32 (hd s + hd t))
     (w32 (he s + he t)) (w32 (hf s + hf t)) (w32 (hg s + hg t)) (w32 (hh s + hh t)).

Fixpoint blocks (n : nat) (bs : bytes) : list bytes :=
  match n with
  | O => []
  | S n' => take 64 bs :: blocks n' (drop 64 bs)
  end.

Definition pad_message (m : bytes) : bytes :=
  let len := Z.of_nat (length m) in
  m ++ 128 :: replicate (Z.to_nat ((55 - len) mod 64)) 0 ++ be_bytes 8 (8 * len).

Definition state_bytes (s : hash_state) : bytes :=
  be_bytes 4 (ha s) ++ be_bytes 4 (hb s) ++ be_bytes 4 (hc s) ++ be_bytes 4 (hd s) ++
  be_bytes 4 (he s) ++ be_bytes 4 (hf s) ++ be_bytes 4 (hg s) ++ be_bytes 4 (hh s).

Definition sha256 (m : bytes) : bytes :=
  let p := pad_message m in
  state_bytes (fold_left compress (blocks (length p / 64) p) initial_state).

(** [createHmac('sha256', key).update(m).digest()]. *)
Definition hmac_sha256 (key m : bytes) : bytes :=
  let k := if (64 <? length key)%nat then sha256 key else key in
  let k := k ++ replicate (64 - length k) 0 in
  sha256 (map (Z.lxor 92) k ++ sha256 (map (Z.lxor 54) k ++ m)).

(** ** Lemmas *)

Lemma be_bytes_length n x : length (be_bytes n x) = n.
Proof. unfold be_bytes. by rewrite length_map, length_seq. Qed.

Lemma be_bytes_bytes n x : byte_list (be_bytes n x).
Proof.
  unfold be_bytes, byte_list. apply Forall_forall. intros b Hb.
  apply list_elem_of_In, in_map_iff in Hb as (i & <- & _).
  pose proof (Z.mod_pos_bound (x / 2 ^ (8 * (Z.of_nat n - 1 - Z.of_nat i))) 256). lia.
Qed.

Lemma sha256_length m : length (sha256 m) = 32%nat.
Proof. unfold sha256, state_bytes. by rewrite !length_app, !be_bytes_length. Qed.

Lemma sha256_bytes m : byte_list (sha256 m).
Proof. unfold sha256, state_bytes, byte_list. rewrite !Forall_app. repeat split; apply be_bytes_bytes. Qed.

Lemma hmac_length k m : length (hmac_sha256 k m) = 32%nat.
Proof. apply sha256_length. Qed.

Lemma hmac_bytes k m : byte_list (hmac_sha256 k m).
Proof. apply sha256_bytes. Qed.

(** Clients reason through the length and range lemmas; evaluation is by
    [vm_compute]. *)
#[global] Opaque sha256 hmac_sha256.

#[export] Hint Resolve hmac_length hmac_bytes sha256_length sha256_bytes : onvm.

(** Test vector 2 of RFC 4231. *)
Example hmac_rfc4231_2 :
  hex_encode (hmac_sha256 (js "Jefe") (js "what do ya want for nothing?"))
  = js "5bdcc146bf60754e6a042426089575c75a003f089d2739839dec58b964ec3843".
Proof. vm_compute. reflexivity. Qed.
