(* ===== verification/Platform.v ===== *)
(** * The platform the SDK runs on

    [fetch] with its requests and responses, [Date.now], [randomBytes] and the
    AEAD package.  The network, the clock and the entropy source are an
    environment every theorem quantifies over; what a program did to them is
    recorded in the state. *)

From S2P Require Import Prelude JsValue Codec Json.

(** ** HTTP messages *)

Inductive body : Type :=
| BodyText (s : jstr)
| BodyBytes (bs : bytes).

(** The bytes on the wire. *)
Definition body_bytes (b : option body) : bytes :=
  match b with
  | None => []
  | Some (BodyText s) => utf8_encode s
  | Some (BodyBytes bs) => bs
  end.

(** [rq_timeout] is the delay of the [AbortController] timer armed around the
    call, if any. *)
Record http_request : Type := {
  rq_method : jstr;
  rq_url : jstr;
  rq_headers : list (jstr * jstr);
  rq_body : option body;
  rq_timeout : option Z;
}.

(** Reading the body may fail after the headers have arrived.  Header names are
    in lower case and occur once, as a [Headers] object stores them. *)
Record http_response : Type := {
  rs_status : Z;
  rs_statusText : jstr;
  rs_headers : list (jstr * jstr);
  rs_body : outcome exn bytes;
}.

(** [response.ok]. *)
Definition rs_ok (r : http_response) : bool := (200 <=? rs_status r) && (rs_status r <=? 299).

(** [response.headers.get(name)]; [None] is [null]. *)
Definition header (name : jstr) (r : http_response) : option jstr := obj_get name (rs_headers r).

Section Bodies.
Context `{Engine}.

(** [await response.text()]. *)
Definition rs_text (r : http_response) : outcome exn jstr :=
  let! bs := rs_body r in Ok (utf8_text bs).

(** [await response.json()]. *)
Definition rs_json (r : http_response) : outcome exn value :=
  let! t := rs_text r in json_parse t.

(** [await response.arrayBuffer()]. *)
Definition rs_arrayBuffer (r : http_response) : outcome exn bytes := rs_body r.
End Bodies.

(** ** The environment *)

(** [server hist rq] is what [fetch(rq)] settles to after the requests [hist]
    went out before; [clock n] is the [n]-th reading of [Date.now()];
    [entropy n k] the [n]-th draw of [randomBytes(k)]. *)
Class Env : Type := {
  server : list http_request → http_request → outcome exn http_response;
  clock : nat → Z;
  entropy : nat → nat → bytes;
  entropy_length : ∀ n k, length (entropy n k) = k;
  entropy_bytes : ∀ n k, byte_list (entropy n k);
}.

(** What a program did to the platform so far. *)
Record world : Type := {
  sent : list http_request;
  ticks : nat;
  draws : nat;
}.

Definition fresh_world : world := {| sent := []; ticks := 0; draws := 0 |}.

(** Component states that contain a world. *)
Class HasWorld (S : Type) : Type := {
  get_world : S → world;
  set_world : world → S → S;
  get_set_world : ∀ w s, get_world (set_world w s) = w;
}.

#[global] Instance world_HasWorld : HasWorld world.
Proof. by refine {| get_world := λ w, w; set_world := λ w _, w |}. Defined.

Section Primitives.
Context `{Env} {S : Type} `{HasWorld S}.

Definition fetch (rq : http_request) : M exn S http_response := λ s,
  let w := get_world s in
  (server (sent w) rq,
   set_world {| sent := sent w ++ [rq]; ticks := ticks w; draws := draws w |} s).

Definition date_now : M exn S Z := λ s,
  let w := get_world s in
  (Ok (clock (ticks w)), set_world {| sent := sent w; ticks := Datatypes.S (ticks w); draws := draws w |} s).

Definition random_bytes (k : nat) : M exn S bytes := λ s,
  let w := get_world s in
  (Ok (entropy (draws w) k), set_world {| sent := sent w; ticks := ticks w; draws := Datatypes.S (draws w) |} s).
End Primitives.

(** ** XChaCha20-Poly1305 of @stablelib

    [aead_open] stands for [new XChaCha20Poly1305(key).open(nonce, sealed, ad)]:
    it may throw (key or nonce of the wrong length), return [null] (the tag does
    not verify) or the plaintext.  The law is the documented one: opening what
    was sealed under the same key, nonce and associated data gives it back. *)
Class XChaCha : Type := {
  aead_seal : bytes → bytes → bytes → bytes → bytes;
  aead_open : bytes → bytes → bytes → bytes → outcome exn (option bytes);
  aead_open_seal : ∀ key nonce plaintext ad,
    length key = 32%nat → length nonce = 24%nat → byte_list plaintext →
    aead_open key nonce (aead_seal key nonce plaintext ad) ad = Ok (Some plaintext);
  aead_seal_bytes : ∀ key nonce plaintext ad,
    byte_list plaintext → byte_list (aead_seal key nonce plaintext ad);
}.
