(* ===== verification/Models.v ===== *)
(** * Concrete environments

    Instances of the classes the components are parametrised by.  They show that
    the laws of the classes can hold, and the witnesses of the development
    evaluate the models on them. *)

From S2P Require Import Prelude JsValue Codec Json Sha256 Platform.

Module Models.

Definition engine : Engine := {|
  syntax_error_message := λ _, js "Unexpected token in JSON";
  type_error_message := λ what, what;
|}.

(** An authenticated, not confidential, scheme: the plaintext followed by the
    first 16 octets of an HMAC over nonce, associated data and plaintext. *)
Definition tag (key nonce plaintext ad : bytes) : bytes :=
  take 16 (hmac_sha256 key (nonce ++ ad ++ plaintext)).

Definition mac_seal (key nonce plaintext ad : bytes) : bytes := plaintext ++ tag key nonce plaintext ad.

Definition mac_open (key nonce sealed ad : bytes) : outcome exn (option bytes) :=
  if negb (Nat.eqb (length key) 32) then Throw (JsErr (js "Error") (js "ChaCha20Poly1305 needs 32-byte key"))
  else
    let plaintext := take (length sealed - 16) sealed in
    Ok (if bool_decide (sealed = mac_seal key nonce plaintext ad) then Some plaintext else None).

Lemma tag_length key nonce p ad : length (tag key nonce p ad) = 16%nat.
Proof. unfold tag. by rewrite length_take, hmac_length. Qed.

Lemma mac_open_seal key nonce p ad :
  length key = 32%nat → length nonce = 24%nat → byte_list p →
  mac_open key nonce (mac_seal key nonce p ad) ad = Ok (Some p).
Proof.
  intros Hk _ _. unfold mac_open. rewrite Hk. simpl.
  assert (take (length (mac_seal key nonce p ad) - 16) (mac_seal key nonce p ad) = p) as ->.
  { apply take_app_exact. unfold mac_seal. rewrite length_app, tag_length. lia. }
  by rewrite bool_decide_true.
Qed.

Lemma mac_seal_bytes key nonce p ad : byte_list p → byte_list (mac_seal key nonce p ad).
Proof. intros Hp. apply Forall_app. split; [done|]. apply Forall_take, hmac_bytes. Qed.

Definition mac_aead : XChaCha := {|
  aead_seal := mac_seal;
  aead_open := mac_open;
  aead_open_seal := mac_open_seal;
  aead_seal_bytes := mac_seal_bytes;
|}.

(** A constant clock, a constant entropy source and a given server. *)
Lemma replicate_bytes (n : nat) b : 0 ≤ b ≤ 255 → byte_list (replicate n b).
Proof. intros Hb. by apply Forall_replicate. Qed.

Definition seven_bytes (k : nat) : byte_list (replicate k 7) := replicate_bytes k 7 ltac:(lia).

Definition env_with (srv : list http_request → http_request → outcome exn http_response) : Env := {|
  server := srv;
  clock := λ n, 1700000000000 + Z.of_nat n;
  entropy := λ _ k, replicate k 7;
  entropy_length := λ _ k, length_replicate k 7;
  entropy_bytes := λ _ k, seven_bytes k;
|}.

(** Answers every request with the same status and text. *)
Definition constant_server (status : Z) (text : jstr)
    (_ : list http_request) (_ : http_request) : outcome exn http_response :=
  Ok {| rs_status := status; rs_statusText := []; rs_headers := []; rs_body := Ok (utf8_encode text) |}.

End Models.
