(* ===== verification/SdkErrors.v ===== *)
(** * onvm-sdk/src/errors.ts: the error classes of the SDK *)

From S2P Require Import Prelude JsValue.

Module Errors.

(** ** Constructors *)

Definition OnvmError (message : jstr) (statusCode : option Z) (details : detail) : exn :=
  OnvmErr COnvmError message statusCode details.

Definition OnvmAuthError (message : jstr) (details : detail) : exn :=
  OnvmErr COnvmAuthError message (Some 401) details.

Definition OnvmNetworkError (message : jstr) (details : detail) : exn :=
  OnvmErr COnvmNetworkError message None details.

Definition OnvmRateLimitError (message : jstr) (details : detail) : exn :=
  OnvmErr COnvmRateLimitError message (Some 429) details.

Definition OnvmConfigError (message : jstr) (details : detail) : exn :=
  OnvmErr COnvmConfigError message None details.

(** ** [instanceof], [name], [message] *)

(** Every class extends [OnvmError]: the prototype chain set in the
    constructors makes each instance an [OnvmError] and an [Error]. *)
Definition instanceof_OnvmError (e : exn) : bool :=
  match e with OnvmErr _ _ _ _ => true | _ => false end.

Definition instanceof_Error (e : exn) : bool :=
  match e with Thrown _ => false | _ => true end.

Definition class_name (c : onvm_class) : jstr :=
  match c with
  | COnvmError => js "OnvmError"
  | COnvmAuthError => js "OnvmAuthError"
  | COnvmNetworkError => js "OnvmNetworkError"
  | COnvmRateLimitError => js "OnvmRateLimitError"
  | COnvmConfigError => js "OnvmConfigError"
  end.

Definition error_name (e : exn) : jstr :=
  match e with
  | OnvmErr c _ _ _ => class_name c
  | JsErr n _ => n
  | Thrown _ => []
  end.

Definition error_message (e : exn) : jstr :=
  match e with
  | OnvmErr _ m _ _ => m
  | JsErr _ m => m
  | Thrown _ => []
  end.

Definition status_of (e : exn) : option Z :=
  match e with OnvmErr _ _ s _ => s | _ => None end.

(** [String(v)] for the values that may be thrown. *)
Fixpoint to_string_prim (v : value) : jstr :=
  match v with
  | VUndef => js "undefined"
  | VNull => js "null"
  | VBool b => if b then js "true" else js "false"
  | VNum n => num_to_str n
  | VStr s => s
  | VArr l => join [44] (map (λ x, match x with VUndef | VNull => [] | _ => to_string_prim x end) l)
  | VObj _ => js "[object Object]"
  end.

(** [`${error}`]: [Error.prototype.toString]. *)
Definition exn_to_string (e : exn) : jstr :=
  match e with
  | Thrown v => to_string_prim v
  | _ =>
      match error_name e, error_message e with
      | [], m => m
      | n, [] => n
      | n, m => n ++ js ": " ++ m
      end
  end.

(** [error instanceof Error ? error.message : String(error)]. *)
Definition message_of (e : exn) : jstr :=
  if instanceof_Error e then error_message e else exn_to_string e.

(** [error instanceof Error ? error.message : fallback]. *)
Definition message_or (fallback : jstr) (e : exn) : jstr :=
  if instanceof_Error e then error_message e else fallback.

(** ** Getters of [OnvmError] *)

Definition isAuthError (e : exn) : bool :=
  match status_of e with
  | Some s => (s =? 401) || (s =? 403)
  | None => false
  end.

Definition isRateLimitError (e : exn) : bool :=
  match status_of e with
  | Some s => s =? 429
  | None => false
  end.

Definition isNetworkError (e : exn) : bool :=
  match status_of e with
  | None => true
  | Some s => (500 <=? s) && (s <? 600)
  end.

(** The three getters never hold together: at most one classification. *)
Lemma getters_exclusive e :
  isAuthError e && isRateLimitError e = false ∧
  isAuthError e && isNetworkError e = false ∧
  isRateLimitError e && isNetworkError e = false.
Proof.
  unfold isAuthError, isRateLimitError, isNetworkError. destruct (status_of e) as [s|]; [|done].
  destruct (Z.eqb_spec s 401), (Z.eqb_spec s 403), (Z.eqb_spec s 429), (Z.leb_spec 500 s), (Z.ltb_spec s 600);
    subst; try lia; done.
Qed.

(** The getters classify the instances each constructor makes as its name
    says. *)
Lemma constructors_classified m d :
  isAuthError (OnvmAuthError m d) = true ∧
  isNetworkError (OnvmNetworkError m d) = true ∧
  isRateLimitError (OnvmRateLimitError m d) = true ∧
  isNetworkError (OnvmConfigError m d) = true.
Proof. done. Qed.

End Errors.
