(* ===== verification/SdkTypes.v ===== *)
(** * onvm-sdk/src/types.ts: the interfaces of the SDK

    Each interface is a term of the type language of [JsValue.ty]; the
    theorems on the client's methods are stated with [conforms]. *)

From S2P Require Import Prelude JsValue.

Module Types.

(** [enum RpcMode]; at run time its members are the strings. *)
Inductive RpcMode : Type := Dev | Prod.

Definition rpc_mode_str (m : RpcMode) : jstr :=
  match m with
  | Dev => js "dev"
  | Prod => js "prod"
  end.

(** The configuration object the constructor receives. *)
Record OnvmClientConfig : Type := {
  cfg_rpcUrl : jstr;
  cfg_programId : option jstr;
  cfg_projectId : option jstr;
  cfg_projectSecret : option jstr;
  cfg_mode : option RpcMode;
  cfg_timeout : option Z;
}.

Definition HealthResponse : ty := TObj [mem "alive" TBool].

Definition LivenessResponse : ty := TObj [mem "alive" TBool; mem "mode" TStr].

Definition ReadinessResponse : ty := TObj [
  mem "status" TStr; mem "queue_depth" TNum; mem "running_count" TNum;
  mem "capacity" TNum; mem "available_slots" TNum].

Definition MetricsResponse : ty := TObj [
  mem "total_jobs" TNum; mem "completed_jobs" TNum; mem "failed_jobs" TNum;
  mem "average_execution_time_ms" TNum; mem "total_fuel_consumed" TNum].

Definition CreateProjectRequest : ty := TObj [mem "identity_passphrase" TStr; opt "project_id" TStr].

Definition CreateProjectResponse : ty := TObj [mem "project_id" TStr; mem "project_secret" TStr].

Definition UploadBlobResponse : ty := TObj [mem "id" TStr; mem "size" TNum].

Definition BlobInfo : ty := TObj [mem "id" TStr; mem "size" TNum; opt "mime_type" TStr].

Definition DeployProgramRequest : ty := TObj [
  mem "wasm_base64" TStr; mem "entrypoint" TStr; mem "blob_refs" (TArr TStr)].

Definition DeployProgramResponse : ty := TObj [mem "id" TStr].

Definition ProgramInfo : ty := TObj [
  mem "id" TStr; mem "publisher" TStr; mem "size" TNum; mem "entrypoint" TStr;
  mem "blob_refs" (TArr TStr)].

Definition ExecuteRequest : ty := TObj [mem "program_id" TStr; mem "input_base64" TStr].

Definition ExecuteResponse : ty := TObj [mem "return_base64" TStr; mem "fuel" TNum].

Definition EstimateFuelRequest : ty := TObj [mem "program_id" TStr; mem "input_base64" TStr].

Definition EstimateFuelResponse : ty := TObj [
  mem "estimated_fuel" TNum; mem "confidence" TNum; mem "based_on_samples" TNum;
  mem "input_size_bytes" TNum; mem "estimated_execution_time_ms" TNum].

Definition FuelSample : ty := TObj [
  mem "input_size" TNum; mem "fuel_consumed" TNum; mem "execution_time_ms" TNum; mem "timestamp" TNum].

Definition FuelProfileResponse : ty := TObj [
  mem "program_id" TStr; mem "samples" (TArr FuelSample); mem "average_fuel_per_byte" TNum;
  mem "base_fuel_cost" TNum].

Definition SubmitJobRequest : ty := TObj [
  mem "request_id" TStr; mem "program_id" TStr; opt "input_base64" TStr; opt "input_blob_id" TStr;
  opt "max_retries" TNum; opt "metadata" (TDict TStr)].

Definition SubmitJobResponse : ty := TObj [mem "job_id" TStr; mem "status" TStr].

Definition JobStatusResponse : ty := TObj [
  mem "job_id" TStr; mem "request_id" TStr; mem "program_id" TStr; mem "status" TStr;
  mem "fuel_consumed" TNum; mem "created_at" TNum; opt "started_at" TNum; opt "completed_at" TNum;
  opt "duration_ms" TNum; mem "retry_count" TNum; opt "error_message" TStr;
  opt "metadata" (TDict TStr)].

Definition LogEntry : ty := TObj [mem "timestamp" TNum; mem "level" TStr; mem "message" TStr].

Definition JobLogsResponse : ty := TObj [mem "logs" (TArr LogEntry)].

Definition JobOutputResponse : ty := TObj [mem "job_id" TStr; mem "output_base64" TStr; mem "size" TNum].

Definition JobSummary : ty := TObj [
  mem "job_id" TStr; mem "request_id" TStr; mem "program_id" TStr; mem "status" TStr;
  mem "created_at" TNum; opt "completed_at" TNum].

Definition JobListResponse : ty := TObj [mem "jobs" (TArr JobSummary); mem "total" TNum].

Definition AggregatedReceipt : ty := TObj [
  mem "program_id" TStr; mem "state_root_in" TStr; mem "state_root_out" TStr; mem "write_digest" TStr;
  mem "gas_used" TNum; mem "signer_bitmap" TStr; mem "committee_epoch" TNum; mem "receipt_id" TStr].

Definition ProgramReceiptsResponse : ty := TObj [mem "receipts" (TArr AggregatedReceipt)].

Definition CommitteeMember : ty := TObj [mem "node" TStr; mem "weight" TNum; mem "bls_public_key" TStr].

Definition ProgramCommitteeResponse : ty := TObj [
  mem "program_id" TStr; mem "epoch" TNum; mem "aggregate_public_key" TStr;
  mem "members" (TArr CommitteeMember); mem "threshold" TNum].

Definition ProgramStateRootResponse : ty := TObj [
  mem "program_id" TStr; mem "root" TStr; opt "proof" (TArr TStr); opt "value_hex" TStr].

Definition CatalogEntry : ty := TObj [
  mem "program_id" TStr; mem "version" TNum; mem "initial_state_root" TStr; opt "dag_parent" TStr;
  opt "code_manifest" TStr; mem "timestamp_ms" TNum].

Definition ProgramCatalogResponse : ty := TObj [mem "catalog" (TArr CatalogEntry)].

(** [Promise<void>] of [cancelJob]: any value, the caller ignores it. *)
Definition Void : ty := TAny.

End Types.
