(* ===== verification/SdkAuth.v ===== *)
(** * onvm-sdk/src/auth.ts: key derivation, request signing, response decryption *)

From S2P Require Import Prelude JsValue Codec Json Sha256 Platform SdkErrors Models.

Module Auth.
Import Errors.

Definition HDR_PROJECT_ID : jstr := js "x-project-id".
Definition HDR_TIMESTAMP : jstr := js "x-timestamp".
Definition HDR_NONCE : jstr := js "x-nonce".
Definition HDR_SIGNATURE : jstr := js "x-signature".

Record DerivedKeys : Type := {
  signing_key : bytes;
  response_key : bytes;
}.

(** ** HKDF *)

(** The expand loop from counter [i] for [n] rounds, [t] the previous block. *)
Fixpoint hkdf_loop (prk info : bytes) (n : nat) (i : Z) (t : bytes) : list bytes :=
  match n with
  | O => []
  | S n' =>
      let t' := hmac_sha256 prk (t ++ info ++ [i mod 256]) in
      t' :: hkdf_loop prk info n' (i + 1) t'
  end.

Definition hkdf (ikm : bytes) (salt : option bytes) (info : bytes) (len : Z) : bytes :=
  let actualSalt := default (replicate 32 0) salt in
  let prk := hmac_sha256 actualSalt ikm in
  let n := Z.to_nat ((len + 31) / 32) in
  take (Z.to_nat len) (concat (hkdf_loop prk info n 1 [])).

Definition deriveKeys (projectSecret : jstr) : outcome exn DerivedKeys :=
  let secretBuffer := hex_decode projectSecret in
  if negb (Nat.eqb (length secretBuffer) 32) then
    Throw (OnvmAuthError (js "Project secret must be 32 bytes (64 hex chars)") NoDetails)
  else
    let okm := hkdf secretBuffer None (utf8_encode (js "onvm-rpc-auth")) 64 in
    Ok {| signing_key := take 32 okm; response_key := take 32 (drop 32 okm) |}.

(** ** Signing *)

(** [`${method} ${path}\n${timestamp}\n${nonce}\n${body}`]. *)
Definition canonical (method path : jstr) (timestamp : Z) (nonce body : jstr) : jstr :=
  method ++ [32] ++ path ++ [10] ++ Z_to_str timestamp ++ [10] ++ nonce ++ [10] ++ body.

Definition signRequest (method path body : jstr) (timestamp : Z) (nonce : jstr) (signingKey : bytes) : jstr :=
  hex_encode (hmac_sha256 signingKey (utf8_encode (canonical method path timestamp nonce body))).

Section Effectful.
Context `{Env} {S : Type} `{HasWorld S}.

Definition generateNonce : M exn S jstr :=
  let* r := random_bytes 16 in
  retM (hex_encode r).

Definition getCurrentTimestampMs : M exn S Z := date_now.

Definition buildAuthHeaders (method path body projectId : jstr) (signingKey : bytes)
    : M exn S (list (jstr * jstr)) :=
  let* timestamp := getCurrentTimestampMs in
  let* nonce := generateNonce in
  let signature := signRequest method path body timestamp nonce signingKey in
  retM [(HDR_PROJECT_ID, projectId);
        (HDR_TIMESTAMP, Z_to_str timestamp);
        (HDR_NONCE, nonce);
        (HDR_SIGNATURE, signature)].
End Effectful.

(** ** Response decryption *)

Definition deriveResponseNonce (responseKey : bytes) (requestNonce : jstr) (timestamp : Z) : bytes :=
  let info := utf8_encode (js "resp-" ++ Z_to_str timestamp) in
  hkdf (utf8_encode requestNonce) (Some responseKey) info 24.

(** The nonce header when present and not empty, the derived nonce otherwise. *)
Definition response_nonce (responseKey : bytes) (requestNonce : jstr) (timestamp : Z)
    (responseNonceHex : option jstr) : bytes :=
  match responseNonceHex with
  | Some (c :: r) => hex_decode (c :: r)
  | _ => deriveResponseNonce responseKey requestNonce timestamp
  end.

Section Decryption.
Context `{XChaCha}.

Definition decryptResponseToBuffer (ciphertextBase64 : jstr) (responseKey : bytes)
    (requestNonce : jstr) (timestamp : Z) (canonical : jstr) (responseNonceHex : option jstr)
    : outcome exn bytes :=
  let ciphertext := b64_decode ciphertextBase64 in
  let nonce := response_nonce responseKey requestNonce timestamp responseNonceHex in
  if negb (Nat.eqb (length nonce) 24) then
    Throw (OnvmAuthError (js "Invalid response nonce length: expected 24 bytes") NoDetails)
  else
    match (let! plaintext := aead_open responseKey nonce ciphertext (utf8_encode canonical) in
           match plaintext with
           | None => Throw (JsErr (js "Error") (js "Decryption failed: authentication tag mismatch"))
           | Some p => Ok p
           end) with
    | Ok p => Ok p
    | Throw error =>
        Throw (OnvmAuthError (js "Response decryption failed: " ++ exn_to_string error) NoDetails)
    end.

Definition decryptResponse (ciphertextBase64 : jstr) (responseKey : bytes)
    (requestNonce : jstr) (timestamp : Z) (canonical : jstr) (responseNonceHex : option jstr)
    : outcome exn jstr :=
  let! plaintext := decryptResponseToBuffer ciphertextBase64 responseKey requestNonce timestamp
                      canonical responseNonceHex in
  Ok (utf8_decode plaintext).
End Decryption.

(** ** HKDF against RFC 5869 *)

(** [T(i)] of RFC 5869, section 2.3. *)
Fixpoint hkdf_T (prk info : bytes) (i : nat) : bytes :=
  match i with
  | O => []
  | S j => hmac_sha256 prk (hkdf_T prk info j ++ info ++ [Z.of_nat i])
  end.

(** [OKM]: the first [len] octets of [T(1) | T(2) | ...]. *)
Definition hkdf_rfc5869 (ikm : bytes) (salt : option bytes) (info : bytes) (len : nat) : bytes :=
  let prk := hmac_sha256 (default (replicate 32 0) salt) ikm in
  take len (concat (map (hkdf_T prk info) (seq 1 (Nat.div (len + 31) 32)))).

Lemma hkdf_loop_length prk info n i t : length (concat (hkdf_loop prk info n i t)) = (32 * n)%nat.
Proof.
  revert i t. induction n as [|n IH]; intros i t; [done|]. simpl.
  rewrite length_app, hmac_length, IH. lia.
Qed.

Lemma hkdf_loop_bytes prk info n i t : byte_list (concat (hkdf_loop prk info n i t)).
Proof.
  unfold byte_list. revert i t. induction n as [|n IH]; intros i t; [constructor|]. simpl.
  apply Forall_app. split; [apply hmac_bytes | apply IH].
Qed.

Lemma hkdf_length ikm salt info len : 0 ≤ len → Z.of_nat (length (hkdf ikm salt info len)) = len.
Proof.
  intros Hlen. unfold hkdf. rewrite length_take, hkdf_loop_length.
  pose proof (Z.div_mod (len + 31) 32 ltac:(lia)). pose proof (Z.mod_pos_bound (len + 31) 32 ltac:(lia)).
  assert (0 ≤ (len + 31) / 32) by (apply Z.div_pos; lia). lia.
Qed.

Lemma hkdf_bytes ikm salt info len : byte_list (hkdf ikm salt info len).
Proof. unfold hkdf, byte_list. apply Forall_take, hkdf_loop_bytes. Qed.

Lemma hkdf_loop_T prk info n j :
  (j + n ≤ 255)%nat →
  hkdf_loop prk info n (Z.of_nat (S j)) (hkdf_T prk info j) = map (hkdf_T prk info) (seq (S j) n).
Proof.
  revert j. induction n as [|n IH]; intros j Hj; [done|].
  simpl hkdf_loop. simpl seq. simpl map. rewrite Z.mod_small by lia. f_equal.
  replace (Z.of_nat (S j) + 1) with (Z.of_nat (S (S j))) by lia.
  change (hmac_sha256 prk (hkdf_T prk info j ++ info ++ [Z.of_nat (S j)])) with (hkdf_T prk info (S j)).
  apply IH. lia.
Qed.

Lemma hkdf_is_rfc5869 ikm salt info len :
  (len ≤ 255 * 32)%nat → hkdf ikm salt info (Z.of_nat len) = hkdf_rfc5869 ikm salt info len.
Proof.
  intros Hlen. unfold hkdf, hkdf_rfc5869. rewrite Nat2Z.id.
  replace (Z.to_nat ((Z.of_nat len + 31) / 32)) with (Nat.div (len + 31) 32).
  - f_equal. f_equal. apply (hkdf_loop_T _ _ _ 0).
    assert (Nat.div (len + 31) 32 < 256)%nat by (apply Nat.Div0.div_lt_upper_bound; lia). lia.
  - rewrite <- (Nat2Z.id (Nat.div (len + 31) 32)). f_equal.
    rewrite Nat2Z.inj_div, Nat2Z.inj_add. done.
Qed.

(** ** Derived keys *)

Lemma deriveKeys_ok secret k :
  deriveKeys secret = Ok k →
  length (signing_key k) = 32%nat ∧ length (response_key k) = 32%nat ∧
  byte_list (signing_key k) ∧ byte_list (response_key k) ∧
  signing_key k ++ response_key k = hkdf_rfc5869 (hex_decode secret) None (js "onvm-rpc-auth") 64.
Proof.
  unfold deriveKeys. case_if; [done|]. intros Hk. apply (f_equal (λ o, match o with Ok x => x | _ => k end)) in Hk.
  subst k. cbn [signing_key response_key].
  remember (hkdf (hex_decode secret) None (utf8_encode (js "onvm-rpc-auth")) 64) as okm eqn:Hokm.
  assert (length okm = 64%nat) as Hlen.
  { apply Nat2Z.inj. rewrite Hokm. by rewrite hkdf_length. }
  assert (byte_list okm) as Hb by (rewrite Hokm; apply hkdf_bytes).
  repeat split.
  - rewrite length_take. lia.
  - rewrite length_take, length_drop. lia.
  - by apply Forall_take.
  - by apply Forall_take, Forall_drop.
  - rewrite (take_ge (drop 32 okm)) by (rewrite length_drop; lia). rewrite take_drop.
    rewrite Hokm, <- hkdf_is_rfc5869 by lia. done.
Qed.

Lemma deriveKeys_hex secret :
  byte_list secret → length secret = 32%nat → ∃ k, deriveKeys (hex_encode secret) = Ok k.
Proof. intros Hb Hl. unfold deriveKeys. rewrite hex_decode_encode by done. rewrite Hl. simpl. eauto. Qed.

(** ** The signed message *)

Lemma sep_not_in_digits z : 10 ∉ Z_to_str z.
Proof.
  intros Hin. pose proof (Z_to_str_chars z) as Hc. rewrite Forall_forall in Hc.
  destruct (Hc _ Hin) as [?|?]; [unfold is_digit in *; zbool|]; lia.
Qed.

Lemma canonical_utf8 method path ts nonce body :
  ascii_str method → ascii_str path → ascii_str nonce →
  utf8_encode (canonical method path ts nonce body)
  = method ++ 32 :: path ++ 10 :: Z_to_str ts ++ 10 :: nonce ++ 10 :: utf8_encode body.
Proof.
  intros Hm Hp Hn. unfold canonical. simpl.
  assert (∀ s, utf8_encode (10 :: s) = 10 :: utf8_encode s) as H10 by (intros; apply utf8_encode_ascii_cons; lia).
  rewrite utf8_encode_ascii_app, utf8_encode_ascii_cons, utf8_encode_ascii_app, H10,
    (utf8_encode_ascii_app (Z_to_str ts)), H10, (utf8_encode_ascii_app nonce), H10
    by (done || lia || apply Z_to_str_ascii).
  done.
Qed.

Lemma utf8_encode_inj a b :
  unit_str a → unit_str b → utf8_encode a = utf8_encode b → well_formed a = well_formed b.
Proof. intros Ha Hb Heq. by rewrite <- !utf8_decode_encode, Heq. Qed.

(** The headers for a given timestamp and nonce. *)
Definition auth_headers (projectId : jstr) (key : bytes) (method path body : jstr) (ts : Z) (nonce : jstr)
    : list (jstr * jstr) :=
  [(HDR_PROJECT_ID, projectId); (HDR_TIMESTAMP, Z_to_str ts); (HDR_NONCE, nonce);
   (HDR_SIGNATURE, hex_encode (hmac_sha256 key (utf8_encode (canonical method path ts nonce body))))].

(** The state after one clock reading and one draw. *)
Definition after_auth {S : Type} `{HasWorld S} (s : S) : S :=
  let w := get_world s in
  let s1 := set_world {| sent := sent w; ticks := Datatypes.S (ticks w); draws := draws w |} s in
  set_world {| sent := sent w; ticks := Datatypes.S (ticks w); draws := Datatypes.S (draws w) |} s1.

Lemma buildAuthHeaders_run `{Env} {S : Type} `{HasWorld S} method path body projectId key (s : S) :
  buildAuthHeaders method path body projectId key s
  = (Ok (auth_headers projectId key method path body (clock (ticks (get_world s)))
           (hex_encode (entropy (draws (get_world s)) 16))),
     after_auth s).
Proof.
  unfold buildAuthHeaders, getCurrentTimestampMs, generateNonce, date_now, random_bytes, bindM, retM.
  simpl. rewrite get_set_world. reflexivity.
Qed.

(** ** Decryption undoes the node's sealing *)

Section DecryptionLemmas.
Context `{XChaCha}.

Lemma deriveResponseNonce_length k n ts : length (deriveResponseNonce k n ts) = 24%nat.
Proof. apply Nat2Z.inj. unfold deriveResponseNonce. by rewrite hkdf_length. Qed.

Lemma response_nonce_hex k n ts nonce :
  byte_list nonce → length nonce = 24%nat → response_nonce k n ts (Some (hex_encode nonce)) = nonce.
Proof.
  intros Hb Hl. pose proof (length_hex_encode nonce) as Hx. pose proof (hex_decode_encode nonce Hb) as Hd.
  unfold response_nonce. destruct (hex_encode nonce); simpl in *; [lia | done].
Qed.

Lemma decrypt_sealed key n ts canon hdr plaintext :
  length key = 32%nat → byte_list plaintext → length (response_nonce key n ts hdr) = 24%nat →
  decryptResponseToBuffer
    (b64_encode (aead_seal key (response_nonce key n ts hdr) plaintext (utf8_encode canon)))
    key n ts canon hdr = Ok plaintext.
Proof.
  intros Hk Hp Hn. unfold decryptResponseToBuffer. rewrite Hn. simpl.
  rewrite b64_decode_encode by by apply aead_seal_bytes.
  by rewrite aead_open_seal.
Qed.
End DecryptionLemmas.

(** ** Properties *)

(** Key derivation is total and exact: a secret whose hexadecimal reading has
    32 bytes gives two 32-byte keys that together are the 64 octets of RFC 5869's
    HKDF-SHA256 of the secret under the info string [onvm-rpc-auth]; any other
    secret is refused with an authentication error. *)
Theorem deriveKeys_correct (secret : jstr) :
  match deriveKeys secret with
  | Ok k => length (hex_decode secret) = 32%nat ∧
            length (signing_key k) = 32%nat ∧ length (response_key k) = 32%nat ∧
            signing_key k ++ response_key k
            = hkdf_rfc5869 (hex_decode secret) None (js "onvm-rpc-auth") 64
  | Throw e => length (hex_decode secret) ≠ 32%nat ∧ isAuthError e = true ∧ status_of e = Some 401
  end.
Proof.
  destruct (deriveKeys secret) as [k|e] eqn:Hd.
  - pose proof (deriveKeys_ok _ _ Hd) as (? & ? & _ & _ & ?).
    unfold deriveKeys in Hd. case_if; [done|]. repeat split; [|done..].
    by destruct (Nat.eqb_spec (length (hex_decode secret)) 32).
  - unfold deriveKeys in Hd. case_if; [|done]. injection Hd as <-.
    split; [|done]. by destruct (Nat.eqb_spec (length (hex_decode secret)) 32).
Qed.

(** The loop of [hkdf] computes RFC 5869's output for every request up to the
    standard's limit of 255 blocks, and exactly as many octets as asked. *)
Theorem hkdf_correct (ikm : bytes) (salt : option bytes) (info : bytes) (len : nat) :
  (len ≤ 255 * 32)%nat →
  hkdf ikm salt info (Z.of_nat len) = hkdf_rfc5869 ikm salt info len ∧
  length (hkdf ikm salt info (Z.of_nat len)) = len ∧
  byte_list (hkdf ikm salt info (Z.of_nat len)).
Proof.
  intros Hlen. repeat split; [by apply hkdf_is_rfc5869 | | apply hkdf_bytes].
  apply Nat2Z.inj, hkdf_length. lia.
Qed.

Lemma hkdf_correct_witness :
  length (hkdf (js "secret") None (js "info") 70) = 70%nat.
Proof. apply (hkdf_correct (js "secret") None (js "info") 70). lia. Defined.

(** The message that is signed determines the request: method, path, timestamp
    and nonce are equal, and the bodies are the same text, whenever two signed
    byte strings agree.  No field of a request can be moved into another one
    under the same signature. *)
Theorem signed_message_inj (method method' path path' nonce nonce' body body' : jstr) (ts ts' : Z) :
  ascii_str method → ascii_str method' → ascii_str path → ascii_str path' →
  ascii_str nonce → ascii_str nonce' → unit_str body → unit_str body' →
  32 ∉ method → 32 ∉ method' → 10 ∉ path → 10 ∉ path' → 10 ∉ nonce → 10 ∉ nonce' →
  utf8_encode (canonical method path ts nonce body)
  = utf8_encode (canonical method' path' ts' nonce' body') →
  method = method' ∧ path = path' ∧ ts = ts' ∧ nonce = nonce' ∧ well_formed body = well_formed body'.
Proof.
  intros. rewrite !canonical_utf8 in * by done.
  repeat match goal with
  | H : _ ++ ?c :: _ = _ ++ ?c :: _ |- _ =>
      apply app_sep_inj in H as [? ?]; [| done || apply sep_not_in_digits ..]
  end.
  repeat split; try done; [by apply Z_to_str_inj | by apply utf8_encode_inj].
Qed.

Lemma signed_message_inj_witness :
  canonical (js "GET") (js "/v1/jobs") 5 (js "ab") [] = canonical (js "GET") (js "/v1/jobs") 5 (js "ab") [] ∧
  js "GET" = js "GET".
Proof.
  split; [done|].
  apply (signed_message_inj (js "GET") (js "GET") (js "/v1/jobs") (js "/v1/jobs") (js "ab") (js "ab") [] [] 5 5);
    first [reflexivity | decide_closed].
Defined.

(** C1 The four headers of a signed request: the project id, the clock's reading
    in decimal (which parses back to it), a nonce of 32 lower-case hexadecimal
    characters that decodes to the 16 octets drawn, and the signature of
    exactly the method, path and body given.  One clock reading and one draw of
    entropy are used and nothing is sent. *)
Theorem buildAuthHeaders_correct `{Env} {S : Type} `{HasWorld S}
    (method path body projectId : jstr) (key : bytes) (s : S) :
  let w := get_world s in
  let ts := clock (ticks w) in
  let nonce := hex_encode (entropy (draws w) 16) in
  ∃ s', buildAuthHeaders method path body projectId key s
        = (Ok [(HDR_PROJECT_ID, projectId); (HDR_TIMESTAMP, Z_to_str ts); (HDR_NONCE, nonce);
               (HDR_SIGNATURE, hex_encode (hmac_sha256 key (utf8_encode (canonical method path ts nonce body))))],
           s') ∧
        parse_int (Z_to_str ts) = Some ts ∧
        length nonce = 32%nat ∧ Forall (λ c, is_hex_lower c = true) nonce ∧
        hex_decode nonce = entropy (draws w) 16 ∧
        get_world s' = {| sent := sent w; ticks := Datatypes.S (ticks w); draws := Datatypes.S (draws w) |}.
Proof.
  intros w ts nonce. eexists. split; [|repeat split].
  - apply buildAuthHeaders_run.
  - apply parse_int_Z_to_str.
  - unfold nonce. rewrite length_hex_encode, entropy_length. done.
  - apply hex_encode_lower, entropy_bytes.
  - apply hex_decode_encode, entropy_bytes.
  - unfold after_auth. by rewrite !get_set_world.
Qed.

(** Decryption inverts the node's sealing: a plaintext sealed under the
    response key with the request's canonical string as associated data, and
    sent in base64, is recovered exactly, whether the node announces its nonce
    in the header (24 octets in hexadecimal) or leaves it to be derived. *)
Theorem decryptResponse_roundtrip `{XChaCha} (key : bytes) (requestNonce canon : jstr) (ts : Z)
    (plaintext nonce : bytes) :
  length key = 32%nat → byte_list plaintext → byte_list nonce → length nonce = 24%nat →
  decryptResponseToBuffer (b64_encode (aead_seal key nonce plaintext (utf8_encode canon)))
    key requestNonce ts canon (Some (hex_encode nonce)) = Ok plaintext ∧
  decryptResponse
    (b64_encode (aead_seal key (deriveResponseNonce key requestNonce ts) plaintext (utf8_encode canon)))
    key requestNonce ts canon None = Ok (utf8_decode plaintext).
Proof.
  intros Hk Hp Hnb Hnl. split.
  - pose proof (decrypt_sealed key requestNonce ts canon (Some (hex_encode nonce)) plaintext Hk Hp) as Hd.
    rewrite response_nonce_hex in Hd by done. by apply Hd.
  - unfold decryptResponse. rewrite (decrypt_sealed key requestNonce ts canon None plaintext Hk Hp); [done|].
    apply deriveResponseNonce_length.
Qed.

Lemma decryptResponse_roundtrip_witness :
  @decryptResponseToBuffer Models.mac_aead
    (b64_encode (@aead_seal Models.mac_aead (replicate 32 1) (replicate 24 2) (js "hello") (utf8_encode (js "GET /x"))))
    (replicate 32 1) (js "00") 5 (js "GET /x") (Some (hex_encode (replicate 24 2))) = Ok (js "hello").
Proof.
  refine (proj1 (@decryptResponse_roundtrip Models.mac_aead (replicate 32 1) (js "00") (js "GET /x") 5 (js "hello")
           (replicate 24 2) _ _ _ _)); first [reflexivity | decide_closed].
Defined.

(** Every failure of decryption, whatever the AEAD package throws or returns, is
    an [OnvmAuthError] with status 401 whose message says which step failed, and
    a response is delivered only if the AEAD accepted it under the key, nonce and
    associated data of this very request. *)
Theorem decryptResponse_sound `{XChaCha} (ct : jstr) (key : bytes) (requestNonce canon : jstr) (ts : Z)
    (hdr : option jstr) :
  match decryptResponseToBuffer ct key requestNonce ts canon hdr with
  | Ok p => aead_open key (response_nonce key requestNonce ts hdr) (b64_decode ct) (utf8_encode canon) = Ok (Some p) ∧
            length (response_nonce key requestNonce ts hdr) = 24%nat
  | Throw e => ∃ m, e = OnvmAuthError m NoDetails ∧
                 (starts_with (js "Response decryption failed: ") m = true ∨
                  (m = js "Invalid response nonce length: expected 24 bytes" ∧
                   length (response_nonce key requestNonce ts hdr) ≠ 24%nat))
  end.
Proof.
  unfold decryptResponseToBuffer.
  destruct (Nat.eqb_spec (length (response_nonce key requestNonce ts hdr)) 24); cbn [negb]; [|eauto].
  destruct (aead_open _ _ _ _) as [[p|]|err]; cbn [outcome_bind]; [done|..];
    eexists; (split; [done|]); left; apply starts_with_app.
Qed.

End Auth.
