(* ===== verification/SdkClient.v ===== *)
(** * onvm-sdk/src/client.ts: the RPC client

    The client object is the state of a monad together with the platform's
    trace; each method is one definition, composed as the class composes them.
    [pending_timers] counts the [setTimeout] handles that were not cleared. *)

From S2P Require Import Prelude JsValue Codec Json Sha256 Platform SdkErrors SdkTypes Models SdkAuth.

Module Client.
Import Errors Types Auth.

Inductive node_mode : Type := dev | prod.

#[global] Instance node_mode_eq_dec : EqDecision node_mode.
Proof. solve_decision. Defined.

(** The private fields of [class OnvmClient]. *)
Record OnvmClient : Type := {
  rpcUrl : jstr;
  programId : option jstr;
  projectId : option jstr;
  projectSecret : option jstr;
  timeout : Z;
  derivedKeys : option DerivedKeys;
  detectedNodeMode : option node_mode;
}.

Record sdk : Type := {
  client : OnvmClient;
  wd : world;
  pending_timers : nat;
}.

Definition with_client (c : OnvmClient) (s : sdk) : sdk :=
  {| client := c; wd := wd s; pending_timers := pending_timers s |}.

#[global] Instance sdk_HasWorld : HasWorld sdk.
Proof.
  by refine {| get_world := wd;
               set_world := λ w s, {| client := client s; wd := w; pending_timers := pending_timers s |} |}.
Defined.

(** Truthiness of an optional string. *)
Definition str_truthy (s : option jstr) : bool :=
  match s with Some (_ :: _) => true | _ => false end.

Definition new_OnvmClient (config : OnvmClientConfig) : outcome exn OnvmClient :=
  let mk keys := {|
    rpcUrl := strip_trailing_slash (cfg_rpcUrl config);
    programId := cfg_programId config;
    projectId := cfg_projectId config;
    projectSecret := cfg_projectSecret config;
    timeout := default 30000 (cfg_timeout config);
    derivedKeys := keys;
    detectedNodeMode := None |} in
  if str_truthy (cfg_projectId config) && str_truthy (cfg_projectSecret config) then
    let! keys := deriveKeys (default [] (cfg_projectSecret config)) in
    Ok (mk (Some keys))
  else Ok (mk None).

Definition set_mode (m : node_mode) (s : sdk) : sdk :=
  let c := client s in
  with_client {| rpcUrl := rpcUrl c; programId := programId c; projectId := projectId c;
                 projectSecret := projectSecret c; timeout := timeout c;
                 derivedKeys := derivedKeys c; detectedNodeMode := Some m |} s.

Definition setProgramId (p : jstr) (s : sdk) : sdk :=
  let c := client s in
  with_client {| rpcUrl := rpcUrl c; programId := Some p; projectId := projectId c;
                 projectSecret := projectSecret c; timeout := timeout c;
                 derivedKeys := derivedKeys c; detectedNodeMode := detectedNodeMode c |} s.

Definition getProgramId (s : sdk) : option jstr := programId (client s).

Definition json_content : list (jstr * jstr) := [(js "Content-Type", js "application/json")].

(** [setTimeout] and [clearTimeout] of the request's abort timer. *)
Definition arm_timer (s : sdk) : sdk :=
  {| client := client s; wd := wd s; pending_timers := S (pending_timers s) |}.
Definition clear_timer (s : sdk) : sdk :=
  {| client := client s; wd := wd s; pending_timers := pred (pending_timers s) |}.

Section Methods.
Context `{Engine} `{Env} `{XChaCha}.

Definition this : M exn sdk OnvmClient := λ s, (Ok (client s), s).

(** ** Detection of the node's mode *)

(** The body of the [try] block. *)
Definition probe_mode : M exn sdk node_mode :=
  let* c := this in
  let healthUrl := rpcUrl c ++ js "/health/liveness" in
  let* response := fetch {| rq_method := js "GET"; rq_url := healthUrl; rq_headers := json_content;
                            rq_body := None; rq_timeout := None |} in
  if negb (rs_ok response) then
    let* errorText := liftM (rs_text response) in
    throwM (OnvmError (js "Failed to detect node mode: HTTP " ++ Z_to_str (rs_status response)
                        ++ js " from " ++ healthUrl)
              (Some (rs_status response))
              (DetVal (VStr (str_or errorText (rs_statusText response)))))
  else
    let* data := catchM (liftM (rs_json response)) (λ parseError,
      throwM (OnvmError (js "Failed to parse node liveness response from " ++ healthUrl)
                (Some (rs_status response))
                (if instanceof_Error parseError then DetVal (VStr (error_message parseError))
                 else DetExn parseError))) in
    let* m := liftM (get data (js "mode")) in
    let mode := if is_str (js "dev") m then dev else prod in
    do* modifyM (set_mode mode) in
    if bool_decide (mode = prod) && negb (str_truthy (projectId c) && str_truthy (projectSecret c)) then
      throwM (OnvmError (js "Node is running in prod mode but projectId or projectSecret is missing. Please provide valid credentials.")
                (Some 401) NoDetails)
    else retM mode.

Definition detectNodeMode : M exn sdk node_mode :=
  let* c := this in
  match detectedNodeMode c with
  | Some m => retM m
  | None =>
      catchM probe_mode (λ error,
        if instanceof_OnvmError error then throwM error
        else
          let message := message_of error in
          throwM (OnvmNetworkError (js "Unable to reach RPC endpoint at " ++ rpcUrl c ++ js ": " ++ message)
                    (DetVal (VStr message))))
  end.

(** ** Authentication of a request *)

(** What a request remembers of its authentication headers: the timestamp read
    back with [parseInt] ([None] is [NaN] or [undefined]) and the nonce. *)
Record auth_info : Type := {
  authTimestamp : option Z;
  authNonce : option jstr;
}.

Definition no_auth : auth_info := {| authTimestamp := None; authNonce := None |}.

Definition authenticate (nodeMode : node_mode) (method path bodyStr : jstr) (headers : list (jstr * jstr))
    : M exn sdk (list (jstr * jstr) * auth_info) :=
  let* c := this in
  match nodeMode, derivedKeys c, projectId c with
  | prod, Some keys, Some (p :: pid) =>
      let* authHeaders := buildAuthHeaders method path bodyStr (p :: pid) (signing_key keys) in
      retM (obj_assign headers authHeaders,
            {| authTimestamp := parse_int (default [] (obj_get (js "x-timestamp") authHeaders));
               authNonce := obj_get (js "x-nonce") authHeaders |})
  | _, _, _ => retM (headers, no_auth)
  end.

(** [nodeMode === 'prod' && this.derivedKeys && authTimestamp && authNonce]. *)
Definition auth_context (nodeMode : node_mode) (c : OnvmClient) (a : auth_info)
    : option (DerivedKeys * Z * jstr) :=
  match nodeMode, derivedKeys c, authTimestamp a, authNonce a with
  | prod, Some keys, Some ts, Some (n :: nonce) =>
      if ts =? 0 then None else Some (keys, ts, n :: nonce)
  | _, _, _, _ => None
  end.

(** ** [request] *)

Definition http_error (nodeMode : node_mode) (status : Z) (errorText : jstr) : exn :=
  let details := DetVal (VStr errorText) in
  if status =? 401 then
    match nodeMode with
    | prod => OnvmError (js "Authentication failed. Please check your projectId and projectSecret credentials.")
                (Some 401) details
    | dev => OnvmError (js "Unauthorized access.") (Some 401) details
    end
  else if status =? 403 then
    OnvmError (js "Access forbidden. Your credentials may not have permission for this operation.")
      (Some 403) details
  else if status =? 429 then
    OnvmError (js "Rate limit exceeded. Please slow down your requests.") (Some 429) details
  else OnvmError (js "HTTP " ++ Z_to_str status ++ js ": " ++ errorText) (Some status) details.

(** [/^[A-Za-z0-9+/=\s]+$/]. *)
Definition base64_like (s : jstr) : bool :=
  match s with
  | [] => false
  | _ => forallb (λ c, ((65 <=? c) && (c <=? 90)) || ((97 <=? c) && (c <=? 122)) || is_digit c
                       || existsb (Z.eqb c) (js "+/=") || is_space c) s
  end.

(** [responseText ? JSON.parse(responseText) : {}]. *)
Definition parse_or_empty (text : jstr) : outcome exn value :=
  match text with
  | [] => Ok (VObj [])
  | _ => json_parse text
  end.

(** The body of a successful response, decrypted where it is encrypted. *)
Definition decode_response (nodeMode : node_mode) (c : OnvmClient) (a : auth_info)
    (method path bodyStr : jstr) (response : http_response) (responseText : jstr) : outcome exn value :=
  match auth_context nodeMode c a with
  | Some (keys, ts, nonce) =>
      let responseNonce := header (js "x-response-nonce") response in
      let responseAead := header (js "x-response-aead") response in
      let canon := canonical method path ts nonce bodyStr in
      if bool_decide (responseAead = Some (js "XChaCha20Poly1305")) && str_truthy responseNonce then
        let! decrypted := decryptResponse responseText (response_key keys) nonce ts canon responseNonce in
        json_parse decrypted
      else if base64_like responseText then
        match (let! decrypted := decryptResponse responseText (response_key keys) nonce ts canon
                                   (if str_truthy responseNonce then responseNonce else None) in
               json_parse decrypted) with
        | Ok v => Ok v
        | Throw decryptError =>
            Throw (OnvmError (js "Failed to decrypt response. Your credentials may be incorrect or the response format is invalid.")
                     (Some 500) (DetExn decryptError))
        end
      else parse_or_empty responseText
  | None => parse_or_empty responseText
  end.

(** The [catch] clause of [request]. *)
Definition request_error (endpoint : jstr) (error : exn) : exn :=
  if instanceof_Error error && str_eqb (error_name error) (js "AbortError") then
    OnvmNetworkError (js "Request timeout while calling " ++ endpoint) NoDetails
  else if instanceof_OnvmError error then error
  else OnvmNetworkError (js "Network error calling " ++ endpoint ++ js ": " ++ message_of error)
         (DetExn error).

Definition request (method path : jstr) (body : value) (customHeaders : list (jstr * jstr)) : M exn sdk value :=
  let* c := this in
  let endpoint := rpcUrl c ++ path in
  let* nodeMode := detectNodeMode in
  let bodyStr := if truthy body then json_text body else [] in
  let* ' (headers, a) := authenticate nodeMode method path bodyStr (obj_assign json_content customHeaders) in
  let* c := this in
  catchM
    (do* modifyM arm_timer in
     let* response := fetch {| rq_method := method; rq_url := endpoint; rq_headers := headers;
                               rq_body := match bodyStr with [] => None | _ => Some (BodyText bodyStr) end;
                               rq_timeout := Some (timeout c) |} in
     do* modifyM clear_timer in
     if negb (rs_ok response) then
       let* errorText := liftM (rs_text response) in
       throwM (http_error nodeMode (rs_status response) errorText)
     else
       let* responseText := liftM (rs_text response) in
       liftM (decode_response nodeMode c a method path bodyStr response responseText))
    (λ error, throwM (request_error endpoint error)).

(** ** Blobs *)

Definition network_error (what endpoint : jstr) (error : exn) : exn :=
  OnvmNetworkError (js "Network error " ++ what ++ endpoint ++ js ": " ++ message_of error) (DetExn error).

Definition uploadBlob (data : bytes) (mimeType : option jstr) : M exn sdk value :=
  let* nodeMode := detectNodeMode in
  let* c := this in
  let url := rpcUrl c ++ js "/blobs" in
  let headers := match mimeType with
                 | Some (m :: mt) => [(js "x-mime", m :: mt)]
                 | _ => []
                 end in
  let bodyStr := utf8_decode data in
  let* ' (headers, a) := authenticate nodeMode (js "POST") (js "/blobs") bodyStr headers in
  let* response := catchM
    (fetch {| rq_method := js "POST"; rq_url := url; rq_headers := headers;
              rq_body := Some (BodyBytes data); rq_timeout := None |})
    (λ error, throwM (network_error (js "uploading blob to ") url error)) in
  let* responseText := liftM (rs_text response) in
  if negb (rs_ok response) then
    throwM (OnvmError (js "Upload failed: " ++ rs_statusText response) (Some (rs_status response))
              (DetVal (VStr responseText)))
  else
    match auth_context nodeMode c a with
    | Some (keys, ts, nonce) =>
        let responseNonce := header (js "x-response-nonce") response in
        if bool_decide (header (js "x-response-aead") response = Some (js "XChaCha20Poly1305")) then
          let canon := canonical (js "POST") (js "/blobs") ts nonce bodyStr in
          let* decrypted := liftM (decryptResponse responseText (response_key keys) nonce ts canon
                                     (if str_truthy responseNonce then responseNonce else None)) in
          liftM (json_parse decrypted)
        else liftM (parse_or_empty responseText)
    | None => liftM (parse_or_empty responseText)
    end.

Definition downloadBlob (blobId : jstr) : M exn sdk bytes :=
  let* nodeMode := detectNodeMode in
  let* c := this in
  let path := js "/blobs/" ++ blobId in
  let url := rpcUrl c ++ path in
  let* ' (headers, a) := authenticate nodeMode (js "GET") path [] [] in
  let* response := catchM
    (fetch {| rq_method := js "GET"; rq_url := url; rq_headers := headers;
              rq_body := None; rq_timeout := None |})
    (λ error, throwM (network_error (js "downloading blob from ") url error)) in
  if negb (rs_ok response) then
    throwM (OnvmError (js "Download failed: " ++ rs_statusText response) (Some (rs_status response)) NoDetails)
  else
    match auth_context nodeMode c a with
    | Some (keys, ts, nonce) =>
        if bool_decide (header (js "x-response-aead") response = Some (js "XChaCha20Poly1305")) then
          let responseNonce := header (js "x-response-nonce") response in
          let canon := canonical (js "GET") path ts nonce [] in
          let* ciphertextBase64 := liftM (rs_text response) in
          liftM (decryptResponseToBuffer ciphertextBase64 (response_key keys) nonce ts canon
                   (if str_truthy responseNonce then responseNonce else None))
        else liftM (rs_arrayBuffer response)
    | None => liftM (rs_arrayBuffer response)
    end.

(** ** Endpoints *)

Definition GET (path : jstr) : M exn sdk value := request (js "GET") path VUndef [].
Definition POST (path : jstr) (body : value) : M exn sdk value := request (js "POST") path body [].

Definition health : M exn sdk value := GET (js "/health").
Definition liveness : M exn sdk value := GET (js "/health/liveness").
Definition readiness : M exn sdk value := GET (js "/health/readiness").
Definition metrics : M exn sdk value := GET (js "/health/metrics").
Definition createProject (req : value) : M exn sdk value := POST (js "/rpc-auth/projects") req.
Definition deployProgram (req : value) : M exn sdk value := POST (js "/programs") req.
Definition getProgramInfo (programId : jstr) : M exn sdk value := GET (js "/programs/" ++ programId).
Definition executeProgram (req : value) : M exn sdk value := POST (js "/execute") req.
Definition estimateFuel (req : value) : M exn sdk value := POST (js "/estimate-fuel") req.
Definition getFuelProfile (programId : jstr) : M exn sdk value := GET (js "/fuel-profile/" ++ programId).

Definition getProgramReceipts (programId : jstr) : M exn sdk value :=
  let* receipts := GET (js "/programs/" ++ programId ++ js "/receipts") in
  retM (VObj [(js "receipts", receipts)]).

Definition getProgramCommittee (programId : jstr) : M exn sdk value :=
  GET (js "/programs/" ++ programId ++ js "/committee").

Definition state_root_path (programId : jstr) (key : option jstr) : outcome exn jstr :=
  match key with
  | Some (c :: k) =>
      let! enc := encodeURIComponent (c :: k) in
      Ok (js "/programs/" ++ programId ++ js "/state-root?key=" ++ enc)
  | _ => Ok (js "/programs/" ++ programId ++ js "/state-root")
  end.

Definition getProgramStateRoot (programId : jstr) (key : option jstr) : M exn sdk value :=
  let* path := liftM (state_root_path programId key) in
  GET path.

Definition listProgramCatalog : M exn sdk value :=
  let* catalog := GET (js "/program-catalog") in
  retM (VObj [(js "catalog", catalog)]).

Definition submitJob (req : value) : M exn sdk value := POST (js "/jobs") req.
Definition getJobStatus (jobId : jstr) : M exn sdk value := GET (js "/jobs/" ++ jobId).
Definition getJobLogs (jobId : jstr) : M exn sdk value := GET (js "/jobs/" ++ jobId ++ js "/logs").
Definition getJobOutput (jobId : jstr) : M exn sdk value := GET (js "/jobs/" ++ jobId ++ js "/output").

Definition cancelJob (jobId : jstr) : M exn sdk value :=
  do* POST (js "/jobs/" ++ jobId ++ js "/cancel") VUndef in
  retM VUndef.

Definition listJobs : M exn sdk value := GET (js "/jobs").
End Methods.

(** ** Frame: what the methods never change *)

(** Every field but the cached mode. *)
Definition same_config (c c' : OnvmClient) : Prop :=
  rpcUrl c' = rpcUrl c ∧ programId c' = programId c ∧ projectId c' = projectId c ∧
  projectSecret c' = projectSecret c ∧ timeout c' = timeout c ∧ derivedKeys c' = derivedKeys c.

Section Lemmas.
Context `{Engine} `{Env} `{XChaCha}.

(** ** Detection *)

Lemma detect_cached s m :
  detectedNodeMode (client s) = Some m → detectNodeMode s = (Ok m, s).
Proof. intros Hm. unfold detectNodeMode, bindM, this. by rewrite Hm. Qed.

Definition liveness_probe (c : OnvmClient) : http_request :=
  {| rq_method := js "GET"; rq_url := rpcUrl c ++ js "/health/liveness"; rq_headers := json_content;
     rq_body := None; rq_timeout := None |}.

Definition after_fetch (rq : http_request) (s : sdk) : sdk :=
  {| client := client s;
     wd := {| sent := sent (wd s) ++ [rq]; ticks := ticks (wd s); draws := draws (wd s) |};
     pending_timers := pending_timers s |}.

Lemma fetch_run rq (s : sdk) : fetch rq s = (server (sent (wd s)) rq, after_fetch rq s).
Proof. reflexivity. Qed.

(** What the first call does, for each outcome of the probe. *)
Lemma detect_fresh s :
  detectedNodeMode (client s) = None →
  ∃ r, detectNodeMode s = r ∧
  match r with
  | (Ok m, s') => s' = set_mode m (after_fetch (liveness_probe (client s)) s) ∧
                  (m = prod → str_truthy (projectId (client s)) && str_truthy (projectSecret (client s)) = true)
  | (Throw e, s') => instanceof_OnvmError e = true ∧
                     (s' = after_fetch (liveness_probe (client s)) s ∨
                      s' = set_mode prod (after_fetch (liveness_probe (client s)) s) ∧ status_of e = Some 401)
  end.
Proof.
  intros Hm. eexists. split; [done|].
  unfold detectNodeMode, probe_mode, catchM, bindM, this, modifyM, throwM, retM, liftM. rewrite Hm.
  rewrite fetch_run.
  destruct (server _ _) as [resp|e]; [|by case_if; simpl; auto].
  destruct (negb (rs_ok resp)).
  - destruct (rs_text resp); [simpl; auto | case_if; simpl; auto].
  - destruct (rs_json resp) as [v|e]; [|simpl; auto].
    destruct (get v (js "mode")) as [mv|e]; [|case_if; simpl; auto].
    destruct (is_str (js "dev") mv); simpl; [done|].
    destruct (str_truthy _ && str_truthy _); simpl; auto.
Qed.

Lemma detect_frame s r s' :
  detectNodeMode s = (r, s') →
  same_config (client s) (client s') ∧ pending_timers s' = pending_timers s ∧
  ticks (wd s') = ticks (wd s) ∧ draws (wd s') = draws (wd s) ∧
  (∀ m, r = Ok m → detectedNodeMode (client s') = Some m) ∧
  (∀ e, r = Throw e → instanceof_OnvmError e = true).
Proof.
  intros Hd. destruct (detectedNodeMode (client s)) as [m|] eqn:Hm.
  - rewrite (detect_cached _ _ Hm) in Hd. injection Hd as <- <-. unfold same_config. naive_solver.
  - destruct (detect_fresh s Hm) as (r' & Hr & Hcase). rewrite Hr in Hd. subst r'.
    destruct r as [m|e].
    + destruct Hcase as [-> _]. unfold same_config. simpl. naive_solver.
    + destruct Hcase as [He [-> |[-> _]]]; unfold same_config; simpl; naive_solver.
Qed.

(** ** Signing *)

Lemma authenticate_signed method path body headers s keys p pid :
  derivedKeys (client s) = Some keys → projectId (client s) = Some (p :: pid) →
  let ts := clock (ticks (wd s)) in
  let nonce := hex_encode (entropy (draws (wd s)) 16) in
  authenticate prod method path body headers s
  = (Ok (obj_assign headers (auth_headers (p :: pid) (signing_key keys) method path body ts nonce),
         {| authTimestamp := Some ts; authNonce := Some nonce |}), after_auth s).
Proof.
  intros Hk Hp ts nonce. unfold authenticate, bindM, this. rewrite Hk, Hp.
  rewrite buildAuthHeaders_run. unfold retM. simpl.
  by rewrite parse_int_Z_to_str.
Qed.

Lemma authenticate_plain m method path body headers s :
  m = dev ∨ derivedKeys (client s) = None →
  authenticate m method path body headers s = (Ok (headers, no_auth), s).
Proof.
  unfold authenticate, bindM, this, retM. intros [-> | ->]; [done|].
  by destruct m.
Qed.

(** ** [request] once the mode is known *)

Definition body_text (body : value) : jstr := if truthy body then json_text body else [].

Definition rpc_message (c : OnvmClient) (method path bodyStr : jstr) (headers : list (jstr * jstr))
    : http_request :=
  {| rq_method := method; rq_url := rpcUrl c ++ path; rq_headers := headers;
     rq_body := match bodyStr with [] => None | _ => Some (BodyText bodyStr) end;
     rq_timeout := Some (timeout c) |}.

(** What [request] makes of a response. *)
Definition handle_response (m : node_mode) (c : OnvmClient) (a : auth_info) (method path bodyStr : jstr)
    (resp : http_response) : outcome exn value :=
  let! t := rs_text resp in
  if rs_ok resp then decode_response m c a method path bodyStr resp t
  else Throw (http_error m (rs_status resp) t).

Definition catch_request (endpoint : jstr) (o : outcome exn value) : outcome exn value :=
  match o with
  | Ok v => Ok v
  | Throw e => Throw (request_error endpoint e)
  end.

Lemma request_run method path body hdrs s m s1 headers a s2 :
  detectNodeMode s = (Ok m, s1) →
  authenticate m method path (body_text body) (obj_assign json_content hdrs) s1 = (Ok (headers, a), s2) →
  rpcUrl (client s2) = rpcUrl (client s) →
  let rq := rpc_message (client s2) method path (body_text body) headers in
  let s3 := after_fetch rq (arm_timer s2) in
  request method path body hdrs s
  = match server (sent (wd s2)) rq with
    | Throw e => (Throw (request_error (rpcUrl (client s) ++ path) e), s3)
    | Ok resp => (catch_request (rpcUrl (client s) ++ path)
                    (handle_response m (client s2) a method path (body_text body) resp), clear_timer s3)
    end.
Proof.
  intros Hd Ha Hu rq s3. unfold request. rewrite (bindM_ok _ _ _ _ _ (eq_refl : this s = (Ok (client s), s))).
  rewrite (bindM_ok _ _ _ _ _ Hd). fold (body_text body). rewrite (bindM_ok _ _ _ _ _ Ha).
  unfold bindM, this, catchM, modifyM, throwM, liftM. rewrite fetch_run. simpl.
  replace {| rq_method := method; rq_url := rpcUrl (client s) ++ path; rq_headers := headers;
             rq_body := match body_text body with [] => None | _ => Some (BodyText (body_text body)) end;
             rq_timeout := Some (timeout (client s2)) |} with rq by (by unfold rq, rpc_message; rewrite Hu).
  destruct (server (sent (wd s2)) rq) as [resp|e]; [|done].
  unfold catch_request, handle_response. destruct (rs_ok resp); simpl; destruct (rs_text resp); simpl; try done.
  by destruct (decode_response _ _ _ _ _ _ _ _).
Qed.

Lemma authenticate_total m method path body headers s :
  ∃ headers' a s', authenticate m method path body headers s = (Ok (headers', a), s') ∧
                   client s' = client s ∧ sent (wd s') = sent (wd s) ∧ pending_timers s' = pending_timers s.
Proof.
  destruct m; [rewrite authenticate_plain by auto; eauto 8|].
  destruct (derivedKeys (client s)) as [keys|] eqn:Hk; [|rewrite authenticate_plain by auto; eauto 8].
  destruct (projectId (client s)) as [[|p pid]|] eqn:Hp.
  - unfold authenticate, bindM, this. rewrite Hk, Hp. unfold retM. eauto 8.
  - rewrite (authenticate_signed _ _ _ _ _ _ _ _ Hk Hp). eauto 8.
  - unfold authenticate, bindM, this. rewrite Hk, Hp. unfold retM. eauto 8.
Qed.

Lemma request_error_onvm endpoint e : instanceof_OnvmError (request_error endpoint e) = true.
Proof. unfold request_error. case_if; [done|]. by destruct (instanceof_OnvmError e) eqn:?. Qed.

(** Errors the body of [request] raises deliberately pass its [catch] unchanged. *)
Lemma request_error_id endpoint c m st d :
  request_error endpoint (OnvmErr c m st d) = OnvmErr c m st d.
Proof. unfold request_error. by destruct c. Qed.

(** The request a client with credentials puts on the wire in prod mode. *)
Lemma request_signed method path body hdrs s keys p pid :
  detectedNodeMode (client s) = Some prod →
  derivedKeys (client s) = Some keys → projectId (client s) = Some (p :: pid) →
  let ts := clock (ticks (wd s)) in
  let nonce := hex_encode (entropy (draws (wd s)) 16) in
  let a := {| authTimestamp := Some ts; authNonce := Some nonce |} in
  let rq := rpc_message (client s) method path (body_text body)
              (obj_assign (obj_assign json_content hdrs)
                 (auth_headers (p :: pid) (signing_key keys) method path (body_text body) ts nonce)) in
  let s3 := after_fetch rq (arm_timer (after_auth s)) in
  request method path body hdrs s
  = match server (sent (wd s)) rq with
    | Throw e => (Throw (request_error (rpcUrl (client s) ++ path) e), s3)
    | Ok resp => (catch_request (rpcUrl (client s) ++ path)
                    (handle_response prod (client s) a method path (body_text body) resp), clear_timer s3)
    end.
Proof.
  intros Hm Hk Hp ts nonce a rq s3.
  by rewrite (request_run _ _ _ _ _ _ _ _ _ _ (detect_cached _ _ Hm) (authenticate_signed _ _ _ _ _ _ _ _ Hk Hp)).
Qed.

(** And the one it sends without credentials or in dev mode. *)
Lemma request_unsigned method path body hdrs s m :
  detectedNodeMode (client s) = Some m → m = dev ∨ derivedKeys (client s) = None →
  let rq := rpc_message (client s) method path (body_text body) (obj_assign json_content hdrs) in
  let s3 := after_fetch rq (arm_timer s) in
  request method path body hdrs s
  = match server (sent (wd s)) rq with
    | Throw e => (Throw (request_error (rpcUrl (client s) ++ path) e), s3)
    | Ok resp => (catch_request (rpcUrl (client s) ++ path)
                    (handle_response m (client s) no_auth method path (body_text body) resp), clear_timer s3)
    end.
Proof.
  intros Hm Hu rq s3.
  by rewrite (request_run _ _ _ _ _ _ _ _ _ _ (detect_cached _ _ Hm) (authenticate_plain _ _ _ _ _ _ Hu)).
Qed.

(** The four authentication headers win over the caller's own. *)
Lemma auth_headers_get pid key method path body ts nonce headers :
  let all := obj_assign headers (auth_headers pid key method path body ts nonce) in
  obj_get HDR_PROJECT_ID all = Some pid ∧ obj_get HDR_TIMESTAMP all = Some (Z_to_str ts) ∧
  obj_get HDR_NONCE all = Some nonce ∧
  obj_get HDR_SIGNATURE all
  = Some (hex_encode (hmac_sha256 key (utf8_encode (canonical method path ts nonce body)))).
Proof.
  intros all. unfold all, auth_headers, obj_assign. simpl.
  repeat split; repeat (rewrite obj_get_set_ne by done); by rewrite obj_get_set.
Qed.

Lemma decode_unauthenticated m c method path body resp v :
  json_data v → decode_response m c no_auth method path body resp (json_text v) = Ok v.
Proof.
  intros Hv. unfold decode_response, auth_context. simpl.
  assert (parse_or_empty (json_text v) = Ok v) as Hp.
  { destruct (json_text_head v Hv) as (c0 & t & Ht & _). unfold parse_or_empty. rewrite Ht, <- Ht.
    by apply json_parse_text. }
  by destruct m, (derivedKeys c).
Qed.

(** A JSON answer in dev mode comes back as the value it encodes. *)
Lemma request_dev_ok method path body s resp v :
  detectedNodeMode (client s) = Some dev →
  (∀ rq, server (sent (wd s)) rq = Ok resp) → rs_ok resp = true → rs_text resp = Ok (json_text v) →
  json_data v →
  request method path body [] s
  = (Ok v, clear_timer (after_fetch (rpc_message (client s) method path (body_text body) json_content) (arm_timer s))).
Proof.
  intros Hm Hsrv Hok Ht Hv. rewrite (request_unsigned _ _ _ _ _ _ Hm) by auto.
  rewrite Hsrv. unfold handle_response. rewrite Ht, Hok. cbn [outcome_bind].
  by rewrite decode_unauthenticated.
Qed.

(** ** Blobs with credentials in prod mode *)

Definition blob_message (method url : jstr) (headers : list (jstr * jstr)) (b : option body) : http_request :=
  {| rq_method := method; rq_url := url; rq_headers := headers; rq_body := b; rq_timeout := None |}.

(** What [downloadBlob] makes of a response to a signed request. *)
Definition open_blob (k : DerivedKeys) (ts : Z) (nonce path : jstr) (resp : http_response) : outcome exn bytes :=
  if bool_decide (header (js "x-response-aead") resp = Some (js "XChaCha20Poly1305")) then
    let responseNonce := header (js "x-response-nonce") resp in
    let! text := rs_text resp in
    decryptResponseToBuffer text (response_key k) nonce ts (canonical (js "GET") path ts nonce [])
      (if str_truthy responseNonce then responseNonce else None)
  else rs_arrayBuffer resp.

Lemma nonce_nonempty n : hex_encode (entropy n 16) ≠ [].
Proof.
  pose proof (length_hex_encode (entropy n 16)) as Hl. rewrite entropy_length in Hl.
  by destruct (hex_encode (entropy n 16)).
Qed.

Lemma auth_context_signed c k ts nonce :
  derivedKeys c = Some k → ts ≠ 0 → nonce ≠ [] →
  auth_context prod c {| authTimestamp := Some ts; authNonce := Some nonce |} = Some (k, ts, nonce).
Proof.
  intros Hk Hts Hn. unfold auth_context. cbn [authTimestamp authNonce]. rewrite Hk.
  destruct nonce; [done|]. by rewrite (proj2 (Z.eqb_neq ts 0)).
Qed.

Lemma downloadBlob_signed blobId s k p pid resp :
  let ts := clock (ticks (wd s)) in
  let nonce := hex_encode (entropy (draws (wd s)) 16) in
  let path := js "/blobs/" ++ blobId in
  let rq := blob_message (js "GET") (rpcUrl (client s) ++ path)
              (obj_assign [] (auth_headers (p :: pid) (signing_key k) (js "GET") path [] ts nonce)) None in
  detectedNodeMode (client s) = Some prod → derivedKeys (client s) = Some k →
  projectId (client s) = Some (p :: pid) → ts ≠ 0 →
  server (sent (wd s)) rq = Ok resp → rs_ok resp = true →
  downloadBlob blobId s = (open_blob k ts nonce path resp, after_fetch rq (after_auth s)).
Proof.
  intros ts nonce path rq Hm Hk Hp Hts Hsrv Hok. unfold downloadBlob.
  rewrite (bindM_ok _ _ _ _ _ (detect_cached _ _ Hm)).
  rewrite (bindM_ok _ _ _ _ _ (eq_refl : this s = (Ok (client s), s))).
  rewrite (bindM_ok _ _ _ _ _ (authenticate_signed _ _ _ _ _ _ _ _ Hk Hp)).
  fold ts nonce path. unfold bindM, catchM. rewrite fetch_run.
  change {| rq_method := js "GET"; rq_url := _; rq_headers := _; rq_body := _; rq_timeout := _ |} with rq.
  change (sent (wd (after_auth s))) with (sent (wd s)). rewrite Hsrv, Hok. cbn [negb].
  rewrite (auth_context_signed _ _ ts nonce Hk Hts (nonce_nonempty _ : nonce ≠ [])).
  unfold open_blob, liftM. case_if; [|done]. by destruct (rs_text resp).
Qed.

(** What [uploadBlob] makes of a response to a signed request. *)
Definition open_upload (k : DerivedKeys) (ts : Z) (nonce bodyStr : jstr) (resp : http_response) : outcome exn value :=
  let! text := rs_text resp in
  if bool_decide (header (js "x-response-aead") resp = Some (js "XChaCha20Poly1305")) then
    let responseNonce := header (js "x-response-nonce") resp in
    let! decrypted := decryptResponse text (response_key k) nonce ts (canonical (js "POST") (js "/blobs") ts nonce bodyStr)
                        (if str_truthy responseNonce then responseNonce else None) in
    json_parse decrypted
  else parse_or_empty text.

Lemma uploadBlob_signed data s k p pid resp :
  let ts := clock (ticks (wd s)) in
  let nonce := hex_encode (entropy (draws (wd s)) 16) in
  let rq := blob_message (js "POST") (rpcUrl (client s) ++ js "/blobs")
              (obj_assign [] (auth_headers (p :: pid) (signing_key k) (js "POST") (js "/blobs") (utf8_decode data) ts nonce))
              (Some (BodyBytes data)) in
  detectedNodeMode (client s) = Some prod → derivedKeys (client s) = Some k →
  projectId (client s) = Some (p :: pid) → ts ≠ 0 →
  server (sent (wd s)) rq = Ok resp → rs_ok resp = true →
  uploadBlob data None s = (open_upload k ts nonce (utf8_decode data) resp, after_fetch rq (after_auth s)).
Proof.
  intros ts nonce rq Hm Hk Hp Hts Hsrv Hok. unfold uploadBlob.
  rewrite (bindM_ok _ _ _ _ _ (detect_cached _ _ Hm)).
  rewrite (bindM_ok _ _ _ _ _ (eq_refl : this s = (Ok (client s), s))).
  rewrite (bindM_ok _ _ _ _ _ (authenticate_signed _ _ _ _ _ _ _ _ Hk Hp)).
  fold ts nonce. unfold bindM, catchM. rewrite fetch_run.
  change {| rq_method := js "POST"; rq_url := _; rq_headers := _; rq_body := _; rq_timeout := _ |} with rq.
  change (sent (wd (after_auth s))) with (sent (wd s)). rewrite Hsrv. unfold open_upload, liftM.
  destruct (rs_text resp) as [text|e]; [|done]. rewrite Hok. cbn [negb outcome_bind].
  rewrite (auth_context_signed _ _ ts nonce Hk Hts (nonce_nonempty _ : nonce ≠ [])).
  case_if; [|done]. by destruct (decryptResponse _ _ _ _ _ _).
Qed.
End Lemmas.

End Client.
