(* ===== verification/SdkProps.v ===== *)
(** * Properties of the RPC client (onvm-sdk/src/client.ts) *)

From S2P Require Import Prelude JsValue Codec Json Sha256 Platform SdkErrors SdkTypes Models SdkAuth SdkClient.

Module ClientProps.
Import Errors Types Auth Client.

(** ** Concrete clients for the witnesses *)

Definition a_keys : DerivedKeys := {| signing_key := replicate 32 1; response_key := replicate 32 2 |}.

Definition a_client (m : option node_mode) (keys : option DerivedKeys) : OnvmClient :=
  {| rpcUrl := js "http://n"; programId := None;
     projectId := match keys with Some _ => Some (js "p1") | None => None end;
     projectSecret := match keys with Some _ => Some (hex_encode (replicate 32 9)) | None => None end;
     timeout := 30000; derivedKeys := keys; detectedNodeMode := m |}.

Definition a_state (m : option node_mode) (keys : option DerivedKeys) : sdk :=
  {| client := a_client m keys; wd := fresh_world; pending_timers := 0 |}.

Definition a_response (status : Z) (text : jstr) : http_response :=
  {| rs_status := status; rs_statusText := []; rs_headers := []; rs_body := Ok (utf8_encode text) |}.

(** ** Errors *)

(** Whatever the server, the network, the clock and the AEAD do, a request
    either returns a value, with the node's mode known from then on, or throws an
    instance of [OnvmError]; nothing but the cached mode changes in the client. *)
Theorem request_throws_onvm `{Engine} `{Env} `{XChaCha} (method path : jstr) (body : value)
    (hdrs : list (jstr * jstr)) (s : sdk) :
  let '(o, s') := request method path body hdrs s in
  same_config (client s) (client s') ∧
  match o with
  | Ok _ => ∃ m, detectedNodeMode (client s') = Some m
  | Throw e => instanceof_OnvmError e = true
  end.
Proof.
  destruct (detectNodeMode s) as [[m|e] s1] eqn:Hd; pose proof (detect_frame _ _ _ Hd) as (Hc & _ & _ & _ & Hm & He).
  - destruct (authenticate_total m method path (body_text body) (obj_assign json_content hdrs) s1)
      as (hs & a & s2 & Ha & Hcl & _ & _).
    assert (rpcUrl (client s2) = rpcUrl (client s)) as Hu by (rewrite Hcl; apply Hc).
    pose proof (request_run method path body hdrs s m s1 hs a s2 Hd Ha Hu) as Hrun. cbv zeta in Hrun.
    rewrite Hrun. clear Hrun. destruct (server _ _) as [resp|e].
    + simpl. rewrite Hcl. split; [done|].
      destruct (handle_response _ _ _ _ _ _ _) as [v|e]; simpl; [eauto | apply request_error_onvm].
    + simpl. rewrite Hcl. split; [done | apply request_error_onvm].
  - unfold request. rewrite (bindM_ok _ _ _ _ _ (eq_refl : this s = (Ok (client s), s))).
    rewrite (bindM_err _ _ _ _ _ Hd). eauto.
Qed.

(** A response outside 200-299 is always an error that carries the response's
    status and text: the getters of the error are those of the status, the abort
    timer is cleared and no value is returned. *)
Theorem request_http_error `{Engine} `{Env} `{XChaCha} (method path : jstr) (body : value)
    (hdrs : list (jstr * jstr)) (s : sdk) (m : node_mode) (resp : http_response) (text : jstr) :
  detectedNodeMode (client s) = Some m →
  (∀ rq, server (sent (wd s)) rq = Ok resp) → rs_text resp = Ok text → rs_ok resp = false →
  ∃ message s', request method path body hdrs s
                = (Throw (OnvmError message (Some (rs_status resp)) (DetVal (VStr text))), s') ∧
                pending_timers s' = pending_timers s.
Proof.
  intros Hm Hsrv Ht Hok.
  destruct (authenticate_total m method path (body_text body) (obj_assign json_content hdrs) s)
    as (hs & a & s2 & Ha & Hcl & Hsent & Htm).
  rewrite (request_run _ _ _ _ _ _ _ _ _ _ (detect_cached _ _ Hm) Ha) by by rewrite Hcl.
  rewrite Hsent, Hsrv. unfold handle_response. rewrite Ht, Hok. simpl.
  assert (∃ message, http_error m (rs_status resp) text
                     = OnvmError message (Some (rs_status resp)) (DetVal (VStr text))) as [message He].
  { unfold http_error.
    destruct (Z.eqb_spec (rs_status resp) 401) as [->|]; [destruct m; eauto|].
    destruct (Z.eqb_spec (rs_status resp) 403) as [->|]; [eauto|].
    destruct (Z.eqb_spec (rs_status resp) 429) as [->|]; eauto. }
  exists message. eexists. split.
  - rewrite He. unfold OnvmError. by rewrite request_error_id.
  - done.
Qed.

Lemma request_http_error_witness :
  ∃ message s', @request Models.engine (Models.env_with (Models.constant_server 429 (js "slow"))) Models.mac_aead
    (js "GET") (js "/jobs") VUndef [] (a_state (Some dev) None)
    = (Throw (OnvmError message (Some 429) (DetVal (VStr (js "slow")))), s') ∧ pending_timers s' = 0%nat.
Proof.
  apply (@request_http_error Models.engine (Models.env_with (Models.constant_server 429 (js "slow")))
    Models.mac_aead (js "GET") (js "/jobs") VUndef [] (a_state (Some dev) None) dev
    (a_response 429 (js "slow")) (js "slow")); reflexivity.
Defined.

(** A rejected [fetch] becomes an [OnvmNetworkError]: a timeout one when the
    abort timer fired, a network one with the cause otherwise.  In both cases the
    timer armed for the request is never cleared. *)
Theorem request_fetch_rejected `{Engine} `{Env} `{XChaCha} (method path : jstr) (body : value)
    (hdrs : list (jstr * jstr)) (s : sdk) (m : node_mode) (name message : jstr) :
  detectedNodeMode (client s) = Some m →
  (∀ rq, server (sent (wd s)) rq = Throw (JsErr name message)) →
  let endpoint := rpcUrl (client s) ++ path in
  let '(o, s') := request method path body hdrs s in
  o = Throw (if str_eqb name (js "AbortError")
             then OnvmNetworkError (js "Request timeout while calling " ++ endpoint) NoDetails
             else OnvmNetworkError (js "Network error calling " ++ endpoint ++ js ": " ++ message)
                    (DetExn (JsErr name message))) ∧
  pending_timers s' = S (pending_timers s).
Proof.
  intros Hm Hsrv endpoint.
  destruct (authenticate_total m method path (body_text body) (obj_assign json_content hdrs) s)
    as (hs & a & s2 & Ha & Hcl & Hsent & Htm).
  rewrite (request_run _ _ _ _ _ _ _ _ _ _ (detect_cached _ _ Hm) Ha) by by rewrite Hcl.
  rewrite Hsent, Hsrv. simpl. rewrite Htm. split; [|done].
  unfold request_error. simpl. by destruct (str_eqb name (js "AbortError")).
Qed.

Lemma request_fetch_rejected_witness :
  let '(o, s') := @request Models.engine
      (Models.env_with (λ _ _, Throw (JsErr (js "AbortError") (js "aborted")))) Models.mac_aead
      (js "GET") (js "/jobs") VUndef [] (a_state (Some dev) None) in
  o = Throw (OnvmNetworkError (js "Request timeout while calling http://n/jobs") NoDetails) ∧
  pending_timers s' = 1%nat.
Proof.
  apply (@request_fetch_rejected Models.engine
      (Models.env_with (λ _ _, Throw (JsErr (js "AbortError") (js "aborted")))) Models.mac_aead
      (js "GET") (js "/jobs") VUndef [] (a_state (Some dev) None) dev (js "AbortError") (js "aborted"));
    reflexivity.
Defined.

(** ** Authentication *)

(** C2 In prod mode a client with credentials sends exactly one message per request,
    and its [x-signature] is the HMAC, under the signing key, of the method, the
    path, the [x-timestamp] and [x-nonce] headers and the very bytes of the body
    that go out, whatever headers the caller supplied. *)
Theorem request_prod_signed `{Engine} `{Env} `{XChaCha} (method path : jstr) (body : value)
    (hdrs : list (jstr * jstr)) (s : sdk) (keys : DerivedKeys) (pid : jstr) :
  detectedNodeMode (client s) = Some prod → derivedKeys (client s) = Some keys →
  projectId (client s) = Some pid → pid ≠ [] → ascii_str method → ascii_str path →
  ∃ rq ts nonce,
    sent (wd (request method path body hdrs s).2) = sent (wd s) ++ [rq] ∧
    rq_method rq = method ∧ rq_url rq = rpcUrl (client s) ++ path ∧
    rq_timeout rq = Some (timeout (client s)) ∧
    obj_get HDR_PROJECT_ID (rq_headers rq) = Some pid ∧
    obj_get HDR_TIMESTAMP (rq_headers rq) = Some (Z_to_str ts) ∧
    obj_get HDR_NONCE (rq_headers rq) = Some nonce ∧
    obj_get HDR_SIGNATURE (rq_headers rq)
    = Some (hex_encode (hmac_sha256 (signing_key keys)
        (method ++ [32] ++ path ++ [10] ++ Z_to_str ts ++ [10] ++ nonce ++ [10] ++ body_bytes (rq_body rq)))).
Proof.
  intros Hm Hk Hp Hne Hmethod Hpath. destruct pid as [|p pid]; [done|].
  pose proof (request_signed method path body hdrs s keys p pid Hm Hk Hp) as Hrun. cbv zeta in Hrun.
  set (rq := rpc_message _ _ _ _ _) in Hrun.
  exists rq, (clock (ticks (wd s))), (hex_encode (entropy (draws (wd s)) 16)).
  assert (body_bytes (rq_body rq) = utf8_encode (body_text body)) as Hbody
    by (unfold rq; simpl; by destruct (body_text body)).
  split; [by rewrite Hrun; destruct (server _ _)|].
  repeat split; [apply auth_headers_get.. |].
  rewrite Hbody. simpl.
  rewrite <- canonical_utf8 by (done || apply hex_encode_ascii, entropy_bytes).
  apply auth_headers_get.
Qed.

Lemma request_prod_signed_witness :
  ∃ rq ts nonce,
    sent (wd (@request Models.engine (Models.env_with (Models.constant_server 200 [])) Models.mac_aead
      (js "GET") (js "/jobs") VUndef [] (a_state (Some prod) (Some a_keys))).2) = [rq] ∧
    obj_get HDR_SIGNATURE (rq_headers rq)
    = Some (hex_encode (hmac_sha256 (replicate 32 1)
        (js "GET" ++ [32] ++ js "/jobs" ++ [10] ++ Z_to_str ts ++ [10] ++ nonce ++ [10] ++ body_bytes (rq_body rq)))).
Proof.
  destruct (@request_prod_signed Models.engine (Models.env_with (Models.constant_server 200 [])) Models.mac_aead
      (js "GET") (js "/jobs") VUndef [] (a_state (Some prod) (Some a_keys)) a_keys (js "p1"))
    as (rq & ts & nonce & Hs & _ & _ & _ & _ & _ & _ & Hsig);
    [reflexivity | reflexivity | reflexivity | done | decide_closed | decide_closed |].
  exists rq, ts, nonce. split; [exact Hs | exact Hsig].
Defined.

(** ** Where the client falls short *)

(** A client without credentials that meets a prod node is stopped once only:
    the first request throws the 401 error before anything but the liveness probe
    goes out, but the mode is already cached then, so that the next request is
    sent to the node without any authentication header. *)
Theorem missing_credentials_second_request `{Engine} `{Env} `{XChaCha} (method path : jstr) (body data : value)
    (s : sdk) (resp : http_response) :
  detectedNodeMode (client s) = None → projectId (client s) = None → derivedKeys (client s) = None →
  server (sent (wd s)) (liveness_probe (client s)) = Ok resp → rs_ok resp = true → rs_json resp = Ok data →
  get data (js "mode") = Ok (VStr (js "prod")) →
  let '(o1, s1) := request method path body [] s in
  let '(o2, s2) := request method path body [] s1 in
  (∃ message, o1 = Throw (OnvmError message (Some 401) NoDetails)) ∧
  sent (wd s1) = sent (wd s) ++ [liveness_probe (client s)] ∧
  sent (wd s2) = sent (wd s1) ++ [rpc_message (client s) method path (body_text body) json_content].
Proof.
  intros Hm Hp Hk Hsrv Hok Hj Hmode.
  assert (detectNodeMode s = (Throw (OnvmError (js "Node is running in prod mode but projectId or projectSecret is missing. Please provide valid credentials.") (Some 401) NoDetails),
          set_mode prod (after_fetch (liveness_probe (client s)) s))) as Hd.
  { unfold detectNodeMode, probe_mode, catchM, bindM, this, modifyM, throwM, retM, liftM. rewrite Hm, fetch_run.
    change {| rq_method := js "GET"; rq_url := _; rq_headers := _; rq_body := _; rq_timeout := _ |}
      with (liveness_probe (client s)).
    rewrite Hsrv, Hok. cbn [negb]. rewrite Hj, Hmode. simpl. by rewrite Hp. }
  unfold request at 1. rewrite (bindM_ok _ _ _ _ _ (eq_refl : this s = (Ok (client s), s))).
  rewrite (bindM_err _ _ _ _ _ Hd).
  rewrite (request_unsigned _ _ _ _ (set_mode prod _) prod) by auto.
  clear Hsrv. cbv zeta. destruct (server _ _); cbv beta iota; (split; [by eexists | done]).
Qed.

Lemma missing_credentials_second_request_witness :
  let liveness := json_text (VObj [(js "alive", VBool true); (js "mode", VStr (js "prod"))]) in
  let send := @request Models.engine (Models.env_with (Models.constant_server 200 liveness)) Models.mac_aead
                (js "GET") (js "/jobs") VUndef [] in
  let s1 := (send (a_state None None)).2 in
  sent (wd (send s1).2)
  = [liveness_probe (a_client None None);
     rpc_message (a_client None None) (js "GET") (js "/jobs") [] json_content].
Proof.
  intros liveness send s1.
  pose proof (@missing_credentials_second_request Models.engine
    (Models.env_with (Models.constant_server 200 liveness)) Models.mac_aead (js "GET") (js "/jobs") VUndef
    (VObj [(js "alive", VBool true); (js "mode", VStr (js "prod"))]) (a_state None None) (a_response 200 liveness)
    eq_refl eq_refl eq_refl eq_refl eq_refl eq_refl eq_refl) as Hw.
  fold send in Hw. unfold s1.
  destruct (send (a_state None None)) as [o1 s1'] eqn:H1. cbn [snd].
  destruct (send s1') as [o2 s2]. cbn [snd]. destruct Hw as (_ & Hs1 & Hs2).
  rewrite Hs2, Hs1. reflexivity.
Defined.

End ClientProps.
