(* ===== verification/RustLib.v ===== *)
(** * What the Rust sources use of their language and library

    binary64 arithmetic, [hex], strings and vectors.  A Rust string is the list of
    its UTF-8 bytes. *)

From Stdlib Require Import SpecFloat Sorted.
From S2P Require Import Prelude JsValue Codec.

Module Rust.

(** ** binary64 *)

Definition f64 : Type := spec_float.
Definition f64_add : f64 → f64 → f64 := SFadd 53 1024.
Definition f64_sub : f64 → f64 → f64 := SFsub 53 1024.
Definition f64_mul : f64 → f64 → f64 := SFmul 53 1024.
Definition f64_div : f64 → f64 → f64 := SFdiv 53 1024.
Definition f64_sqrt : f64 → f64 := SFsqrt 53 1024.
Definition f64_of_Z (z : Z) : f64 := binary_normalize 53 1024 z 0 false.

(** [f64::min]: the other operand when one is not a number. *)
Definition f64_min (x y : f64) : f64 :=
  match SFcompare x y with
  | Some Gt => y
  | Some _ => x
  | None => match x with S754_nan => y | _ => x end
  end.

Definition f64_ge (x y : f64) : bool :=
  match SFcompare x y with
  | Some Gt | Some Eq => true
  | _ => false
  end.

Lemma SFcompare_swap x y : SFcompare y x = CompOpp <$> SFcompare x y.
Proof.
  destruct x as [[]|[]| |[] m e], y as [[]|[]| |[] m' e']; try reflexivity; cbn [SFcompare];
    rewrite (Z.compare_antisym e e'); destruct (Z.compare e e'); try reflexivity;
    cbn [CompOpp fmap option_fmap option_map]; f_equal; [f_equal|]; apply (Pos.compare_antisym m m').
Qed.

(** ** [hex::decode] *)

Fixpoint hex_strict (s : jstr) : option bytes :=
  match s with
  | [] => Some []
  | a :: b :: r =>
      match hex_val a, hex_val b, hex_strict r with
      | Some x, Some y, Some bs => Some (16 * x + y :: bs)
      | _, _, _ => None
      end
  | _ => None
  end.

Lemma hex_strict_encode bs : byte_list bs → hex_strict (hex_encode bs) = Some bs.
Proof.
  induction 1 as [|b bs Hb _ IH]; [done|].
  change (hex_encode (b :: bs)) with (hex_digit (b / 16) :: hex_digit (b mod 16) :: hex_encode bs).
  destruct (byte_nibbles b Hb) as [H1 H2]. cbn [hex_strict].
  rewrite !hex_val_digit, IH by done. do 2 f_equal. pose proof (Z.div_mod b 16). lia.
Qed.

(** ** Strings *)

Abbreviation rstr := bytes.

(** [char::is_whitespace]: the characters with the property White_Space. *)
Definition is_whitespace (c : Z) : bool :=
  ((9 <=? c) && (c <=? 13)) || ((8192 <=? c) && (c <=? 8202))
  || existsb (Z.eqb c) [32; 133; 160; 5760; 8232; 8233; 8239; 8287; 12288].

(** [str::trim]. *)
Definition str_trim (s : rstr) : rstr :=
  utf8_encode (rev (drop_while is_whitespace (rev (drop_while is_whitespace (utf8_decode s))))).

(** Printable ASCII without spaces is left as it is. *)
Definition graphic (s : rstr) : Prop := Forall (λ c, 33 ≤ c ≤ 126) s.

Lemma drop_while_graphic s : graphic s → drop_while is_whitespace s = s.
Proof.
  destruct 1 as [|c s Hc _]; [done|]. cbn [drop_while]. replace (is_whitespace c) with false; [done|].
  symmetry. unfold is_whitespace. cbn [existsb]. rewrite !orb_false_iff, !andb_false_iff, !Z.leb_gt, !Z.eqb_neq. lia.
Qed.

Lemma graphic_ascii s : graphic s → ascii_str s.
Proof. intros Hs. eapply Forall_impl; [exact Hs|]. simpl. lia. Qed.

Lemma str_trim_graphic s : graphic s → str_trim s = s.
Proof.
  intros Hs. unfold str_trim. rewrite utf8_decode_ascii by (by apply graphic_ascii). rewrite (drop_while_graphic s Hs).
  rewrite drop_while_graphic by (by apply Forall_rev). rewrite rev_involutive. by apply utf8_encode_ascii, graphic_ascii.
Qed.

Lemma hex_encode_graphic bs : byte_list bs → graphic (hex_encode bs).
Proof.
  intros Hb. eapply Forall_impl; [by apply hex_encode_lower|]. intros c. unfold is_hex_lower. zbool. lia.
Qed.

(** The decoder's code units are in range. *)
Definition u8_ok (st : u8_state) : Prop :=
  match st with
  | U8Idle => True
  | U8Need cp need lo hi =>
      0 ≤ cp ∧ 128 ≤ lo ∧ hi ≤ 191 ∧
      (need = 1%nat ∧ cp * 64 + (hi - 128) ≤ 1114111 ∨ need = 2%nat ∧ (cp * 64 + (hi - 128)) * 64 + 63 ≤ 1114111 ∨
       need = 3%nat ∧ ((cp * 64 + (hi - 128)) * 64 + 63) * 64 + 63 ≤ 1114111)
  end.

Lemma u8_start_ok b : 0 ≤ b ≤ 255 → unit_str (u8_start b).1 ∧ u8_ok (u8_start b).2.
Proof.
  intros Hb. unfold u8_start. repeat case_match; zbool; cbn [fst snd u8_ok];
    (split; [repeat apply List.Forall_cons; try apply List.Forall_nil; unfold replacement; lia|try done; lia]).
Qed.

Lemma utf16_units cp : 0 ≤ cp ≤ 1114111 → unit_str (utf16 cp).
Proof.
  intros Hc. unfold utf16. case_match; zbool; repeat apply List.Forall_cons; try apply List.Forall_nil;
    Z.to_euclidean_division_equations; lia.
Qed.

Lemma u8_step_ok st b : u8_ok st → 0 ≤ b ≤ 255 → unit_str (u8_step st b).1 ∧ u8_ok (u8_step st b).2.
Proof.
  intros Hst Hb. destruct st as [|cp need lo hi]; cbn [u8_step]; [by apply u8_start_ok|].
  destruct Hst as (K1 & K2 & K3 & K4). destruct ((lo <=? b) && (b <=? hi)) eqn:Hin; zbool.
  - destruct K4 as [[-> K4]|[[-> K4]|[-> K4]]]; cbn [fst snd u8_ok];
      (split; [try apply utf16_units; try apply List.Forall_nil; lia|try done; lia]).
  - destruct (u8_start_ok b Hb) as [Ho Hs]. destruct (u8_start b) as [o st']. split; [|done].
    constructor; [unfold replacement; lia|done].
Qed.

Lemma u8_run_units bs st : byte_list bs → u8_ok st → unit_str (u8_run st bs).
Proof.
  intros Hb. revert st. induction Hb as [|b bs Hb _ IH]; intros st Hst; cbn [u8_run].
  - destruct st; [constructor|]. constructor; [unfold replacement; lia|constructor].
  - destruct (u8_step_ok st b Hst Hb) as [Ho Hs]. destruct (u8_step st b) as [o st']. apply Forall_app. split; [done|by apply IH].
Qed.

Lemma drop_while_forall (P : Z → Prop) p s : Forall P s → Forall P (drop_while p s).
Proof. induction 1 as [|c s Hc Hs IH]; cbn [drop_while]; [constructor|]. case_match; [done|by constructor]. Qed.

Lemma str_trim_bytes s : byte_list s → byte_list (str_trim s).
Proof.
  intros Hs. apply utf8_encode_bytes, Forall_rev, drop_while_forall, Forall_rev, drop_while_forall. by apply u8_run_units.
Qed.

Definition is_empty {A} (l : list A) : bool := match l with [] => true | _ => false end.

Definition ascii_lower (s : rstr) : rstr := map (λ c, if (65 <=? c) && (c <=? 90) then c + 32 else c) s.

Definition eq_ignore_ascii_case (a b : rstr) : bool := str_eqb (ascii_lower a) (ascii_lower b).

(** [haystack.contains(&needle)]. *)
Fixpoint str_contains (needle haystack : rstr) : bool :=
  starts_with needle haystack || match haystack with [] => false | _ :: r => str_contains needle r end.

(** The order of strings is that of their bytes. *)
Fixpoint str_leb (a b : rstr) : bool :=
  match a, b with
  | [], _ => true
  | _ :: _, [] => false
  | x :: a', y :: b' => (x <? y) || ((x =? y) && str_leb a' b')
  end.

Definition str_le (a b : rstr) : Prop := str_leb a b = true.

Lemma str_leb_total a b : str_leb a b = false → str_le b a.
Proof.
  unfold str_le. revert b. induction a as [|x a IH]; intros [|y b] Hab; simpl in *; [done..|].
  apply orb_false_iff in Hab as [H1 H2]. destruct (Z.eqb_spec x y) as [->|Hne].
  - rewrite Z.eqb_refl. simpl in *. rewrite IH by done. by rewrite orb_true_r.
  - apply orb_true_iff. left. apply Z.ltb_ge in H1. apply Z.ltb_lt. lia.
Qed.

Lemma str_le_trans a b c : str_le a b → str_le b c → str_le a c.
Proof.
  unfold str_le. revert b c. induction a as [|x a IH]; intros [|y b] [|z c] Hab Hbc; simpl in *; try done.
  apply orb_true_iff in Hab, Hbc. apply orb_true_iff.
  destruct Hab as [H1|H1], Hbc as [H2|H2]; rewrite ?andb_true_iff, ?Z.ltb_lt, ?Z.eqb_eq in *; [left; lia..|].
  destruct H1 as [-> H1], H2 as [-> H2]. right. split; [done|]. by eapply IH.
Qed.

(** [Vec::<String>::sort]. *)
Fixpoint insert_str (x : rstr) (l : list rstr) : list rstr :=
  match l with
  | [] => [x]
  | y :: r => if str_leb x y then x :: l else y :: insert_str x r
  end.
Definition sort_str (l : list rstr) : list rstr := foldr insert_str [] l.

Lemma insert_str_perm x l : insert_str x l ≡ₚ x :: l.
Proof. induction l as [|y l IH]; simpl; [done|]. case_match; [done|]. rewrite IH. apply Permutation_swap. Qed.

Lemma sort_str_perm l : sort_str l ≡ₚ l.
Proof. induction l as [|x l IH]; simpl; [done|]. by rewrite insert_str_perm, IH. Qed.

Lemma insert_str_sorted x l : StronglySorted str_le l → StronglySorted str_le (insert_str x l).
Proof.
  induction 1 as [|y l Hl IH Hy]; simpl; [by repeat constructor|]. destruct (str_leb x y) eqn:Hxy.
  - constructor; [by constructor|]. constructor; [done|]. eapply Forall_impl; [exact Hy|]. intros z Hz.
    by apply str_le_trans with y.
  - constructor; [done|]. rewrite insert_str_perm. constructor; [by apply str_leb_total|done].
Qed.

Lemma sort_str_sorted l : StronglySorted str_le (sort_str l).
Proof. induction l as [|x l IH]; simpl; [constructor|by apply insert_str_sorted]. Qed.

Lemma sorted_filter {A} (R : A → A → Prop) (P : A → Prop) `{∀ x, Decision (P x)} l :
  StronglySorted R l → StronglySorted R (filter P l).
Proof.
  induction 1 as [|x l Hl IH Hx]; [constructor|]. rewrite filter_cons. case_decide; [|done].
  constructor; [done|]. apply Forall_forall. intros y [_ Hy]%list_elem_of_filter. by eapply Forall_forall in Hx.
Qed.

(** ** Vectors *)

Definition contains {A} `{EqDecision A} (l : list A) (x : A) : bool := bool_decide (x ∈ l).

(** [v.retain(|y| y != x)]. *)
Definition retain_ne {A} `{EqDecision A} (x : A) (l : list A) : list A := filter (λ y, y ≠ x) l.

(** [v.iter().position(|y| y == x)]. *)
Fixpoint position {A} `{EqDecision A} (x : A) (l : list A) : option nat :=
  match l with
  | [] => None
  | y :: r => if decide (y = x) then Some 0%nat else S <$> position x r
  end.

(** [v.swap_remove(i)] for an index in range: the last element takes the place. *)
Definition swap_remove {A} (i : nat) (l : list A) : list A :=
  match last l with
  | None => l
  | Some z => take (length l - 1) (<[i := z]> l)
  end.

Lemma position_None {A} `{EqDecision A} (x : A) l : position x l = None ↔ x ∉ l.
Proof.
  induction l as [|y l IH]; simpl; [by split; intros; [apply not_elem_of_nil|]|].
  rewrite not_elem_of_cons. case_decide as Hyx; [naive_solver|].
  destruct (position x l); simpl; naive_solver.
Qed.

Lemma position_Some {A} `{EqDecision A} (x : A) l i : position x l = Some i → l !! i = Some x.
Proof.
  revert i. induction l as [|y l IH]; intros i; simpl; [done|]. case_decide as Hyx; [by intros [= <-]; subst|].
  destruct (position x l) as [j|]; [|done]. intros [= <-]. by apply IH.
Qed.

Lemma swap_remove_perm {A} i (x : A) l : l !! i = Some x → x :: swap_remove i l ≡ₚ l.
Proof.
  intros Hi. destruct l as [|z l _] using rev_ind; [done|]. unfold swap_remove. rewrite last_snoc, length_app. simpl.
  rewrite Nat.add_sub. destruct (decide (i < length l)%nat) as [Hlt|Hge].
  - rewrite insert_app_l, take_app_length' by (by rewrite ?length_insert). rewrite lookup_app_l in Hi by done.
    rewrite <- (take_drop_middle l i x Hi) at 2. rewrite insert_take_drop by done.
    rewrite <- !Permutation_middle, app_nil_r. apply Permutation_swap.
  - apply lookup_lt_Some in Hi as Hlt. rewrite length_app in Hlt. simpl in Hlt. assert (i = length l) as -> by lia.
    rewrite lookup_app_r, Nat.sub_diag in Hi by done. injection Hi as ->.
    rewrite insert_app_r_alt, Nat.sub_diag by done. simpl. rewrite take_app_length.
    apply Permutation_cons_append.
Qed.

(** ** Slices of strings *)

(** [s.is_char_boundary(n)]; slicing elsewhere panics. *)
Definition is_char_boundary (s : rstr) (n : nat) : bool :=
  (n =? length s)%nat || match s !! n with Some b => negb ((128 <=? b) && (b <=? 191)) | None => false end.

(** [s.chars().next()], as the bytes of the character. *)
Definition first_char (s : rstr) : option rstr :=
  match s with
  | [] => None
  | b :: _ => Some (take (if b <? 192 then 1 else if b <? 224 then 2 else if b <? 240 then 3 else 4) s)
  end.

(** [s.replace(c, r)]. *)
Definition replace_char (c : Z) (r s : rstr) : rstr := flat_map (λ x, if x =? c then r else [x]) s.

(** [x.to_le_bytes()] of an integer of [n] bytes. *)
Fixpoint to_le_bytes (n : nat) (x : Z) : bytes :=
  match n with 0%nat => [] | S n' => x mod 256 :: to_le_bytes n' (x / 256) end.

(** ** binary32 *)

Definition f32_of_Z (z : Z) : spec_float := binary_normalize 24 128 z 0 false.
Definition f32_mul : spec_float → spec_float → spec_float := SFmul 24 128.

(** [x as u8] of a number that is not negative: towards zero, at most 255. *)
Definition f32_as_u8 (x : spec_float) : Z :=
  match x with
  | S754_finite false m e => Z.min 255 (if 0 <=? e then Z.pos m * 2 ^ e else Z.pos m / 2 ^ (- e))
  | S754_infinity false => 255
  | _ => 0
  end.

(** ** Crates and Unicode tables *)

(** [char::to_uppercase] is Unicode's mapping. *)
Class Uppercase : Type := char_to_uppercase : rstr → rstr.

(** [blake3::Hasher] over the concatenation of the updates. *)
Class Blake3 : Type := blake3 : bytes → bytes.

(** [str::to_lowercase] is Unicode's mapping. *)
Class Lowercase : Type := str_to_lowercase : rstr → rstr.

(** [serde_json] for a type with derived [Serialize] and [Deserialize]: what was
    written is read back, and nothing is written as the empty text. *)
Class Serde (T : Type) : Type := {
  to_vec : T → bytes;
  from_slice : bytes → outcome rstr T;
  from_slice_to_vec : ∀ x, from_slice (to_vec x) = Ok x;
  to_vec_filled : ∀ x, to_vec x ≠ [];
}.
End Rust.
