(* ===== verification/Binary64.v ===== *)
(** * binary64 arithmetic on integers

    Sums of integers below 2^53 are exact, a quotient is the nearest multiple of its
    unit in the last place, and rounding a quotient of integers below 2^51 to an
    integer gives the integer nearest to the exact quotient. *)

From Stdlib Require Import SpecFloat.
From S2P Require Import Prelude JsValue Codec RustLib.

Module Binary64.
Import Rust.

(** ** Digits *)

Lemma digits_bounds p : 2 ^ (Zpos (digits2_pos p) - 1) ≤ Zpos p < 2 ^ Zpos (digits2_pos p).
Proof.
  induction p as [p IH|p IH|]; cbn [digits2_pos]; [| |done];
    rewrite Pos2Z.inj_succ; replace (Z.succ (Zpos (digits2_pos p)) - 1) with (Z.succ (Zpos (digits2_pos p) - 1)) by lia;
    rewrite !Z.pow_succ_r by lia; lia.
Qed.

Lemma digits_exact p d : 2 ^ (d - 1) ≤ Zpos p < 2 ^ d → 0 < d → Zpos (digits2_pos p) = d.
Proof.
  intros Hp Hd. pose proof (digits_bounds p) as Hb. set (n := Zpos (digits2_pos p)) in *.
  assert (0 < n) by (unfold n; lia). assert (n - 1 < d) by (apply (Z.pow_lt_mono_r_iff 2); lia).
  assert (d - 1 < n) by (apply (Z.pow_lt_mono_r_iff 2); lia). lia.
Qed.

(** ** Locations

    Where [N / D] is between [m] and [m + 1]. *)

Definition located (m : Z) (l : location) (N D : Z) : Prop :=
  let k := N - m * D in
  match l with
  | loc_Exact => k = 0
  | loc_Inexact c => 0 < k < D ∧ (2 * k ?= D) = c
  end.

Definition record_located (r : shr_record) (N D : Z) : Prop := located (shr_m r) (loc_of_shr_record r) N D.

Lemma record_of_location m l N D : located m l N D → record_located (shr_record_of_loc m l) N D.
Proof. by destruct l as [|[]]. Qed.

Lemma record_eta r : shr_record_of_loc (shr_m r) (loc_of_shr_record r) = r.
Proof. by destruct r as [m [] []]. Qed.

Lemma shr_1_located r N D :
  0 < D → 0 ≤ shr_m r → record_located r N D → record_located (shr_1 r) N (2 * D) ∧ shr_m (shr_1 r) = shr_m r / 2.
Proof.
  intros HD Hm Hr. destruct r as [m b s]. unfold record_located, located in *. cbn [shr_m] in *.
  assert (∃ p c, m = 2 * p + Z.b2z c ∧ 0 ≤ p ∧ shr_1 {| shr_m := m; shr_r := b; shr_s := s |} = {| shr_m := p; shr_r := c; shr_s := b || s |})
    as (p & c & -> & Hp & ->).
  { destruct m as [|[p|p|]|p]; [by exists 0, false|by exists (Zpos p), true|by exists (Zpos p), false|by exists 0, true|lia]. }
  cbn [shr_m]. split; [|destruct c; cbn; Z.to_euclidean_division_equations; lia].
  replace (N - p * (2 * D)) with (N - (2 * p + Z.b2z c) * D + Z.b2z c * D) by ring.
  set (k := N - (2 * p + Z.b2z c) * D) in *. clearbody k. clear Hm Hp.
  destruct b, s, c; cbn [loc_of_shr_record orb Z.b2z] in *;
    rewrite ?Z.compare_lt_iff, ?Z.compare_gt_iff, ?Z.compare_eq_iff in *; lia.
Qed.

Lemma iter_pos_iter {A} (f : A → A) n x : SpecFloat.iter_pos f n x = Nat.iter (Pos.to_nat n) f x.
Proof.
  revert x. induction n as [n IH|n IH|]; intros x; cbn [SpecFloat.iter_pos]; [| |done]; rewrite !IH.
  - rewrite Pos2Nat.inj_xI, Nat.iter_succ_r, <- Nat.iter_add. f_equal. lia.
  - rewrite Pos2Nat.inj_xO, <- Nat.iter_add. f_equal. lia.
Qed.

Lemma shr_iter k r N D :
  0 < D → 0 ≤ shr_m r → record_located r N D →
  record_located (Nat.iter k shr_1 r) N (2 ^ Z.of_nat k * D) ∧ shr_m (Nat.iter k shr_1 r) = shr_m r / 2 ^ Z.of_nat k.
Proof.
  intros HD Hm Hr. induction k as [|k [IH1 IH2]]; [cbn -[Z.mul]; by rewrite Z.mul_1_l, Z.div_1_r|].
  pose proof (Z.pow_pos_nonneg 2 (Z.of_nat k)) as Hk. rewrite Nat2Z.inj_succ, Z.pow_succ_r, <- Z.mul_assoc by lia. cbn [Nat.iter].
  destruct (shr_1_located (Nat.iter k shr_1 r) N (2 ^ Z.of_nat k * D)) as [Hl Hd]; [nia| |done|].
  - rewrite IH2. apply Z.div_pos; lia.
  - split; [exact Hl|]. change (shr_m (shr_1 (Nat.iter k shr_1 r)) = shr_m r / (2 * 2 ^ Z.of_nat k)).
    rewrite Hd, IH2, Z.div_div by lia. f_equal. lia.
Qed.

Lemma shr_located r e n N D :
  0 < D → 0 ≤ shr_m r → 0 ≤ n → record_located r N D →
  record_located (shr r e n).1 N (2 ^ n * D) ∧ shr_m (shr r e n).1 = shr_m r / 2 ^ n ∧ (shr r e n).2 = e + n.
Proof.
  intros HD Hm Hn Hr. destruct n as [|n|n]; [|clear Hn|lia]; cbn [shr fst snd].
  { rewrite Z.pow_0_r, Z.mul_1_l, Z.div_1_r, Z.add_0_r. done. }
  destruct (shr_iter (Pos.to_nat n) r N D) as [K1 K2]; [done..|]. rewrite positive_nat_Z in K1, K2. by rewrite iter_pos_iter.
Qed.

(** ** Rounding *)

(** [m] is an integer nearest to [N / D]. *)
Definition nearest (m N D : Z) : Prop := 2 * Z.abs (m * D - N) ≤ D.

Lemma nearest_even_nearest m l N D : 0 < D → located m l N D → nearest (round_nearest_even m l) N D.
Proof.
  unfold located, nearest. intros HD Hl.
  assert (round_nearest_even m l * D - N = - (N - m * D) ∨ round_nearest_even m l * D - N = D - (N - m * D)) as Hm.
  { destruct l as [|[]]; cbn; [| destruct (Z.even m)| |]; lia. }
  set (k := N - m * D) in *. 
  destruct l as [|[]]; cbn [round_nearest_even] in *; rewrite ?Z.compare_lt_iff, ?Z.compare_gt_iff, ?Z.compare_eq_iff in *; lia.
Qed.

Lemma fexp_normal x : -1021 ≤ x → fexp 53 1024 x = x - 53.
Proof. intros Hx. change (Z.max (x - 53) (-1074) = x - 53). lia. Qed.

Lemma round_nearest_even_steps m l : round_nearest_even m l = m ∨ round_nearest_even m l = m + 1.
Proof. destruct l as [|[]]; cbn; [| destruct (Z.even m)| |]; auto. Qed.

(** A mantissa after rounding, and the number it stands for. *)
Definition rounded (s : bool) (m e : Z) : f64 :=
  if m =? 2 ^ 53 then S754_finite s (2 ^ 52) (e + 1) else S754_finite s (Z.to_pos m) e.

Lemma shr_fexp_exact s m e :
  2 ^ 52 ≤ m ≤ 2 ^ 53 → -1074 ≤ e < 971 →
  (let '(r, e') := shr_fexp 53 1024 m e loc_Exact in
   match shr_m r with Z0 => S754_zero s | Zpos p => if e' <=? 971 then S754_finite s p e' else S754_infinity s | _ => S754_nan end)
  = rounded s m e.
Proof.
  intros Hm He. unfold rounded. destruct (Z.eqb_spec m (2 ^ 53)) as [->|Hne].
  - unfold shr_fexp. change (Zdigits2 (2 ^ 53)) with 54. rewrite fexp_normal by lia. replace (54 + e - 53 - e) with 1 by lia.
    cbn [shr]. change (shr_m (SpecFloat.iter_pos shr_1 1 (shr_record_of_loc (2 ^ 53) loc_Exact))) with (2 ^ 52). cbn [Z.pow].
    by rewrite (proj2 (Z.leb_le (e + 1) 971)) by lia.
  - destruct m as [|m|m]; [lia| |lia]. unfold shr_fexp. cbn [Zdigits2].
    rewrite (digits_exact m 53), fexp_normal by (cbn -[Z.pow]; lia). replace (53 + e - 53 - e) with 0 by lia.
    cbn [shr shr_record_of_loc shr_m Z.to_pos]. by rewrite (proj2 (Z.leb_le e 971)) by lia.
Qed.

(** Rounding a located number to 53 digits. *)
Lemma round_aux_nearest s q e l N D :
  let n := Zpos (digits2_pos q) - 53 in
  0 ≤ n → -1074 ≤ e + n < 971 → 0 < D → located (Zpos q) l N D →
  ∃ m, 2 ^ 52 ≤ m ≤ 2 ^ 53 ∧ nearest m N (2 ^ n * D) ∧ binary_round_aux 53 1024 s (Zpos q) e l = rounded s m (e + n).
Proof.
  intros n Hn He HD Hl. unfold binary_round_aux. unfold shr_fexp at 1. cbn [Zdigits2].
  replace (fexp 53 1024 (Zpos (digits2_pos q) + e) - e) with n by (rewrite fexp_normal; lia).
  assert (shr_m (shr_record_of_loc (Zpos q) l) = Zpos q) as Hq by by destruct l as [|[]].
  destruct (shr_located (shr_record_of_loc (Zpos q) l) e n N D) as (K1 & K2 & K3); [lia|lia|lia|by apply record_of_location|].
  destruct (shr _ e n) as [r e']. cbn [fst snd] in K1, K2, K3. subst e'. rewrite Hq in K2.
  assert (2 ^ 52 ≤ shr_m r < 2 ^ 53) as Hr.
  { pose proof (digits_bounds q) as Hb. rewrite K2. split.
    - apply Z.div_le_lower_bound; [by apply Z.pow_pos_nonneg|]. rewrite <- Z.pow_add_r by lia.
      replace (n + 52) with (Zpos (digits2_pos q) - 1) by lia. lia.
    - apply Z.div_lt_upper_bound; [by apply Z.pow_pos_nonneg|]. rewrite <- Z.pow_add_r by lia.
      replace (n + 53) with (Zpos (digits2_pos q)) by lia. lia. }
  exists (round_nearest_even (shr_m r) (loc_of_shr_record r)).
  pose proof (round_nearest_even_steps (shr_m r) (loc_of_shr_record r)).
  split; [lia|]. split; [|by apply (shr_fexp_exact s); lia].
  apply nearest_even_nearest; [|exact K1]. pose proof (Z.pow_pos_nonneg 2 n). nia.
Qed.

(** ** Integers *)

Definition digits (p : positive) : Z := Zpos (digits2_pos p).

(** The number [p] with 53 digits. *)
Definition normal (s : bool) (p : positive) : f64 := S754_finite s (Z.to_pos (Zpos p * 2 ^ (53 - digits p))) (digits p - 53).

Lemma digits_range p : Zpos p < 2 ^ 53 → 1 ≤ digits p ≤ 53.
Proof.
  intros Hp. pose proof (digits_bounds p) as Hb. fold (digits p) in Hb. split; [unfold digits; lia|].
  assert (digits p - 1 < 53); [|lia]. apply (Z.pow_lt_mono_r_iff 2); lia.
Qed.

Lemma digits_shift p q k : 0 ≤ k → Zpos q = Zpos p * 2 ^ k → digits q = digits p + k.
Proof.
  intros Hk Hq. pose proof (digits_bounds p) as Hb. fold (digits p) in Hb. assert (0 < digits p) by (unfold digits; lia).
  apply digits_exact; [|lia]. rewrite Hq. replace (digits p + k - 1) with (digits p - 1 + k) by lia.
  rewrite !Z.pow_add_r by lia. pose proof (Z.pow_pos_nonneg 2 k). nia.
Qed.

Lemma nearest_multiple m c D : 0 < D → nearest m (c * D) D → m = c.
Proof.
  unfold nearest. intros HD. rewrite <- Z.mul_sub_distr_r, Z.abs_mul, (Z.abs_eq D) by lia. intros Hm. destruct (Z.eq_dec m c) as [|Hne]; [done|]. assert (1 ≤ Z.abs (m - c)) by lia. nia.
Qed.

Lemma full_mantissa p : Zpos p < 2 ^ 53 → 2 ^ 52 ≤ Zpos p * 2 ^ (53 - digits p) < 2 ^ 53.
Proof.
  intros Hp. pose proof (digits_range p Hp). pose proof (digits_bounds p) as Hb. fold (digits p) in Hb.
  assert (2 ^ 52 = 2 ^ (digits p - 1) * 2 ^ (53 - digits p)) as -> by (rewrite <- Z.pow_add_r by lia; f_equal; lia).
  assert (2 ^ 53 = 2 ^ digits p * 2 ^ (53 - digits p)) as -> by (rewrite <- Z.pow_add_r by lia; f_equal; lia).
  pose proof (Z.pow_pos_nonneg 2 (53 - digits p)). nia.
Qed.

(** Rounding an integer that is written with an exponent. *)
Lemma round_aux_exact s p q e k :
  Zpos p < 2 ^ 53 → 0 ≤ k → Zpos q = Zpos p * 2 ^ k → e = - k → 53 - digits p ≤ k ≤ 1000 →
  binary_round_aux 53 1024 s (Zpos q) e loc_Exact = normal s p.
Proof.
  intros Hp Hk Hq -> Hd. pose proof (digits_range p Hp) as Hr. pose proof (digits_shift p q k Hk Hq) as Hdq.
  pose proof (full_mantissa p Hp) as Hf.
  destruct (round_aux_nearest s q (- k) loc_Exact (Zpos q) 1) as (m & _ & Hm & ->); fold (digits q); rewrite ?Hdq; [lia|lia|done|cbn; lia|].
  fold (digits q) in Hm. rewrite Hdq in Hm. rewrite Z.mul_1_r, Hq in Hm.
  replace (2 ^ k) with (2 ^ (53 - digits p) * 2 ^ (digits p + k - 53)) in Hm by (rewrite <- Z.pow_add_r by lia; f_equal; lia).
  rewrite Z.mul_assoc in Hm. apply nearest_multiple in Hm as ->; [|apply Z.pow_pos_nonneg; lia].
  unfold rounded, normal. rewrite (proj2 (Z.eqb_neq _ _)) by lia. f_equal. lia.
Qed.

Lemma iter_xO q n : Zpos (Pos.iter xO q n) = Zpos q * 2 ^ Zpos n.
Proof. change (Pos.iter xO q n) with (Zpower.shift_pos n q). rewrite Zpower.shift_pos_correct. change (Z.pow_pos 2 n) with (2 ^ Zpos n). lia. Qed.

Lemma round_exact s p q k :
  Zpos p < 2 ^ 53 → 0 ≤ k ≤ 1000 → Zpos q = Zpos p * 2 ^ k → binary_round 53 1024 s q (- k) = normal s p.
Proof.
  intros Hp Hk Hq. pose proof (digits_range p Hp) as Hr. pose proof (digits_shift p q k (proj1 Hk) Hq) as Hdq.
  unfold binary_round. fold (digits q). rewrite fexp_normal, Hdq by lia. unfold shl_align.
  destruct (digits p + k + - k - 53 - - k) as [|n|n] eqn:Hn; [by eapply (round_aux_exact s p q _ k); lia..|].
  apply (round_aux_exact s p _ _ (53 - digits p)); [done|lia| |lia|lia].
  rewrite iter_xO, Hq, <- Z.mul_assoc, <- Z.pow_add_r by lia. do 2 f_equal. lia.
Qed.

Definition integer (z : Z) : f64 :=
  match z with Z0 => S754_zero false | Zpos p => normal false p | Zneg p => normal true p end.

Lemma normalize_scaled z k :
  Z.abs z < 2 ^ 53 → 0 ≤ k ≤ 1000 → binary_normalize 53 1024 (z * 2 ^ k) (- k) false = integer z.
Proof.
  intros Hz Hk. pose proof (Z.pow_pos_nonneg 2 k) as Hp. destruct (2 ^ k) as [|w|w] eqn:Hw; [lia| |lia].
  destruct z as [|p|p]; [done| |]; cbn [Z.mul binary_normalize]; apply round_exact; lia.
Qed.

Lemma f64_of_Z_normal z :
  Z.abs z < 2 ^ 53 → f64_of_Z z = integer z.
Proof. intros Hz. rewrite <- (normalize_scaled z 0) by (done || lia). unfold f64_of_Z. by rewrite Z.mul_1_r. Qed.

Lemma shl_align_value p e : Zpos p < 2 ^ 53 → e ≤ digits p →
  Zpos (shl_align (Z.to_pos (Zpos p * 2 ^ (53 - digits p))) (digits p - 53) (e - 53)).1 = Zpos p * 2 ^ (53 - e).
Proof.
  intros Hp He. pose proof (full_mantissa p Hp) as Hf. pose proof (digits_range p Hp) as Hr. unfold shl_align.
  destruct (e - 53 - (digits p - 53)) as [|n|n] eqn:Hn; [|lia|]; cbn [fst].
  - rewrite Z2Pos.id by lia. do 2 f_equal. lia.
  - rewrite iter_xO, Z2Pos.id, <- Z.mul_assoc, <- Z.pow_add_r by lia. do 2 f_equal. lia.
Qed.

Lemma normal_add s t p q :
  Zpos p < 2 ^ 53 → Zpos q < 2 ^ 53 →
  f64_add (normal s p) (normal t q) =
  let e := Z.min (digits p) (digits q) in
  binary_normalize 53 1024 ((cond_Zopp s (Zpos p) + cond_Zopp t (Zpos q)) * 2 ^ (53 - e)) (- (53 - e)) false.
Proof.
  intros Hp Hq. unfold f64_add, normal. cbn [SFadd]. replace (Z.min (digits p - 53) (digits q - 53)) with (Z.min (digits p) (digits q) - 53) by lia.
  rewrite !shl_align_value by (done || lia). cbv zeta. f_equal; [|lia]. destruct s, t; cbn [cond_Zopp]; lia.
Qed.

(** Sums of integers are exact. *)
Lemma add_exact a b :
  Z.abs a < 2 ^ 53 → Z.abs b < 2 ^ 53 → Z.abs (a + b) < 2 ^ 53 → f64_add (f64_of_Z a) (f64_of_Z b) = f64_of_Z (a + b).
Proof.
  intros Ha Hb Hab. rewrite !f64_of_Z_normal by done.
  destruct a as [|p|p], b as [|q|q]; try done.
  all: assert (Zpos p < 2 ^ 53) as Hp by lia; assert (Zpos q < 2 ^ 53) as Hq by lia.
  all: pose proof (digits_range p Hp); pose proof (digits_range q Hq); cbn [integer]; rewrite normal_add by done; cbv zeta; cbn [cond_Zopp Z.opp].
  all: apply normalize_scaled; [done|lia].
Qed.

Lemma sum_exact l a :
  0 ≤ a → Forall (λ z, 0 ≤ z) l → a + foldr Z.add 0 l < 2 ^ 53 →
  fold_left (λ s z, f64_add s (f64_of_Z z)) l (f64_of_Z a) = f64_of_Z (a + foldr Z.add 0 l).
Proof.
  intros Ha Hl. revert a Ha. induction Hl as [|z l Hz Hl IH]; intros a Ha Hs; [by rewrite Z.add_0_r|]. cbn [fold_left foldr] in *.
  assert (0 ≤ foldr Z.add 0 l) by (clear -Hl; induction Hl; cbn; lia).
  rewrite add_exact, IH by lia. f_equal. lia.
Qed.

(** ** Quotients *)

Lemma new_location_located q r N D : 0 ≤ r < D → N = q * D + r → located q (new_location D r) N D.
Proof.
  intros Hr ->. unfold located, new_location, new_location_even, new_location_odd. replace (q * D + r - q * D) with r by lia.
  destruct (Z.even D) eqn:He, (Z.eqb_spec r 0) as [->|Hr0]; try done; split; try lia; [done|].
  rewrite <- Z.negb_odd in He. apply negb_false_iff, Z.odd_spec in He as [k ->].
  destruct (Z.compare_spec (2 * r + 1) (2 * k + 1)); rewrite ?Z.compare_lt_iff, ?Z.compare_gt_iff; lia.
Qed.

(** The mantissas of a quotient. *)
Lemma div_core p q :
  Zpos p < 2 ^ 53 → Zpos q < 2 ^ 53 →
  let m1 := Zpos p * 2 ^ (53 - digits p) in
  let m2 := Zpos q * 2 ^ (53 - digits q) in
  f64_div (normal false p) (normal false q) =
  binary_round_aux 53 1024 false (m1 * 2 ^ 53 / m2) (digits p - digits q - 53) (new_location m2 (m1 * 2 ^ 53 mod m2)).
Proof.
  intros Hp Hq m1 m2. pose proof (full_mantissa p Hp) as Hm1. pose proof (full_mantissa q Hq) as Hm2. fold m1 in Hm1. fold m2 in Hm2.
  pose proof (digits_range p Hp). pose proof (digits_range q Hq).
  unfold f64_div, normal. fold m1 m2. cbn [SFdiv]. unfold SFdiv_core_binary. cbn [Zdigits2].
  rewrite (digits_exact (Z.to_pos m1) 53), (digits_exact (Z.to_pos m2) 53) by (rewrite ?Z2Pos.id by lia; cbn -[Z.pow]; lia).
  rewrite fexp_normal, !Z2Pos.id by lia.
  replace (Z.min _ _) with (digits p - digits q - 53) by lia.
  replace (digits p - 53 - (digits q - 53) - (digits p - digits q - 53)) with 53 by lia.
  rewrite Z.shiftl_mul_pow2 by lia. unfold Z.modulo, Z.div. by destruct (Z.div_eucl (m1 * 2 ^ 53) m2).
Qed.

Lemma nearest_scale m N D c : 0 < c → nearest m (N * c) (D * c) → nearest m N D.
Proof.
  unfold nearest. intros Hc. replace (m * (D * c) - N * c) with ((m * D - N) * c) by ring.
  rewrite Z.abs_mul, (Z.abs_eq c) by lia. nia.
Qed.

Lemma quotient_digits m1 m2 Q :
  2 ^ 52 ≤ m1 < 2 ^ 53 → 2 ^ 52 ≤ m2 < 2 ^ 53 → Zpos Q = m1 * 2 ^ 53 / m2 → 53 ≤ digits Q ≤ 54.
Proof.
  intros H1 H2 HQ. assert (2 ^ 52 ≤ Zpos Q < 2 ^ 54) as Hb.
  { rewrite HQ. split; [apply Z.div_le_lower_bound|apply Z.div_lt_upper_bound]; lia. }
  destruct (decide (Zpos Q < 2 ^ 53)).
  - assert (digits Q = 53) by (apply digits_exact; cbn -[Z.pow]; lia). lia.
  - assert (digits Q = 54) by (apply digits_exact; cbn -[Z.pow]; lia). lia.
Qed.

(** A quotient is the nearest of the numbers with its exponent. *)
Lemma div_nearest a b :
  0 < a < 2 ^ 51 → 0 < b < 2 ^ 53 →
  ∃ m e, 2 ^ 52 ≤ m ≤ 2 ^ 53 ∧ e ≤ -2 ∧ nearest m (a * 2 ^ (- e)) b ∧ f64_div (f64_of_Z a) (f64_of_Z b) = rounded false m e.
Proof.
  intros Ha Hb. destruct a as [|p|]; [lia| |lia]. destruct b as [|q|]; [lia| |lia].
  rewrite !f64_of_Z_normal by lia. cbn [integer]. assert (Zpos p < 2 ^ 53) as Hp by lia. assert (Zpos q < 2 ^ 53) as Hq by lia.
  rewrite div_core by done. pose proof (full_mantissa p Hp) as Hm1. pose proof (full_mantissa q Hq) as Hm2.
  set (m1 := Zpos p * 2 ^ (53 - digits p)) in *. set (m2 := Zpos q * 2 ^ (53 - digits q)) in *.
  pose proof (digits_range q Hq) as Hdq. assert (1 ≤ digits p ≤ 51) as Hdp.
  { pose proof (digits_bounds p) as Hd. fold (digits p) in Hd. split; [unfold digits; lia|].
    assert (digits p - 1 < 51); [|lia]. apply (Z.pow_lt_mono_r_iff 2); lia. }
  pose proof (Z.div_mod (m1 * 2 ^ 53) m2) as Hdiv. pose proof (Z.mod_pos_bound (m1 * 2 ^ 53) m2) as Hmod.
  assert (0 < m1 * 2 ^ 53 / m2) by (apply Z.div_str_pos; lia).
  destruct (m1 * 2 ^ 53 / m2) as [|Q|] eqn:HQ; [lia| |lia]. pose proof (quotient_digits m1 m2 Q Hm1 Hm2 (eq_sym HQ)) as Hdig.
  destruct (round_aux_nearest false Q (digits p - digits q - 53) (new_location m2 (m1 * 2 ^ 53 mod m2)) (m1 * 2 ^ 53) m2)
    as (m & Hm & Hn & ->); fold (digits Q); [lia|lia|lia|apply new_location_located; lia|]. fold (digits Q) in Hn.
  exists m, (digits p - digits q - 53 + (digits Q - 53)). split; [done|]. split; [lia|]. split; [|done].
  apply (nearest_scale _ _ _ (2 ^ (digits Q - digits q))); [apply Z.pow_pos_nonneg; lia|].
  rewrite <- Z.mul_assoc, <- Z.pow_add_r by lia. unfold m1, m2 in Hn. rewrite <- Z.mul_assoc, <- Z.pow_add_r in Hn by lia.
  rewrite (Z.mul_comm (2 ^ _)), <- Z.mul_assoc, <- Z.pow_add_r in Hn by lia.
  replace (- (digits p - digits q - 53 + (digits Q - 53)) + (digits Q - digits q)) with (53 - digits p + 53) by lia.
  by replace (digits Q - digits q) with (53 - digits q + (digits Q - 53)) by lia.
Qed.

(** ** Rounding to an integer

    The multiple of [1 / E] that is nearest to [a / b] rounds, halves upwards, to the
    integer that [a / b] rounds to. *)
Lemma nearest_half m a b E :
  0 < a < 2 ^ 51 → 0 < b → 2 ^ 52 ≤ m → 0 < E → Z.Even E → nearest m (a * E) b → (2 * m + E) / (2 * E) = (2 * a + b) / (2 * b).
Proof.
  intros Ha Hb Hm HE [k ->] Hn. pose proof (Z.div_mod (2 * a + b) (2 * b)) as Hd. pose proof (Z.mod_pos_bound (2 * a + b) (2 * b)) as Hr.
  set (h := (2 * a + b) / (2 * b)) in *. assert (b < 2 * k) as HbE by (unfold nearest in Hn; nia).
  assert (2 * m < 2 * k * (2 * h + 1)) as Hu by (unfold nearest in Hn; nia).
  assert (2 * k * (2 * h - 1) ≤ 2 * m) as Hl.
  { destruct (decide (2 * a = b * (2 * h - 1))) as [Heq|Hne]; [|unfold nearest in Hn; nia].
    replace (a * (2 * k)) with (k * (2 * h - 1) * b) in Hn by nia. apply nearest_multiple in Hn; lia. }
  symmetry. apply (Z.div_unique_pos _ _ _ (2 * m + 2 * k - 2 * (2 * k) * h)); lia.
Qed.

(** ** Signs *)

Lemma shr_1_nonneg r : 0 ≤ shr_m r → 0 ≤ shr_m (shr_1 r).
Proof. destruct r as [[|[]|] b s]; cbn; lia. Qed.

Lemma shr_nonneg r e n : 0 ≤ shr_m r → 0 ≤ shr_m (shr r e n).1.
Proof.
  intros Hr. destruct n as [|n|n]; [done| |done]. cbn [shr fst]. rewrite iter_pos_iter.
  induction (Pos.to_nat n) as [|k IH]; [done|]. by apply shr_1_nonneg.
Qed.

Definition sign_is (s : bool) (x : f64) : Prop :=
  match x with S754_zero t | S754_infinity t | S754_finite t _ _ => s = t | S754_nan => False end.

(** Rounding keeps the sign. *)
Lemma binary_round_sign s p e : sign_is s (binary_round 53 1024 s p e).
Proof.
  unfold binary_round. destruct (shl_align _ _ _) as [m e']. unfold binary_round_aux, shr_fexp at 1.
  pose proof (shr_nonneg (shr_record_of_loc (Zpos m) loc_Exact) e' (fexp 53 1024 (Zdigits2 (Zpos m) + e') - e') ltac:(done)) as H1.
  destruct (shr _ _ _) as [r e'']. cbn [fst] in H1. pose proof (round_nearest_even_steps (shr_m r) (loc_of_shr_record r)) as H2.
  set (m' := round_nearest_even _ _) in *. unfold shr_fexp.
  pose proof (shr_nonneg (shr_record_of_loc m' loc_Exact) e'' (fexp 53 1024 (Zdigits2 m' + e'') - e'') ltac:(cbn; lia)) as H3.
  destruct (shr _ _ _) as [r' e3]. cbn [fst] in H3. destruct (shr_m r'); [done|by destruct (_ <=? _)|lia].
Qed.
End Binary64.
