(* ===== verification/WasmHost.v ===== *)
(** * The node's WASM host, as the programs see it

    src/wasm_runtime/host_apis.rs: the functions a program imports from [env], of
    which the state, clock, random and blob functions are modelled; the identifiers
    of src/types.rs they accept; and how the writes of an execution reach the
    database (src/wasm_runtime/runtime.rs, src/consensus/core/execution.rs).  The
    memory of the program is in range, so that the codes for failed reads and
    writes of it do not occur, and lengths are below 2^31, as those of every buffer
    of a 32-bit program are. *)

From S2P Require Import Prelude JsValue Codec RustLib.

Module Host.
Import Rust.

(** ** src/types.rs *)

Inductive IdPrefix : Type := PrefixBlob | PrefixProgram.

Definition BLOB_ID_PREFIX : rstr := js "blob".
Definition PROGRAM_ID_PREFIX : rstr := js "prog".

(** The messages of the errors are dropped, as their callers drop them. *)
Definition parse_prefixed_hex_id (input : rstr) : option (option IdPrefix * bytes) :=
  let trimmed := str_trim input in
  if is_empty trimmed then None
  else
    let '(prefix, rest) :=
      if eq_ignore_ascii_case (take 4 trimmed) BLOB_ID_PREFIX then (Some PrefixBlob, drop 4 trimmed)
      else if eq_ignore_ascii_case (take 4 trimmed) PROGRAM_ID_PREFIX then (Some PrefixProgram, drop 4 trimmed)
      else (None, trimmed) in
    match hex_strict (str_trim rest) with
    | Some bs => if (length bs =? 32)%nat then Some (prefix, bs) else None
    | None => None
    end.

Definition parse_blob_id_str (input : rstr) : option bytes :=
  match parse_prefixed_hex_id input with
  | Some (Some PrefixProgram, _) | None => None
  | Some (_, bs) => Some bs
  end.

(** ** The node

    Its object store, database, clock and entropy source: what they answer is open.
    [system_time n] is the [n]-th reading in milliseconds since the epoch, [None]
    before it; [db_fails key] says that reading [key] from the database fails. *)

Record Manifest : Type := {
  total_size : Z;
  content_hash : bytes;
}.

Class NodeHost : Type := {
  get_manifest_by_object : bytes → outcome () (option Manifest);
  get_object_metadata : bytes → outcome () (option Z);
  db_fails : bytes → bool;
  system_time : nat → option Z;
  os_random : nat → nat → bytes;
  os_random_length : ∀ n k, length (os_random n k) = k;
  os_random_bytes : ∀ n k, byte_list (os_random n k);
}.

(** The part of [ExecutionContext] that changes, with the program's scope of the
    database and the readings of the clock and of the entropy source so far. *)
Record ExecutionContext : Type := {
  db : gmap bytes bytes;
  pending_writes : gmap bytes (option bytes);
  ticks : nat;
  draws : nat;
}.

(** [as i64]. *)
Definition as_i64 (z : Z) : Z := (z + 2 ^ 63) mod 2 ^ 64 - 2 ^ 63.

Section Functions.
Context `{NodeHost}.

(** The outcome of a function that writes to a buffer: the code that is returned and
    what was written. *)
Definition written : Type := Z * bytes.

Definition onvm_state_put (key value : bytes) (c : ExecutionContext) : Z * ExecutionContext :=
  (0, {| db := db c; pending_writes := <[key := Some value]> (pending_writes c); ticks := ticks c; draws := draws c |}).

(** [Throw] is the code of a failed read. *)
Definition lookup_state (key : bytes) (c : ExecutionContext) : outcome Z (option bytes) :=
  match pending_writes c !! key with
  | Some entry => Ok entry
  | None => if db_fails key then Throw (-3) else Ok (db c !! key)
  end.

Definition onvm_state_get (key : bytes) (out_cap : Z) (c : ExecutionContext) : written :=
  match lookup_state key c with
  | Throw code => (code, [])
  | Ok None => (0, [])
  | Ok (Some v) => let len := Z.of_nat (length v) in if out_cap <? len then (- len, []) else (len, v)
  end.

Definition onvm_now_ms (c : ExecutionContext) : Z * ExecutionContext :=
  (match system_time (ticks c) with Some ms => as_i64 ms | None => -1 end,
   {| db := db c; pending_writes := pending_writes c; ticks := S (ticks c); draws := draws c |}).

Definition onvm_random_bytes (out_len : nat) (c : ExecutionContext) : written * ExecutionContext :=
  ((0, os_random (draws c) out_len),
   {| db := db c; pending_writes := pending_writes c; ticks := ticks c; draws := S (draws c) |}).

(** With the prefix of blobs expected; [Throw] is the code. *)
Definition read_object_id (id_buf : bytes) : outcome Z bytes :=
  if (length id_buf =? 32)%nat then Ok id_buf
  else match parse_blob_id_str id_buf with Some bs => Ok bs | None => Throw (-4) end.

Definition onvm_blob_addr (id : bytes) : written :=
  match read_object_id id with Ok bs => (0, bs) | Throw code => (code, []) end.

Definition onvm_blob_exists (id : bytes) : Z :=
  match read_object_id id with
  | Throw code => code
  | Ok oid => match get_manifest_by_object oid with Ok (Some _) => 1 | Ok None => 0 | Throw _ => -6 end
  end.

Definition onvm_blob_len (id : bytes) : Z :=
  match read_object_id id with
  | Throw code => code
  | Ok oid =>
      match get_object_metadata oid with
      | Ok (Some size) => as_i64 size
      | _ => match get_manifest_by_object oid with
             | Ok (Some m) => as_i64 (total_size m)
             | Ok None => -1
             | Throw _ => -2
             end
      end
  end.

Definition onvm_blob_hash (id : bytes) : written :=
  match read_object_id id with
  | Throw code => (code, [])
  | Ok oid =>
      match get_manifest_by_object oid with
      | Ok (Some m) => (0, content_hash m)
      | Ok None => (-2, [])
      | Throw _ => (-3, [])
      end
  end.
End Functions.

(** ** After an execution *)

(** [state_writes] of the outcome; they are sorted by key there, and the keys are
    distinct. *)
Definition state_writes (c : ExecutionContext) : list (bytes * option bytes) := map_to_list (pending_writes c).

Definition apply_state_writes (writes : list (bytes * option bytes)) (d : gmap bytes bytes) : gmap bytes bytes :=
  fold_left (λ d w, match w.2 with Some v => <[w.1 := v]> d | None => delete w.1 d end) writes d.

(** The next execution starts from what this one left. *)
Definition next_execution (c : ExecutionContext) : ExecutionContext :=
  {| db := apply_state_writes (state_writes c) (db c); pending_writes := ∅; ticks := ticks c; draws := draws c |}.

Lemma apply_writes_lookup writes d key :
  NoDup writes.*1 →
  apply_state_writes writes d !! key = match list_to_map (M := gmap bytes (option bytes)) writes !! key with Some entry => entry | None => d !! key end.
Proof.
  revert d. induction writes as [|[k o] writes IH]; intros d Hd; simpl; [done|]. apply NoDup_cons in Hd as [Hk Hd]. rewrite IH by done.
  destruct (decide (k = key)) as [->|Hne].
  - rewrite lookup_insert_eq, not_elem_of_list_to_map_1 by done. destruct o; [apply lookup_insert_eq|apply lookup_delete_eq].
  - rewrite lookup_insert_ne by done. by destruct o; [rewrite lookup_insert_ne|rewrite lookup_delete_ne].
Qed.

Section Commit.
Context `{NodeHost}.

(** What a program wrote is what its next execution reads, where reading the
    database succeeds. *)
Lemma next_execution_reads key c :
  db_fails key = false → lookup_state key (next_execution c) = lookup_state key c.
Proof.
  intros Hf. unfold lookup_state, next_execution, state_writes. cbn [pending_writes db]. rewrite lookup_empty, Hf.
  rewrite apply_writes_lookup by apply NoDup_fst_map_to_list. rewrite list_to_map_to_list.
  by destruct (pending_writes c !! key).
Qed.

(** The value under a key; a missing one and the empty one are the same. *)
Definition value_at (k : bytes) (c : ExecutionContext) : option bytes :=
  match lookup_state k c with
  | Ok (Some v) => if is_empty v then None else Some v
  | _ => None
  end.

Lemma lookup_ok k c : db_fails k = false → ∃ o, lookup_state k c = Ok o.
Proof. intros Hf. unfold lookup_state. rewrite Hf. destruct (pending_writes c !! k); eauto. Qed.

Lemma value_at_next k c : db_fails k = false → value_at k (next_execution c) = value_at k c.
Proof. intros Hf. unfold value_at. by rewrite next_execution_reads. Qed.

Definition written_context (k v : bytes) (c : ExecutionContext) : ExecutionContext := (onvm_state_put k v c).2.

Lemma value_at_written k k' v c :
  value_at k (written_context k' v c) = if decide (k = k') then (if is_empty v then None else Some v) else value_at k c.
Proof.
  unfold value_at, lookup_state, written_context, onvm_state_put. cbn [snd pending_writes db].
  case_decide as Hk; [subst k'; by rewrite lookup_insert_eq|by rewrite lookup_insert_ne].
Qed.

(** Reading, where the database answers. *)
Lemma state_get_value k cap c :
  db_fails k = false → 0 ≤ cap →
  onvm_state_get k cap c =
    match value_at k c with
    | None => (0, [])
    | Some v => let len := Z.of_nat (length v) in if cap <? len then (- len, []) else (len, v)
    end.
Proof.
  intros Hf Hc. unfold onvm_state_get, value_at. destruct (lookup_ok k c Hf) as [[[|b v]|] ->]; [|done..].
  cbn [length is_empty]. by rewrite (proj2 (Z.ltb_ge cap (Z.of_nat 0))).
Qed.

Lemma value_at_filled k c v : value_at k c = Some v → v ≠ [].
Proof. unfold value_at. destruct (lookup_state k c) as [[[|]|]|]; simpl; try done. by intros [= <-]. Qed.

(** A program that was never called. *)
Definition fresh_context : ExecutionContext := {| db := ∅; pending_writes := ∅; ticks := 0; draws := 0 |}.

Lemma value_at_fresh k : value_at k fresh_context = None.
Proof. unfold value_at, lookup_state. cbn [pending_writes db fresh_context]. rewrite lookup_empty. by destruct (db_fails k). Qed.
End Commit.
End Host.
