(* ===== verification/RustModels.v ===== *)
(** * Concrete instances of what the programs use

    A codec for stored records, nodes, and stand-ins for the hash and the case mappings,
    at which the theorems on the WASM programs are applied. *)

From S2P Require Import Prelude JsValue Codec RustLib WasmHost.

Module RustModels.
Import Rust Host.

(** ** A codec: the bits of the code of a record *)

Fixpoint bits (p : positive) : bytes :=
  match p with xH => [1] | xO q => 48 :: bits q | xI q => 49 :: bits q end.

Fixpoint unbits (bs : bytes) : option positive :=
  match bs with
  | [] => None
  | 48 :: r => xO <$> unbits r
  | 49 :: r => xI <$> unbits r
  | _ => Some xH
  end.

Lemma unbits_bits p : unbits (bits p) = Some p.
Proof. induction p as [q IH|q IH|]; cbn [bits unbits]; [by rewrite IH..|done]. Qed.

Lemma bits_filled p : bits p ≠ [].
Proof. by destruct p. Qed.

Definition decode_bits {T} `{Countable T} (bs : bytes) : outcome rstr T :=
  match unbits bs ≫= decode with Some x => Ok x | None => Throw (js "not a record") end.

Lemma decode_encode_bits {T} `{Countable T} (x : T) : decode_bits (bits (encode x)) = Ok x.
Proof. unfold decode_bits. rewrite unbits_bits. cbn [mbind option_bind]. by rewrite decode_encode. Qed.

Definition serde_bits {T} `{Countable T} : Serde T :=
  {| to_vec := λ x, bits (encode x); from_slice := decode_bits; from_slice_to_vec := decode_encode_bits;
     to_vec_filled := λ x, bits_filled (encode x) |}.

(** ** A codec: fields with their lengths before them *)

Definition frame (s : bytes) : bytes := Z.of_nat (length s) :: s.
Definition frame_opt (o : option bytes) : bytes := match o with Some s => 1 :: frame s | None => [0] end.

Definition unframe (bs : bytes) : option (bytes * bytes) :=
  match bs with n :: r => Some (take (Z.to_nat n) r, drop (Z.to_nat n) r) | [] => None end.
Definition unframe_opt (bs : bytes) : option (option bytes * bytes) :=
  match bs with
  | 0 :: r => Some (None, r)
  | _ :: r => '(s, r') ← unframe r; Some (Some s, r')
  | [] => None
  end.
Fixpoint unframe_all (n : nat) (bs : bytes) : option (list bytes) :=
  match n with
  | 0%nat => Some []
  | S n' => '(s, r) ← unframe bs; l ← unframe_all n' r; Some (s :: l)
  end.

Lemma unframe_frame s r : unframe (frame s ++ r) = Some (s, r).
Proof. cbn. by rewrite Nat2Z.id, take_app_length, drop_app_length. Qed.

Lemma unframe_opt_frame o r : unframe_opt (frame_opt o ++ r) = Some (o, r).
Proof. destruct o as [s|]; [|done]. cbn [frame_opt app unframe_opt]. by rewrite unframe_frame. Qed.

Lemma unframe_all_frames l : unframe_all (length l) (concat (map frame l)) = Some l.
Proof.
  induction l as [|s l IH]; [done|]. cbn [length map concat unframe_all]. rewrite unframe_frame. cbn [mbind option_bind].
  by rewrite IH.
Qed.

Definition write_list (l : list bytes) : bytes := Z.of_nat (length l) :: concat (map frame l).
Definition read_list (bs : bytes) : outcome rstr (list bytes) :=
  match bs with
  | n :: r => match unframe_all (Z.to_nat n) r with Some l => Ok l | None => Throw (js "not a list") end
  | [] => Throw (js "no input")
  end.

Lemma read_write_list l : read_list (write_list l) = Ok l.
Proof. unfold read_list, write_list. by rewrite Nat2Z.id, unframe_all_frames. Qed.

Lemma write_list_filled l : write_list l ≠ [].
Proof. done. Qed.

Definition serde_list : Serde (list rstr) :=
  {| to_vec := write_list; from_slice := read_list; from_slice_to_vec := read_write_list; to_vec_filled := write_list_filled |}.

(** ** Nodes *)

(** A node whose random bytes count the draws. *)
Lemma counter_bytes (n k : nat) : byte_list (replicate k (Z.of_nat n mod 256)).
Proof. apply Forall_replicate. pose proof (Z.mod_pos_bound (Z.of_nat n) 256). lia. Qed.

Definition quiet_node : NodeHost := {|
  get_manifest_by_object := λ _, Ok (Some {| total_size := 3; content_hash := replicate 32 7 |});
  get_object_metadata := λ _, Ok None;
  db_fails := λ _, false;
  system_time := λ n, Some (1700000000000 + Z.of_nat n);
  os_random := λ n k, replicate k (Z.of_nat n mod 256);
  os_random_length := λ n k, length_replicate k _;
  os_random_bytes := λ n k, counter_bytes n k;
|}.

(** A node whose clock stands still. *)

Definition still_node : NodeHost := {|
  get_manifest_by_object := λ _, Ok (Some {| total_size := 3; content_hash := replicate 32 7 |});
  get_object_metadata := λ _, Ok None;
  db_fails := λ _, false;
  system_time := λ _, Some 1700000000000;
  os_random := λ n k, replicate k (Z.of_nat n mod 256);
  os_random_length := λ n k, length_replicate k _;
  os_random_bytes := λ n k, counter_bytes n k;
|}.

Definition blake3_stub : Blake3 := λ bs, bs.
Definition lowercase_ascii : Lowercase := ascii_lower.
Definition uppercase_ascii : Uppercase :=
  λ s, map (λ c, if (97 <=? c) && (c <=? 122) then c - 32 else c) s.

(** A hash of 32 bytes. *)
Definition digest (bs : bytes) : Z := fold_left (λ a b, (a * 257 + b + 1) mod 18446744073709551557) bs 0.
Definition spread (d : Z) : bytes := map (λ k, d / 256 ^ (Z.of_nat k mod 8) mod 256) (seq 0 32).
Definition blake3_sum : Blake3 := λ bs, spread (digest bs).

Lemma blake3_sum_length x : length (@blake3 blake3_sum x) = 32%nat.
Proof. unfold blake3, blake3_sum, spread. by rewrite length_map, length_seq. Qed.

Lemma blake3_sum_bytes x : byte_list (@blake3 blake3_sum x).
Proof.
  apply Forall_map, Forall_forall. intros k _. pose proof (Z.mod_pos_bound (digest x / 256 ^ (Z.of_nat k mod 8)) 256). lia.
Qed.
End RustModels.
