(* ===== verification/Merkle.v ===== *)
(** * src/merkle: Merkle roots and proofs

    src/merkle/mod.rs over BLAKE3 as a parameter: the plain root over sorted leaves,
    the sparse tree of 256 levels, its proofs and their verification.  A proof of what is
    stored verifies, and a proof that verifies is of what is stored, or two of the texts
    that were hashed collide; equal roots are roots of equal states. *)

From stdpp Require Import sorting.
From S2P Require Import Prelude JsValue Codec RustLib.

Module Merkle.
Import Rust.

(** The length and the range of digests. *)
Class Digest `{Blake3} : Prop := {
  digest_length : ∀ x, length (blake3 x) = 32%nat;
  digest_bytes : ∀ x, byte_list (blake3 x);
}.

(** The order in which a [HashMap] is traversed is not specified. *)
Class HashIter : Type := {
  into_iter : ∀ {A}, gmap bytes A → list (bytes * A);
  into_iter_perm : ∀ {A} (m : gmap bytes A), into_iter m ≡ₚ map_to_list m;
}.

Section Functions.
Context `{Blake3} `{HashIter}.

Definition hash_bytes (data : bytes) : bytes := blake3 data.

(** ** The plain root *)

Definition hash_pair (a b : bytes) : bytes := hash_bytes (a ++ b).

Fixpoint hash_chunks (nodes : list bytes) : list bytes :=
  match nodes with
  | a :: b :: r => hash_pair a b :: hash_chunks r
  | _ => []
  end.

(** One round of the loop. *)
Definition halve (nodes : list bytes) : list bytes :=
  hash_chunks (if Nat.odd (length nodes) then nodes ++ [List.last nodes []] else nodes).

(** [None] is the panic of [nodes[0]], or the end of the fuel. *)
Fixpoint reduce_loop (fuel : nat) (nodes : list bytes) : option bytes :=
  if (1 <? length nodes)%nat
  then match fuel with 0%nat => None | S fuel => reduce_loop fuel (halve nodes) end
  else head nodes.

Definition reduce (nodes : list bytes) : option bytes := reduce_loop (length nodes) nodes.

Definition leaf_of (p : bytes * bytes) : bytes := hash_pair (hash_bytes p.1) (hash_bytes p.2).

Definition merkle_root (pairs : list (bytes * bytes)) : option bytes :=
  match pairs with
  | [] => Some (hash_bytes (js "onvm-empty-root"))
  | _ => reduce (sort_str (map leaf_of pairs))
  end.

(** ** The sparse tree *)

Definition SMT_EMPTY : bytes := js "onvm-smt-empty-onvm-smt-empty!!" ++ [0].

Definition leaf_text (key_hash value_hash : bytes) : bytes := js "leaf" ++ key_hash ++ value_hash.
Definition node_text (left right : bytes) : bytes := js "node" ++ left ++ right.
Definition hash_leaf (key_hash value_hash : bytes) : bytes := hash_bytes (leaf_text key_hash value_hash).
Definition hash_internal (left right : bytes) : bytes := hash_bytes (node_text left right).

Definition bit_at (key_hash : bytes) (depth : nat) : bool :=
  Z.testbit (nth (depth / 8) key_hash 0) (7 - Z.of_nat (depth mod 8)).

Definition dedup_leaves (pairs : list (bytes * bytes)) : gmap bytes bytes :=
  fold_left (λ m p, <[hash_bytes p.1 := hash_leaf (hash_bytes p.1) (hash_bytes p.2)]> m) pairs ∅.

(** The leaves below the two halves of a level. *)
Definition right_of (level : nat) (leaves : list (bytes * bytes)) : list (bytes * bytes) :=
  List.filter (λ l, bit_at l.1 level) leaves.
Definition left_of (level : nat) (leaves : list (bytes * bytes)) : list (bytes * bytes) :=
  List.filter (λ l, negb (bit_at l.1 level)) leaves.

(** [n] is the number of levels below, [256 - level]. *)
Fixpoint compute_smt_root (n : nat) (leaves : list (bytes * bytes)) : bytes :=
  match leaves with
  | [] => SMT_EMPTY
  | (_, h) :: _ =>
      match n with
      | 0%nat => h
      | S n' => let level := (256 - n)%nat in
                hash_internal (compute_smt_root n' (left_of level leaves)) (compute_smt_root n' (right_of level leaves))
      end
  end.

Fixpoint compute_smt_with_proof (n : nat) (leaves : list (bytes * bytes)) (target : bytes) : bytes * list bytes :=
  match leaves with
  | [] => (SMT_EMPTY, replicate n SMT_EMPTY)
  | (_, h) :: _ =>
      match n with
      | 0%nat => (h, [])
      | S n' =>
          let level := (256 - n)%nat in
          let bit := bit_at target level in
          let keep := if bit then right_of level leaves else left_of level leaves in
          let sibling := if bit then left_of level leaves else right_of level leaves in
          let '(keep_hash, proof) := compute_smt_with_proof n' keep target in
          let sibling_hash := compute_smt_root n' sibling in
          (if bit then hash_internal sibling_hash keep_hash else hash_internal keep_hash sibling_hash, proof ++ [sibling_hash])
      end
  end.

Definition sparse_merkle_root (pairs : list (bytes * bytes)) : bytes :=
  match into_iter (dedup_leaves pairs) with
  | [] => SMT_EMPTY
  | leaves => compute_smt_root 256 leaves
  end.

Definition sparse_merkle_proof (pairs : list (bytes * bytes)) (key : bytes) : bytes * list bytes :=
  compute_smt_with_proof 256 (into_iter (dedup_leaves pairs)) (hash_bytes key).

(** One step up from [node], at [offset] from the leaf; [saturating_sub] is that of [nat]. *)
Definition climb_step (key_hash : bytes) (offset : nat) (node sibling : bytes) : bytes :=
  if bit_at key_hash (255 - offset) then hash_internal sibling node else hash_internal node sibling.

Fixpoint climb (key_hash : bytes) (offset : nat) (node : bytes) (proof : list bytes) : bytes :=
  match proof with
  | [] => node
  | sibling :: rest => climb key_hash (S offset) (climb_step key_hash offset node sibling) rest
  end.

Definition verify_sparse_merkle_proof (key value : bytes) (proof : list bytes) (expected_root : bytes) : bool :=
  let key_hash := hash_bytes key in
  bool_decide (climb key_hash 0 (hash_leaf key_hash (hash_bytes value)) proof = expected_root).
End Functions.

Lemma list_subseteq_cons_l {A} (x : A) l L : x :: l ⊆ L → x ∈ L ∧ l ⊆ L.
Proof. intros Hs. split; [apply Hs; by left|]. intros y Hy. apply Hs. by right. Qed.
Lemma list_subseteq_app_l {A} (l1 l2 L : list A) : l1 ++ l2 ⊆ L → l1 ⊆ L ∧ l2 ⊆ L.
Proof. intros Hs. split; intros y Hy; apply Hs, elem_of_app; [by left|by right]. Qed.

(** ** The plain root is that of a set of pairs *)

Section Plain.
Context `{Blake3}.

Lemma hash_chunks_length m nodes : length nodes = (2 * m)%nat → length (hash_chunks nodes) = m.
Proof.
  revert nodes. induction m as [|m IH]; intros [|a [|b r]]; cbn; intros Hl; try lia. rewrite IH; lia.
Qed.

Lemma halve_length nodes : (length nodes ≤ 2 * length (halve nodes) ≤ length nodes + 1)%nat.
Proof.
  unfold halve. destruct (Nat.odd (length nodes)) eqn:Ho.
  - apply Nat.odd_spec in Ho as [m Hm]. rewrite (hash_chunks_length (m + 1)); rewrite ?length_app; cbn [length]; lia.
  - rewrite <- Nat.negb_even, negb_false_iff in Ho. apply Nat.even_spec in Ho as [m Hm]. rewrite (hash_chunks_length m); lia.
Qed.

Lemma reduce_total fuel nodes : nodes ≠ [] → (length nodes ≤ fuel)%nat → ∃ r, reduce_loop fuel nodes = Some r.
Proof.
  revert nodes. induction fuel as [|fuel IH]; intros [|a [|b l]] Hne Hf; cbn in Hf; try lia; try done; [by exists a|].
  cbn [reduce_loop length Nat.ltb Nat.leb]. pose proof (halve_length (a :: b :: l)) as Hl. cbn [length] in Hl.
  apply IH; [intros He; rewrite He in Hl; cbn [length] in Hl; lia|lia].
Qed.

#[local] Instance str_le_antisymm : AntiSymm (=) str_le.
Proof.
  unfold str_le. intros a. induction a as [|x a IH]; intros [|y b] Hab Hba; simpl in *; try done.
  rewrite !orb_true_iff, !andb_true_iff, ?Z.ltb_lt, ?Z.eqb_eq in *.
  destruct Hab as [|[-> ?]], Hba as [|[? ?]]; [lia..|]. f_equal. by apply IH.
Qed.

(** It is computed for every list of pairs, whatever their order. *)
Lemma merkle_root_order pairs1 pairs2 : pairs1 ≡ₚ pairs2 → ∃ r, merkle_root pairs1 = Some r ∧ merkle_root pairs2 = Some r.
Proof.
  intros Hp. assert (sort_str (map leaf_of pairs1) = sort_str (map leaf_of pairs2)) as Hs.
  { apply (StronglySorted_unique str_le); [apply sort_str_sorted..|]. by rewrite !sort_str_perm, Hp. }
  destruct pairs1 as [|p r]; [apply Permutation_nil in Hp as ->; by eexists|].
  destruct pairs2 as [|q r2]; [by apply Permutation_nil_r in Hp|]. cbn [merkle_root]. rewrite <- Hs.
  destruct (reduce_total (length (sort_str (map leaf_of (p :: r)))) (sort_str (map leaf_of (p :: r)))) as [x Hx]; [|done|by exists x].
  intros He. pose proof (sort_str_perm (map leaf_of (p :: r))) as Hq. rewrite He in Hq. by apply Permutation_nil_l in Hq.
Qed.
End Plain.

(** ** Keys and their bits *)

Lemma bits_equal (a b : bytes) :
  length a = 32%nat → length b = 32%nat → byte_list a → byte_list b →
  (∀ d, (d < 256)%nat → bit_at a d = bit_at b d) → a = b.
Proof.
  intros Ha Hb Ba Bb Hd. apply (nth_ext _ _ 0 0); [lia|]. intros i Hi.
  assert (∀ c, byte_list c → (i < length c)%nat → 0 ≤ nth i c 0 < 2 ^ 8) as Hr.
  { intros c Hc Hl. unfold byte_list in Hc. rewrite Forall_forall in Hc.
    pose proof (Hc (nth i c 0)) as Hx. rewrite list_elem_of_In in Hx. specialize (Hx (nth_In c 0 Hl)). lia. }
  pose proof (Hr a Ba Hi) as Hra. pose proof (Hr b Bb ltac:(lia)) as Hrb. apply Z.bits_inj'. intros n Hn.
  destruct (decide (n < 8)) as [Hn8|Hn8].
  - specialize (Hd (i * 8 + (7 - Z.to_nat n))%nat ltac:(lia)). unfold bit_at in Hd.
    rewrite Nat.div_add_l, Nat.div_small, Nat.add_0_r in Hd by lia.
    rewrite Nat.add_comm, Nat.Div0.mod_add, Nat.mod_small in Hd by lia.
    replace (7 - Z.of_nat (7 - Z.to_nat n)) with n in Hd by lia. exact Hd.
  - rewrite <- (Z.mod_small _ _ Hra), <- (Z.mod_small _ _ Hrb), !Z.mod_pow2_bits_high; [done|lia|lia].
Qed.

Section Tree.
Context `{Blake3} `{!Digest}.

(** The keys agree above [n] levels. *)
Definition same_path (n : nat) (leaves : list (bytes * bytes)) : Prop :=
  ∀ k l d, k ∈ leaves → l ∈ leaves → (d < 256 - n)%nat → bit_at k.1 d = bit_at l.1 d.

(** Leaves with distinct keys of 32 bytes. *)
Record leaves_ok (leaves : list (bytes * bytes)) : Prop := {
  keys_distinct : NoDup leaves.*1;
  keys_digests : Forall (λ l, length l.1 = 32%nat ∧ byte_list l.1) leaves;
}.

Lemma elem_left level leaves l : l ∈ left_of level leaves ↔ l ∈ leaves ∧ bit_at l.1 level = false.
Proof. unfold left_of. rewrite !list_elem_of_In, List.filter_In, negb_true_iff. done. Qed.
Lemma elem_right level leaves l : l ∈ right_of level leaves ↔ l ∈ leaves ∧ bit_at l.1 level = true.
Proof. unfold right_of. by rewrite !list_elem_of_In, List.filter_In. Qed.

Lemma filter_ok f leaves : leaves_ok leaves → leaves_ok (List.filter f leaves).
Proof.
  intros [Hd Hk]. induction leaves as [|l leaves IH]; [done|]. cbn in *. apply NoDup_cons in Hd as [Hl Hd].
  apply Forall_cons in Hk as [Hlk Hk]. destruct (IH Hd Hk) as [IHd IHk]. destruct (f l); [|done]. split; cbn.
  - constructor; [|done]. contradict Hl. apply list_elem_of_fmap in Hl as (x & Hx & Hin).
    apply list_elem_of_In, List.filter_In in Hin as [Hin _]. apply list_elem_of_fmap. exists x. by rewrite list_elem_of_In.
  - by constructor.
Qed.

Lemma same_path_filter n f leaves b :
  same_path (S n) leaves → (n < 256)%nat → (∀ l, l ∈ List.filter f leaves → l ∈ leaves ∧ bit_at l.1 (256 - S n) = b) →
  same_path n (List.filter f leaves).
Proof.
  intros Hp Hn Hf k l d Hk Hl Hd. destruct (Hf k Hk) as [Hk1 Hk2], (Hf l Hl) as [Hl1 Hl2].
  destruct (decide (d = 256 - S n)%nat) as [->|]; [by rewrite Hk2, Hl2|]. apply Hp; [done|done|lia].
Qed.

Lemma same_path_left n leaves : same_path (S n) leaves → (n < 256)%nat → same_path n (left_of (256 - S n) leaves).
Proof. intros Hp Hn. apply (same_path_filter n _ leaves false Hp Hn). intros l. apply elem_left. Qed.
Lemma same_path_right n leaves : same_path (S n) leaves → (n < 256)%nat → same_path n (right_of (256 - S n) leaves).
Proof. intros Hp Hn. apply (same_path_filter n _ leaves true Hp Hn). intros l. apply elem_right. Qed.

(** Below all levels there is one leaf. *)
Lemma single_leaf leaves l : leaves_ok leaves → same_path 0 leaves → l ∈ leaves → leaves = [l].
Proof.
  intros [Hd Hk] Hp Hl. assert (∀ k, k ∈ leaves → k.1 = l.1) as Heq.
  { intros k Hkl. rewrite Forall_forall in Hk. apply bits_equal; try by apply Hk.
    intros d Hd'. apply Hp; [done|done|lia]. }
  destruct leaves as [|a [|b r]]; [by apply not_elem_of_nil in Hl|by apply list_elem_of_singleton in Hl as ->|].
  cbn in Hd. apply NoDup_cons in Hd as [Ha _]. contradict Ha. rewrite (Heq a), <- (Heq b); [|by right; left|by left]. by left.
Qed.

(** *** Proofs *)

Lemma with_proof_root n leaves target : (compute_smt_with_proof n leaves target).1 = compute_smt_root n leaves.
Proof.
  revert leaves. induction n as [|n IH]; intros [|[k h] leaves]; try done. cbn -[Nat.sub left_of right_of].
  set (l := (k, h) :: leaves). specialize (IH (if bit_at target (256 - S n) then right_of (256 - S n) l else left_of (256 - S n) l)).
  destruct (bit_at target _); destruct (compute_smt_with_proof n _ target) as [r p]; cbn in IH; by subst r.
Qed.

Lemma with_proof_length n leaves target : length (compute_smt_with_proof n leaves target).2 = n.
Proof.
  revert leaves. induction n as [|n IH]; intros [|[k h] leaves]; [done|done|apply length_replicate|]. cbn -[Nat.sub left_of right_of].
  set (l := (k, h) :: leaves). specialize (IH (if bit_at target (256 - S n) then right_of (256 - S n) l else left_of (256 - S n) l)).
  destruct (compute_smt_with_proof n _ target) as [r p]. cbn in *. rewrite length_app. cbn. lia.
Qed.

Lemma climb_app kh off node p s :
  climb kh off node (p ++ [s]) = climb_step kh (off + length p) (climb kh off node p) s.
Proof.
  revert off node. induction p as [|a p IH]; intros off node; cbn; [by rewrite Nat.add_0_r|].
  rewrite IH. f_equal. lia.
Qed.

(** The proof of a leaf leads from it to the root. *)
Lemma proof_leads n leaves kh h :
  (n ≤ 256)%nat → leaves_ok leaves → same_path n leaves → (kh, h) ∈ leaves →
  climb kh 0 h (compute_smt_with_proof n leaves kh).2 = compute_smt_root n leaves.
Proof.
  revert leaves. induction n as [|n IH]; intros leaves Hn Hok Hp Hin.
  { rewrite (single_leaf leaves (kh, h)) by done. done. }
  destruct leaves as [|[k0 h0] r] eqn:Hr; [by apply not_elem_of_nil in Hin|]. rewrite <- Hr in *.
  assert (compute_smt_root (S n) leaves =
    hash_internal (compute_smt_root n (left_of (256 - S n) leaves)) (compute_smt_root n (right_of (256 - S n) leaves))) as ->
    by by rewrite Hr.
  pose proof (with_proof_length n (if bit_at kh (256 - S n) then right_of (256 - S n) leaves else left_of (256 - S n) leaves) kh) as Hlen.
  assert ((compute_smt_with_proof (S n) leaves kh).2 =
    (compute_smt_with_proof n (if bit_at kh (256 - S n) then right_of (256 - S n) leaves else left_of (256 - S n) leaves) kh).2
    ++ [compute_smt_root n (if bit_at kh (256 - S n) then left_of (256 - S n) leaves else right_of (256 - S n) leaves)]) as ->.
  { rewrite Hr. cbn -[Nat.sub left_of right_of]. match goal with |- context [compute_smt_with_proof n ?x kh] => destruct (compute_smt_with_proof n x kh) end. cbn [snd]. by rewrite <- Hr. }
  rewrite climb_app, Hlen. unfold climb_step. replace (255 - (0 + n))%nat with (256 - S n)%nat by lia.
  destruct (bit_at kh (256 - S n)) eqn:Hb; rewrite IH; try done; try lia.
  - by apply filter_ok.
  - by apply same_path_right.
  - by apply elem_right.
  - by apply filter_ok.
  - by apply same_path_left.
  - by apply elem_left.
Qed.

(** *** The texts that are hashed *)

Fixpoint smt_texts (n : nat) (leaves : list (bytes * bytes)) : list bytes :=
  match leaves, n with
  | _ :: _, S n' =>
      let level := (256 - n)%nat in
      node_text (compute_smt_root n' (left_of level leaves)) (compute_smt_root n' (right_of level leaves))
      :: smt_texts n' (left_of level leaves) ++ smt_texts n' (right_of level leaves)
  | _, _ => []
  end.

Definition step_text (kh : bytes) (off : nat) (node sibling : bytes) : bytes :=
  if bit_at kh (255 - off) then node_text sibling node else node_text node sibling.

Fixpoint climb_texts (kh : bytes) (off : nat) (node : bytes) (proof : list bytes) : list bytes :=
  match proof with
  | [] => []
  | s :: r => step_text kh off node s :: climb_texts kh (S off) (climb_step kh off node s) r
  end.

Definition collision (texts : list bytes) : Prop := ∃ x y, x ∈ texts ∧ y ∈ texts ∧ x ≠ y ∧ hash_bytes x = hash_bytes y.

(** Two texts collide, or one has the digest of the empty tree. *)
Definition clash (texts : list bytes) : Prop := collision texts ∨ ∃ x, x ∈ texts ∧ hash_bytes x = SMT_EMPTY.

Lemma same_text L x y : x ∈ L → y ∈ L → hash_bytes x = hash_bytes y → clash L ∨ x = y.
Proof. intros Hx Hy Heq. destruct (decide (x = y)); [by right|]. left. left. by exists x, y. Qed.

Lemma climb_step_text kh off node s : climb_step kh off node s = hash_bytes (step_text kh off node s).
Proof. unfold climb_step, step_text. by destruct (bit_at _ _). Qed.

Lemma climb_texts_app kh off node p s :
  climb_texts kh off node (p ++ [s]) = climb_texts kh off node p ++ [step_text kh (off + length p) (climb kh off node p) s].
Proof.
  revert off node. induction p as [|a p IH]; intros off node; cbn; [by rewrite Nat.add_0_r|].
  rewrite IH. do 4 f_equal. lia.
Qed.

Lemma climb_length kh off node p : length node = 32%nat → length (climb kh off node p) = 32%nat.
Proof.
  revert off node. induction p as [|a p IH]; intros off node Hn; [done|]. cbn. apply IH. rewrite climb_step_text. apply digest_length.
Qed.

Lemma smt_empty_length : length SMT_EMPTY = 32%nat.
Proof. vm_compute. reflexivity. Qed.

Lemma node_text_inj a b c d : length a = 32%nat → length c = 32%nat → node_text a b = node_text c d → a = c ∧ b = d.
Proof. unfold node_text. intros Ha Hc Heq. apply (inj (app _)) in Heq. apply app_inj_1 in Heq; [done|lia]. Qed.

Lemma leaf_text_inj a b c d : length a = 32%nat → length c = 32%nat → leaf_text a b = leaf_text c d → a = c ∧ b = d.
Proof. unfold leaf_text. intros Ha Hc Heq. apply (inj (app _)) in Heq. apply app_inj_1 in Heq; [done|lia]. Qed.

Lemma leaf_not_node a b c d : leaf_text a b ≠ node_text c d.
Proof. unfold leaf_text, node_text. cbn. done. Qed.

(** Leaves that are hashes of texts in [L]. *)
Definition leaf_values (L : list bytes) (leaves : list (bytes * bytes)) : Prop :=
  ∀ l, l ∈ leaves → ∃ v, l.2 = hash_leaf l.1 v ∧ length l.1 = 32%nat ∧ length v = 32%nat ∧ leaf_text l.1 v ∈ L.

Lemma root_length L n leaves : leaf_values L leaves → length (compute_smt_root n leaves) = 32%nat.
Proof.
  intros Hv. destruct leaves as [|[k h] r]; [destruct n; apply smt_empty_length|]. destruct n; cbn; [|apply digest_length].
  destruct (Hv (k, h)) as (v & Hh & _); [by left|]. cbn in Hh. rewrite Hh. apply digest_length.
Qed.

Lemma leaf_values_filter L f leaves : leaf_values L leaves → leaf_values L (List.filter f leaves).
Proof. intros Hv l Hl. apply Hv. apply list_elem_of_In, List.filter_In in Hl as [Hl _]. by apply list_elem_of_In. Qed.

Section Sound.
Context (L : list bytes) (kh vh : bytes) (Hkh : length kh = 32%nat) (Hvh : length vh = 32%nat) (Hleaf : leaf_text kh vh ∈ L).

Lemma climb_sound n leaves p :
  leaf_values L leaves → Forall (λ s, length s = 32%nat) p →
  smt_texts n leaves ⊆ L → climb_texts kh 0 (hash_leaf kh vh) p ⊆ L →
  climb kh 0 (hash_leaf kh vh) p = compute_smt_root n leaves → clash L ∨ (kh, hash_leaf kh vh) ∈ leaves.
Proof.
  revert leaves p. induction n as [|n IH]; intros leaves p; induction p as [|s p _] using rev_ind; intros Hv Hp Ht Hc Heq;
    rewrite ?climb_app, ?climb_step_text, ?climb_texts_app in *; destruct leaves as [|[k h] r] eqn:Hr.
  - left. right. by exists (leaf_text kh vh).
  - destruct (Hv (k, h)) as (v & Hh & Hk & Hl & Hin); [by left|]. cbn in Heq, Hh, Hk. rewrite Hh in Heq |- *.
    destruct (same_text L _ _ Hleaf Hin Heq) as [|[-> ->]%leaf_text_inj]; [by left|right; by left|done|done].
  - left. right. eexists. split; [|exact Heq]. apply Hc, elem_of_app. right. by left.
  - destruct (Hv (k, h)) as (v & Hh & Hk & Hl & Hin); [by left|]. cbn [compute_smt_root] in Heq. cbn in Hh, Hk. rewrite Hh in Heq.
    assert (step_text kh (0 + length p) (climb kh 0 (hash_leaf kh vh) p) s ∈ L) as Hs by (apply Hc, elem_of_app; right; by left).
    destruct (same_text L _ _ Hs Hin Heq) as [|He]; [by left|]. unfold step_text in He.
    destruct (bit_at _ _); by destruct (leaf_not_node _ _ _ _ (eq_sym He)).
  - left. right. by exists (leaf_text kh vh).
  - destruct (same_text L _ (node_text (compute_smt_root n (left_of (256 - S n) leaves)) (compute_smt_root n (right_of (256 - S n) leaves))) Hleaf)
      as [|He]; [apply Ht; rewrite Hr; by left|by rewrite Hr|by left|by destruct (leaf_not_node _ _ _ _ He)].
  - left. right. eexists. split; [|exact Heq]. apply Hc, elem_of_app. right. by left.
  - rewrite <- Hr in *. apply Forall_app in Hp as [Hp Hs]. rewrite Forall_singleton in Hs.
    assert (compute_smt_root (S n) leaves = hash_bytes (node_text (compute_smt_root n (left_of (256 - S n) leaves))
      (compute_smt_root n (right_of (256 - S n) leaves)))) as Hroot by by rewrite Hr.
    assert (smt_texts (S n) leaves = node_text (compute_smt_root n (left_of (256 - S n) leaves)) (compute_smt_root n (right_of (256 - S n) leaves))
      :: smt_texts n (left_of (256 - S n) leaves) ++ smt_texts n (right_of (256 - S n) leaves)) as Htexts by by rewrite Hr.
    rewrite Htexts in Ht. rewrite Hroot in Heq.
    destruct (same_text L _ _ (Hc _ ltac:(apply elem_of_app; right; by left)) (Ht _ ltac:(by left)) Heq) as [|He]; [by left|].
    apply list_subseteq_cons_l in Ht as [_ [Htl Htr]%list_subseteq_app_l]. apply list_subseteq_app_l in Hc as [Hc _].
    unfold step_text in He. pose proof (climb_length kh 0 (hash_leaf kh vh) p (digest_length _)) as Hcl.
    pose proof (root_length L n _ (leaf_values_filter L (λ l, negb (bit_at l.1 (256 - S n))) leaves Hv)) as Hll.
    pose proof (root_length L n _ (leaf_values_filter L (λ l, bit_at l.1 (256 - S n)) leaves Hv)) as Hrl.
    destruct (bit_at _ _); apply node_text_inj in He as [He1 He2]; try done.
    + destruct (IH (right_of (256 - S n) leaves) p) as [|Hin]; [by apply leaf_values_filter|done|done|done|done|by left|].
      right. by apply elem_right in Hin as [? _].
    + destruct (IH (left_of (256 - S n) leaves) p) as [|Hin]; [by apply leaf_values_filter|done|done|done|done|by left|].
      right. by apply elem_left in Hin as [? _].
Qed.
End Sound.

(** *** Roots and leaves *)

Lemma root_step n leaves :
  leaves ≠ [] →
  compute_smt_root (S n) leaves =
    hash_bytes (node_text (compute_smt_root n (left_of (256 - S n) leaves)) (compute_smt_root n (right_of (256 - S n) leaves))).
Proof. by destruct leaves as [|[]]. Qed.

Lemma texts_step n leaves :
  leaves ≠ [] →
  smt_texts (S n) leaves = node_text (compute_smt_root n (left_of (256 - S n) leaves)) (compute_smt_root n (right_of (256 - S n) leaves))
    :: smt_texts n (left_of (256 - S n) leaves) ++ smt_texts n (right_of (256 - S n) leaves).
Proof. by destruct leaves as [|[]]. Qed.

Lemma halves_perm level leaves : left_of level leaves ++ right_of level leaves ≡ₚ leaves.
Proof.
  induction leaves as [|l leaves IH]; [done|]. unfold left_of, right_of in *. cbn.
  destruct (bit_at l.1 level); cbn; [|by rewrite IH]. by rewrite <- Permutation_middle, IH.
Qed.

Lemma filter_perm {A} (f : A → bool) l1 l2 : l1 ≡ₚ l2 → List.filter f l1 ≡ₚ List.filter f l2.
Proof.
  induction 1 as [|x l1 l2 _ IH|x y l|l1 l2 l3 _ IH1 _ IH2]; cbn; [done| | |by rewrite IH1].
  - destruct (f x); [by rewrite IH|done].
  - destruct (f x), (f y); try done. apply Permutation_swap.
Qed.

Lemma same_path_perm n l1 l2 : l1 ≡ₚ l2 → same_path n l1 → same_path n l2.
Proof. intros Hp Hs k l d Hk Hl. rewrite <- Hp in Hk, Hl. by apply Hs. Qed.

Lemma leaves_ok_perm l1 l2 : l1 ≡ₚ l2 → leaves_ok l1 → leaves_ok l2.
Proof. intros Hp [Hd Hk]. split; by rewrite <- Hp. Qed.

(** The root does not depend on the order of the leaves. *)
Lemma root_perm n l1 l2 : (n ≤ 256)%nat → l1 ≡ₚ l2 → leaves_ok l1 → same_path n l1 → compute_smt_root n l1 = compute_smt_root n l2.
Proof.
  revert l1 l2. induction n as [|n IH]; intros l1 l2 Hn Hp Hok Hs; destruct l1 as [|x r] eqn:Hl1.
  - by apply Permutation_nil in Hp as ->.
  - rewrite (single_leaf (x :: r) x) in Hp |- * by (done || by left). by apply Permutation_singleton_l in Hp as ->.
  - by apply Permutation_nil in Hp as ->.
  - rewrite <- Hl1 in *. assert (l1 ≠ []) by by rewrite Hl1. assert (l2 ≠ []) by (intros ->; by apply Permutation_nil_r in Hp).
    rewrite !root_step by done. do 2 f_equal; apply IH; try lia.
    + by apply filter_perm.
    + by apply filter_ok.
    + by apply same_path_left.
    + by apply filter_perm.
    + by apply filter_ok.
    + by apply same_path_right.
Qed.

Lemma empty_root_clash L n leaves :
  leaf_values L leaves → smt_texts n leaves ⊆ L → leaves ≠ [] → compute_smt_root n leaves = SMT_EMPTY → clash L.
Proof.
  intros Hv Ht Hne He. right. destruct n as [|n].
  - destruct leaves as [|[k h] r]; [done|]. cbn in He. subst h. destruct (Hv (k, SMT_EMPTY)) as (v & Hh & _ & _ & Hin); [by left|].
    eexists. split; [exact Hin|]. exact (eq_sym Hh).
  - rewrite root_step in He by done. rewrite texts_step in Ht by done. eexists. split; [apply Ht; by left|exact He].
Qed.

(** Equal roots are roots of the same leaves. *)
Lemma roots_equal L n l1 l2 :
  (n ≤ 256)%nat → leaves_ok l1 → leaves_ok l2 → same_path n l1 → same_path n l2 → leaf_values L l1 → leaf_values L l2 →
  smt_texts n l1 ⊆ L → smt_texts n l2 ⊆ L → compute_smt_root n l1 = compute_smt_root n l2 → clash L ∨ l1 ≡ₚ l2.
Proof.
  revert l1 l2. induction n as [|n IH]; intros l1 l2 Hn Hok1 Hok2 Hs1 Hs2 Hv1 Hv2 Ht1 Ht2 Heq;
    (destruct (decide (l1 = [])) as [->|H1], (decide (l2 = [])) as [->|H2];
     [by right|left; by eapply (empty_root_clash L _ l2); [..|symmetry]|left; by eapply (empty_root_clash L _ l1)|]).
  - destruct l1 as [|[k1 h1] r1]; [done|]. destruct l2 as [|[k2 h2] r2]; [done|]. cbn in Heq. subst h2.
    rewrite (single_leaf _ (k1, h1) Hok1 Hs1), (single_leaf _ (k2, h1) Hok2 Hs2) by by left.
    destruct (Hv1 (k1, h1)) as (v1 & E1 & Hk1 & Hl1 & Hin1); [by left|]. destruct (Hv2 (k2, h1)) as (v2 & E2 & Hk2 & Hl2 & Hin2); [by left|].
    cbn in *. rewrite E1 in E2. destruct (same_text L _ _ Hin1 Hin2 E2) as [|[-> _]%leaf_text_inj]; [by left|by right|done|done].
  - rewrite !root_step in Heq by done. rewrite texts_step in Ht1, Ht2 by done.
    destruct (same_text L _ _ (Ht1 _ ltac:(by left)) (Ht2 _ ltac:(by left)) Heq) as [|He]; [by left|].
    apply node_text_inj in He as [He1 He2]; [|by eapply root_length, leaf_values_filter..].
    apply list_subseteq_cons_l in Ht1 as [_ [Ht1l Ht1r]%list_subseteq_app_l], Ht2 as [_ [Ht2l Ht2r]%list_subseteq_app_l].
    destruct (IH (left_of (256 - S n) l1) (left_of (256 - S n) l2)) as [|Hl];
      [lia|by apply filter_ok|by apply filter_ok|apply same_path_left; [done|lia]|apply same_path_left; [done|lia]
      |by apply leaf_values_filter|by apply leaf_values_filter|done|done|done|by left|].
    destruct (IH (right_of (256 - S n) l1) (right_of (256 - S n) l2)) as [|Hr];
      [lia|by apply filter_ok|by apply filter_ok|apply same_path_right; [done|lia]|apply same_path_right; [done|lia]
      |by apply leaf_values_filter|by apply leaf_values_filter|done|done|done|by left|].
    right. by rewrite <- (halves_perm (256 - S n) l1), <- (halves_perm (256 - S n) l2), Hl, Hr.
Qed.

(** *** The state behind the leaves *)

Definition state_of (pairs : list (bytes * bytes)) : gmap bytes bytes := fold_left (λ m p, <[p.1 := p.2]> m) pairs ∅.

Definition pair_texts (pairs : list (bytes * bytes)) : list bytes :=
  flat_map (λ p, [p.1; p.2; leaf_text (hash_bytes p.1) (hash_bytes p.2)]) pairs.

Definition state_texts `{HashIter} (pairs : list (bytes * bytes)) : list bytes :=
  pair_texts pairs ++ smt_texts 256 (into_iter (dedup_leaves pairs)).

Definition proof_texts (key value : bytes) (proof : list bytes) : list bytes :=
  key :: value :: leaf_text (hash_bytes key) (hash_bytes value)
  :: climb_texts (hash_bytes key) 0 (hash_leaf (hash_bytes key) (hash_bytes value)) proof.

Lemma clash_or_inj L : clash L ∨ ∀ x y, x ∈ L → y ∈ L → hash_bytes x = hash_bytes y → x = y.
Proof.
  destruct (decide (Exists (λ x, Exists (λ y, x ≠ y ∧ hash_bytes x = hash_bytes y) L) L)) as [He|Hn]; [left; left|right].
  - apply Exists_exists in He as (x & Hx & (y & Hy & Hne & Heq)%Exists_exists). by exists x, y.
  - intros x y Hx Hy Heq. destruct (decide (x = y)); [done|]. destruct Hn. apply Exists_exists. exists x. split; [done|].
    apply Exists_exists. by exists y.
Qed.

Lemma pair_texts_app p1 p2 : pair_texts (p1 ++ p2) = pair_texts p1 ++ pair_texts p2.
Proof. apply flat_map_app. Qed.

Lemma state_of_snoc pairs p : state_of (pairs ++ [p]) = <[p.1 := p.2]> (state_of pairs).
Proof. unfold state_of. by rewrite fold_left_app. Qed.
Lemma dedup_snoc pairs p :
  dedup_leaves (pairs ++ [p]) = <[hash_bytes p.1 := hash_leaf (hash_bytes p.1) (hash_bytes p.2)]> (dedup_leaves pairs).
Proof. unfold dedup_leaves. by rewrite fold_left_app. Qed.

Lemma state_of_texts pairs k v :
  state_of pairs !! k = Some v → k ∈ pair_texts pairs ∧ v ∈ pair_texts pairs ∧ leaf_text (hash_bytes k) (hash_bytes v) ∈ pair_texts pairs.
Proof.
  induction pairs as [|[a b] pairs IH] using rev_ind; [done|]. rewrite state_of_snoc, pair_texts_app. cbn.
  rewrite !elem_of_app. intros [[<- <-]|[_ (? & ? & ?)%IH]]%lookup_insert_Some; [|auto].
  split_and!; right; [left|right; left|right; right; left].
Qed.

(** The leaves are those of the pairs of the state. *)
Lemma dedup_some pairs kh h :
  dedup_leaves pairs !! kh = Some h → ∃ k v, (k, v) ∈ pairs ∧ kh = hash_bytes k ∧ h = hash_leaf kh (hash_bytes v).
Proof.
  induction pairs as [|[a b] pairs IH] using rev_ind; [done|]. rewrite dedup_snoc. cbn.
  intros [[<- <-]|[_ (k & v & Hin & -> & ->)%IH]]%lookup_insert_Some; [exists a, b|exists k, v]; (split; [|done]); apply elem_of_app;
    [right; by left|by left].
Qed.

Lemma dedup_lookup pairs L :
  (∀ x y, x ∈ L → y ∈ L → hash_bytes x = hash_bytes y → x = y) → pair_texts pairs ⊆ L → ∀ k, k ∈ L →
  dedup_leaves pairs !! hash_bytes k = (λ v, hash_leaf (hash_bytes k) (hash_bytes v)) <$> state_of pairs !! k.
Proof.
  intros Hinj. induction pairs as [|[a b] pairs IH] using rev_ind; intros Hs k Hk; [done|].
  rewrite pair_texts_app in Hs. apply list_subseteq_app_l in Hs as [Hs Hp]. apply list_subseteq_cons_l in Hp as [Ha _].
  rewrite dedup_snoc, state_of_snoc. cbn in *. destruct (decide (k = a)) as [->|Hne]; [by rewrite !lookup_insert_eq|].
  rewrite !lookup_insert_ne; [by apply IH|congruence|]. intros He. apply Hne. symmetry. by apply Hinj.
Qed.

(** A pair is in the state exactly when its leaf is in the tree. *)
Lemma dedup_state pairs L k v :
  (∀ x y, x ∈ L → y ∈ L → hash_bytes x = hash_bytes y → x = y) → pair_texts pairs ⊆ L → k ∈ L → v ∈ L → leaf_text (hash_bytes k) (hash_bytes v) ∈ L →
  dedup_leaves pairs !! hash_bytes k = Some (hash_leaf (hash_bytes k) (hash_bytes v)) ↔ state_of pairs !! k = Some v.
Proof.
  intros Hinj Hs Hk Hv Hl. rewrite (dedup_lookup pairs L) by done. split; [|by intros ->].
  intros (v' & Hv' & He)%fmap_Some. rewrite Hv'. destruct (state_of_texts pairs k v' Hv') as (_ & H1 & H2).
  apply Hinj in He; [|done|by apply Hs]. apply leaf_text_inj in He as [_ He]; [|apply digest_length..].
  f_equal. symmetry. apply Hinj; [done|by apply Hs|done].
Qed.

Lemma iter_leaves_ok `{HashIter} pairs : leaves_ok (into_iter (dedup_leaves pairs)).
Proof.
  apply (leaves_ok_perm (map_to_list (dedup_leaves pairs))); [symmetry; apply into_iter_perm|]. split; [apply NoDup_fst_map_to_list|].
  apply Forall_forall. intros [kh h] Hin%elem_of_map_to_list. apply dedup_some in Hin as (k & v & _ & -> & _). cbn.
  split; [apply digest_length|apply digest_bytes].
Qed.

Lemma iter_leaf_values `{HashIter} pairs L : pair_texts pairs ⊆ L → leaf_values L (into_iter (dedup_leaves pairs)).
Proof.
  intros Hs [kh h] Hin. rewrite into_iter_perm in Hin. apply elem_of_map_to_list, dedup_some in Hin as (k & v & Hin & -> & ->). cbn.
  exists (hash_bytes v). split_and!; [done|apply digest_length|apply digest_length|]. apply Hs. unfold pair_texts.
  apply list_elem_of_In, in_flat_map. exists (k, v). split; [by apply list_elem_of_In|]. cbn. auto.
Qed.

Lemma same_path_256 leaves : same_path 256 leaves.
Proof. intros k l d _ _ Hd. lia. Qed.

Lemma sparse_root_eq `{HashIter} pairs : sparse_merkle_root pairs = compute_smt_root 256 (into_iter (dedup_leaves pairs)).
Proof. unfold sparse_merkle_root. by destruct (into_iter _). Qed.

Lemma proof_root `{HashIter} pairs key : (sparse_merkle_proof pairs key).1 = sparse_merkle_root pairs.
Proof. rewrite sparse_root_eq. apply with_proof_root. Qed.

Lemma proof_length `{HashIter} pairs key : length (sparse_merkle_proof pairs key).2 = 256%nat.
Proof. apply with_proof_length. Qed.

Lemma with_proof_siblings L n leaves target :
  leaf_values L leaves → Forall (λ s, length s = 32%nat) (compute_smt_with_proof n leaves target).2.
Proof.
  revert leaves. induction n as [|n IH]; intros [|[k h] leaves] Hv; [apply List.Forall_nil|apply List.Forall_nil|cbn [compute_smt_with_proof snd]; apply Forall_replicate, smt_empty_length|].
  cbn -[Nat.sub left_of right_of]. set (l := (k, h) :: leaves) in *.
  specialize (IH (if bit_at target (256 - S n) then right_of (256 - S n) l else left_of (256 - S n) l)).
  assert (∀ b : bool, leaf_values L (if b then right_of (256 - S n) l else left_of (256 - S n) l)) as Hb by (intros []; by apply leaf_values_filter).
  specialize (IH (Hb _)). specialize (Hb (negb (bit_at target (256 - S n)))).
  destruct (bit_at target _); destruct (compute_smt_with_proof n _ target) as [r p]; cbn in IH |- *; apply Forall_app; split; try done;
    constructor; try done; by eapply root_length.
Qed.

Lemma proof_siblings `{HashIter} pairs key : Forall (λ s, length s = 32%nat) (sparse_merkle_proof pairs key).2.
Proof. eapply with_proof_siblings, (iter_leaf_values pairs (pair_texts pairs)). done. Qed.

(** Two traversals of the leaves give one root. *)
Lemma root_orders (I J : HashIter) pairs : @sparse_merkle_root _ I pairs = @sparse_merkle_root _ J pairs.
Proof.
  rewrite !sparse_root_eq. apply root_perm; [lia|by rewrite !into_iter_perm|apply iter_leaves_ok|apply same_path_256].
Qed.

Lemma pair_texts_key pairs k v : (k, v) ∈ pairs → k ∈ pair_texts pairs.
Proof. intros Hin. apply list_elem_of_In, in_flat_map. exists (k, v). rewrite <- list_elem_of_In. cbn. auto. Qed.

Section Equal.
Context (L : list bytes) (Hinj : ∀ x y, x ∈ L → y ∈ L → hash_bytes x = hash_bytes y → x = y).

Lemma state_transfer p q k v :
  pair_texts p ⊆ L → pair_texts q ⊆ L → dedup_leaves p = dedup_leaves q → state_of p !! k = Some v → state_of q !! k = Some v.
Proof.
  intros Hp Hq Heq Hkv. destruct (state_of_texts _ _ _ Hkv) as (Ha & Hb & Hc).
  apply (dedup_state q L); auto. rewrite <- Heq. apply (dedup_state p L); auto.
Qed.

Lemma dedup_transfer p q kh h :
  pair_texts p ⊆ L → pair_texts q ⊆ L → state_of p = state_of q → dedup_leaves p !! kh = Some h → dedup_leaves q !! kh = Some h.
Proof.
  intros Hp Hq Heq Hkh. destruct (dedup_some _ _ _ Hkh) as (k & v & Hin & -> & ->). pose proof (Hp _ (pair_texts_key _ _ _ Hin)) as Hk.
  rewrite (dedup_lookup p L) in Hkh by done. by rewrite (dedup_lookup q L), <- Heq.
Qed.

Lemma states_equal p q :
  pair_texts p ⊆ L → pair_texts q ⊆ L → dedup_leaves p = dedup_leaves q ↔ state_of p = state_of q.
Proof.
  intros Hp Hq. split; intros Heq; apply map_eq; intros k; apply option_eq; intros v; split; intros Hkv.
  - by apply (state_transfer p q).
  - by apply (state_transfer q p).
  - by apply (dedup_transfer p q).
  - by apply (dedup_transfer q p).
Qed.
End Equal.
End Tree.

#[local] Opaque compute_smt_root compute_smt_with_proof smt_texts climb climb_texts.

Section Claims.
Context `{Blake3} `{!Digest}.

(** A proof for a key of the state is as long as the tree is high and verifies
    against the root the same code computes, unless two of the hashed texts collide. *)
Lemma proof_verifies `{HashIter} pairs key value :
  state_of pairs !! key = Some value →
  clash (state_texts pairs) ∨
  (sparse_merkle_proof pairs key).1 = sparse_merkle_root pairs ∧ length (sparse_merkle_proof pairs key).2 = 256%nat ∧
  verify_sparse_merkle_proof key value (sparse_merkle_proof pairs key).2 (sparse_merkle_root pairs) = true.
Proof.
  intros Hkv. destruct (clash_or_inj (state_texts pairs)) as [|Hinj]; [by left|right].
  rewrite sparse_root_eq. unfold sparse_merkle_proof, verify_sparse_merkle_proof.
  split_and!; [apply with_proof_root|apply with_proof_length|]. apply bool_decide_eq_true.
  apply proof_leads; [lia|apply iter_leaves_ok|apply same_path_256|]. rewrite into_iter_perm. apply elem_of_map_to_list.
  destruct (state_of_texts _ _ _ Hkv) as (Ha & Hb & Hc).
  apply (dedup_state pairs (state_texts pairs)); [done|..|done]; unfold state_texts; set_unfold; auto.
Qed.

(** What verifies against a root is in the state the root was computed from, unless two
    of the texts hashed by the prover and the verifier collide. *)
Lemma proof_sound `{HashIter} pairs key value proof :
  Forall (λ s, length s = 32%nat) proof → verify_sparse_merkle_proof key value proof (sparse_merkle_root pairs) = true →
  clash (state_texts pairs ++ proof_texts key value proof) ∨ state_of pairs !! key = Some value.
Proof.
  intros Hp Hv%bool_decide_eq_true. rewrite sparse_root_eq in Hv. set (L := state_texts pairs ++ proof_texts key value proof).
  assert (state_texts pairs ⊆ L ∧ proof_texts key value proof ⊆ L) as [Hs Ht] by (split; intros x Hx; apply elem_of_app; auto).
  apply list_subseteq_app_l in Hs as [Hs1 Hs2].
  apply list_subseteq_cons_l in Ht as [Hk [Hval [Hleaf Hc]%list_subseteq_cons_l]%list_subseteq_cons_l].
  destruct (clash_or_inj L) as [|Hinj]; [by left|].
  destruct (climb_sound L (hash_bytes key) (hash_bytes value) (digest_length _) (digest_length _) Hleaf 256 (into_iter (dedup_leaves pairs)) proof)
    as [|Hin]; [by apply iter_leaf_values|done|done|done|done|by left|].
  right. rewrite into_iter_perm in Hin. apply elem_of_map_to_list in Hin. by apply (dedup_state pairs L) in Hin.
Qed.

(** Two nodes that traverse their maps in any order compute the same root exactly for
    the same state, unless two of the texts they hash collide. *)
Theorem root_binding (I1 I2 : HashIter) pairs1 pairs2 :
  clash (@state_texts _ I1 pairs1 ++ @state_texts _ I2 pairs2) ∨
  (@sparse_merkle_root _ I1 pairs1 = @sparse_merkle_root _ I2 pairs2 ↔ state_of pairs1 = state_of pairs2).
Proof.
  set (L := _ ++ _). destruct (clash_or_inj L) as [|Hinj]; [by left|]. rewrite !sparse_root_eq.
  assert (L ⊆ L) as [[H1 T1]%list_subseteq_app_l [H2 T2]%list_subseteq_app_l]%list_subseteq_app_l by done.
  rewrite <- (states_equal L Hinj pairs1 pairs2 H1 H2).
  destruct (decide (dedup_leaves pairs1 = dedup_leaves pairs2)) as [Heq|Hne].
  - right. split; [done|]. intros _. apply root_perm; [lia| |apply iter_leaves_ok|apply same_path_256]. by rewrite !into_iter_perm, Heq.
  - destruct (decide (compute_smt_root 256 (@into_iter I1 _ (dedup_leaves pairs1)) = compute_smt_root 256 (@into_iter I2 _ (dedup_leaves pairs2)))) as [Hr|];
      [|by right].
    destruct (roots_equal L 256 _ _ (le_n _) (@iter_leaves_ok _ _ I1 pairs1) (@iter_leaves_ok _ _ I2 pairs2) (same_path_256 _) (same_path_256 _)
      (@iter_leaf_values _ _ I1 pairs1 L H1) (@iter_leaf_values _ _ I2 pairs2 L H2) T1 T2 Hr) as [|Hperm]; [by left|].
    destruct Hne. apply map_to_list_inj. 
    by rewrite <- (@into_iter_perm I1 _ (dedup_leaves pairs1)), <- (@into_iter_perm I2 _ (dedup_leaves pairs2)).
Qed.
End Claims.
End Merkle.
