(* ===== verification/StateStore.v ===== *)
(** * src/storage/state_store.rs: the state of programs and its roots

    The scoped state of src/storage/state_store.rs over sled as a parameter; the roots
    that src/wasm_runtime/runtime.rs announces, that src/wasm_runtime/host_apis.rs gives to
    programs and that src/consensus/core/network_handlers.rs and execution.rs check; and
    the answer of src/rpc/mod.rs to a request for a proof.  A [HashMap] is traversed in an
    order of its own, so every function takes one [HashIter] for each that it traverses. *)

From stdpp Require Import sorting.
From S2P Require Import Prelude JsValue Codec RustLib WasmHost RustModels Merkle.

Module Store.
Import Rust Host Merkle.

(** ** sled

    A tree is a map in the order of its keys.  Any operation may fail. *)

Fixpoint insert_entry {A} (e : bytes * A) (l : list (bytes * A)) : list (bytes * A) :=
  match l with
  | [] => [e]
  | x :: r => if str_leb e.1 x.1 then e :: l else x :: insert_entry e r
  end.
Definition sort_entries {A} (l : list (bytes * A)) : list (bytes * A) := foldr insert_entry [] l.

Definition with_prefix {A} (ns : bytes) (m : gmap bytes A) : list (bytes * A) :=
  sort_entries (List.filter (λ e, starts_with ns e.1) (map_to_list m)).

Class Sled : Type := {
  tree : Type;
  entries : tree → gmap bytes bytes;
  open_tree : M rstr tree unit;
  tree_get : bytes → M rstr tree (option bytes);
  tree_insert : bytes → bytes → M rstr tree unit;
  tree_remove : bytes → M rstr tree unit;
  tree_flush : M rstr tree unit;
  scan_prefix : bytes → M rstr tree (list (outcome rstr (bytes * bytes)));
  open_keeps : ∀ t, entries (open_tree t).2 = entries t;
  flush_keeps : ∀ t, entries (tree_flush t).2 = entries t;
  get_keeps : ∀ k t, entries (tree_get k t).2 = entries t;
  get_content : ∀ k t o, (tree_get k t).1 = Ok o → o = entries t !! k;
  insert_content : ∀ k v t, (tree_insert k v t).1 = Ok tt → entries (tree_insert k v t).2 = <[k := v]> (entries t);
  remove_content : ∀ k t, (tree_remove k t).1 = Ok tt → entries (tree_remove k t).2 = delete k (entries t);
  scan_keeps : ∀ p t, entries (scan_prefix p t).2 = entries t;
  scan_content : ∀ p t es, (scan_prefix p t).1 = Ok (map Ok es) → es = with_prefix p (entries t);
}.

(** ** The operations *)

Definition prefixed (ns key : bytes) : bytes := ns ++ key.

Section Operations.
Context `{Blake3} `{Sled}.

Definition get_scoped (ns key : bytes) : M rstr tree (option bytes) :=
  do* open_tree in tree_get (prefixed ns key).

Definition set_scoped (ns key value : bytes) : M rstr tree unit :=
  do* open_tree in do* tree_insert (prefixed ns key) value in tree_flush.

Definition delete_scoped (ns key : bytes) : M rstr tree unit :=
  do* open_tree in do* tree_remove (prefixed ns key) in tree_flush.

(** The loop over the entries; the namespace is dropped from the keys. *)
Fixpoint strip_entries (ns : bytes) (es : list (outcome rstr (bytes * bytes))) : outcome rstr (list (bytes * bytes)) :=
  match es with
  | [] => Ok []
  | e :: r => let! kv := e in let! rest := strip_entries ns r in Ok ((drop (length ns) kv.1, kv.2) :: rest)
  end.

Definition get_all_scoped (ns : bytes) : M rstr tree (list (bytes * bytes)) :=
  do* open_tree in let* es := scan_prefix ns in liftM (strip_entries ns es).

Definition root_scoped (ns : bytes) : M rstr tree (option bytes) :=
  let* pairs := get_all_scoped ns in retM (merkle_root pairs).

Definition sparse_root_scoped (I : HashIter) (ns : bytes) : M rstr tree bytes :=
  let* pairs := get_all_scoped ns in retM (sparse_merkle_root pairs).

Definition prove_scoped (I : HashIter) (ns key : bytes) : M rstr tree (bytes * list bytes) :=
  let* pairs := get_all_scoped ns in retM (sparse_merkle_proof pairs key).

(** ** Roots after writes *)

(** The pairs with writes applied, as the node merges them in a [HashMap]. *)
Definition merged_root (I J : HashIter) (pairs : list (bytes * bytes)) (writes : list (bytes * option bytes)) : bytes :=
  @sparse_merkle_root _ J (@into_iter I _ (apply_state_writes writes (state_of pairs))).

(** network_handlers.rs. *)
Definition compute_root_after_writes (I J : HashIter) (program_id : bytes) (writes : list (bytes * option bytes)) : M rstr tree bytes :=
  let* pairs := get_all_scoped program_id in retM (merged_root I J pairs writes).

(** runtime.rs, at the end of an execution: the writes in the order of their keys and
    the root after them. *)
Definition outcome_writes (I : HashIter) (pending : gmap bytes (option bytes)) : list (bytes * option bytes) :=
  sort_entries (into_iter pending).

Definition execution_outcome (W I J : HashIter) (program_id : bytes) (pending : gmap bytes (option bytes)) :
    M rstr tree (list (bytes * option bytes) * bytes) :=
  let writes := outcome_writes W pending in
  let* pairs := get_all_scoped program_id in retM (writes, merged_root I J pairs writes).

(** host_apis.rs; the outcome is the code and what is written. *)
Definition onvm_state_root (W I J : HashIter) (program_id : bytes) (pending : gmap bytes (option bytes)) (t : tree) : written * tree :=
  match get_all_scoped program_id t with
  | (Ok pairs, t') => ((0, merged_root I J pairs (@into_iter W _ pending)), t')
  | (Throw _, t') => ((-2, []), t')
  end.

(** execution.rs. *)
Fixpoint commit_writes (program_id : bytes) (writes : list (bytes * option bytes)) : M rstr tree unit :=
  match writes with
  | [] => retM tt
  | (key, Some value) :: rest => do* set_scoped program_id key value in commit_writes program_id rest
  | (key, None) :: rest => do* delete_scoped program_id key in commit_writes program_id rest
  end.
End Operations.

(** ** The state of a program *)

Definition scoped_pairs (ns : bytes) (m : gmap bytes bytes) : list (bytes * bytes) :=
  map (λ kv, (drop (length ns) kv.1, kv.2)) (with_prefix ns m).

Definition scope (ns : bytes) (m : gmap bytes bytes) : gmap bytes bytes := state_of (scoped_pairs ns m).

Lemma starts_with_drop ns k : starts_with ns k = true → k = ns ++ drop (length ns) k.
Proof.
  revert k. induction ns as [|c ns IH]; intros [|d k]; cbn; try done. rewrite andb_true_iff, Z.eqb_eq. intros [-> Hs]. by rewrite <- IH.
Qed.

Lemma insert_entry_perm {A} (e : bytes * A) l : insert_entry e l ≡ₚ e :: l.
Proof. induction l as [|x l IH]; cbn; [done|]. case_match; [done|]. rewrite IH. apply Permutation_swap. Qed.
Lemma sort_entries_perm {A} (l : list (bytes * A)) : sort_entries l ≡ₚ l.
Proof. induction l as [|x l IH]; cbn; [done|]. by rewrite insert_entry_perm, IH. Qed.

Lemma insert_entry_sorted {A} (e : bytes * A) l :
  StronglySorted (λ a b, str_le a.1 b.1) l → StronglySorted (λ a b, str_le a.1 b.1) (insert_entry e l).
Proof.
  induction 1 as [|x l Hl IH Hx]; cbn; [by repeat constructor|]. destruct (str_leb e.1 x.1) eqn:Hle.
  - constructor; [by constructor|]. constructor; [done|]. eapply Forall_impl; [exact Hx|]. intros y Hy. by apply str_le_trans with x.1.
  - constructor; [done|]. rewrite insert_entry_perm. constructor; [by apply str_leb_total|done].
Qed.
Lemma sort_entries_sorted {A} (l : list (bytes * A)) : StronglySorted (λ a b, str_le a.1 b.1) (sort_entries l).
Proof. induction l; cbn; [constructor|by apply insert_entry_sorted]. Qed.

Lemma sorted_entries_unique {A} (l1 l2 : list (bytes * A)) :
  StronglySorted (λ a b, str_le a.1 b.1) l1 → StronglySorted (λ a b, str_le a.1 b.1) l2 → NoDup l1.*1 → l1 ≡ₚ l2 → l1 = l2.
Proof.
  intros Hs1 Hs2 Hd Hp. apply (StronglySorted_unique_strong (λ a b, str_le a.1 b.1)); [|done..].
  intros [k1 v1] [k2 v2] H1 H2 Hle1 Hle2. cbn in *. assert (k1 = k2) as -> by by apply (str_le_antisymm k1 k2).
  rewrite <- Hp in H2. f_equal. apply list_elem_of_lookup in H1 as [i Hi], H2 as [j Hj].
  assert (i = j) as ->; [|congruence]. eapply NoDup_lookup; [exact Hd| |]; rewrite list_lookup_fmap; [by rewrite Hi|by rewrite Hj].
Qed.

Lemma state_of_elem pairs k v : NoDup pairs.*1 → state_of pairs !! k = Some v ↔ (k, v) ∈ pairs.
Proof.
  induction pairs as [|[a b] pairs IH] using rev_ind; intros Hd; [cbn; rewrite elem_of_nil; done|].
  rewrite fmap_app, NoDup_app in Hd. destruct Hd as (Hd & Hn & _). rewrite state_of_snoc, elem_of_app, list_elem_of_singleton. cbn in *.
  rewrite lookup_insert_Some, IH by done. split; [intros [[-> ->]|[? ?]]; auto|].
  intros [Hin|[= -> ->]]; [right|by left]. split; [|done]. intros ->. apply (Hn k); [|by left]. apply list_elem_of_fmap. by exists (k, v).
Qed.

Lemma state_of_perm pairs1 pairs2 : NoDup pairs1.*1 → pairs1 ≡ₚ pairs2 → state_of pairs1 = state_of pairs2.
Proof.
  intros Hd Hp. apply map_eq. intros k. apply option_eq. intros v. rewrite !state_of_elem by (done || by rewrite <- Hp). by rewrite Hp.
Qed.

Lemma state_of_map (m : gmap bytes bytes) : state_of (map_to_list m) = m.
Proof.
  apply map_eq. intros k. apply option_eq. intros v. rewrite state_of_elem by apply NoDup_fst_map_to_list. apply elem_of_map_to_list.
Qed.

Lemma elem_with_prefix {A} (ns : bytes) (m : gmap bytes A) (k : bytes) (v : A) : (k, v) ∈ with_prefix ns m ↔ m !! k = Some v ∧ starts_with ns k = true.
Proof.
  unfold with_prefix. by rewrite sort_entries_perm, list_elem_of_In, List.filter_In, <- list_elem_of_In, elem_of_map_to_list.
Qed.

Lemma elem_scoped ns m k v : (k, v) ∈ scoped_pairs ns m ↔ m !! (ns ++ k) = Some v.
Proof.
  unfold scoped_pairs. rewrite list_elem_of_fmap. split.
  - intros ([q w] & [= -> ->] & [Hl Hs]%elem_with_prefix). cbn in *. by rewrite <- starts_with_drop.
  - intros Hl. exists (ns ++ k, v). cbn. rewrite drop_app_length. split; [done|]. apply elem_with_prefix. split; [done|apply starts_with_app].
Qed.

Lemma with_prefix_nodup {A} (ns : bytes) (m : gmap bytes A) : NoDup (with_prefix ns m).*1.
Proof.
  unfold with_prefix. rewrite sort_entries_perm. generalize (NoDup_fst_map_to_list m). generalize (map_to_list m). intros l Hl.
  induction l as [|x l IH]; [done|]. cbn in *. apply NoDup_cons in Hl as [Hx Hl]. case_match; [|by apply IH]. cbn. constructor; [|by apply IH].
  contradict Hx. apply list_elem_of_fmap in Hx as (y & -> & Hy). apply list_elem_of_In, List.filter_In in Hy as [Hy _].
  apply list_elem_of_fmap. exists y. by rewrite list_elem_of_In.
Qed.

Lemma scoped_nodup ns m : NoDup (scoped_pairs ns m).*1.
Proof.
  unfold scoped_pairs. rewrite <- list_fmap_compose. pose proof (with_prefix_nodup ns m) as Hd.
  assert (∀ e, e ∈ with_prefix ns m → e.1 = ns ++ drop (length ns) e.1) as Hs.
  { intros [k v] [_ He]%elem_with_prefix. by apply starts_with_drop. }
  change (NoDup ((λ k, drop (length ns) k) ∘ fst <$> with_prefix ns m)). rewrite list_fmap_compose. apply NoDup_fmap_2_strong; [|done].
  intros x y [a [-> Ha]]%list_elem_of_fmap [b [-> Hb]]%list_elem_of_fmap Heq. rewrite (Hs a Ha), (Hs b Hb). by rewrite Heq.
Qed.

Lemma scope_lookup ns m k : scope ns m !! k = m !! (ns ++ k).
Proof. apply option_eq. intros v. unfold scope. rewrite state_of_elem by apply scoped_nodup. apply elem_scoped. Qed.

(** The state determines the list that is hashed. *)
Lemma scoped_pairs_eq ns m1 m2 : scope ns m1 = scope ns m2 → scoped_pairs ns m1 = scoped_pairs ns m2.
Proof.
  intros Heq. unfold scoped_pairs. f_equal. apply sorted_entries_unique; [apply sort_entries_sorted..|apply with_prefix_nodup|].
  apply NoDup_Permutation; [eapply NoDup_fmap_1, with_prefix_nodup..|]. intros [k v]. rewrite !elem_with_prefix.
  split; intros [Hk Hs]; (split; [|done]); apply starts_with_drop in Hs; rewrite Hs, <- scope_lookup in Hk |- *; congruence.
Qed.

Lemma scope_insert ns m k v : scope ns (<[ns ++ k := v]> m) = <[k := v]> (scope ns m).
Proof.
  apply map_eq. intros q. rewrite scope_lookup. destruct (decide (q = k)) as [->|Hne]; [by rewrite !lookup_insert_eq|].
  rewrite !lookup_insert_ne, scope_lookup; [done|done|]. by intros ?%(inj (app ns)).
Qed.
Lemma scope_delete ns m k : scope ns (delete (ns ++ k) m) = delete k (scope ns m).
Proof.
  apply map_eq. intros q. rewrite scope_lookup. destruct (decide (q = k)) as [->|Hne]; [by rewrite !lookup_delete_eq|].
  rewrite !lookup_delete_ne, scope_lookup; [done|done|]. by intros ?%(inj (app ns)).
Qed.

(** Identifiers of one length do not overlap. *)
Lemma scope_apart ns1 ns2 m k v :
  length ns1 = length ns2 → ns1 ≠ ns2 →
  scope ns2 (<[ns1 ++ k := v]> m) = scope ns2 m ∧ scope ns2 (delete (ns1 ++ k) m) = scope ns2 m.
Proof.
  intros Hl Hne. split; apply map_eq; intros q; rewrite !scope_lookup; [rewrite lookup_insert_ne|rewrite lookup_delete_ne]; try done;
    (intros He; apply app_inj_1 in He; [|done]; by destruct He).
Qed.

(** ** What the operations do to it *)

#[local] Opaque compute_smt_root compute_smt_with_proof sparse_merkle_root sparse_merkle_proof.

Section Specs.
Context `{Blake3} `{Sled}.

(** What an operation that succeeds leaves of the content. *)
Definition leaves_content {A} (c : M rstr tree A) (f : gmap bytes bytes → A → gmap bytes bytes → Prop) : Prop :=
  ∀ t a, (c t).1 = Ok a → f (entries t) a (entries (c t).2).

Lemma get_all_spec ns : leaves_content (get_all_scoped ns) (λ m pairs m', pairs = scoped_pairs ns m ∧ m' = m).
Proof.
  intros t pairs. unfold get_all_scoped, bindM. pose proof (open_keeps t) as Ho. destruct (open_tree t) as [[[]|e] t1]; [|done].
  pose proof (scan_keeps ns t1) as Hk. pose proof (scan_content ns t1) as Hs. destruct (scan_prefix ns t1) as [[es|e] t2]; [|done].
  cbn in *. intros Hp. split; [|by rewrite Hk, Ho]. rewrite <- Ho.
  assert (∃ l, es = map Ok l ∧ pairs = map (λ kv, (drop (length ns) kv.1, kv.2)) l) as (l & -> & ->).
  { clear Hk Hs. revert pairs Hp. induction es as [|[e|] es IH]; intros pairs Hp; cbn in Hp; [injection Hp as <-; by exists []| |done].
    destruct (strip_entries ns es) as [rest|]; [|done]. injection Hp as <-. destruct (IH rest eq_refl) as (l & -> & ->). by exists (e :: l). }
  unfold scoped_pairs. by rewrite (Hs l eq_refl).
Qed.

Lemma get_spec ns k : leaves_content (get_scoped ns k) (λ m o m', o = scope ns m !! k ∧ m' = m).
Proof.
  intros t o. unfold get_scoped, bindM. pose proof (open_keeps t) as Ho. destruct (open_tree t) as [[[]|e] t1]; [|done]. cbn in Ho.
  intros Hg. rewrite scope_lookup, <- Ho. split; [by apply get_content|apply get_keeps].
Qed.

Lemma set_spec ns k v : leaves_content (set_scoped ns k v) (λ m _ m', m' = <[ns ++ k := v]> m).
Proof.
  intros t []. unfold set_scoped, bindM. pose proof (open_keeps t) as Ho. destruct (open_tree t) as [[[]|e] t1]; [|done]. cbn in Ho.
  pose proof (insert_content (prefixed ns k) v t1) as Hi. destruct (tree_insert _ _ t1) as [[[]|e] t2]; [|done]. cbn in *. intros _.
  by rewrite flush_keeps, Hi, Ho.
Qed.
Lemma delete_spec ns k : leaves_content (delete_scoped ns k) (λ m _ m', m' = delete (ns ++ k) m).
Proof.
  intros t []. unfold delete_scoped, bindM. pose proof (open_keeps t) as Ho. destruct (open_tree t) as [[[]|e] t1]; [|done]. cbn in Ho.
  pose proof (remove_content (prefixed ns k) t1) as Hi. destruct (tree_remove _ t1) as [[[]|e] t2]; [|done]. cbn in *. intros _.
  by rewrite flush_keeps, Hi, Ho.
Qed.

Lemma commit_spec ns writes :
  leaves_content (commit_writes ns writes) (λ m _ m',
    scope ns m' = apply_state_writes writes (scope ns m) ∧ ∀ ns2, length ns = length ns2 → ns ≠ ns2 → scope ns2 m' = scope ns2 m).
Proof.
  induction writes as [|[k [v|]] writes IH]; intros t []; [done|..]; cbn [commit_writes]; unfold bindM.
  - pose proof (set_spec ns k v t tt) as Hs. destruct (set_scoped ns k v t) as [[[]|e] t1]; [|done]. specialize (Hs eq_refl). cbn in Hs. intros Hc.
    destruct (IH t1 tt Hc) as [H1 H2]. rewrite H1, Hs, scope_insert. split; [done|]. intros ns2 Hl Hne.
    rewrite H2, Hs by done. by apply scope_apart.
  - pose proof (delete_spec ns k t tt) as Hs. destruct (delete_scoped ns k t) as [[[]|e] t1]; [|done]. specialize (Hs eq_refl). cbn in Hs. intros Hc.
    destruct (IH t1 tt Hc) as [H1 H2]. rewrite H1, Hs, scope_delete. split; [done|]. intros ns2 Hl Hne.
    rewrite H2, Hs by done. by apply (scope_apart ns ns2 _ k []).
Qed.

(** Reading the store does not fail. *)
Record reads_ok : Prop := {
  open_ok : ∀ t, (open_tree t).1 = Ok tt;
  get_ok : ∀ k t, ∃ o, (tree_get k t).1 = Ok o;
  scan_ok : ∀ p t, ∃ es, (scan_prefix p t).1 = Ok (map Ok es);
}.

(** Nor does writing it. *)
Record writes_ok : Prop := {
  insert_ok : ∀ k v t, (tree_insert k v t).1 = Ok tt;
  remove_ok : ∀ k t, (tree_remove k t).1 = Ok tt;
  flush_ok : ∀ t, (tree_flush t).1 = Ok tt;
}.

Lemma get_scoped_ok ns k t : reads_ok → ∃ o, (get_scoped ns k t).1 = Ok o.
Proof.
  intros Hw. unfold get_scoped, bindM. pose proof (open_ok Hw t) as Ho. destruct (open_tree t) as [[[]|] t1]; [|done]. apply (get_ok Hw).
Qed.
Lemma get_all_ok ns t : reads_ok → ∃ ps, (get_all_scoped ns t).1 = Ok ps.
Proof.
  intros Hw. unfold get_all_scoped, bindM. pose proof (open_ok Hw t) as Ho. destruct (open_tree t) as [[[]|] t1]; [|done].
  destruct (scan_ok Hw ns t1) as [es He]. destruct (scan_prefix ns t1) as [o t2]. cbn in He. subst o. cbn.
  exists (map (λ kv, (drop (length ns) kv.1, kv.2)) es). induction es as [|e es IH]; [done|]. cbn. by rewrite IH.
Qed.
Lemma bind_ret_ok {A B} (c : M rstr tree A) (g : A → B) t a :
  (c t).1 = Ok a → (bindM c (λ x, retM (g x)) t).1 = Ok (g a).
Proof. unfold bindM. by destruct (c t) as [[x|] t']; intros [= <-]. Qed.

Lemma commit_ok ns writes t : reads_ok → writes_ok → (commit_writes ns writes t).1 = Ok tt.
Proof.
  intros Hr Hw. revert t. induction writes as [|[k [v|]] writes IH]; intros t; [done|..]; cbn [commit_writes];
    unfold set_scoped, delete_scoped, bindM; pose proof (open_ok Hr t) as Ho; destruct (open_tree t) as [[[]|] t1]; try done.
  - pose proof (insert_ok Hw (prefixed ns k) v t1) as Hi. destruct (tree_insert _ _ t1) as [[[]|] t2]; [|done].
    pose proof (flush_ok Hw t2) as Hf. destruct (tree_flush t2) as [[[]|] t3]; [apply IH|done].
  - pose proof (remove_ok Hw (prefixed ns k) t1) as Hi. destruct (tree_remove _ t1) as [[[]|] t2]; [|done].
    pose proof (flush_ok Hw t2) as Hf. destruct (tree_flush t2) as [[[]|] t3]; [apply IH|done].
Qed.

(** *** Roots *)

(** The root of a state. *)
Definition state_root (m : gmap bytes bytes) : bytes := compute_smt_root 256 (map_to_list (dedup_leaves (map_to_list m))).

Context `{!Digest}.

Lemma root_spec (I : HashIter) pairs m :
  NoDup pairs.*1 → state_of pairs = m → clash (pair_texts (map_to_list m)) ∨ sparse_merkle_root pairs = state_root m.
Proof.
  intros Hd <-. set (m := state_of pairs). destruct (clash_or_inj (pair_texts (map_to_list m))) as [|Hinj]; [by left|right].
  assert (pairs ≡ₚ map_to_list m) as Hp.
  { apply NoDup_Permutation; [by eapply NoDup_fmap_1|apply NoDup_map_to_list|]. intros [k v]. rewrite elem_of_map_to_list. symmetry. by apply state_of_elem. }
  assert (pair_texts pairs ⊆ pair_texts (map_to_list m)) as Ht.
  { intros x. unfold pair_texts. rewrite !list_elem_of_In, !in_flat_map. intros (y & Hy & Hx). exists y. split; [|done].
    by rewrite <- list_elem_of_In, <- Hp, list_elem_of_In. }
  rewrite sparse_root_eq. unfold state_root. apply root_perm; [done| |apply iter_leaves_ok|apply same_path_256]. rewrite into_iter_perm.
  erewrite (proj2 (states_equal _ Hinj pairs (map_to_list m) Ht (reflexivity _))); [done|]. symmetry. apply state_of_map.
Qed.

Lemma merged_spec (I J : HashIter) ns m writes :
  clash (pair_texts (map_to_list (apply_state_writes writes (scope ns m)))) ∨
  merged_root I J (scoped_pairs ns m) writes = state_root (apply_state_writes writes (scope ns m)).
Proof.
  apply root_spec; [rewrite into_iter_perm; apply NoDup_fst_map_to_list|].
  rewrite (state_of_perm _ (map_to_list (apply_state_writes writes (scope ns m)))); [apply state_of_map| |apply into_iter_perm].
  rewrite into_iter_perm. apply NoDup_fst_map_to_list.
Qed.

Lemma sparse_reads (I : HashIter) ns :
  leaves_content (sparse_root_scoped I ns) (λ m r m', r = sparse_merkle_root (scoped_pairs ns m) ∧ m' = m).
Proof.
  intros t r. unfold sparse_root_scoped, bindM. pose proof (get_all_spec ns t) as Hg. destruct (get_all_scoped ns t) as [[ps|e] t1]; [|done].
  intros [= <-]. by destruct (Hg ps eq_refl) as [-> Hm].
Qed.

Lemma sparse_root_spec (I : HashIter) ns :
  leaves_content (sparse_root_scoped I ns) (λ m r m', m' = m ∧ (clash (pair_texts (map_to_list (scope ns m))) ∨ r = state_root (scope ns m))).
Proof.
  intros t r Hr. destruct (sparse_reads I ns t r Hr) as [-> Hm]. split; [done|]. apply root_spec; [apply scoped_nodup|done].
Qed.

Lemma outcome_writes_apply (W : HashIter) pending m :
  apply_state_writes (outcome_writes W pending) m = apply_state_writes (map_to_list pending) m.
Proof.
  assert (outcome_writes W pending ≡ₚ map_to_list pending) as Hp by (unfold outcome_writes; by rewrite sort_entries_perm, into_iter_perm).
  assert (NoDup (outcome_writes W pending).*1) by (rewrite Hp; apply NoDup_fst_map_to_list).
  apply map_eq. intros k. rewrite !apply_writes_lookup by (done || apply NoDup_fst_map_to_list). by erewrite list_to_map_proper.
Qed.

(** C12 Where the store does not fail, the root an execution announces is the one another
    node computes from its writes on the same state, in whatever order their maps are
    traversed, and the one it reads after it has committed the writes, unless hashed
    texts collide; the writes take effect and no other program's state changes. *)
Theorem announced_root (W I J I' J' K : HashIter) pid pending t t2 :
  reads_ok → writes_ok → scope pid (entries t2) = scope pid (entries t) →
  ∃ writes root root' root'' t1 t2' t3 t4,
    execution_outcome W I J pid pending t = (Ok (writes, root), t1) ∧
    compute_root_after_writes I' J' pid writes t2 = (Ok root', t2') ∧
    commit_writes pid writes t2' = (Ok tt, t3) ∧ sparse_root_scoped K pid t3 = (Ok root'', t4) ∧
    scope pid (entries t3) = apply_state_writes (map_to_list pending) (scope pid (entries t)) ∧
    (∀ ns, length ns = length pid → ns ≠ pid → scope ns (entries t3) = scope ns (entries t2)) ∧
    (clash (pair_texts (map_to_list (scope pid (entries t3)))) ∨ root = root' ∧ root' = root'').
Proof.
  intros Hr Hw Hsc. unfold execution_outcome, compute_root_after_writes, bindM. set (writes := outcome_writes W pending).
  destruct (get_all_ok pid t Hr) as [ps Hps]. destruct (get_all_spec pid t ps Hps) as [-> _].
  destruct (get_all_ok pid t2 Hr) as [ps2 Hps2]. destruct (get_all_spec pid t2 ps2 Hps2) as [-> Hm2].
  destruct (get_all_scoped pid t) as [o t1], (get_all_scoped pid t2) as [o2 t2']. cbn in Hps, Hps2, Hm2. subst o o2.
  pose proof (commit_ok pid writes t2' Hr Hw) as Hc. destruct (commit_spec pid writes t2' tt Hc) as [Hs3 Ho3].
  destruct (commit_writes pid writes t2') as [o t3] eqn:Hcw. cbn in Hc, Hs3, Ho3. subst o. rewrite Hm2 in Hs3, Ho3.
  destruct (get_all_ok pid t3 Hr) as [ps3 Hps3].
  pose proof (bind_ret_ok (get_all_scoped pid) (@sparse_merkle_root _ K) t3 _ Hps3) as Hr3. destruct (sparse_root_spec K pid t3 _ Hr3) as [_ Hroot].
  destruct (sparse_root_scoped K pid t3) as [o t4] eqn:Hsr. unfold sparse_root_scoped in Hsr. rewrite Hsr in Hr3. cbn in Hr3. subst o.
  do 8 eexists. split_and!; [done|done|exact Hcw|done|by rewrite Hs3, Hsc; apply outcome_writes_apply|intros ns Hl Hne; by apply Ho3|].
  destruct Hroot as [| ->]; [by left|]. rewrite Hs3. destruct (merged_spec I' J' pid (entries t2) writes) as [| ->]; [by left|].
  rewrite Hsc. destruct (merged_spec I J pid (entries t) writes) as [| ->]; [by left|by right].
Qed.

(** The root a program is given while it runs is the one announced at its end. *)
Lemma host_root (W I J : HashIter) pid pending t root t' :
  onvm_state_root W I J pid pending t = ((0, root), t') →
  clash (pair_texts (map_to_list (apply_state_writes (map_to_list pending) (scope pid (entries t))))) ∨
  root = state_root (apply_state_writes (map_to_list pending) (scope pid (entries t))).
Proof.
  unfold onvm_state_root. pose proof (get_all_spec pid t) as Hg. destruct (get_all_scoped pid t) as [[ps|e] t0]; [|done].
  destruct (Hg ps eq_refl) as [-> _]. intros [= <- _].
  assert (apply_state_writes (@into_iter W _ pending) (scope pid (entries t)) = apply_state_writes (map_to_list pending) (scope pid (entries t))) as <-.
  { apply map_eq. intros k. rewrite !apply_writes_lookup by (rewrite ?into_iter_perm; apply NoDup_fst_map_to_list).
    erewrite list_to_map_proper; [done| |apply into_iter_perm]. rewrite into_iter_perm. apply NoDup_fst_map_to_list. }
  apply merged_spec.
Qed.
End Specs.

(** ** src/rpc/mod.rs: [program_state_root] *)

(** types.rs. *)
Definition parse_program_id_str (input : rstr) : option bytes :=
  match parse_prefixed_hex_id input with
  | Some (Some PrefixBlob, _) | None => None
  | Some (_, bs) => Some bs
  end.

(** The text of a refused request is dropped. *)
Inductive RpcError : Type :=
| BadRequest
| InternalError (message : rstr)
| RootMismatch.

Record StateRootResponse : Type := {
  program_id : rstr;
  root : rstr;
  proof : option (list rstr);
  value_hex : option rstr;
}.

Section Rpc.
Context `{Blake3} `{Sled}.

Definition internal {A} (c : M rstr tree A) : M RpcError tree A :=
  λ t, match c t with (Ok a, t') => (Ok a, t') | (Throw e, t') => (Throw (InternalError e), t') end.
Definition or_bad_request {A} (o : option A) : M RpcError tree A :=
  match o with Some a => retM a | None => throwM BadRequest end.

(** [others n] is what the other tasks of the node do to the store before the [n]-th
    read, which do not exclude each other. *)
Definition program_state_root (I J : HashIter) (others : nat → tree → tree) (id_hex : rstr) (key : option rstr) :
    M RpcError tree StateRootResponse :=
  let* pid := or_bad_request (parse_program_id_str id_hex) in
  do* modifyM (others 0%nat) in
  let* r := internal (sparse_root_scoped I pid) in
  let* answer :=
    match key with
    | Some key_hex =>
        let* key_bytes := or_bad_request (hex_strict key_hex) in
        do* modifyM (others 1%nat) in
        let* computed := internal (prove_scoped J pid key_bytes) in
        do* modifyM (others 2%nat) in
        let* value := internal (get_scoped pid key_bytes) in
        if bool_decide (computed.1 = r) then retM (Some (map hex_encode computed.2), hex_encode <$> value) else throwM RootMismatch
    | None => retM (None, None)
    end in
  retM {| program_id := PROGRAM_ID_PREFIX ++ hex_encode pid; root := hex_encode r; proof := answer.1; value_hex := answer.2 |}.

Context `{!Digest}.

Lemma prove_spec (I : HashIter) ns key :
  leaves_content (prove_scoped I ns key) (λ m p m', p = sparse_merkle_proof (scoped_pairs ns m) key ∧ m' = m).
Proof.
  intros t p. unfold prove_scoped, bindM. pose proof (get_all_spec ns t) as Hg. destruct (get_all_scoped ns t) as [[ps|e] t1]; [|done].
  intros [= <-]. by destruct (Hg ps eq_refl) as [-> Hm].
Qed.

(** A request ends with an answer that satisfies [Q], or fails for a reason [F]. *)
Definition answers {A} (F : RpcError → Prop) (c : M RpcError tree A) (t : tree) (Q : A → tree → Prop) : Prop :=
  match c t with (Ok a, t') => Q a t' | (Throw e, _) => F e end.

(** The failures there are: a malformed request, a failed read, or a state that has [moved]
    between the first two reads. *)
Definition expected_failure (id key_hex : rstr) (moved : bytes → Prop) (e : RpcError) : Prop :=
  match e with
  | BadRequest => parse_program_id_str id = None ∨ hex_strict key_hex = None
  | InternalError _ => ¬ reads_ok
  | RootMismatch => ∃ pid, parse_program_id_str id = Some pid ∧ moved pid
  end.

Lemma answers_bind {A B} F (c : M RpcError tree A) (k : A → M RpcError tree B) t Q :
  answers F c t (λ a t', answers F (k a) t' Q) → answers F (bindM c k) t Q.
Proof. unfold answers, bindM. by destruct (c t) as [[a|e] t']. Qed.

Lemma answers_internal {A} id key_hex moved (c : M rstr tree A) f t (Q : A → tree → Prop) :
  leaves_content c f → (reads_ok → ∃ a, (c t).1 = Ok a) → (∀ a t', f (entries t) a (entries t') → Q a t') →
  answers (expected_failure id key_hex moved) (internal c) t Q.
Proof.
  intros Hc Hok HQ. specialize (Hc t). unfold answers, internal. destruct (c t) as [[a|e] t']; [apply HQ; by apply Hc|].
  cbn. intros Hw. by destruct (Hok Hw) as [a [=]].
Qed.

Lemma answers_bad {A} (F : RpcError → Prop) (o : option A) t (Q : A → tree → Prop) :
  (o = None → F BadRequest) → (∀ a, o = Some a → Q a t) → answers F (or_bad_request o) t Q.
Proof. intros HF HQ. destruct o; [by apply HQ|by apply HF]. Qed.

Section Answers.
Context (I J : HashIter) (others : nat → tree → tree) (meanwhile : nat → gmap bytes bytes → gmap bytes bytes).
Hypothesis others_change : ∀ n t, entries (others n t) = meanwhile n (entries t).

(** The three reads of a request, each of the content it meets. *)
Lemma answer_reads id key_hex t :
  let first := meanwhile 0%nat (entries t) in let second := meanwhile 1%nat first in let third := meanwhile 2%nat second in
  answers
    (expected_failure id key_hex (λ pid, @sparse_merkle_root _ I (scoped_pairs pid first) ≠ @sparse_merkle_root _ I (scoped_pairs pid second)))
    (program_state_root I J others id (Some key_hex)) t (λ resp _,
    ∃ pid key, parse_program_id_str id = Some pid ∧ hex_strict key_hex = Some key ∧
      @sparse_merkle_root _ I (scoped_pairs pid first) = @sparse_merkle_root _ I (scoped_pairs pid second) ∧
      resp = {| program_id := PROGRAM_ID_PREFIX ++ hex_encode pid; root := hex_encode (@sparse_merkle_root _ I (scoped_pairs pid first));
                proof := Some (map hex_encode (@sparse_merkle_proof _ J (scoped_pairs pid second) key).2);
                value_hex := hex_encode <$> scope pid third !! key |}).
Proof.
  intros first second third. apply answers_bind, answers_bad; [by left|]. intros pid Hpid. apply answers_bind. cbn. apply answers_bind.
  eapply answers_internal; [apply sparse_reads|intros Hw; destruct (get_all_ok pid (others 0%nat t) Hw); eexists; by apply bind_ret_ok|].
  intros rt t1 [-> E1]. rewrite others_change in *. apply answers_bind, answers_bind, answers_bad; [by right|].
  intros key Hkey. apply answers_bind. cbn. apply answers_bind.
  eapply answers_internal; [apply prove_spec|intros Hw; destruct (get_all_ok pid (others 1%nat t1) Hw); eexists; by apply bind_ret_ok|].
  intros pf t2 [-> E2]. rewrite others_change, E1 in *. apply answers_bind. cbn. apply answers_bind.
  eapply answers_internal; [apply get_spec|apply get_scoped_ok|]. intros o t3 [-> E3].
  rewrite others_change, E2, proof_root, (root_orders J I). case_bool_decide as Hroot; cbn; [by exists pid, key|].
  exists pid. split; [done|]. intros Heq. by apply Hroot.
Qed.

(** C13 Whatever the other tasks commit between the three reads of a request for a key, the
    request fails only when it is malformed, when a read fails, or when the root of the
    state differs between the first two reads.  The answer is the root of the program's
    state at the first read, a proof made of the state at the second and the value of the
    state at the third.  Unless hashed texts collide, the value that the state held at the
    second read verifies with them, and nothing else than the value of the first read does,
    with any proof: when the key is not written during the request, that is the value
    answered. *)
Theorem state_root_answer id key_hex t :
  let first := meanwhile 0%nat (entries t) in let second := meanwhile 1%nat first in let third := meanwhile 2%nat second in
  answers
    (expected_failure id key_hex (λ pid, @sparse_merkle_root _ I (scoped_pairs pid first) ≠ @sparse_merkle_root _ I (scoped_pairs pid second)))
    (program_state_root I J others id (Some key_hex)) t (λ resp _,
    ∃ pid key pf, parse_program_id_str id = Some pid ∧ hex_strict key_hex = Some key ∧
      let rt := @sparse_merkle_root _ I (scoped_pairs pid first) in
      root resp = hex_encode rt ∧ proof resp = Some (map hex_encode pf) ∧ length pf = 256%nat ∧
      value_hex resp = hex_encode <$> scope pid third !! key ∧
      (∀ value, scope pid second !! key = Some value →
        clash (@state_texts _ J (scoped_pairs pid second)) ∨ verify_sparse_merkle_proof key value pf rt = true) ∧
      ∀ value pf', Forall (λ s, length s = 32%nat) pf' → verify_sparse_merkle_proof key value pf' rt = true →
        clash (@state_texts _ I (scoped_pairs pid first) ++ proof_texts key value pf') ∨ scope pid first !! key = Some value).
Proof.
  intros first second third. pose proof (answer_reads id key_hex t) as Hr. cbn zeta in Hr. fold first second third in Hr. unfold answers in *.
  destruct (program_state_root _ _ _ _ _ t) as [[resp|e] t']; [|done]. destruct Hr as (pid & key & Hpid & Hkey & Hroot & ->).
  exists pid, key, (@sparse_merkle_proof _ J (scoped_pairs pid second) key).2. cbn zeta.
  split_and!; [done|done|done|done|apply proof_length|done|..].
  - intros value Hv. destruct (@proof_verifies _ _ J (scoped_pairs pid second) key value Hv) as [|(_ & _ & Hver)]; [by left|right].
    by rewrite Hroot, (root_orders I J).
  - intros value pf' Hl Hver. by apply proof_sound.
Qed.
End Answers.

(** The value is read after the proof is made: when a write of the key is committed in
    between, the answer carries the new value with the proof of the old one, which
    verifies only if hashed texts collide. *)
Theorem torn_answer (I J : HashIter) others id key_hex pid key old new t :
  parse_program_id_str id = Some pid → hex_strict key_hex = Some key →
  (∀ n t, entries (others n t) = if Nat.ltb n 2 then entries t else <[pid ++ key := new]> (entries t)) →
  scope pid (entries t) !! key = Some old → old ≠ new →
  answers (expected_failure id key_hex (λ _, False)) (program_state_root I J others id (Some key_hex)) t (λ resp _,
    ∃ rt pf, root resp = hex_encode rt ∧ proof resp = Some (map hex_encode pf) ∧ value_hex resp = Some (hex_encode new) ∧
      (verify_sparse_merkle_proof key new pf rt = true →
       clash (@state_texts _ I (scoped_pairs pid (entries t)) ++ proof_texts key new pf))).
Proof.
  intros Hp Hk Ho Hold Hne. pose proof (answer_reads I J others (λ n m, if Nat.ltb n 2 then m else <[pid ++ key := new]> m) Ho id key_hex t) as Hr.
  cbn in Hr. unfold answers in *. destruct (program_state_root _ _ _ _ _ t) as [[resp|e] t']; [|destruct e; try done; by destruct Hr as (? & _ & [])].
  destruct Hr as (pid' & key' & Hpid & Hkey & _ & ->). rewrite Hp in Hpid. rewrite Hk in Hkey. simplify_eq. set (pairs := scoped_pairs pid' (entries t)).
  exists (@sparse_merkle_root _ I pairs), (@sparse_merkle_proof _ J pairs key').2. cbn. rewrite scope_insert, lookup_insert_eq.
  split_and!; try done. intros Hver. destruct (proof_sound pairs key' new _ (proof_siblings _ _) Hver) as [|Hs]; [done|].
  unfold scope in Hold. unfold pairs in Hs. congruence.
Qed.
End Rpc.
End Store.

(** ** A store that does not fail *)

Module StoreModels.
Import Rust Host RustModels Merkle Store.

Definition sled_map : Sled.
Proof.
  refine {|
    tree := gmap bytes bytes; entries := λ m, m; open_tree := retM tt; tree_get k := λ m, (Ok (m !! k), m);
    tree_insert k v := λ m, (Ok tt, <[k := v]> m); tree_remove k := λ m, (Ok tt, delete k m); tree_flush := retM tt;
    scan_prefix p := λ m, (Ok (map Ok (with_prefix p m)), m)
  |}; try done.
  - by intros k t o [= <-].
  - intros p t es [= Heq]. symmetry. revert es Heq. generalize (with_prefix p t). intros l.
    induction l as [|x l IH]; intros [|y es]; cbn; intros Heq; try done. injection Heq as -> Heq. f_equal. by apply IH.
Defined.

Definition list_iter : HashIter := {| into_iter A m := map_to_list m; into_iter_perm A m := reflexivity _ |}.
Definition back_iter : HashIter := {| into_iter A m := rev (map_to_list m); into_iter_perm A m := symmetry (Permutation_rev _) |}.
Definition sum_digest : @Digest blake3_sum := {| digest_length := blake3_sum_length; digest_bytes := blake3_sum_bytes |}.

Definition pid0 : bytes := replicate 32 7.
Definition stored : gmap bytes bytes := {[ pid0 ++ js "a" := js "1"; pid0 ++ js "b" := js "2"; replicate 32 8 ++ js "a" := js "3" ]}.
Definition pending0 : gmap bytes (option bytes) := {[ js "a" := None; js "c" := Some (js "4"); js "b" := Some (js "5") ]}.
Definition a_hex : rstr := js "61".

#[local] Existing Instances blake3_sum sled_map sum_digest.

Lemma sled_map_reads : reads_ok.
Proof. split; [done|by eexists|by eexists]. Qed.

Lemma state_root_answer_witness :
  ∃ resp t', program_state_root list_iter back_iter (λ _ t, t) (hex_encode pid0) (Some a_hex) stored = (Ok resp, t') ∧
    value_hex resp = Some (hex_encode (js "1")).
Proof.
  pose proof (state_root_answer list_iter back_iter (λ _ t, t) (λ _ m, m) (λ n t, eq_refl) (hex_encode pid0) a_hex stored) as Hr. unfold answers in *.
  destruct (program_state_root _ _ _ _ _ _) as [[resp|[]] t'].
  - exists resp, t'. split; [done|]. destruct Hr as (pid & key & pf & Hp & Hk & _ & _ & _ & -> & _).
    assert (Some pid = Some pid0) as [= ->] by (rewrite <- Hp; vm_compute; reflexivity).
    assert (Some key = Some (js "a")) as [= ->] by (rewrite <- Hk; vm_compute; reflexivity). vm_compute. reflexivity.
  - destruct Hr as [Hr|Hr]; vm_compute in Hr; discriminate.
  - destruct (Hr sled_map_reads).
  - by destruct Hr as (pid & _ & []).
Defined.

Definition late_write (n : nat) (m : gmap bytes bytes) : gmap bytes bytes :=
  match n with 0%nat | 1%nat => m | _ => <[pid0 ++ js "a" := js "9"]> m end.

Lemma late_write_reads (n : nat) (m : gmap bytes bytes) : late_write n m = if Nat.ltb n 2 then m else <[pid0 ++ js "a" := js "9"]> m.
Proof. by destruct n as [|[|]]. Qed.

Lemma torn_answer_witness :
  ∃ resp t', program_state_root list_iter back_iter late_write (hex_encode pid0) (Some a_hex) stored = (Ok resp, t') ∧
    value_hex resp = Some (hex_encode (js "9")).
Proof.
  pose proof (torn_answer list_iter back_iter late_write (hex_encode pid0) a_hex pid0 (js "a") (js "1") (js "9") stored
    ltac:(vm_compute; reflexivity) ltac:(vm_compute; reflexivity) late_write_reads ltac:(vm_compute; reflexivity)
    ltac:(vm_compute; discriminate)) as Hr. unfold answers in *.
  destruct (program_state_root _ _ _ _ _ _) as [[resp|[]] t'].
  - exists resp, t'. split; [done|]. by destruct Hr as (rt & pf & _ & _ & -> & _).
  - destruct Hr as [Hr|Hr]; vm_compute in Hr; discriminate.
  - destruct (Hr sled_map_reads).
  - by destruct Hr as (pid & _ & []).
Defined.

Lemma sled_map_writes : writes_ok.
Proof. done. Qed.

Lemma announced_root_witness :
  ∃ writes root root' root'' t1 t2' t3 t4,
    execution_outcome list_iter back_iter list_iter pid0 pending0 stored = (Ok (writes, root), t1) ∧
    compute_root_after_writes list_iter back_iter pid0 writes stored = (Ok root', t2') ∧
    commit_writes pid0 writes t2' = (Ok tt, t3) ∧ sparse_root_scoped back_iter pid0 t3 = (Ok root'', t4) ∧
    scope pid0 t3 = {[ js "b" := js "5"; js "c" := js "4" ]} ∧ (root = root' ∧ root' = root'' ∨ clash (pair_texts (map_to_list (scope pid0 t3)))).
Proof.
  destruct (@announced_root blake3_sum sled_map sum_digest list_iter back_iter list_iter list_iter back_iter back_iter pid0 pending0 stored stored sled_map_reads sled_map_writes eq_refl)
    as (writes & r & r' & r'' & t1 & t2' & t3 & t4 & H1 & H2 & H3 & H4 & H5 & _ & H6).
  exists writes, r, r', r'', t1, t2', t3, t4. split_and!; [exact H1|exact H2|exact H3|exact H4| |tauto].
  etrans; [exact H5|]. vm_compute. reflexivity.
Defined.
End StoreModels.
