(* ===== verification/UnifiedStore.v ===== *)
(** * src/storage/unified_store.rs: the object store of a node

    Objects are cut into chunks that are stored under their BLAKE3 digest, a manifest
    lists the chunks of an object in order.  The four trees of the database are finite
    maps of decoded records; errors are the texts [anyhow] displays.  Failures of the
    disk are not modelled, a crash between two writes is.  What was put is what is read,
    puts do not disturb one another, and a reader is never given other bytes than those
    the manifest's digest names, unless two of the stored texts collide. *)

From S2P Require Import Prelude JsValue Codec RustLib WasmHost RustModels Merkle.

Module Objects.
Import Rust Merkle.

(** ** src/types.rs *)

Inductive ObjectType : Type :=
| Blob (mime_type : option rstr) (upload_salt : bytes)
| WasmProgram (entrypoint : rstr) (wasm_version source_language compiler : option rstr)
    (blob_refs : list bytes) (deploy_salt : bytes).

Record Object : Type := {
  object_id : bytes;
  object_type : ObjectType;
  total_size : Z;
  chunk_count : Z;
  manifest_id : bytes;
  publisher : bytes;
  created_at : Z;
}.

Record ChunkDescriptor : Type := {
  desc_chunk_id : bytes;
  size : Z;
  offset : Z;
}.

Record Manifest : Type := {
  manifest_object : bytes;
  content_hash : bytes;
  chunks : list ChunkDescriptor;
  version : Z;
}.

Record Chunk : Type := {
  chunk_id : bytes;
  chunk_bytes : bytes;
}.

(** bincode's encoding of the two types that are hashed. *)
Class ObjectCodec : Type := {
  encode_object_type : ObjectType → bytes;
  encode_manifest : Manifest → bytes;
}.

(** ** The database *)

Record Db : Type := {
  objects : gmap bytes Object;
  manifests : gmap bytes Manifest;
  manifest_index : gmap bytes bytes;
  chunk_tree : gmap bytes bytes;
}.

Definition set_objects (x : gmap bytes Object) (d : Db) : Db :=
  {| objects := x; manifests := manifests d; manifest_index := manifest_index d; chunk_tree := chunk_tree d |}.
Definition set_manifests (x : gmap bytes Manifest) (d : Db) : Db :=
  {| objects := objects d; manifests := x; manifest_index := manifest_index d; chunk_tree := chunk_tree d |}.
Definition set_index (x : gmap bytes bytes) (d : Db) : Db :=
  {| objects := objects d; manifests := manifests d; manifest_index := x; chunk_tree := chunk_tree d |}.
Definition set_chunks (x : gmap bytes bytes) (d : Db) : Db :=
  {| objects := objects d; manifests := manifests d; manifest_index := manifest_index d; chunk_tree := x |}.

(** A tree is traversed in the order of its keys. *)
Definition tree_iter {A} (t : gmap bytes A) : list (bytes * A) :=
  omap (λ k, pair k <$> t !! k) (sort_str (map fst (map_to_list t))).

(** ** Sizes *)

Definition CHUNK_SIZE_SMALL : Z := 250 * 1024.
Definition CHUNK_SIZE_LARGE : Z := 2 * 1024 * 1024.
Definition LARGE_OBJECT_THRESHOLD_BYTES : Z := 2 * 1024 * 1024.

Definition div_ceil_u64 (n d : Z) : Z := if d =? 0 then 0 else n / d + (if n mod d =? 0 then 0 else 1).

Definition top_level_chunk_count_for_total_size (total_size : Z) : Z :=
  if total_size =? 0 then 0
  else if LARGE_OBJECT_THRESHOLD_BYTES <? total_size then div_ceil_u64 total_size CHUNK_SIZE_LARGE
  else div_ceil_u64 total_size CHUNK_SIZE_SMALL.

Definition subchunk_count_for_total_size (total_size : Z) : Z :=
  if total_size =? 0 then 0
  else
    let small := CHUNK_SIZE_SMALL in
    if LARGE_OBJECT_THRESHOLD_BYTES <? total_size then
      let large := CHUNK_SIZE_LARGE in
      let full_chunks := total_size / large in
      let remainder := total_size mod large in
      let total := full_chunks * div_ceil_u64 large small in
      if negb (remainder =? 0) then total + div_ceil_u64 remainder small else total
    else div_ceil_u64 total_size small.

(** [slice.chunks(n)]. *)
Fixpoint slice_chunks {A} (fuel n : nat) (l : list A) : list (list A) :=
  match fuel, l with
  | S fuel, _ :: _ => take n l :: slice_chunks fuel n (drop n l)
  | _, _ => []
  end.

Section Operations.
Context `{Blake3} `{ObjectCodec}.

Definition Chunk_new (data : bytes) : Chunk := {| chunk_id := hash_bytes data; chunk_bytes := data |}.

Definition Chunk_verify (c : Chunk) : outcome rstr unit :=
  if bool_decide (hash_bytes (chunk_bytes c) = chunk_id c) then Ok tt else Throw (js "chunk hash mismatch").

Definition Manifest_id (m : Manifest) : bytes := hash_bytes (encode_manifest m).

(** [idx] and [expected_offset] at the head of [descs]. *)
Fixpoint validate_from (idx expected_offset : Z) (descs : list ChunkDescriptor) : outcome rstr unit :=
  match descs with
  | [] => Ok tt
  | d :: rest =>
      if negb (offset d =? expected_offset)
      then Throw (js "chunk " ++ Z_to_str idx ++ js " offset mismatch: expected " ++ Z_to_str expected_offset
                  ++ js ", got " ++ Z_to_str (offset d))
      else validate_from (idx + 1) (expected_offset + size d) rest
  end.

Definition Manifest_validate (m : Manifest) : outcome rstr unit := validate_from 0 0 (chunks m).

Definition chunk_data (data : bytes) : list Chunk :=
  match data with
  | [] => []
  | _ =>
      let top_level_chunk_size :=
        if LARGE_OBJECT_THRESHOLD_BYTES <? Z.of_nat (length data) then CHUNK_SIZE_LARGE else CHUNK_SIZE_SMALL in
      map Chunk_new (slice_chunks (length data) (Z.to_nat top_level_chunk_size) data)
  end.

(** ** Single records *)

Definition store_object (o : Object) (d : Db) : Db := set_objects (<[object_id o := o]> (objects d)) d.

Definition get_object_metadata (d : Db) (id : bytes) : option Object := objects d !! id.

(** The two writes of [store_manifest], each flushed. *)
Definition write_manifest (m : Manifest) (d : Db) : Db := set_manifests (<[manifest_object m := m]> (manifests d)) d.
Definition write_index (m : Manifest) (d : Db) : Db := set_index (<[Manifest_id m := manifest_object m]> (manifest_index d)) d.

Definition store_manifest (m : Manifest) (d : Db) : Db := write_index m (write_manifest m d).

Definition get_manifest_by_object (d : Db) (id : bytes) : option Manifest := manifests d !! id.

(** The second component is the database with the entry a search without the index adds. *)
Definition get_manifest (id : bytes) (d : Db) : option Manifest * Db :=
  let indexed :=
    match manifest_index d !! id with
    | Some raw => if (length raw =? 32)%nat then get_manifest_by_object d raw else None
    | None => None
    end in
  match indexed with
  | Some m => (Some m, d)
  | None =>
      match List.find (λ e, bool_decide (Manifest_id e.2 = id)) (tree_iter (manifests d)) with
      | Some (_, m) => (Some m, set_index (<[id := manifest_object m]> (manifest_index d)) d)
      | None => (None, d)
      end
  end.

Definition store_chunk (c : Chunk) : M rstr Db unit :=
  do* liftM (Chunk_verify c) in
  modifyM (λ d, set_chunks (<[chunk_id c := chunk_bytes c]> (chunk_tree d)) d).

Definition get_chunk (d : Db) (id : bytes) : outcome rstr (option Chunk) :=
  match chunk_tree d !! id with
  | None => Ok None
  | Some raw =>
      let chunk := {| chunk_id := id; chunk_bytes := raw |} in
      let! _ := Chunk_verify chunk in Ok (Some chunk)
  end.

Definition has_chunk (d : Db) (id : bytes) : bool := bool_decide (is_Some (chunk_tree d !! id)).

Definition list_objects (d : Db) : list Object := map snd (tree_iter (objects d)).

Definition get_missing_chunks (d : Db) (m : Manifest) : list bytes :=
  List.filter (λ id, negb (has_chunk d id)) (map desc_chunk_id (chunks m)).

Definition is_complete (d : Db) (id : bytes) : bool :=
  match get_manifest_by_object d id with
  | Some m => is_empty (get_missing_chunks d m)
  | None => false
  end.

(** ** Objects *)

(** The loop of [get_object] over the descriptors. *)
Fixpoint read_chunks (d : Db) (descs : list ChunkDescriptor) (data : bytes) : outcome rstr bytes :=
  match descs with
  | [] => Ok data
  | desc :: rest =>
      let! found := get_chunk d (desc_chunk_id desc) in
      match found with
      | None => Throw (js "chunk " ++ hex_encode (desc_chunk_id desc) ++ js " not found")
      | Some chunk =>
          let! _ := Chunk_verify chunk in
          if negb (Z.of_nat (length (chunk_bytes chunk)) =? size desc)
          then Throw (js "chunk size mismatch: expected " ++ Z_to_str (size desc) ++ js ", got "
                      ++ Z_to_str (Z.of_nat (length (chunk_bytes chunk))))
          else read_chunks d rest (data ++ chunk_bytes chunk)
      end
  end.

Definition get_object (d : Db) (id : bytes) : outcome rstr bytes :=
  match get_manifest_by_object d id with
  | None => Throw (js "manifest not found for object")
  | Some m =>
      let! _ := Manifest_validate m in
      let! data := read_chunks d (chunks m) [] in
      if bool_decide (hash_bytes data = content_hash m) then Ok data
      else Throw (js "content hash mismatch after reassembly: expected " ++ hex_encode (content_hash m) ++ js ", got "
                  ++ hex_encode (hash_bytes data))
  end.

Fixpoint describe (from : Z) (cs : list Chunk) : list ChunkDescriptor :=
  match cs with
  | [] => []
  | c :: rest =>
      {| desc_chunk_id := chunk_id c; size := Z.of_nat (length (chunk_bytes c)) mod 2 ^ 32; offset := from |}
      :: describe (from + Z.of_nat (length (chunk_bytes c))) rest
  end.

Definition object_id_of (data : bytes) (t : ObjectType) : bytes :=
  hash_bytes (hash_bytes data ++ blake3 (encode_object_type t)).

Definition manifest_of (data : bytes) (t : ObjectType) : Manifest :=
  {| manifest_object := object_id_of data t; content_hash := hash_bytes data; chunks := describe 0 (chunk_data data); version := 1 |}.

(** [now] is the time in milliseconds. *)
Definition object_of (data : bytes) (t : ObjectType) (by_node : bytes) (now : Z) : Object :=
  {| object_id := object_id_of data t; object_type := t; total_size := Z.of_nat (length data);
     chunk_count := Z.of_nat (length (chunk_data data)) mod 2 ^ 32; manifest_id := Manifest_id (manifest_of data t);
     publisher := by_node; created_at := now |}.

(** The writes of [put_object], each flushed before the next. *)
Definition put_writes (data : bytes) (t : ObjectType) (by_node : bytes) (now : Z) : list (M rstr Db unit) :=
  modifyM (store_object (object_of data t by_node now)) :: modifyM (write_manifest (manifest_of data t))
  :: modifyM (write_index (manifest_of data t)) :: map store_chunk (chunk_data data).

Definition put_object (data : bytes) (t : ObjectType) (by_node : bytes) (now : Z) : M rstr Db Object :=
  if is_empty data then throwM (js "cannot store empty object")
  else
    do* liftM (Manifest_validate (manifest_of data t)) in
    do* forM (put_writes data t by_node now) id in
    retM (object_of data t by_node now).
End Operations.

(** ** Cutting *)

Lemma concat_slice_chunks {A} fuel n (l : list A) : (0 < n)%nat → (length l ≤ fuel)%nat → concat (slice_chunks fuel n l) = l.
Proof.
  intros Hn. revert l. induction fuel as [|fuel IH]; intros [|x l] Hl; simpl in Hl; try done; [lia|].
  cbn [slice_chunks concat]. rewrite IH; [apply take_drop|]. rewrite length_drop. simpl. lia.
Qed.

Lemma slice_chunks_bound {A} fuel n (l : list A) : Forall (λ p, (length p ≤ n)%nat) (slice_chunks fuel n l).
Proof.
  revert l. induction fuel as [|fuel IH]; intros [|x l]; cbn [slice_chunks]; constructor; auto. rewrite length_take. lia.
Qed.

Lemma div_ceil_sub n d : 0 < d → d ≤ n → div_ceil_u64 n d = 1 + div_ceil_u64 (n - d) d.
Proof.
  intros Hd Hn. unfold div_ceil_u64. destruct (Z.eqb_spec d 0); [lia|].
  replace n with ((n - d) + 1 * d) at 1 2 by lia. rewrite Z.div_add, Z.mod_add by lia. lia.
Qed.

Lemma div_ceil_small n d : 0 < n ≤ d → div_ceil_u64 n d = 1.
Proof.
  intros Hn. unfold div_ceil_u64. destruct (Z.eqb_spec d 0); [lia|]. destruct (decide (n = d)) as [->|].
  - by rewrite Z.div_same, Z.mod_same by lia.
  - rewrite Z.div_small, Z.mod_small by lia. destruct (Z.eqb_spec n 0); lia.
Qed.

Lemma div_ceil_0 d : div_ceil_u64 0 d = 0.
Proof. unfold div_ceil_u64. destruct (Z.eqb_spec d 0); [done|]. by rewrite Z.div_0_l, Z.mod_0_l by done. Qed.

Lemma length_slice_chunks {A} fuel n (l : list A) :
  (0 < n)%nat → (length l ≤ fuel)%nat → Z.of_nat (length (slice_chunks fuel n l)) = div_ceil_u64 (Z.of_nat (length l)) (Z.of_nat n).
Proof.
  intros Hn. revert l. induction fuel as [|fuel IH]; intros [|x l] Hl; cbn [slice_chunks]; try (by rewrite div_ceil_0); [simpl in Hl; lia|].
  cbn [length]. rewrite Nat2Z.inj_succ, IH by (rewrite length_drop; simpl in *; lia). rewrite length_drop.
  destruct (decide (n ≤ length (x :: l))%nat) as [Hle|Hlt].
  - rewrite (div_ceil_sub (Z.of_nat (length (x :: l)))) by lia. rewrite Nat2Z.inj_sub by done. lia.
  - replace (length (x :: l) - n)%nat with 0%nat by lia. simpl Z.of_nat at 1. rewrite div_ceil_0.
    cbn [length] in *. rewrite div_ceil_small; lia.
Qed.

(** The sum of [f] over the lengths of the pieces. *)
Definition sum_over {A} (f : Z → Z) (ps : list (list A)) : Z := foldr (λ p a, f (Z.of_nat (length p)) + a) 0 ps.

Lemma sum_slice_chunks {A} f fuel n (l : list A) :
  (0 < n)%nat → (length l ≤ fuel)%nat →
  let len := Z.of_nat (length l) in let d := Z.of_nat n in
  sum_over f (slice_chunks fuel n l) = len / d * f d + (if len mod d =? 0 then 0 else f (len mod d)).
Proof.
  cbv zeta. intros Hn. revert l. induction fuel as [|fuel IH]; intros [|x l] Hl; cbn [slice_chunks sum_over foldr].
  1,3: by rewrite Z.div_0_l, Z.mod_0_l by lia.
  - simpl in Hl. lia.
  - fold (sum_over f (slice_chunks fuel n (drop n (x :: l)))). rewrite IH by (rewrite length_drop; simpl in *; lia).
    rewrite length_take, length_drop. set (L := length (x :: l)) in *. assert (0 < L)%nat by (unfold L; simpl; lia).
    destruct (decide (n ≤ L)%nat) as [Hle|Hlt].
    + rewrite Nat.min_l by done. rewrite Nat2Z.inj_sub by done. remember (Z.of_nat L - Z.of_nat n) as a eqn:Ea.
      replace (Z.of_nat L) with (a + 1 * Z.of_nat n) by lia. rewrite Z.div_add, Z.mod_add by lia. lia.
    + replace (L - n)%nat with 0%nat by lia. rewrite Nat.min_r by lia.
      rewrite (Z.div_small (Z.of_nat L) (Z.of_nat n)), (Z.mod_small (Z.of_nat L) (Z.of_nat n)) by lia.
      simpl (Z.of_nat 0). rewrite Z.div_0_l, Z.mod_0_l by lia. destruct (Z.eqb_spec (Z.of_nat L) 0); [lia|]. cbn [Z.eqb]. lia.
Qed.

Section Facts.
Context `{Blake3} `{ObjectCodec}.

(** The texts of the chunks of [data]. *)
Definition pieces (data : bytes) : list bytes := map chunk_bytes (chunk_data data).

Lemma top_size_pos (data : bytes) : let s := if LARGE_OBJECT_THRESHOLD_BYTES <? Z.of_nat (length data) then CHUNK_SIZE_LARGE else CHUNK_SIZE_SMALL in
  0 < s ≤ CHUNK_SIZE_LARGE.
Proof. cbv zeta. destruct (_ <? _); unfold CHUNK_SIZE_LARGE, CHUNK_SIZE_SMALL; lia. Qed.

Lemma pieces_slice data : pieces data = slice_chunks (length data)
  (Z.to_nat (if LARGE_OBJECT_THRESHOLD_BYTES <? Z.of_nat (length data) then CHUNK_SIZE_LARGE else CHUNK_SIZE_SMALL)) data.
Proof. unfold pieces, chunk_data. destruct data as [|x data]; [done|]. rewrite map_map. apply map_id. Qed.

Lemma concat_pieces data : concat (pieces data) = data.
Proof. rewrite pieces_slice. pose proof (top_size_pos data). apply concat_slice_chunks; [|done]. cbv zeta in *. lia. Qed.

Lemma pieces_bound data : Forall (λ p, Z.of_nat (length p) ≤ CHUNK_SIZE_LARGE) (pieces data).
Proof.
  rewrite pieces_slice. pose proof (top_size_pos data). eapply Forall_impl; [apply slice_chunks_bound|]. cbv zeta in *. simpl. lia.
Qed.

Lemma chunk_data_new data : chunk_data data = map Chunk_new (pieces data).
Proof. unfold pieces, chunk_data. destruct data as [|x data]; [done|]. rewrite map_map. symmetry. by rewrite map_map. Qed.

(** The counts a node announces are those of the cut it makes: of the chunks, and of
    the parts of at most 250 KiB they are transported in. *)
Theorem chunk_counts (data : bytes) :
  Z.of_nat (length (chunk_data data)) = top_level_chunk_count_for_total_size (Z.of_nat (length data))
  ∧ sum_over (λ n, div_ceil_u64 n CHUNK_SIZE_SMALL) (pieces data) = subchunk_count_for_total_size (Z.of_nat (length data)).
Proof.
  rewrite chunk_data_new, length_map, pieces_slice. pose proof (top_size_pos data) as Hs. cbv zeta in Hs.
  unfold top_level_chunk_count_for_total_size, subchunk_count_for_total_size.
  destruct data as [|x data]; [done|]. set (l := x :: data) in *. assert (0 < Z.of_nat (length l)) by (unfold l; simpl; lia).
  destruct (Z.eqb_spec (Z.of_nat (length l)) 0); [lia|]. rewrite length_slice_chunks, sum_slice_chunks, !Z2Nat.id by lia.
  destruct (_ <? _).
  - split; [done|]. destruct (_ =? 0); simpl; lia.
  - split; [done|]. rewrite div_ceil_small by (unfold CHUNK_SIZE_SMALL; lia). unfold div_ceil_u64. destruct (Z.eqb_spec CHUNK_SIZE_SMALL 0); [done|].
    set (m := Z.of_nat (length l) mod CHUNK_SIZE_SMALL). pose proof (Z.mod_pos_bound (Z.of_nat (length l)) CHUNK_SIZE_SMALL ltac:(done)).
    destruct (Z.eqb_spec m 0); [lia|]. rewrite (Z.div_small m), (Z.mod_small m) by (unfold m; lia). destruct (Z.eqb_spec m 0); lia.
Qed.
(** ** Reading *)

(** The piece a descriptor names is stored, and is what it says. *)
Definition stored (d : Db) (desc : ChunkDescriptor) (p : bytes) : Prop :=
  chunk_tree d !! desc_chunk_id desc = Some p ∧ hash_bytes p = desc_chunk_id desc ∧ Z.of_nat (length p) = size desc.

Lemma verify_ok c u : Chunk_verify c = Ok u ↔ hash_bytes (chunk_bytes c) = chunk_id c.
Proof. unfold Chunk_verify. destruct u. by case_bool_decide. Qed.

Lemma get_chunk_some d id c : get_chunk d id = Ok (Some c) ↔ chunk_tree d !! id = Some (chunk_bytes c) ∧ chunk_id c = id ∧ hash_bytes (chunk_bytes c) = id.
Proof.
  unfold get_chunk. destruct c as [i p]. destruct (chunk_tree d !! id) as [raw|]; [|naive_solver].
  unfold Chunk_verify. cbn. case_bool_decide; cbn; naive_solver.
Qed.

Lemma read_chunks_ok d descs acc ps : Forall2 (stored d) descs ps → read_chunks d descs acc = Ok (acc ++ concat ps).
Proof.
  intros Hs. revert acc. induction Hs as [|desc p descs ps (Ht & Hh & Hl) _ IH]; intros acc; cbn [read_chunks concat]; [by rewrite app_nil_r|].
  rewrite (proj2 (get_chunk_some d _ {| chunk_id := desc_chunk_id desc; chunk_bytes := p |})) by done. cbn.
  rewrite (proj2 (verify_ok _ tt)) by done. cbn. rewrite (proj2 (Z.eqb_eq _ _)) by done. cbn. by rewrite IH, <- app_assoc.
Qed.

Lemma read_chunks_inv d descs acc out : read_chunks d descs acc = Ok out → ∃ ps, Forall2 (stored d) descs ps ∧ out = acc ++ concat ps.
Proof.
  revert acc. induction descs as [|desc descs IH]; intros acc; cbn [read_chunks].
  - intros [= <-]. exists []. split; [constructor|]. by rewrite app_nil_r.
  - destruct (get_chunk d _) as [[c|]|] eqn:Hg; [|done..]. cbn. apply get_chunk_some in Hg as (Ht & Hi & Hh).
    destruct (Chunk_verify c); [|done]. cbn. destruct (Z.eqb_spec (Z.of_nat (length (chunk_bytes c))) (size desc)); [|done]. cbn.
    intros (ps & Hps & ->)%IH. exists (chunk_bytes c :: ps). split; [by constructor|]. cbn. by rewrite app_assoc.
Qed.

Lemma get_object_spec d id data :
  get_object d id = Ok data ↔
  ∃ m ps, manifests d !! id = Some m ∧ Manifest_validate m = Ok tt ∧ Forall2 (stored d) (chunks m) ps
          ∧ data = concat ps ∧ hash_bytes data = content_hash m.
Proof.
  unfold get_object, get_manifest_by_object. split.
  - destruct (manifests d !! id) as [m|] eqn:Hm; [|done]. destruct (Manifest_validate m) as [[]|] eqn:Hv; [|done]. cbn.
    destruct (read_chunks d (chunks m) []) as [out|] eqn:Hr; [|done]. cbn. case_bool_decide as Hh; [|done]. intros [= ->].
    apply read_chunks_inv in Hr as (ps & Hps & ->). by exists m, ps.
  - intros (m & ps & -> & -> & Hps & -> & Hh). cbn. rewrite (read_chunks_ok _ _ _ ps) by done. cbn. by rewrite bool_decide_eq_true_2.
Qed.

(** ** Writing *)

Definition add_pieces (ps : list bytes) (t : gmap bytes bytes) : gmap bytes bytes :=
  fold_left (λ t p, <[hash_bytes p := p]> t) ps t.

Lemma add_pieces_some ps t k q : add_pieces ps t !! k = Some q → (q ∈ ps ∧ hash_bytes q = k) ∨ t !! k = Some q.
Proof.
  revert t. induction ps as [|p ps IH]; intros t; cbn; [by right|]. intros [[? ?]|Hq]%IH; [left; split; [by right|done]|].
  destruct (decide (hash_bytes p = k)) as [<-|].
  - rewrite lookup_insert_eq in Hq. simplify_eq. left. split; [by left|done].
  - rewrite lookup_insert_ne in Hq by done. by right.
Qed.

Lemma add_pieces_other ps t k : k ∉ map hash_bytes ps → add_pieces ps t !! k = t !! k.
Proof.
  revert t. induction ps as [|p ps IH]; intros t; cbn; [done|]. rewrite not_elem_of_cons. intros [Hne Hk]. rewrite IH by done.
  by apply lookup_insert_ne.
Qed.

Lemma add_pieces_in ps t p : p ∈ ps → ∃ q, q ∈ ps ∧ hash_bytes q = hash_bytes p ∧ add_pieces ps t !! hash_bytes p = Some q.
Proof.
  revert t p. induction ps as [|r ps IH]; intros t p Hp; [by apply elem_of_nil in Hp|]. cbn [add_pieces fold_left].
  destruct (decide (hash_bytes p ∈ map hash_bytes ps)) as [Hin|Hout].
  - apply list_elem_of_fmap in Hin as (q & Hq & Hin). destruct (IH (<[hash_bytes r := r]> t) q Hin) as (q' & ? & ? & ?).
    exists q'. split; [by right|]. by rewrite Hq.
  - exists r. apply elem_of_cons in Hp as [->|Hp]; [|by destruct Hout; apply list_elem_of_fmap_2].
    split; [by left|]. split; [done|]. change (add_pieces ps (<[hash_bytes r := r]> t) !! hash_bytes r = Some r).
    by rewrite add_pieces_other, lookup_insert_eq.
Qed.

Lemma equal_or_collide L x y : x ∈ L → y ∈ L → hash_bytes x = hash_bytes y → x = y ∨ collision L.
Proof. intros Hx Hy Hh. destruct (decide (x = y)); [by left|]. right. by exists x, y. Qed.

(** A piece that is stored already, or is one of those added, reads as itself. *)
Lemma add_pieces_keep ps t k p L :
  (t !! k = Some p ∧ p ∈ L) ∨ p ∈ ps → hash_bytes p = k → ps ⊆ L → add_pieces ps t !! k = Some p ∨ collision L.
Proof.
  intros Hp Hk Hs. assert (p ∈ L) as HpL by naive_solver. destruct (decide (k ∈ map hash_bytes ps)) as [Hin|Hout].
  - apply list_elem_of_fmap in Hin as (r & -> & Hr). destruct (add_pieces_in ps t r Hr) as (q & Hq & Hh & ->).
    destruct (equal_or_collide L p q) as [->|]; [done|by apply Hs|congruence|by left|by right].
  - rewrite add_pieces_other by done. destruct Hp as [[? _]|Hin]; [by left|]. destruct Hout. rewrite <- Hk. by apply list_elem_of_fmap_2.
Qed.
Lemma store_chunks_run ps d :
  forM (map store_chunk (map Chunk_new ps)) id d = (Ok tt, set_chunks (add_pieces ps (chunk_tree d)) d).
Proof.
  revert d. induction ps as [|p ps IH]; intros d; [by destruct d|]. cbn [map forM].
  unfold bindM at 1. unfold id at 1, store_chunk at 1, bindM at 1, liftM. rewrite (proj2 (verify_ok _ tt)) by done. cbn -[forM map add_pieces].
  by rewrite IH.
Qed.

Lemma validate_describe i from cs :
  Forall (λ c, Z.of_nat (length (chunk_bytes c)) ≤ CHUNK_SIZE_LARGE) cs → validate_from i from (describe from cs) = Ok tt.
Proof.
  intros Hc. revert i from. induction Hc as [|c cs Hl _ IH]; intros i from; cbn [describe validate_from offset size]; [done|].
  rewrite Z.eqb_refl. cbn [negb]. rewrite Z.mod_small by (unfold CHUNK_SIZE_LARGE in *; lia). apply IH.
Qed.

Lemma manifest_of_valid data t : Manifest_validate (manifest_of data t) = Ok tt.
Proof.
  apply validate_describe. rewrite chunk_data_new, Forall_map. apply (Forall_impl _ _ _ (pieces_bound data)). done.
Qed.

Lemma describe_stored d from ps :
  Forall (λ p, Z.of_nat (length p) ≤ CHUNK_SIZE_LARGE) ps → Forall (λ p, chunk_tree d !! hash_bytes p = Some p) ps →
  Forall2 (stored d) (describe from (map Chunk_new ps)) ps.
Proof.
  intros Hl. revert from. induction Hl as [|p ps Hp _ IH]; intros from Hs; [constructor|]. apply Forall_cons in Hs as [Ht Hs].
  cbn [map describe]. constructor; [|by apply IH]. repeat split; cbn; [done|]. rewrite Z.mod_small by (unfold CHUNK_SIZE_LARGE in *; lia). done.
Qed.

Lemma describe_present (tree : gmap bytes bytes) from ps :
  (∀ p, p ∈ ps → is_Some (tree !! hash_bytes p)) → Forall (λ desc, is_Some (tree !! desc_chunk_id desc)) (describe from (map Chunk_new ps)).
Proof.
  revert from. induction ps as [|p ps IH]; intros from Hin; constructor; [apply Hin; by left|]. apply IH. intros q Hq. apply Hin. by right.
Qed.

(** The database when the first [k] writes of a put have been made. *)
Definition after_writes (k : nat) (data : bytes) (t : ObjectType) (by_node : bytes) (now : Z) (d : Db) : Db :=
  (forM (take k (put_writes data t by_node now)) id d).2.

Lemma after_writes_eq k data t by_node now d :
  after_writes k data t by_node now d =
  match k with
  | 0%nat => d
  | 1%nat => store_object (object_of data t by_node now) d
  | 2%nat => write_manifest (manifest_of data t) (store_object (object_of data t by_node now) d)
  | S (S (S j)) => let d := store_manifest (manifest_of data t) (store_object (object_of data t by_node now) d) in
               set_chunks (add_pieces (take j (pieces data)) (chunk_tree d)) d
  end.
Proof.
  unfold after_writes, put_writes. destruct k as [|[|[|j]]]; [done..|]. cbn [take forM]. unfold bindM, modifyM, id at 1 2 3.
  rewrite chunk_data_new, !firstn_map, store_chunks_run. done.
Qed.

Lemma put_object_run data t by_node now d :
  data ≠ [] → put_object data t by_node now d
  = (Ok (object_of data t by_node now), after_writes (3 + length (pieces data)) data t by_node now d).
Proof.
  intros Hd. rewrite after_writes_eq. cbn [Nat.add]. rewrite take_ge by done. unfold put_object. destruct data as [|x data]; [done|]. cbn [is_empty].
  unfold bindM at 1, liftM. rewrite manifest_of_valid. unfold bindM, put_writes. cbn [forM]. unfold bindM, modifyM, id at 1 2 3.
  by rewrite chunk_data_new, store_chunks_run.
Qed.
(** The texts of the chunks that are stored. *)
Definition texts (d : Db) : list bytes := map snd (map_to_list (chunk_tree d)).

Lemma texts_in d k p : chunk_tree d !! k = Some p → p ∈ texts d.
Proof. intros Hp. apply list_elem_of_fmap. exists (k, p). split; [done|]. by apply elem_of_map_to_list. Qed.

Lemma stored_keep d d' qs L descs ps :
  chunk_tree d' = add_pieces qs (chunk_tree d) → texts d ⊆ L → qs ⊆ L →
  Forall2 (stored d) descs ps → Forall2 (stored d') descs ps ∨ collision L.
Proof.
  intros Hd' Ht Hq. induction 1 as [|desc p descs ps (Hp & Hh & Hl) _ [IH|IH]]; [by left; constructor| |by right].
  destruct (add_pieces_keep qs (chunk_tree d) (desc_chunk_id desc) p L) as [Hk|]; [|done|done| |by right].
  - left. split; [done|]. apply Ht. by eapply texts_in.
  - left. constructor; [|done]. split; [by rewrite Hd'|]. done.
Qed.

Lemma get_object_keep d d' qs L id x :
  manifests d' !! id = manifests d !! id → chunk_tree d' = add_pieces qs (chunk_tree d) → texts d ⊆ L → qs ⊆ L →
  get_object d id = Ok x → get_object d' id = Ok x ∨ collision L.
Proof.
  intros Hm Hc Ht Hq (m & ps & Hm' & Hv & Hps & Hx & Hh)%get_object_spec.
  destruct (stored_keep d d' qs L (chunks m) ps) as [Hs|]; [done..| |by right].
  left. apply get_object_spec. exists m, ps. by rewrite Hm.
Qed.

Lemma after_writes_chunks k data t by_node now d :
  chunk_tree (after_writes k data t by_node now d) = add_pieces (take (k - 3) (pieces data)) (chunk_tree d).
Proof. rewrite after_writes_eq. destruct k as [|[|[|j]]]; [done..|]. cbn [Nat.sub]. by rewrite Nat.sub_0_r. Qed.

Lemma after_writes_manifests k data t by_node now d id :
  manifests (after_writes k data t by_node now d) !! id =
  if (2 <=? k)%nat && bool_decide (object_id_of data t = id) then Some (manifest_of data t) else manifests d !! id.
Proof.
  rewrite after_writes_eq. destruct k as [|[|[|j]]]; [done..| |];
    cbn; (case_bool_decide as Hid; [subst; apply lookup_insert_eq|by apply lookup_insert_ne]).
Qed.

Lemma has_chunk_true d id : has_chunk d id = true ↔ is_Some (chunk_tree d !! id).
Proof. apply bool_decide_eq_true. Qed.

Lemma is_complete_spec d id :
  is_complete d id = true ↔ ∃ m, manifests d !! id = Some m ∧ Forall (λ desc, is_Some (chunk_tree d !! desc_chunk_id desc)) (chunks m).
Proof.
  unfold is_complete, get_manifest_by_object, get_missing_chunks. destruct (manifests d !! id) as [m|]; [|naive_solver].
  transitivity (Forall (λ desc, is_Some (chunk_tree d !! desc_chunk_id desc)) (chunks m)); [|naive_solver].
  induction (chunks m) as [|desc descs IH]; [by split; [constructor|]|]. cbn. rewrite Forall_cons, <- IH, <- has_chunk_true.
  destruct (has_chunk d _); cbn; naive_solver.
Qed.

(** C14 An object that is put is complete and reads back as its data; an empty one is refused. *)
Theorem put_get (data : bytes) (t : ObjectType) (by_node : bytes) (now : Z) (d : Db) :
  match put_object data t by_node now d with
  | (Ok o, d') => data ≠ [] ∧ object_id o = object_id_of data t ∧ get_object_metadata d' (object_id o) = Some o
                  ∧ is_complete d' (object_id o) = true ∧ (get_object d' (object_id o) = Ok data ∨ collision (pieces data))
  | (Throw _, d') => data = [] ∧ d' = d
  end.
Proof.
  destruct (decide (data = [])) as [->|Hd]; [done|]. rewrite put_object_run by done. split; [done|]. split; [done|].
  set (d' := after_writes _ data t by_node now d). cbn [object_of object_id].
  assert (manifests d' !! object_id_of data t = Some (manifest_of data t)) as Hm.
  { unfold d'. rewrite after_writes_manifests. cbn. by rewrite bool_decide_eq_true_2. }
  assert (chunk_tree d' = add_pieces (pieces data) (chunk_tree d)) as Hc.
  { unfold d'. rewrite after_writes_chunks. cbn [Nat.add Nat.sub]. by rewrite Nat.sub_0_r, take_ge. }
  split; [|split].
  - unfold d'. rewrite after_writes_eq. apply lookup_insert_eq.
  - apply is_complete_spec. exists (manifest_of data t). split; [done|]. cbn [manifest_of chunks]. rewrite Hc, chunk_data_new. apply describe_present.
    intros p Hp. by destruct (add_pieces_in _ (chunk_tree d) p Hp) as (q & _ & _ & ->).
  - destruct (decide (Forall (λ p, chunk_tree d' !! hash_bytes p = Some p) (pieces data))) as [Hall|Hsome].
    + left. apply get_object_spec. exists (manifest_of data t), (pieces data). split; [done|]. split; [apply manifest_of_valid|]. split.
      * cbn. rewrite chunk_data_new. by apply describe_stored; [apply pieces_bound|].
      * by rewrite concat_pieces.
    + right. apply not_Forall_Exists, Exists_exists in Hsome as (p & Hp & Hne); [|apply _]. rewrite Hc in Hne.
      destruct (add_pieces_keep (pieces data) (chunk_tree d) (hash_bytes p) p (pieces data)) as [?|]; [by right|done..].
Qed.

(** C15 A put that is interrupted after any of its writes leaves every other object readable
    as it was, and its own object either unreadable or with the right data. *)
Theorem put_interrupted (k : nat) (data : bytes) (t : ObjectType) (by_node : bytes) (now : Z) (d : Db) (id x : bytes) :
  let d' := after_writes k data t by_node now d in
  if bool_decide (id = object_id_of data t)
  then manifests d !! id = None → get_object d' id = Ok x → x = data ∨ collision [x; data]
  else get_object d id = Ok x → get_object d' id = Ok x ∨ collision (pieces data ++ texts d).
Proof.
  cbv zeta. case_bool_decide as Hid.
  - intros Hnone (m & ps & Hm & _ & _ & _ & Hh)%get_object_spec. rewrite after_writes_manifests, Hnone in Hm.
    destruct (_ && _); [|done]. injection Hm as <-. apply equal_or_collide; [by left|by right; left|done].
  - apply get_object_keep with (qs := take (k - 3) (pieces data)).
    + rewrite after_writes_manifests, (bool_decide_eq_false_2 (object_id_of data t = id)) by done. by rewrite andb_false_r.
    + apply after_writes_chunks.
    + intros y Hy. apply elem_of_app. by right.
    + intros y Hy. apply elem_of_app. left. by apply elem_of_take in Hy as (i & Hi & _); apply list_elem_of_lookup_2 in Hi.
Qed.
End Facts.
End Objects.

(** ** The store as the programs' host

    The object store that src/wasm_runtime/host_apis.rs reads, in place of the open one of
    [Host.NodeHost]; the other parts of the host stay open. *)

Module StoreHost.
Import Rust Merkle Objects.

Definition Manifest_total_size (m : Manifest) : Z := foldr (λ d a, size d + a) 0 (chunks m).

Definition store_host (d : Db) (rest : Host.NodeHost) : Host.NodeHost := {|
  Host.get_manifest_by_object id :=
    Ok ((λ m, {| Host.total_size := Manifest_total_size m; Host.content_hash := content_hash m |}) <$> get_manifest_by_object d id);
  Host.get_object_metadata id := Ok (total_size <$> get_object_metadata d id);
  Host.db_fails := @Host.db_fails rest; Host.system_time := @Host.system_time rest; Host.os_random := @Host.os_random rest;
  Host.os_random_length := @Host.os_random_length rest; Host.os_random_bytes := @Host.os_random_bytes rest;
|}.

Lemma as_i64_small z : 0 ≤ z < 2 ^ 63 → Host.as_i64 z = z.
Proof. intros Hz. unfold Host.as_i64. rewrite Z.mod_small by lia. lia. Qed.

(** A program on a node that put a blob sees it: it exists, with its length and its digest. *)
Theorem host_sees_put `{Blake3} `{!Digest} `{ObjectCodec} (rest : Host.NodeHost) (data : bytes) (t : ObjectType) (by_node : bytes) (now : Z) (d : Db) :
  data ≠ [] → Z.of_nat (length data) < 2 ^ 63 →
  let d' := (put_object data t by_node now d).2 in
  let id := object_id_of data t in
  @Host.onvm_blob_exists (store_host d' rest) id = 1 ∧ @Host.onvm_blob_len (store_host d' rest) id = Z.of_nat (length data)
  ∧ @Host.onvm_blob_hash (store_host d' rest) id = (0, blake3 data).
Proof.
  intros Hd Hl d' id. assert (Host.read_object_id id = Ok id) as Hr.
  { unfold Host.read_object_id. unfold id, object_id_of, hash_bytes. by rewrite digest_length. }
  assert (manifests d' !! id = Some (manifest_of data t)) as Hm.
  { unfold d'. rewrite put_object_run by done. cbn [snd]. rewrite after_writes_manifests. cbn. by rewrite bool_decide_eq_true_2. }
  assert (objects d' !! id = Some (object_of data t by_node now)) as Ho.
  { unfold d'. rewrite put_object_run by done. cbn [snd]. rewrite after_writes_eq. cbn [Nat.add]. apply lookup_insert_eq. }
  unfold Host.onvm_blob_exists, Host.onvm_blob_len, Host.onvm_blob_hash. rewrite Hr.
  cbn [Host.get_manifest_by_object Host.get_object_metadata store_host]. unfold get_manifest_by_object, get_object_metadata. rewrite Hm, Ho. cbn.
  split; [done|]. split; [|done]. apply as_i64_small. lia.
Qed.

(** ** A store *)

Definition plain_codec : ObjectCodec := {|
  encode_object_type t := match t with Blob mime salt => 0 :: default [] mime ++ salt | WasmProgram e _ _ _ _ salt => 1 :: e ++ salt end;
  encode_manifest m := manifest_object m ++ content_hash m ++ concat (map desc_chunk_id (chunks m));
|}.

Definition sum_digests : @Digest RustModels.blake3_sum := {| digest_length := RustModels.blake3_sum_length; digest_bytes := RustModels.blake3_sum_bytes |}.

Definition empty_db : Db := {| objects := ∅; manifests := ∅; manifest_index := ∅; chunk_tree := ∅ |}.

#[local] Existing Instances RustModels.blake3_sum sum_digests plain_codec.

Lemma host_sees_put_witness :
  let host := store_host (put_object (js "hello") (Blob None []) [] 0 empty_db).2 RustModels.quiet_node in
  let id := object_id_of (js "hello") (Blob None []) in
  @Host.onvm_blob_exists host id = 1 ∧ @Host.onvm_blob_len host id = 5 ∧ @Host.onvm_blob_hash host id = (0, RustModels.blake3_sum (js "hello")).
Proof. apply (host_sees_put RustModels.quiet_node (js "hello") (Blob None []) [] 0 empty_db); done. Defined.
End StoreHost.
