(* ===== verification/ChunkTransfer.v ===== *)
(** * src/network/chunk_distributor.rs: objects between nodes

    How a node asks its peers for the metadata, the manifest and the chunks of an object,
    and how it answers such requests and messages (src/consensus/core/network_handlers.rs,
    src/network/unified_protocol.rs).  What peers answer, who is connected and which events
    other tasks handle while a fetch waits are open, indexed by a clock that advances with
    every request and every pause.  An object that one node put is what another fetches
    from peers that answer or fall silent; a node that has a manifest serves bytes other than
    it names only when another manifest is stored in its place. *)

From S2P Require Import Prelude JsValue Codec RustLib WasmHost RustModels Merkle StateStore UnifiedStore.

Module Transfer.
Import Rust Merkle Objects.

(** ** src/network/unified_protocol.rs *)

Definition PeerId : Type := bytes.

Record ObjectAnnouncement : Type := {
  announced_object : bytes;
  announced_manifest : bytes;
  announced_size : Z;
  announced_chunks : Z;
  providers : list rstr;
}.

Inductive UnifiedProtocolMessage : Type :=
| Announcement (a : ObjectAnnouncement)
| ObjectMetadata (o : Object)
| ObjectMetadataRequest (id : bytes)
| ManifestRequest (id : bytes)
| ManifestResponse (m : Manifest).

Inductive UnifiedRequest : Type :=
| GetManifest (id : bytes)
| GetChunk (id : bytes)
| GetChunkPart (id : bytes) (part_offset length : Z)
| GetChunks (ids : list bytes)
| GetObjectAvailability (id : bytes)
| GetObjectMetadata (id : bytes).

Record ObjectAvailabilityResponse : Type := {
  has_object : bool;
  has_manifest : bool;
  available_chunks : list bytes;
  missing_chunks : list bytes;
  metadata : option Object;
}.

Inductive UnifiedResponse : Type :=
| RManifest (m : option Manifest)
| RChunk (id : bytes) (data : option bytes)
| RChunkPart (id : bytes) (part_offset : Z) (data : option bytes)
| RChunks (cs : list (bytes * option bytes))
| RObjectAvailability (id : bytes) (a : ObjectAvailabilityResponse)
| RObjectMetadata (id : bytes) (o : option Object).

(** [peer_id.to_string()] and its inverse, of libp2p. *)
Class PeerText : Type := {
  peer_to_string : PeerId → rstr;
  parse_peer : rstr → option PeerId;
  parse_to_string : ∀ p, parse_peer (peer_to_string p) = Some p;
}.

(** ** Answering *)

Section Answers.
Context `{Blake3} `{ObjectCodec}.

Definition ok_or_none {A} (o : outcome rstr (option A)) : option A := match o with Ok x => x | Throw _ => None end.

Definition part_of (part_offset length : Z) (data : bytes) : option bytes :=
  let start := Z.to_nat part_offset in
  if (List.length data <=? start)%nat then None else Some (take (Z.to_nat length) (drop start data)).

Definition handle_unified_request (d : Db) (req : UnifiedRequest) : outcome rstr UnifiedResponse :=
  match req with
  | GetChunk id => let! chunk := get_chunk d id in Ok (RChunk id (chunk_bytes <$> chunk))
  | GetChunkPart id off len =>
      if (len =? 0) || (CHUNK_SIZE_SMALL <? len) then Ok (RChunkPart id off None)
      else let! chunk := get_chunk d id in Ok (RChunkPart id off (chunk ≫= λ c, part_of off len (chunk_bytes c)))
  | GetManifest id => Ok (RManifest (if is_complete d id then get_manifest_by_object d id else None))
  | GetChunks ids => Ok (RChunks (map (λ id, (id, chunk_bytes <$> ok_or_none (get_chunk d id))) ids))
  | GetObjectAvailability id =>
      let manifest := get_manifest_by_object d id in
      let missing := match manifest with Some m => get_missing_chunks d m | None => [] end in
      let available := match manifest with
                       | Some m => List.filter (λ c, negb (contains missing c)) (map desc_chunk_id (chunks m))
                       | None => []
                       end in
      Ok (RObjectAvailability id
            {| has_object := is_complete d id; has_manifest := bool_decide (is_Some manifest);
               available_chunks := available; missing_chunks := missing; metadata := get_object_metadata d id |})
  | GetObjectMetadata id => Ok (RObjectMetadata id (if is_complete d id then get_object_metadata d id else None))
  end.
End Answers.

(** ** The distributor *)

Record Distributor : Type := {
  store : Db;
  provider_map : gmap bytes (gmap PeerId ());
  clock : nat;
  provided : list bytes;
  looked_up : list bytes;
  published : list UnifiedProtocolMessage;
  spawned : list bytes;
}.

Definition set_store (x : Db) (s : Distributor) : Distributor :=
  {| store := x; provider_map := provider_map s; clock := clock s; provided := provided s; looked_up := looked_up s;
     published := published s; spawned := spawned s |}.
Definition set_provider_map (x : gmap bytes (gmap PeerId ())) (s : Distributor) : Distributor :=
  {| store := store s; provider_map := x; clock := clock s; provided := provided s; looked_up := looked_up s;
     published := published s; spawned := spawned s |}.
Definition set_clock (x : nat) (s : Distributor) : Distributor :=
  {| store := store s; provider_map := provider_map s; clock := x; provided := provided s; looked_up := looked_up s;
     published := published s; spawned := spawned s |}.
Definition provide (id : bytes) (s : Distributor) : Distributor :=
  {| store := store s; provider_map := provider_map s; clock := clock s; provided := provided s ++ [id]; looked_up := looked_up s;
     published := published s; spawned := spawned s |}.
Definition find_providers (id : bytes) (s : Distributor) : Distributor :=
  {| store := store s; provider_map := provider_map s; clock := clock s; provided := provided s; looked_up := looked_up s ++ [id];
     published := published s; spawned := spawned s |}.
Definition publish (m : UnifiedProtocolMessage) (s : Distributor) : Distributor :=
  {| store := store s; provider_map := provider_map s; clock := clock s; provided := provided s; looked_up := looked_up s;
     published := published s ++ [m]; spawned := spawned s |}.
Definition spawn (id : bytes) (s : Distributor) : Distributor :=
  {| store := store s; provider_map := provider_map s; clock := clock s; provided := provided s; looked_up := looked_up s;
     published := published s; spawned := spawned s ++ [id] |}.

Inductive Event : Type :=
| Inbound (m : UnifiedProtocolMessage)
| TransferResponse (r : UnifiedResponse)
| ProvidersFound (key : bytes) (peers : list PeerId)
| OtherFetch (m : Manifest).

(** The network as a fetch meets it: [ask n p req] is what comes of a request to [p] at time
    [n], a timeout and a closed channel included; [arrivals n] are the events that are handled
    while the node waits at that time, the manifest that a fetch of another task receives and
    stores (fetch_manifest) among them; [connected n] the connected peers; [schedule] is the
    order in which the concurrent fetches of chunks end. *)
Class World : Type := {
  ask : nat → PeerId → UnifiedRequest → outcome rstr UnifiedResponse;
  arrivals : nat → list Event;
  connected : nat → list PeerId;
  schedule : list ChunkDescriptor → list ChunkDescriptor;
  schedule_perm : ∀ l, schedule l ≡ₚ l;
}.

Section Fetching.
Context `{Blake3} `{ObjectCodec} `{HashIter} `{PeerText}.

(** *** network_handlers.rs *)

Definition add_providers (id : bytes) (peers : list PeerId) (s : Distributor) : Distributor :=
  set_provider_map (<[id := fold_left (λ e p, <[p := tt]> e) peers (default ∅ (provider_map s !! id))]> (provider_map s)) s.

Definition handle_announcement (a : ObjectAnnouncement) (s : Distributor) : Distributor :=
  add_providers (announced_object a) (omap parse_peer (providers a)) s.

Definition handle_providers_found (key : bytes) (peers : list PeerId) (s : Distributor) : Distributor :=
  if (length key =? 32)%nat && negb (is_empty peers) then add_providers key peers s else s.

(** [let _ = store.store_chunk(&chunk)]. *)
Definition keep_chunk (id data : bytes) (s : Distributor) : Distributor :=
  set_store (store_chunk {| chunk_id := id; chunk_bytes := data |} (store s)).2 s.

Definition handle_transfer_response (r : UnifiedResponse) (s : Distributor) : Distributor :=
  match r with
  | RManifest (Some m) => set_store (store_manifest m (store s)) s
  | RChunk id (Some data) => keep_chunk id data s
  | RChunks cs => fold_left (λ s c, match c.2 with Some data => keep_chunk c.1 data s | None => s end) cs s
  | RObjectMetadata _ (Some o) => set_store (store_object o (store s)) s
  | _ => s
  end.

(** The fetch of an object whose metadata is new runs in a task of its own. *)
Definition handle_unified_protocol (m : UnifiedProtocolMessage) (s : Distributor) : Distributor :=
  match m with
  | Announcement a => handle_announcement a s
  | ObjectMetadata o =>
      let already_have := bool_decide (is_Some (get_object_metadata (store s) (object_id o))) in
      let complete := is_complete (store s) (object_id o) in
      let s := if negb already_have then set_store (store_object o (store s)) s else s in
      if negb complete && negb already_have then spawn (object_id o) s else s
  | ObjectMetadataRequest id =>
      match get_object_metadata (store s) id with
      | Some o => if is_complete (store s) id then publish (ObjectMetadata o) s else s
      | None => s
      end
  | ManifestRequest id =>
      if negb (is_complete (store s) id) then s
      else match get_manifest_by_object (store s) id with
           | Some m => publish (ManifestResponse m) s
           | None => s
           end
  | ManifestResponse m =>
      match get_manifest_by_object (store s) (manifest_object m) with
      | None => set_store (store_manifest m (store s)) s
      | Some _ => s
      end
  end.

Definition handle_network_event (e : Event) (s : Distributor) : Distributor :=
  match e with
  | Inbound m => handle_unified_protocol m s
  | TransferResponse r => handle_transfer_response r s
  | ProvidersFound key peers => handle_providers_found key peers s
  | OtherFetch m => set_store (store_manifest m (store s)) s
  end.

(** *** ingestion.rs *)

Definition from_object (o : Object) (local_peer : PeerId) : ObjectAnnouncement :=
  {| announced_object := object_id o; announced_manifest := manifest_id o; announced_size := total_size o;
     announced_chunks := chunk_count o; providers := [peer_to_string local_peer] |}.

(** The node provides the object and publishes its metadata and the announcement. *)
Definition ingest_local_object (me : PeerId) (o : Object) (s : Distributor) : Distributor :=
  publish (Announcement (from_object o me)) (publish (ObjectMetadata o) (provide (object_id o) s)).

(** *** chunk_distributor.rs *)

Context {W : World}.

Definition SUBCHUNK_SIZE_BYTES : Z := CHUNK_SIZE_SMALL.
Definition MAX_PROVIDER_TRIES_PER_CHUNK : nat := 3.
Definition MAX_PROVIDER_TRIES_PER_PART : nat := 3.
Definition MAX_CHUNK_FETCH_ATTEMPTS : nat := 4.

(** The pauses of 200 ms within [FIND_PROVIDERS_MAX_WAIT]. *)
Definition FIND_PROVIDERS_PAUSES : nat := 25.

(** Time passes, and the events of that time are handled. *)
Definition tick (s : Distributor) : Distributor :=
  set_clock (S (clock s)) (fold_left (λ s e, handle_network_event e s) (arrivals (clock s)) s).

Definition request_unified (peer : PeerId) (req : UnifiedRequest) : M rstr Distributor UnifiedResponse :=
  λ s, (ask (clock s) peer req, tick s).

Definition in_store {A} (c : M rstr Db A) : M rstr Distributor A :=
  λ s, let '(o, d) := c (store s) in (o, set_store d s).

(** [.context(text)]: the text that is displayed. *)
Definition context {A} (text : rstr) (c : M rstr Distributor A) : M rstr Distributor A := catchM c (λ _, throwM text).

Definition get_providers_for_object (s : Distributor) (id : bytes) : list PeerId :=
  match provider_map s !! id with Some set => map fst (into_iter set) | None => [] end.

Definition get_all_connected_peers (s : Distributor) : list PeerId := connected (clock s).

Fixpoint poll_providers (n : nat) (id : bytes) (s : Distributor) : Distributor :=
  match get_providers_for_object s id, n with
  | _ :: _, _ | _, 0%nat => s
  | [], S n => poll_providers n id (tick s)
  end.

Definition ensure_providers_for_object (id : bytes) (s : Distributor) : Distributor :=
  match get_providers_for_object s id with
  | [] => poll_providers FIND_PROVIDERS_PAUSES id (find_providers id s)
  | _ => s
  end.

(** The first peer that does not fail; [None] when all do. *)
Fixpoint first_success {A} (request : PeerId → M rstr Distributor A) (peers : list PeerId) : M rstr Distributor (option A) :=
  match peers with
  | [] => retM None
  | p :: rest => catchM (let* a := request p in retM (Some a)) (λ _, first_success request rest)
  end.

Definition request_chunk_from_peer (id : bytes) (peer : PeerId) : M rstr Distributor bytes :=
  let* resp := request_unified peer (GetChunk id) in
  match resp with
  | RChunk got_id data =>
      if negb (str_eqb got_id id) then throwM (js "chunk id mismatch in response")
      else match data with Some bs => retM bs | None => throwM (js "chunk not found on peer") end
  | _ => throwM (js "unexpected response for GetChunk")
  end.

Definition request_chunk_part_from_peer (id : bytes) (part_offset length : Z) (peer : PeerId) : M rstr Distributor bytes :=
  let* resp := request_unified peer (GetChunkPart id part_offset length) in
  match resp with
  | RChunkPart got_id got_offset data =>
      if negb (str_eqb got_id id) then throwM (js "chunk id mismatch in part response")
      else if negb (got_offset =? part_offset)
      then throwM (js "chunk part offset mismatch: expected " ++ Z_to_str part_offset ++ js ", got " ++ Z_to_str got_offset)
      else match data with Some bs => retM bs | None => throwM (js "chunk part not found on peer") end
  | _ => throwM (js "unexpected response for GetChunkPart")
  end.

(** A part of another length than was asked for counts as a failure of the peer. *)
Definition request_part (id : bytes) (part_offset want_len : Z) (peer : PeerId) : M rstr Distributor bytes :=
  let* part := request_chunk_part_from_peer id part_offset want_len peer in
  if negb (Z.of_nat (length part) =? want_len) then throwM [] else retM part.

(** The loop over the parts; [out] holds the bytes below [part_offset]. *)
Fixpoint fetch_parts (fuel : nat) (peers : list PeerId) (id : bytes) (chunk_size part_offset : Z) (out : bytes) : M rstr Distributor bytes :=
  if negb (part_offset <? chunk_size) then retM out
  else match fuel with
  | 0%nat => retM out
  | S fuel =>
      let want_len := Z.min SUBCHUNK_SIZE_BYTES (chunk_size - part_offset) in
      let* got := first_success (request_part id part_offset want_len) (take MAX_PROVIDER_TRIES_PER_PART peers) in
      match got with
      | None => throwM (js "all providers failed for chunk " ++ hex_encode id ++ js " part off=" ++ Z_to_str part_offset)
      | Some part => fetch_parts fuel peers id chunk_size (part_offset + want_len) (out ++ part)
      end
  end.

Definition fetch_chunk_data_from_providers (peers : list PeerId) (id : bytes) (chunk_size : Z) : M rstr Distributor bytes :=
  if chunk_size <=? SUBCHUNK_SIZE_BYTES then
    let* got := first_success (request_chunk_from_peer id) (take MAX_PROVIDER_TRIES_PER_CHUNK peers) in
    match got with
    | Some data => retM data
    | None => throwM (js "all providers failed for chunk " ++ hex_encode id)
    end
  else fetch_parts (Z.to_nat (div_ceil_u64 chunk_size SUBCHUNK_SIZE_BYTES)) peers id chunk_size 0 [].

(** The providers of an attempt. *)
Definition find_peers (object : bytes) : M rstr Distributor (list PeerId) :=
  let* s := getM in
  do* match get_providers_for_object s object with
      | [] => modifyM (ensure_providers_for_object object)
      | _ => retM tt
      end in
  let* s := getM in
  retM (match get_providers_for_object s object with [] => get_all_connected_peers s | peers => peers end).

(** [tries] attempts remain. *)
Fixpoint fetch_attempts (tries : nat) (object : bytes) (desc : ChunkDescriptor) : M rstr Distributor unit :=
  match tries with
  | 0%nat => throwM (js "chunk " ++ hex_encode (desc_chunk_id desc) ++ js " exceeded max retries")
  | S tries =>
      let* peers := find_peers object in
      if is_empty peers then throwM (js "no providers available for " ++ hex_encode object)
      else
        let* fetched := (λ s, let '(o, s) := fetch_chunk_data_from_providers peers (desc_chunk_id desc) (size desc) s in (Ok o, s)) in
        match fetched with
        | Ok data =>
            let chunk := {| chunk_id := desc_chunk_id desc; chunk_bytes := data |} in
            do* context (js "chunk verification failed") (liftM (Chunk_verify chunk)) in
            in_store (store_chunk chunk)
        | Throw e =>
            match tries with
            | 0%nat => throwM e
            | _ => do* modifyM tick in fetch_attempts tries object desc
            end
        end
  end.

Definition fetch_single_chunk (object : bytes) (desc : ChunkDescriptor) : M rstr Distributor unit :=
  let* s := getM in
  if has_chunk (store s) (desc_chunk_id desc) then retM tt else fetch_attempts MAX_CHUNK_FETCH_ATTEMPTS object desc.

(** The pauses while gossip may bring a record; [look] reads it. *)
Fixpoint poll_gossip {A} (n : nat) (look : Db → option A) (failure : rstr) : M rstr Distributor A :=
  match n with
  | 0%nat => throwM failure
  | S n =>
      do* modifyM tick in
      let* s := getM in
      match look (store s) with Some a => retM a | None => poll_gossip n look failure end
  end.

(** The peers to ask for a record of an object. *)
Definition peers_for (id : bytes) : M rstr Distributor (list PeerId) :=
  do* modifyM (λ s, poll_providers FIND_PROVIDERS_PAUSES id (find_providers id s)) in
  let* s := getM in
  retM (match get_providers_for_object s id with [] => get_all_connected_peers s | peers => peers end).

Definition request_object_metadata_from_peer (id : bytes) (peer : PeerId) : M rstr Distributor Object :=
  let* resp := request_unified peer (GetObjectMetadata id) in
  match resp with
  | RObjectMetadata _ (Some o) => retM o
  | RObjectMetadata _ None => throwM (js "peer returned no metadata")
  | _ => throwM (js "unexpected response for GetObjectMetadata")
  end.

Definition fetch_object_metadata (id : bytes) : M rstr Distributor Object :=
  let* peers := peers_for id in
  if is_empty peers then throwM (js "no connected peers")
  else
    let* got := first_success (request_object_metadata_from_peer id) (take 5 peers) in
    match got with
    | Some o => do* modifyM (λ s, set_store (store_object o (store s)) s) in retM o
    | None =>
        do* modifyM (publish (ObjectMetadataRequest id)) in
        poll_gossip 6 (λ d, get_object_metadata d id) (js "no peer provided metadata")
    end.

Definition request_manifest_from_peer (id : bytes) (peer : PeerId) : M rstr Distributor Manifest :=
  let* resp := request_unified peer (GetManifest id) in
  match resp with
  | RManifest (Some m) => retM m
  | RManifest None => throwM (js "peer returned no manifest")
  | _ => throwM (js "unexpected response for GetManifest")
  end.

Definition fetch_manifest (id : bytes) : M rstr Distributor Manifest :=
  let* peers := peers_for id in
  let* got := first_success (request_manifest_from_peer id) (take 5 peers) in
  match got with
  | Some m => do* modifyM (λ s, set_store (store_manifest m (store s)) s) in retM m
  | None =>
      do* modifyM (publish (ManifestRequest id)) in
      poll_gossip 10 (λ d, get_manifest_by_object d id) (js "no peer provided manifest")
  end.

(** The read of the whole object, and the announcement that the node has it. *)
Definition reassemble (id : bytes) : M rstr Distributor bytes :=
  let* s := getM in
  let* data := liftM (get_object (store s) id) in
  do* modifyM (provide id) in retM data.

(** The descriptors of the chunks to fetch. *)
Definition missing_descs (d : Db) (m : Manifest) : list ChunkDescriptor :=
  List.filter (λ desc, negb (has_chunk d (desc_chunk_id desc))) (chunks m).

(** The rest of [fetch_object] once the manifest is there. *)
Definition fetch_missing (id : bytes) (manifest : Manifest) : M rstr Distributor bytes :=
  do* liftM (Manifest_validate manifest) in
  let* s := getM in
  let missing := missing_descs (store s) manifest in
  if is_empty missing then reassemble id
  else
    do* modifyM (ensure_providers_for_object id) in
    do* forM (schedule missing) (fetch_single_chunk id) in
    context (js "reassembling object after chunk fetch") (reassemble id).

Definition fetch_object (id : bytes) : M rstr Distributor bytes :=
  let* s := getM in
  if is_complete (store s) id then liftM (get_object (store s) id)
  else
    do* match get_object_metadata (store s) id with
        | Some _ => retM tt
        | None => do* fetch_object_metadata id in retM tt
        end in
    let* s := getM in
    let* manifest := match get_manifest_by_object (store s) id with
                     | Some m => retM m
                     | None => fetch_manifest id
                     end in
    fetch_missing id manifest.

(** *** ingestion.rs: fetch_blob

    [distributor] says whether the node has one. *)
Definition fetch_blob (distributor : bool) (id : bytes) : M rstr Distributor bytes :=
  let* s := getM in
  if is_complete (store s) id then liftM (get_object (store s) id)
  else if distributor then
    do* context (js "network blob fetch failed") (fetch_object id) in
    let* s := getM in
    context (js "blob fetch completed but still unavailable") (liftM (get_object (store s) id))
  else throwM (js "blob not available locally and no chunk distributor configured").
End Fetching.

(** ** Replication

    Nothing else happens while the node fetches; each provider either answers from a store
    that holds the object, or does not answer. *)

Section Replication.
Context `{Blake3} `{ObjectCodec} `{HashIter} `{PeerText} {W : World}.
Context (data id : bytes) (m : Manifest).

(** A manifest under [id] for [data], made as [put_object] makes it. *)
Definition made_for : Prop := manifest_object m = id ∧ content_hash m = hash_bytes data ∧ chunks m = describe 0 (chunk_data data).

(** What is stored of an object with that manifest. *)
Definition holds (d : Db) : Prop :=
  is_Some (get_object_metadata d id) ∧ manifests d !! id = Some m
  ∧ Forall (λ p, chunk_tree d !! hash_bytes p = Some p) (pieces data).

Definition honest (p : PeerId) : Prop := ∃ d, holds d ∧ ∀ n req, ask n p req = handle_unified_request d req.
Definition silent (p : PeerId) : Prop := ∀ n req, ∃ e, ask n p req = Throw e.

(** One of the first three answers. *)
Definition reachable_copy (peers : list PeerId) : Prop :=
  Forall (λ p, honest p ∨ silent p) peers ∧ Exists honest (take 3 peers).

(** [c] ends with [a], and with [d] in the store. *)
Definition delivers {A} (c : M rstr Distributor A) (s : Distributor) (a : A) (d : Db) : Prop :=
  ∃ s', c s = (Ok a, s') ∧ store s' = d ∧ provider_map s' = provider_map s.

Lemma delivers_bind {A B} (c : M rstr Distributor A) (k : A → M rstr Distributor B) s a b d d' :
  delivers c s a d → (∀ s', store s' = d → provider_map s' = provider_map s → delivers (k a) s' b d') → delivers (bindM c k) s b d'.
Proof.
  intros (s' & Hc & Hd & Hp) Hk. destruct (Hk s' Hd Hp) as (s'' & Hk' & Hd' & Hp'). exists s''. unfold bindM. rewrite Hc.
  split; [done|]. split; [done|]. congruence.
Qed.

Lemma delivers_ret {A} (a : A) s d : store s = d → delivers (retM a) s a d.
Proof. intros. by exists s. Qed.

Lemma delivers_modify f s d : store (f s) = d → provider_map (f s) = provider_map s → delivers (modifyM f) s tt d.
Proof. intros. by exists (f s). Qed.

Lemma delivers_context {A} text (c : M rstr Distributor A) s a d : delivers c s a d → delivers (context text c) s a d.
Proof. intros (s' & Hc & Hd & Hp). exists s'. unfold context, catchM. by rewrite Hc. Qed.

Lemma delivers_get {B} (k : Distributor → M rstr Distributor B) s b d : delivers (k s) s b d → delivers (bindM getM k) s b d.
Proof. done. Qed.

Context (quiet : ∀ n, arrivals n = []) (made : made_for).

Lemma made_valid : Manifest_validate m = Ok tt.
Proof.
  destruct made as (_ & _ & Hc). unfold Manifest_validate. rewrite Hc. apply validate_describe. rewrite chunk_data_new, Forall_map.
  apply (Forall_impl _ _ _ (pieces_bound data)). done.
Qed.

Lemma tick_quiet s : store (tick s) = store s ∧ provider_map (tick s) = provider_map s.
Proof. unfold tick. by rewrite quiet. Qed.

Lemma providers_same s s' : provider_map s' = provider_map s → get_providers_for_object s' id = get_providers_for_object s id.
Proof. unfold get_providers_for_object. by intros ->. Qed.

(** The first peer that answers is honest, and its answer is [a]. *)
Lemma first_success_delivers {A} (request : PeerId → M rstr Distributor A) (a : A → Prop) peers s :
  (∀ p s, honest p → ∃ x, a x ∧ delivers (request p) s x (store s)) →
  (∀ p s, silent p → ∃ e s', request p s = (Throw e, s') ∧ store s' = store s ∧ provider_map s' = provider_map s) →
  Forall (λ p, honest p ∨ silent p) peers → Exists honest peers →
  ∃ x, a x ∧ delivers (first_success request peers) s (Some x) (store s).
Proof.
  intros Hh Hs. revert s. induction peers as [|p peers IH]; intros s Hall Hex; [by apply Exists_nil in Hex|].
  apply Forall_cons in Hall as [[Hp|Hp] Hall]; cbn [first_success].
  - destruct (Hh p s Hp) as (x & Hx & s' & Hr & Hd & Hm). exists x. split; [done|]. exists s'. unfold catchM, bindM. by rewrite Hr.
  - destruct (Hs p s Hp) as (e & s' & Hr & Hd & Hm).
    apply Exists_cons in Hex as [Hhon|Hex].
    + destruct Hhon as (d & Hd' & Hask). destruct (Hp 0%nat (GetManifest [])) as [e' He]. rewrite Hask in He. done.
    + destruct (IH s' Hall Hex) as (x & Hx & s'' & Hf & Hd' & Hm'). exists x. split; [done|]. exists s''. unfold catchM, bindM. rewrite Hr.
      split; [done|]. split; congruence.
Qed.

Lemma request_honest {A} p d req (k : UnifiedResponse → M rstr Distributor A) s resp x :
  (∀ n req, ask n p req = handle_unified_request d req) → handle_unified_request d req = Ok resp → k resp = retM x →
  delivers (bindM (request_unified p req) k) s x (store s).
Proof.
  intros Hask Hr Hk. exists (tick s). unfold bindM, request_unified. rewrite Hask, Hr, Hk. split; [done|]. apply tick_quiet.
Qed.

Lemma request_silent {A} p req (k : UnifiedResponse → M rstr Distributor A) s :
  silent p → ∃ e s', bindM (request_unified p req) k s = (Throw e, s') ∧ store s' = store s ∧ provider_map s' = provider_map s.
Proof.
  intros Hp. destruct (Hp (clock s) req) as [e He]. exists e, (tick s). unfold bindM, request_unified. rewrite He. split; [done|]. apply tick_quiet.
Qed.

Lemma fails_bind {A B} (c : M rstr Distributor A) (k : A → M rstr Distributor B) s :
  (∃ e s', c s = (Throw e, s') ∧ store s' = store s ∧ provider_map s' = provider_map s) →
  ∃ e s', bindM c k s = (Throw e, s') ∧ store s' = store s ∧ provider_map s' = provider_map s.
Proof. intros (e & s' & Hc & ?). exists e, s'. unfold bindM. by rewrite Hc. Qed.

Lemma peer_chunk d q : holds d → q ∈ pieces data → get_chunk d (hash_bytes q) = Ok (Some (Chunk_new q)).
Proof. intros (_ & _ & Hc) Hq. apply get_chunk_some. rewrite Forall_forall in Hc. split; [by apply Hc|done]. Qed.
Section Chunks.
Context (peers : list PeerId) (copy : reachable_copy peers).

Lemma copy_within n : (3 ≤ n)%nat → Forall (λ p, honest p ∨ silent p) (take n peers) ∧ Exists honest (take n peers).
Proof.
  intros Hn. destruct copy as [Hall Hex]. split; [by apply Forall_take|]. apply Exists_exists in Hex as (p & Hp & Hh).
  apply Exists_exists. exists p. split; [|done]. replace (take 3 peers) with (take 3 (take n peers)) in Hp by (rewrite take_take; f_equal; lia).
  by apply elem_of_take in Hp as (i & Hi & _); apply list_elem_of_lookup_2 in Hi.
Qed.

Lemma whole_delivers q s :
  q ∈ pieces data → delivers (first_success (request_chunk_from_peer (hash_bytes q)) (take MAX_PROVIDER_TRIES_PER_CHUNK peers)) s (Some q) (store s).
Proof.
  intros Hq. destruct (copy_within 3 ltac:(lia)) as [Hall Hex].
  destruct (first_success_delivers (request_chunk_from_peer (hash_bytes q)) (λ x, x = q) (take 3 peers) s) as (x & -> & Hd); [..|done]; [|by intros; apply request_silent|done..].
  intros p s' (d & Hd & Hask). exists q. split; [done|]. eapply (request_honest p d); [done|cbn; by rewrite (peer_chunk d q)|]. cbn. by rewrite str_eqb_refl.
Qed.

Lemma part_delivers q off want s :
  q ∈ pieces data → 0 ≤ off → 0 < want ≤ CHUNK_SIZE_SMALL → off + want ≤ Z.of_nat (length q) →
  delivers (first_success (request_part (hash_bytes q) off want) (take MAX_PROVIDER_TRIES_PER_PART peers)) s
    (Some (take (Z.to_nat want) (drop (Z.to_nat off) q))) (store s).
Proof.
  intros Hq Hoff Hwant Hlen. destruct (copy_within 3 ltac:(lia)) as [Hall Hex]. set (part := take (Z.to_nat want) _).
  assert (Z.of_nat (length part) = want) as Hpart by (unfold part; rewrite length_take, length_drop; lia).
  destruct (first_success_delivers (request_part (hash_bytes q) off want) (λ x, x = part) (take 3 peers) s) as (x & -> & Hd); [..|done]; [| |done..].
  - intros p s' (d & Hd & Hask). exists part. split; [done|]. apply (delivers_bind _ _ _ part _ (store s')).
    + eapply (request_honest p d); [done| |].
      * cbn. rewrite (proj2 (Z.eqb_neq want 0)), (proj2 (Z.ltb_ge CHUNK_SIZE_SMALL want)) by lia. cbn. by rewrite (peer_chunk d q).
      * cbn. rewrite str_eqb_refl, Z.eqb_refl. cbn. unfold part_of. rewrite (proj2 (Nat.leb_gt _ _)) by lia. done.
    + intros s'' Hs'' _. rewrite Hpart, Z.eqb_refl. by apply delivers_ret.
  - intros p s' Hp. by apply fails_bind, request_silent.
Qed.

Lemma fetch_parts_delivers q fuel off s :
  q ∈ pieces data → 0 ≤ off ≤ Z.of_nat (length q) → Z.of_nat (length q) - off ≤ Z.of_nat fuel * CHUNK_SIZE_SMALL →
  delivers (fetch_parts fuel peers (hash_bytes q) (Z.of_nat (length q)) off (take (Z.to_nat off) q)) s q (store s).
Proof.
  intros Hq. revert off s. induction fuel as [|fuel IH]; intros off s Hoff Hfuel; cbn [fetch_parts];
    (destruct (Z.ltb_spec off (Z.of_nat (length q))); cbn [negb]; [|rewrite take_ge by lia; by apply delivers_ret]); [lia|].
  unfold SUBCHUNK_SIZE_BYTES. set (want := Z.min _ _). assert (0 < want ≤ CHUNK_SIZE_SMALL ∧ off + want ≤ Z.of_nat (length q)) as [Hw Hle].
  { unfold want, CHUNK_SIZE_SMALL in *. lia. }
  eapply delivers_bind; [apply (part_delivers q off want); [done|lia|done|done]|]. intros s' Hs' _. rewrite <- Hs'. rewrite take_take_drop, <- Z2Nat.inj_add by lia.
  apply IH; unfold want, CHUNK_SIZE_SMALL in *; lia.
Qed.

Lemma chunk_delivers q s :
  q ∈ pieces data → delivers (fetch_chunk_data_from_providers peers (hash_bytes q) (Z.of_nat (length q))) s q (store s).
Proof.
  intros Hq. unfold fetch_chunk_data_from_providers. destruct (Z.leb_spec (Z.of_nat (length q)) SUBCHUNK_SIZE_BYTES) as [|Hbig].
  - eapply delivers_bind; [by apply whole_delivers|]. intros s' Hs' _. by apply delivers_ret.
  - apply (fetch_parts_delivers q _ 0); [done|lia|]. unfold div_ceil_u64, SUBCHUNK_SIZE_BYTES in *.
    pose proof (Z.div_mod (Z.of_nat (length q)) CHUNK_SIZE_SMALL ltac:(done)). pose proof (Z.mod_pos_bound (Z.of_nat (length q)) CHUNK_SIZE_SMALL ltac:(done)).
    pose proof (Z.div_pos (Z.of_nat (length q)) CHUNK_SIZE_SMALL ltac:(lia) ltac:(done)). cbn [Z.eqb CHUNK_SIZE_SMALL].
    destruct (Z.eqb_spec CHUNK_SIZE_SMALL 0); [done|]. destruct (_ =? 0) eqn:Hm; [apply Z.eqb_eq in Hm|]; rewrite Z2Nat.id by lia; lia.
Qed.
(** The pieces of the object that a store has are intact. *)
Definition clean (d : Db) : Prop := ∀ q, q ∈ pieces data → chunk_tree d !! hash_bytes q = None ∨ chunk_tree d !! hash_bytes q = Some q.

(** Only chunks were added. *)
Definition grown (d d' : Db) : Prop :=
  d' = set_chunks (chunk_tree d') d ∧ ∀ k, is_Some (chunk_tree d !! k) → is_Some (chunk_tree d' !! k).

Lemma grown_refl d : grown d d.
Proof. by split; [destruct d|]. Qed.

Lemma grown_trans d1 d2 d3 : grown d1 d2 → grown d2 d3 → grown d1 d3.
Proof. intros [E12 Hk] [E23 Hk']. split; [|by auto]. rewrite E23, E12. done. Qed.

Definition describes (desc : ChunkDescriptor) (q : bytes) : Prop :=
  q ∈ pieces data ∧ desc_chunk_id desc = hash_bytes q ∧ size desc = Z.of_nat (length q).

Context (distinct : ¬ collision (pieces data)).

Lemma pieces_inj p q : p ∈ pieces data → q ∈ pieces data → hash_bytes p = hash_bytes q → p = q.
Proof. intros Hp Hq Hh. by destruct (equal_or_collide (pieces data) p q Hp Hq Hh). Qed.

Lemma find_peers_delivers s : get_providers_for_object s id = peers → delivers (find_peers id) s peers (store s).
Proof.
  intros Hp. destruct (copy_within 3 ltac:(lia)) as [_ Hex]. destruct peers as [|p ps] eqn:E; [by apply Exists_nil in Hex|].
  apply delivers_get. rewrite Hp. apply (delivers_bind _ _ _ tt _ (store s)); [by apply delivers_ret|]. intros s' Hs' Hm. apply delivers_get.
  rewrite (providers_same s s') by done. rewrite Hp. by apply delivers_ret.
Qed.

Lemma peers_nonempty : is_empty peers = false.
Proof. destruct (copy_within 3 ltac:(lia)) as [_ Hex]. destruct peers; [by apply Exists_nil in Hex|done]. Qed.

Lemma single_delivers desc q s :
  describes desc q → clean (store s) → get_providers_for_object s id = peers →
  ∃ d', delivers (fetch_single_chunk id desc) s tt d' ∧ grown (store s) d' ∧ clean d' ∧ is_Some (chunk_tree d' !! desc_chunk_id desc).
Proof.
  intros (Hq & Hid & Hsize) Hclean Hp. unfold fetch_single_chunk. destruct (has_chunk (store s) (desc_chunk_id desc)) eqn:Hhas.
  - exists (store s). split; [apply delivers_get; rewrite Hhas; by apply delivers_ret|]. split; [apply grown_refl|]. split; [done|].
    by apply has_chunk_true.
  - exists (set_chunks (<[hash_bytes q := q]> (chunk_tree (store s))) (store s)). split; [|split; [|split]].
    + apply delivers_get. rewrite Hhas. cbn [fetch_attempts MAX_CHUNK_FETCH_ATTEMPTS].
      apply (delivers_bind _ _ _ peers _ (store s)); [by apply find_peers_delivers|]. intros s1 Hs1 Hm1. rewrite peers_nonempty.
      apply (delivers_bind _ _ _ (Ok q) _ (store s)).
      { rewrite Hid, Hsize, <- Hs1. destruct (chunk_delivers q s1 Hq) as (s2 & Hr & ? & ?). exists s2. by rewrite Hr. }
      intros s2 Hs2 Hm2. rewrite Hid. apply (delivers_bind _ _ _ tt _ (store s)).
      { apply delivers_context. exists s2. unfold liftM. by rewrite (proj2 (verify_ok _ tt)). }
      intros s3 Hs3 Hm3. eexists. unfold in_store, store_chunk, bindM, liftM, modifyM. rewrite (proj2 (verify_ok _ tt)) by done.
      split; [done|]. cbn. by rewrite Hs3.
    + split; [done|]. intros k Hk. cbn. apply lookup_insert_is_Some'. by right.
    + intros q' Hq'. cbn. destruct (decide (hash_bytes q' = hash_bytes q)) as [Heq|Hne].
      * right. rewrite (pieces_inj q' q) by done. apply lookup_insert_eq.
      * rewrite lookup_insert_ne by done. by apply Hclean.
    + rewrite Hid. cbn. by rewrite lookup_insert_eq.
Qed.

Lemma all_delivers descs s :
  Forall (λ desc, ∃ q, describes desc q) descs → clean (store s) → get_providers_for_object s id = peers →
  ∃ d', delivers (forM descs (fetch_single_chunk id)) s tt d' ∧ grown (store s) d' ∧ clean d'
        ∧ Forall (λ desc, is_Some (chunk_tree d' !! desc_chunk_id desc)) descs.
Proof.
  intros Hdescs. revert s. induction Hdescs as [|desc descs [q Hq] _ IH]; intros s Hclean Hp.
  - exists (store s). split; [by apply delivers_ret|]. split; [apply grown_refl|]. by split.
  - destruct (single_delivers desc q s Hq Hclean Hp) as (d1 & (s1 & Hr1 & Hs1 & Hm1) & Hg1 & Hc1 & Hin1). subst d1.
    destruct (IH s1 Hc1) as (d2 & (s2 & Hr2 & Hs2 & Hm2) & Hg2 & Hc2 & Hin2); [by rewrite (providers_same s)|].
    exists d2. split; [|split; [by eapply grown_trans|split; [done|]]].
    + exists s2. cbn [forM]. unfold bindM. rewrite Hr1, Hr2. split; [done|]. split; [done|]. congruence.
    + constructor; [by apply Hg2|done].
Qed.
Lemma poll_nonempty n x s : is_empty (get_providers_for_object s x) = false → poll_providers n x s = s.
Proof. destruct n; cbn [poll_providers]; by destruct (get_providers_for_object s x). Qed.

Lemma peers_for_delivers s : get_providers_for_object s id = peers → delivers (peers_for id) s peers (store s).
Proof.
  intros Hp. assert (is_empty (get_providers_for_object (find_providers id s) id) = false) as Hne.
  { change (is_empty (get_providers_for_object s id) = false). rewrite Hp. apply peers_nonempty. }
  apply (delivers_bind _ _ _ tt _ (store s)); [by apply delivers_modify; rewrite poll_nonempty|].
  intros s' Hs' Hm. apply delivers_get. rewrite (providers_same s s'), Hp by done. pose proof peers_nonempty. destruct peers; [done|]. by apply delivers_ret.
Qed.

Lemma holds_complete d : holds d → is_complete d id = true.
Proof.
  intros (_ & Hm & Hc). apply is_complete_spec. exists m. split; [done|]. destruct made as (_ & _ & ->).
  rewrite chunk_data_new. apply describe_present. rewrite Forall_forall in Hc. intros q Hq. by rewrite Hc.
Qed.

(** A record that every honest peer gives, and what is done with it. *)
Lemma record_delivers {A B} (request : PeerId → M rstr Distributor A) (a : A → Prop) (k : option A → M rstr Distributor B) b s :
  get_providers_for_object s id = peers →
  (∀ p s, honest p → ∃ x, a x ∧ delivers (request p) s x (store s)) →
  (∀ p s, silent p → ∃ e s', request p s = (Throw e, s') ∧ store s' = store s ∧ provider_map s' = provider_map s) →
  (∀ x s', a x → store s' = store s → provider_map s' = provider_map s → ∃ y d', b y d' ∧ delivers (k (Some x)) s' y d') →
  ∃ y d', b y d' ∧ delivers (let* ps := peers_for id in bindM (first_success request (take 5 ps)) k) s y d'.
Proof.
  intros Hp Hh Hs Hk. destruct (copy_within 5 ltac:(lia)) as [Hall Hex]. destruct (peers_for_delivers s Hp) as (s1 & Hr1 & Hd1 & Hm1).
  destruct (first_success_delivers request a (take 5 peers) s1 Hh Hs Hall Hex) as (x & Hx & s2 & Hr2 & Hd2 & Hm2).
  destruct (Hk x s2 Hx) as (y & d' & Hy & s3 & Hr3 & Hd3 & Hm3); [congruence..|]. exists y, d'. split; [done|]. exists s3.
  unfold bindM. rewrite Hr1, Hr2, Hr3. split; [done|]. split; congruence.
Qed.

Lemma metadata_delivers s :
  get_providers_for_object s id = peers →
  ∃ o d', d' = store_object o (store s) ∧ delivers (fetch_object_metadata id) s o d'.
Proof.
  intros Hp. unfold fetch_object_metadata.
  destruct (record_delivers (request_object_metadata_from_peer id) (λ _, True)
    (λ got, match got with
            | Some o => do* modifyM (λ s, set_store (store_object o (store s)) s) in retM o
            | None => do* modifyM (publish (ObjectMetadataRequest id)) in
                      poll_gossip 6 (λ d, get_object_metadata d id) (js "no peer provided metadata")
            end) (λ o d', d' = store_object o (store s)) s Hp) as (o & d' & Hd' & s' & Hr & ?).
  - intros p s' (d & Hd & Hask). pose proof (holds_complete d Hd) as Hc. destruct Hd as ((o & Ho) & _). exists o. split; [done|].
    eapply (request_honest p d); [done|cbn; by rewrite Hc, Ho|done].
  - intros p s' Hs'. by apply request_silent.
  - intros o s' _ Hs' Hm'. exists o, (store_object o (store s)). split; [done|]. eexists. split; [done|]. cbn. by rewrite Hs'.
  - exists o, d'. split; [done|]. exists s'. destruct (peers_for_delivers s Hp) as (s1 & Hr1 & _). unfold bindM in Hr |- *. rewrite Hr1 in Hr |- *.
    rewrite peers_nonempty. done.
Qed.

Lemma manifest_delivers s :
  get_providers_for_object s id = peers →
  ∃ m' d', (m' = m ∧ d' = store_manifest m (store s)) ∧ delivers (fetch_manifest id) s m' d'.
Proof.
  intros Hp. apply (record_delivers (request_manifest_from_peer id) (λ m', m' = m)); [done|..].
  - intros p s' (d & Hd & Hask). exists m. split; [done|]. apply (request_honest p d _ _ _ (RManifest (Some m))); [done| |done].
    cbn. rewrite (holds_complete d Hd). destruct Hd as (_ & Hm & _). unfold get_manifest_by_object. by rewrite Hm.
  - intros p s' Hs'. by apply request_silent.
  - intros m' s' -> Hs' Hm'. eexists _, _. split; [done|]. eexists. split; [done|]. cbn. by rewrite Hs'.
Qed.

Lemma describe_ids from ps :
  Forall (λ desc, ∃ q, q ∈ ps ∧ desc_chunk_id desc = hash_bytes q ∧ size desc = Z.of_nat (length q) mod 2 ^ 32) (describe from (map Chunk_new ps))
  ∧ Forall (λ q, ∃ desc, desc ∈ describe from (map Chunk_new ps) ∧ desc_chunk_id desc = hash_bytes q) ps.
Proof.
  revert from. induction ps as [|p ps IH]; intros from; [by split|]. destruct (IH (from + Z.of_nat (length p))) as [IH1 IH2]. split; constructor.
  - exists p. split; [by left|done].
  - apply (Forall_impl _ _ _ IH1). intros desc (q & Hq & ?). exists q. split; [by right|done].
  - eexists. split; [by left|done].
  - apply (Forall_impl _ _ _ IH2). intros q (desc & Hd & ?). exists desc. split; [by right|done].
Qed.

Lemma describes_all : Forall (λ desc, ∃ q, describes desc q) (chunks m).
Proof.
  destruct made as (_ & _ & ->). rewrite chunk_data_new. destruct (describe_ids 0 (pieces data)) as [Hd _]. apply (Forall_impl _ _ _ Hd).
  intros desc (q & Hq & Hid & Hs). exists q. split; [done|]. split; [done|]. rewrite Hs. apply Z.mod_small.
  pose proof (pieces_bound data) as Hb. rewrite Forall_forall in Hb. specialize (Hb q Hq). unfold CHUNK_SIZE_LARGE in Hb. lia.
Qed.

Lemma reads d :
  manifests d !! id = Some m → clean d →
  Forall (λ desc, is_Some (chunk_tree d !! desc_chunk_id desc)) (chunks m) →
  get_object d id = Ok data ∧ is_complete d id = true.
Proof.
  intros Hm Hc Hin. split; [|apply is_complete_spec; by exists m].
  apply get_object_spec. exists m, (pieces data). split; [done|]. split; [apply made_valid|]. destruct made as (_ & Hh & Hch). rewrite concat_pieces. split; [|done].
  rewrite Hch, chunk_data_new in *. apply describe_stored; [apply pieces_bound|].
  destruct (describe_ids 0 (pieces data)) as [_ Hd]. rewrite Forall_forall in Hd. rewrite Forall_forall in Hin. apply Forall_forall. intros q Hq. destruct (Hd q Hq) as (desc & Hdesc & Hid).
  specialize (Hin desc Hdesc). rewrite Hid in Hin. destruct (Hc q Hq) as [Hn|]; [|done]. rewrite Hn in Hin. by destruct Hin.
Qed.

Lemma valid_missing s b d :
  delivers (let missing := missing_descs (store s) m in
            if is_empty missing then reassemble id
            else do* modifyM (ensure_providers_for_object id) in
                 do* forM (schedule missing) (fetch_single_chunk id) in
                 context (js "reassembling object after chunk fetch") (reassemble id)) s b d →
  delivers (fetch_missing id m) s b d.
Proof. unfold fetch_missing, bindM at 3, liftM. intros (s' & Hr & ?). exists s'. split; [|done]. by rewrite made_valid. Qed.

Lemma chunks_delivers s :
  manifests (store s) !! id = Some m → clean (store s) →
  get_providers_for_object s id = peers →
  ∃ d', delivers (fetch_missing id m) s data d'
  ∧ get_object d' id = Ok data ∧ is_complete d' id = true.
Proof.
  intros Hm Hc Hp. set (missing := missing_descs (store s) m). destruct (is_empty missing) eqn:Hempty.
  - assert (is_complete (store s) id = true) as Hcomplete.
    { apply is_complete_spec. exists m. split; [done|]. apply Forall_forall. intros desc Hdesc. apply has_chunk_true.
      destruct (has_chunk (store s) (desc_chunk_id desc)) eqn:Hh; [done|]. assert (In desc missing) as Hin.
      { apply filter_In. rewrite Hh. split; [by apply list_elem_of_In|done]. }
      destruct missing; done. }
    apply is_complete_spec in Hcomplete as (m' & Hm' & Hin). rewrite Hm in Hm'. injection Hm' as <-. destruct (reads (store s) Hm Hc Hin) as [Hg Hco].
    exists (store s). split; [|done]. apply valid_missing. cbv zeta. fold missing. rewrite Hempty. apply delivers_get. exists (provide id s).
    unfold bindM, liftM. by rewrite Hg.
  - destruct (all_delivers (schedule missing) s) as (d' & (s2 & Hr2 & Hs2 & Hm2) & (Hgrow & Hkeep) & Hclean & Hall); [|done|done|].
    { rewrite schedule_perm. apply Forall_forall. intros desc Hdesc. apply list_elem_of_In, filter_In in Hdesc as [Hdesc _].
      pose proof describes_all as Hd. rewrite Forall_forall in Hd. by apply Hd, list_elem_of_In. }
    rewrite schedule_perm in Hall. destruct (reads d') as [Hg Hco].
    { rewrite Hgrow. done. }
    { done. }
    { apply Forall_forall. intros desc Hdesc. destruct (has_chunk (store s) (desc_chunk_id desc)) eqn:Hh; [by apply Hkeep, has_chunk_true|].
      rewrite Forall_forall in Hall. apply Hall, list_elem_of_In, filter_In. rewrite Hh. split; [by apply list_elem_of_In|done]. }
    exists d'. split; [|done]. apply valid_missing. cbv zeta. fold missing. rewrite Hempty.
    assert (ensure_providers_for_object id s = s) as Hens.
    { unfold ensure_providers_for_object. rewrite Hp. pose proof peers_nonempty. by destruct peers. }
    exists (provide id s2). unfold context, catchM, reassemble, bindM, modifyM, liftM, getM. rewrite Hens, Hr2, Hs2, Hg.
    split; [done|]. by subst d'.
Qed.

Lemma fetch_object_delivers s :
  get_providers_for_object s id = peers → clean (store s) →
  manifests (store s) !! id = None ∨ manifests (store s) !! id = Some m →
  ∃ d', delivers (fetch_object id) s data d'
  ∧ get_object d' id = Ok data ∧ is_complete d' id = true.
Proof.
  intros Hp Hc Hm. unfold fetch_object. destruct (is_complete (store s) id) eqn:Hco.
  { exists (store s). apply is_complete_spec in Hco as Hco'. destruct Hco' as (m' & Hm' & Hin). assert (m' = m) as ->.
    { rewrite Hm' in Hm. by destruct Hm as [|[= ->]]. }
    destruct (reads (store s) Hm' Hc Hin) as [Hg _]. split; [|done]. apply delivers_get. rewrite Hco. exists s. unfold liftM. by rewrite Hg. }
  assert (∃ d1, delivers (match get_object_metadata (store s) id with
                          | Some _ => retM tt
                          | None => do* fetch_object_metadata id in retM tt
                          end) s tt d1 ∧ manifests d1 = manifests (store s) ∧ chunk_tree d1 = chunk_tree (store s)) as (d1 & (s1 & Hr1 & Hd1 & Hp1) & Hm1 & Hc1).
  { destruct (get_object_metadata _ _); [exists (store s); by split; [apply delivers_ret|]|].
    destruct (metadata_delivers s Hp) as (o & d' & -> & Hd). exists (store_object o (store s)). split; [|done]. eapply delivers_bind; [done|].
    intros s' Hs' _. by apply delivers_ret. }
  assert (∃ d2, delivers (match get_manifest_by_object (store s1) id with
                          | Some m => retM m
                          | None => fetch_manifest id
                          end) s1 m d2 ∧ manifests d2 !! id = Some m
                  ∧ chunk_tree d2 = chunk_tree (store s)) as (d2 & (s2 & Hr2 & Hd2 & Hp2) & Hm2 & Hc2).
  { unfold get_manifest_by_object. rewrite Hd1, Hm1. destruct Hm as [->|Hm].
    - destruct (manifest_delivers s1) as (m' & d' & [-> ->] & Hd); [by rewrite (providers_same s)|]. eexists. split; [done|].
      split; [|cbn; by rewrite Hd1]. cbn. destruct made as (-> & _). apply lookup_insert_eq.
    - rewrite Hm. exists d1. split; [by apply delivers_ret|]. by rewrite Hm1. }
  destruct (chunks_delivers s2) as (d3 & (s3 & Hr3 & Hd3 & Hp3) & Hg & Hco3).
  { by rewrite Hd2. }
  { unfold clean. by rewrite Hd2, Hc2. }
  { rewrite (providers_same s1), (providers_same s) by done. done. }
  exists d3. split; [|done]. exists s3. unfold bindM at 1, getM at 1. rewrite Hco. unfold bindM at 1. rewrite Hr1. unfold bindM at 1, getM at 1.
  unfold bindM at 1. rewrite Hr2. split; [exact Hr3|]. split; congruence.
Qed.
End Chunks.

Lemma fetch_blob_delivers (s : Distributor) :
  ¬ collision (pieces data) → reachable_copy (get_providers_for_object s id) → clean (store s) →
  manifests (store s) !! id = None ∨ manifests (store s) !! id = Some m →
  ∃ s', fetch_blob true id s = (Ok data, s') ∧ get_object (store s') id = Ok data ∧ is_complete (store s') id = true.
Proof.
  intros Hd Hcopy Hc Hm. destruct (fetch_object_delivers _ Hcopy Hd s eq_refl Hc Hm) as (d' & (s' & Hr & <- & Hp) & Hg & Hco).
  unfold fetch_blob, bindM at 1, getM at 1. destruct (is_complete (store s) id) eqn:Hco'.
  - exists s. unfold fetch_object, bindM, getM, liftM in Hr. rewrite Hco' in Hr. injection Hr as Hr Hss. subst s'. unfold liftM. by rewrite Hr.
  - exists s'. unfold context, catchM, bindM, getM, liftM. by rewrite Hr, Hg.
Qed.
End Replication.

(** ** Theorems *)

Section Theorems.
Context `{Blake3} `{ObjectCodec} `{HashIter} `{PeerText} {W : World}.
Context (quiet : ∀ n, arrivals n = []).

(** C6 A node that asks for a blob gets the bytes that were put, and keeps them, when each
    of its providers either answers from a store that holds the object or does not answer, one
    of the first three answers, and what the node has of the object already is intact. *)
Theorem replication (data : bytes) (t : ObjectType) (s : Distributor) :
  let id := object_id_of data t in
  let m := manifest_of data t in
  ¬ collision (pieces data) → reachable_copy data id m (get_providers_for_object s id) → clean data (store s) →
  manifests (store s) !! id = None ∨ manifests (store s) !! id = Some m →
  ∃ s', fetch_blob true id s = (Ok data, s') ∧ get_object (store s') id = Ok data ∧ is_complete (store s') id = true.
Proof. intros id m. by apply fetch_blob_delivers. Qed.

(** The manifest of [other] under the identifier of another object. *)
Definition forged (id other : bytes) : Manifest :=
  {| manifest_object := id; content_hash := hash_bytes other; chunks := describe 0 (chunk_data other); version := 1 |}.

(** C17 The identifier of an object does not bind its content: providers that hold the chunks of
    [other] and a manifest of it under the identifier of [data] make a node that has no manifest
    yet serve [other] for it, and keep it. *)
Theorem substitution (data other : bytes) (t : ObjectType) (s : Distributor) :
  let id := object_id_of data t in
  ¬ collision (pieces other) → reachable_copy other id (forged id other) (get_providers_for_object s id) → clean other (store s) →
  manifests (store s) !! id = None →
  ∃ s', fetch_blob true id s = (Ok other, s') ∧ get_object (store s') id = Ok other.
Proof.
  intros id Hd Hcopy Hc Hm. destruct (fetch_blob_delivers other id (forged id other) quiet) with (s := s) as (s' & ? & ? & _); [done..|by left|]. by exists s'.
Qed.

(** A provider that answers a request for a chunk with other bytes ends the fetch, whatever
    the providers after it would answer: no other one is asked, and no attempt is made again. *)
Theorem bad_chunk (object : bytes) (desc : ChunkDescriptor) (p : PeerId) (rest : list PeerId) (bad : bytes) (s : Distributor) :
  get_providers_for_object s object = p :: rest → has_chunk (store s) (desc_chunk_id desc) = false → size desc ≤ SUBCHUNK_SIZE_BYTES →
  ask (clock s) p (GetChunk (desc_chunk_id desc)) = Ok (RChunk (desc_chunk_id desc) (Some bad)) → hash_bytes bad ≠ desc_chunk_id desc →
  (fetch_single_chunk object desc s).1 = Throw (js "chunk verification failed").
Proof.
  intros Hp Hhas Hsize Hask Hbad. unfold fetch_single_chunk, bindM at 1, getM at 1. rewrite Hhas. cbn [fetch_attempts MAX_CHUNK_FETCH_ATTEMPTS].
  unfold bindM at 1, find_peers, bindM at 1, getM at 1. rewrite Hp. unfold bindM at 1, retM at 1, bindM at 1, getM at 1, retM at 1. rewrite Hp.
  cbn [is_empty]. unfold bindM at 1, fetch_chunk_data_from_providers. rewrite (proj2 (Z.leb_le _ _)) by done.
  cbn [take MAX_PROVIDER_TRIES_PER_CHUNK first_success]. unfold bindM at 1, catchM at 1, bindM at 1, request_chunk_from_peer at 1, bindM at 1, request_unified at 1.
  rewrite Hask. rewrite str_eqb_refl. cbn [negb]. unfold retM. unfold bindM, context, catchM, liftM, Chunk_verify. cbn [chunk_bytes chunk_id].
  by rewrite bool_decide_eq_false_2.
Qed.

(** A node that hears the announcement of an object it knows no provider of has the announcing
    node as its provider. *)
Lemma announced_provider me o s :
  provider_map s !! object_id o = None → get_providers_for_object (handle_unified_protocol (Announcement (from_object o me)) s) (object_id o) = [me].
Proof.
  intros Hs. unfold get_providers_for_object. cbn. rewrite Hs, lookup_insert_eq, parse_to_string. cbn.
  change (map fst (into_iter (<[me := tt]> (∅ : gmap bytes ()))) = [me]).
  pose proof (into_iter_perm (<[me := tt]> (∅ : gmap bytes ()))) as Hperm.
  rewrite insert_empty, map_to_list_singleton in Hperm. rewrite insert_empty. symmetry in Hperm. apply Permutation_length_1_inv in Hperm. by rewrite Hperm.
Qed.
End Theorems.

Lemma put_holds `{Blake3} `{ObjectCodec} data t by_node now d o d' :
  put_object data t by_node now d = (Ok o, d') → ¬ collision (pieces data) → holds data (object_id_of data t) (manifest_of data t) d'.
Proof.
  intros Hput Hc. destruct (decide (data = [])) as [->|Hne]; [done|]. rewrite put_object_run in Hput by done. injection Hput as <- <-.
  split; [|split].
  - rewrite after_writes_eq. cbn [Nat.add]. eexists. apply lookup_insert_eq.
  - rewrite after_writes_manifests. cbn. by rewrite bool_decide_eq_true_2.
  - rewrite after_writes_chunks. cbn [Nat.add Nat.sub]. rewrite Nat.sub_0_r, take_ge by done. apply Forall_forall. intros p Hp.
    destruct (add_pieces_keep (pieces data) (chunk_tree d) (hash_bytes p) p (pieces data)) as [?|]; [by right|done..].
Qed.

(** ** What a peer cannot do *)

Section Pinned.
Context `{Blake3} `{ObjectCodec} `{HashIter} `{PeerText} {W : World}.
Context (id : bytes) (m : Manifest).

(** The manifest that an event stores in place of the one the node has. *)
Definition replaces (e : Event) : option Manifest :=
  match e with TransferResponse (RManifest (Some m')) => Some m' | OtherFetch m' => Some m' | _ => None end.

(** [m'] came for the object, in place of the manifest the node had, from time [start] on and
    before time [until]. *)
Definition replaced (start until : nat) (m' : Manifest) : Prop :=
  manifest_object m' = id ∧ ∃ n e, (start ≤ n < until)%nat ∧ e ∈ arrivals n ∧ replaces e = Some m'.

Section Since.
Context (start : nat).

(** The node has the manifest, or one that came in place of it. *)
Definition pinned (s : Distributor) : Prop :=
  (start ≤ clock s)%nat ∧ ∃ m', manifests (store s) !! id = Some m' ∧ (m' = m ∨ replaced start (clock s) m').

Definition keeps {A} (c : M rstr Distributor A) : Prop := ∀ s, pinned s → pinned (c s).2.

Lemma keeps_bind {A B} (c : M rstr Distributor A) (k : A → M rstr Distributor B) : keeps c → (∀ a, keeps (k a)) → keeps (bindM c k).
Proof. intros Hc Hk s Hs. unfold bindM. specialize (Hc s Hs). destruct (c s) as [[a|e] s']; [by apply Hk|done]. Qed.
Lemma keeps_ret {A} (a : A) : keeps (retM a).
Proof. by intros s. Qed.
Lemma keeps_throw {A} e : keeps (A := A) (throwM e).
Proof. by intros s. Qed.
Lemma keeps_lift {A} (o : outcome rstr A) : keeps (liftM o).
Proof. by intros s. Qed.
Lemma keeps_get : keeps getM.
Proof. by intros s. Qed.
Lemma keeps_catch {A} (c : M rstr Distributor A) h : keeps c → (∀ e, keeps (h e)) → keeps (catchM c h).
Proof. intros Hc Hh s Hs. unfold catchM. specialize (Hc s Hs). destruct (c s) as [[a|e] s']; [done|by apply Hh]. Qed.
Lemma keeps_modify f : (∀ s, pinned s → pinned (f s)) → keeps (modifyM f).
Proof. intros Hf s Hs. by apply Hf. Qed.

(** An event leaves the manifest or puts the one it brings in its place. *)
Lemma event_manifest e s m' :
  manifests (store s) !! id = Some m' →
  manifests (store (handle_network_event e s)) !! id = Some m'
  ∨ ∃ m'', replaces e = Some m'' ∧ manifest_object m'' = id ∧ manifests (store (handle_network_event e s)) !! id = Some m''.
Proof.
  assert (∀ m0, manifests (store s) !! id = Some m' → manifests (store_manifest m0 (store s)) !! id = Some m'
    ∨ ∃ m'', Some m0 = Some m'' ∧ manifest_object m'' = id ∧ manifests (store_manifest m0 (store s)) !! id = Some m'') as Hput.
  { intros m0 Hs. cbn. destruct (decide (manifest_object m0 = id)) as [<-|]; [right; exists m0; by rewrite lookup_insert_eq|].
    left. by rewrite lookup_insert_ne. }
  destruct e as [msg|r|key peers|m0]; cbn [handle_network_event replaces]; [| | |by apply Hput].
  - intros Hs. left. destruct msg as [| |x|x|m0]; cbn; try done.
    + destruct (negb _), (negb (bool_decide _)); done.
    + destruct (get_object_metadata _ _); [|done]. by destruct (is_complete _ _).
    + destruct (is_complete _ _); [|done]. by destruct (get_manifest_by_object _ _).
    + unfold get_manifest_by_object. destruct (manifests (store s) !! manifest_object m0) eqn:Hm; [done|].
      cbn. rewrite lookup_insert_ne; [done|]. congruence.
  - destruct r as [[m0|]|i [bs|]|i o [bs|]|cs|i a|i [o|]]; cbn [handle_transfer_response]; [by apply Hput|intros Hs; left; try done..].
    + unfold keep_chunk, store_chunk, bindM, liftM, Chunk_verify. by case_bool_decide.
    + clear Hput. revert s Hs. induction cs as [|[i [bs|]] cs IH]; intros s Hs; cbn; [done| |by apply IH].
      apply IH. unfold keep_chunk, store_chunk, bindM, liftM, Chunk_verify. by case_bool_decide.
  - intros Hs. left. unfold handle_providers_found. by destruct (_ && _).
Qed.

Lemma events_manifest es s m' :
  manifests (store s) !! id = Some m' →
  let s' := fold_left (λ s e, handle_network_event e s) es s in
  ∃ m'', manifests (store s') !! id = Some m'' ∧ (m'' = m' ∨ manifest_object m'' = id ∧ ∃ e, e ∈ es ∧ replaces e = Some m'').
Proof.
  revert s m'. induction es as [|e es IH]; intros s m' Hs; cbn; [by exists m'; auto|].
  destruct (event_manifest e s m' Hs) as [Hm|(m1 & He & Hid & Hm)]; destruct (IH _ _ Hm) as (m2 & Hm2 & [->|(Hid2 & e2 & Hin & He2)]);
    eexists; (split; [exact Hm2|]).
  - by left.
  - right. split; [done|]. exists e2. split; [by right|done].
  - right. split; [done|]. exists e. split; [by left|done].
  - right. split; [done|]. exists e2. split; [by right|done].
Qed.

Lemma pinned_tick s : pinned s → pinned (tick s).
Proof.
  intros (Hc & m' & Hm & Hor). destruct (events_manifest (arrivals (clock s)) s m' Hm) as (m2 & Hm2 & Hor2). split; [cbn; lia|].
  exists m2. split; [exact Hm2|]. cbn [tick set_clock clock]. destruct Hor2 as [->|(Hid & e & Hin & He)].
  - destruct Hor as [|(Hid & n & e & Hn & He)]; [by left|right]. split; [done|]. exists n, e. split; [lia|done].
  - right. split; [done|]. exists (clock s), e. split; [lia|done].
Qed.

Lemma pinned_poll n x s : pinned s → pinned (poll_providers n x s).
Proof.
  revert s. induction n as [|n IH]; intros s Hs; cbn [poll_providers]; destruct (get_providers_for_object s x); try done. by apply IH, pinned_tick.
Qed.

Lemma keeps_request p req : keeps (request_unified p req).
Proof. intros s Hs. by apply pinned_tick. Qed.

Lemma keeps_first {A} (request : PeerId → M rstr Distributor A) peers : (∀ p, keeps (request p)) → keeps (first_success request peers).
Proof.
  intros Hr. induction peers as [|p peers IH]; cbn [first_success]; [apply keeps_ret|]. apply keeps_catch; [|by intros _].
  apply keeps_bind; [done|]. intros a. apply keeps_ret.
Qed.

Ltac keep :=
  repeat first [apply keeps_ret | apply keeps_throw | apply keeps_lift | apply keeps_get | apply keeps_request
               | apply keeps_bind; [|intros] | apply keeps_first; intros | case_match
               | apply keeps_modify; intros; by first [apply pinned_tick | apply pinned_poll | idtac]].

Lemma keeps_parts fuel peers x n off out : keeps (fetch_parts fuel peers x n off out).
Proof.
  revert off out. induction fuel as [|fuel IH]; intros off out; cbn [fetch_parts]; destruct (negb _); try apply keeps_ret.
  apply keeps_bind; [unfold request_part, request_chunk_part_from_peer; keep|]. intros [part|]; [apply IH|apply keeps_throw].
Qed.

Lemma keeps_data peers x n : keeps (fetch_chunk_data_from_providers peers x n).
Proof. unfold fetch_chunk_data_from_providers, request_chunk_from_peer. destruct (_ <=? _); [keep|apply keeps_parts]. Qed.

Lemma keeps_find x : keeps (find_peers x).
Proof.
  unfold find_peers. apply keeps_bind; [apply keeps_get|]. intros s. apply keeps_bind; [|keep].
  destruct (get_providers_for_object s x); [|apply keeps_ret]. apply keeps_modify. intros s' Hs'. unfold ensure_providers_for_object.
  destruct (get_providers_for_object s' x); [by apply pinned_poll|done].
Qed.

Lemma keeps_attempts n x desc : keeps (fetch_attempts n x desc).
Proof.
  induction n as [|n IH]; cbn [fetch_attempts]; [apply keeps_throw|]. apply keeps_bind; [apply keeps_find|]. intros peers.
  destruct (is_empty peers); [apply keeps_throw|]. apply keeps_bind.
  - intros s Hs. pose proof (keeps_data peers (desc_chunk_id desc) (size desc) s Hs). by destruct (fetch_chunk_data_from_providers _ _ _ s).
  - intros [data|e].
    + apply keeps_bind; [apply keeps_catch; keep|]. intros _ s Hs. unfold in_store, store_chunk, bindM, liftM, Chunk_verify. by case_bool_decide.
    + destruct n; [apply keeps_throw|]. apply keeps_bind; [|done]. apply keeps_modify, pinned_tick.
Qed.

Lemma keeps_forM {A} (l : list A) body : (∀ x, keeps (body x)) → keeps (forM l body).
Proof. intros Hb. induction l as [|x l IH]; cbn [forM]; [apply keeps_ret|]. by apply keeps_bind. Qed.

Lemma keeps_gossip {A} n (look : Db → option A) failure : keeps (poll_gossip n look failure).
Proof.
  induction n as [|n IH]; cbn [poll_gossip]; [apply keeps_throw|]. apply keeps_bind; [apply keeps_modify, pinned_tick|]. intros _.
  apply keeps_bind; [apply keeps_get|]. intros s. destruct (look (store s)); [apply keeps_ret|done].
Qed.

Lemma keeps_metadata x : keeps (fetch_object_metadata x).
Proof.
  unfold fetch_object_metadata, peers_for, request_object_metadata_from_peer. apply keeps_bind; [keep|]. intros peers.
  destruct (is_empty peers); [apply keeps_throw|]. apply keeps_bind; [keep|]. intros [o|]; [keep|]. apply keeps_bind; [keep|]. intros _. apply keeps_gossip.
Qed.

Lemma keeps_reassemble x : keeps (reassemble x).
Proof. unfold reassemble. keep. Qed.

Lemma keeps_missing m' : keeps (fetch_missing id m').
Proof.
  unfold fetch_missing. apply keeps_bind; [keep|]. intros _. apply keeps_bind; [keep|]. intros s. cbv zeta. destruct (is_empty _); [apply keeps_reassemble|].
  apply keeps_bind.
  - apply keeps_modify. intros s' Hs'. unfold ensure_providers_for_object. destruct (get_providers_for_object s' id); [by apply pinned_poll|done].
  - intros _. apply keeps_bind; [|intros _; apply keeps_catch; [apply keeps_reassemble|keep]].
    apply keeps_forM. intros desc. unfold fetch_single_chunk. apply keeps_bind; [keep|]. intros s'. destruct (has_chunk _ _); [keep|]. apply keeps_attempts.
Qed.

Lemma keeps_fetch : keeps (fetch_object id).
Proof.
  intros s Hs. unfold fetch_object, bindM at 1, getM at 1. destruct (is_complete (store s) id); [done|]. unfold bindM at 1.
  assert (keeps (match get_object_metadata (store s) id with Some _ => retM tt | None => do* fetch_object_metadata id in retM tt end)) as Hk.
  { destruct (get_object_metadata _ _); [keep|]. apply keeps_bind; [apply keeps_metadata|keep]. }
  revert Hk. generalize (match get_object_metadata (store s) id with Some _ => retM tt | None => do* fetch_object_metadata id in retM tt end) as c.
  intros c Hk. specialize (Hk s Hs). destruct (c s) as [[[]|e] s1]; [|done].
  unfold bindM at 1, getM at 1, get_manifest_by_object. pose proof Hk as (_ & m' & Hm' & _). cbn in Hm'. rewrite Hm'. by apply keeps_missing.
Qed.
End Since.

Lemma served_manifest distributor s s' x :
  manifests (store s) !! id = Some m → fetch_blob distributor id s = (Ok x, s') →
  ∃ m', hash_bytes x = content_hash m' ∧ (m' = m ∨ replaced (clock s) (clock s') m').
Proof.
  intros Hs Hf. unfold fetch_blob, bindM at 1, getM at 1 in Hf. destruct (is_complete (store s) id).
  - injection Hf as Hg <-. apply get_object_spec in Hg as (m' & ps & Hm' & _ & _ & _ & Hh). exists m. split; [|by left]. by simplify_eq.
  - destruct distributor; [|done]. assert (pinned (clock s) s) as Hp by (split; [done|]; exists m; auto).
    pose proof (keeps_fetch (clock s) s Hp) as Hk. unfold context, catchM, bindM, getM, liftM in Hf.
    destruct (fetch_object id s) as [[y|e] s1]; [|done]. destruct (get_object (store s1) id) as [z|e] eqn:Hg; [|done]. injection Hf as <- <-.
    apply get_object_spec in Hg as (m' & ps & Hm' & _ & _ & _ & Hh). destruct Hk as (_ & m2 & Hm2 & Hor). cbn in Hm2, Hor.
    exists m2. split; [|done]. by simplify_eq.
Qed.

(** C16 What a node that has the manifest of an object serves for it, [x], are the bytes the
    manifest was made for, unless digests collide or another manifest for the object is
    stored while it fetches: one that comes as an answer nobody waits for, or that a fetch
    of another task receives.  Then [x] are bytes with the digest which that one names.
    Nothing else that peers answer or gossip changes what is served. *)
Theorem pinned_content (data : bytes) (t : ObjectType) (distributor : bool) (s s' : Distributor) (x : bytes) :
  m = manifest_of data t → manifests (store s) !! id = Some m → fetch_blob distributor id s = (Ok x, s') →
  x = data ∨ collision [x; data] ∨ ∃ m', replaced (clock s) (clock s') m' ∧ hash_bytes x = content_hash m'.
Proof.
  intros Hd Hs Hf. destruct (served_manifest distributor s s' x Hs Hf) as (m' & Hh & [->|Hr]); [|right; right; by exists m']. rewrite Hd in Hh.
  destruct (equal_or_collide [x; data] x data) as [|]; [by left|by right; left|done|by left|by right; left].
Qed.
End Pinned.
End Transfer.

(** ** Two nodes *)

Module TransferModels.
Import Rust RustModels Merkle StoreModels Objects StoreHost Transfer.

Definition plain_peers : PeerText := {| peer_to_string p := p; parse_peer s := Some s; parse_to_string p := eq_refl |}.

#[local] Existing Instances blake3_sum list_iter plain_codec plain_peers.

Definition fresh : Distributor :=
  {| store := empty_db; provider_map := ∅; clock := 0; provided := []; looked_up := []; published := []; spawned := [] |}.
Definition hello : bytes := js "hello".
Definition other : bytes := js "other".
Definition blob_type : ObjectType := Blob None (replicate 32 0).
Definition hello_id : bytes := object_id_of hello blob_type.
Definition publisher_db : Db := (put_object hello blob_type [] 0 empty_db).2.

(** The chunk of [other] and a manifest of it under the identifier of [hello]. *)
Definition forger_db : Db :=
  set_chunks (chunk_tree (put_object other blob_type [] 0 empty_db).2)
    (store_object (object_of hello blob_type [] 0) (store_manifest (forged hello_id other) empty_db)).

(** Peer 1 answers from [d]; no other peer answers. *)
Definition one_peer (d : Db) : World := {|
  ask n p req := if bool_decide (p = [1]) then handle_unified_request d req else Throw (js "timeout");
  arrivals n := []; connected n := []; schedule l := rev l; schedule_perm l := symmetry (Permutation_rev l);
|}.

(** A node that heard of two providers. *)
Definition asking : Distributor := handle_providers_found hello_id [[1]; [2]] fresh.

Lemma hello_pieces : pieces hello = [hello].
Proof. by vm_compute. Qed.
Lemma other_pieces : pieces other = [other].
Proof. by vm_compute. Qed.

Lemma collision_one x : ¬ collision [x].
Proof. intros (a & b & Ha & Hb & Hne & _). apply list_elem_of_singleton in Ha, Hb. congruence. Qed.

Lemma asking_peers : get_providers_for_object asking hello_id = [[1]; [2]] ∨ get_providers_for_object asking hello_id = [[2]; [1]].
Proof. first [left; by vm_compute|right; by vm_compute]. Qed.

Lemma asking_copy data m d : holds data hello_id m d → reachable_copy (W := one_peer d) data hello_id m (get_providers_for_object asking hello_id).
Proof.
  intros Hd. assert (honest (W := one_peer d) data hello_id m [1]) as H1'.
  { exists d. split; [done|]. intros n req. reflexivity. }
  assert (silent (W := one_peer d) [2]) as H2' by (intros n req; by eexists).
  destruct asking_peers as [-> | ->]; (split; [apply Forall_cons_2; [auto|apply Forall_cons_2; [auto|apply Forall_nil_2]]|]).
  - by apply Exists_cons_hd.
  - by apply Exists_cons_tl, Exists_cons_hd.
Qed.

Lemma hello_held : holds hello hello_id (manifest_of hello blob_type) publisher_db.
Proof.
  apply (put_holds hello blob_type [] 0 empty_db (object_of hello blob_type [] 0)).
  - unfold publisher_db. by rewrite put_object_run.
  - rewrite hello_pieces. apply collision_one.
Qed.

Lemma other_held : holds other hello_id (forged hello_id other) forger_db.
Proof.
  split; [|split].
  - eexists. apply lookup_insert_eq.
  - apply lookup_insert_eq.
  - rewrite other_pieces. constructor; [|constructor]. by vm_compute.
Qed.

Lemma asking_clean data : clean data (store asking).
Proof. intros q _. left. apply lookup_empty. Qed.

Lemma replication_witness :
  ∃ s', fetch_blob (W := one_peer publisher_db) true hello_id asking = (Ok hello, s') ∧ get_object (store s') hello_id = Ok hello
        ∧ is_complete (store s') hello_id = true.
Proof.
  apply (replication (W := one_peer publisher_db) (λ _, eq_refl) hello blob_type asking).
  - rewrite hello_pieces. apply collision_one.
  - apply asking_copy, hello_held.
  - apply asking_clean.
  - left. apply lookup_empty.
Defined.

Lemma substitution_witness :
  hello ≠ other ∧ ∃ s', fetch_blob (W := one_peer forger_db) true hello_id asking = (Ok other, s') ∧ get_object (store s') hello_id = Ok other.
Proof.
  split; [done|]. apply (substitution (W := one_peer forger_db) (λ _, eq_refl) hello other blob_type asking).
  - rewrite other_pieces. apply collision_one.
  - apply asking_copy, other_held.
  - apply asking_clean.
  - apply lookup_empty.
Defined.

(** The node has the manifest of [hello] already. *)
Definition knowing : Distributor := set_store (store_manifest (manifest_of hello blob_type) empty_db) asking.

Lemma knowing_fetches : ∃ s', fetch_blob (W := one_peer publisher_db) true hello_id knowing = (Ok hello, s').
Proof.
  destruct (fetch_blob_delivers (W := one_peer publisher_db) hello hello_id (manifest_of hello blob_type) (λ _, eq_refl)) with (s := knowing) as (s' & ? & _).
  - done.
  - rewrite hello_pieces. apply collision_one.
  - apply (asking_copy hello (manifest_of hello blob_type)), hello_held.
  - apply asking_clean.
  - right. apply lookup_insert_eq.
  - by exists s'.
Qed.

Lemma pinned_content_witness :
  ∃ s', fetch_blob (W := one_peer publisher_db) true hello_id knowing = (Ok hello, s') ∧
    (hello = hello ∨ collision [hello; hello]
     ∨ ∃ m', replaced (W := one_peer publisher_db) hello_id (clock knowing) (clock s') m' ∧ hash_bytes hello = content_hash m').
Proof.
  destruct knowing_fetches as (s' & Hf). exists s'. split; [exact Hf|].
  refine (pinned_content (W := one_peer publisher_db) hello_id (manifest_of hello blob_type) hello blob_type true knowing s' hello eq_refl _ Hf).
  apply lookup_insert_eq.
Defined.

(** Both providers are asked, and the first answers with other bytes. *)
Definition lying_peer : World := {|
  ask n p req := match req with GetChunk id => Ok (RChunk id (Some other)) | _ => Throw (js "timeout") end;
  arrivals n := []; connected n := []; schedule l := l; schedule_perm l := reflexivity l;
|}.

Lemma bad_chunk_witness :
  (fetch_single_chunk (W := lying_peer) hello_id {| desc_chunk_id := hash_bytes hello; size := 5; offset := 0 |} asking).1
  = Throw (js "chunk verification failed").
Proof.
  destruct asking_peers as [Hp|Hp];
    (eapply (bad_chunk (W := lying_peer) hello_id _ _ _ other asking Hp); [by vm_compute|done|reflexivity|by vm_compute]).
Defined.
End TransferModels.
