(* ===== verification/ContentDetector.v ===== *)
(** * src/blob_gateway/content_detector.rs: the type of a blob

    The table of extensions and the detection of a MIME type from the first bytes of the
    data, branch by branch.  Every type that is detected has an extension of its own;
    the branches whose literal is not as long as the slice it is compared with are never
    taken. *)

From S2P Require Import Prelude JsValue Codec RustLib.

Module ContentDetector.
Import Rust.

Definition mime_entries : list (rstr * rstr) := [
   (js "image/png", js "png"); (js "image/jpeg", js "jpg"); (js "image/gif", js "gif"); (js "image/webp", js "webp"); (js "image/svg+xml", js "svg");
    (js "image/bmp", js "bmp"); (js "image/x-icon", js "ico"); (js "image/tiff", js "tiff"); (js "image/avif", js "avif");
    (js "image/apng", js "apng"); (js "image/heic", js "heic"); (js "image/heif", js "heif"); (js "image/jxl", js "jxl"); (js "video/mp4", js "mp4");
    (js "video/webm", js "webm"); (js "video/ogg", js "ogv"); (js "video/x-matroska", js "mkv"); (js "video/quicktime", js "mov");
    (js "video/x-msvideo", js "avi"); (js "video/x-flv", js "flv"); (js "video/3gpp", js "3gp"); (js "video/mp2t", js "ts");
    (js "video/mpeg", js "mpeg"); (js "audio/mpeg", js "mp3"); (js "audio/ogg", js "ogg"); (js "audio/wav", js "wav"); (js "audio/webm", js "weba");
    (js "audio/flac", js "flac"); (js "audio/aac", js "aac"); (js "audio/opus", js "opus"); (js "audio/midi", js "midi");
    (js "audio/x-m4a", js "m4a"); (js "application/pdf", js "pdf"); (js "application/zip", js "zip"); (js "application/x-7z-compressed", js "7z");
    (js "application/x-rar-compressed", js "rar"); (js "application/gzip", js "gz"); (js "application/x-bzip2", js "bz2");
    (js "application/x-xz", js "xz"); (js "application/x-tar", js "tar"); (js "application/vnd.microsoft.portable-executable", js "exe");
    (js "application/x-msdownload", js "exe"); (js "application/x-msi", js "msi"); (js "application/x-deb", js "deb");
    (js "application/x-rpm", js "rpm"); (js "application/x-apple-diskimage", js "dmg"); (js "application/vnd.appimage", js "appimage");
    (js "application/json", js "json"); (js "application/xml", js "xml"); (js "application/yaml", js "yaml"); (js "application/toml", js "toml");
    (js "application/wasm", js "wasm"); (js "application/vnd.openxmlformats-officedocument.wordprocessingml.document", js "docx");
    (js "application/vnd.openxmlformats-officedocument.spreadsheetml.sheet", js "xlsx");
    (js "application/vnd.openxmlformats-officedocument.presentationml.presentation", js "pptx"); (js "application/msword", js "doc");
    (js "application/vnd.ms-excel", js "xls"); (js "application/vnd.ms-powerpoint", js "ppt");
    (js "application/vnd.oasis.opendocument.text", js "odt"); (js "application/vnd.oasis.opendocument.spreadsheet", js "ods");
    (js "application/vnd.oasis.opendocument.presentation", js "odp"); (js "application/rtf", js "rtf");
    (js "application/x-shockwave-flash", js "swf"); (js "application/java-archive", js "jar"); (js "application/x-iso9660-image", js "iso");
    (js "text/plain", js "txt"); (js "text/html", js "html"); (js "text/css", js "css"); (js "text/javascript", js "js"); (js "text/csv", js "csv");
    (js "text/markdown", js "md"); (js "text/xml", js "xml"); (js "text/x-python", js "py"); (js "text/x-java", js "java"); (js "text/x-c", js "c");
    (js "text/x-c++", js "cpp"); (js "text/x-rust", js "rs"); (js "text/x-go", js "go"); (js "text/x-php", js "php"); (js "text/x-ruby", js "rb");
    (js "text/x-sh", js "sh"); (js "font/ttf", js "ttf"); (js "font/otf", js "otf"); (js "font/woff", js "woff"); (js "font/woff2", js "woff2") ].

Definition mime_to_ext : gmap rstr rstr := list_to_map mime_entries.

(** [&data[a..b]]; the guards keep it in range. *)
Definition slice (a b : nat) (data : bytes) : bytes := take (b - a) (drop a data).

(** [&data[a..b] == lit]. *)
Definition at_ (a b : nat) (lit data : bytes) : bool := str_eqb (slice a b data) lit.

(** [data.windows(n).any(|w| w == lit)]. *)
Fixpoint any_window (n : nat) (lit data : bytes) : bool :=
  match data with
  | [] => false
  | _ :: rest => ((n <=? length data)%nat && str_eqb (take n data) lit) || any_window n lit rest
  end.

Definition is_text_byte (b : Z) : bool := (b =? 9) || (b =? 10) || (b =? 13) || ((32 <=? b) && (b <? 127)).

Definition is_likely_text (data : bytes) : bool :=
  let sample_size := Nat.min 512 (length data) in
  let text_chars := length (List.filter is_text_byte (take sample_size data)) in
  Z.of_nat sample_size * 85 / 100 <? Z.of_nat text_chars.

Definition octet_stream : rstr := js "application/octet-stream".

Definition detect (data : bytes) : rstr :=
  let len := length data in
  let longer n := (n <? len)%nat in
  let from a lit := (a + length lit <=? len)%nat && at_ a (a + length lit) lit data in
  let from12 a lit := (12 <=? len)%nat && at_ a (a + length lit) lit data in
  if is_empty data then octet_stream
  else if from 0%nat [137; 80; 78; 71; 13; 10; 26; 10] then js "image/png"
  else if from 0%nat [255; 216; 255] then js "image/jpeg"
  else if from 0%nat (js "GIF87a") || from 0%nat (js "GIF89a") then js "image/gif"
  else if from12 0%nat (js "RIFF") && from12 8%nat (js "WEBP") then js "image/webp"
  else if from 0%nat (js "BM") then js "image/bmp"
  else if from 0%nat [0; 0; 1; 0] then js "image/x-icon"
  else if from12 0%nat [73; 73; 42; 0] || from12 0%nat [77; 77; 0; 42] then js "image/tiff"
  else if from12 4%nat (js "ftypavif") then js "image/avif"
  else if from12 4%nat (js "ftypheic") then js "image/heic"
  else if from12 4%nat (js "ftypheif") then js "image/heif"
  else if from12 0%nat [255; 10; 0; 0; 0; 0; 0; 0; 0; 0; 0; 0] then js "image/jxl"
  else if from 0%nat (js "<?xml") then (if any_window 4 (js "<svg") data then js "image/svg+xml" else js "application/xml")
  else if from 0%nat (js "<svg") then js "image/svg+xml"
  else if from12 0%nat [0; 0; 0; 32] then
    (if at_ 4 12 (js "ftypmp42") data || at_ 4 12 (js "ftypisom") data || at_ 4 12 (js "ftypM4V ") data || at_ 4 12 (js "ftypqt  ") data
     then js "video/mp4"
     else if at_ 4 12 (js "ftyp") data && at_ 8 11 (js "M4A") data then js "audio/x-m4a"
     else octet_stream)
  else if from12 0%nat [0; 0; 0; 24] && from12 4%nat (js "ftypqt  ") then js "video/quicktime"
  else if from 0%nat [26; 69; 223; 163] then js "video/x-matroska"
  else if from 0%nat (js "FLV") then js "video/x-flv"
  else if from12 0%nat (js "RIFF") && from12 8%nat (js "AVI ") then js "video/x-msvideo"
  else if from12 0%nat (js "RIFF") && from12 8%nat (js "WAVE") then js "audio/wav"
  else if from 0%nat [0; 0; 1; 186] then js "video/mpeg"
  else if from 0%nat (js "OggS") then
    (if longer 35%nat && at_ 28 35 (1 :: js "vorbis") data then js "audio/ogg"
     else if longer 35%nat && at_ 28 35 (js "OpusHea") data then js "audio/opus"
     else js "video/ogg")
  else if from 0%nat (js "ID3") then js "audio/mpeg"
  else if from 0%nat [255; 251] then js "audio/mpeg"
  else if from 0%nat [255; 241] then js "audio/aac"
  else if from 0%nat (js "fLaC") then js "audio/flac"
  else if from 0%nat (js "MThd") then js "audio/midi"
  else if from 0%nat (js "%PDF-") then js "application/pdf"
  else if from 0%nat [80; 75; 3; 4] then
    (if longer 50%nat then
       (if any_window 19 (js "word/document.xml") data
        then js "application/vnd.openxmlformats-officedocument.wordprocessingml.document"
        else if any_window 17 (js "xl/workbook.xml") data
        then js "application/vnd.openxmlformats-officedocument.spreadsheetml.sheet"
        else if any_window 22 (js "ppt/presentation.xml") data
        then js "application/vnd.openxmlformats-officedocument.presentationml.presentation"
        else js "application/zip")
     else js "application/zip")
  else if from 0%nat [55; 122; 188; 175; 39; 28] then js "application/x-7z-compressed"
  else if from 0%nat (js "Rar!" ++ [26; 7; 0]) then js "application/x-rar-compressed"
  else if from 0%nat [31; 139] then js "application/gzip"
  else if from 0%nat (js "BZh") then js "application/x-bzip2"
  else if from 0%nat (253 :: js "7zXZ" ++ [0]) then js "application/x-xz"
  else if from 257%nat (js "ustar") then js "application/x-tar"
  else if from 0%nat (js "MZ") then js "application/x-msdownload"
  else if from 0%nat [208; 207; 17; 224; 161; 177; 26; 225] then
    (if longer 2080%nat then
       (let rest := drop 2080 data in
        if any_window 4 (js "Word") rest then js "application/msword"
        else if any_window 5 (js "Excel") rest then js "application/vnd.ms-excel"
        else if any_window 10 (js "PowerPoint") rest then js "application/vnd.ms-powerpoint"
        else js "application/x-msi")
     else js "application/x-msi")
  else if from 0%nat (js "!<ar") then
    (if longer 20%nat && at_ 8 20 (js "debian-bina") data then js "application/x-deb" else octet_stream)
  else if from 0%nat [237; 171] then js "application/x-rpm"
  else if from 0%nat [120; 1; 115; 13] then js "application/x-apple-diskimage"
  else if from 0%nat (127 :: js "ELF") then
    (if longer 16%nat && (nth 16 data 0 =? 2) then js "application/vnd.appimage" else octet_stream)
  else if from 0%nat (js "wOFF") then js "font/woff"
  else if from 0%nat (js "wOF2") then js "font/woff2"
  else if from 0%nat [0; 1; 0; 0; 0] then js "font/ttf"
  else if from 0%nat (js "OTTO") then js "font/otf"
  else if from 0%nat (js "CWS" ++ [8]) then js "application/x-shockwave-flash"
  else if from 0%nat (0 :: js "asm" ++ [1; 0; 0; 0]) then js "application/wasm"
  else if from 0%nat (js "<!DOC") then js "text/html"
  else if from 0%nat (js "<html") then js "text/html"
  else if (6 <=? len)%nat && at_ 0 6 (js "<HTML") data then js "text/html"
  else if is_likely_text data then
    (if nth 0 data 0 =? 123 then js "application/json"
     else if from 0%nat (js "---") then js "application/yaml"
     else if any_window 9 (js "#!/bin/sh") data || any_window 9 (js "#!/bin/ba") data then js "text/x-sh"
     else if any_window 15 (js "#!/usr/bin/pyth") data then js "text/x-python"
     else js "text/plain")
  else octet_stream.

Definition get_extension (mime_type : rstr) : rstr := default (js "bin") (mime_to_ext !! mime_type).

(** ** What is detected *)

(** The types with a branch that is taken. *)
Definition detectable : list rstr := [
    js "image/png"; js "image/jpeg"; js "image/gif"; js "image/webp"; js "image/bmp"; js "image/x-icon"; js "image/tiff"; js "image/avif";
    js "image/heic"; js "image/heif"; js "image/jxl"; js "image/svg+xml"; js "application/xml"; js "video/mp4"; js "video/quicktime";
    js "video/x-matroska"; js "video/x-flv"; js "video/x-msvideo"; js "audio/wav"; js "video/mpeg"; js "audio/ogg"; js "audio/opus";
    js "video/ogg"; js "audio/mpeg"; js "audio/aac"; js "audio/flac"; js "audio/midi"; js "application/pdf"; js "application/zip";
    js "application/x-7z-compressed"; js "application/x-rar-compressed"; js "application/gzip"; js "application/x-bzip2"; js "application/x-xz";
    js "application/x-tar"; js "application/x-msdownload"; js "application/msword"; js "application/vnd.ms-excel";
    js "application/vnd.ms-powerpoint"; js "application/x-msi"; js "application/x-rpm"; js "application/x-apple-diskimage";
    js "application/vnd.appimage"; js "font/woff"; js "font/woff2"; js "font/ttf"; js "font/otf"; js "application/x-shockwave-flash";
    js "application/wasm"; js "text/html"; js "application/json"; js "application/yaml"; js "text/x-sh"; js "text/x-python"; js "text/plain" ].

(** The types with a branch that is not. *)
Definition never_detected : list rstr := [
    js "application/vnd.openxmlformats-officedocument.wordprocessingml.document";
    js "application/vnd.openxmlformats-officedocument.spreadsheetml.sheet";
    js "application/vnd.openxmlformats-officedocument.presentationml.presentation"; js "application/x-deb"; js "audio/x-m4a" ].

Lemma any_window_length n lit data : length lit ≠ n → any_window n lit data = false.
Proof.
  intros Hn. induction data as [|b data IH]; cbn [any_window]; [done|]. rewrite IH, orb_false_r.
  destruct (Nat.leb_spec n (length (b :: data))); [|done]. cbn [andb]. apply not_true_iff_false. rewrite str_eqb_eq. intros Heq.
  apply Hn. rewrite <- Heq, length_take. lia.
Qed.

Lemma at_length a b lit data : (b ≤ length data)%nat → length lit ≠ (b - a)%nat → (a ≤ b)%nat → at_ a b lit data = false.
Proof.
  intros Hb Hn Ha. unfold at_, slice. apply not_true_iff_false. rewrite str_eqb_eq. intros Heq. apply Hn. rewrite <- Heq, length_take, length_drop. lia.
Qed.

Definition member (t : rstr) : bool := existsb (str_eqb t) (octet_stream :: detectable).

Lemma member_if (c : bool) a b : (c = true → member a = true) → member b = true → member (if c then a else b) = true.
Proof. destruct c; auto. Qed.

Lemma detect_member data : member (detect data) = true.
Proof.
  unfold detect. cbv zeta. rewrite (any_window_length 19), (any_window_length 17), (any_window_length 22) by (vm_compute; congruence).
  repeat match goal with |- member (if _ then _ else _) = true => apply member_if; [intros ?|] end; try (vm_compute; reflexivity); exfalso;
    repeat match goal with H : _ && _ = true |- _ => apply andb_true_iff in H as [? ?] end;
    repeat match goal with
           | H : (_ <=? _)%nat = true |- _ => apply Nat.leb_le in H
           | H : (_ <? _)%nat = true |- _ => apply Nat.ltb_lt in H
           end;
    match goal with
    | H : at_ 4 12 (js "ftyp") data = true |- _ => rewrite at_length in H; [discriminate|lia|vm_compute; congruence|lia]
    | H : at_ 8 20 (js "debian-bina") data = true |- _ => rewrite at_length in H; [discriminate|lia|vm_compute; congruence|lia]
    end.
Qed.

Lemma detectable_known : Forall (λ t, is_Some (mime_to_ext !! t) ∧ t ∉ never_detected) detectable.
Proof.
  apply Forall_forall. intros t Ht. assert (forallb (λ t, match mime_to_ext !! t with Some _ => negb (existsb (str_eqb t) never_detected) | None => false end) detectable = true)
    as Hall by (vm_compute; reflexivity).
  rewrite forallb_forall in Hall. specialize (Hall t (proj1 (list_elem_of_In _ _) Ht)). destruct (mime_to_ext !! t); [|done]. split; [done|].
  intros Hin. apply negb_true_iff, not_true_iff_false in Hall. apply Hall, existsb_exists. exists t. split; [by apply list_elem_of_In|by apply str_eqb_eq].
Qed.

(** C19 The type that is detected for any data is one of the table, with an extension of its own,
    or the type of arbitrary bytes with the extension "bin"; documents of the Office formats,
    Debian packages and M4A audio are never detected as such. *)
Theorem detect_extension (data : bytes) :
  (detect data = octet_stream ∧ get_extension (detect data) = js "bin")
  ∨ (mime_to_ext !! detect data = Some (get_extension (detect data)) ∧ detect data ∉ never_detected).
Proof.
  pose proof (detect_member data) as Hm. apply existsb_exists in Hm as (t & Ht & Heq). apply str_eqb_eq in Heq. subst t.
  destruct Ht as [Heq|Ht].
  - left. rewrite <- Heq. split; [done|]. by vm_compute.
  - right. pose proof detectable_known as Hall. rewrite Forall_forall in Hall. destruct (Hall (detect data)) as [[e He] Hn]; [by apply list_elem_of_In|].
    split; [|done]. unfold get_extension. by rewrite He.
Qed.
End ContentDetector.
