(* ===== verification/Consensus.v ===== *)
(** * src/consensus: how a committee agrees on the state of a program

    src/consensus/core: the votes of a node on proposed transitions, their aggregation
    into a receipt, its verification and its application to the state
    (network_handlers.rs, engine.rs, execution.rs, receipt_verifier.rs), with the catalog of
    src/storage/program_catalog.rs.  BLS signatures and bincode are parameters.  The
    database does not fail here.  What a node receives, and what the execution of a
    program yields on it, are the events of a run. *)

From stdpp Require Import sorting.
From S2P Require Import Prelude JsValue Codec RustLib WasmHost Merkle StateStore.

Module Consensus.
Import Rust Host Merkle Store.

(** ** src/types.rs and src/network/unified_protocol.rs *)

Definition StateWrite : Type := bytes * option bytes.

Record CommitteeMember : Type := {
  node : bytes;
  weight : Z;
  bls_public_key : bytes;
}.

Record CommitteeCertificate : Type := {
  committee_program : bytes;
  epoch : Z;
  members : list CommitteeMember;
  threshold : Z;
  committee_key : bytes;
  certificate_signature : option bytes;
}.

Record ExecutionCall : Type := {
  entrypoint : rstr;
  calldata : bytes;
  request_id : bytes;
}.

Record ExecutionReceipt : Type := {
  receipt_program : bytes;
  height : Z;
  state_root_in : bytes;
  call : ExecutionCall;
  inputs_hash : bytes;
  gas_used : Z;
  state_root_out : bytes;
  write_digest : bytes;
  events_hash : bytes;
  wasm_code_hash : option bytes;
  wasm_env_hash : bytes;
  nonce : Z;
  executor : bytes;
}.

Record AggregatedReceipt : Type := {
  receipt : ExecutionReceipt;
  committee_epoch : Z;
  signer_bitmap : bytes;
  aggregate_signature : bytes;
  aggregate_public_key : bytes;
}.

Record StateCommitment : Type := {
  commit_program : bytes;
  commit_height : Z;
  commit_root : bytes;
  parent : option bytes;
  state_delta_root : option bytes;
  timestamp_ms : Z;
}.

Record StateTransitionProposal : Type := {
  proposed : ExecutionReceipt;
  proposal_epoch : Z;
  proposed_writes : list StateWrite;
}.

Record StateTransitionVote : Type := {
  vote_program : bytes;
  vote_epoch : Z;
  vote_receipt : bytes;
  signer : bytes;
  vote_signature : bytes;
}.

Record AggregatedReceiptBundle : Type := {
  bundle_receipt : AggregatedReceipt;
  bundle_committee : CommitteeCertificate;
  bundle_writes : list StateWrite;
}.

Record StateResponse : Type := {
  response_program : bytes;
  response_root : bytes;
  state_entries : list (bytes * bytes);
}.

(** What a node publishes, and what it asks its peers for. *)
Inductive Message : Type :=
| Proposal (p : StateTransitionProposal)
| Vote (v : StateTransitionVote)
| Finalized (b : AggregatedReceiptBundle)
| WantManifest (program : bytes)
| WantTransition (program : bytes) (h : Z).

#[global] Instance member_eq : EqDecision CommitteeMember.
Proof. solve_decision. Defined.
#[global] Instance committee_eq : EqDecision CommitteeCertificate.
Proof. solve_decision. Defined.

(** ** Integers as keys *)

Fixpoint to_be_bytes (n : nat) (x : Z) : bytes :=
  match n with 0%nat => [] | S n' => x / 256 ^ Z.of_nat n' mod 256 :: to_be_bytes n' x end.

Definition from_be_bytes (bs : bytes) : Z := fold_left (λ a b, a * 256 + b) bs 0.

Lemma to_be_length n x : length (to_be_bytes n x) = n.
Proof. induction n; cbn; congruence. Qed.

Lemma from_be_app a b : from_be_bytes (a ++ b) = from_be_bytes a * 256 ^ Z.of_nat (length b) + from_be_bytes b.
Proof.
  unfold from_be_bytes. rewrite fold_left_app. generalize (fold_left (λ a b, a * 256 + b) a 0) as x. clear a.
  assert (∀ b x y, fold_left (λ a b, a * 256 + b) b (x + y) = x * 256 ^ Z.of_nat (length b) + fold_left (λ a b, a * 256 + b) b y) as Hg.
  { induction b0 as [|c b0 IH]; intros x y; cbn [fold_left length]; [rewrite Z.pow_0_r; lia|].
    replace ((x + y) * 256 + c) with (x * 256 + (y * 256 + c)) by lia. rewrite IH, Nat2Z.inj_succ, Z.pow_succ_r; lia. }
  intros x. rewrite <- (Z.add_0_r x) at 1. apply Hg.
Qed.

Lemma be_roundtrip n x : 0 ≤ x < 256 ^ Z.of_nat n → from_be_bytes (to_be_bytes n x) = x.
Proof.
  assert (∀ x, from_be_bytes (to_be_bytes n x) = x mod 256 ^ Z.of_nat n) as Hm; [|intros Hx; rewrite Hm; by apply Z.mod_small].
  clear x. induction n as [|n IH]; intros x; [cbn; by rewrite Z.mod_1_r|]. cbn [to_be_bytes].
  change (?a :: ?b) with ([a] ++ b). rewrite from_be_app, IH, to_be_length, Nat2Z.inj_succ, Z.pow_succ_r by lia. cbn.
  rewrite (Z.mul_comm 256), Z.rem_mul_r by lia. lia.
Qed.

(** The order of the keys is that of the numbers. *)
Lemma be_order n x y :
  0 ≤ x < 256 ^ Z.of_nat n → 0 ≤ y < 256 ^ Z.of_nat n → str_leb (to_be_bytes n x) (to_be_bytes n y) = true → x ≤ y.
Proof.
  revert x y. induction n as [|n IH]; intros x y Hx Hy; [cbn in *; lia|]. rewrite Nat2Z.inj_succ, Z.pow_succ_r in Hx, Hy by lia.
  cbn [to_be_bytes str_leb]. set (P := 256 ^ Z.of_nat n) in *. assert (0 < P) by (unfold P; lia).
  assert (∀ z, 0 ≤ z < 256 * P → 0 ≤ z / P < 256) as Hd by (intros z Hz; split; [apply Z.div_pos; lia|apply Z.div_lt_upper_bound; lia]).
  rewrite !(Z.mod_small (_ / P)) by auto. rewrite orb_true_iff, andb_true_iff, Z.ltb_lt, Z.eqb_eq.
  pose proof (Z.div_mod x P ltac:(lia)) as Ex. pose proof (Z.div_mod y P ltac:(lia)) as Ey.
  pose proof (Z.mod_pos_bound x P ltac:(lia)). pose proof (Z.mod_pos_bound y P ltac:(lia)).
  intros [Hlt|[Heq Hr]]; [nia|].
  assert (∀ z, to_be_bytes n z = to_be_bytes n (z mod P)) as Hmod.
  { intros z. unfold P. clear. assert (∀ m, (m ≤ n)%nat → to_be_bytes m z = to_be_bytes m (z mod 256 ^ Z.of_nat n)) as Hm; [|by apply Hm].
    induction m as [|m IH]; intros Hm; [done|]. cbn [to_be_bytes]. rewrite IH by lia. f_equal.
    replace (Z.of_nat n) with (Z.of_nat m + 1 + Z.of_nat (n - S m)) by lia. rewrite !Z.pow_add_r by lia. rewrite Z.pow_1_r.
    rewrite <- Z.mul_assoc, Z.rem_mul_r by lia. rewrite (Z.mul_comm (256 ^ Z.of_nat m) ((_ / _) mod _)), Z.div_add by lia.
    rewrite (Z.div_small (z mod _)) by (apply Z.mod_pos_bound; lia). rewrite Z.add_0_l, Z.rem_mul_r by lia.
    rewrite (Z.mul_comm 256), Z.mod_add by lia. by rewrite Z.mod_mod. }
  rewrite (Hmod x), (Hmod y) in Hr. apply IH in Hr; [nia|lia|lia].
Qed.

(** ** The state of a node *)

(** The parts that the handlers read. *)
Record ProgramManifest : Type := {
  manifest_program : bytes;
  deployer : bytes;
  initial_state_root : bytes;
  committee : option CommitteeCertificate;
  manifest_signature : bytes;
}.

(** [completion]: the execution that proposed it waits for its end. *)
Record PendingTransition : Type := {
  pending_committee : CommitteeCertificate;
  pending_receipt : ExecutionReceipt;
  pending_state_writes : list StateWrite;
  signatures : gmap bytes bytes;
  completion : bool;
}.

Inductive Failure : Type :=
| ProgramMismatch | EpochMismatch | CommitteeTooLarge | BadBitmapSize | NoSigners | InsufficientWeight | BadAggregate
| BadVotedEntry | SignFailed | AggregateFailed
| CalldataTooLarge | NoCommittee | NoLeader | ForwardFailed | ProgramTooLarge | ProgramMissing | ExecutionFailed
| TooManyWrites | NotInCommittee | KeyMismatch | BadManifestSignature.

Record NodeKeys : Type := {
  node_id : bytes;
  bls_secret : bytes;
  bls_public : bytes;
}.

(** The trees of the database. *)
Record Disk : Type := {
  manifests : gmap bytes ProgramManifest;
  state : gmap bytes bytes;
  commitments : gmap bytes StateCommitment;
  receipts : gmap bytes AggregatedReceipt;
  finalized : gmap bytes AggregatedReceiptBundle;
  voted_store : gmap bytes bytes;
}.

(** For the statements, [signed] records what was signed, with [true] in a vote on the node's
    own execution, and [written] what the disk held after each write.  Every write is flushed
    before the next. *)
Record Node : Type := {
  keys : NodeKeys;
  disk : Disk;
  last_voted : gmap bytes (Z * bytes);
  pending : gmap bytes PendingTransition;
  versions : gmap bytes Z;
  outbox : list Message;
  answered : list (bytes * outcome Failure unit);
  signed : list (bool * ExecutionReceipt);
  written : list Disk;
}.

Definition set_manifests (x : gmap bytes ProgramManifest) (n : Disk) : Disk :=
  {| manifests := x; state := state n; commitments := commitments n; receipts := receipts n; finalized := finalized n; voted_store := voted_store n |}.
Definition set_state (x : gmap bytes bytes) (n : Disk) : Disk :=
  {| manifests := manifests n; state := x; commitments := commitments n; receipts := receipts n; finalized := finalized n; voted_store := voted_store n |}.
Definition set_commitments (x : gmap bytes StateCommitment) (n : Disk) : Disk :=
  {| manifests := manifests n; state := state n; commitments := x; receipts := receipts n; finalized := finalized n; voted_store := voted_store n |}.
Definition set_receipts (x : gmap bytes AggregatedReceipt) (n : Disk) : Disk :=
  {| manifests := manifests n; state := state n; commitments := commitments n; receipts := x; finalized := finalized n; voted_store := voted_store n |}.
Definition set_finalized (x : gmap bytes AggregatedReceiptBundle) (n : Disk) : Disk :=
  {| manifests := manifests n; state := state n; commitments := commitments n; receipts := receipts n; finalized := x; voted_store := voted_store n |}.
Definition set_voted_store (x : gmap bytes bytes) (n : Disk) : Disk :=
  {| manifests := manifests n; state := state n; commitments := commitments n; receipts := receipts n; finalized := finalized n; voted_store := x |}.

Definition set_keys (x : NodeKeys) (n : Node) : Node :=
  {| keys := x; disk := disk n; last_voted := last_voted n; pending := pending n; versions := versions n; outbox := outbox n; answered := answered n; signed := signed n; written := written n |}.
Definition set_disk (x : Disk) (n : Node) : Node :=
  {| keys := keys n; disk := x; last_voted := last_voted n; pending := pending n; versions := versions n; outbox := outbox n; answered := answered n; signed := signed n; written := written n |}.
Definition set_last_voted (x : gmap bytes (Z * bytes)) (n : Node) : Node :=
  {| keys := keys n; disk := disk n; last_voted := x; pending := pending n; versions := versions n; outbox := outbox n; answered := answered n; signed := signed n; written := written n |}.
Definition set_pending (x : gmap bytes PendingTransition) (n : Node) : Node :=
  {| keys := keys n; disk := disk n; last_voted := last_voted n; pending := x; versions := versions n; outbox := outbox n; answered := answered n; signed := signed n; written := written n |}.
Definition set_versions (x : gmap bytes Z) (n : Node) : Node :=
  {| keys := keys n; disk := disk n; last_voted := last_voted n; pending := pending n; versions := x; outbox := outbox n; answered := answered n; signed := signed n; written := written n |}.
Definition set_outbox (x : list Message) (n : Node) : Node :=
  {| keys := keys n; disk := disk n; last_voted := last_voted n; pending := pending n; versions := versions n; outbox := x; answered := answered n; signed := signed n; written := written n |}.
Definition set_answered (x : list (bytes * outcome Failure unit)) (n : Node) : Node :=
  {| keys := keys n; disk := disk n; last_voted := last_voted n; pending := pending n; versions := versions n; outbox := outbox n; answered := x; signed := signed n; written := written n |}.
Definition set_signed (x : list (bool * ExecutionReceipt)) (n : Node) : Node :=
  {| keys := keys n; disk := disk n; last_voted := last_voted n; pending := pending n; versions := versions n; outbox := outbox n; answered := answered n; signed := x; written := written n |}.

Definition set_written (x : list Disk) (n : Node) : Node :=
  {| keys := keys n; disk := disk n; last_voted := last_voted n; pending := pending n; versions := versions n; outbox := outbox n; answered := answered n; signed := signed n; written := x |}.

Definition on_disk (f : Disk → Disk) (n : Node) : Node := set_written (written n ++ [f (disk n)]) (set_disk (f (disk n)) n).
Definition publish (m : Message) (n : Node) : Node := set_outbox (outbox n ++ [m]) n.

(** ** src/storage/program_catalog.rs *)

Definition height_key (program : bytes) (h : Z) : bytes := program ++ to_be_bytes 8 h.

Definition get_committee (program : bytes) (n : Node) : option CommitteeCertificate := manifests (disk n) !! program ≫= committee.

Definition store_state_commitment (c : StateCommitment) (n : Node) : Node :=
  on_disk (λ d, set_commitments (<[height_key (commit_program c) (commit_height c) := c]> (commitments d)) d) n.

(** The last entry of the scan. *)
Definition latest_state_commitment (program : bytes) (n : Node) : option StateCommitment :=
  snd <$> last (with_prefix program (commitments (disk n))).

(** [c.height + 1], which wraps around in a release build. *)
Definition expected_height (program : bytes) (n : Node) : Z :=
  match latest_state_commitment program n with Some c => (commit_height c + 1) mod 2 ^ 64 | None => 1 end.

(** [saturating_add]. *)
Definition sat_add (a b : Z) : Z := Z.min (a + b) (2 ^ 64 - 1).

Definition next_height (program : bytes) (n : Node) : Z :=
  match latest_state_commitment program n with Some c => sat_add (commit_height c) 1 | None => 1 end.

Definition store_manifest (m : ProgramManifest) (n : Node) : Node :=
  on_disk (λ d, set_manifests (<[manifest_program m := m]> (manifests d)) d) n.

Definition verify_initial_sync (m : ProgramManifest) (n : Node) : bool :=
  match manifests (disk n) !! manifest_program m with
  | None => true
  | Some existing =>
      bool_decide (initial_state_root existing = initial_state_root m)
      && match committee existing, committee m with
         | Some a, Some b => bool_decide (a = b)
         | Some _, None => false
         | None, _ => true
         end
  end.

(** ** Committees *)

Definition leader_for_height (c : CommitteeCertificate) (h : Z) : option bytes :=
  if is_empty (members c) || (h =? 0) then None
  else node <$> members c !! Z.to_nat (Z.max 0 (h - 1) mod Z.of_nat (length (members c))).

Definition find_member (c : CommitteeCertificate) (id : bytes) : option CommitteeMember :=
  List.find (λ m, bool_decide (node m = id)) (members c).

Definition signer_weight (c : CommitteeCertificate) (signers : list bytes) : Z :=
  fold_left (λ w s, match find_member c s with Some m => sat_add w (weight m) | None => w end) signers 0.

(** ** receipt_verifier.rs *)

Definition MAX_COMMITTEE_SIZE : nat := Z.to_nat 1000.
Definition MAX_BITMAP_SIZE : nat := Z.to_nat 128.

Definition bitmap_size (c : CommitteeCertificate) : nat := ((length (members c) + 7) / 8)%nat.

(** The loop; it breaks where the bitmap ends. *)
Fixpoint select_loop (idx : nat) (ms : list CommitteeMember) (bitmap : bytes) (selected : list bytes) (w : Z) : list bytes * Z :=
  match ms with
  | [] => (selected, w)
  | m :: r =>
      match bitmap !! (idx / 8)%nat with
      | None => (selected, w)
      | Some b =>
          if Z.testbit b (Z.of_nat (idx mod 8)) then select_loop (S idx) r bitmap (selected ++ [bls_public_key m]) (sat_add w (weight m))
          else select_loop (S idx) r bitmap selected w
      end
  end.

Definition select_signers (c : CommitteeCertificate) (bitmap : bytes) : outcome Failure (list bytes * Z) :=
  if (length bitmap <? bitmap_size c)%nat then Throw BadBitmapSize else Ok (select_loop 0 (members c) bitmap [] 0).

(** ** BLS signatures and bincode

    crypto/bls.rs over blst: what is signed under one domain, that of receipts. *)

Class Bls : Type := {
  public_of : bytes → bytes;
  bls_sign : bytes → bytes → option bytes;
  bls_verify : bytes → bytes → bytes → bool;
  fast_aggregate_verify : bytes → list bytes → bytes → bool;
  aggregate_signatures : list bytes → option bytes;
  sign_verifies : ∀ msg secret sig, bls_sign msg secret = Some sig → bls_verify msg (public_of secret) sig = true;
  aggregate_verifies : ∀ msg (l : list (bytes * bytes)),
    l ≠ [] → Forall (λ x, bls_verify msg x.1 x.2 = true) l →
    ∃ sig, aggregate_signatures l.*2 = Some sig ∧ fast_aggregate_verify msg l.*1 sig = true;
}.

Class Bincode : Type := {
  encode_receipt : ExecutionReceipt → bytes;
  encode_receipt_inj : Inj (=) (=) encode_receipt;
  encode_writes : list StateWrite → bytes;
  encode_writes_inj : Inj (=) (=) encode_writes;
  manifest_digest : ProgramManifest → bytes;
}.

(** ed25519: whether a signature of a message verifies under a key, both well-formed. *)
Class Ed25519 : Type := ed25519_verify : bytes → bytes → bytes → bool.

Record ExecutionOutcome : Type := {
  return_data : bytes;
  fuel_consumed : Z;
  outcome_state_writes : list StateWrite;
  outcome_root : bytes;
}.

Notation "'when*' b 'in' k" := (if b then k else retM tt) (at level 10, b at level 100, k at level 200).

Section Handlers.
Context `{Blake3} `{HashIter} `{Bls} `{Bincode} `{Ed25519}.

Definition receipt_id (r : ExecutionReceipt) : bytes := hash_bytes (encode_receipt r).

Definition verify_aggregated_receipt (a : AggregatedReceipt) (c : CommitteeCertificate) : outcome Failure unit :=
  if negb (bool_decide (receipt_program (receipt a) = committee_program c)) then Throw ProgramMismatch
  else if negb (committee_epoch a =? epoch c) then Throw EpochMismatch
  else if (MAX_COMMITTEE_SIZE <? length (members c))%nat then Throw CommitteeTooLarge
  else if (MAX_BITMAP_SIZE <? length (signer_bitmap a))%nat || (length (signer_bitmap a) <? bitmap_size c)%nat then Throw BadBitmapSize
  else
    let! selected := select_signers c (signer_bitmap a) in
    let '(signer_keys, w) := selected in
    if is_empty signer_keys || (w =? 0) then Throw NoSigners
    else if w <? threshold c then Throw InsufficientWeight
    else if fast_aggregate_verify (receipt_id (receipt a)) signer_keys (aggregate_signature a) then Ok tt else Throw BadAggregate.

(** *** engine.rs *)

Definition ingest_aggregated_receipt (a : AggregatedReceipt) (c : CommitteeCertificate) : M Failure Node unit :=
  do* liftM (verify_aggregated_receipt a c) in
  modifyM (on_disk (λ d, set_receipts (<[receipt_program (receipt a) ++ receipt_id (receipt a) := a]> (receipts d)) d)).

Definition load_last_voted (program : bytes) : M Failure Node (option (Z * bytes)) :=
  let* n := getM in
  match last_voted n !! program with
  | Some found => retM (Some found)
  | None =>
      match voted_store (disk n) !! program with
      | None => retM None
      | Some raw =>
          if negb (length raw =? 40)%nat then throwM BadVotedEntry
          else
            let entry := (from_be_bytes (take 8 raw), take 32 (drop 8 raw)) in
            do* modifyM (λ n, set_last_voted (<[program := entry]> (last_voted n)) n) in
            retM (Some entry)
      end
  end.

Definition store_last_voted (program : bytes) (h : Z) (rid : bytes) : M Failure Node unit :=
  do* modifyM (on_disk (λ d, set_voted_store (<[program := to_be_bytes 8 h ++ rid]> (voted_store d)) d)) in
  modifyM (λ n, set_last_voted (<[program := (h, rid)]> (last_voted n)) n).

Definition store_finalized_transition (b : AggregatedReceiptBundle) : M Failure Node unit :=
  let r := receipt (bundle_receipt b) in
  modifyM (on_disk (λ d, set_finalized (<[height_key (receipt_program r) (height r) := b]> (finalized d)) d)).

Definition load_finalized_transition (program : bytes) (h : Z) (n : Node) : option AggregatedReceiptBundle :=
  finalized (disk n) !! height_key program h.

(** *** network_handlers.rs *)

Definition program_root (program : bytes) (n : Node) : bytes := sparse_merkle_root (scoped_pairs program (state (disk n))).

(** [set_scoped] or [delete_scoped]. *)
Definition write_one (program : bytes) (w : StateWrite) (m : gmap bytes bytes) : gmap bytes bytes :=
  match w.2 with Some v => <[prefixed program w.1 := v]> m | None => delete (prefixed program w.1) m end.

(** [apply_state_writes] of execution.rs, one write after the other. *)
Fixpoint flush_writes (program : bytes) (writes : list StateWrite) : M Failure Node unit :=
  match writes with
  | [] => retM tt
  | w :: rest => do* modifyM (on_disk (λ d, set_state (write_one program w (state d)) d)) in flush_writes program rest
  end.

Definition root_after (program : bytes) (writes : list StateWrite) (n : Node) : bytes :=
  sparse_merkle_root (into_iter (apply_state_writes writes (state_of (scoped_pairs program (state (disk n)))))).

(** One turn of the loop; [true] goes on. *)
Definition apply_next (now : Z) (program : bytes) : M Failure Node bool :=
  let* n := getM in
  match get_committee program n with
  | None => do* modifyM (publish (WantManifest program)) in retM false
  | Some expected_committee =>
      match load_finalized_transition program (expected_height program n) n with
      | None => retM false
      | Some b =>
          if negb (bool_decide (bundle_committee b = expected_committee)) then retM false
          else
            let r := receipt (bundle_receipt b) in
            do* ingest_aggregated_receipt (bundle_receipt b) (bundle_committee b) in
            let current_root := program_root program n in
            if negb (bool_decide (state_root_in r = current_root)) then retM false
            else if negb (bool_decide (hash_bytes (encode_writes (bundle_writes b)) = write_digest r)) then retM false
            else if negb (bool_decide (root_after program (bundle_writes b) n = state_root_out r)) then retM false
            else
              do* flush_writes program (bundle_writes b) in
              let* n := getM in
              let applied_root := program_root program n in
              if negb (bool_decide (applied_root = state_root_out r)) then retM false
              else
                do* modifyM (store_state_commitment {|
                  commit_program := program; commit_height := height r; commit_root := applied_root; parent := Some current_root;
                  state_delta_root := Some (write_digest r); timestamp_ms := now |}) in
                do* modifyM (λ n, set_versions (<[program := height r]> (versions n)) n) in
                retM true
      end
  end.

(** [false]: the fuel is used up. *)
Fixpoint apply_loop (fuel : nat) (now : Z) (program : bytes) : M Failure Node bool :=
  match fuel with
  | 0%nat => retM false
  | S fuel => let* again := apply_next now program in if again : bool then apply_loop fuel now program else retM true
  end.

(** Every turn applies another of the stored transitions. *)
Definition apply_available_finalized_transitions (now : Z) (program : bytes) : M Failure Node unit :=
  let* n := getM in do* apply_loop (S (size (finalized (disk n)))) now program in retM tt.

Definition handle_finalized_receipt (now : Z) (b : AggregatedReceiptBundle) : M Failure Node unit :=
  let r := receipt (bundle_receipt b) in
  let program := receipt_program r in
  let* n := getM in
  match get_committee program n with
  | None => do* store_finalized_transition b in modifyM (publish (WantManifest program))
  | Some expected_committee =>
      when* bool_decide (expected_committee = bundle_committee b) in
      do* ingest_aggregated_receipt (bundle_receipt b) (bundle_committee b) in
      do* store_finalized_transition b in
      let* n := getM in
      let expected := expected_height program n in
      do* modifyM (λ n, if expected <? height r then publish (WantTransition program expected) n else n) in
      apply_available_finalized_transitions now program
  end.

(** The loop over the members: the bitmap, the signatures and their weight. *)
Fixpoint collect_signers (idx : nat) (ms : list CommitteeMember) (sigs : gmap bytes bytes) (acc : bytes * list bytes * Z) : bytes * list bytes * Z :=
  match ms with
  | [] => acc
  | m :: r =>
      match sigs !! node m with
      | None => collect_signers (S idx) r sigs acc
      | Some sig =>
          let '(bitmap, out, w) := acc in
          collect_signers (S idx) r sigs
            (alter (λ b, Z.lor b (Z.shiftl 1 (Z.of_nat (idx mod 8)))) (idx / 8)%nat bitmap, out ++ [sig], sat_add w (weight m))
      end
  end.

Definition finalize_transition (now : Z) (entry : PendingTransition) : M Failure Node unit :=
  let c := pending_committee entry in
  let '(bitmap, sigs, w) := collect_signers 0 (members c) (signatures entry) (replicate (bitmap_size c) 0, [], 0) in
  if w <? threshold c then retM tt
  else
    match aggregate_signatures sigs with
    | None => throwM AggregateFailed
    | Some aggregate =>
        let bundle := {|
          bundle_receipt := {|
            receipt := pending_receipt entry; committee_epoch := epoch c; signer_bitmap := bitmap;
            aggregate_signature := aggregate; aggregate_public_key := committee_key c |};
          bundle_committee := c; bundle_writes := pending_state_writes entry |} in
        λ n,
          let '(apply_result, n) := handle_finalized_receipt now bundle n in
          let n := match apply_result with Ok _ => publish (Finalized bundle) n | Throw _ => n end in
          (Ok tt, if completion entry then set_answered (answered n ++ [(receipt_id (pending_receipt entry), apply_result)]) n else n)
    end.

Definition maybe_finalize_pending_transition (now : Z) (rid : bytes) : M Failure Node unit :=
  let* n := getM in
  match pending n !! rid with
  | None => retM tt
  | Some entry =>
      if signer_weight (pending_committee entry) (map fst (into_iter (signatures entry))) <? threshold (pending_committee entry) then retM tt
      else
        do* modifyM (λ n, set_pending (delete rid (pending n)) n) in
        finalize_transition now entry
  end.

(** The entry is taken out and put back unless it is finalized. *)
Definition handle_state_transition_vote (now : Z) (v : StateTransitionVote) : M Failure Node unit :=
  let* n := getM in
  match pending n !! vote_receipt v with
  | None => retM tt
  | Some entry =>
      let c := pending_committee entry in
      when* bool_decide (vote_program v = receipt_program (pending_receipt entry)) in
      when* vote_epoch v =? epoch c in
      match find_member c (signer v) with
      | None => retM tt
      | Some m =>
          when* bool_decide (signatures entry !! signer v = None) in
          when* bls_verify (vote_receipt v) (bls_public_key m) (vote_signature v) in
          let entry := {|
            pending_committee := c; pending_receipt := pending_receipt entry; pending_state_writes := pending_state_writes entry;
            signatures := <[signer v := vote_signature v]> (signatures entry); completion := completion entry |} in
          if signer_weight c (map fst (into_iter (signatures entry))) <? threshold c
          then modifyM (λ n, set_pending (<[vote_receipt v := entry]> (pending n)) n)
          else
            do* modifyM (λ n, set_pending (delete (vote_receipt v) (pending n)) n) in
            finalize_transition now entry
      end
  end.

(** Signing, and the vote that is published; [own] is the ghost of [signed]. *)
Definition sign_receipt (own : bool) (r : ExecutionReceipt) : M Failure Node bytes :=
  let* n := getM in
  match bls_sign (receipt_id r) (bls_secret (keys n)) with
  | None => throwM SignFailed
  | Some sig => do* modifyM (λ n, set_signed (signed n ++ [(own, r)]) n) in retM sig
  end.

Definition publish_vote (c : CommitteeCertificate) (r : ExecutionReceipt) (sig : bytes) : M Failure Node unit :=
  modifyM (λ n, publish (Vote {|
    vote_program := receipt_program r; vote_epoch := epoch c; vote_receipt := receipt_id r; signer := node_id (keys n); vote_signature := sig |}) n).

(** [complete]: the program is there, after fetching it if need be; [executed]: what its
    execution yields on this node. *)
Definition handle_state_transition_proposal (now : Z) (complete : bool) (executed : option ExecutionOutcome) (p : StateTransitionProposal) :
    M Failure Node unit :=
  let r := proposed p in
  let program := receipt_program r in
  let* n := getM in
  match get_committee program n with
  | None => modifyM (publish (WantManifest program))
  | Some c =>
      when* proposal_epoch p =? epoch c in
      match leader_for_height c (height r) with
      | None => retM tt
      | Some leader =>
          when* bool_decide (executor r = leader) in
          match find_member c (node_id (keys n)) with
          | None => retM tt
          | Some me =>
              when* bool_decide (bls_public_key me = bls_public (keys n)) in
              when* height r =? expected_height program n in
              when* bool_decide (state_root_in r = program_root program n) in
              let rid := receipt_id r in
              let* voted := load_last_voted program in
              when* match voted with
                    | Some (h, voted_receipt) => negb ((h =? height r) && negb (bool_decide (voted_receipt = rid))) && negb (height r <? h)
                    | None => true
                    end in
              when* bool_decide (hash_bytes (calldata (call r)) = inputs_hash r) in
              when* complete in
              match executed with
              | None => retM tt
              | Some out =>
                  when* bool_decide (outcome_state_writes out = proposed_writes p) in
                  when* bool_decide (outcome_root out = state_root_out r) in
                  when* bool_decide (hash_bytes (encode_writes (proposed_writes p)) = write_digest r) in
                  when* bool_decide (root_after program (proposed_writes p) n = state_root_out r) in
                  let* sig := sign_receipt false r in
                  do* store_last_voted program (height r) rid in
                  do* modifyM (λ n,
                    let entry := match pending n !! rid with
                                 | Some entry => entry
                                 | None => {| pending_committee := c; pending_receipt := r; pending_state_writes := proposed_writes p;
                                              signatures := ∅; completion := false |}
                                 end in
                    set_pending (<[rid := {|
                      pending_committee := pending_committee entry; pending_receipt := pending_receipt entry;
                      pending_state_writes := pending_state_writes entry;
                      signatures := <[node_id (keys n) := sig]> (signatures entry); completion := completion entry |}]> (pending n)) n) in
                  do* publish_vote c r sig in
                  maybe_finalize_pending_transition now rid
              end
          end
      end
  end.

(** The answer of a peer that was asked for a manifest. *)
Definition handle_manifest_response (now : Z) (m : ProgramManifest) : M Failure Node unit :=
  let* n := getM in
  when* verify_initial_sync m n in
  do* modifyM (store_manifest m) in
  catchM (apply_available_finalized_transitions now (manifest_program m)) (λ _, retM tt).

Definition handle_program_announcement (now : Z) (m : ProgramManifest) : M Failure Node unit :=
  when* negb (is_empty (manifest_signature m)) in
  if negb (ed25519_verify (deployer m) (manifest_digest m) (manifest_signature m)) then throwM BadManifestSignature
  else handle_manifest_response now m.

Definition handle_program_head (now : Z) (program : bytes) (h : Z) : M Failure Node unit :=
  let* n := getM in
  let local_height := match latest_state_commitment program n with Some c => commit_height c | None => 0 end in
  if h <=? local_height then retM tt
  else
    let next := sat_add local_height 1 in
    match load_finalized_transition program next n with
    | Some _ => catchM (apply_available_finalized_transitions now program) (λ _, retM tt)
    | None => modifyM (publish (WantTransition program next))
    end.

Definition MAX_STATE_ENTRIES : Z := 10000.
Definition MAX_STATE_VALUE_SIZE : Z := 1024 * 1024.
Definition MAX_TOTAL_STATE_SIZE : Z := 100 * 1024 * 1024.

Fixpoint sizes_ok (total : Z) (es : list (bytes * bytes)) : bool :=
  match es with
  | [] => true
  | (k, v) :: r =>
      let total := total + Z.of_nat (length k) + Z.of_nat (length v) in
      negb (1024 <? Z.of_nat (length k)) && negb (MAX_TOTAL_STATE_SIZE <? total) && negb (MAX_STATE_VALUE_SIZE <? Z.of_nat (length v))
      && sizes_ok total r
  end.

Definition handle_state_response (resp : StateResponse) : M Failure Node unit :=
  let program := response_program resp in
  let es := state_entries resp in
  when* negb (MAX_STATE_ENTRIES <? Z.of_nat (length es)) in
  when* sizes_ok 0 es in
  let* n := getM in
  match (match latest_state_commitment program n with
         | Some c => Some (commit_root c)
         | None => initial_state_root <$> manifests (disk n) !! program
         end) with
  | None => retM tt
  | Some expected_root =>
      when* bool_decide (response_root resp = expected_root) in
      when* bool_decide (sparse_merkle_root es = expected_root) in
      flush_writes program (map (λ e, (e.1, Some e.2)) es)
  end.

Definition handle_state_request (program : bytes) (n : Node) : StateResponse :=
  {| response_program := program; response_root := program_root program n; state_entries := scoped_pairs program (state (disk n)) |}.

(** *** execution.rs *)

Inductive LeaderForwardResponse : Type :=
| ForwardOutcome (out : ExecutionOutcome)
| RedirectTo (leader : bytes)
| ForwardError.

(** The loop over the queue; [ask] is what asking a node yields, [None] when it fails.
    [None] as a result: the fuel is used up. *)
Fixpoint forward_loop (fuel : nat) (me : bytes) (ask : bytes → option LeaderForwardResponse)
    (queue attempted : list bytes) (attempts max_attempts : nat) : option (outcome Failure (option ExecutionOutcome)) :=
  match queue with
  | [] => Some (Throw ForwardFailed)
  | target :: queue =>
      match fuel with
      | 0%nat => None
      | S fuel =>
          if bool_decide (target ∈ attempted) then forward_loop fuel me ask queue attempted attempts max_attempts
          else
            let attempted := target :: attempted in
            let attempts := S attempts in
            if (max_attempts <? attempts)%nat then Some (Throw ForwardFailed)
            else if bool_decide (target = me) then Some (Ok None)
            else
              match ask target with
              | None => forward_loop fuel me ask queue attempted attempts max_attempts
              | Some (ForwardOutcome out) => Some (Ok (Some out))
              | Some (RedirectTo leader) => forward_loop fuel me ask (leader :: queue) attempted attempts max_attempts
              | Some ForwardError => Some (Throw ForwardFailed)
              end
      end
  end.

Definition forward_queue (c : CommitteeCertificate) (leader_hint : bytes) : list bytes :=
  leader_hint :: List.filter (λ id, negb (bool_decide (id = leader_hint))) (map node (members c)).

(** A turn takes one off the queue, and an attempt puts at most one on it. *)
Definition forward_execution_to_leader (me : bytes) (ask : bytes → option LeaderForwardResponse) (c : CommitteeCertificate) (leader_hint : bytes) :
    option (outcome Failure (option ExecutionOutcome)) :=
  let max_attempts := (length (members c) + 8)%nat in
  forward_loop (S (length (members c)) + 2 * S max_attempts) me ask (forward_queue c leader_hint) [] 0 max_attempts.

Definition MAX_STATE_WRITES : Z := 1000.
Definition MAX_CALDATA_SIZE : Z := 1024 * 1024.
Definition MAX_PROGRAM_SIZE : Z := 100 * 1024 * 1024.

(** What an execution meets on the node and around it. *)
Record Circumstances : Type := {
  leader_answers : bytes → option LeaderForwardResponse;
  program_size : option Z;
  program_complete : bool;
  local_entrypoint : rstr;
  local_code_hash : option bytes;
  local_execution : option ExecutionOutcome;
}.

Definition execution_receipt (program input : bytes) (h : Z) (root_in : bytes) (x : Circumstances) (out : ExecutionOutcome) (me : bytes) : ExecutionReceipt := {|
  receipt_program := program; height := h; state_root_in := root_in;
  call := {| entrypoint := local_entrypoint x; calldata := input; request_id := hash_bytes input |};
  inputs_hash := hash_bytes input; gas_used := fuel_consumed out; state_root_out := outcome_root out;
  write_digest := hash_bytes (encode_writes (outcome_state_writes out)); events_hash := replicate 32 0;
  wasm_code_hash := local_code_hash x; wasm_env_hash := hash_bytes (js "wasm_env_v1");
  nonce := List.hd 0 (hash_bytes input); executor := me |}.

(** [submit_execution] from the execution on the node up to the wait for the others. *)
Definition propose (now : Z) (x : Circumstances) (program input : bytes) (h : Z) (c : CommitteeCertificate) : M Failure Node unit :=
  let* n := getM in
  match local_execution x with
  | None => throwM ExecutionFailed
  | Some out =>
      if MAX_STATE_WRITES <? Z.of_nat (length (outcome_state_writes out)) then throwM TooManyWrites
      else
        let r := execution_receipt program input h (program_root program n) x out (node_id (keys n)) in
        match find_member c (node_id (keys n)) with
        | None => throwM NotInCommittee
        | Some me =>
            if negb (bool_decide (bls_public_key me = bls_public (keys n))) then throwM KeyMismatch
            else
              let rid := receipt_id r in
              do* modifyM (λ n, set_pending (<[rid := {|
                pending_committee := c; pending_receipt := r; pending_state_writes := outcome_state_writes out;
                signatures := ∅; completion := true |}]> (pending n)) n) in
              do* modifyM (publish (Proposal {| proposed := r; proposal_epoch := epoch c; proposed_writes := outcome_state_writes out |})) in
              let* sig := sign_receipt true r in
              do* store_last_voted program h rid in
              do* modifyM (λ n, set_pending (alter (λ e, {|
                pending_committee := pending_committee e; pending_receipt := pending_receipt e; pending_state_writes := pending_state_writes e;
                signatures := <[node_id (keys n) := sig]> (signatures e); completion := completion e |}) rid (pending n)) n) in
              do* publish_vote c r sig in
              catchM (maybe_finalize_pending_transition now rid) (λ _, retM tt)
        end
  end.

(** Forwarding when another node leads; [Some] ends the execution there. *)
Definition forwarded (x : Circumstances) (c : CommitteeCertificate) (h : Z) : M Failure Node (option ExecutionOutcome) :=
  let* n := getM in
  match leader_for_height c h with
  | None => throwM NoLeader
  | Some leader =>
      if bool_decide (leader = node_id (keys n)) then retM None
      else liftM (default (Throw ForwardFailed) (forward_execution_to_leader (node_id (keys n)) (leader_answers x) c leader))
  end.

(** The wait for a committee is over in the event: it is there or the time is up.  The
    result is the outcome of a forwarded execution. *)
Definition submit_execution (now : Z) (x : Circumstances) (program input : bytes) : M Failure Node (option ExecutionOutcome) :=
  if MAX_CALDATA_SIZE <? Z.of_nat (length input) then throwM CalldataTooLarge
  else
    let* n := getM in
    match get_committee program n with
    | None => do* modifyM (publish (WantManifest program)) in throwM NoCommittee
    | Some c =>
        let* elsewhere := forwarded x c (next_height program n) in
        match elsewhere with
        | Some out => retM (Some out)
        | None =>
            let* n := getM in
            let h := next_height program n in
            let* elsewhere := forwarded x c h in
            match elsewhere with
            | Some out => retM (Some out)
            | None =>
                if (match program_size x with Some size => MAX_PROGRAM_SIZE <? size | None => false end) then throwM ProgramTooLarge
                else if negb (program_complete x) then throwM ProgramMissing
                else do* propose now x program input h c in retM None
            end
        end
    end.

(** The end of the wait, after thirty seconds. *)
Definition consensus_timeout (rid : bytes) (n : Node) : Node := set_pending (delete rid (pending n)) n.

(** *** Runs *)

Inductive Event : Type :=
| OnProposal (now : Z) (complete : bool) (executed : option ExecutionOutcome) (p : StateTransitionProposal)
| OnVote (now : Z) (v : StateTransitionVote)
| OnFinalized (now : Z) (b : AggregatedReceiptBundle)
| OnHead (now : Z) (program : bytes) (h : Z)
| OnStateResponse (resp : StateResponse)
| OnManifest (now : Z) (m : ProgramManifest)
| OnAnnouncement (now : Z) (m : ProgramManifest)
| Submit (now : Z) (x : Circumstances) (program input : bytes)
| OnTimeout (rid : bytes)
| OnRestart.

Definition step (e : Event) (n : Node) : Node :=
  match e with
  | OnProposal now complete executed p => (handle_state_transition_proposal now complete executed p n).2
  | OnVote now v => (handle_state_transition_vote now v n).2
  | OnFinalized now b => (handle_finalized_receipt now b n).2
  | OnHead now program h => (handle_program_head now program h n).2
  | OnStateResponse resp => (handle_state_response resp n).2
  | OnManifest now m => (handle_manifest_response now m n).2
  | OnAnnouncement now m => (handle_program_announcement now m n).2
  | Submit now x program input => (submit_execution now x program input n).2
  | OnTimeout rid => consensus_timeout rid n
  | OnRestart => {| keys := keys n; disk := disk n; last_voted := ∅; pending := ∅; versions := ∅; outbox := outbox n; answered := answered n; signed := signed n; written := written n |}
  end.

Definition run (es : list Event) (n : Node) : Node := fold_left (λ n e, step e n) es n.

(** The node is killed while it handles [e], when [k] writes of the handler are flushed, and
    started again. *)
Definition killed (k : nat) (e : Event) (n : Node) : Node :=
  let ws := take (length (written n) + k) (written (step e n)) in
  match last (drop (length (written n)) ws) with
  | None => step OnRestart n
  | Some d => step OnRestart (set_written ws (set_disk d n))
  end.

Inductive Happening : Type :=
| Handled (e : Event)
| Killed (k : nat) (e : Event).

Definition happen (h : Happening) (n : Node) : Node := match h with Handled e => step e n | Killed k e => killed k e n end.

Definition history (hs : list Happening) (n : Node) : Node := fold_left (λ n h, happen h n) hs n.
End Handlers.
End Consensus.
