(* ===== verification/ConsensusVotes.v ===== *)
(** * The votes of a node

    A node votes for one receipt at each height of a program, through restarts and
    whatever it receives, unless it executes the program itself at that height; two
    receipts that a committee aggregates at one height are then the same when two
    quorums meet in a member that votes so. *)

From stdpp Require Import sorting.
From S2P Require Import Prelude JsValue Codec RustLib WasmHost Merkle StateStore Consensus.

Module Votes.
Import Rust Host Merkle Store Consensus.

(** ** The catalog *)

Definition u64 (x : Z) : Prop := 0 ≤ x < 2 ^ 64.

Lemma sorted_last {A} (R : A → A → Prop) (l : list A) x z : (∀ y, R y y) → StronglySorted R l → last l = Some z → x ∈ l → R x z.
Proof.
  intros Hrefl. induction 1 as [|y l Hl IH Hy]; [done|]. intros Hlast Hx. destruct l as [|w l].
  - cbn in Hlast. injection Hlast as <-. by apply list_elem_of_singleton in Hx as ->.
  - change (last (y :: w :: l)) with (last (w :: l)) in Hlast. apply elem_of_cons in Hx as [->|Hx]; [|by apply IH].
    rewrite Forall_forall in Hy. apply Hy. by apply last_Some_elem_of.
Qed.

Lemma str_leb_prefix p a b : str_leb (p ++ a) (p ++ b) = str_leb a b.
Proof. induction p as [|c p IH]; [done|]. cbn. by rewrite Z.ltb_irrefl, Z.eqb_refl, IH. Qed.
Lemma str_le_refl a : str_le a a.
Proof. unfold str_le. induction a as [|c a IH]; [done|]. cbn. by rewrite Z.eqb_refl, IH, orb_true_r. Qed.

Lemma be_inj x y : u64 x → u64 y → to_be_bytes 8 x = to_be_bytes 8 y → x = y.
Proof. intros Hx Hy He. rewrite <- (be_roundtrip 8 x), <- (be_roundtrip 8 y) by (unfold u64 in *; lia). by rewrite He. Qed.

(** Entries are stored under their program and height. *)
Record catalog_ok (n : Node) : Prop := {
  commits_ok : ∀ k c, commitments (disk n) !! k = Some c →
    length (commit_program c) = 32%nat ∧ u64 (commit_height c) ∧ k = height_key (commit_program c) (commit_height c);
  finals_ok : ∀ k b, finalized (disk n) !! k = Some b → let r := receipt (bundle_receipt b) in
    length (receipt_program r) = 32%nat ∧ u64 (height r) ∧ k = height_key (receipt_program r) (height r);
  pendings_ok : ∀ k e, pending n !! k = Some e → let r := pending_receipt e in length (receipt_program r) = 32%nat ∧ u64 (height r);
}.

Definition latest_height (program : bytes) (n : Node) : Z :=
  match latest_state_commitment program n with Some c => commit_height c | None => 0 end.

Lemma height_key_inj p h p' h' :
  length p = length p' → u64 h → u64 h' → height_key p h = height_key p' h' → p = p' ∧ h = h'.
Proof. intros Hl Hh Hh' He. apply app_inj_1 in He as [-> He]; [|done]. split; [done|by apply be_inj]. Qed.

(** The last entry of the scan is the one of the greatest height. *)
Lemma latest_spec program n :
  catalog_ok n → length program = 32%nat →
  match latest_state_commitment program n with
  | Some c => commit_program c = program ∧ commitments (disk n) !! height_key program (commit_height c) = Some c
  | None => True
  end ∧
  ∀ h c, u64 h → commitments (disk n) !! height_key program h = Some c →
    h ≤ latest_height program n ∧ latest_state_commitment program n ≠ None.
Proof.
  intros [Hok _ _] Hl. unfold latest_height, latest_state_commitment.
  assert (∀ k c, (k, c) ∈ with_prefix program (commitments (disk n)) → u64 (commit_height c) ∧ commit_program c = program ∧
    k = height_key program (commit_height c) ∧ commitments (disk n) !! k = Some c) as Hin.
  { intros k c [Hk Hs]%elem_with_prefix. destruct (Hok k c Hk) as (Hlc & Hh & ->). apply starts_with_drop in Hs.
    apply app_inj_1 in Hs as [Hp _]; [|lia]. by rewrite <- Hp. }
  assert (∀ h c, u64 h → commitments (disk n) !! height_key program h = Some c → (height_key program h, c) ∈ with_prefix program (commitments (disk n))) as Hmem.
  { intros h c _ Hc. apply elem_with_prefix. split; [done|apply starts_with_app]. }
  destruct (last (with_prefix program (commitments (disk n)))) as [[k c]|] eqn:Hlast; cbn.
  - destruct (Hin k c) as (Hh & Hp & -> & Hc); [by apply last_Some_elem_of|]. split; [done|]. intros h c' Hu Hc'. split; [|done].
    assert (str_le (height_key program h) (height_key program (commit_height c))) as Hle.
    { apply (sorted_last _ _ (height_key program h, c') (height_key program (commit_height c), c) (λ y, str_le_refl _) (sort_entries_sorted _) Hlast). by apply Hmem. }
    unfold str_le, height_key in Hle. rewrite str_leb_prefix in Hle. by apply be_order in Hle.
  - split; [done|]. intros h c Hu Hc. apply last_None in Hlast. specialize (Hmem h c Hu Hc). rewrite Hlast in Hmem. by apply not_elem_of_nil in Hmem.
Qed.

Lemma latest_nonneg program n : catalog_ok n → length program = 32%nat → u64 (latest_height program n).
Proof.
  intros Hok Hl. destruct (latest_spec program n Hok Hl) as [Hs _]. unfold latest_height. destruct (latest_state_commitment program n) as [c|]; [|unfold u64; lia].
  destruct Hs as [_ Hs]. apply Hok in Hs. tauto.
Qed.

(** A catalog that keeps its entries does not go back. *)
Lemma latest_mono program n n' :
  catalog_ok n → catalog_ok n' → length program = 32%nat →
  (∀ k, is_Some (commitments (disk n) !! k) → is_Some (commitments (disk n') !! k)) → latest_height program n ≤ latest_height program n'.
Proof.
  intros Hok Hok' Hl Hk. pose proof (latest_nonneg program n' Hok' Hl). destruct (latest_spec program n Hok Hl) as [Hs _].
  unfold latest_height at 1. destruct (latest_state_commitment program n) as [c|]; [|unfold u64 in *; lia]. destruct Hs as [_ Hs].
  assert (u64 (commit_height c)) as Hu by (apply Hok in Hs; tauto). destruct (Hk _ (mk_is_Some _ _ Hs)) as [c' Hc'].
  by destruct (latest_spec program n' Hok' Hl) as [_ Hg]; destruct (Hg _ _ Hu Hc').
Qed.

(** ** What does not vote *)

Record quiet_step (n n' : Node) : Prop := {
  quiet_ok : catalog_ok n';
  quiet_keys : keys n' = keys n;
  quiet_signed : signed n' = signed n;
  quiet_store : voted_store (disk n') = voted_store (disk n);
  quiet_cache : last_voted n' = last_voted n;
  quiet_latest : ∀ program, length program = 32%nat → latest_height program n ≤ latest_height program n';
}.

Definition quiet {A} (c : M Failure Node A) : Prop := ∀ n, catalog_ok n → quiet_step n (c n).2.

Lemma quiet_trans n1 n2 n3 : quiet_step n1 n2 → quiet_step n2 n3 → quiet_step n1 n3.
Proof.
  intros [? ? ? ? ? H1] [? ? ? ? ? H2]. split; [done|congruence..|]. intros p Hp. etrans; [by apply H1|by apply H2].
Qed.
Lemma quiet_refl n : catalog_ok n → quiet_step n n.
Proof. intros Hok. by split. Qed.

Lemma quiet_ret {A} (a : A) : quiet (retM a).
Proof. intros n Hn. by apply quiet_refl. Qed.
Lemma quiet_throw {A} e : quiet (@throwM Failure Node A e).
Proof. intros n Hn. by apply quiet_refl. Qed.
Lemma quiet_lift {A} (o : outcome Failure A) : quiet (liftM o).
Proof. intros n Hn. by apply quiet_refl. Qed.
Lemma quiet_bind {A B} (c : M Failure Node A) (k : A → M Failure Node B) : quiet c → (∀ a, quiet (k a)) → quiet (bindM c k).
Proof.
  intros Hc Hk n Hn. specialize (Hc n Hn). unfold bindM. destruct (c n) as [[a|e] n']; [|done]. eapply quiet_trans; [done|]. apply Hk, Hc.
Qed.
Lemma quiet_get {B} (k : Node → M Failure Node B) : (∀ n, catalog_ok n → quiet (k n)) → quiet (bindM getM k).
Proof. intros Hk n Hn. cbn. by apply Hk. Qed.
Lemma quiet_catch {A} (c : M Failure Node A) h : quiet c → (∀ e, quiet (h e)) → quiet (catchM c h).
Proof.
  intros Hc Hh n Hn. specialize (Hc n Hn). unfold catchM. destruct (c n) as [[a|e] n']; [done|]. eapply quiet_trans; [done|]. apply Hh, Hc.
Qed.

(** A change of parts that the votes do not depend on. *)
Lemma quiet_modify f :
  (∀ n, catalog_ok n → catalog_ok (f n)) →
  (∀ n, keys (f n) = keys n ∧ signed (f n) = signed n ∧ voted_store (disk (f n)) = voted_store (disk n) ∧ last_voted (f n) = last_voted n) →
  (∀ n k, is_Some (commitments (disk n) !! k) → is_Some (commitments (disk (f n)) !! k)) → quiet (modifyM f).
Proof.
  intros Hok Hf Hc n Hn. destruct (Hf n) as (? & ? & ? & ?). split; try done; [by apply Hok|]. intros p Hp. apply latest_mono; [done|by apply Hok|done|apply Hc].
Qed.

(** A change that keeps the trees of the catalog and adds no pending transition. *)
Lemma quiet_aside f :
  (∀ n, commitments (disk (f n)) = commitments (disk n) ∧ finalized (disk (f n)) = finalized (disk n) ∧ pending (f n) = pending n) →
  (∀ n, keys (f n) = keys n ∧ signed (f n) = signed n ∧ voted_store (disk (f n)) = voted_store (disk n) ∧ last_voted (f n) = last_voted n) →
  quiet (modifyM f).
Proof.
  intros Hk Hf. apply quiet_modify; [|done|].
  - intros n [H1 H2 H3]. destruct (Hk n) as (E1 & E2 & E3). split; rewrite ?E1, ?E2, ?E3; done.
  - intros n k. destruct (Hk n) as (-> & _). done.
Qed.

(** Branches on a condition. *)
Ltac quiet_if := cbn zeta; match goal with |- quiet (if ?b then _ else _) => destruct b eqn:? end.

Create HintDb quiet.
#[global] Hint Resolve quiet_ret quiet_throw quiet_lift : quiet.

Section Quiet.
Context `{Blake3} `{HashIter} `{Bls} `{Bincode} `{Ed25519}.

Definition receipt_ok (r : ExecutionReceipt) : Prop := length (receipt_program r) = 32%nat ∧ u64 (height r).

Lemma quiet_publish m : quiet (modifyM (publish m)).
Proof. by apply quiet_aside. Qed.

Lemma quiet_publish_vote c r sig : quiet (publish_vote c r sig).
Proof. by apply quiet_aside. Qed.

Lemma quiet_ingest a c : quiet (ingest_aggregated_receipt a c).
Proof. apply quiet_bind; [apply quiet_lift|]. intros _. by apply quiet_aside. Qed.

Lemma quiet_store_finalized b : receipt_ok (receipt (bundle_receipt b)) → quiet (store_finalized_transition b).
Proof.
  intros [Hl Hu]. apply quiet_modify; [|done|done]. intros n [G1 G2 G3]. split; [done| |done]. cbn.
  intros k b' [[<- <-]|[_ Hb]]%lookup_insert_Some; [done|by apply G2].
Qed.

Lemma quiet_commit c : length (commit_program c) = 32%nat → u64 (commit_height c) → quiet (modifyM (store_state_commitment c)).
Proof.
  intros Hl Hu. apply quiet_modify; [|done|].
  - intros n [G1 G2 G3]. split; [|done|done]. cbn. intros k c' [[<- <-]|[_ Hc]]%lookup_insert_Some; [done|by apply G1].
  - intros n k Hk. cbn. destruct (decide (k = height_key (commit_program c) (commit_height c))) as [->|Hne]; [by rewrite lookup_insert_eq|by rewrite lookup_insert_ne].
Qed.

Lemma quiet_flush program writes : quiet (flush_writes program writes).
Proof. induction writes as [|w writes IH]; cbn; [apply quiet_ret|]. apply quiet_bind; [by apply quiet_aside|done]. Qed.

#[local] Hint Resolve quiet_publish quiet_ingest quiet_store_finalized quiet_commit quiet_flush : quiet.

Lemma quiet_apply_next now program : length program = 32%nat → quiet (apply_next now program).
Proof.
  intros Hl. apply quiet_get. intros n Hn. destruct (get_committee program n) as [c|]; [|apply quiet_bind; auto with quiet].
  destruct (load_finalized_transition program (expected_height program n) n) as [b|] eqn:Hb; [|auto with quiet].
  quiet_if; [auto with quiet|]. apply quiet_bind; [auto with quiet|]. intros _. cbn zeta.
  quiet_if; [auto with quiet|]. quiet_if; [auto with quiet|]. quiet_if; [auto with quiet|].
  apply quiet_bind; [auto with quiet|]. intros _. apply quiet_get. intros n' _. quiet_if; [auto with quiet|].
  destruct (finals_ok n Hn _ _ Hb) as (_ & Hu & _).
  apply quiet_bind; [auto with quiet|]. intros _. apply quiet_bind; [by apply quiet_aside|]. auto with quiet.
Qed.

Lemma quiet_apply_loop fuel now program : length program = 32%nat → quiet (apply_loop fuel now program).
Proof.
  intros Hl. induction fuel as [|fuel IH]; cbn; [auto with quiet|]. apply quiet_bind; [by apply quiet_apply_next|]. intros []; auto with quiet.
Qed.

Lemma quiet_apply now program : length program = 32%nat → quiet (apply_available_finalized_transitions now program).
Proof.
  intros Hl. apply quiet_get. intros n _. apply quiet_bind; [by apply quiet_apply_loop|]. auto with quiet.
Qed.

Lemma quiet_finalized now b : receipt_ok (receipt (bundle_receipt b)) → quiet (handle_finalized_receipt now b).
Proof.
  intros Hb. apply quiet_get. intros n Hn. destruct (get_committee _ n) as [c|]; [|apply quiet_bind; auto with quiet].
  quiet_if; [|auto with quiet]. apply quiet_bind; [auto with quiet|]. intros _. apply quiet_bind; [auto with quiet|]. intros _.
  apply quiet_get. intros n' _. apply quiet_bind; [|intros _; apply quiet_apply, Hb].
  apply quiet_aside; intros x; by case_match.
Qed.

Lemma quiet_finalize now e : receipt_ok (pending_receipt e) → quiet (finalize_transition now e).
Proof.
  intros He. unfold finalize_transition. destruct (collect_signers _ _ _ _) as [[bitmap sigs] w]. quiet_if; [auto with quiet|].
  destruct (aggregate_signatures sigs) as [agg|]; [|auto with quiet]. cbn zeta. set (b := {| bundle_receipt := _ |}). intros n Hn.
  pose proof (quiet_finalized now b He n Hn) as Hq. destruct (handle_finalized_receipt now b n) as [res n1]. cbn in Hq |- *.
  eapply quiet_trans; [exact Hq|]. destruct Hq as [Hok]. destruct res, (completion e); cbn.
  all: first [by apply quiet_refl | by apply (quiet_aside (λ n, set_answered _ (publish _ n))) | by apply quiet_publish | by apply (quiet_aside (set_answered _))].
Qed.

Lemma quiet_drop_pending rid : quiet (modifyM (λ n, set_pending (delete rid (pending n)) n)).
Proof.
  apply quiet_modify; [|done|done]. intros n [G1 G2 G3]. split; [done|done|]. cbn. intros k e [_ He]%lookup_delete_Some. by apply (G3 k).
Qed.

Lemma quiet_set_pending f :
  (∀ n, catalog_ok n → ∀ k e, f n !! k = Some e → receipt_ok (pending_receipt e)) → quiet (modifyM (λ n, set_pending (f n) n)).
Proof.
  intros Hf. apply quiet_modify; [|done|done]. intros n Hn. pose proof Hn as [G1 G2 _]. split; [done|done|]. cbn. intros k e He. by apply (Hf n Hn k e).
Qed.

Lemma quiet_maybe_finalize now rid : quiet (maybe_finalize_pending_transition now rid).
Proof.
  apply quiet_get. intros n Hn. destruct (pending n !! rid) as [e|] eqn:He; [|auto with quiet]. quiet_if; [auto with quiet|].
  apply quiet_bind; [apply quiet_drop_pending|]. intros _. apply quiet_finalize. by apply (pendings_ok n Hn rid).
Qed.

Lemma quiet_vote now v : quiet (handle_state_transition_vote now v).
Proof.
  apply quiet_get. intros n Hn. destruct (pending n !! vote_receipt v) as [e|] eqn:He; [|auto with quiet].
  pose proof (pendings_ok n Hn _ _ He) as Hr. quiet_if; [|auto with quiet]. quiet_if; [|auto with quiet].
  destruct (find_member _ _) as [m|]; [|auto with quiet]. quiet_if; [|auto with quiet]. quiet_if; [|auto with quiet]. cbn zeta.
  quiet_if; [|apply quiet_bind; [apply quiet_drop_pending|]; intros _; by apply quiet_finalize].
  apply quiet_set_pending. intros n' Hn' k e' [[<- <-]|[_ He']]%lookup_insert_Some; [done|by apply (pendings_ok n' Hn' k)].
Qed.

Lemma quiet_head now program h : length program = 32%nat → quiet (handle_program_head now program h).
Proof.
  intros Hl. apply quiet_get. intros n Hn. quiet_if; [auto with quiet|].
  destruct (load_finalized_transition _ _ n); [|auto with quiet].
  apply quiet_catch; [by apply quiet_apply|auto with quiet].
Qed.

Lemma quiet_state_response resp : quiet (handle_state_response resp).
Proof.
  unfold handle_state_response. quiet_if; [|auto with quiet]. quiet_if; [|auto with quiet]. apply quiet_get. intros n Hn.
  match goal with |- quiet (match ?o with _ => _ end) => destruct o end; [|auto with quiet].
  quiet_if; [|auto with quiet]. quiet_if; [|auto with quiet]. auto with quiet.
Qed.

Lemma quiet_manifest now m : length (manifest_program m) = 32%nat → quiet (handle_manifest_response now m).
Proof.
  intros Hl. apply quiet_get. intros n Hn. quiet_if; [|auto with quiet]. apply quiet_bind; [by apply quiet_aside|]. intros _.
  apply quiet_catch; [by apply quiet_apply|auto with quiet].
Qed.
Lemma quiet_announcement now m : length (manifest_program m) = 32%nat → quiet (handle_program_announcement now m).
Proof.
  intros Hl. unfold handle_program_announcement. quiet_if; [|auto with quiet]. quiet_if; [auto with quiet|]. by apply quiet_manifest.
Qed.
End Quiet.

(** ** What was voted for *)

Section VoteInvariant.
Context `{Blake3} `{!Digest} `{HashIter} `{Bls} `{Bincode} `{Ed25519}.

Definition voted_entry (h : Z) (rid : bytes) : bytes := to_be_bytes 8 h ++ rid.

Lemma voted_entry_inj h rid h' rid' : u64 h → u64 h' → voted_entry h rid = voted_entry h' rid' → h = h' ∧ rid = rid'.
Proof. intros Hh Hh' He. apply app_inj_1 in He as [He ->]; [|by rewrite !to_be_length]. split; [by apply be_inj|done]. Qed.

(** The node did not execute the program itself at this height. *)
Definition unowned (n : Node) (program : bytes) (h : Z) : Prop := ∀ r, (true, r) ∈ signed n → receipt_program r = program → height r ≠ h.

Record votes_ok (n : Node) : Prop := {
  cache_ok : ∀ program h rid, last_voted n !! program = Some (h, rid) → voted_store (disk n) !! program = Some (voted_entry h rid) ∧ u64 h;
  store_ok : ∀ program raw, voted_store (disk n) !! program = Some raw →
    length program = 32%nat ∧ ∃ h rid, raw = voted_entry h rid ∧ length rid = 32%nat ∧ u64 h ∧ h ≤ latest_height program n + 1;
  signed_ok : ∀ own r, (own, r) ∈ signed n → ∃ h rid, voted_store (disk n) !! receipt_program r = Some (voted_entry h rid) ∧ u64 h ∧
    height r ≤ h ∧ (height r = h → unowned n (receipt_program r) h → receipt_id r = rid);
  one_vote : ∀ r1 r2, (false, r1) ∈ signed n → (false, r2) ∈ signed n → receipt_program r1 = receipt_program r2 → height r1 = height r2 →
    unowned n (receipt_program r1) (height r1) → receipt_id r1 = receipt_id r2;
}.

Lemma votes_quiet n n' : quiet_step n n' → votes_ok n → votes_ok n'.
Proof.
  intros [Hok Hk Hs Hst Hc Hl] [V1 V2 V3 V4]. assert (∀ p h, unowned n' p h → unowned n p h) as Hun by (unfold unowned; by rewrite Hs).
  split; rewrite ?Hs, ?Hst, ?Hc.
  - done.
  - intros program raw Hr. destruct (V2 program raw Hr) as (Hlen & h & rid & -> & Hrid & Hu & Hle). split; [done|]. exists h, rid.
    split_and!; try done. specialize (Hl program Hlen). lia.
  - intros own r Hr. destruct (V3 own r Hr) as (h & rid & ? & ? & ? & Heq). exists h, rid. split_and!; auto.
  - intros r1 r2 H1' H2' Hp Hh Hu. apply V4; auto.
Qed.

(** A vote, as both handlers cast it. *)
Definition after_vote (own : bool) (r : ExecutionReceipt) (n : Node) : Node :=
  let n := set_signed (signed n ++ [(own, r)]) n in
  let n := on_disk (λ d, set_voted_store (<[receipt_program r := voted_entry (height r) (receipt_id r)]> (voted_store d)) d) n in
  set_last_voted (<[receipt_program r := (height r, receipt_id r)]> (last_voted n)) n.

Lemma unowned_after own r n program h : unowned (after_vote own r n) program h → unowned n program h ∧ (own = true → receipt_program r = program → height r ≠ h).
Proof.
  unfold unowned. cbn. intros Hu. split; [intros r' Hr'; apply Hu, elem_of_app; by left|]. intros -> Hp. apply (Hu r); [|done].
  apply elem_of_app. right. by left.
Qed.

Lemma votes_after own r n :
  votes_ok n → receipt_ok r → height r ≤ latest_height (receipt_program r) n + 1 →
  (∀ h rid, voted_store (disk n) !! receipt_program r = Some (voted_entry h rid) → u64 h → h ≤ height r ∧ (own = false → h = height r → rid = receipt_id r)) →
  votes_ok (after_vote own r n).
Proof.
  intros [V1 V2 V3 V4] [Hl Hu] Hlat Hlast.
  assert (∀ r', (∃ o, (o, r') ∈ signed n) → receipt_program r' = receipt_program r → height r' ≤ height r ∧
    (height r' = height r → unowned (after_vote own r n) (receipt_program r) (height r) → receipt_id r' = receipt_id r)) as Hold.
  { intros r' [o Ho] Hp. destruct (V3 o r' Ho) as (h & rid & Hst & Hh & Hle & Heq). rewrite Hp in *.
    destruct (Hlast h rid Hst Hh) as [Hh' Hown]. split; [lia|]. intros Hsame [Hun Hnew]%unowned_after.
    assert (h = height r) as -> by lia. destruct own; [by destruct (Hnew eq_refl eq_refl)|]. rewrite (Heq Hsame Hun). by apply Hown. }
  split; cbn.
  - intros program h rid [[<- [= <- <-]]|[Hne Hl']]%lookup_insert_Some; [by rewrite lookup_insert_eq|]. rewrite lookup_insert_ne by done. by apply V1.
  - intros program raw [[<- <-]|[Hne Hr]]%lookup_insert_Some; [|by apply V2]. split; [done|]. exists (height r), (receipt_id r).
    split_and!; [done|apply digest_length|done|done].
  - intros o r' [Ho|[= -> ->]%list_elem_of_singleton]%elem_of_app.
    + destruct (decide (receipt_program r' = receipt_program r)) as [Hp|Hne].
      * rewrite Hp, lookup_insert_eq. exists (height r), (receipt_id r). destruct (Hold r' (ex_intro _ o Ho) Hp) as [Hle Heq]. by split_and!.
      * rewrite lookup_insert_ne by done. destruct (V3 o r' Ho) as (h & rid & Hst & Hh & Hle & Heq). exists h, rid. split_and!; try done.
        intros Hs [Hun _]%unowned_after. by apply Heq.
    + rewrite lookup_insert_eq. exists (height r), (receipt_id r). by split_and!.
  - intros r1 r2 [H1'|E1%list_elem_of_singleton]%elem_of_app [H2'|E2%list_elem_of_singleton]%elem_of_app Hp Hh Hun; simplify_eq.
    + apply V4; try done. by apply unowned_after in Hun as [? _].
    + destruct (Hold r1 (ex_intro _ false H1') Hp) as [_ Heq]. rewrite Hp, Hh in Hun. by apply Heq.
    + symmetry. destruct (Hold r2 (ex_intro _ false H2') (eq_sym Hp)) as [_ Heq]. by apply Heq.
    + done.
Qed.

Definition inv (n : Node) : Prop := catalog_ok n ∧ votes_ok n.

Lemma inv_quiet n n' : quiet_step n n' → inv n → inv n'.
Proof. intros Hq [_ Hv]. split; [apply Hq|by eapply votes_quiet]. Qed.

Lemma inv_of_quiet {A} (c : M Failure Node A) n : quiet c → inv n → inv (c n).2.
Proof. intros Hc Hi. eapply inv_quiet; [|done]. by apply Hc, Hi. Qed.

Lemma inv_after_quiet {A B} (c : M Failure Node A) (k : A → M Failure Node B) n :
  quiet c → inv n → (∀ a n', quiet_step n n' → inv n' → inv (k a n').2) → inv (bindM c k n).2.
Proof.
  intros Hc Hi Hk. pose proof (Hc n (proj1 Hi)) as Hq. pose proof (inv_quiet _ _ Hq Hi) as Hi'. unfold bindM.
  destruct (c n) as [[a|e] n']; [by apply Hk|done].
Qed.

(** Signing and recording a vote. *)
Lemma inv_vote {A} own r (k : bytes → M Failure Node A) n :
  inv n → receipt_ok r → height r ≤ latest_height (receipt_program r) n + 1 →
  (∀ h rid, voted_store (disk n) !! receipt_program r = Some (voted_entry h rid) → u64 h → h ≤ height r ∧ (own = false → h = height r → rid = receipt_id r)) →
  (∀ sig, quiet (k sig)) →
  inv (bindM (sign_receipt own r) (λ sig, do* store_last_voted (receipt_program r) (height r) (receipt_id r) in k sig) n).2.
Proof.
  intros [Hc Hv] Hr Hlat Hlast Hk. unfold sign_receipt. rewrite bindM_assoc. cbn. destruct (bls_sign _ _) as [sig|]; [|by split].
  change (inv (k sig (after_vote own r n)).2). apply inv_of_quiet; [done|]. split; [|by apply votes_after].
  destruct Hc as [C1 C2 C3]. by split.
Qed.

(** The entry that is loaded is the one on disk; only the cache changes. *)
Lemma load_spec program n :
  inv n → ∃ o n', load_last_voted program n = (Ok o, n') ∧ inv n' ∧
    disk n' = disk n ∧ keys n' = keys n ∧ signed n' = signed n ∧ pending n' = pending n ∧
    match o with
    | Some (h, rid) => voted_store (disk n) !! program = Some (voted_entry h rid) ∧ u64 h
    | None => voted_store (disk n) !! program = None
    end.
Proof.
  intros [Hc Hv]. unfold load_last_voted. cbn -[take drop]. destruct (last_voted n !! program) as [[h rid]|] eqn:Hca.
  - exists (Some (h, rid)), n. do 6 (split; [done|]). by apply (cache_ok n Hv).
  - destruct (voted_store (disk n) !! program) as [raw|] eqn:Hst; [|by exists None, n].
    destruct (store_ok n Hv program raw Hst) as (Hl & h & rid & -> & Hrid & Hu & Hle).
    assert (length (voted_entry h rid) = 40%nat) as Hlen by (unfold voted_entry; rewrite length_app, to_be_length; lia). rewrite Hlen. cbn -[take drop voted_entry].
    assert (take 8 (voted_entry h rid) = to_be_bytes 8 h) as -> by (unfold voted_entry; by rewrite take_app_length' by by rewrite to_be_length).
    assert (drop 8 (voted_entry h rid) = rid) as -> by (unfold voted_entry; by rewrite drop_app_length' by by rewrite to_be_length).
    rewrite be_roundtrip by (unfold u64 in Hu; lia). rewrite take_ge by lia.
    eexists (Some (h, rid)), _. split; [done|]. split; [|done].
    destruct Hc as [C1 C2 C3], Hv as [V1 V2 V3 V4]. split; split; try done. cbn.
    intros p h' rid' [[<- [= <- <-]]|[_ Hp]]%lookup_insert_Some; [done|by apply V1].
Qed.

Lemma inv_proposal now complete executed p n :
  receipt_ok (proposed p) → inv n → inv (handle_state_transition_proposal now complete executed p n).2.
Proof.
  intros Hr Hi. pose proof Hi as [Hc _]. unfold handle_state_transition_proposal. cbn zeta. rewrite bindM_ok with (a := n) (s' := n) by done.
  set (r := proposed p) in *.
  destruct (get_committee _ n) as [c|]; [|by apply inv_of_quiet; [apply quiet_publish|]].
  destruct (proposal_epoch p =? epoch c); [|done]. destruct (leader_for_height c (height r)) as [leader|] eqn:Hlead; [|done].
  destruct (bool_decide (executor r = leader)); [|done]. destruct (find_member c _) as [me|]; [|done].
  destruct (bool_decide (bls_public_key me = _)); [|done]. destruct (height r =? expected_height _ n) eqn:Hexp; [|done].
  destruct (bool_decide (state_root_in r = _)); [|done].
  destruct (load_spec (receipt_program r) n Hi) as (o & n' & Hload & Hi' & Hd & Hkeys & Hsig & Hpend & Ho). erewrite bindM_ok by exact Hload.
  match goal with |- inv ((if ?b then _ else _) _).2 => destruct b eqn:Hvoted; [|done] end.
  destruct (bool_decide (hash_bytes _ = inputs_hash r)); [|done]. destruct complete; [|done]. destruct executed as [out|]; [|done].
  do 4 (match goal with |- inv ((if ?b then _ else _) _).2 => destruct b; [|done] end).
  assert (0 < height r) as Hpos.
  { unfold leader_for_height in Hlead. destruct (is_empty _), (height r =? 0) eqn:H0'; try done. destruct Hr as [_ [? _]]. apply Z.eqb_neq in H0'. lia. }
  apply inv_vote; [done|done| | |].
  - apply Z.eqb_eq in Hexp. unfold expected_height in Hexp. unfold latest_height, latest_state_commitment in *. rewrite Hd.
    pose proof (latest_nonneg (receipt_program r) n Hc (proj1 Hr)) as Hn. unfold latest_height, latest_state_commitment, u64 in Hn.
    destruct (snd <$> _) as [cm|]; [|lia]. pose proof (Z.mod_le (commit_height cm + 1) (2 ^ 64)). lia.
  - rewrite Hd. intros h rid Hst Hu. destruct o as [[h' rid']|]; [|congruence]. destruct Ho as [Ho Hu']. rewrite Ho in Hst.
    apply (inj Some), voted_entry_inj in Hst as [-> ->]; [|done|done]. apply andb_true_iff in Hvoted as [Hv1 Hv2]. apply negb_true_iff in Hv1, Hv2.
    apply Z.ltb_ge in Hv2. split; [done|]. intros _ ->. rewrite Z.eqb_refl in Hv1. cbn in Hv1. apply negb_false_iff, bool_decide_eq_true in Hv1. done.
  - intros sig. apply quiet_bind; [|intros _; apply quiet_bind; [apply quiet_publish_vote|intros _; apply quiet_maybe_finalize]].
    apply quiet_set_pending. intros n0 Hn0 k e [[<- <-]|[_ He]]%lookup_insert_Some; [|by apply (pendings_ok n0 Hn0 k)]. cbn.
    destruct (pending n0 !! receipt_id r) as [e'|] eqn:He'; [by apply (pendings_ok n0 Hn0 _ _ He')|done].
Qed.

Lemma next_height_range program n :
  catalog_ok n → length program = 32%nat → u64 (next_height program n) ∧ next_height program n ≤ latest_height program n + 1 ∧
  ∀ h, u64 h → h ≤ latest_height program n + 1 → h ≤ next_height program n.
Proof.
  intros Hc Hl. pose proof (latest_nonneg program n Hc Hl) as Hn. unfold next_height, latest_height, sat_add, u64 in *.
  destruct (latest_state_commitment program n); split_and!; intros; lia.
Qed.

Lemma inv_propose now x program input c n :
  length program = 32%nat → inv n → inv (propose now x program input (next_height program n) c n).2.
Proof.
  intros Hl Hi. pose proof Hi as [Hc Hv]. unfold propose. rewrite bindM_ok with (a := n) (s' := n) by done.
  destruct (local_execution x) as [out|]; [|done]. destruct (MAX_STATE_WRITES <? _); [done|]. cbn zeta.
  destruct (find_member c _) as [me|]; [|done]. destruct (negb _); [done|].
  destruct (next_height_range program n Hc Hl) as (Hu & Hle & Hmax).
  set (r := execution_receipt program input (next_height program n) (program_root program n) x out (node_id (keys n))).
  assert (receipt_ok r) as Hr by done.
  apply inv_after_quiet; [|done|].
  { apply quiet_set_pending. intros n0 Hn0 k e He. apply lookup_insert_Some in He as [[_ He]|[_ He]]; [by subst e|by apply (pendings_ok n0 Hn0 k)]. }
  intros _ n1 Hq1 Hi1. apply inv_after_quiet; [apply quiet_publish|done|]. intros _ n2 Hq2 Hi2.
  pose proof (quiet_trans _ _ _ Hq1 Hq2) as Hq. destruct Hq as [_ _ _ Hst _ Hlat]. specialize (Hlat program Hl).
  apply (inv_vote true r); [done|done|cbn; lia| |].
  - cbn. rewrite Hst. intros h rid Hs Hh. split; [|done]. destruct (store_ok n Hv program _ Hs) as (_ & h' & rid' & He & _ & Hh' & Hle').
    apply voted_entry_inj in He as [-> _]; [|done|done]. by apply Hmax.
  - intros sig. apply quiet_bind; [|intros _; apply quiet_bind; [apply quiet_publish_vote|intros _; apply quiet_catch; [apply quiet_maybe_finalize|auto with quiet]]].
    apply quiet_set_pending. intros n0 Hn0 k e He. apply lookup_alter_Some in He as [(_ & e' & He & ->)|[_ He]]; by apply (pendings_ok n0 Hn0 _ _ He).
Qed.

Lemma forwarded_state x c h n : (forwarded x c h n).2 = n.
Proof. unfold forwarded. cbn. destruct (leader_for_height c h); [|done]. by destruct (bool_decide _). Qed.

Lemma inv_submit now x program input n : length program = 32%nat → inv n → inv (submit_execution now x program input n).2.
Proof.
  intros Hl Hi. unfold submit_execution. destruct (MAX_CALDATA_SIZE <? _); [done|]. rewrite bindM_ok with (a := n) (s' := n) by done.
  destruct (get_committee program n) as [c|]; [|by apply inv_of_quiet; [apply quiet_bind; [apply quiet_publish|auto with quiet]|]].
  pose proof (forwarded_state x c (next_height program n) n) as Hf. unfold bindM at 1.
  destruct (forwarded x c (next_height program n) n) as [[[out|]|e] n1] eqn:He; cbn in Hf; subst n1; [done| |done].
  rewrite bindM_ok with (a := n) (s' := n) by done. cbn zeta. unfold bindM at 1. rewrite He.
  destruct (match program_size x with Some size => _ | None => _ end); [done|]. destruct (negb _); [done|].
  pose proof (inv_propose now x program input c n Hl Hi) as Hp. unfold bindM. by destruct (propose _ _ _ _ _ _ n) as [[]].
Qed.

(** *** Runs *)

(** Identifiers and heights have the width of their types. *)
Definition event_ok (e : Event) : Prop :=
  match e with
  | OnProposal _ _ _ p => receipt_ok (proposed p)
  | OnFinalized _ b => receipt_ok (receipt (bundle_receipt b))
  | OnHead _ program _ | Submit _ _ program _ => length program = 32%nat
  | OnManifest _ m | OnAnnouncement _ m => length (manifest_program m) = 32%nat
  | OnStateResponse resp => length (response_program resp) = 32%nat
  | OnVote _ _ | OnTimeout _ | OnRestart => True
  end.

(** A node that has not taken part in any program. *)
Record fresh_node (n : Node) : Prop := {
  fresh_signed : signed n = [];
  fresh_cache : last_voted n = ∅;
  fresh_store : voted_store (disk n) = ∅;
  fresh_commits : commitments (disk n) = ∅;
  fresh_finals : finalized (disk n) = ∅;
  fresh_pending : pending n = ∅;
  fresh_written : written n = [];
}.

Lemma inv_fresh n : fresh_node n → inv n.
Proof.
  intros [F1 F2 F3 F4 F5 F6 _]. split; split; rewrite ?F1, ?F2, ?F3, ?F4, ?F5, ?F6; try done;
    intros; match goal with Hx : _ ∈ [] |- _ => by apply not_elem_of_nil in Hx end.
Qed.

Lemma votes_inv_step e n : event_ok e → inv n → inv (step e n).
Proof.
  intros He Hi. destruct e; cbn [event_ok step] in He |- *.
  - by apply inv_proposal.
  - by apply inv_of_quiet; [apply quiet_vote|].
  - by apply inv_of_quiet; [apply quiet_finalized|].
  - by apply inv_of_quiet; [apply quiet_head|].
  - by apply inv_of_quiet; [apply quiet_state_response|].
  - by apply inv_of_quiet; [apply quiet_manifest|].
  - by apply inv_of_quiet; [apply quiet_announcement|].
  - by apply inv_submit.
  - by apply (inv_of_quiet _ n (quiet_drop_pending rid)).
  - destruct Hi as [[C1 C2 C3] [V1 V2 V3 V4]]. split; split; done.
Qed.

Lemma inv_run es n : Forall event_ok es → inv n → inv (run es n).
Proof. revert n. induction es as [|e es IH]; intros n; [done|]. intros [He Hes]%Forall_cons Hi. change (inv (run es (step e n))). apply IH; [done|]. by apply votes_inv_step. Qed.

End VoteInvariant.

(** ** Quorums *)

Definition picks (bitmap : bytes) (i : nat) : bool :=
  match bitmap !! (i / 8)%nat with Some b => Z.testbit b (Z.of_nat (i mod 8)) | None => false end.

(** The members from [idx] on that [P] selects, and their weight. *)
Fixpoint chosen (P : nat → bool) (idx : nat) (ms : list CommitteeMember) : list CommitteeMember :=
  match ms with [] => [] | m :: r => if P idx then m :: chosen P (S idx) r else chosen P (S idx) r end.

Fixpoint weight_of (ms : list CommitteeMember) : Z := match ms with [] => 0 | m :: r => weight m + weight_of r end.

Definition weights_ok (c : CommitteeCertificate) : Prop := Forall (λ m, 0 ≤ weight m) (members c) ∧ weight_of (members c) < 2 ^ 64.

Lemma weight_nonneg ms : Forall (λ m, 0 ≤ weight m) ms → 0 ≤ weight_of ms.
Proof. induction 1; cbn; lia. Qed.

Lemma chosen_weight P idx ms : Forall (λ m, 0 ≤ weight m) ms → 0 ≤ weight_of (chosen P idx ms) ≤ weight_of ms.
Proof. intros Hm. revert idx. induction Hm as [|m ms Hm Hms IH]; intros idx; [cbn; lia|]. specialize (IH (S idx)). cbn. destruct (P idx); cbn; lia. Qed.

Lemma chosen_elem P idx ms m : m ∈ chosen P idx ms ↔ ∃ i, ms !! i = Some m ∧ P (idx + i)%nat = true.
Proof.
  revert idx. induction ms as [|x ms IH]; intros idx; cbn.
  - rewrite elem_of_nil. split; [done|]. by intros (i & [=] & _).
  - split.
    + destruct (P idx) eqn:HP; [intros [->|Hm]%elem_of_cons|intros Hm]; [by exists 0%nat; rewrite Nat.add_0_r|..];
        apply IH in Hm as (i & Hi & Hp); exists (S i); by rewrite Nat.add_succ_r.
    + intros ([|i] & Hi & Hp).
      * injection Hi as ->. rewrite Nat.add_0_r in Hp. rewrite Hp. by left.
      * rewrite Nat.add_succ_r in Hp. destruct (P idx); [right|]; apply IH; by exists i.
Qed.

(** Two choices share the weight that does not fit side by side. *)
Lemma chosen_share P Q idx ms :
  Forall (λ m, 0 ≤ weight m) ms →
  weight_of (chosen P idx ms) + weight_of (chosen Q idx ms) ≤ weight_of ms + weight_of (chosen (λ i, P i && Q i) idx ms).
Proof.
  intros Hm. revert idx. induction Hm as [|m ms Hm Hms IH]; intros idx; [cbn; lia|]. specialize (IH (S idx)). cbn.
  destruct (P idx), (Q idx); cbn; lia.
Qed.

Lemma chosen_beyond P Q idx ms :
  Forall (λ m, 0 ≤ weight m) ms → weight_of (chosen Q idx ms) < weight_of (chosen P idx ms) →
  ∃ i m, ms !! i = Some m ∧ P (idx + i)%nat = true ∧ Q (idx + i)%nat = false.
Proof.
  intros Hm. revert idx. induction Hm as [|m ms Hm Hms IH]; intros idx; cbn; [lia|]. intros Hlt.
  destruct (P idx) eqn:HP, (Q idx) eqn:HQ; cbn in Hlt.
  2: { exists 0%nat, m. by rewrite Nat.add_0_r. }
  all: destruct (IH (S idx) ltac:(lia)) as (i & m' & Hi & H1 & H2); exists (S i), m'; by rewrite Nat.add_succ_r.
Qed.

Lemma sat_add_exact a b : 0 ≤ a + b < 2 ^ 64 → sat_add a b = a + b.
Proof. unfold sat_add. lia. Qed.

(** The loop of the verifier selects the members of the bitmap. *)
Lemma select_loop_spec idx ms bitmap sel w :
  Forall (λ m, 0 ≤ weight m) ms → 0 ≤ w → w + weight_of ms < 2 ^ 64 → (∀ i, (i < length ms)%nat → is_Some (bitmap !! ((idx + i) / 8)%nat)) →
  select_loop idx ms bitmap sel w =
    (sel ++ map bls_public_key (chosen (picks bitmap) idx ms), w + weight_of (chosen (picks bitmap) idx ms)).
Proof.
  intros Hm. revert idx sel w. induction Hm as [|m ms Hm Hms IH]; intros idx sel w Hw Hs Hb; [cbn; by rewrite app_nil_r, Z.add_0_r|].
  cbn [select_loop chosen]. cbn in Hs. pose proof (weight_nonneg ms Hms). destruct (Hb 0%nat ltac:(cbn; lia)) as [b Hbi]. rewrite Nat.add_0_r in Hbi.
  assert (picks bitmap idx = Z.testbit b (Z.of_nat (idx mod 8))) as -> by (unfold picks; by rewrite Hbi). rewrite Hbi.
  assert (∀ i, (i < length ms)%nat → is_Some (bitmap !! ((S idx + i) / 8)%nat)) as Hb'.
  { intros i Hi. specialize (Hb (S i) ltac:(cbn; lia)). by rewrite Nat.add_succ_r in Hb. }
  destruct (Z.testbit b (Z.of_nat (idx mod 8))).
  - rewrite sat_add_exact by lia. rewrite IH by (done || lia). cbn. by rewrite <- app_assoc, Z.add_assoc.
  - by rewrite IH by (done || lia).
Qed.

Section Agreement.
Context `{Blake3} `{!Digest} `{HashIter} `{Bls} `{Bincode} `{Ed25519}.

Definition signers (a : AggregatedReceipt) (c : CommitteeCertificate) : list CommitteeMember := chosen (picks (signer_bitmap a)) 0 (members c).

Lemma bitmap_covers (bitmap : bytes) c (i : nat) : (bitmap_size c ≤ length bitmap)%nat → (i < length (members c))%nat → is_Some (bitmap !! (i / 8)%nat).
Proof.
  intros Hb Hi. apply lookup_lt_is_Some. unfold bitmap_size in Hb.
  assert (i / 8 < (length (members c) + 7) / 8)%nat; [|lia]. apply Nat.Div0.div_lt_upper_bound.
  pose proof (Nat.div_mod (length (members c) + 7) 8 ltac:(lia)). pose proof (Nat.mod_upper_bound (length (members c) + 7) 8). lia.
Qed.

Lemma select_signers_spec c bitmap :
  weights_ok c → (bitmap_size c ≤ length bitmap)%nat →
  select_signers c bitmap = Ok (map bls_public_key (chosen (picks bitmap) 0 (members c)), weight_of (chosen (picks bitmap) 0 (members c))).
Proof.
  intros [Hw Ht] Hb. unfold select_signers. rewrite (proj2 (Nat.ltb_ge _ _) Hb). f_equal.
  rewrite select_loop_spec; [done|done|lia|done|]. intros i Hi. by apply (bitmap_covers _ c).
Qed.

(** What a verified receipt has. *)
Lemma verify_inv a c :
  weights_ok c → verify_aggregated_receipt a c = Ok tt →
  receipt_program (receipt a) = committee_program c ∧ threshold c ≤ weight_of (signers a c) ∧
  fast_aggregate_verify (receipt_id (receipt a)) (map bls_public_key (signers a c)) (aggregate_signature a) = true.
Proof.
  intros Hw. unfold verify_aggregated_receipt.
  destruct (bool_decide (receipt_program _ = _)) eqn:Hp; [|done]. apply bool_decide_eq_true in Hp. cbn [negb].
  destruct (negb (committee_epoch a =? epoch c)); [done|]. destruct (MAX_COMMITTEE_SIZE <? length (members c))%nat; [done|].
  destruct (MAX_BITMAP_SIZE <? length (signer_bitmap a))%nat; [done|]. destruct (length (signer_bitmap a) <? bitmap_size c)%nat eqn:Hb; [done|]. apply Nat.ltb_ge in Hb. cbn [orb].
  rewrite select_signers_spec by done. cbn [outcome_bind]. destruct (is_empty _ || _); [done|]. destruct (_ <? threshold c) eqn:Ht; [done|]. apply Z.ltb_ge in Ht.
  destruct (fast_aggregate_verify _ _ _) eqn:Hf; [|done]. done.
Qed.

(** The members that run this code and do not execute the program themselves at [h]. *)
Definition follows (n : Node) (program : bytes) (h : Z) : Prop :=
  (∃ n0 es, fresh_node n0 ∧ Forall event_ok es ∧ n = run es n0) ∧ unowned n program h.

(** Unforgeability, at the aggregate signature of [a]: when it verifies under keys with the one of
    a member that is trusted, that member has signed the digest. *)
Definition unforged (nodes : bytes → Node) (trust : bytes → bool) (c : CommitteeCertificate) (a : AggregatedReceipt) : Prop :=
  ∀ keys m, fast_aggregate_verify (receipt_id (receipt a)) keys (aggregate_signature a) = true →
    m ∈ members c → bls_public_key m ∈ keys → trust (node m) = true →
    ∃ own r, (own, r) ∈ signed (nodes (node m)) ∧ receipt_id r = receipt_id (receipt a).

Definition distrusted (trust : bytes → bool) (c : CommitteeCertificate) (i : nat) : bool :=
  match members c !! i with Some m => negb (trust (node m)) | None => false end.
Definition untrusted_weight (trust : bytes → bool) (c : CommitteeCertificate) : Z := weight_of (chosen (distrusted trust c) 0 (members c)).

(** The texts whose digests are signed or aggregated. *)
Definition receipt_texts (nodes : bytes → Node) (c : CommitteeCertificate) (a1 a2 : AggregatedReceipt) : list bytes :=
  map encode_receipt (receipt a1 :: receipt a2 :: flat_map (λ m, map snd (signed (nodes (node m)))) (members c)).

Lemma same_receipt L r1 r2 : encode_receipt r1 ∈ L → encode_receipt r2 ∈ L → receipt_id r1 = receipt_id r2 → collision L ∨ r1 = r2.
Proof.
  intros H1' H2' He. destruct (decide (encode_receipt r1 = encode_receipt r2)) as [Hr|Hne].
  - right. by apply encode_receipt_inj.
  - left. by exists (encode_receipt r1), (encode_receipt r2).
Qed.

Lemma shared_member trust c a1 a2 :
  weights_ok c → threshold c ≤ weight_of (signers a1 c) → threshold c ≤ weight_of (signers a2 c) →
  weight_of (members c) + untrusted_weight trust c < 2 * threshold c →
  ∃ m, m ∈ members c ∧ m ∈ signers a1 c ∧ m ∈ signers a2 c ∧ trust (node m) = true.
Proof.
  intros [Hw _] Ht1 Ht2 Hq. pose proof (chosen_share (picks (signer_bitmap a1)) (picks (signer_bitmap a2)) 0 (members c) Hw) as Hs.
  unfold signers, untrusted_weight in *. set (P := λ i, picks (signer_bitmap a1) i && _) in Hs.
  destruct (chosen_beyond P (distrusted trust c) 0 (members c) Hw) as (i & m & Hi & HP & HQ); [lia|].
  unfold P in HP. unfold distrusted in HQ. cbn in HP, HQ. rewrite Hi in HQ. apply andb_true_iff in HP as [HP1 HP2]. apply negb_false_iff in HQ. exists m. split_and!; [|..|done].
  - by eapply list_elem_of_lookup_2.
  - apply chosen_elem. by exists i.
  - apply chosen_elem. by exists i.
Qed.

End Agreement.
End Votes.
