(* ===== verification/ConsensusState.v ===== *)
(** * The state a node commits

    How a node writes the transitions of a program and commits them: the receipt it
    aggregates verifies on the other nodes, the vote that completes a quorum commits the
    transition, and the loops end. *)

From stdpp Require Import sorting.
From S2P Require Import Prelude JsValue Codec RustLib WasmHost Merkle StateStore Consensus ConsensusVotes.

Module Commits.
Import Rust Host Merkle Store Consensus Votes.

#[local] Opaque compute_smt_root compute_smt_with_proof sparse_merkle_root sparse_merkle_proof.

Section State.
Context `{Blake3} `{!Digest} `{HashIter} `{Bls} `{Bincode} `{Ed25519}.

(** ** The state on disk *)

(** What leaves the state and the commitments alone. *)
Definition aside_step (n n' : Node) : Prop := state (disk n') = state (disk n) ∧ commitments (disk n') = commitments (disk n).

(** The content that writes leave. *)
Definition write_state (program : bytes) (writes : list StateWrite) (m : gmap bytes bytes) : gmap bytes bytes :=
  fold_left (λ m w, write_one program w m) writes m.

(** The node when they are flushed. *)
Fixpoint flushed (program : bytes) (writes : list StateWrite) (n : Node) : Node :=
  match writes with
  | [] => n
  | w :: rest => flushed program rest (on_disk (λ d, set_state (write_one program w (state d)) d) n)
  end.

Lemma flush_run program writes n : flush_writes program writes n = (Ok tt, flushed program writes n).
Proof. revert n. induction writes as [|w writes IH]; intros n; [done|]. cbn. apply IH. Qed.

Lemma flushed_disk program writes n : disk (flushed program writes n) = set_state (write_state program writes (state (disk n))) (disk n).
Proof. revert n. induction writes as [|w writes IH]; intros n; [by destruct n as [? []]|]. cbn. by rewrite IH. Qed.

Lemma flushed_state program writes n : state (disk (flushed program writes n)) = write_state program writes (state (disk n)).
Proof. by rewrite flushed_disk. Qed.
Lemma flushed_commitments program writes n : commitments (disk (flushed program writes n)) = commitments (disk n).
Proof. by rewrite flushed_disk. Qed.
Lemma flushed_pending program writes n : pending (flushed program writes n) = pending n.
Proof. revert n. induction writes as [|w writes IH]; intros n; [done|]. cbn. by rewrite IH. Qed.

Lemma flushed_catalog program writes n : catalog_ok n → catalog_ok (flushed program writes n).
Proof. intros [C1 C2 C3]. split; rewrite ?flushed_disk, ?flushed_pending; done. Qed.

Lemma write_state_scope program writes m :
  scope program (write_state program writes m) = apply_state_writes writes (scope program m) ∧
  ∀ other, length other = length program → other ≠ program → scope other (write_state program writes m) = scope other m.
Proof.
  revert m. induction writes as [|[k [v|]] writes IH]; intros m; [done|..].
  - change (write_state program ((k, Some v) :: writes) m) with (write_state program writes (<[program ++ k := v]> m)).
    destruct (IH (<[program ++ k := v]> m)) as [H1' H2']. rewrite H1', scope_insert. split; [done|]. intros other Hl Hne. rewrite H2' by done. by apply scope_apart.
  - change (write_state program ((k, None) :: writes) m) with (write_state program writes (delete (program ++ k) m)).
    destruct (IH (delete (program ++ k) m)) as [H1' H2']. rewrite H1', scope_delete. split; [done|]. intros other Hl Hne. rewrite H2' by done.
    by apply (scope_apart program other m k []).
Qed.

Lemma program_root_eq program n n' : scope program (state (disk n)) = scope program (state (disk n')) → program_root program n = program_root program n'.
Proof. intros Hs. unfold program_root. by rewrite (scoped_pairs_eq _ _ _ Hs). Qed.

(** A commitment of a greater height is the latest. *)
Lemma latest_stored c n :
  catalog_ok n → length (commit_program c) = 32%nat → u64 (commit_height c) →
  (latest_state_commitment (commit_program c) n ≠ None → latest_height (commit_program c) n < commit_height c) →
  latest_state_commitment (commit_program c) (store_state_commitment c n) = Some c.
Proof.
  intros Hok Hl Hu Hlt. assert (catalog_ok (store_state_commitment c n)) as Hok' by by apply (quiet_commit c Hl Hu n Hok).
  destruct (latest_spec (commit_program c) (store_state_commitment c n) Hok' Hl) as [Hs Hg].
  destruct (Hg (commit_height c) c Hu) as [Hle Hsome]; [cbn; by rewrite lookup_insert_eq|].
  unfold latest_height in Hle. destruct (latest_state_commitment _ (store_state_commitment c n)) as [c'|]; [|done]. destruct Hs as [Hp Hc'].
  cbn in Hc'. apply lookup_insert_Some in Hc' as [[_ <-]|[_ Hc']]; [done|]. exfalso.
  destruct (latest_spec (commit_program c) n Hok Hl) as [_ Hg']. destruct (commits_ok n Hok _ _ Hc') as (_ & Hu' & _).
  destruct (Hg' (commit_height c') c' Hu' Hc') as [Hle' Hsome']. specialize (Hlt Hsome'). lia.
Qed.

Lemma latest_other program c n :
  catalog_ok n → length program = 32%nat → length (commit_program c) = 32%nat → program ≠ commit_program c →
  latest_state_commitment program (store_state_commitment c n) = latest_state_commitment program n.
Proof.
  intros Hok Hl Hlc Hne. unfold latest_state_commitment. do 2 f_equal. cbn.
  apply sorted_entries_unique; [apply sort_entries_sorted..|apply with_prefix_nodup|].
  apply NoDup_Permutation; [eapply NoDup_fmap_1, with_prefix_nodup..|]. intros [k v]. rewrite !elem_with_prefix. split; intros [Hk Hs]; (split; [|done]).
  - apply lookup_insert_Some in Hk as [[<- _]|[_ Hk]]; [|done]. apply starts_with_drop in Hs. apply app_inj_1 in Hs as [Hs _]; [by rewrite Hs in Hne|lia].
  - rewrite lookup_insert_ne; [done|]. intros <-. apply starts_with_drop in Hs. apply app_inj_1 in Hs as [Hs _]; [by rewrite Hs in Hne|lia].
Qed.

Lemma finalized_at program n b :
  catalog_ok n → length program = 32%nat → load_finalized_transition program (expected_height program n) n = Some b →
  receipt_program (receipt (bundle_receipt b)) = program ∧ height (receipt (bundle_receipt b)) = expected_height program n ∧ u64 (expected_height program n).
Proof.
  intros Hok Hl Hb. assert (u64 (expected_height program n)) as Hu.
  { unfold expected_height, u64. destruct (latest_state_commitment program n); [apply Z.mod_pos_bound; lia|lia]. }
  destruct (finals_ok n Hok _ _ Hb) as (Hl' & Hu' & Hk). apply height_key_inj in Hk as [-> <-]; try done. lia.
Qed.

Lemma predicted_root program writes n :
  let n1 := flushed program writes n in
  clash (pair_texts (map_to_list (apply_state_writes writes (scope program (state (disk n)))))) ∨ program_root program n1 = root_after program writes n.
Proof.
  intros n1. assert (scope program (state (disk n1)) = apply_state_writes writes (scope program (state (disk n)))) as Hs by (unfold n1; rewrite flushed_state; apply write_state_scope).
  destruct (merged_spec _ _ program (state (disk n)) writes) as [Hc|Hm]; [by left|]. rewrite <- Hs in Hm |- *.
  destruct (root_spec _ (scoped_pairs program (state (disk n1))) (scope program (state (disk n1)))) as [Hc|Hr]; [apply scoped_nodup|done|by left|].
  right. unfold program_root. rewrite Hr. symmetry. exact Hm.
Qed.

Lemma aside_ingest a c n : aside_step n (ingest_aggregated_receipt a c n).2.
Proof. unfold ingest_aggregated_receipt, bindM, liftM. by destruct (verify_aggregated_receipt a c). Qed.

(** ** From votes to a receipt *)

Definition has_signed (sigs : gmap bytes bytes) (m : CommitteeMember) : bool := bool_decide (is_Some (sigs !! node m)).

Lemma picks_set (bitmap : bytes) idx i :
  (idx / 8 < length bitmap)%nat →
  picks (alter (λ b, Z.lor b (Z.shiftl 1 (Z.of_nat (idx mod 8)))) (idx / 8)%nat bitmap) i = picks bitmap i || (i =? idx)%nat.
Proof.
  intros Hlt. unfold picks. destruct (decide (i / 8 = idx / 8)%nat) as [Heq|Hne].
  - rewrite Heq, list_lookup_alter_eq. destruct (lookup_lt_is_Some_2 bitmap _ Hlt) as [b Hb]. rewrite Hb.
    change (?f <$> Some b) with (Some (f b)). cbv beta iota. rewrite Z.lor_spec, Z.shiftl_1_l, Z.pow2_bits_eqb by lia. f_equal.
    pose proof (Nat.div_mod i 8 ltac:(lia)). pose proof (Nat.div_mod idx 8 ltac:(lia)). destruct (Nat.eqb_spec i idx) as [->|Hn]; [by apply Z.eqb_eq|].
    apply Z.eqb_neq. lia.
  - rewrite list_lookup_alter_ne by lia. destruct (Nat.eqb_spec i idx) as [->|]; [done|by rewrite orb_false_r].
Qed.

(** The loop gathers the members whose signatures there are. *)
Lemma collect_spec idx ms sigs bitmap out w :
  Forall (λ m, 0 ≤ weight m) ms → 0 ≤ w → w + weight_of ms < 2 ^ 64 →
  (∀ i, (i < length ms)%nat → ((idx + i) / 8 < length bitmap)%nat) → (∀ i, (idx ≤ i)%nat → picks bitmap i = false) →
  let '(bitmap', out', w') := collect_signers idx ms sigs (bitmap, out, w) in
  length bitmap' = length bitmap ∧ (∀ i, (i < idx)%nat → picks bitmap' i = picks bitmap i) ∧
  chosen (picks bitmap') idx ms = List.filter (has_signed sigs) ms ∧
  (∃ l, out' = out ++ l ∧ Forall2 (λ m sig, sigs !! node m = Some sig) (List.filter (has_signed sigs) ms) l) ∧
  w' = w + weight_of (List.filter (has_signed sigs) ms).
Proof.
  intros Hm. revert idx bitmap out w. induction Hm as [|m ms Hm Hms IH]; intros idx bitmap out w Hw Hs Hb Hp.
  { cbn. split_and!; try done; [exists []; by rewrite app_nil_r|lia]. }
  cbn [collect_signers List.filter weight_of] in *. pose proof (weight_nonneg ms Hms).
  assert (∀ i, (i < length ms)%nat → ((S idx + i) / 8 < length bitmap)%nat) as Hb'.
  { intros i Hi. specialize (Hb (S i) ltac:(cbn; lia)). by rewrite Nat.add_succ_r in Hb. }
  specialize (Hb 0%nat ltac:(cbn; lia)). rewrite Nat.add_0_r in Hb.
  assert (has_signed sigs m = bool_decide (is_Some (sigs !! node m))) as -> by done.
  destruct (sigs !! node m) as [sig|] eqn:Hsig.
  - rewrite (bool_decide_eq_true_2 (is_Some (Some sig))) by done. rewrite sat_add_exact by lia.
    specialize (IH (S idx) (alter (λ b, Z.lor b (Z.shiftl 1 (Z.of_nat (idx mod 8)))) (idx / 8)%nat bitmap) (out ++ [sig]) (w + weight m)).
    destruct (collect_signers (S idx) ms sigs _) as [[bm' out'] w'].
    destruct IH as (I1 & I2 & I3 & (l & I4 & I5) & I6); [lia|lia| | |].
    { intros i Hi. rewrite length_alter. by apply Hb'. }
    { intros i Hi. rewrite picks_set by done. rewrite Hp by lia. cbn. apply Nat.eqb_neq. lia. }
    rewrite length_alter in I1. cbn [chosen]. rewrite I2, picks_set, Nat.eqb_refl, orb_true_r by (done || lia). rewrite I3.
    split_and!; [done| |done| |cbn; lia].
    + intros i Hi. rewrite I2, picks_set by (done || lia). rewrite (proj2 (Nat.eqb_neq i idx)) by lia. apply orb_false_r.
    + exists (sig :: l). rewrite I4, <- app_assoc. split; [done|]. by constructor.
  - rewrite (bool_decide_eq_false_2 (is_Some None)) by by intros [? [=]]. specialize (IH (S idx) bitmap out w).
    destruct (collect_signers (S idx) ms sigs _) as [[bm' out'] w']. destruct IH as (I1 & I2 & I3 & I4 & I6); [lia|lia|done|intros i Hi; apply Hp; lia|].
    cbn [chosen]. rewrite I2, (Hp idx) by lia. split_and!; try done. intros i Hi. apply I2. lia.
Qed.

(** What a node aggregates verifies wherever the committee is known. *)
Lemma aggregate_ok c r sigs :
  weights_ok c → (length (members c) ≤ MAX_COMMITTEE_SIZE)%nat → 0 < threshold c → receipt_program r = committee_program c →
  (∀ m sig, m ∈ members c → sigs !! node m = Some sig → bls_verify (receipt_id r) (bls_public_key m) sig = true) →
  threshold c ≤ weight_of (List.filter (has_signed sigs) (members c)) →
  ∃ bitmap out w agg, collect_signers 0 (members c) sigs (replicate (bitmap_size c) 0, [], 0) = (bitmap, out, w) ∧ (w <? threshold c) = false ∧
    aggregate_signatures out = Some agg ∧
    verify_aggregated_receipt {| receipt := r; committee_epoch := epoch c; signer_bitmap := bitmap; aggregate_signature := agg;
                                 aggregate_public_key := committee_key c |} c = Ok tt.
Proof.
  intros Hw Hmax Ht Hp Hsigs Hth. pose proof Hw as [Hpos Htot].
  pose proof (collect_spec 0 (members c) sigs (replicate (bitmap_size c) 0) [] 0 Hpos (Z.le_refl 0) ltac:(lia)) as Hc.
  destruct (collect_signers 0 (members c) sigs _) as [[bitmap out] w]. destruct Hc as (C1 & _ & C3 & (l & -> & C5) & C6).
  { intros i Hi. apply lookup_lt_is_Some, (bitmap_covers _ c); [by rewrite length_replicate|done]. }
  { intros i _. unfold picks. destruct (replicate _ _ !! _) as [b|] eqn:Hl; [|done]. apply lookup_replicate in Hl as [-> _]. apply Z.testbit_0_l. }
  rewrite length_replicate in C1. cbn [app] in *. set (ms := List.filter (has_signed sigs) (members c)) in *.
  assert (ms ≠ []) as Hne by (intros He; rewrite He in Hth; cbn in Hth; lia).
  destruct (aggregate_verifies (receipt_id r) (zip (map bls_public_key ms) l)) as (agg & Hagg & Hver).
  { destruct ms, l; try done; by inversion C5. }
  { assert (∀ m, m ∈ ms → m ∈ members c) as Hsub by (intros m; unfold ms; rewrite !list_elem_of_In, List.filter_In; tauto).
    clear - C5 Hsigs Hsub. induction C5 as [|m sig ms l Hm _ IH]; [constructor|]. cbn. constructor; [|apply IH; intros x Hx; apply Hsub; by right].
    apply (Hsigs m); [apply Hsub; by left|done]. }
  assert (length (map bls_public_key ms) = length l) as Hlen by (rewrite length_fmap; by eapply Forall2_length).
  rewrite fst_zip in Hver by lia. rewrite snd_zip in Hagg by lia.
  exists bitmap, l, w, agg. split; [done|]. split; [apply Z.ltb_ge; lia|]. split; [done|].
  assert (bitmap_size c ≤ MAX_BITMAP_SIZE)%nat as Hsize.
  { unfold bitmap_size. change MAX_BITMAP_SIZE with (Z.to_nat 128). change MAX_COMMITTEE_SIZE with (Z.to_nat 1000) in Hmax.
    apply Nat.Div0.div_le_upper_bound. lia. }
  unfold verify_aggregated_receipt. cbn [receipt committee_epoch signer_bitmap aggregate_signature].
  rewrite (bool_decide_eq_true_2 _ Hp), Z.eqb_refl, (proj2 (Nat.ltb_ge _ _) Hmax), C1, (proj2 (Nat.ltb_ge _ _) Hsize), Nat.ltb_irrefl. cbn [negb orb].
  rewrite select_signers_spec by (done || by rewrite C1). rewrite C3. cbn [outcome_bind].
  rewrite (proj2 (Z.ltb_ge _ _) Hth), (proj2 (Z.eqb_neq _ 0)), Hver by lia. by destruct ms.
Qed.

(** *** The weight of the votes *)

Definition weight_at (ms : list CommitteeMember) (id : bytes) : Z :=
  match List.find (λ m, bool_decide (node m = id)) ms with Some m => weight m | None => 0 end.
Fixpoint sum_at (ms : list CommitteeMember) (ids : list bytes) : Z := match ids with [] => 0 | id :: r => weight_at ms id + sum_at ms r end.

Lemma weight_at_range ms id : Forall (λ m, 0 ≤ weight m) ms → 0 ≤ weight_at ms id.
Proof.
  intros Hm. unfold weight_at. destruct (List.find _ ms) as [m|] eqn:Hf; [|lia]. apply List.find_some in Hf as [Hin _].
  rewrite Forall_forall in Hm. apply Hm. by apply list_elem_of_In.
Qed.

Lemma sum_at_cons m ms ids :
  node m ∉ map node ms → NoDup ids → sum_at (m :: ms) ids = (if bool_decide (node m ∈ ids) then weight m else 0) + sum_at ms ids.
Proof.
  intros Hm. assert (weight_at ms (node m) = 0) as H0'.
  { unfold weight_at. destruct (List.find _ ms) as [x|] eqn:Hf; [|done]. apply List.find_some in Hf as [Hin Hx]. apply bool_decide_eq_true in Hx.
    destruct Hm. rewrite <- Hx. apply list_elem_of_fmap. exists x. by rewrite list_elem_of_In. }
  induction 1 as [|id ids Hid Hd IH]; [done|]. cbn [sum_at]. rewrite IH.
  assert (weight_at (m :: ms) id = if bool_decide (node m = id) then weight m else weight_at ms id) as ->
    by (unfold weight_at; cbn; by destruct (bool_decide (node m = id))).
  destruct (decide (node m = id)) as [<-|Hne].
  - rewrite (bool_decide_eq_true_2 (node m = node m)) by done. rewrite (bool_decide_eq_true_2 (node m ∈ node m :: ids)) by by left.
    rewrite (bool_decide_eq_false_2 (node m ∈ ids)) by done. lia.
  - rewrite (bool_decide_eq_false_2 (node m = id)) by done.
    rewrite (bool_decide_ext (node m ∈ id :: ids) (node m ∈ ids)) by (rewrite elem_of_cons; naive_solver). lia.
Qed.

Lemma sum_at_members ms sigs ids :
  NoDup (map node ms) → NoDup ids → (∀ id, id ∈ ids ↔ is_Some (sigs !! id)) → sum_at ms ids = weight_of (List.filter (has_signed sigs) ms).
Proof.
  intros Hd Hi Hin. induction ms as [|m ms IH]; [clear; by induction ids|]. cbn in Hd. apply NoDup_cons in Hd as [Hm Hd].
  rewrite sum_at_cons, IH by done. cbn [List.filter]. unfold has_signed at 2.
  rewrite (bool_decide_ext (node m ∈ ids) (is_Some (sigs !! node m))) by apply Hin. by destruct (bool_decide _).
Qed.

Lemma signer_weight_fold ms ids w :
  Forall (λ m, 0 ≤ weight m) ms → 0 ≤ w → w + sum_at ms ids < 2 ^ 64 →
  fold_left (λ w s, match List.find (λ m, bool_decide (node m = s)) ms with Some m => sat_add w (weight m) | None => w end) ids w = w + sum_at ms ids.
Proof.
  intros Hm. revert w. induction ids as [|id ids IH]; intros w Hw Hs; cbn; [lia|]. cbn [sum_at] in Hs.
  pose proof (weight_at_range ms id Hm) as Hr. assert (0 ≤ sum_at ms ids) by (clear - Hm; induction ids; cbn; [lia|]; pose proof (weight_at_range ms a Hm); lia).
  unfold weight_at in *. destruct (List.find _ ms) as [m|]; [rewrite sat_add_exact by lia|]; rewrite IH; lia.
Qed.

(** The weight that is compared with the threshold, in whatever order the map is
    traversed, is that of the members that signed. *)
Lemma signer_weight_spec c sigs :
  weights_ok c → NoDup (map node (members c)) →
  signer_weight c (map fst (into_iter sigs)) = weight_of (List.filter (has_signed sigs) (members c)).
Proof.
  intros [Hpos Htot] Hd. assert (NoDup (map fst (into_iter sigs)) ∧ ∀ id, id ∈ map fst (into_iter sigs) ↔ is_Some (sigs !! id)) as [Hn Hin].
  { assert (map fst (into_iter sigs) ≡ₚ (map_to_list sigs).*1) as Hp by (apply Permutation_map, into_iter_perm). rewrite Hp.
    split; [apply NoDup_fst_map_to_list|]. intros id. rewrite Hp, list_elem_of_fmap. split.
    - intros ([k v] & -> & Hkv%elem_of_map_to_list). by exists v.
    - intros [v Hv]. exists (id, v). split; [done|by apply elem_of_map_to_list]. }
  pose proof (sum_at_members (members c) sigs _ Hd Hn Hin) as Hs.
  assert (weight_of (List.filter (has_signed sigs) (members c)) ≤ weight_of (members c)) as Hle.
  { clear - Hpos. induction Hpos as [|m ms Hm Hms IH]; [done|]. cbn [List.filter weight_of]. destruct (has_signed sigs m); cbn; lia. }
  unfold signer_weight, find_member. rewrite signer_weight_fold; [lia|done|lia|lia].
Qed.

(** ** From a quorum to a commitment *)

(** A commitment that is stored stays. *)
Lemma apply_next_keeps now program n h cm :
  length program = 32%nat → catalog_ok n → u64 h → 0 < h → commitments (disk n) !! height_key program h = Some cm →
  commitments (disk (apply_next now program n).2) !! height_key program h = Some cm.
Proof.
  intros Hl Hok Hu Hpos Hcm. unfold apply_next. rewrite bindM_ok with (a := n) (s' := n) by done.
  destruct (get_committee program n) as [c|]; [|done].
  destruct (load_finalized_transition program (expected_height program n) n) as [b|] eqn:Hb; [|done].
  destruct (finalized_at program n b Hok Hl Hb) as (Hp & Hh & Hue). destruct (negb _); [done|]. cbn zeta.
  pose proof (aside_ingest (bundle_receipt b) (bundle_committee b) n) as [Has Hac].
  unfold bindM at 1. destruct (ingest_aggregated_receipt _ _ n) as [[[]|e] n0]; cbn in Has, Hac; [|cbn; by rewrite Hac].
  do 3 (destruct (negb _); [cbn; by rewrite Hac|]).
  rewrite bindM_ok with (a := tt) (s' := flushed program (bundle_writes b) n0) by apply flush_run.
  set (n1 := flushed _ _ n0). rewrite bindM_ok with (a := n1) (s' := n1) by done. cbn zeta.
  assert (commitments (disk n1) = commitments (disk n)) as Hc1 by (unfold n1; by rewrite flushed_commitments). destruct (negb _); [cbn; by rewrite Hc1|].
  cbn. rewrite Hc1, lookup_insert_ne; [done|]. rewrite Hh. intros He. apply height_key_inj in He as [_ He]; [|done..].
  destruct (latest_spec program n Hok Hl) as [_ Hg]. destruct (Hg h cm Hu Hcm) as [Hle Hs].
  pose proof (latest_nonneg program n Hok Hl) as Hn. unfold expected_height, latest_height, u64 in *.
  destruct (latest_state_commitment program n) as [c'|]; [|done].
  destruct (decide (commit_height c' + 1 < 2 ^ 64)); [rewrite Z.mod_small in He; lia|].
  replace (commit_height c' + 1) with (2 ^ 64) in He by lia. rewrite Z.mod_same in He; lia.
Qed.

Lemma apply_loop_keeps fuel now program n h cm :
  length program = 32%nat → catalog_ok n → u64 h → 0 < h → commitments (disk n) !! height_key program h = Some cm →
  commitments (disk (apply_loop fuel now program n).2) !! height_key program h = Some cm.
Proof.
  intros Hl. revert n. induction fuel as [|fuel IH]; intros n Hok Hu Hpos Hcm; [done|]. cbn [apply_loop].
  pose proof (apply_next_keeps now program n h cm Hl Hok Hu Hpos Hcm) as Hk. pose proof (quiet_apply_next now program Hl n Hok) as Hq.
  unfold bindM. destruct (apply_next now program n) as [[[]|e] n']; [|done|done]. apply IH; [apply Hq|done..].
Qed.

(** The transition a node can apply next. *)
Record applicable (b : AggregatedReceiptBundle) (n : Node) : Prop := {
  ap_committee : get_committee (receipt_program (receipt (bundle_receipt b))) n = Some (bundle_committee b);
  ap_verified : verify_aggregated_receipt (bundle_receipt b) (bundle_committee b) = Ok tt;
  ap_height : height (receipt (bundle_receipt b)) = expected_height (receipt_program (receipt (bundle_receipt b))) n;
  ap_root_in : state_root_in (receipt (bundle_receipt b)) = program_root (receipt_program (receipt (bundle_receipt b))) n;
  ap_digest : hash_bytes (encode_writes (bundle_writes b)) = write_digest (receipt (bundle_receipt b));
  ap_root_out : root_after (receipt_program (receipt (bundle_receipt b))) (bundle_writes b) n = state_root_out (receipt (bundle_receipt b));
}.

(** The texts hashed for the state after the writes of a transition. *)
Definition bundle_texts (b : AggregatedReceiptBundle) (n : Node) : list bytes :=
  pair_texts (map_to_list (apply_state_writes (bundle_writes b) (scope (receipt_program (receipt (bundle_receipt b))) (state (disk n))))).

Definition committed (b : AggregatedReceiptBundle) (n : Node) : Prop :=
  let r := receipt (bundle_receipt b) in
  ∃ cm, commitments (disk n) !! height_key (receipt_program r) (height r) = Some cm ∧ commit_root cm = state_root_out r ∧
    parent cm = Some (state_root_in r) ∧ state_delta_root cm = Some (write_digest r).

Lemma apply_next_commits now b n :
  let r := receipt (bundle_receipt b) in
  applicable b n → load_finalized_transition (receipt_program r) (height r) n = Some b →
  clash (bundle_texts b n) ∨ ∃ n', apply_next now (receipt_program r) n = (Ok true, n') ∧ committed b n'.
Proof.
  intros r [Hc Hv Hh Hin Hd Hout] Hl. unfold apply_next. fold r in Hc, Hh, Hin, Hd, Hout. rewrite bindM_ok with (a := n) (s' := n) by done.
  rewrite Hc, <- Hh, Hl. rewrite (bool_decide_eq_true_2 (bundle_committee b = bundle_committee b)) by done. cbn [negb]. cbn zeta.
  set (n0 := on_disk (λ d, set_receipts (<[receipt_program r ++ receipt_id r := bundle_receipt b]> (receipts d)) d) n).
  rewrite bindM_ok with (a := tt) (s' := n0) by (unfold ingest_aggregated_receipt, bindM, liftM; by rewrite Hv).
  fold r. rewrite (bool_decide_eq_true_2 _ Hin), (bool_decide_eq_true_2 _ Hd), (bool_decide_eq_true_2 _ Hout). cbn [negb].
  rewrite bindM_ok with (a := tt) (s' := flushed (receipt_program r) (bundle_writes b) n0) by apply flush_run.
  set (n1 := flushed _ _ n0). rewrite bindM_ok with (a := n1) (s' := n1) by done. cbn zeta.
  destruct (predicted_root (receipt_program r) (bundle_writes b) n0) as [Hcl|Hr1]; [by left|right].
  assert (program_root (receipt_program r) n1 = state_root_out r) as Happ by (unfold n1; rewrite Hr1; exact Hout).
  rewrite (bool_decide_eq_true_2 _ Happ). cbn [negb]. eexists. split; [done|]. unfold committed. fold r.
  eexists. split; [cbn; apply lookup_insert_eq|]. cbn. by rewrite Happ, Hin.
Qed.

Lemma applicable_aside b n n' : aside_step n n' → manifests (disk n') = manifests (disk n) → applicable b n → applicable b n'.
Proof.
  intros [Hs Hc] Hm [A1 A2 A3 A4 A5 A6]. split; try done.
  - unfold get_committee. by rewrite Hm.
  - unfold expected_height, latest_state_commitment. by rewrite Hc.
  - unfold program_root. by rewrite Hs.
  - unfold root_after. by rewrite Hs.
Qed.

Lemma apply_commits now b n :
  let r := receipt (bundle_receipt b) in
  receipt_ok r → 0 < height r → catalog_ok n → applicable b n → load_finalized_transition (receipt_program r) (height r) n = Some b →
  clash (bundle_texts b n) ∨ committed b (apply_available_finalized_transitions now (receipt_program r) n).2.
Proof.
  intros r [Hl Hu] Hpos Hok Ha Hb. destruct (apply_next_commits now b n Ha Hb) as [|(n' & Hn' & cm & Hcm & Hrest)]; [by left|right].
  pose proof (quiet_apply_next now (receipt_program r) Hl n Hok) as Hq. unfold apply_available_finalized_transitions.
  rewrite bindM_ok with (a := n) (s' := n) by done. cbn [apply_loop]. rewrite bindM_assoc, (bindM_ok _ _ _ _ _ Hn'). fold r in Hn', Hcm, Hrest. rewrite Hn' in Hq.
  pose proof (apply_loop_keeps (size (finalized (disk n))) now (receipt_program r) n' (height r) cm Hl (quiet_ok _ _ Hq) Hu Hpos Hcm) as Hk.
  unfold bindM. destruct (apply_loop _ _ _ n') as [[]]; by exists cm.
Qed.

Lemma finalized_commits now b n :
  let r := receipt (bundle_receipt b) in
  receipt_ok r → 0 < height r → catalog_ok n → applicable b n →
  clash (bundle_texts b n) ∨ committed b (handle_finalized_receipt now b n).2.
Proof.
  intros r Hr Hpos Hok Ha. unfold handle_finalized_receipt. fold r. rewrite bindM_ok with (a := n) (s' := n) by done.
  pose proof (ap_committee b n Ha) as Hcm. fold r in Hcm. rewrite Hcm, bool_decide_eq_true_2 by done.
  set (n1 := on_disk (λ d, set_receipts (<[receipt_program r ++ receipt_id r := bundle_receipt b]> (receipts d)) d) n).
  assert (ingest_aggregated_receipt (bundle_receipt b) (bundle_committee b) n = (Ok tt, n1)) as Hing
    by (unfold ingest_aggregated_receipt, bindM, liftM; by rewrite (ap_verified b n Ha)).
  pose proof (quiet_ingest (bundle_receipt b) (bundle_committee b) n Hok) as Hq1. rewrite Hing in Hq1. rewrite (bindM_ok _ _ _ _ _ Hing).
  set (n2 := on_disk (λ d, set_finalized (<[height_key (receipt_program r) (height r) := b]> (finalized d)) d) n1).
  assert (store_finalized_transition b n1 = (Ok tt, n2)) as Hst by done.
  pose proof (quiet_store_finalized b Hr n1 (quiet_ok _ _ Hq1)) as Hq2. rewrite Hst in Hq2. rewrite (bindM_ok _ _ _ _ _ Hst).
  rewrite bindM_ok with (a := n2) (s' := n2) by done. cbn zeta.
  assert (applicable b n2) as Ha2 by by apply (applicable_aside b n).
  assert ((expected_height (receipt_program r) n2 <? height r) = false) as Hlt by (apply Z.ltb_ge; unfold r; rewrite (ap_height b n2 Ha2); lia).
  rewrite bindM_ok with (a := tt) (s' := n2) by (unfold modifyM; by rewrite Hlt).
  apply (apply_commits now b n2); [done|done|by apply Hq2|done|]. unfold load_finalized_transition. cbn. apply lookup_insert_eq.
Qed.

(** *** The vote that completes a quorum *)

(** A committee that can decide. *)
Record committee_ok (c : CommitteeCertificate) : Prop := {
  co_weights : weights_ok c;
  co_distinct : NoDup (map node (members c));
  co_size : (length (members c) ≤ MAX_COMMITTEE_SIZE)%nat;
  co_threshold : 0 < threshold c;
}.

(** The bundle of a pending transition, with any bitmap and signature. *)
Definition bundle_of (e : PendingTransition) (bitmap agg : bytes) : AggregatedReceiptBundle := {|
  bundle_receipt := {|
    receipt := pending_receipt e; committee_epoch := epoch (pending_committee e); signer_bitmap := bitmap;
    aggregate_signature := agg; aggregate_public_key := committee_key (pending_committee e) |};
  bundle_committee := pending_committee e; bundle_writes := pending_state_writes e |}.

(** The node is where the transition starts, and the transition is what it says. *)
Record startable (e : PendingTransition) (n : Node) : Prop := {
  st_committee : get_committee (receipt_program (pending_receipt e)) n = Some (pending_committee e);
  st_program : receipt_program (pending_receipt e) = committee_program (pending_committee e);
  st_height : height (pending_receipt e) = expected_height (receipt_program (pending_receipt e)) n;
  st_positive : 0 < height (pending_receipt e);
  st_root_in : state_root_in (pending_receipt e) = program_root (receipt_program (pending_receipt e)) n;
  st_digest : hash_bytes (encode_writes (pending_state_writes e)) = write_digest (pending_receipt e);
  st_root_out : root_after (receipt_program (pending_receipt e)) (pending_state_writes e) n = state_root_out (pending_receipt e);
}.

Definition signatures_ok (e : PendingTransition) : Prop :=
  ∀ m sig, m ∈ members (pending_committee e) → signatures e !! node m = Some sig →
    bls_verify (receipt_id (pending_receipt e)) (bls_public_key m) sig = true.

Lemma finalize_commits now e n :
  committee_ok (pending_committee e) → catalog_ok n → receipt_ok (pending_receipt e) → startable e n → signatures_ok e →
  threshold (pending_committee e) ≤ weight_of (List.filter (has_signed (signatures e)) (members (pending_committee e))) →
  ∃ n' b, finalize_transition now e n = (Ok tt, n') ∧ receipt (bundle_receipt b) = pending_receipt e ∧
    verify_aggregated_receipt (bundle_receipt b) (pending_committee e) = Ok tt ∧ (clash (bundle_texts b n) ∨ committed b n').
Proof.
  intros [Hw Hd Hs Ht] Hok Hr [S1 S2 S3 S4 S5 S6 S7] Hsig Hth. set (c := pending_committee e) in *.
  destruct (aggregate_ok c (pending_receipt e) (signatures e) Hw Hs Ht S2 Hsig Hth) as (bitmap & out & w & agg & Hcol & Hlt & Hagg & Hver).
  unfold finalize_transition. fold c. rewrite Hcol, Hlt, Hagg. cbn zeta. fold c in Hver.
  pose proof (finalized_commits now (bundle_of e bitmap agg) n Hr S4 Hok) as Hf. unfold bundle_of in Hf at 2. fold c in Hf.
  destruct (handle_finalized_receipt now _ n) as [res n1] eqn:Hh. eexists _, (bundle_of e bitmap agg). split; [done|]. split; [done|]. split; [done|].
  destruct Hf as [|Hcm]; [by split|by left|right]. destruct res, (completion e); exact Hcm.
Qed.

Lemma member_unique c m m' : NoDup (map node (members c)) → m ∈ members c → find_member c (node m) = Some m' → m = m'.
Proof.
  intros Hd Hm Hf. apply List.find_some in Hf as [Hin He]. apply bool_decide_eq_true in He. apply list_elem_of_In in Hin.
  apply list_elem_of_lookup in Hm as [i Hi], Hin as [j Hj]. assert (i = j) as ->; [|congruence].
  eapply NoDup_lookup; [exact Hd| |]; rewrite list_lookup_fmap; [rewrite Hi|rewrite Hj]; cbn; by rewrite ?He.
Qed.

(** C10 With the vote that completes a quorum, a node that is where a pending transition
    starts aggregates a receipt that verifies under its committee and commits the
    transition, unless texts hashed for the new state collide. *)
Theorem vote_commits now v e m n :
  let c := pending_committee e in
  let r := pending_receipt e in
  let sigs := <[signer v := vote_signature v]> (signatures e) in
  committee_ok c → catalog_ok n → pending n !! vote_receipt v = Some e → startable e n → signatures_ok e →
  vote_receipt v = receipt_id r → vote_program v = receipt_program r → vote_epoch v = epoch c →
  find_member c (signer v) = Some m → signatures e !! signer v = None → bls_verify (receipt_id r) (bls_public_key m) (vote_signature v) = true →
  threshold c ≤ weight_of (List.filter (has_signed sigs) (members c)) →
  ∃ n' b, handle_state_transition_vote now v n = (Ok tt, n') ∧ receipt (bundle_receipt b) = r ∧
    verify_aggregated_receipt (bundle_receipt b) c = Ok tt ∧ (clash (bundle_texts b n) ∨ committed b n').
Proof.
  intros c r sigs Hc Hok Hp Hst Hs Hrid Hprog Hep Hm Hnew Hver Hth.
  unfold handle_state_transition_vote. rewrite bindM_ok with (a := n) (s' := n) by done. rewrite Hp. cbn zeta. fold c r.
  rewrite (bool_decide_eq_true_2 _ Hprog), Hep, Z.eqb_refl, Hm, (bool_decide_eq_true_2 _ Hnew), Hrid, Hver. cbn [signatures]. fold sigs.
  rewrite signer_weight_spec by apply Hc. rewrite (proj2 (Z.ltb_ge _ _) Hth).
  set (e' := {| pending_committee := c |}). set (n1 := set_pending (delete (receipt_id r) (pending n)) n).
  rewrite bindM_ok with (a := tt) (s' := n1) by done.
  destruct (finalize_commits now e' n1) as (n' & b & H1' & H2' & H3' & H4'); [exact Hc| | |by destruct Hst; split| |done|by exists n', b].
  - by apply (quiet_drop_pending (receipt_id r) n Hok).
  - by apply (pendings_ok n Hok _ _ Hp).
  - intros m' sig Hm' Hsig. cbn in Hsig. apply lookup_insert_Some in Hsig as [[He <-]|[_ Hsig]]; [|by apply Hs].
    rewrite He in Hm. rewrite (member_unique c m' m (co_distinct c Hc) Hm' Hm). done.
Qed.

(** ** Loops end *)

Lemma forward_loop_ends fuel me ask queue attempted attempts max_attempts :
  (attempts ≤ max_attempts)%nat → (length queue + 2 * (S max_attempts - attempts) ≤ fuel)%nat →
  forward_loop fuel me ask queue attempted attempts max_attempts ≠ None.
Proof.
  revert queue attempted attempts. induction fuel as [|fuel IH]; intros [|target queue] attempted attempts Ha Hf; cbn [forward_loop length] in *; try done; [lia|].
  destruct (bool_decide _); [apply IH; lia|]. destruct (max_attempts <? S attempts)%nat eqn:Hmax; [done|]. apply Nat.ltb_ge in Hmax.
  destruct (bool_decide _); [done|]. destruct (ask target) as [[out|leader|]|]; try done; apply IH; cbn [length]; lia.
Qed.

(** Forwarding an execution ends whatever the other nodes answer, redirects included. *)
Lemma forward_ends me ask c leader : forward_execution_to_leader me ask c leader ≠ None.
Proof.
  apply forward_loop_ends; [lia|]. unfold forward_queue. cbn [length].
  pose proof (List.filter_length_le (λ id, negb (bool_decide (id = leader))) (map node (members c))) as Hl. rewrite length_fmap in Hl. lia.
Qed.

(** What a turn of the loop leaves: the stored transitions, the manifests, and the height. *)
Definition same_transitions (n n' : Node) : Prop := finalized (disk n') = finalized (disk n) ∧ manifests (disk n') = manifests (disk n).

Lemma apply_next_frame now program n : same_transitions n (apply_next now program n).2.
Proof.
  unfold apply_next. rewrite bindM_ok with (a := n) (s' := n) by done. destruct (get_committee program n) as [c|]; [|done].
  destruct (load_finalized_transition program (expected_height program n) n) as [b|]; [|done]. destruct (negb _); [done|]. cbn zeta.
  unfold ingest_aggregated_receipt. rewrite bindM_assoc. unfold bindM at 1, liftM. destruct (verify_aggregated_receipt _ _); [|done].
  rewrite bindM_ok with (a := tt) (s' := on_disk (λ d, set_receipts (<[receipt_program (receipt (bundle_receipt b)) ++ receipt_id (receipt (bundle_receipt b)) := bundle_receipt b]> (receipts d)) d) n) by done.
  do 3 (destruct (negb _); [done|]). set (n0 := on_disk _ n).
  rewrite bindM_ok with (a := tt) (s' := flushed program (bundle_writes b) n0) by apply flush_run.
  set (n1 := flushed _ _ n0). rewrite bindM_ok with (a := n1) (s' := n1) by done. cbn zeta.
  destruct (negb _); unfold same_transitions; cbn; unfold n1; by rewrite flushed_disk.
Qed.

Lemma apply_next_height now program n n' :
  length program = 32%nat → catalog_ok n → latest_height program n < 2 ^ 64 - 1 → apply_next now program n = (Ok true, n') →
  latest_height program n' = latest_height program n + 1 ∧ is_Some (finalized (disk n) !! height_key program (latest_height program n + 1)).
Proof.
  intros Hl Hok Hmax. unfold apply_next. rewrite bindM_ok with (a := n) (s' := n) by done. destruct (get_committee program n) as [c|]; [|done].
  destruct (load_finalized_transition program (expected_height program n) n) as [b|] eqn:Hb; [|done]. destruct (negb _); [done|]. cbn zeta.
  destruct (finalized_at program n b Hok Hl Hb) as (Hp & Hh & Hu). pose proof (quiet_ingest (bundle_receipt b) (bundle_committee b) n Hok) as Hq.
  pose proof (aside_ingest (bundle_receipt b) (bundle_committee b) n) as [_ Hac].
  unfold bindM at 1. destruct (ingest_aggregated_receipt _ _ n) as [[[]|e] n0]; [|done]. cbn in Hq, Hac. do 3 (destruct (negb _); [done|]).
  rewrite bindM_ok with (a := tt) (s' := flushed program (bundle_writes b) n0) by apply flush_run.
  set (n1 := flushed _ _ n0). rewrite bindM_ok with (a := n1) (s' := n1) by done. cbn zeta. destruct (negb _); [done|].
  assert (latest_height program n1 = latest_height program n) as Hl1 by (unfold latest_height, latest_state_commitment, n1; by rewrite flushed_commitments, Hac).
  assert (expected_height program n = latest_height program n + 1) as Hexp.
  { pose proof (latest_nonneg program n Hok Hl) as Hn. unfold expected_height, latest_height, u64 in *. destruct (latest_state_commitment program n); [rewrite Z.mod_small; lia|lia]. }
  set (cm := {| commit_program := program |}).
  assert (catalog_ok n1) as Hok1 by (apply flushed_catalog, (quiet_ok _ _ Hq)).
  intros [= <-]. split.
  - change (latest_height program (store_state_commitment cm n1) = latest_height program n + 1). unfold latest_height at 1.
    assert (latest_state_commitment program (store_state_commitment cm n1) = Some cm) as ->; [|cbn; lia].
    apply (latest_stored cm n1 Hok1 Hl); [cbn; by rewrite Hh|]. intros _. cbn. rewrite Hl1. lia.
  - rewrite <- Hexp. by exists b.
Qed.

(** A loop that uses up its fuel has applied as many transitions. *)
Lemma apply_loop_used fuel now program n n' :
  length program = 32%nat → catalog_ok n → latest_height program n + Z.of_nat fuel < 2 ^ 64 → apply_loop fuel now program n = (Ok false, n') →
  ∀ i : nat, (i < fuel)%nat → is_Some (finalized (disk n) !! height_key program (latest_height program n + 1 + Z.of_nat i)).
Proof.
  intros Hl. revert n. induction fuel as [|fuel IH]; intros n Hok Hmax; [lia|]. cbn [apply_loop]. unfold bindM.
  destruct (apply_next now program n) as [[[]|e] n1] eqn:Hn; [|done|done]. intros Hloop.
  destruct (apply_next_height now program n n1 Hl Hok ltac:(lia) Hn) as [Hh Hs]. pose proof (apply_next_frame now program n) as [Hf _].
  pose proof (quiet_apply_next now program Hl n Hok) as Hq. rewrite Hn in Hf, Hq. cbn in Hf, Hq.
  intros [|i] Hi; [by rewrite Z.add_0_r|]. specialize (IH n1 (quiet_ok _ _ Hq) ltac:(lia) Hloop i ltac:(lia)). rewrite Hf, Hh in IH.
  by replace (latest_height program n + 1 + Z.of_nat (S i)) with (latest_height program n + 1 + 1 + Z.of_nat i) by lia.
Qed.

(** C11 The loop over the stored transitions ends within one turn more than there are. *)
Theorem apply_ends now program n :
  length program = 32%nat → catalog_ok n → latest_height program n + Z.of_nat (S (size (finalized (disk n)))) < 2 ^ 64 →
  (apply_loop (S (size (finalized (disk n)))) now program n).1 ≠ Ok false.
Proof.
  intros Hl Hok Hmax Hres. destruct (apply_loop _ now program n) as [o n'] eqn:Hloop. cbn in Hres. subst o.
  pose proof (apply_loop_used _ now program n n' Hl Hok Hmax Hloop) as Hin. pose proof (latest_nonneg program n Hok Hl) as [Hn _].
  set (k := S (size (finalized (disk n)))) in *. set (f := λ i : nat, height_key program (latest_height program n + 1 + Z.of_nat i)).
  assert (NoDup (map f (seq 0 k))) as Hd.
  { apply NoDup_fmap_2_strong; [|apply NoDup_seq]. intros x y [_ Hx]%elem_of_seq [_ Hy]%elem_of_seq Hxy.
    apply height_key_inj in Hxy as [_ Hxy]; [|done|unfold u64; lia..]. lia. }
  assert (list_to_set (map f (seq 0 k)) ⊆@{gset bytes} dom (finalized (disk n))) as Hsub.
  { intros x Hx. apply elem_of_list_to_set, list_elem_of_fmap in Hx as (i & -> & [_ Hi]%elem_of_seq). apply elem_of_dom, Hin. lia. }
  apply subseteq_size in Hsub. rewrite size_list_to_set, length_fmap, length_seq, size_dom in Hsub by done. lia.
Qed.

(** ** Manifests *)

Lemma apply_loop_manifests fuel now program n : manifests (disk (apply_loop fuel now program n).2) = manifests (disk n).
Proof.
  revert n. induction fuel as [|fuel IH]; intros n; [done|]. cbn [apply_loop]. pose proof (apply_next_frame now program n) as [_ Hm].
  unfold bindM. destruct (apply_next now program n) as [[[]|e] n']; cbn in Hm; [by rewrite IH|done|done].
Qed.

(** Whoever answers first when a node asks for the manifest of a program it does not know
    chooses its committee: the signature of the manifest is checked in an announcement
    and not in an answer. *)
Theorem manifest_unchecked now m n :
  manifests (disk n) !! manifest_program m = None →
  get_committee (manifest_program m) (handle_manifest_response now m n).2 = committee m ∧
  (manifest_signature m = [] ∨ ed25519_verify (deployer m) (manifest_digest m) (manifest_signature m) = false →
   (handle_program_announcement now m n).2 = n).
Proof.
  intros Hnone. split.
  - unfold handle_manifest_response, verify_initial_sync. rewrite bindM_ok with (a := n) (s' := n) by done. rewrite Hnone.
    rewrite bindM_ok with (a := tt) (s' := store_manifest m n) by done. set (n1 := store_manifest m n).
    assert (manifests (disk (catchM (apply_available_finalized_transitions now (manifest_program m)) (λ _, retM tt) n1).2) = manifests (disk n1)) as Hm.
    { unfold catchM, apply_available_finalized_transitions. rewrite bindM_ok with (a := n1) (s' := n1) by done. unfold bindM.
      rewrite <- (apply_loop_manifests (S (size (finalized (disk n1)))) now (manifest_program m) n1). by destruct (apply_loop _ now _ n1) as [[]]. }
    unfold get_committee. rewrite Hm. cbn. by rewrite lookup_insert_eq.
  - unfold handle_program_announcement. intros [->|Hv]; [done|]. destruct (negb (is_empty _)); [|done]. by rewrite Hv.
Qed.
End State.
End Commits.
