(* ===== verification/ConsensusKills.v ===== *)
(** * The committed root, through kills

    A transition is written to the state one flushed write after the other, and its
    commitment is stored after them.  In every run, whatever a node receives and wherever
    it is killed, the state of a program is the one it committed last, but for what was
    being written when it was killed. *)

From stdpp Require Import sorting.
From S2P Require Import Prelude JsValue Codec RustLib WasmHost Merkle StateStore Consensus ConsensusVotes ConsensusState.

Module Kills.
Import Rust Host Merkle Store Consensus Votes Commits.

#[local] Opaque compute_smt_root compute_smt_with_proof sparse_merkle_root sparse_merkle_proof.

Section Runs.
Context `{Blake3} `{!Digest} `{HashIter} `{Bls} `{Bincode} `{Ed25519}.

(** ** Contents of the disk *)

Definition root_in (program : bytes) (d : Disk) : bytes := sparse_merkle_root (scoped_pairs program (state d)).
Definition latest_in (program : bytes) (d : Disk) : option StateCommitment := snd <$> last (with_prefix program (commitments d)).
Definition expected_in (program : bytes) (d : Disk) : Z :=
  match latest_in program d with Some c => (commit_height c + 1) mod 2 ^ 64 | None => 1 end.

Definition disk_ok (d : Disk) : Prop :=
  (∀ k c, commitments d !! k = Some c →
    length (commit_program c) = 32%nat ∧ u64 (commit_height c) ∧ k = height_key (commit_program c) (commit_height c)) ∧
  ∀ k b, finalized d !! k = Some b → let r := receipt (bundle_receipt b) in
    length (receipt_program r) = 32%nat ∧ u64 (height r) ∧ k = height_key (receipt_program r) (height r).

Lemma catalog_disk n : catalog_ok n → disk_ok (disk n).
Proof. by intros [C1 C2 _]. Qed.

(** A write that a handler of [e] makes to the state of a program when the disk holds [d]: one of
    the transition that is next, or of the state a peer sent. *)
Definition flushing (e : Event) (d : Disk) (program : bytes) (w : StateWrite) : Prop :=
  (∃ b, finalized d !! height_key program (expected_in program d) = Some b ∧ w ∈ bundle_writes b)
  ∨ match e with
    | OnStateResponse resp => response_program resp = program ∧ w ∈ map (λ x, (x.1, Some x.2)) (state_entries resp)
    | _ => False
    end.

(** [accounted cuts past d]: for every program that has a commitment, the disk once held the state
    with the committed root, and each key has its value of then or that of a write in [cuts]. *)
Definition accounted (cuts : bytes → StateWrite → Prop) (past : list Disk) (d : Disk) : Prop :=
  ∀ program c, length program = 32%nat → latest_in program d = Some c → commit_height c < 2 ^ 64 - 1 →
    ∃ d0, d0 ∈ past ∧ root_in program d0 = commit_root c ∧
      ∀ k, scope program (state d) !! k = scope program (state d0) !! k ∨ cuts program (k, scope program (state d) !! k).

Lemma accounted_mono cuts cuts' past past' d d' :
  (∀ p w, cuts p w → cuts' p w) → past ⊆ past' → state d' = state d → commitments d' = commitments d →
  accounted cuts past d → accounted cuts' past' d'.
Proof.
  intros Hc Hp Hs Hm Ha program c Hl Hlat Hlt. unfold latest_in in *. rewrite Hm in Hlat. destruct (Ha program c Hl Hlat Hlt) as (d0 & Hd & Hr & Hk).
  exists d0. split; [by apply Hp|]. split; [done|]. intros k. rewrite Hs. destruct (Hk k); auto.
Qed.

(** Texts hashed for the state of a program collide. *)
Definition state_clash (n : Node) : Prop := ∃ program, clash (pair_texts (map_to_list (scope program (state (disk n))))).

(** Writes leave a key as it was or give it the value of one of them. *)
Lemma writes_lookup (ws : list StateWrite) (m : gmap bytes bytes) (k : bytes) :
  apply_state_writes ws m !! k = m !! k ∨ (k, apply_state_writes ws m !! k) ∈ ws.
Proof.
  induction ws as [|[k' o] ws IH] using rev_ind; [by left|]. unfold apply_state_writes in *. rewrite fold_left_app. cbn [fold_left fst snd].
  destruct (decide (k = k')) as [->|Hne].
  - right. apply elem_of_app. right. apply list_elem_of_singleton. f_equal. destruct o; [apply lookup_insert_eq|apply lookup_delete_eq].
  - assert (∀ x : gmap bytes bytes, match o with Some v => <[k' := v]> x | None => delete k' x end !! k = x !! k) as ->.
    { intros x. destruct o; [by rewrite lookup_insert_ne|by rewrite lookup_delete_ne]. }
    destruct IH as [Heq|IH]; [by left|right; apply elem_of_app; by left].
Qed.

(** ** A handler of [e], started when [start] writes had been made *)

Section Handler.
Context (cuts : bytes → StateWrite → Prop) (e : Event) (start : nat).

Definition mid_ok (past : list Disk) (d : Disk) : Prop := disk_ok d ∧ accounted (λ p w, cuts p w ∨ flushing e d p w) past d.

(** The disk after each write since. *)
Definition trail_ok (ws : list Disk) : Prop := ∀ ws1 d ws2, ws = ws1 ++ d :: ws2 → (start ≤ length ws1)%nat → mid_ok (ws1 ++ [d]) d.

Definition tracked (n : Node) : Prop := accounted cuts (written n) (disk n) ∧ trail_ok (written n).

Definition sound (n : Node) : Prop := tracked n ∨ state_clash n.

Lemma trail_snoc ws d : trail_ok ws → mid_ok (ws ++ [d]) d → trail_ok (ws ++ [d]).
Proof.
  intros Ht Hd ws1 x ws2 He Hl. destruct ws2 as [|y ws2 _] using rev_ind.
  - apply app_inj_tail in He as [-> ->]. done.
  - rewrite app_comm_cons, app_assoc in He. apply app_inj_tail in He as [-> _]. by apply (Ht ws1 x ws2).
Qed.

(** Writes to other trees. *)
Record beside (n n' : Node) : Prop := {
  beside_step : aside_step n n';
  beside_trail : ∃ ds, written n' = written n ++ ds ∧
    Forall (λ d, disk_ok d ∧ state d = state (disk n) ∧ commitments d = commitments (disk n)) ds;
}.

Lemma tracked_beside n n' : beside n n' → tracked n → tracked n'.
Proof.
  intros [[Hs Hc] (ds & Hw & Hds)] [Ha Ht]. split.
  - eapply accounted_mono; [| |exact Hs|exact Hc|exact Ha]; [done|]. rewrite Hw. intros x Hx. apply elem_of_app. by left.
  - rewrite Hw. clear Hw Hs Hc. revert Hds. induction ds as [|d ds IH] using rev_ind; intros Hds; [by rewrite app_nil_r|].
    apply Forall_app in Hds as [Hds Hd]. rewrite Forall_singleton in Hd. destruct Hd as (Hok & Hs & Hc). rewrite app_assoc. apply trail_snoc; [by apply IH|].
    split; [done|]. eapply accounted_mono; [| |exact Hs|exact Hc|exact Ha]; [by auto|]. rewrite <- app_assoc. intros x Hx. apply elem_of_app. by left.
Qed.

Lemma sound_beside n n' : beside n n' → sound n → sound n'.
Proof. intros Hb [Ht|[program Hp]]; [left; by eapply tracked_beside|right; exists program; by rewrite (proj1 (beside_step _ _ Hb))]. Qed.

Lemma beside_trans n1 n2 n3 : beside n1 n2 → beside n2 n3 → beside n1 n3.
Proof.
  intros [[S1 C1] (d1 & W1 & D1)] [[S2 C2] (d2 & W2 & D2)]. split; [split; congruence|]. exists (d1 ++ d2).
  rewrite W2, W1, app_assoc. split; [done|]. apply Forall_app. split; [done|]. rewrite S1, C1 in D2. done.
Qed.

Lemma beside_still n n' : disk n' = disk n → written n' = written n → beside n n'.
Proof. intros Hd Hw. split; [split; by rewrite Hd|]. exists []. by rewrite app_nil_r. Qed.

Lemma beside_write f n :
  catalog_ok (on_disk f n) → state (f (disk n)) = state (disk n) → commitments (f (disk n)) = commitments (disk n) → beside n (on_disk f n).
Proof. intros Hok Hs Hc. split; [done|]. exists [f (disk n)]. split; [done|]. constructor; [|done]. split; [by apply catalog_disk in Hok|done]. Qed.

(** *** Writes to the state *)

Lemma flushing_same d d' program w :
  commitments d' = commitments d → finalized d' = finalized d → flushing e d program w → flushing e d' program w.
Proof. intros Hc Hf. unfold flushing, expected_in, latest_in. by rewrite Hc, Hf. Qed.

Lemma accounted_partial program ws past past' d d' :
  length program = 32%nat → accounted cuts past d → past ⊆ past' →
  state d' = write_state program ws (state d) → commitments d' = commitments d → finalized d' = finalized d →
  (∀ w, w ∈ ws → flushing e d program w) → accounted (λ p w, cuts p w ∨ flushing e d' p w) past' d'.
Proof.
  intros Hl Ha Hp Hs Hc Hf Hws q c Hlq Hlat Hlt. unfold latest_in in Hlat. rewrite Hc in Hlat. destruct (Ha q c Hlq Hlat Hlt) as (d0 & Hd & Hr & Hk).
  exists d0. split; [by apply Hp|]. split; [done|]. intros k. rewrite Hs. destruct (write_state_scope program ws (state d)) as [Hin Hout].
  destruct (decide (q = program)) as [->|Hne]; [|rewrite Hout by (done || lia); destruct (Hk k); auto].
  rewrite Hin. destruct (writes_lookup ws (scope program (state d)) k) as [->|Hw]; [destruct (Hk k); auto|].
  right. right. eapply flushing_same; [exact Hc|exact Hf|by apply Hws].
Qed.

Lemma flushed_snoc program ws w n :
  flushed program (ws ++ [w]) n = on_disk (λ d, set_state (write_one program w (state d)) d) (flushed program ws n).
Proof. revert n. induction ws as [|x ws IH]; intros n; [done|]. cbn. apply IH. Qed.

Lemma flushed_past program ws n : written n ⊆ written (flushed program ws n).
Proof.
  induction ws as [|w ws IH] using rev_ind; [done|]. rewrite flushed_snoc. intros x Hx. cbn. apply elem_of_app. left. by apply IH.
Qed.

Lemma flush_trail program ws n :
  length program = 32%nat → catalog_ok n → tracked n → (∀ w, w ∈ ws → flushing e (disk n) program w) →
  trail_ok (written (flushed program ws n)).
Proof.
  intros Hl Hok [Ha Ht]. induction ws as [|w ws IH] using rev_ind; intros Hws; [done|].
  rewrite flushed_snoc. cbn [on_disk written set_written]. apply trail_snoc; [apply IH; intros x Hx; apply Hws, elem_of_app; by left|].
  set (d' := set_state _ _). assert (d' = disk (flushed program (ws ++ [w]) n)) as Hd' by by rewrite flushed_snoc.
  split; [rewrite Hd'; by apply catalog_disk, flushed_catalog|].
  apply (accounted_partial program (ws ++ [w]) (written n) _ (disk n)); [done|done| |by rewrite Hd', flushed_disk..|done].
  intros x Hx. apply elem_of_app. left. by apply (flushed_past program ws n).
Qed.

(** The commitment of a state under its root. *)
Lemma commit_tracked program ws n c :
  catalog_ok n → tracked n → length program = 32%nat → commit_program c = program → commit_height c = expected_height program n →
  (∀ w, w ∈ ws → flushing e (disk n) program w) →
  commit_root c = program_root program (flushed program ws n) → tracked (store_state_commitment c (flushed program ws n)).
Proof.
  intros Hok Htr Hl Hp Hh Hws Hroot. pose proof (flush_trail program ws n Hl Hok Htr Hws) as Htrail. destruct Htr as [Ha _].
  set (n1 := flushed program ws n) in *. assert (u64 (commit_height c)) as Hu.
  { rewrite Hh. unfold expected_height, u64. destruct (latest_state_commitment program n); [apply Z.mod_pos_bound; lia|lia]. }
  assert (catalog_ok n1) as Hok1 by by apply flushed_catalog. assert (∀ q, latest_height q n1 = latest_height q n) as Hl1.
  { intros q. unfold latest_height, latest_state_commitment, n1. by rewrite flushed_commitments. }
  assert (accounted cuts (written (store_state_commitment c n1)) (disk (store_state_commitment c n1))) as Hacc.
  - intros q c' Hlq Hc' Hlt. change (latest_state_commitment q (store_state_commitment c n1) = Some c') in Hc'. destruct (decide (q = program)) as [->|Hne].
    + exists (disk (store_state_commitment c n1)). split; [apply elem_of_app; right; by left|]. split; [|by left].
      destruct (decide (latest_height program n = 2 ^ 64 - 1)) as [Hmax|Hmax].
      * exfalso. pose proof (quiet_latest _ _ (quiet_commit c ltac:(by rewrite Hp) Hu n1 Hok1) program Hl) as Hmono. cbn in Hmono.
        unfold latest_height at 2 in Hmono. rewrite Hc', Hl1 in Hmono. lia.
      * rewrite <- Hp in Hc'. rewrite latest_stored in Hc'; [injection Hc' as <-; by rewrite Hroot|done|by rewrite Hp|done|].
        rewrite Hp, Hh, Hl1. intros _. pose proof (latest_nonneg program n Hok Hl) as Hn.
        unfold expected_height, latest_height, u64 in *. destruct (latest_state_commitment program n); [rewrite Z.mod_small; lia|lia].
    + rewrite latest_other in Hc' by (done || by rewrite Hp). unfold latest_state_commitment, n1 in Hc'. rewrite flushed_commitments in Hc'.
      destruct (Ha q c' Hlq Hc' Hlt) as (d0 & Hd & Hr & Hk). exists d0. split; [apply elem_of_app; left; by apply flushed_past|]. split; [done|].
      intros k. cbn. unfold n1. rewrite flushed_state. destruct (write_state_scope program ws (state (disk n))) as [_ Hout]. rewrite Hout by (done || lia). apply Hk.
  - split; [exact Hacc|]. apply (trail_snoc (written n1)); [done|]. split; [|by eapply accounted_mono; [| | | |exact Hacc]; auto].
    apply (catalog_disk (store_state_commitment c n1)). by apply (quiet_commit c ltac:(by rewrite Hp) Hu n1 Hok1).
Qed.

Lemma ingest_catalog a c n : catalog_ok n → beside n (ingest_aggregated_receipt a c n).2.
Proof.
  intros Hok. pose proof (quiet_ingest a c n Hok) as Hq. unfold ingest_aggregated_receipt, bindM, liftM in *.
  destruct (verify_aggregated_receipt a c); [|by apply beside_still]. apply beside_write; [apply (quiet_ok _ _ Hq)|done|done].
Qed.

Lemma apply_next_sound now program n :
  length program = 32%nat → catalog_ok n → tracked n →
  match apply_next now program n with (Ok true, n') => tracked n' | (_, n') => sound n' end.
Proof.
  intros Hl Hok Hr. unfold apply_next. rewrite bindM_ok with (a := n) (s' := n) by done.
  destruct (get_committee program n) as [c|]; [|cbn; left; by apply (tracked_beside n); [apply beside_still|]].
  destruct (load_finalized_transition program (expected_height program n) n) as [b|] eqn:Hb; [|by left].
  destruct (finalized_at program n b Hok Hl Hb) as (Hp & Hh & Hu).
  match goal with |- context [(if ?x then _ else _) n] => destruct x; [by left|] end. cbn zeta.
  pose proof (ingest_catalog (bundle_receipt b) (bundle_committee b) n Hok) as Hbe. pose proof (quiet_ingest (bundle_receipt b) (bundle_committee b) n Hok) as Hq.
  assert (finalized (disk (ingest_aggregated_receipt (bundle_receipt b) (bundle_committee b) n).2) = finalized (disk n)) as Hfin.
  { unfold ingest_aggregated_receipt, bindM, liftM. by destruct (verify_aggregated_receipt _ _). }
  unfold bindM at 1. destruct (ingest_aggregated_receipt _ _ n) as [[[]|err] n0]; cbn in Hq, Hbe, Hfin; pose proof (tracked_beside _ _ Hbe Hr) as Hr0; [|by left].
  pose proof (quiet_ok _ _ Hq) as Hok0. destruct Hbe as [[Has Hac] _].
  do 3 (match goal with |- context [(if ?x then _ else _) n0] => destruct x eqn:?; [by left|] end).
  assert (root_after program (bundle_writes b) n0 = state_root_out (receipt (bundle_receipt b))) as Hafter.
  { unfold root_after. rewrite Has. repeat match goal with Hx : negb (bool_decide _) = false |- _ => apply negb_false_iff, bool_decide_eq_true in Hx end. done. }
  rewrite bindM_ok with (a := tt) (s' := flushed program (bundle_writes b) n0) by apply flush_run.
  set (n1 := flushed _ _ n0). rewrite bindM_ok with (a := n1) (s' := n1) by done. cbn zeta.
  destruct (bool_decide (program_root program n1 = state_root_out (receipt (bundle_receipt b)))) eqn:Happ; cbn [negb].
  - cbn. apply (tracked_beside (store_state_commitment {| commit_program := program; commit_height := height (receipt (bundle_receipt b));
      commit_root := program_root program n1; parent := Some (program_root program n); state_delta_root := Some (write_digest (receipt (bundle_receipt b)));
      timestamp_ms := now |} n1)); [by apply beside_still|]. apply commit_tracked; try done.
    + cbn. rewrite Hh. unfold expected_height, latest_state_commitment. by rewrite Hac.
    + intros w Hw. left. exists b. split; [|done]. unfold expected_in, latest_in. rewrite Hac, Hfin. exact Hb.
  - apply bool_decide_eq_false in Happ. right. destruct (predicted_root program (bundle_writes b) n0) as [Hcl|Hp1].
    + exists program. cbn. unfold n1. rewrite flushed_state, (proj1 (write_state_scope program (bundle_writes b) (state (disk n0)))). exact Hcl.
    + destruct Happ. unfold n1. by rewrite Hp1.
Qed.

(** *** Every handler *)

(** What ends with the roots that are committed, ... *)
Definition sounds {A} (c : M Failure Node A) : Prop := ∀ n, catalog_ok n → tracked n → sound (c n).2.

(** ... what writes to other trees only, and what does not write at all. *)
Definition leaves {A} (c : M Failure Node A) : Prop := ∀ n, catalog_ok n → beside n (c n).2.
Definition still {A} (c : M Failure Node A) : Prop := ∀ n, disk (c n).2 = disk n ∧ written (c n).2 = written n.

Lemma leaves_still {A} (c : M Failure Node A) : still c → leaves c.
Proof. intros Hc n _. by apply beside_still; apply Hc. Qed.

Lemma sounds_leaves {A} (c : M Failure Node A) : leaves c → sounds c.
Proof. intros Hc n Hn Ht. left. eapply tracked_beside; [by apply Hc|done]. Qed.

Lemma sounds_still {A} (c : M Failure Node A) : still c → sounds c.
Proof. intros Hc. by apply sounds_leaves, leaves_still. Qed.

Lemma leaves_write f :
  (∀ d, state (f d) = state d ∧ commitments (f d) = commitments d) → quiet (modifyM (on_disk f)) → leaves (modifyM (on_disk f)).
Proof. intros Hf Hq n Hn. apply beside_write; [by apply (quiet_ok _ _ (Hq n Hn))|apply Hf..]. Qed.

Lemma sounds_get {B} (k : Node → M Failure Node B) : (∀ n, catalog_ok n → sounds (k n)) → sounds (bindM getM k).
Proof. intros Hk n Hn Hr. cbn. by apply Hk. Qed.

Definition keeps_catalog {A} (c : M Failure Node A) : Prop := ∀ n, catalog_ok n → catalog_ok (c n).2.

Lemma keeps_quiet {A} (c : M Failure Node A) : quiet c → keeps_catalog c.
Proof. intros Hq n Hn. apply Hq, Hn. Qed.

(** First what does not touch them, then the rest. *)
Lemma sounds_after {A B} (c : M Failure Node A) (k : A → M Failure Node B) : leaves c → keeps_catalog c → (∀ a, sounds (k a)) → sounds (bindM c k).
Proof.
  intros Ha Hq Hk n Hn Hr. specialize (Ha n Hn). specialize (Hq n Hn). pose proof (tracked_beside _ _ Ha Hr) as Hr'. unfold bindM.
  destruct (c n) as [[a|err] n']; [by apply Hk|by left].
Qed.

(** First the rest, then what does not touch them. *)
Lemma sounds_before {A B} (c : M Failure Node A) (k : A → M Failure Node B) : sounds c → (∀ a, still (k a)) → sounds (bindM c k).
Proof.
  intros Hc Hk n Hn Hr. specialize (Hc n Hn Hr). unfold bindM. destruct (c n) as [[a|err] n']; [|done]. eapply sound_beside; [|exact Hc]. apply beside_still; apply Hk.
Qed.
Lemma sounds_catch {A} (c : M Failure Node A) h : sounds c → (∀ err, still (h err)) → sounds (catchM c h).
Proof.
  intros Hc Hh n Hn Hr. specialize (Hc n Hn Hr). unfold catchM. destruct (c n) as [[a|err] n']; [done|]. eapply sound_beside; [|exact Hc]. apply beside_still; apply Hh.
Qed.

Lemma sounds_apply_loop fuel now program : length program = 32%nat → sounds (apply_loop fuel now program).
Proof.
  intros Hl. induction fuel as [|fuel IH]; intros n Hn Hr; [by left|]. cbn [apply_loop].
  pose proof (apply_next_sound now program n Hl Hn Hr) as Hs. pose proof (quiet_apply_next now program Hl n Hn) as Hq.
  unfold bindM. destruct (apply_next now program n) as [[[]|err] n']; [apply IH; [apply Hq|done]|done|done].
Qed.

Lemma sounds_apply now program : length program = 32%nat → sounds (apply_available_finalized_transitions now program).
Proof. intros Hl. apply sounds_get. intros n _. apply sounds_before; [by apply sounds_apply_loop|done]. Qed.

#[local] Hint Resolve keeps_quiet quiet_publish quiet_ingest quiet_store_finalized quiet_publish_vote quiet_drop_pending : quiet.

Lemma sounds_finalized now b : receipt_ok (receipt (bundle_receipt b)) → sounds (handle_finalized_receipt now b).
Proof.
  intros Hb. apply sounds_get. intros n Hn. assert (leaves (store_finalized_transition b)) as Hst by (by apply leaves_write; [|apply quiet_store_finalized]).
  destruct (get_committee _ n) as [c|]; [|apply sounds_after; [done|auto with quiet|]; intros _; by apply sounds_still].
  destruct (bool_decide _); [|by apply sounds_still].
  apply sounds_after; [intros n0; apply ingest_catalog|auto with quiet|]. intros _. apply sounds_after; [done|auto with quiet|]. intros _.
  apply sounds_get. intros n' _. apply sounds_after; [apply leaves_still; intros n0; cbn; by case_match|apply keeps_quiet, quiet_aside; intros x; by case_match|].
  intros _. apply sounds_apply, Hb.
Qed.

Lemma sounds_finalize now x : receipt_ok (pending_receipt x) → sounds (finalize_transition now x).
Proof.
  intros He. unfold finalize_transition. destruct (collect_signers _ _ _ _) as [[bitmap sigs] w]. destruct (w <? _); [by apply sounds_still|].
  destruct (aggregate_signatures sigs) as [agg|]; [|by apply sounds_still]. cbn zeta. set (b := {| bundle_receipt := _ |}). intros n Hn Hr.
  pose proof (sounds_finalized now b He n Hn Hr) as Hs. destruct (handle_finalized_receipt now b n) as [res n1]. cbn in Hs |- *.
  eapply sound_beside; [|exact Hs]. by apply beside_still; destruct res, (completion x).
Qed.

Lemma sounds_maybe_finalize now rid : sounds (maybe_finalize_pending_transition now rid).
Proof.
  apply sounds_get. intros n Hn. destruct (pending n !! rid) as [x|] eqn:He; [|by apply sounds_still]. destruct (_ <? _); [by apply sounds_still|].
  apply sounds_after; [by apply leaves_still|auto with quiet|]. intros _. apply sounds_finalize. by apply (pendings_ok n Hn rid).
Qed.

Lemma sounds_vote now v : sounds (handle_state_transition_vote now v).
Proof.
  apply sounds_get. intros n Hn. destruct (pending n !! vote_receipt v) as [x|] eqn:He; [|by apply sounds_still]. cbn zeta.
  destruct (bool_decide (vote_program v = _)); [|by apply sounds_still]. destruct (vote_epoch v =? _); [|by apply sounds_still].
  destruct (find_member _ _); [|by apply sounds_still]. destruct (bool_decide (signatures x !! signer v = None)); [|by apply sounds_still].
  destruct (bls_verify _ _ _); [|by apply sounds_still]. destruct (_ <? _); [by apply sounds_still|].
  apply sounds_after; [by apply leaves_still|auto with quiet|]. intros _. apply sounds_finalize. by apply (pendings_ok n Hn _ _ He).
Qed.

Lemma sounds_head now program h : length program = 32%nat → sounds (handle_program_head now program h).
Proof.
  intros Hl. apply sounds_get. intros n Hn. cbn zeta. destruct (h <=? _); [by apply sounds_still|].
  destruct (load_finalized_transition _ _ n); [|by apply sounds_still]. apply sounds_catch; [by apply sounds_apply|done].
Qed.

Lemma sounds_manifest now m : length (manifest_program m) = 32%nat → sounds (handle_manifest_response now m).
Proof.
  intros Hl. apply sounds_get. intros n Hn. destruct (verify_initial_sync m n); [|by apply sounds_still].
  assert (quiet (modifyM (store_manifest m))) as Hq by by apply quiet_aside. apply sounds_after; [by apply leaves_write|by apply keeps_quiet|]. intros _. apply sounds_catch; [by apply sounds_apply|done].
Qed.

Lemma still_load program : still (load_last_voted program).
Proof.
  intros n. unfold load_last_voted. cbn -[take drop]. destruct (last_voted n !! program); [done|].
  destruct (voted_store (disk n) !! program); [|done]. by destruct (negb _).
Qed.

Lemma keeps_load program : keeps_catalog (load_last_voted program).
Proof.
  intros n [C1 C2 C3]. unfold load_last_voted. cbn -[take drop]. destruct (last_voted n !! program); [by split|].
  destruct (voted_store (disk n) !! program); [|by split]. by destruct (negb _); split.
Qed.
Lemma still_sign own r : still (sign_receipt own r).
Proof. intros n. unfold sign_receipt. cbn. by destruct (bls_sign _ _). Qed.
Lemma keeps_sign own r : keeps_catalog (sign_receipt own r).
Proof. intros n [C1 C2 C3]. unfold sign_receipt. cbn. by destruct (bls_sign _ _); split. Qed.
Lemma keeps_store_voted program h rid : keeps_catalog (store_last_voted program h rid).
Proof. intros n [C1 C2 C3]. by split. Qed.
Lemma leaves_store_voted program h rid : leaves (store_last_voted program h rid).
Proof.
  intros n Hn. pose proof (catalog_disk _ (keeps_store_voted program h rid n Hn)) as Hd. split; [done|]. eexists [_]. split; [done|]. by constructor.
Qed.

(** The end of both voting handlers. *)
Lemma sounds_cast {A} own r (f : bytes → Node → Node) c (k : M Failure Node A) :
  (∀ sig, still (modifyM (f sig))) → (∀ sig, quiet (modifyM (f sig))) → sounds k →
  sounds (let* sig := sign_receipt own r in do* store_last_voted (receipt_program r) (height r) (receipt_id r) in
          do* modifyM (f sig) in do* publish_vote c r sig in k).
Proof.
  intros Ha Hq Hk. apply sounds_after; [apply leaves_still, still_sign|apply keeps_sign|]. intros sig.
  apply sounds_after; [apply leaves_store_voted|apply keeps_store_voted|]. intros _. apply sounds_after; [apply leaves_still, Ha|apply keeps_quiet, Hq|]. intros _.
  apply sounds_after; [by apply leaves_still|auto with quiet|done].
Qed.

Lemma sounds_proposal now complete executed p : receipt_ok (proposed p) → sounds (handle_state_transition_proposal now complete executed p).
Proof.
  intros Hr. apply sounds_get. intros n Hn. destruct (get_committee _ n) as [c|]; [|by apply sounds_still].
  destruct (proposal_epoch p =? epoch c); [|by apply sounds_still]. destruct (leader_for_height c _) as [leader|]; [|by apply sounds_still].
  destruct (bool_decide (executor _ = leader)); [|by apply sounds_still]. destruct (find_member c _) as [me|]; [|by apply sounds_still].
  destruct (bool_decide (bls_public_key me = _)); [|by apply sounds_still]. destruct (height _ =? expected_height _ n); [|by apply sounds_still].
  destruct (bool_decide (state_root_in _ = _)); [|by apply sounds_still]. cbn zeta.
  apply sounds_after; [apply leaves_still, still_load|apply keeps_load|]. intros o.
  match goal with |- sounds (if ?b then _ else _) => destruct b; [|by apply sounds_still] end.
  destruct (bool_decide (hash_bytes _ = inputs_hash _)); [|by apply sounds_still]. destruct complete; [|by apply sounds_still].
  destruct executed as [out|]; [|by apply sounds_still]. do 4 (match goal with |- sounds (if ?b then _ else _) => destruct b; [|by apply sounds_still] end).
  apply sounds_cast; [done| |apply sounds_maybe_finalize]. intros sig.
  apply quiet_set_pending. intros n0 Hn0 k y [[<- <-]|[_ He]]%lookup_insert_Some; [|by apply (pendings_ok n0 Hn0 k)]. cbn.
  destruct (pending n0 !! receipt_id _) as [e'|] eqn:He'; [by apply (pendings_ok n0 Hn0 _ _ He')|done].
Qed.

Lemma sounds_submit now x program input : length program = 32%nat → sounds (submit_execution now x program input).
Proof.
  intros Hl. unfold submit_execution. destruct (MAX_CALDATA_SIZE <? _); [by apply sounds_still|]. apply sounds_get. intros n Hn.
  destruct (get_committee program n) as [c|]; [|by apply sounds_still].
  assert (∀ h, leaves (forwarded x c h) ∧ keeps_catalog (forwarded x c h)) as Hf.
  { intros h. split; [apply leaves_still|]; intros n0; by rewrite forwarded_state. }
  apply sounds_after; [apply Hf|apply Hf|]. intros [out|]; [by apply sounds_still|]. apply sounds_get. intros n1 Hn1. cbn zeta.
  apply sounds_after; [apply Hf|apply Hf|]. intros [out|]; [by apply sounds_still|].
  destruct (match program_size x with Some size => _ | None => _ end); [by apply sounds_still|]. destruct (negb _); [by apply sounds_still|].
  apply sounds_before; [|done]. apply sounds_get. intros n2 Hn2. destruct (local_execution x) as [out|]; [|by apply sounds_still].
  destruct (MAX_STATE_WRITES <? _); [by apply sounds_still|]. cbn zeta. destruct (find_member c _) as [me|]; [|by apply sounds_still].
  destruct (negb _); [by apply sounds_still|]. destruct (next_height_range program n1 Hn1 Hl) as (Hu & _).
  set (r := execution_receipt program input _ _ x out _).
  apply sounds_after; [by apply leaves_still|apply keeps_quiet, quiet_set_pending|].
  { intros n0 Hn0 k y [[_ <-]|[_ He]]%lookup_insert_Some; [done|by apply (pendings_ok n0 Hn0 k)]. }
  intros _. apply sounds_after; [by apply leaves_still|auto with quiet|]. intros _.
  apply (sounds_cast true r); [done| |apply sounds_catch; [apply sounds_maybe_finalize|done]]. intros sig.
  apply quiet_set_pending. intros n0 Hn0 k y [(_ & e' & He & ->)|[_ He]]%lookup_alter_Some; by apply (pendings_ok n0 Hn0 _ _ He).
Qed.


(** *** States from peers *)

Definition entry_writes (es : list (bytes * bytes)) : list StateWrite := map (λ x, (x.1, Some x.2)) es.

Lemma entries_lookup (es : list (bytes * bytes)) (m : gmap bytes bytes) (k : bytes) :
  apply_state_writes (entry_writes es) m !! k = match state_of es !! k with Some v => Some v | None => m !! k end.
Proof.
  induction es as [|[k' v] es IH] using rev_ind; [done|]. unfold entry_writes, apply_state_writes in *.
  rewrite map_app, fold_left_app, state_of_snoc. cbn [map fold_left fst snd].
  destruct (decide (k = k')) as [->|Hne]; [by rewrite !lookup_insert_eq|]. rewrite !lookup_insert_ne by done. exact IH.
Qed.

(** Texts hashed for the entries of a response and for a state the node had collide. *)
Definition response_clash (resp : StateResponse) (n : Node) : Prop :=
  ∃ d0, d0 ∈ written n ∧ clash (state_texts (state_entries resp) ++ state_texts (scoped_pairs (response_program resp) (state d0))).

(** The entries bring back the state that was committed. *)
Lemma response_accounted resp n :
  let program := response_program resp in
  (∀ c, latest_state_commitment program n = Some c → sparse_merkle_root (state_entries resp) = commit_root c) →
  length program = 32%nat → accounted cuts (written n) (disk n) →
  let n' := flushed program (entry_writes (state_entries resp)) n in accounted cuts (written n') (disk n') ∨ response_clash resp n.
Proof.
  intros program Hroot Hl Ha n'. destruct (write_state_scope program (entry_writes (state_entries resp)) (state (disk n))) as [Hin Hout].
  assert (∀ q, q ≠ program → length q = 32%nat → scope q (state (disk n')) = scope q (state (disk n))) as Hq.
  { intros q Hne Hlq. unfold n'. rewrite flushed_state. apply Hout; [lia|done]. }
  assert (∀ q, latest_in q (disk n') = latest_in q (disk n)) as Hlat by (intros q; unfold latest_in, n'; by rewrite flushed_commitments).
  assert ((∀ c, latest_in program (disk n) = Some c → commit_height c < 2 ^ 64 - 1 → ∃ d0, d0 ∈ written n ∧ root_in program d0 = commit_root c ∧
    ∀ k, scope program (state (disk n')) !! k = scope program (state d0) !! k ∨ cuts program (k, scope program (state (disk n')) !! k))
    ∨ response_clash resp n) as [Hmine|]; [|left|by right].
  - destruct (latest_in program (disk n)) as [c|] eqn:Hc; [|by left].
    destruct (decide (commit_height c < 2 ^ 64 - 1)) as [Hlt|]; [|by left; intros ? [= <-]].
    destruct (Ha program c Hl Hc Hlt) as (d0 & Hd & Hr & Hk).
    destruct (root_binding _ _ (state_entries resp) (scoped_pairs program (state d0))) as [Hcl|Hbind]; [right; by exists d0|left].
    assert (state_of (state_entries resp) = scope program (state d0)) as Hes by (apply Hbind; rewrite (Hroot c Hc); symmetry; exact Hr).
    intros ? [= <-] _. exists d0. split; [done|]. split; [done|]. intros k. unfold n'. rewrite flushed_state, Hin, entries_lookup, Hes.
    destruct (scope program (state d0) !! k) as [v|] eqn:Hv; [by left|]. rewrite <- Hv. apply Hk.
  - intros q c Hlq Hc Hlt. rewrite Hlat in Hc. destruct (decide (q = program)) as [->|Hne].
    + destruct (Hmine c Hc Hlt) as (d0 & Hd & ?). exists d0. split; [by apply flushed_past|done].
    + destruct (Ha q c Hlq Hc Hlt) as (d0 & Hd & ? & Hk). exists d0. split; [by apply flushed_past|]. split; [done|]. by rewrite Hq.
Qed.

Lemma response_sound resp n :
  e = OnStateResponse resp → length (response_program resp) = 32%nat → catalog_ok n → tracked n →
  tracked (handle_state_response resp n).2 ∨ response_clash resp n.
Proof.
  intros He Hl Hok Ht. unfold handle_state_response. cbn zeta. destruct (negb _); [|by left]. destruct (sizes_ok _ _); [|by left].
  rewrite bindM_ok with (a := n) (s' := n) by done.
  destruct (match latest_state_commitment (response_program resp) n with Some _ => _ | None => _ end) as [expected|] eqn:Hexp; [|by left].
  destruct (bool_decide (response_root resp = expected)); [|by left].
  destruct (bool_decide (sparse_merkle_root (state_entries resp) = expected)) eqn:Hes; [|by left]. apply bool_decide_eq_true in Hes.
  fold (entry_writes (state_entries resp)). rewrite flush_run. cbn [snd].
  destruct (response_accounted resp n) as [Hacc|]; [|done|apply Ht| |by right].
  - intros c Hc. rewrite Hc in Hexp. injection Hexp as <-. done.
  - left. split; [exact Hacc|]. apply flush_trail; [done|done|done|]. intros w Hw. right. by rewrite He.
Qed.

(** *** Steps *)

(** What can go wrong in a handler is a collision of texts that it hashes. *)
Definition step_clash (ev : Event) (n : Node) : Prop :=
  state_clash (step ev n) ∨ match ev with OnStateResponse resp => response_clash resp n | _ => False end.

Lemma tracked_step n : event_ok e → catalog_ok n → tracked n → tracked (step e n) ∨ step_clash e n.
Proof.
  intros He Hc Hr. unfold step_clash.
  assert (sound (step e n) ∨ match e with OnStateResponse resp => tracked (step e n) ∨ response_clash resp n | _ => False end) as [[?|?]|Hs];
    [|by left|by right; left|by destruct e; try done; destruct Hs; [left|right; right]].
  destruct e eqn:Hev; cbn [event_ok step] in *.
  - left. by apply sounds_proposal.
  - left. by apply sounds_vote.
  - left. by apply sounds_finalized.
  - left. by apply sounds_head.
  - right. by apply response_sound.
  - left. by apply sounds_manifest.
  - left. unfold handle_program_announcement. destruct (negb (is_empty _)); [|by left]. destruct (negb _); [by left|]. by apply sounds_manifest.
  - left. by apply sounds_submit.
  - left. left. by apply (tracked_beside n); [apply beside_still|].
  - left. left. by apply (tracked_beside n); [apply beside_still|].
Qed.
End Handler.

(** ** Entries stay under their keys *)

Lemma keeps_catalog_bind {A B} (c : M Failure Node A) (k : A → M Failure Node B) : keeps_catalog c → (∀ a, keeps_catalog (k a)) → keeps_catalog (bindM c k).
Proof. intros Hc Hk n Hn. specialize (Hc n Hn). unfold bindM. destruct (c n) as [[a|err] n']; [by apply Hk|done]. Qed.
Lemma keeps_catalog_get {B} (k : Node → M Failure Node B) : (∀ n, catalog_ok n → keeps_catalog (k n)) → keeps_catalog (bindM getM k).
Proof. intros Hk n Hn. cbn. by apply Hk. Qed.
Lemma keeps_catalog_ret {A} (a : A) : keeps_catalog (retM a).
Proof. by intros n. Qed.
Lemma keeps_catalog_throw {A} err : keeps_catalog (@throwM Failure Node A err).
Proof. by intros n. Qed.
#[local] Hint Resolve keeps_quiet keeps_catalog_ret keeps_catalog_throw keeps_load keeps_sign keeps_store_voted quiet_publish quiet_publish_vote quiet_maybe_finalize quiet_ret : quiet.

Lemma keeps_proposal now complete executed p : receipt_ok (proposed p) → keeps_catalog (handle_state_transition_proposal now complete executed p).
Proof.
  intros Hr. apply keeps_catalog_get. intros n Hn. destruct (get_committee _ n) as [c|]; [|auto with quiet].
  destruct (proposal_epoch p =? epoch c); [|auto with quiet]. destruct (leader_for_height c _) as [leader|]; [|auto with quiet].
  destruct (bool_decide (executor _ = leader)); [|auto with quiet]. destruct (find_member c _) as [me|]; [|auto with quiet].
  destruct (bool_decide (bls_public_key me = _)); [|auto with quiet]. destruct (height _ =? expected_height _ n); [|auto with quiet].
  destruct (bool_decide (state_root_in _ = _)); [|auto with quiet]. cbn zeta. apply keeps_catalog_bind; [auto with quiet|]. intros o.
  match goal with |- keeps_catalog (if ?b then _ else _) => destruct b; [|auto with quiet] end.
  destruct (bool_decide (hash_bytes _ = inputs_hash _)); [|auto with quiet]. destruct complete; [|auto with quiet].
  destruct executed as [out|]; [|auto with quiet]. do 4 (match goal with |- keeps_catalog (if ?b then _ else _) => destruct b; [|auto with quiet] end).
  apply keeps_catalog_bind; [auto with quiet|]. intros sig. apply keeps_catalog_bind; [auto with quiet|]. intros _.
  apply keeps_catalog_bind; [|intros _; apply keeps_catalog_bind; auto with quiet]. apply keeps_quiet, quiet_set_pending.
  intros n0 Hn0 k y [[<- <-]|[_ He]]%lookup_insert_Some; [|by apply (pendings_ok n0 Hn0 k)]. cbn.
  destruct (pending n0 !! receipt_id _) as [y'|] eqn:He'; [by apply (pendings_ok n0 Hn0 _ _ He')|done].
Qed.

Lemma keeps_submit now x program input : length program = 32%nat → keeps_catalog (submit_execution now x program input).
Proof.
  intros Hl. unfold submit_execution. destruct (MAX_CALDATA_SIZE <? _); [auto with quiet|]. apply keeps_catalog_get. intros n Hn.
  destruct (get_committee program n) as [c|]; [|apply keeps_catalog_bind; auto with quiet].
  assert (∀ h, keeps_catalog (forwarded x c h)) as Hf by (intros h n0; by rewrite forwarded_state).
  apply keeps_catalog_bind; [apply Hf|]. intros [out|]; [auto with quiet|]. apply keeps_catalog_get. intros n1 Hn1. cbn zeta.
  apply keeps_catalog_bind; [apply Hf|]. intros [out|]; [auto with quiet|].
  destruct (match program_size x with Some size => _ | None => _ end); [auto with quiet|]. destruct (negb _); [auto with quiet|].
  apply keeps_catalog_bind; [|auto with quiet]. apply keeps_catalog_get. intros n2 Hn2. destruct (local_execution x) as [out|]; [|auto with quiet].
  destruct (MAX_STATE_WRITES <? _); [auto with quiet|]. cbn zeta. destruct (find_member c _) as [me|]; [|auto with quiet].
  destruct (negb _); [auto with quiet|]. destruct (next_height_range program n1 Hn1 Hl) as (Hu & _). apply keeps_catalog_bind.
  { apply keeps_quiet, quiet_set_pending. intros n0 Hn0 k y [[_ <-]|[_ He]]%lookup_insert_Some; [done|by apply (pendings_ok n0 Hn0 k)]. }
  intros _. apply keeps_catalog_bind; [auto with quiet|]. intros _. apply keeps_catalog_bind; [auto with quiet|]. intros sig. apply keeps_catalog_bind; [auto with quiet|].
  intros _. apply keeps_catalog_bind; [|intros _; apply keeps_catalog_bind; [auto with quiet|intros _; apply keeps_quiet, quiet_catch; auto with quiet]].
  apply keeps_quiet, quiet_set_pending. intros n0 Hn0 k y [(_ & y' & He & ->)|[_ He]]%lookup_alter_Some; by apply (pendings_ok n0 Hn0 _ _ He).
Qed.

Lemma keeps_step ev n : event_ok ev → catalog_ok n → catalog_ok (step ev n).
Proof.
  intros He Hn. destruct ev; cbn [event_ok step] in *.
  - by apply keeps_proposal.
  - by apply (keeps_quiet _ (quiet_vote _ _)).
  - by apply (keeps_quiet _ (quiet_finalized now b He)).
  - by apply (keeps_quiet _ (quiet_head now program h He)).
  - by apply (keeps_quiet _ (quiet_state_response resp)).
  - by apply (keeps_quiet _ (quiet_manifest now m He)).
  - by apply (keeps_quiet _ (quiet_announcement now m He)).
  - by apply keeps_submit.
  - by apply (quiet_drop_pending rid n Hn).
  - destruct Hn as [C1 C2 C3]. by split.
Qed.

(** ** Histories *)

Definition event_of (h : Happening) : Event := match h with Handled e | Killed _ e => e end.

(** What was being written when the node was killed. *)
Definition cut (hs : list Happening) (n : Node) (program : bytes) (w : StateWrite) : Prop :=
  ∃ hs1 k e hs2, hs = hs1 ++ Killed k e :: hs2 ∧ flushing e (disk (killed k e (history hs1 n))) program w.

Lemma cut_snoc hs h n program w : cut hs n program w → cut (hs ++ [h]) n program w.
Proof. intros (hs1 & k & e & hs2 & -> & Hf). exists hs1, k, e, (hs2 ++ [h]). by rewrite <- app_assoc. Qed.

Lemma killed_sound cuts k e n :
  event_ok e → catalog_ok n → accounted cuts (written n) (disk n) →
  let n' := killed k e n in
  (catalog_ok n' ∧ accounted (λ p w, cuts p w ∨ flushing e (disk n') p w) (written n') (disk n')) ∨ step_clash e n.
Proof.
  intros He Hn Ha n'. assert (tracked cuts e (length (written n)) n) as Ht.
  { split; [done|]. intros ws1 d ws2 Hw Hl. rewrite Hw, length_app in Hl. cbn in Hl. lia. }
  destruct (tracked_step cuts e _ n He Hn Ht) as [[_ Htrail]|]; [left|by right]. unfold n', killed. set (ws := take _ (written (step e n))).
  destruct (last (drop (length (written n)) ws)) as [d|] eqn:Hlast.
  - assert (∃ ws1, ws = ws1 ++ [d] ∧ (length (written n) ≤ length ws1)%nat) as (ws1 & Hws & Hlen).
    { apply last_Some in Hlast as [l Hl]. exists (take (length (written n)) ws ++ l). rewrite <- app_assoc, <- Hl, take_drop. split; [done|].
      assert (length (drop (length (written n)) ws) = S (length l)) as Hd by (rewrite Hl, length_app; cbn; lia).
      rewrite length_drop in Hd. rewrite length_app, length_take. lia. }
    destruct (Htrail ws1 d (drop (length (written n) + k) (written (step e n)))) as [Hd Hacc]; [|done|].
    { change (d :: ?l) with ([d] ++ l). rewrite app_assoc, <- Hws. symmetry. apply take_drop. }
    split; [destruct Hd; by split|]. cbn. by rewrite Hws.
  - split; [destruct Hn as [C1 C2 C3]; by split|]. by eapply accounted_mono; [| | | |exact Ha]; auto.
Qed.

(** The committed root is that of the state. *)
Definition root_ok (n : Node) : Prop :=
  ∀ program c, length program = 32%nat → latest_state_commitment program n = Some c → commit_height c < 2 ^ 64 - 1 →
    program_root program n = commit_root c.

Lemma accounted_root n : accounted (λ _ _, False) (written n) (disk n) → root_ok n.
Proof.
  intros Ha program c Hl Hc Hlt. destruct (Ha program c Hl Hc Hlt) as (d0 & _ & <- & Hk). unfold program_root, root_in.
  f_equal. apply scoped_pairs_eq, map_eq. intros k. by destruct (Hk k).
Qed.

Lemma history_accounted n hs :
  fresh_node n → Forall (λ h, event_ok (event_of h)) hs → let m := history hs n in
  (catalog_ok m ∧ accounted (cut hs n) (written m) (disk m)) ∨ ∃ hs1 h hs2, hs = hs1 ++ h :: hs2 ∧ step_clash (event_of h) (history hs1 n).
Proof.
  intros Hf. induction hs as [|h hs IH] using rev_ind; intros He.
  - left. split; [by apply inv_fresh|]. intros program c _. unfold latest_in. cbn. by rewrite (fresh_commits n Hf).
  - apply Forall_app in He as [He Heh]. rewrite Forall_singleton in Heh. cbn zeta. unfold history. rewrite fold_left_app. cbn [fold_left]. fold (history hs n).
    destruct (IH He) as [[Hc Ha]|(hs1 & h' & hs2 & -> & Hcl)]; [|right; exists hs1, h', (hs2 ++ [h]); by rewrite <- app_assoc].
    destruct h as [e|k e]; cbn [happen event_of] in *.
    + destruct (tracked_step (cut hs n) e (length (written (history hs n))) (history hs n) Heh Hc) as [[Ha' _]|]; [| |right; by exists hs, (Handled e), []].
      * split; [done|]. intros ws1 d ws2 Hw Hl. rewrite Hw, length_app in Hl. cbn in Hl. lia.
      * left. split; [by apply keeps_step|]. eapply accounted_mono; [| | | |exact Ha']; [apply cut_snoc|done..].
    + destruct (killed_sound (cut hs n) k e (history hs n) Heh Hc Ha) as [[Hc' Ha']|]; [left|right; by exists hs, (Killed k e), []].
      split; [done|]. eapply accounted_mono; [| | | |exact Ha']; [|done..]. intros p w [Hw|Hw]; [by apply cut_snoc|]. by exists hs, k, e, [].
Qed.

End Runs.
End Kills.
