(* ===== verification/ConsensusDemo.v ===== *)
(** * A committee at work

    Nodes that run the consensus with a concrete encoding, digest and signature scheme:
    the theorems at concrete runs, and a run in which every node follows the code and
    two of them commit different states at one height. *)

From stdpp Require Import sorting.
From S2P Require Import Prelude JsValue Codec RustLib WasmHost RustModels Merkle StateStore Consensus ConsensusVotes ConsensusState ConsensusKills.

Module ConsensusDemo.
Import Rust Host RustModels Merkle Store StoreModels Consensus Votes Commits Kills.

(** ** Instances *)

Definition receipt_fields (r : ExecutionReceipt) : list bytes :=
  [receipt_program r; [height r]; state_root_in r; entrypoint (call r); calldata (call r); request_id (call r); inputs_hash r;
   [gas_used r]; state_root_out r; write_digest r; events_hash r; frame_opt (wasm_code_hash r); wasm_env_hash r; [nonce r]; executor r].

Lemma frame_opt_inj a b : frame_opt a = frame_opt b → a = b.
Proof.
  intros He. assert (unframe_opt (frame_opt a ++ []) = unframe_opt (frame_opt b ++ [])) as Hu by by rewrite He.
  rewrite !unframe_opt_frame in Hu. by injection Hu.
Qed.

Lemma write_list_inj a b : write_list a = write_list b → a = b.
Proof. intros He. assert (read_list (write_list a) = read_list (write_list b)) as Hr by by rewrite He. rewrite !read_write_list in Hr. by injection Hr. Qed.

Definition encode_write (w : StateWrite) : bytes := frame w.1 ++ frame_opt w.2.

Lemma encode_write_inj a b : encode_write a = encode_write b → a = b.
Proof.
  destruct a as [k o], b as [k' o']. unfold encode_write. cbn [fst snd]. intros He.
  assert (unframe (frame k ++ frame_opt o) = unframe (frame k' ++ frame_opt o')) as Hu by by rewrite He. rewrite !unframe_frame in Hu.
  injection Hu as -> Ho. by rewrite (frame_opt_inj _ _ Ho).
Qed.

#[local] Instance encode_write_injective : Inj (=) (=) encode_write := encode_write_inj.

Definition bincode_frames : Bincode.
Proof.
  refine {| encode_receipt r := write_list (receipt_fields r); encode_writes ws := write_list (map encode_write ws); manifest_digest m := manifest_program m |}.
  - intros [? ? ? [] ? ? ? ? ? ? ? ? ?] [? ? ? [] ? ? ? ? ? ? ? ? ?] He. apply write_list_inj in He. unfold receipt_fields in He. cbn -[frame_opt] in He.
    injection He. intros. match goal with Hx : frame_opt _ = frame_opt _ |- _ => apply frame_opt_inj in Hx end. by subst.
  - intros a b He. apply write_list_inj in He. apply (inj (fmap encode_write)). exact He.
Defined.

Definition bls_plain : Bls.
Proof.
  refine {|
    public_of sk := sk; bls_sign msg sk := Some (sk ++ msg); bls_verify msg pk sig := bool_decide (sig = pk ++ msg);
    fast_aggregate_verify msg pks sig := bool_decide (sig = concat (map (λ pk, pk ++ msg) pks));
    aggregate_signatures sigs := Some (concat sigs)
  |}.
  - intros msg sk sig [= <-]. by apply bool_decide_eq_true.
  - intros msg l _ Hl. eexists. split; [done|]. apply bool_decide_eq_true. f_equal.
    induction Hl as [|[pk sig] l Hx _ IH]; [done|]. cbn in *. apply bool_decide_eq_true in Hx. by rewrite Hx, IH.
Defined.

(** A digest that is quick to compute. *)
Definition checksum16 (bs : bytes) : Z := fold_left (λ a b, Z.land (Z.shiftl a 5 - a + b) 65535) bs 1.
Definition blake3_quick : Blake3 := λ bs, let d := checksum16 bs in concat (replicate 16 [Z.land (Z.shiftr d 8) 255; Z.land d 255]).

Lemma land_byte x : 0 ≤ Z.land x 255 ≤ 255.
Proof. assert (Z.land x 255 = x mod 256) as -> by (apply (Z.land_ones x 8); lia). pose proof (Z.mod_pos_bound x 256). lia. Qed.

Definition quick_digest : @Digest blake3_quick.
Proof.
  split; [done|]. intros x. unfold blake3, blake3_quick. generalize (checksum16 x). intros d. cbn.
  repeat (apply List.Forall_cons; [apply land_byte|]). apply List.Forall_nil.
Defined.

Definition ed_any : Ed25519 := λ _ _ _, true.

#[local] Existing Instances blake3_quick quick_digest list_iter bincode_frames bls_plain ed_any.

(** ** Three nodes *)

Definition id_of (z : Z) : bytes := replicate 32 z.
Definition member (z : Z) : CommitteeMember := {| node := id_of z; weight := 1; bls_public_key := id_of z |}.
Definition committee_of (zs : list Z) (t : Z) : CommitteeCertificate :=
  {| committee_program := pid0; epoch := 0; members := map member zs; threshold := t; committee_key := []; certificate_signature := None |}.

Definition manifest_of (c : CommitteeCertificate) : ProgramManifest :=
  {| manifest_program := pid0; deployer := id_of 1; initial_state_root := SMT_EMPTY; committee := Some c; manifest_signature := [] |}.

Definition new_node (c : CommitteeCertificate) (z : Z) : Node := {|
  keys := {| node_id := id_of z; bls_secret := id_of z; bls_public := id_of z |};
  disk := {| manifests := {[ pid0 := manifest_of c ]}; state := ∅; commitments := ∅; receipts := ∅; finalized := ∅; voted_store := ∅ |};
  last_voted := ∅; pending := ∅; versions := ∅; outbox := []; answered := []; signed := []; written := [] |}.

Lemma new_node_fresh c z : fresh_node (new_node c z).
Proof. by split. Qed.

Definition output (input : bytes) : ExecutionOutcome :=
  {| return_data := []; fuel_consumed := 1; outcome_state_writes := [(js "k", Some input)]; outcome_root := sparse_merkle_root [(js "k", input)] |}.

Definition here (input : bytes) : Circumstances := {|
  leader_answers := λ _, None; program_size := None; program_complete := true; local_entrypoint := js "call"; local_code_hash := None;
  local_execution := Some (output input) |}.

Definition two_of_three : CommitteeCertificate := committee_of [1; 2; 3] 2.

Definition no_proposal : StateTransitionProposal :=
  {| proposed := execution_receipt [] [] 0 [] (here []) (output []) []; proposal_epoch := 0; proposed_writes := [] |}.
Definition no_vote : StateTransitionVote := {| vote_program := []; vote_epoch := 0; vote_receipt := []; signer := []; vote_signature := [] |}.

Definition nth_proposal (i : nat) (ms : list Message) : StateTransitionProposal := match ms !! i with Some (Proposal p) => p | _ => no_proposal end.
Definition nth_vote (i : nat) (ms : list Message) : StateTransitionVote := match ms !! i with Some (Vote v) => v | _ => no_vote end.

Definition submit (input : bytes) : Event := Submit 0 (here input) pid0 input.

(** The leader executes one call, gives up after the timeout, and executes another. *)
Definition leader_events : list Event :=
  [submit (js "x"); OnTimeout (vote_receipt (nth_vote 1 (outbox (step (submit (js "x")) (new_node two_of_three 1))))); submit (js "y")].
Definition leader : Node := run leader_events (new_node two_of_three 1).

(** A member receives the proposal and the vote that the leader sent for a call. *)
Definition deliver (input : bytes) (p : StateTransitionProposal) (v : StateTransitionVote) : list Event :=
  [OnProposal 0 true (Some (output input)) p; OnVote 0 v].

Definition committed_at (n : Node) : option (Z * bytes) := (λ c, (commit_height c, commit_root c)) <$> latest_state_commitment pid0 n.

Definition proposal_ok (p : StateTransitionProposal) : bool :=
  (length (receipt_program (proposed p)) =? 32)%nat && (0 <=? height (proposed p)) && (height (proposed p) <? 2 ^ 64).

Lemma proposal_ok_receipt p : proposal_ok p = true → receipt_ok (proposed p).
Proof. unfold proposal_ok, receipt_ok, u64. rewrite !andb_true_iff, Nat.eqb_eq, Z.leb_le, Z.ltb_lt. tauto. Qed.

(** The messages of the leader, and the commitments of the members that receive them. *)
Definition four_messages (ms : list Message) : bool := match ms with [Proposal _; Vote _; Proposal _; Vote _] => true | _ => false end.

Definition differ (a b : option (Z * bytes)) : bool :=
  match a, b with Some (h, ra), Some (h', rb) => (h =? 1) && (h' =? 1) && negb (bool_decide (ra = rb)) | _, _ => false end.

Definition receives (ms : list Message) : option (Z * bytes) * option (Z * bytes) :=
  (committed_at (run (deliver (js "x") (nth_proposal 0 ms) (nth_vote 1 ms)) (new_node two_of_three 2)),
   committed_at (run (deliver (js "y") (nth_proposal 2 ms) (nth_vote 3 ms)) (new_node two_of_three 3))).

Definition forked (ms : list Message) : bool :=
  four_messages ms && proposal_ok (nth_proposal 0 ms) && proposal_ok (nth_proposal 2 ms) && differ (receives ms).1 (receives ms).2.

Lemma leader_forks : forked (outbox leader) = true.
Proof. vm_compute. reflexivity. Qed.

Lemma forked_inv ms :
  forked ms = true →
  ∃ px vx py vy root_x root_y,
    ms = [Proposal px; Vote vx; Proposal py; Vote vy] ∧ receipt_ok (proposed px) ∧ receipt_ok (proposed py) ∧
    committed_at (run (deliver (js "x") px vx) (new_node two_of_three 2)) = Some (1, root_x) ∧
    committed_at (run (deliver (js "y") py vy) (new_node two_of_three 3)) = Some (1, root_y) ∧ root_x ≠ root_y.
Proof.
  unfold forked. rewrite !andb_true_iff. intros [[[Hm Hx] Hy] Hd].
  destruct ms as [|[px| | | |] [|[|vx| | |] [|[py| | | |] [|[|vy| | |] [|]]]]]; try discriminate.
  apply proposal_ok_receipt in Hx, Hy. unfold receives in Hd. cbn [fst snd nth_proposal nth_vote lookup list_lookup] in Hd, Hx, Hy.
  destruct (committed_at (run (deliver (js "x") px vx) _)) as [[h1 rx]|] eqn:E1; [|discriminate].
  destruct (committed_at (run (deliver (js "y") py vy) _)) as [[h2 ry]|] eqn:E2; [|discriminate].
  cbn [differ] in Hd. rewrite !andb_true_iff, !Z.eqb_eq, negb_true_iff, bool_decide_eq_false in Hd. destruct Hd as [[-> ->] Hd].
  by exists px, vx, py, vy, rx, ry.
Qed.

(** Three nodes that only run this code, two of which are a quorum: the leader executes a
    call, gives up after the timeout and executes another at the same height, signing
    both; the second node receives its messages for the first call and the third those
    for the other, and they commit different states at height one. *)
Theorem honest_fork :
  ∃ px vx py vy root_x root_y,
    outbox (run leader_events (new_node two_of_three 1)) = [Proposal px; Vote vx; Proposal py; Vote vy] ∧
    Forall event_ok (leader_events ++ deliver (js "x") px vx ++ deliver (js "y") py vy) ∧
    committed_at (run (deliver (js "x") px vx) (new_node two_of_three 2)) = Some (1, root_x) ∧
    committed_at (run (deliver (js "y") py vy) (new_node two_of_three 3)) = Some (1, root_y) ∧ root_x ≠ root_y.
Proof.
  destruct (forked_inv _ leader_forks) as (px & vx & py & vy & rx & ry & Hm & Hx & Hy & Hrest). exists px, vx, py, vy, rx, ry.
  split; [exact Hm|]. split; [|exact Hrest]. repeat (apply List.Forall_cons; [first [exact Hx | exact Hy | done]|]). apply List.Forall_nil.
Qed.

(** ** The theorems at these nodes *)

Definition px : StateTransitionProposal := nth_proposal 0 (outbox leader).
Definition vx : StateTransitionVote := nth_vote 1 (outbox leader).
Definition py : StateTransitionProposal := nth_proposal 2 (outbox leader).

Lemma px_ok : receipt_ok (proposed px).
Proof. apply proposal_ok_receipt. vm_compute. reflexivity. Qed.
Lemma py_ok : receipt_ok (proposed py).
Proof. apply proposal_ok_receipt. vm_compute. reflexivity. Qed.

Definition on_px : Event := OnProposal 0 true (Some (output (js "x"))) px.
Definition on_py : Event := OnProposal 0 true (Some (output (js "y"))) py.

Lemma on_px_ok : event_ok on_px.
Proof. unfold on_px. cbn [event_ok]. exact px_ok. Qed.
Lemma on_py_ok : event_ok on_py.
Proof. unfold on_py. cbn [event_ok]. exact py_ok. Qed.

Lemma unowned_followers n program h : forallb (λ x, negb x.1) (signed n) = true → unowned n program h.
Proof. intros Hf r Hr. rewrite forallb_forall in Hf. apply list_elem_of_In, Hf in Hr. discriminate. Qed.

(** The member votes, restarts, is offered the other receipt and the first one again. *)
Definition voter_events : list Event := [on_px; OnRestart; on_py; on_px].
Definition voter : Node := run voter_events (new_node two_of_three 2).

Lemma voter_signed : signed voter = [(false, proposed px); (false, proposed px)].
Proof. vm_compute. reflexivity. Qed.


(** The vote commits the transition; the member is killed when it has written the state and
    not the commitment. *)
Definition killed_history : list Happening := [Handled on_px; Killed 4 (OnVote 0 vx)].


(** It keeps the state it has written, and does not apply the transition when the finalized
    receipt is delivered again. *)
Example killed_stays :
  let m := history killed_history (new_node two_of_three 2) in
  let again := history (map (λ x, Handled (OnFinalized 0 x.2)) (map_to_list (finalized (disk m)))) m in
  (bool_decide (commitments (disk m) = ∅), bool_decide (finalized (disk m) = ∅), negb (bool_decide (state (disk m) = ∅)),
   bool_decide (commitments (disk again) = ∅)) = (true, false, true, true).
Proof. vm_compute. reflexivity. Qed.

(** A member that has voted, and the transition it has pending. *)
Definition voted_node : Node := step on_px (new_node two_of_three 2).
Definition pending_x : PendingTransition :=
  default {| pending_committee := two_of_three; pending_receipt := proposed px; pending_state_writes := []; signatures := ∅; completion := false |}
    (pending voted_node !! vote_receipt vx).

Definition signatures_okb (e : PendingTransition) : bool :=
  forallb (λ m, match signatures e !! node m with Some sig => bls_verify (receipt_id (pending_receipt e)) (bls_public_key m) sig | None => true end)
    (members (pending_committee e)).

Lemma signatures_okb_ok e : signatures_okb e = true → signatures_ok e.
Proof. intros Hb m sig Hm Hs. unfold signatures_okb in Hb. rewrite forallb_forall in Hb. apply list_elem_of_In, Hb in Hm. by rewrite Hs in Hm. Qed.

Lemma two_of_three_ok : committee_ok two_of_three.
Proof.
  split; [split|..].
  - repeat (apply List.Forall_cons; [done|]). apply List.Forall_nil.
  - vm_compute. reflexivity.
  - apply (bool_decide_unpack _). vm_compute. exact I.
  - apply Nat.leb_le. vm_compute. reflexivity.
  - vm_compute. reflexivity.
Qed.

Lemma voted_catalog : catalog_ok voted_node.
Proof. unfold voted_node. destruct (votes_inv_step on_px (new_node two_of_three 2) on_px_ok (inv_fresh _ (new_node_fresh _ _))) as [Hc _]. exact Hc. Qed.

Lemma vote_commits_witness :
  ∃ n' b, handle_state_transition_vote 0 vx voted_node = (Ok tt, n') ∧ receipt (bundle_receipt b) = pending_receipt pending_x ∧
    verify_aggregated_receipt (bundle_receipt b) (pending_committee pending_x) = Ok tt ∧ (clash (bundle_texts b voted_node) ∨ committed b n').
Proof.
  apply (vote_commits 0 vx pending_x (member 1) voted_node).
  - assert (pending_committee pending_x = two_of_three) as -> by (vm_compute; reflexivity). exact two_of_three_ok.
  - exact voted_catalog.
  - vm_compute. reflexivity.
  - split; vm_compute; reflexivity.
  - apply signatures_okb_ok. vm_compute. reflexivity.
  - vm_compute. reflexivity.
  - vm_compute. reflexivity.
  - vm_compute. reflexivity.
  - vm_compute. reflexivity.
  - vm_compute. reflexivity.
  - vm_compute. reflexivity.
  - apply Z.leb_le. vm_compute. reflexivity.
Defined.

Lemma apply_ends_witness : (apply_loop (S (size (finalized (disk voted_node)))) 0 pid0 voted_node).1 ≠ Ok false.
Proof.
  apply (apply_ends 0 pid0 voted_node); [reflexivity|exact voted_catalog|]. apply Z.ltb_lt. vm_compute. reflexivity.
Defined.

Definition other_manifest : ProgramManifest :=
  {| manifest_program := id_of 9; deployer := []; initial_state_root := []; committee := Some two_of_three; manifest_signature := [] |}.

Lemma manifest_unchecked_witness :
  get_committee (id_of 9) (handle_manifest_response 0 other_manifest (new_node two_of_three 2)).2 = Some two_of_three ∧
  (handle_program_announcement 0 other_manifest (new_node two_of_three 2)).2 = new_node two_of_three 2.
Proof.
  destruct (manifest_unchecked 0 other_manifest (new_node two_of_three 2)) as [H1 H2]; [vm_compute; reflexivity|].
  split; [exact H1|apply H2; left; reflexivity].
Defined.

(** Four members, three of which are a quorum; the leader is not counted on. *)
Definition three_of_four : CommitteeCertificate := committee_of [1; 2; 3; 4] 3.
Definition p4 : StateTransitionProposal := nth_proposal 0 (outbox (step (submit (js "x")) (new_node three_of_four 1))).
Definition on_p4 : Event := OnProposal 0 true (Some (output (js "x"))) p4.

Definition followers : list bytes := map id_of [2; 3; 4].
Definition trusted (id : bytes) : bool := bool_decide (id ∈ followers).
Definition node_of (id : bytes) : Node :=
  if bool_decide (id = id_of 2) then step on_p4 (new_node three_of_four 2)
  else if bool_decide (id = id_of 3) then step on_p4 (new_node three_of_four 3) else step on_p4 (new_node three_of_four 4).

Definition receipt4 : AggregatedReceipt := {|
  receipt := proposed p4; committee_epoch := 0; signer_bitmap := [14];
  aggregate_signature := concat (map (λ pk, pk ++ receipt_id (proposed p4)) followers); aggregate_public_key := [] |}.

Lemma on_p4_ok : event_ok on_p4.
Proof. unfold on_p4. cbn [event_ok]. apply proposal_ok_receipt. vm_compute. reflexivity. Qed.

Lemma follower_signed z : z = 2 ∨ z = 3 ∨ z = 4 → signed (step on_p4 (new_node three_of_four z)) = [(false, proposed p4)].
Proof. intros [->|[->| ->]]; vm_compute; reflexivity. Qed.

Lemma node_of_run id : ∃ z, (z = 2 ∨ z = 3 ∨ z = 4) ∧ node_of id = step on_p4 (new_node three_of_four z).
Proof. unfold node_of. destruct (bool_decide _); [exists 2; auto|]. destruct (bool_decide _); [exists 3; auto|exists 4; auto]. Qed.

Lemma node_of_signed id : signed (node_of id) = [(false, proposed p4)].
Proof. destruct (node_of_run id) as (z & Hz & ->). by apply follower_signed. Qed.

Lemma node_of_follows id program h : follows (node_of id) program h.
Proof.
  split; [|apply unowned_followers; by rewrite node_of_signed]. destruct (node_of_run id) as (z & _ & ->).
  exists (new_node three_of_four z), [on_p4]. split; [apply new_node_fresh|]. split; [|reflexivity]. apply List.Forall_cons; [exact on_p4_ok|apply List.Forall_nil].
Qed.

Lemma receipt4_verifies : verify_aggregated_receipt receipt4 three_of_four = Ok tt.
Proof. vm_compute. reflexivity. Qed.

Lemma receipt4_unforged : unforged node_of trusted three_of_four receipt4.
Proof. intros keys m _ _ _ _. exists false, (proposed p4). rewrite node_of_signed. split; [left|reflexivity]. Qed.

End ConsensusDemo.
