(* ===== verification/SerdeWire.v ===== *)
(** * What serde's derived implementations read and write

    The forms of strings, numbers, options and objects in the JSON of the Rust programs,
    shared by nbook and identity_card, and the buffer their entry points answer in. *)

From S2P Require Import Prelude JsValue Codec Json RustLib.

Module Derive.
Import Rust.

(** ** Writing *)

Definition str_json (s : rstr) : value := VStr (utf8_decode s).
Definition opt_json (s : option rstr) : value := match s with Some t => str_json t | None => VNull end.
Definition strs_json (l : list rstr) : value := VArr (map str_json l).
Definition usize_json (n : nat) : value := vint (Z.of_nat n).

(** ** Reading *)

(** A string without unpaired surrogates, in UTF-8. *)
Definition as_string (v : value) : option rstr :=
  match v with
  | VStr s => if bool_decide (well_formed s = s) then Some (utf8_encode s) else None
  | _ => None
  end.

(** [usize] has 32 bits. *)
Definition as_usize (v : value) : option nat :=
  match v with VNum (NInt z) => if (0 <=? z) && (z <? 2 ^ 32) then Some (Z.to_nat z) else None | _ => None end.

Definition as_bool (v : value) : option bool := match v with VBool b => Some b | _ => None end.

Definition as_strings (v : value) : option (list rstr) := match v with VArr l => mapM as_string l | _ => None end.

(** A field that has to be there; members that are undefined are not sent. *)
Definition field {T} (f : value → option T) (fs : list (jstr * value)) (k : string) : option T :=
  match obj_get (js k) fs with Some VUndef | None => None | Some v => f v end.

(** A field of an [Option] type: missing and [null] are [None]. *)
Definition field_opt {T} (f : value → option T) (fs : list (jstr * value)) (k : string) : option (option T) :=
  match obj_get (js k) fs with Some VUndef | Some VNull | None => Some None | Some v => Some <$> f v end.

Arguments field _ _ _ _%_string.

(** A member [x: string | undefined] of a request. *)
Definition opt_str (o : option jstr) : value := match o with Some s => VStr s | None => VUndef end.

(** ** Lemmas *)

Lemma forallb_map_true {A} (g : value → bool) (f : A → value) l : (∀ x, g (f x) = true) → forallb g (map f l) = true.
Proof. intros Hf. induction l as [|x l IH]; [done|]. cbn. by rewrite Hf. Qed.

Lemma strs_conform l : conforms (TArr TStr) (strs_json l) = true.
Proof. by apply forallb_map_true. Qed.

Definition text_ok (s : jstr) : Prop := well_formed s = s.

Lemma as_string_ok s : text_ok s → as_string (VStr s) = Some (utf8_encode s).
Proof. intros Hs. cbn. by rewrite bool_decide_eq_true_2. Qed.

Lemma as_strings_ok l : Forall text_ok l → as_strings (VArr (map VStr l)) = Some (map utf8_encode l).
Proof.
  unfold as_strings. induction 1 as [|s l Hs _ IH]; [done|]. 
  change (mapM as_string (map VStr (s :: l))) with (y ← as_string (VStr s); k ← mapM as_string (map VStr l); Some (y :: k)).
  by rewrite as_string_ok, IH.
Qed.

Lemma as_usize_ok z : 0 ≤ z < 2 ^ 32 → as_usize (vint z) = Some (Z.to_nat z).
Proof. intros [K1 K2]. cbn -[Z.pow]. by rewrite (proj2 (Z.leb_le 0 z) K1), (proj2 (Z.ltb_lt z _) K2). Qed.

(** A field that is the text [s]. *)
Lemma field_str fs k s : obj_get (js k) fs = Some (VStr s) → text_ok s → field as_string fs k = Some (utf8_encode s).
Proof. intros Hk Hs. unfold field. rewrite Hk. by apply as_string_ok. Qed.

Lemma field_opt_str fs k o :
  obj_get (js k) fs = Some (opt_str o) → (∀ s, o = Some s → text_ok s) → field_opt as_string fs k = Some (utf8_encode <$> o).
Proof.
  intros Hk Ho. unfold field_opt. rewrite Hk. destruct o as [s|]; [|done]. cbn [opt_str].
  by rewrite as_string_ok by by apply Ho.
Qed.

Lemma field_usize fs k z : obj_get (js k) fs = Some (vint z) → 0 ≤ z < 2 ^ 32 → field_opt as_usize fs k = Some (Some (Z.to_nat z)).
Proof. intros Hk Hz. unfold field_opt. rewrite Hk. cbn [vint]. fold (vint z). by rewrite as_usize_ok. Qed.

(** *** Members that are undefined are not sent *)

Lemma obj_get_out {A} k (fs : list (jstr * A)) : k ∉ fs.*1 → obj_get k fs = None.
Proof.
  induction fs as [|[k' x] fs IH]; [done|]. intros [Hk Hr]%not_elem_of_cons. cbn [obj_get]. by rewrite str_eqb_neq, IH.
Qed.

Lemma obj_get_sent k fs :
  NoDup fs.*1 → obj_get k (drop_undefined fs) = match obj_get k fs with Some VUndef => None | o => o end.
Proof.
  induction fs as [|[k' v] fs IH]; [done|]. intros [Hk Hd]%NoDup_cons. cbn [drop_undefined List.filter snd]. fold (drop_undefined fs).
  destruct (str_eqb k k') eqn:E.
  - apply str_eqb_eq in E as ->. destruct v; cbn [defined obj_get]; rewrite str_eqb_refl; try done.
    by rewrite IH, obj_get_out.
  - destruct v; cbn [defined obj_get]; rewrite E; by apply IH.
Qed.

Lemma field_sent {T} (f : value → option T) fs k : NoDup fs.*1 → field f (drop_undefined fs) k = field f fs k.
Proof. intros Hd. unfold field. rewrite obj_get_sent by done. by destruct (obj_get (js k) fs) as [[]|]. Qed.

Lemma field_opt_sent {T} (f : value → option T) fs k : NoDup fs.*1 → field_opt f (drop_undefined fs) k = field_opt f fs k.
Proof. intros Hd. unfold field_opt. rewrite obj_get_sent by done. by destruct (obj_get (js k) fs) as [[]|]. Qed.

(** ** The entry points' buffer *)

(** [OUT_BUF]: a cell for a buffer behind a lock. *)
Record OutBuf : Type := {
  contents : option bytes;
  locked : bool;
}.
End Derive.
