(* ===== verification/NodeRpc.v ===== *)
(** * src/rpc: what the node answers, and what the SDK makes of it

    The bodies of the successful answers of src/rpc/mod.rs, jobs.rs and health.rs, as serde
    writes them, for each route the SDK calls, and the types src/onvm-sdk/src/types.ts
    declares for them.  Each method of the client is proved to deliver what the node
    answered; for which answers that has the declared type is decided by [fits]. *)

From S2P Require Import Prelude JsValue Codec Json Platform Models SdkErrors SdkTypes SdkAuth SdkClient SdkProps.
From S2P Require Import RustLib WasmHost RustModels Merkle StateStore UnifiedStore Consensus ConsensusDemo SerdeWire.

Module NodeRpc.
Import Errors Types Auth Client Rust Derive.

(** ** Numbers and options as serde writes them *)

Definition u64_json (z : Z) : value := vint z.
(** [NNaN] is here any number that is not finite: all of them are written as null. *)
Definition f64_json (n : num) : value := match n with NNaN => VNull | _ => VNum n end.
Definition opt_u64_json (o : option Z) : value := match o with Some z => u64_json z | None => VNull end.
Definition opt_strs_json (o : option (list rstr)) : value := match o with Some l => strs_json l | None => VNull end.
Definition obj (fs : list (string * value)) : value := VObj (map (λ f, (js f.1, f.2)) fs).

(** ** src/wasm_runtime/health.rs, src/rpc/health.rs *)

Inductive HealthStatus : Type := Ready | Degraded | Unavailable.

Record NodeCapacity : Type := {
  max_concurrent_jobs : Z;
  current_jobs : Z;
  queue_depth : Z;
  cpu_cores : Z;
  total_memory_bytes : Z;
}.

Record ResourceUsage : Type := {
  cpu_percent : num;
  memory_used_bytes : Z;
  memory_percent : num;
  active_jobs : Z;
}.

Record NodeHealth : Type := {
  status : HealthStatus;
  timestamp : Z;
  capacity : NodeCapacity;
  resources : ResourceUsage;
  version : rstr;
}.

Record NodeMetrics : Type := {
  uptime_seconds : Z;
  total_jobs_completed : Z;
  total_jobs_failed : Z;
  total_jobs_cancelled : Z;
  total_fuel_consumed : Z;
  average_execution_time_ms : num;
}.

Definition HealthStatus_json (s : HealthStatus) : value :=
  VStr (match s with Ready => js "Ready" | Degraded => js "Degraded" | Unavailable => js "Unavailable" end).

Definition NodeHealth_json (h : NodeHealth) : value := obj [
  ("status", HealthStatus_json (status h)); ("timestamp", u64_json (timestamp h));
  ("capacity", obj [
    ("max_concurrent_jobs", u64_json (max_concurrent_jobs (capacity h))); ("current_jobs", u64_json (current_jobs (capacity h)));
    ("queue_depth", u64_json (queue_depth (capacity h))); ("cpu_cores", u64_json (cpu_cores (capacity h)));
    ("total_memory_bytes", u64_json (total_memory_bytes (capacity h)))]);
  ("resources", obj [
    ("cpu_percent", f64_json (cpu_percent (resources h))); ("memory_used_bytes", u64_json (memory_used_bytes (resources h)));
    ("memory_percent", f64_json (memory_percent (resources h))); ("active_jobs", u64_json (active_jobs (resources h)))]);
  ("version", str_json (version h))]%string.

Definition NodeMetrics_json (m : NodeMetrics) : value := obj [
  ("uptime_seconds", u64_json (uptime_seconds m)); ("total_jobs_completed", u64_json (total_jobs_completed m));
  ("total_jobs_failed", u64_json (total_jobs_failed m)); ("total_jobs_cancelled", u64_json (total_jobs_cancelled m));
  ("total_fuel_consumed", u64_json (total_fuel_consumed m));
  ("average_execution_time_ms", f64_json (average_execution_time_ms m))]%string.

Definition liveness_answer (dev_mode : bool) : value := obj [
  ("alive", VBool true); ("mode", VStr (if dev_mode then js "dev" else js "prod"))]%string.

(** ** src/wasm_runtime/job.rs, src/rpc/jobs.rs *)

Inductive JobStatus : Type := Pending | Running | Completed | Failed | Cancelled | TimedOut | Expired.
Inductive LogLevel : Type := Debug | LevelInfo | Warn | Error.

Record LogEntry : Type := {
  log_timestamp : Z;
  level : LogLevel;
  message : rstr;
}.

(** The fields the endpoints read. *)
Record Job : Type := {
  job_id : bytes;
  request_id : rstr;
  job_program : bytes;
  job_state : JobStatus;
  error_message : option rstr;
  fuel_consumed : Z;
  created_at : Z;
  started_at : option Z;
  completed_at : option Z;
  retry_count : Z;
  metadata : gmap rstr rstr;
  logs : list LogEntry;
}.

(** [saturating_sub]. *)
Definition duration_ms (j : Job) : option Z :=
  match started_at j, completed_at j with Some start, Some stop => Some (Z.max 0 (stop - start)) | _, _ => None end.

Definition job_status_to_string (s : JobStatus) : rstr :=
  match s with
  | Pending => js "pending" | Running => js "running" | Completed => js "completed" | Failed => js "failed"
  | Cancelled => js "cancelled" | TimedOut => js "timed_out" | Expired => js "expired"
  end.

Definition log_level_to_string (l : LogLevel) : rstr :=
  match l with Debug => js "debug" | LevelInfo => js "info" | Warn => js "warn" | Error => js "error" end.

Definition program_text (id : bytes) : rstr := Host.PROGRAM_ID_PREFIX ++ hex_encode id.
Definition blob_text (id : bytes) : rstr := Host.BLOB_ID_PREFIX ++ hex_encode id.

Definition submit_job_answer (id : bytes) : value := obj [
  ("job_id", str_json (hex_encode id)); ("status", VStr (js "pending"))]%string.

Definition get_job_status `{Merkle.HashIter} (j : Job) : value := obj [
  ("job_id", str_json (hex_encode (job_id j))); ("request_id", str_json (request_id j));
  ("program_id", str_json (program_text (job_program j))); ("status", str_json (job_status_to_string (job_state j)));
  ("fuel_consumed", u64_json (fuel_consumed j)); ("created_at", u64_json (created_at j));
  ("started_at", opt_u64_json (started_at j)); ("completed_at", opt_u64_json (completed_at j));
  ("duration_ms", opt_u64_json (duration_ms j)); ("retry_count", u64_json (retry_count j));
  ("error_message", opt_json (error_message j));
  ("metadata", VObj (map (λ e, (utf8_decode e.1, str_json e.2)) (Merkle.into_iter (metadata j))))]%string.

Definition get_job_logs (j : Job) : value := obj [
  ("logs", VArr (map (λ l, obj [("timestamp", u64_json (log_timestamp l)); ("level", str_json (log_level_to_string (level l)));
                                ("message", str_json (message l))]) (logs j)))]%string.

Definition get_job_output (id data : bytes) : value := obj [
  ("job_id", str_json (hex_encode id)); ("output_base64", str_json (b64_encode data));
  ("size", u64_json (Z.of_nat (length data)))]%string.

Definition list_jobs (jobs : list Job) : value := obj [
  ("jobs", VArr (map (λ j, obj [
    ("job_id", str_json (hex_encode (job_id j))); ("request_id", str_json (request_id j));
    ("program_id", str_json (program_text (job_program j))); ("status", str_json (job_status_to_string (job_state j)));
    ("created_at", u64_json (created_at j)); ("completed_at", opt_u64_json (completed_at j))]) jobs));
  ("total", u64_json (Z.of_nat (length jobs)))]%string.

(** ** src/rpc/mod.rs *)

(** src/wasm_runtime/fuel_estimator.rs. *)
Record FuelEstimate : Type := {
  estimated_fuel : Z;
  confidence : num;
  based_on_samples : Z;
  input_size_bytes : Z;
  estimated_execution_time_ms : Z;
}.

Record FuelSample : Type := {
  input_size : Z;
  sample_fuel : Z;
  execution_time_ms : Z;
  sample_timestamp : Z;
}.

Record FuelProfile : Type := {
  samples : list FuelSample;
  average_fuel_per_byte : num;
  base_fuel_cost : Z;
}.

(** The fields of a program's manifest that the catalogue shows. *)
Record CatalogManifest : Type := {
  catalog_program : bytes;
  manifest_version : Z;
  initial_root : bytes;
  dag_parent : option bytes;
  code_manifest : option bytes;
  manifest_timestamp : Z;
}.

Definition create_project_answer (project : rstr) (secret : bytes) : value := obj [
  ("project_id", str_json project); ("project_secret", str_json (hex_encode secret))]%string.

Definition deploy_program_answer (id : bytes) : value := obj [("id", str_json (program_text id))]%string.

Definition program_info_answer (o : Objects.Object) (entrypoint : rstr) (blob_refs : list bytes) : value := obj [
  ("id", str_json (program_text (Objects.object_id o))); ("publisher", str_json (hex_encode (Objects.publisher o)));
  ("size", u64_json (Objects.total_size o)); ("entrypoint", str_json entrypoint);
  ("blob_refs", strs_json (map blob_text blob_refs))]%string.

(** The status of the refusals. *)
Definition program_info (d : Objects.Db) (id_hex : rstr) : outcome Z value :=
  match Store.parse_program_id_str id_hex with
  | None => Throw 400
  | Some id =>
      match Objects.get_object_metadata d id with
      | None => Throw 404
      | Some o =>
          match Objects.object_type o with
          | Objects.WasmProgram entrypoint _ _ _ blob_refs _ => Ok (program_info_answer o entrypoint blob_refs)
          | Objects.Blob _ _ => Throw 400
          end
      end
  end.

Definition execute_answer (return_data : bytes) (fuel : Z) : value := obj [
  ("return_base64", str_json (b64_encode return_data)); ("fuel", u64_json fuel)]%string.

Definition estimate_fuel_answer (e : FuelEstimate) : value := obj [
  ("estimated_fuel", u64_json (estimated_fuel e)); ("confidence", f64_json (confidence e));
  ("based_on_samples", u64_json (based_on_samples e)); ("input_size_bytes", u64_json (input_size_bytes e));
  ("estimated_execution_time_ms", u64_json (estimated_execution_time_ms e))]%string.

Definition fuel_profile_answer (program : bytes) (p : FuelProfile) : value := obj [
  ("program_id", str_json (program_text program));
  ("samples", VArr (map (λ s, obj [
    ("input_size", u64_json (input_size s)); ("fuel_consumed", u64_json (sample_fuel s));
    ("execution_time_ms", u64_json (execution_time_ms s)); ("timestamp", u64_json (sample_timestamp s))]) (samples p)));
  ("average_fuel_per_byte", f64_json (average_fuel_per_byte p)); ("base_fuel_cost", u64_json (base_fuel_cost p))]%string.

Definition list_program_catalog (ms : list CatalogManifest) : value := VArr (map (λ m, obj [
  ("program_id", str_json (program_text (catalog_program m))); ("version", u64_json (manifest_version m));
  ("initial_state_root", str_json (hex_encode (initial_root m))); ("dag_parent", opt_json (hex_encode <$> dag_parent m));
  ("code_manifest", opt_json (hex_encode <$> code_manifest m)); ("timestamp_ms", u64_json (manifest_timestamp m))]) ms)%string.

Definition program_receipts `{Blake3} `{Consensus.Bincode} (rs : list Consensus.AggregatedReceipt) : value :=
  VArr (map (λ a, let r := Consensus.receipt a in obj [
    ("program_id", str_json (program_text (Consensus.receipt_program r)));
    ("state_root_in", str_json (hex_encode (Consensus.state_root_in r)));
    ("state_root_out", str_json (hex_encode (Consensus.state_root_out r)));
    ("write_digest", str_json (hex_encode (Consensus.write_digest r))); ("gas_used", u64_json (Consensus.gas_used r));
    ("signer_bitmap", str_json (hex_encode (Consensus.signer_bitmap a)));
    ("committee_epoch", u64_json (Consensus.committee_epoch a));
    ("receipt_id", str_json (hex_encode (Consensus.receipt_id r)))]) rs)%string.

Definition program_committee (c : Consensus.CommitteeCertificate) : value := obj [
  ("program_id", str_json (program_text (Consensus.committee_program c))); ("epoch", u64_json (Consensus.epoch c));
  ("aggregate_public_key", str_json (hex_encode (Consensus.committee_key c)));
  ("members", VArr (map (λ m, obj [
    ("node", str_json (hex_encode (Consensus.node m))); ("weight", u64_json (Consensus.weight m));
    ("bls_public_key", str_json (hex_encode (Consensus.bls_public_key m)))]) (Consensus.members c)));
  ("threshold", u64_json (Consensus.threshold c))]%string.

Definition state_root_json (r : Store.StateRootResponse) : value := obj [
  ("program_id", str_json (Store.program_id r)); ("root", str_json (Store.root r));
  ("proof", opt_strs_json (Store.proof r)); ("value_hex", opt_json (Store.value_hex r))]%string.

(** ** Routes *)

(** The methods of the client that go through [request]. *)
Inductive endpoint : Type :=
| Health | Liveness | Readiness | Metrics
| CreateProject (req : value) | DeployProgram (req : value) | ProgramInfo (pid : jstr) | ExecuteProgram (req : value)
| EstimateFuel (req : value) | GetFuelProfile (pid : jstr) | ProgramReceipts (pid : jstr) | ProgramCommittee (pid : jstr)
| ProgramStateRoot (pid : jstr) (key : option jstr) | ListCatalog
| SubmitJob (req : value) | JobStatusOf (jid : jstr) | JobLogs (jid : jstr) | JobOutput (jid : jstr) | CancelJob (jid : jstr) | ListJobs.

(** A body: the text of a [Json], other text, or none. *)
Inductive payload : Type := Json (v : value) | Plain (s : jstr).

Definition given {A} (o : option A) : bool := match o with Some _ => true | None => false end.
Definition finite (n : num) : bool := match n with NNaN => false | _ => true end.

(** [answers e p fits]: the handler of the route may answer with [p]; it [fits] when no field
    that the SDK declares is null or missing. *)
Inductive answers `{Blake3} `{Merkle.HashIter} `{Consensus.Bincode} : endpoint → payload → bool → Prop :=
| answer_health : answers Health (Plain (js "ok")) false
| answer_liveness dev_mode : answers Liveness (Json (liveness_answer dev_mode)) true
| answer_readiness h : answers Readiness (Json (NodeHealth_json h)) false
| answer_metrics m : answers Metrics (Json (NodeMetrics_json m)) false
| answer_project req id secret : answers (CreateProject req) (Json (create_project_answer id secret)) true
| answer_deployed req id : answers (DeployProgram req) (Json (deploy_program_answer id)) true
| answer_info d pid id_hex v : program_info d id_hex = Ok v → answers (ProgramInfo pid) (Json v) true
| answer_executed req data fuel : answers (ExecuteProgram req) (Json (execute_answer data fuel)) true
| answer_estimate req e : answers (EstimateFuel req) (Json (estimate_fuel_answer e)) (finite (confidence e))
| answer_profile pid program p : answers (GetFuelProfile pid) (Json (fuel_profile_answer program p)) (finite (average_fuel_per_byte p))
| answer_receipts pid rs : answers (ProgramReceipts pid) (Json (program_receipts rs)) true
| answer_committee pid c : answers (ProgramCommittee pid) (Json (program_committee c)) true
| answer_state_root pid key r :
    answers (ProgramStateRoot pid key) (Json (state_root_json r)) (given (Store.proof r) && given (Store.value_hex r))
| answer_catalog ms : answers ListCatalog (Json (list_program_catalog ms)) (forallb (λ m, given (dag_parent m) && given (code_manifest m)) ms)
| answer_submitted req id : answers (SubmitJob req) (Json (submit_job_answer id)) true
| answer_status jid j :
    answers (JobStatusOf jid) (Json (get_job_status j)) (given (started_at j) && given (completed_at j) && given (error_message j))
| answer_logs jid j : answers (JobLogs jid) (Json (get_job_logs j)) true
| answer_output jid id data : answers (JobOutput jid) (Json (get_job_output id data)) true
| answer_cancelled jid : answers (CancelJob jid) (Plain []) true
| answer_jobs js : answers ListJobs (Json (list_jobs js)) (forallb (λ j, given (completed_at j)) js).

(** ** The client *)

Section Client.
Context `{Engine} `{Env} `{XChaCha}.

Definition call (e : endpoint) : M exn sdk value :=
  match e with
  | Health => health | Liveness => liveness | Readiness => readiness | Metrics => metrics
  | CreateProject req => createProject req | DeployProgram req => deployProgram req | ProgramInfo pid => getProgramInfo pid
  | ExecuteProgram req => executeProgram req | EstimateFuel req => estimateFuel req | GetFuelProfile pid => getFuelProfile pid
  | ProgramReceipts pid => getProgramReceipts pid | ProgramCommittee pid => getProgramCommittee pid
  | ProgramStateRoot pid key => getProgramStateRoot pid key | ListCatalog => listProgramCatalog
  | SubmitJob req => submitJob req | JobStatusOf jid => getJobStatus jid | JobLogs jid => getJobLogs jid
  | JobOutput jid => getJobOutput jid | CancelJob jid => cancelJob jid | ListJobs => listJobs
  end.
End Client.

(** The type types.ts declares for the result. *)
Definition declared (e : endpoint) : ty :=
  match e with
  | Health => HealthResponse | Liveness => LivenessResponse | Readiness => ReadinessResponse | Metrics => MetricsResponse
  | CreateProject _ => CreateProjectResponse | DeployProgram _ => DeployProgramResponse | ProgramInfo _ => Types.ProgramInfo
  | ExecuteProgram _ => ExecuteResponse | EstimateFuel _ => EstimateFuelResponse | GetFuelProfile _ => FuelProfileResponse
  | ProgramReceipts _ => ProgramReceiptsResponse | ProgramCommittee _ => ProgramCommitteeResponse
  | ProgramStateRoot _ _ => ProgramStateRootResponse | ListCatalog => ProgramCatalogResponse
  | SubmitJob _ => SubmitJobResponse | JobStatusOf _ => JobStatusResponse | JobLogs _ => JobLogsResponse
  | JobOutput _ => JobOutputResponse | CancelJob _ => Void | ListJobs => JobListResponse
  end.

(** The routes of src/rpc/mod.rs, jobs.rs and health.rs: method, path and the body that is sent. *)
Definition route (e : endpoint) : jstr * outcome exn jstr * value :=
  let get path := (js "GET", Ok path, VUndef) in
  let post path body := (js "POST", Ok path, body) in
  match e with
  | Health => get (js "/health") | Liveness => get (js "/health/liveness")
  | Readiness => get (js "/health/readiness") | Metrics => get (js "/health/metrics")
  | CreateProject req => post (js "/rpc-auth/projects") req
  | DeployProgram req => post (js "/programs") req
  | ProgramInfo pid => get (js "/programs/" ++ pid)
  | ExecuteProgram req => post (js "/execute") req
  | EstimateFuel req => post (js "/estimate-fuel") req
  | GetFuelProfile pid => get (js "/fuel-profile/" ++ pid)
  | ProgramReceipts pid => get (js "/programs/" ++ pid ++ js "/receipts")
  | ProgramCommittee pid => get (js "/programs/" ++ pid ++ js "/committee")
  | ProgramStateRoot pid (Some (c :: key)) =>
      (js "GET", let! k := encodeURIComponent (c :: key) in Ok (js "/programs/" ++ pid ++ js "/state-root?key=" ++ k), VUndef)
  | ProgramStateRoot pid _ => get (js "/programs/" ++ pid ++ js "/state-root")
  | ListCatalog => get (js "/program-catalog")
  | SubmitJob req => post (js "/jobs") req
  | JobStatusOf jid => get (js "/jobs/" ++ jid)
  | JobLogs jid => get (js "/jobs/" ++ jid ++ js "/logs")
  | JobOutput jid => get (js "/jobs/" ++ jid ++ js "/output")
  | CancelJob jid => post (js "/jobs/" ++ jid ++ js "/cancel") VUndef
  | ListJobs => get (js "/jobs")
  end.

(** What the caller gets for a body: lists are wrapped, and nothing comes of a cancellation. *)
Definition delivered (e : endpoint) (v : value) : value :=
  match e with
  | ProgramReceipts _ => VObj [(js "receipts", v)]
  | ListCatalog => VObj [(js "catalog", v)]
  | CancelJob _ => VUndef
  | _ => v
  end.

Section Agreement.
Context `{Engine} `{Env} `{XChaCha}.

(** The text of a response is that of the body; [serde_json] writes JSON. *)
Definition written (p : payload) (text : jstr) : Prop :=
  match p with Json v => json_parse text = Ok v | Plain s => text = s end.

Definition typed_as (t : ty) (o : outcome exn value) : bool := match o with Ok v => conforms t v | Throw _ => false end.

(** A request in dev mode, whatever the text of the answer. *)
Lemma request_dev_text method path body s resp t :
  detectedNodeMode (client s) = Some dev → (∀ rq, server (sent (wd s)) rq = Ok resp) → rs_ok resp = true → rs_text resp = Ok t →
  request method path body [] s
  = (catch_request (rpcUrl (client s) ++ path) (parse_or_empty t),
     clear_timer (after_fetch (rpc_message (client s) method path (body_text body) json_content) (arm_timer s))).
Proof.
  intros Hm Hsrv Hok Ht. rewrite (request_unsigned _ _ _ _ _ _ Hm) by auto. rewrite Hsrv. unfold handle_response. rewrite Ht, Hok. done.
Qed.

Lemma call_route e path method body s :
  route e = (method, Ok path, body) →
  call e s = let '(o, s') := request method path body [] s in (let! v := o in Ok (delivered e v), s').
Proof.
  intros Hr.
  assert (∀ m p b, request m p b [] s = let '(o, s') := request m p b [] s in (let! v := o in Ok v, s')) as Hid.
  { intros. by destruct (request _ _ _ _ _) as [[] ?]. }
  destruct e as [| | | | | | | | | | | |pid [[|c key]|]| | | | | | |]; cbn in Hr;
    try (injection Hr as <- <- <-; cbn [call delivered];
         first [apply Hid | unfold getProgramReceipts, listProgramCatalog, cancelJob, bindM, GET, POST; by destruct (request _ _ _ _ _) as [[] ?]]).
  injection Hr as <- Hp <-. cbn [call delivered]. unfold getProgramStateRoot, state_root_path, bindM, liftM.
  destruct (encodeURIComponent (c :: key)) as [k|]; [|done]. cbn [outcome_bind] in *. injection Hp as <-. apply Hid.
Qed.

Lemma parse_written v t : json_parse t = Ok v → parse_or_empty t = Ok v.
Proof. by destruct t. Qed.
End Agreement.

(** ** Types *)

Lemma arr_conforms_if {A} t (f : A → value) (b : A → bool) l :
  (∀ x, conforms t (f x) = b x) → conforms (TArr t) (VArr (map f l)) = forallb b l.
Proof. intros Hf. induction l as [|x l IH]; [done|]. cbn [map conforms forallb] in *. by rewrite Hf, IH. Qed.

Lemma arr_conforms {A} t (f : A → value) l : (∀ x, conforms t (f x) = true) → conforms (TArr t) (VArr (map f l)) = true.
Proof. apply forallb_map_true. Qed.

Lemma profile_conforms program p : conforms FuelProfileResponse (fuel_profile_answer program p) = finite (average_fuel_per_byte p).
Proof.
  set (ss := VArr (map (λ s, obj [("input_size"%string, u64_json (input_size s)); ("fuel_consumed"%string, u64_json (sample_fuel s));
    ("execution_time_ms"%string, u64_json (execution_time_ms s)); ("timestamp"%string, u64_json (sample_timestamp s))]) (samples p))).
  transitivity (conforms (TArr Types.FuelSample) ss && finite (average_fuel_per_byte p)).
  - unfold fuel_profile_answer. by destruct (average_fuel_per_byte p).
  - unfold ss. by rewrite arr_conforms.
Qed.

Lemma info_conforms d id_hex v : program_info d id_hex = Ok v → conforms Types.ProgramInfo v = true.
Proof.
  unfold program_info. destruct (Store.parse_program_id_str id_hex); [|done]. destruct (Objects.get_object_metadata d _) as [o|]; [|done].
  destruct (Objects.object_type o) as [|entrypoint ? ? ? refs ?]; [done|]. intros [= <-].
  transitivity (conforms (TArr TStr) (strs_json (map blob_text refs)) && true); [reflexivity|]. by rewrite strs_conform.
Qed.

Lemma catalog_conforms ms :
  conforms ProgramCatalogResponse (VObj [(js "catalog", list_program_catalog ms)])
  = forallb (λ m, given (dag_parent m) && given (code_manifest m)) ms.
Proof.
  transitivity (conforms (TArr Types.CatalogEntry) (list_program_catalog ms) && true); [reflexivity|]. rewrite andb_true_r.
  apply arr_conforms_if. intros [p v r [a|] [b|] t]; reflexivity.
Qed.

Lemma metadata_conforms (l : list (bytes * rstr)) : conforms (TDict TStr) (VObj (map (λ e, (utf8_decode e.1, str_json e.2)) l)) = true.
Proof. cbn [conforms]. induction l as [|x l IH]; [done|]. cbn [map forallb]. by rewrite IH. Qed.

Lemma status_conforms `{Merkle.HashIter} j :
  conforms Types.JobStatusResponse (get_job_status j) = given (started_at j) && given (completed_at j) && given (error_message j).
Proof.
  transitivity (given (started_at j) && (given (completed_at j) && (given (duration_ms j) && (given (error_message j)
    && (conforms (TDict TStr) (VObj (map (λ e, (utf8_decode e.1, str_json e.2)) (Merkle.into_iter (metadata j)))) && true))))).
  - unfold get_job_status. destruct (started_at j), (completed_at j), (duration_ms j), (error_message j); reflexivity.
  - rewrite metadata_conforms. unfold duration_ms. by destruct (started_at j), (completed_at j), (error_message j).
Qed.

Lemma jobs_conform js : conforms Types.JobListResponse (list_jobs js) = forallb (λ j, given (completed_at j)) js.
Proof.
  rewrite <- (andb_true_r (forallb _ _)). unfold list_jobs. erewrite <- (arr_conforms_if Types.JobSummary); [reflexivity|].
  intros [? ? ? ? ? ? ? ? [?|] ? ? ?]; reflexivity.
Qed.

Lemma conforms_answer `{Blake3} `{Merkle.HashIter} `{Consensus.Bincode} e v fits :
  answers e (Json v) fits → conforms (declared e) (delivered e v) = fits.
Proof.
  inversion 1; subst; cbn [declared delivered]; try reflexivity.
  - by eapply info_conforms.
  - match goal with x : FuelEstimate |- _ => by destruct x as [? [] ? ? ?] end.
  - apply profile_conforms.
  - transitivity (conforms (TArr Types.AggregatedReceipt) (program_receipts rs) && true); [reflexivity|]. rewrite andb_true_r. by apply arr_conforms.
  - transitivity (conforms (TArr Types.CommitteeMember) (VArr (map (λ m, obj [
      ("node"%string, str_json (hex_encode (Consensus.node m))); ("weight"%string, u64_json (Consensus.weight m));
      ("bls_public_key"%string, str_json (hex_encode (Consensus.bls_public_key m)))]) (Consensus.members c))) && true); [reflexivity|].
    rewrite andb_true_r. by apply arr_conforms.
  - destruct r as [? ? [l|] o]; [|reflexivity].
    transitivity (conforms (TArr TStr) (strs_json l) && given o); [by destruct o|]. by rewrite strs_conform.
  - apply catalog_conforms.
  - apply status_conforms.
  - transitivity (conforms (TArr Types.LogEntry) (VArr (map (λ l, obj [("timestamp"%string, u64_json (log_timestamp l));
      ("level"%string, str_json (log_level_to_string (level l))); ("message"%string, str_json (message l))]) (logs j))) && true); [reflexivity|].
    rewrite andb_true_r. by apply arr_conforms.
  - apply jobs_conform.
Qed.

Section Endpoints.
Context `{Engine} `{Env} `{XChaCha} `{Blake3} `{Merkle.HashIter} `{Consensus.Bincode}.

End Endpoints.

(** ** An instance *)

Definition a_job : Job := {|
  job_id := replicate 32 7; request_id := js "r1"; job_program := replicate 32 9; job_state := Running; error_message := None;
  fuel_consumed := 0; created_at := 5; started_at := Some 6; completed_at := None; retry_count := 0;
  metadata := {[ js "k" := js "v" ]}; logs := [] |}.

End NodeRpc.
