(* ===== verification/GoLib.v ===== *)
(** * What the Go program uses of its standard library

    [encoding/json] into structs, [encoding/base64] and [strings], for
    wasm_programs/school_management/main.go.  Go strings are byte sequences; a slice is
    [None] when it is nil. *)

From S2P Require Import Prelude JsValue Codec Json RustLib.

Module Go.

(** ** encoding/json

    A document is decoded to a tree first; [VUndef] does not occur in it. *)

(** Names of members match up to case; two characters outside of ASCII have an ASCII
    letter as their simplest form. *)
Definition fold_unit (c : Z) : Z :=
  if (65 <=? c) && (c <=? 90) then c + 32 else if c =? 8490 then 107 else if c =? 383 then 115 else c.

(** The member for a field; a missing one is like [null].  Objects with two members
    whose names are the same up to case do not occur. *)
Fixpoint member (name : jstr) (fs : list (jstr * value)) : value :=
  match fs with
  | [] => VNull
  | (k, v) :: r => if str_eqb (map fold_unit k) name then v else member name r
  end.

(** Into a [string], an [int] of 32 bits and a [[]string]; [None] is an
    [UnmarshalTypeError].  Unpaired surrogates become U+FFFD. *)
Definition decode_string (v : value) : option bytes :=
  match v with VStr s => Some (utf8_encode s) | VNull => Some [] | _ => None end.

Definition decode_int (v : value) : option Z :=
  match v with
  | VNum (NInt z) => if (- 2 ^ 31 <=? z) && (z <? 2 ^ 31) then Some z else None
  | VNull => Some 0
  | _ => None
  end.

Definition decode_strings (v : value) : option (option (list bytes)) :=
  match v with
  | VNull => Some None
  | VArr l => Some <$> mapM decode_string l
  | _ => None
  end.

(** Into a struct, from its members. *)
Definition decode_struct {T} (fields : list (jstr * value) → option T) (v : value) : option T :=
  match v with VNull => fields [] | VObj fs => fields fs | _ => None end.

(** Valid UTF-8, as every decoded string is. *)
Definition valid (s : bytes) : Prop := ∃ t, unit_str t ∧ s = utf8_encode t.

Lemma valid_bytes s : valid s → byte_list s.
Proof. intros (t & Ht & ->). by apply utf8_encode_bytes. Qed.

(** A decoded tree: its strings are of code units. *)
Inductive tree : value → Prop :=
| tree_null : tree VNull
| tree_bool b : tree (VBool b)
| tree_num n : tree (VNum n)
| tree_str s : unit_str s → tree (VStr s)
| tree_arr l : Forall tree l → tree (VArr l)
| tree_obj fs : Forall (λ f, tree f.2) fs → tree (VObj fs).

Lemma tree_member name fs : tree (VObj fs) → tree (member name fs).
Proof.
  inversion_clear 1 as [| | | | |? Hfs]. induction Hfs as [|[k v] fs Hv _ IH]; cbn [member]; [constructor|]. by destruct (str_eqb _ _).
Qed.

Lemma decode_string_valid v s : tree v → decode_string v = Some s → valid s.
Proof.
  intros Hv Hs. destruct v; try done; cbn in Hs; injection Hs as <-; [by exists []; split; [constructor|]|].
  inversion_clear Hv. by eexists.
Qed.

Lemma decode_strings_valid v o : tree v → decode_strings v = Some o → Forall valid (default [] o).
Proof.
  intros Hv Ho. destruct v as [| | | | |l|]; try done; cbn in Ho; [injection Ho as <-; constructor|].
  destruct (mapM decode_string l) as [k|] eqn:Hk; [|done]. injection Ho as <-. apply mapM_Some in Hk. inversion_clear Hv as [| | | |? Hl|].
  cbn. induction Hk as [|v s l k Hs _ IH]; constructor; inversion_clear Hl; [by eapply decode_string_valid|auto].
Qed.

Lemma decode_struct_tree {T} (P : T → Prop) (fields : list (jstr * value) → option T) v x :
  (∀ fs, tree (VObj fs) → fields fs = Some x → P x) → tree v → decode_struct fields v = Some x → P x.
Proof. intros Hf Hv Hx. destruct v; try done; cbn in Hx; eapply Hf; try done. by repeat constructor. Qed.

(** [json.Marshal] and [json.Unmarshal] of a type: what was written is read back, where
    the strings are valid UTF-8. *)
Class GoJson (T : Type) (ok : T → Prop) : Type := {
  marshal : T → bytes;
  unmarshal : bytes → outcome bytes T;
  unmarshal_marshal : ∀ x, ok x → unmarshal (marshal x) = Ok x;
  marshal_filled : ∀ x, marshal x ≠ [];
}.

(** The texts of the library's errors, of decoding a value into a type and of decoding
    base64. *)
Class GoErrors : Type := {
  type_error : string → value → bytes;
  base64_error : bytes → bytes;
}.

(** ** encoding/base64 *)

(** [StdEncoding.DecodeString]: line breaks are skipped, padding is required. *)
Definition DecodeString (s : bytes) : option bytes :=
  let s := filter (λ c, c ≠ 10 ∧ c ≠ 13) s in
  if Z.of_nat (length s) mod 4 =? 0 then b64_groups <$> mapM b64_val (strip_padding s) else None.

Lemma DecodeString_encode bs : byte_list bs → DecodeString (b64_encode bs) = Some bs.
Proof.
  intros Hb. unfold DecodeString. assert (filter (λ c, c ≠ 10 ∧ c ≠ 13) (b64_encode bs) = b64_encode bs) as ->.
  { rewrite b64_encode_split. assert (∀ l : bytes, Forall (λ c, c ≠ 10 ∧ c ≠ 13) l → filter (λ c, c ≠ 10 ∧ c ≠ 13) l = l) as Hall.
    { induction 1 as [|c l Hc _ IH]; [done|]. by rewrite filter_cons, decide_True, IH. }
    apply Hall, Forall_app. split; [|unfold b64_padding; by apply Forall_replicate].
    eapply Forall_impl; [by apply b64_chars_plain|]. intros c (v & _ & _ & _ & Hs)%b64_plain_inv.
    split; intros ->; by cbn in Hs. }
  rewrite length_b64_encode, Nat2Z.inj_mul, (Z.mul_comm (Z.of_nat 4)). change (Z.of_nat 4) with 4. rewrite Z.mod_mul by done.
  rewrite Z.eqb_refl, strip_padding_encode by done.
  assert (mapM b64_val (b64_char <$> b64_sextets bs) = Some (b64_sextets bs)) as ->.
  { apply mapM_Some. pose proof (b64_sextets_range bs Hb) as Hr. induction Hr; constructor; auto using b64_val_char. }
  cbn. by rewrite b64_groups_sextets.
Qed.

Lemma b64_filled bs : bs ≠ [] → b64_encode bs ≠ [].
Proof.
  intros Hb He. pose proof (length_b64_encode bs) as Hl. rewrite He in Hl. destruct bs as [|b bs]; [done|]. cbn [length] in Hl.
  pose proof (Nat.div_str_pos (S (length bs) + 2) 3). lia.
Qed.

(** ** strings *)

Lemma split_single sep (w : bytes) : sep ∉ w → split_on sep w = [w].
Proof.
  induction w as [|c w IH]; [done|]. intros [Hc Hw]%not_elem_of_cons. cbn [split_on]. rewrite IH by done.
  by rewrite (proj2 (Z.eqb_neq c sep)) by done.
Qed.

Lemma split_word sep (w r : bytes) : sep ∉ w → split_on sep (w ++ sep :: r) = w :: split_on sep r.
Proof.
  induction w as [|c w IH]; cbn [app split_on]; [by rewrite Z.eqb_refl|]. intros [Hc Hw]%not_elem_of_cons. rewrite IH by done.
  by rewrite (proj2 (Z.eqb_neq c sep)) by done.
Qed.

(** [strings.Split] undoes [strings.Join] on words without the separator. *)
Lemma split_join sep (l : list bytes) : l ≠ [] → Forall (λ w, sep ∉ w) l → split_on sep (join [sep] l) = l.
Proof.
  induction l as [|w l IH]; [done|]. intros _ [Hw Hl]%Forall_cons. destruct l as [|x l]; [by apply split_single|].
  change (join [sep] (w :: x :: l)) with (w ++ sep :: join [sep] (x :: l)). by rewrite split_word, IH.
Qed.
End Go.
