(* ===== verification/IdentityProgram.v ===== *)
(** * wasm_programs/identity_card/src/lib.rs: the identity program

    A registry of identities, each with a card as an SVG image.  An execution runs in
    a fresh instance of the program, so that the program's static counter starts at
    zero; a panic ends it without an answer and without effect. *)

From Stdlib Require Import SpecFloat.
From S2P Require Import Prelude JsValue Codec RustLib WasmHost.

Module Registry.
Import Rust Host.

(** ** Requests, responses and records *)

Inductive Request : Type :=
| Register (name email : rstr) (bio avatar_url theme : option rstr)
| GetProfile (id : rstr)
| UpdateProfile (id : rstr) (name email bio avatar_url theme : option rstr)
| GetCard (id : rstr) (format : option rstr)
| ListAll
| Stats.

Record Identity : Type := {
  id : rstr;
  name : rstr;
  email : rstr;
  bio : option rstr;
  avatar_url : option rstr;
  theme : rstr;
  created_at : Z;
  updated_at : Z;
  checksum : rstr;
}.

Record IdentitySummary : Type := {
  s_id : rstr;
  s_name : rstr;
  s_email : rstr;
  s_theme : rstr;
  s_created_at : Z;
}.

Inductive Response : Type :=
| OkRegister (id : rstr) (identity : Identity) (card_svg : rstr)
| OkProfile (identity : Identity)
| OkUpdate (id : rstr) (identity : Identity)
| OkCard (id format card_svg : rstr)
| OkList (identities : list IdentitySummary) (total : nat)
| OkStats (total_identities total_storage_bytes : nat) (merkle_root : rstr)
| RespErr (message : rstr).

(** ** An instance of the program *)

Inductive fault : Type :=
| Fail (message : rstr)
| Panic.

Record instance : Type := {
  host : ExecutionContext;
  counter : Z;
}.

Section Program.
Context `{NodeHost} `{Blake3} `{Lowercase} `{Uppercase} `{Serde Identity} `{Serde (list rstr)}.

Abbreviation Res := (M fault instance).

Definition fail {A} (message : rstr) : Res A := throwM (Fail message).

(** [s[..n]] and [s[n..]]. *)
Definition slice_to (n : nat) (s : rstr) : Res rstr := if is_char_boundary s n then retM (take n s) else throwM Panic.
Definition slice_from (n : nat) (s : rstr) : Res rstr := if is_char_boundary s n then retM (drop n s) else throwM Panic.

Definition current_timestamp : Res Z := λ i,
  (Ok (1734000000 + (counter i + 1)), {| host := host i; counter := counter i + 1 |}).

(** ** The state *)

Definition state_put (k value : bytes) : Res () := λ i,
  let '(rc, c) := onvm_state_put k value (host i) in
  ((if rc =? 0 then Ok tt else Throw (Fail (js "state put failed: " ++ Z_to_str rc))), {| host := c; counter := counter i |}).

(** [for _ in 0..rounds] with the capacity of the buffer. *)
Fixpoint resize_loop (rounds : nat) (k : bytes) (cap : Z) : Res bytes :=
  match rounds with
  | 0%nat => fail (js "unable to fetch value")
  | S rounds' => λ i,
      let '(len, buf) := onvm_state_get k cap (host i) in
      if len =? 0 then (Throw (Fail (js "key not found")), i)
      else if 0 <? len then (Ok buf, i)
      else resize_loop rounds' k (- len) i
  end.

Definition state_get_with_resize (k : bytes) : Res bytes := resize_loop 5 k 2048.

(** [if let Ok(x) = c]: a failure is no panic. *)
Definition try_ok {A} (c : Res A) : Res (option A) :=
  catchM (let* a := c in retM (Some a)) (λ e, match e with Fail _ => retM None | Panic => throwM Panic end).

Definition identity_key (id : rstr) : rstr := js "identity:" ++ id.

Definition IDENTITY_INDEX_KEY : rstr := js "__identity_index".

Definition identity_exists (id : rstr) : Res bool :=
  let* o := try_ok (state_get_with_resize (identity_key id)) in
  retM (match o with Some _ => true | None => false end).

Definition save_identity (identity : Identity) : Res () := state_put (identity_key (id identity)) (to_vec identity).

(** [from_slice(&data).map_err(|e| format!(...))]. *)
Definition parse {T} `{Serde T} (what : string) (data : bytes) : Res T :=
  match from_slice data with
  | Ok x => retM x
  | Throw e => fail (js what ++ e)
  end.

Definition load_identity (id : rstr) : Res Identity :=
  let* data := state_get_with_resize (identity_key id) in
  parse "deserialize identity: " data.

Definition load_identity_index : Res (list rstr) :=
  let* o := try_ok (state_get_with_resize IDENTITY_INDEX_KEY) in
  match o with
  | Some data => if is_empty data then retM [] else parse "deserialize index: " data
  | None => retM []
  end.

Definition add_to_identity_index (id : rstr) : Res () :=
  let* ids := load_identity_index in
  if contains ids id then retM tt else state_put IDENTITY_INDEX_KEY (to_vec (ids ++ [id])).

(** ** Checks and hashes *)

Definition validate_email (email : rstr) : Res () :=
  if is_empty email || negb (existsb (Z.eqb 64) email) || (320 <? length email)%nat then fail (js "invalid email format")
  else retM tt.

Definition validate_name (name : rstr) : Res () :=
  if is_empty name || (100 <? length name)%nat then fail (js "name must be 1-100 characters") else retM tt.

Definition generate_identity_id (name email : rstr) : Res rstr :=
  let* now := current_timestamp in
  retM (hex_encode (take 16 (blake3 (name ++ email ++ to_le_bytes 8 now)))).

Definition blake3_hex (data : bytes) : rstr := hex_encode (blake3 data).

(** The bytes an identity's checksum is of. *)
Definition checksum_input (i : Identity) : bytes :=
  id i ++ name i ++ email i ++ default [] (bio i) ++ default [] (avatar_url i) ++ theme i
  ++ to_le_bytes 8 (created_at i) ++ to_le_bytes 8 (updated_at i).

Definition calculate_identity_checksum (i : Identity) : Identity :=
  {| id := id i; name := name i; email := email i; bio := bio i; avatar_url := avatar_url i; theme := theme i;
     created_at := created_at i; updated_at := updated_at i; checksum := blake3_hex (checksum_input i) |}.

(** ** The card *)

(** A literal; a backquote stands for a double quote. *)
Definition lit (s : string) : rstr := map (λ c, if c =? 96 then 34 else c) (js s).
Arguments lit _%_string.

Definition escape_xml (text : rstr) : rstr :=
  replace_char 39 (js "&apos;") (replace_char 34 (js "&quot;") (replace_char 62 (js "&gt;")
    (replace_char 60 (js "&lt;") (replace_char 38 (js "&amp;") text)))).

Definition truncate_text (text : rstr) (max_len : nat) : Res rstr :=
  if (length text <=? max_len)%nat then retM text
  else let* start := slice_to (max_len - 3) text in retM (start ++ js "...").

Definition format_timestamp (ts : Z) : rstr :=
  let years_since_2023 := Z.max 0 (ts - 1672531200) / 31536000 in
  if years_since_2023 =? 0 then js "Recently"
  else if years_since_2023 =? 1 then js "1 year ago"
  else Z_to_str years_since_2023 ++ js " years ago".

(** Background, text and accent. *)
Definition get_theme_colors (theme : rstr) : rstr * rstr * rstr :=
  let t := str_to_lowercase theme in
  if str_eqb t (js "blue") then (js "#1e3a8a", js "#ffffff", js "#60a5fa")
  else if str_eqb t (js "purple") then (js "#581c87", js "#ffffff", js "#a78bfa")
  else if str_eqb t (js "green") then (js "#14532d", js "#ffffff", js "#4ade80")
  else if str_eqb t (js "red") then (js "#7f1d1d", js "#ffffff", js "#f87171")
  else if str_eqb t (js "orange") then (js "#7c2d12", js "#ffffff", js "#fb923c")
  else if str_eqb t (js "pink") then (js "#831843", js "#ffffff", js "#f472b6")
  else if str_eqb t (js "dark") then (js "#0f172a", js "#ffffff", js "#64748b")
  else if str_eqb t (js "light") then (js "#f8fafc", js "#0f172a", js "#3b82f6")
  else (js "#1e3a8a", js "#ffffff", js "#60a5fa").

(** [u8::from_str_radix(s, 16).unwrap_or(0)] of two digits. *)
Definition hex_byte (s : rstr) : Z := match hex_strict s with Some [b] => b | _ => 0 end.

(** The literal [0.7] as [f32]. *)
Definition f32_0_7 : spec_float := S754_finite false 11744051 (-24).

(** [(x as f32 * 0.7) as u8] and its two digits. *)
Definition darken (x : Z) : rstr := hex_encode [f32_as_u8 (f32_mul (f32_of_Z x) f32_0_7)].

Definition darken_color (color : rstr) : rstr :=
  if starts_with (js "#") color && (length color =? 7)%nat then
    js "#" ++ darken (hex_byte (take 2 (drop 1 color))) ++ darken (hex_byte (take 2 (drop 3 color)))
    ++ darken (hex_byte (take 2 (drop 5 color)))
  else color.

Definition avatar_element (i : Identity) (bg accent : rstr) : rstr :=
  match avatar_url i with
  | Some url => lit "<image x=`20` y=`20` width=`80` height=`80` href=`" ++ escape_xml url ++ lit "` clip-path=`url(#avatar-clip)` />"
  | None =>
      lit "<rect x=`20` y=`20` width=`80` height=`80` rx=`40` fill=`" ++ accent ++ lit "` />
            <text x=`60` y=`70` font-family=`Arial, sans-serif` font-size=`36` fill=`" ++ bg ++ lit "` text-anchor=`middle`>"
      ++ match first_char (name i) with Some c => char_to_uppercase c | None => js "?" end ++ lit "</text>"
  end.

Definition short_id (s : rstr) : Res rstr :=
  if (12 <? length s)%nat then
    let* first := slice_to 6 s in
    let* last := slice_from (length s - 6) s in
    retM (first ++ js "..." ++ last)
  else retM s.

Definition card_text (i : Identity) (bio_text id_short checksum_start : rstr) : rstr :=
  let '(bg, text, accent) := get_theme_colors (theme i) in
  lit "<svg xmlns=`http://www.w3.org/2000/svg` viewBox=`0 0 400 250` width=`400` height=`250`>
  <defs>
    <linearGradient id=`bg-gradient` x1=`0%` y1=`0%` x2=`100%` y2=`100%`>
      <stop offset=`0%` style=`stop-color:" ++ bg ++ lit ";stop-opacity:1` />
      <stop offset=`100%` style=`stop-color:" ++ darken_color bg ++ lit ";stop-opacity:1` />
    </linearGradient>
    <clipPath id=`avatar-clip`>
      <circle cx=`60` cy=`60` r=`40` />
    </clipPath>
  </defs>
  
  <rect width=`400` height=`250` fill=`url(#bg-gradient)` rx=`15` />
  
  <rect x=`10` y=`10` width=`380` height=`230` fill=`none` stroke=`" ++ accent ++ lit "` stroke-width=`2` rx=`12` opacity=`0.3` />
  
  " ++ avatar_element i bg accent ++ lit "
  
  <text x=`120` y=`45` font-family=`Arial, sans-serif` font-size=`24` font-weight=`bold` fill=`" ++ text ++ lit "`>"
  ++ escape_xml (name i) ++ lit "</text>
  <text x=`120` y=`70` font-family=`Arial, sans-serif` font-size=`14` fill=`" ++ text ++ lit "` opacity=`0.9`>"
  ++ escape_xml (email i) ++ lit "</text>
  <text x=`120` y=`90` font-family=`Arial, sans-serif` font-size=`11` fill=`" ++ text ++ lit "` opacity=`0.7`>ID: "
  ++ escape_xml id_short ++ lit "</text>
  
  <rect x=`20` y=`120` width=`360` height=`1` fill=`" ++ text ++ lit "` opacity=`0.3` />
  
  <text x=`20` y=`145` font-family=`Arial, sans-serif` font-size=`12` font-weight=`bold` fill=`" ++ text ++ lit "` opacity=`0.8`>BIO</text>
  <text x=`20` y=`165` font-family=`Arial, sans-serif` font-size=`11` fill=`" ++ text ++ lit "`>" ++ escape_xml bio_text ++ lit "</text>
  
  <text x=`20` y=`200` font-family=`Arial, sans-serif` font-size=`9` fill=`" ++ text ++ lit "` opacity=`0.6`>Created: "
  ++ format_timestamp (created_at i) ++ lit "</text>
  <text x=`20` y=`215` font-family=`Arial, sans-serif` font-size=`9` fill=`" ++ text ++ lit "` opacity=`0.6`>Checksum: "
  ++ checksum_start ++ lit "...</text>
  
  <circle cx=`375` cy=`225` r=`8` fill=`" ++ accent ++ lit "` opacity=`0.5` />
  <text x=`375` y=`230` font-family=`Arial, sans-serif` font-size=`10` fill=`" ++ text ++ lit "` text-anchor=`middle`>✓</text>
</svg>".

Definition generate_card_svg (i : Identity) : Res rstr :=
  let* bio_text := match bio i with Some b => truncate_text b 60 | None => retM (js "No bio provided") end in
  let* id_short := short_id (id i) in
  let* checksum_start := slice_to 12 (checksum i) in
  retM (card_text i bio_text id_short checksum_start).

(** ** Requests *)

Definition register (name email : rstr) (bio avatar_url theme : option rstr) : Res Response :=
  do* validate_email email in
  do* validate_name name in
  let* id := generate_identity_id name email in
  let* found := identity_exists id in
  if (found : bool) then fail (js "identity already exists: " ++ id)
  else
    let* now := current_timestamp in
    let identity := calculate_identity_checksum
      {| id := id; name := name; email := email; bio := bio; avatar_url := avatar_url; theme := default (js "blue") theme;
         created_at := now; updated_at := now; checksum := [] |} in
    do* save_identity identity in
    do* add_to_identity_index id in
    let* card_svg := generate_card_svg identity in
    retM (OkRegister id identity card_svg).

(** [if let Some(x) = o { check(&x)?; field = x }]. *)
Definition replaced (check : rstr → Res ()) (o : option rstr) (old : rstr) : Res rstr :=
  match o with Some x => do* check x in retM x | None => retM old end.

Definition update_profile (uid : rstr) (new_name new_email new_bio new_avatar new_theme : option rstr) : Res Response :=
  let* identity := load_identity uid in
  let* n := replaced validate_name new_name (name identity) in
  let* e := replaced validate_email new_email (email identity) in
  let* now := current_timestamp in
  let identity' := calculate_identity_checksum
    {| id := id identity; name := n; email := e; bio := match new_bio with Some b => Some b | None => bio identity end;
       avatar_url := match new_avatar with Some a => Some a | None => avatar_url identity end;
       theme := default (theme identity) new_theme; created_at := created_at identity; updated_at := now;
       checksum := checksum identity |} in
  do* save_identity identity' in
  retM (OkUpdate uid identity').

Definition get_card (uid : rstr) (format : option rstr) : Res Response :=
  let* identity := load_identity uid in
  let* card_svg := generate_card_svg identity in
  retM (OkCard uid (default (js "svg") format) card_svg).

Definition summary (i : Identity) : IdentitySummary :=
  {| s_id := id i; s_name := name i; s_email := email i; s_theme := theme i; s_created_at := created_at i |}.

Fixpoint load_summaries (ids : list rstr) : Res (list IdentitySummary) :=
  match ids with
  | [] => retM []
  | uid :: r =>
      let* o := try_ok (load_identity uid) in
      let* r' := load_summaries r in
      retM (match o with Some i => summary i :: r' | None => r' end)
  end.

(** [sort_by(|a, b| b.created_at.cmp(&a.created_at))], which is stable. *)
Fixpoint insert_newest (x : IdentitySummary) (l : list IdentitySummary) : list IdentitySummary :=
  match l with
  | [] => [x]
  | y :: r => if s_created_at x <? s_created_at y then y :: insert_newest x r else x :: l
  end.
Definition newest_first (l : list IdentitySummary) : list IdentitySummary := foldr insert_newest [] l.

Definition list_all : Res Response :=
  let* ids := load_identity_index in
  let* l := load_summaries ids in
  retM (OkList (newest_first l) (length l)).

(** The texts of those that can be read, one after the other. *)
Fixpoint combined (ids : list rstr) : Res bytes :=
  match ids with
  | [] => retM []
  | uid :: r =>
      let* o := try_ok (state_get_with_resize (identity_key uid)) in
      let* r' := combined r in
      retM (match o with Some data => data ++ r' | None => r' end)
  end.

Definition stats : Res Response :=
  let* ids := load_identity_index in
  let* all := combined ids in
  retM (OkStats (length ids) (length all) (blake3_hex all)).

Definition handle_request (req : Request) : Res Response :=
  match req with
  | Register n e b a t => register n e b a t
  | GetProfile uid => let* identity := load_identity uid in retM (OkProfile identity)
  | UpdateProfile uid n e b a t => update_profile uid n e b a t
  | GetCard uid f => get_card uid f
  | ListAll => list_all
  | Stats => stats
  end.

(** ** An execution

    [onvm_main] on a request that was read, in a fresh instance: its answer and the
    writes, or neither after a panic. *)
Definition execute (req : Request) (c : ExecutionContext) : option Response * ExecutionContext :=
  match handle_request req {| host := c; counter := 0 |} with
  | (Ok r, i) => (Some r, host i)
  | (Throw (Fail m), i) => (Some (RespErr m), host i)
  | (Throw Panic, _) => (None, c)
  end.
End Program.
End Registry.
