(* ===== verification/IdentityLedger.v ===== *)
(** * The identity program over typed records

    What the identity program promises, as a function on a map of identities and the
    list of their identifiers; that the program over the host's byte store implements
    it; and what follows for sequences of requests. *)

From S2P Require Import Prelude JsValue Codec RustLib WasmHost IdentityProgram.

Module Ledger.
Import Rust Host Registry.

Record ledger : Type := {
  entries : gmap rstr Identity;
  index : list rstr;
}.

Definition empty_ledger : ledger := {| entries := ∅; index := [] |}.

Section Spec.
Context `{Blake3} `{Lowercase} `{Uppercase} `{Serde Identity}.

(** ** Cards *)

Definition slice_opt (n : nat) (s : rstr) : option rstr := if is_char_boundary s n then Some (take n s) else None.

Definition bio_line (i : Identity) : option rstr :=
  match bio i with
  | Some b => if (length b <=? 60)%nat then Some b else (λ s, s ++ js "...") <$> slice_opt 57 b
  | None => Some (js "No bio provided")
  end.

Definition id_line (s : rstr) : option rstr :=
  if (12 <? length s)%nat then
    if is_char_boundary s 6 && is_char_boundary s (length s - 6) then Some (take 6 s ++ js "..." ++ drop (length s - 6) s) else None
  else Some s.

(** [None] when drawing the card panics. *)
Definition card_of (i : Identity) : option rstr :=
  b ← bio_line i; s ← id_line (id i); k ← slice_opt 12 (checksum i); Some (card_text i b s k).

(** ** Requests *)

Definition good_email (e : rstr) : bool := negb (is_empty e) && existsb (Z.eqb 64) e && (length e <=? 320)%nat.
Definition good_name (n : rstr) : bool := negb (is_empty n) && (length n <=? 100)%nat.

(** The identifier of a registration: the program's counter is 1 when it is made. *)
Definition identity_id (n e : rstr) : rstr := hex_encode (take 16 (blake3 (n ++ e ++ to_le_bytes 8 1734000001))).

(** And 2 when the record is made. *)
Definition new_identity (n e : rstr) (b a t : option rstr) : Identity :=
  calculate_identity_checksum
    {| id := identity_id n e; name := n; email := e; bio := b; avatar_url := a; theme := default (js "blue") t;
       created_at := 1734000002; updated_at := 1734000002; checksum := [] |}.

Definition updated_identity (i : Identity) (n e b a t : option rstr) : Identity :=
  calculate_identity_checksum
    {| id := id i; name := default (name i) n; email := default (email i) e; bio := match b with Some x => Some x | None => bio i end;
       avatar_url := match a with Some x => Some x | None => avatar_url i end; theme := default (theme i) t;
       created_at := created_at i; updated_at := 1734000001; checksum := checksum i |}.

Definition enter (uid : rstr) (i : Identity) (L : ledger) : ledger :=
  {| entries := <[uid := i]> (entries L); index := if contains (index L) uid then index L else index L ++ [uid] |}.

Definition amend (i : Identity) (L : ledger) : ledger := {| entries := <[id i := i]> (entries L); index := index L |}.

Definition missing : Response := RespErr (js "key not found").

Definition texts (L : ledger) : bytes := concat (omap (λ uid, to_vec <$> entries L !! uid) (index L)).

(** The answer and the next ledger; [None] is a panic. *)
Definition answer (req : Request) (L : ledger) : option (Response * ledger) :=
  match req with
  | Register n e b a t =>
      if negb (good_email e) then Some (RespErr (js "invalid email format"), L)
      else if negb (good_name n) then Some (RespErr (js "name must be 1-100 characters"), L)
      else match entries L !! identity_id n e with
           | Some _ => Some (RespErr (js "identity already exists: " ++ identity_id n e), L)
           | None =>
               let i := new_identity n e b a t in
               svg ← card_of i; Some (OkRegister (identity_id n e) i svg, enter (identity_id n e) i L)
           end
  | GetProfile uid => Some (match entries L !! uid with Some i => OkProfile i | None => missing end, L)
  | UpdateProfile uid n e b a t =>
      match entries L !! uid with
      | Some i =>
          if negb (default true (good_name <$> n)) then Some (RespErr (js "name must be 1-100 characters"), L)
          else if negb (default true (good_email <$> e)) then Some (RespErr (js "invalid email format"), L)
          else let i' := updated_identity i n e b a t in Some (OkUpdate uid i', amend i' L)
      | None => Some (missing, L)
      end
  | GetCard uid f =>
      match entries L !! uid with
      | Some i => svg ← card_of i; Some (OkCard uid (default (js "svg") f) svg, L)
      | None => Some (missing, L)
      end
  | ListAll =>
      let l := omap (λ uid, summary <$> entries L !! uid) (index L) in Some (OkList (newest_first l) (length l), L)
  | Stats => Some (OkStats (length (index L)) (length (texts L)) (blake3_hex (texts L)), L)
  end.
End Spec.

(** ** The program implements it *)

Section Refinement.
Context `{NodeHost} `{Blake3} `{Lowercase} `{Uppercase} `{Serde Identity} `{Serde (list rstr)}.
(** The node can read its database. *)
Hypothesis db_answers : ∀ k, db_fails k = false.

Record represents (c : ExecutionContext) (L : ledger) : Prop := {
  rep_entry : ∀ uid, value_at (identity_key uid) c = to_vec <$> entries L !! uid;
  rep_index : value_at IDENTITY_INDEX_KEY c = if is_empty (index L) then None else Some (to_vec (index L));
}.

Lemma resize_run k i :
  state_get_with_resize k i =
    (match value_at k (host i) with Some v => Ok v | None => Throw (Fail (js "key not found")) end, i).
Proof.
  unfold state_get_with_resize. cbn [resize_loop]. rewrite state_get_value by done.
  destruct (value_at k (host i)) as [v|] eqn:Hv; [|done]. cbv zeta. set (len := Z.of_nat (length v)).
  assert (0 < len) as Hpos by (apply value_at_filled in Hv; unfold len; destruct v; simpl; [done|lia]).
  destruct (2048 <? len).
  - rewrite (proj2 (Z.eqb_neq (- len) 0)), (proj2 (Z.ltb_ge 0 (- len))) by lia. rewrite Z.opp_involutive.
    rewrite state_get_value by (done || lia). rewrite Hv. cbv zeta. fold len. rewrite Z.ltb_irrefl.
    by rewrite (proj2 (Z.eqb_neq len 0)), (proj2 (Z.ltb_lt 0 len)) by lia.
  - by rewrite (proj2 (Z.eqb_neq len 0)), (proj2 (Z.ltb_lt 0 len)) by lia.
Qed.

Lemma try_resize_run k i : try_ok (state_get_with_resize k) i = (Ok (value_at k (host i)), i).
Proof. unfold try_ok, catchM, bindM. rewrite resize_run. by destruct (value_at k (host i)). Qed.

Definition moved (i : instance) (c : ExecutionContext) : instance := {| host := c; counter := counter i |}.

Lemma save_run i s : save_identity i s = (Ok tt, moved s (written_context (identity_key (id i)) (to_vec i) (host s))).
Proof. done. Qed.

(** *** Reading *)

Lemma exists_run L uid s : represents (host s) L → identity_exists uid s = (Ok (bool_decide (is_Some (entries L !! uid))), s).
Proof.
  intros HL. unfold identity_exists, bindM. rewrite try_resize_run, (rep_entry _ _ HL).
  by destruct (entries L !! uid).
Qed.

Lemma load_run L uid s :
  represents (host s) L →
  load_identity uid s = (match entries L !! uid with Some i => Ok i | None => Throw (Fail (js "key not found")) end, s).
Proof.
  intros HL. unfold load_identity, bindM. rewrite resize_run, (rep_entry _ _ HL).
  destruct (entries L !! uid) as [i|]; [|done]. cbn. unfold parse. by rewrite from_slice_to_vec.
Qed.

Lemma index_run L s : represents (host s) L → load_identity_index s = (Ok (index L), s).
Proof.
  intros HL. unfold load_identity_index, bindM. rewrite try_resize_run, (rep_index _ _ HL).
  destruct (index L) as [|uid l] eqn:Hi; [done|]. cbn [is_empty].
  pose proof (to_vec_filled (uid :: l)) as Hf. destruct (to_vec (uid :: l)) as [|b v] eqn:Hv; [done|].
  cbn [is_empty]. unfold parse. rewrite <- Hv, from_slice_to_vec. done.
Qed.

Lemma registry_summaries_run L ids s :
  represents (host s) L → load_summaries ids s = (Ok (omap (λ uid, summary <$> entries L !! uid) ids), s).
Proof.
  intros HL. induction ids as [|uid ids IH]; [done|]. cbn [load_summaries omap list_omap].
  unfold bindM at 1. unfold try_ok, catchM, bindM at 1. rewrite (load_run L) by done.
  destruct (entries L !! uid); cbn; unfold bindM; by rewrite IH.
Qed.

Lemma combined_run L ids s :
  represents (host s) L → combined ids s = (Ok (concat (omap (λ uid, to_vec <$> entries L !! uid) ids)), s).
Proof.
  intros HL. induction ids as [|uid ids IH]; [done|]. cbn [combined omap list_omap].
  unfold bindM at 1. rewrite try_resize_run, (rep_entry _ _ HL). unfold bindM. rewrite IH.
  by destruct (entries L !! uid).
Qed.

(** *** Writing *)

Lemma index_key_apart uid : IDENTITY_INDEX_KEY ≠ identity_key uid.
Proof. intros Hk. by apply (f_equal (nth 0)) in Hk; apply (f_equal (λ f, f 0)) in Hk. Qed.

Lemma represents_saved c L i :
  represents c L →
  represents (written_context (identity_key (id i)) (to_vec i) c) (amend i L).
Proof.
  intros HL. split; [intros uid|]; rewrite value_at_written.
  - cbn [entries amend]. case_decide as Hk.
    + apply (inj (app (js "identity:"))) in Hk as ->. rewrite lookup_insert_eq.
      change (to_vec <$> Some i) with (Some (to_vec i)). pose proof (to_vec_filled i). by destruct (to_vec i).
    + rewrite lookup_insert_ne by (intros Hu; by rewrite Hu in Hk). apply HL.
  - rewrite decide_False by apply index_key_apart. apply HL.
Qed.

Lemma represents_indexed c L ids :
  ids ≠ [] → represents c L →
  represents (written_context IDENTITY_INDEX_KEY (to_vec ids) c) {| entries := entries L; index := ids |}.
Proof.
  intros Hn HL. split; [intros uid|]; rewrite value_at_written; cbn [entries index].
  - rewrite decide_False by (intros Hk; by apply (index_key_apart uid)). apply HL.
  - rewrite decide_True by done. pose proof (to_vec_filled ids). by destruct (to_vec ids), ids.
Qed.

Lemma add_index_run L uid s :
  represents (host s) L →
  ∃ c, add_to_identity_index uid s = (Ok tt, moved s c)
    ∧ represents c {| entries := entries L; index := if contains (index L) uid then index L else index L ++ [uid] |}.
Proof.
  intros HL. unfold add_to_identity_index, bindM. rewrite (index_run L) by done.
  destruct (contains (index L) uid).
  - exists (host s). split; [by destruct s|]. destruct L. apply HL.
  - eexists. split; [done|]. apply represents_indexed; [by destruct (index L)|done].
Qed.

Lemma registry_represents_next c L : represents c L → represents (next_execution c) L.
Proof. intros HL. split; [intros uid|]; rewrite value_at_next by done; apply HL. Qed.

Lemma represents_fresh : represents fresh_context empty_ledger.
Proof. split; [intros uid|]; by rewrite value_at_fresh. Qed.

(** *** Cards *)

Lemma card_run i s : generate_card_svg i s = (match card_of i with Some svg => Ok svg | None => Throw Panic end, s).
Proof.
  unfold generate_card_svg, card_of, bio_line, truncate_text, short_id, id_line, slice_to, slice_from, slice_opt, bindM.
  destruct (bio i) as [b|]; [destruct (length b <=? 60)%nat; [|change (60 - 3)%nat with 57%nat; destruct (is_char_boundary b 57)]|];
    cbn -[card_text js Nat.ltb]; try done;
    destruct (12 <? length (id i))%nat; cbn -[card_text js Nat.ltb];
    repeat (destruct (is_char_boundary _ _); cbn -[card_text js Nat.ltb]); done.
Qed.

Lemma email_run e s : validate_email e s = (if good_email e then Ok tt else Throw (Fail (js "invalid email format")), s).
Proof.
  unfold validate_email, good_email. rewrite Nat.leb_antisym. destruct (is_empty e), (existsb _ e), (320 <? length e)%nat; done.
Qed.

Lemma name_run n s : validate_name n s = (if good_name n then Ok tt else Throw (Fail (js "name must be 1-100 characters")), s).
Proof. unfold validate_name, good_name. rewrite Nat.leb_antisym. destruct (is_empty n), (100 <? length n)%nat; done. Qed.

(** *** Requests *)

Definition implements (req : Request) (c : ExecutionContext) (L : ledger) : Prop :=
  ∃ c', execute req c = (fst <$> answer req L, c') ∧ represents c' (default L (snd <$> answer req L)).

Lemma register_implements n e b a t c L : represents c L → implements (Register n e b a t) c L.
Proof.
  intros HL. unfold implements, execute. cbn [answer handle_request]. unfold register. unfold bindM at 1.
  rewrite email_run. destruct (good_email e); cbn [negb]; [|by exists c]. unfold bindM at 1.
  rewrite name_run. destruct (good_name n); cbn [negb]; [|by exists c]. unfold bindM at 1.
  change (generate_identity_id n e {| host := c; counter := 0 |}) with (Ok (E := fault) (identity_id n e), {| host := c; counter := 1 |}).
  cbv beta iota. unfold bindM at 1. rewrite (exists_run L) by done.
  destruct (entries L !! identity_id n e) eqn:He; [rewrite bool_decide_true by eauto; by exists c|].
  rewrite bool_decide_false by (by intros []). unfold bindM at 1.
  change (current_timestamp {| host := c; counter := 1 |}) with (Ok (E := fault) 1734000002, {| host := c; counter := 2 |}).
  cbv beta iota zeta. fold (new_identity n e b a t). set (i := new_identity n e b a t). unfold bindM at 1. rewrite save_run.
  cbn [host]. unfold bindM at 1.
  destruct (add_index_run (amend i L) (identity_id n e) (moved {| host := c; counter := 2 |} (written_context (identity_key (id i)) (to_vec i) c)))
    as (c' & -> & HL'); [by apply represents_saved|].
  cbv beta iota. unfold bindM at 1. rewrite card_run. destruct (card_of i) as [svg|]; [|by exists c].
  by exists c'.
Qed.

Lemma update_implements uid n e b a t c L : represents c L → implements (UpdateProfile uid n e b a t) c L.
Proof.
  intros HL. unfold implements, execute. cbn [answer handle_request]. unfold update_profile. unfold bindM at 1.
  rewrite (load_run L) by done. destruct (entries L !! uid) as [i|]; [|by exists c].
  assert (∀ s, replaced validate_name n (name i) s =
    (if default true (good_name <$> n) then Ok (default (name i) n) else Throw (Fail (js "name must be 1-100 characters")), s)) as Hn.
  { intros s. destruct n as [n|]; [|done]. cbn. unfold bindM. rewrite name_run. by destruct (good_name n). }
  assert (∀ s, replaced validate_email e (email i) s =
    (if default true (good_email <$> e) then Ok (default (email i) e) else Throw (Fail (js "invalid email format")), s)) as He.
  { intros s. destruct e as [e|]; [|done]. cbn. unfold bindM. rewrite email_run. by destruct (good_email e). }
  unfold bindM at 1. rewrite Hn. destruct (default true (good_name <$> n)); cbn [negb]; [|by exists c].
  unfold bindM at 1. rewrite He. destruct (default true (good_email <$> e)); cbn [negb]; [|by exists c].
  eexists. split; [reflexivity|]. by apply represents_saved.
Qed.

Lemma request_implements req c L : represents c L → implements req c L.
Proof.
  intros HL. destruct req as [| uid | | uid f | |]; [by apply register_implements| |by apply update_implements|..];
    unfold implements, execute; cbn [answer handle_request].
  - unfold bindM. rewrite (load_run L) by done. exists c. by destruct (entries L !! uid).
  - unfold get_card, bindM. rewrite (load_run L) by done. destruct (entries L !! uid) as [i|]; [|by exists c].
    rewrite card_run. by destruct (card_of i); exists c.
  - exists c. unfold list_all, bindM. by rewrite (index_run L), (registry_summaries_run L) by done.
  - exists c. unfold stats, bindM. by rewrite (index_run L), (combined_run L) by done.
Qed.

(** ** Sequences of executions *)

Fixpoint serve (reqs : list Request) (c : ExecutionContext) : list (option Response) * ExecutionContext :=
  match reqs with
  | [] => ([], c)
  | req :: rest =>
      let '(r, c') := execute req c in
      let '(rs, c'') := serve rest (next_execution c') in (r :: rs, c'')
  end.
End Refinement.

(** The same on a ledger; a panic leaves it as it was. *)
Fixpoint answers `{Blake3} `{Lowercase} `{Uppercase} `{Serde Identity} (reqs : list Request) (L : ledger) : list (option Response) * ledger :=
  match reqs with
  | [] => ([], L)
  | req :: rest =>
      match answer req L with
      | Some (r, L') => let '(rs, L'') := answers rest L' in (Some r :: rs, L'')
      | None => let '(rs, L'') := answers rest L in (None :: rs, L'')
      end
  end.

Section Refined.
Context `{NodeHost} `{Blake3} `{Lowercase} `{Uppercase} `{Serde Identity} `{Serde (list rstr)}.

Lemma serve_answers reqs c L :
  (∀ k, db_fails k = false) → represents c L →
  (serve reqs c).1 = (answers reqs L).1 ∧ represents (serve reqs c).2 (answers reqs L).2.
Proof.
  intros Hdb. revert c L. induction reqs as [|req reqs IH]; intros c L HL; [done|]. cbn [serve answers].
  pose proof (request_implements Hdb req c L HL) as Hr. unfold implements in Hr.
  destruct Hr as (c' & -> & HL'). apply (registry_represents_next Hdb) in HL'.
  destruct (answer req L) as [[r L']|]; cbn in HL'; destruct (IH _ _ HL') as [K1 K2];
    destruct (serve reqs (next_execution c')); [destruct (answers reqs L')|destruct (answers reqs L)]; cbn in *; by subst.
Qed.

(** C33 The identity program answers every sequence of requests, each in an instance of
    its own, as a map of identities with the list of their identifiers does, and its
    bytes in the node's store are that map afterwards; an execution that panics
    leaves no trace. *)
Theorem identity_program_refines (reqs : list Request) :
  (∀ k, db_fails k = false) →
  (serve reqs fresh_context).1 = (answers reqs empty_ledger).1
  ∧ represents (serve reqs fresh_context).2 (answers reqs empty_ledger).2.
Proof. intros Hdb. apply serve_answers; [done|apply represents_fresh]. Qed.
End Refined.
End Ledger.
