(* ===== verification/IdentityRules.v ===== *)
(** * What the identity program does to its registry

    The invariant of the registry, when the program panics, its clock, the identifiers
    it gives and the markup of its cards. *)

From Stdlib Require Import SpecFloat.
From S2P Require Import Prelude JsValue Codec RustLib WasmHost IdentityProgram IdentityLedger.

Module RegistryRules.
Import Rust Host Registry Ledger.

Section Rules.
Context `{Blake3} `{Lowercase} `{Uppercase} `{Serde Identity}.

(** ** The invariant *)

Record entry_ok (uid : rstr) (i : Identity) : Prop := {
  ok_id : id i = uid;
  ok_given : ∃ n e, uid = identity_id n e;
  ok_checksum : checksum i = blake3_hex (checksum_input i);
  ok_name : good_name (name i) = true;
  ok_email : good_email (email i) = true;
  ok_created : created_at i = 1734000002;
  ok_updated : updated_at i = 1734000002 ∨ updated_at i = 1734000001;
}.

Record ledger_ok (L : ledger) : Prop := {
  ok_entries : map_Forall entry_ok (entries L);
  ok_index : ∀ uid, uid ∈ index L ↔ is_Some (entries L !! uid);
  ok_once : NoDup (index L);
}.

Lemma ledger_ok_empty : ledger_ok empty_ledger.
Proof.
  split; [apply map_Forall_empty| |apply NoDup_nil_2]. intros uid. cbn. rewrite lookup_empty.
  split; [intros Hin; by apply not_elem_of_nil in Hin|by intros []].
Qed.

Lemma new_entry_ok n e b a t :
  good_name n = true → good_email e = true → entry_ok (identity_id n e) (new_identity n e b a t).
Proof. intros Hn He. split; try done; [by exists n, e|by left]. Qed.

Lemma updated_entry_ok uid i n e b a t :
  entry_ok uid i → default true (good_name <$> n) = true → default true (good_email <$> e) = true →
  entry_ok uid (updated_identity i n e b a t).
Proof.
  intros [K1 K2 K3 K4 K5 K6 K7] Hn He. split; try done; [by destruct n|by destruct e|by right].
Qed.

Lemma enter_ok uid i L : entries L !! uid = None → entry_ok uid i → ledger_ok L → ledger_ok (enter uid i L).
Proof.
  intros Hnew Hi [K1 K2 K3]. assert (uid ∉ index L) as Hout by (rewrite K2, Hnew; by intros []).
  unfold enter, contains. rewrite bool_decide_false by done. split; cbn [entries index].
  - by apply map_Forall_insert_2.
  - intros v. rewrite elem_of_app, list_elem_of_singleton, K2, lookup_insert_is_Some'. naive_solver.
  - apply NoDup_app. split; [done|]. split; [|apply NoDup_singleton].
    intros v Hv ->%list_elem_of_singleton. done.
Qed.

Lemma amend_ok uid i i0 L : entries L !! uid = Some i0 → entry_ok uid i → ledger_ok L → ledger_ok (amend i L).
Proof.
  intros Hold Hi [K1 K2 K3]. unfold amend. rewrite (ok_id _ _ Hi). split; cbn [entries index]; [by apply map_Forall_insert_2| |done].
  intros v. rewrite K2, lookup_insert_is_Some'. split; [by right|]. intros [<-|Hv]; eauto.
Qed.

Lemma answer_ok req L r L' : answer req L = Some (r, L') → ledger_ok L → ledger_ok L'.
Proof.
  intros Ha HL. destruct req as [n e b a t|uid|uid n e b a t|uid f| |]; cbn [answer] in Ha.
  - destruct (good_email e) eqn:He; [|by injection Ha as <- <-]. destruct (good_name n) eqn:Hn; [|by injection Ha as <- <-]. cbn [negb] in Ha.
    destruct (entries L !! identity_id n e) eqn:Hx; [by injection Ha as <- <-|].
    destruct (card_of _); [|done]. injection Ha as <- <-. apply enter_ok; [done|by apply new_entry_ok|done].
  - by injection Ha as <- <-.
  - destruct (entries L !! uid) as [i|] eqn:Hx; [|by injection Ha as <- <-].
    destruct (default true (good_name <$> n)) eqn:Hn; [|by injection Ha as <- <-].
    destruct (default true (good_email <$> e)) eqn:He; [|by injection Ha as <- <-].
    injection Ha as <- <-. eapply amend_ok; [done| |done]. apply updated_entry_ok; [|done..]. by apply (ok_entries _ HL).
  - destruct (entries L !! uid); [|by injection Ha as <- <-]. destruct (card_of _); [|done]. by injection Ha as <- <-.
  - by injection Ha as <- <-.
  - by injection Ha as <- <-.
Qed.

Lemma answers_ok reqs L : ledger_ok L → ledger_ok (answers reqs L).2.
Proof.
  revert L. induction reqs as [|req reqs IH]; intros L HL; [done|]. cbn [answers].
  destruct (answer req L) as [[r L']|] eqn:Ha; [apply (answer_ok _ _ _ _ Ha) in HL; rename L' into M|rename L into M];
    specialize (IH M HL); by destruct (answers reqs M).
Qed.

(** ** Panics *)

Hypothesis blake3_length : ∀ x, length (blake3 x) = 32%nat.
Hypothesis blake3_bytes : ∀ x, byte_list (blake3 x).

(** A text that is cut inside a character. *)
Definition cut_inside (b : option rstr) : Prop :=
  ∃ s, b = Some s ∧ (60 < length s)%nat ∧ is_char_boundary s 57 = false.

Lemma hex_boundary bs n : byte_list bs → (n ≤ 2 * length bs)%nat → is_char_boundary (hex_encode bs) n = true.
Proof.
  intros Hb Hn. rewrite <- length_hex_encode in Hn. pose proof (hex_encode_ascii bs Hb) as Ha. unfold is_char_boundary.
  destruct (decide (n = length (hex_encode bs))) as [->|Hne]; [by rewrite Nat.eqb_refl|].
  destruct (lookup_lt_is_Some_2 (hex_encode bs) n) as [c Hc]; [lia|]. rewrite Hc.
  assert (0 ≤ c ≤ 127) as Hr by exact (proj1 (Forall_lookup _ _) Ha _ _ Hc).
  rewrite (proj2 (Z.leb_gt 128 c)) by lia. by rewrite orb_true_r.
Qed.

Lemma id_line_drawn n e : ∃ s, id_line (identity_id n e) = Some s.
Proof.
  unfold id_line, identity_id. set (h := take 16 _).
  assert (length h = 16%nat) as Hl by (unfold h; rewrite length_take, blake3_length; done).
  assert (byte_list h) as Hb by (apply Forall_take, blake3_bytes).
  rewrite length_hex_encode, Hl. rewrite !hex_boundary by (done || lia). by eexists.
Qed.

Lemma card_none uid i : entry_ok uid i → card_of i = None ↔ cut_inside (bio i).
Proof.
  intros Hi. destruct (ok_given _ _ Hi) as (n & e & Hg). destruct (id_line_drawn n e) as [s Hs].
  assert (slice_opt 12 (checksum i) = Some (take 12 (checksum i))) as Hk.
  { rewrite (ok_checksum _ _ Hi). unfold slice_opt, blake3_hex. rewrite hex_boundary; [done|done|rewrite blake3_length; lia]. }
  unfold card_of. rewrite (ok_id _ _ Hi), Hg, Hs, Hk. unfold bio_line, cut_inside.
  destruct (bio i) as [b|]; cbn; [|split; [done|by intros (? & ? & _)]].
  destruct (length b <=? 60)%nat eqn:Hl; [apply Nat.leb_le in Hl|apply Nat.leb_gt in Hl]; cbn.
  - split; [done|]. intros (? & [= <-] & ? & _). lia.
  - unfold slice_opt. destruct (is_char_boundary b 57) eqn:Hb; cbn; [|naive_solver].
    split; [done|]. intros (? & [= <-] & _ & ?). congruence.
Qed.

(** When a request makes the program panic. *)
Definition panics (req : Request) (L : ledger) : Prop :=
  match req with
  | Register n e b _ _ => good_email e = true ∧ good_name n = true ∧ entries L !! identity_id n e = None ∧ cut_inside b
  | GetCard uid _ => ∃ i, entries L !! uid = Some i ∧ cut_inside (bio i)
  | _ => False
  end.

Lemma answer_none req L : ledger_ok L → answer req L = None ↔ panics req L.
Proof.
  intros HL. destruct req as [n e b a t|uid|uid n e b a t|uid f| |]; cbn [answer panics]; try done.
  - destruct (good_email e) eqn:He; [|naive_solver]. destruct (good_name n) eqn:Hn; [|naive_solver]. cbn [negb].
    destruct (entries L !! identity_id n e); [naive_solver|].
    pose proof (card_none _ _ (new_entry_ok n e b a t Hn He)) as Hc. cbn [bio new_identity calculate_identity_checksum] in Hc.
    destruct (card_of _); cbn; naive_solver.
  - destruct (entries L !! uid) as [i|]; [|done]. destruct (default true _); [|done]. by destruct (default true _).
  - destruct (entries L !! uid) as [i|] eqn:Hx; [|naive_solver].
    pose proof (card_none _ _ (ok_entries _ HL _ _ Hx)). destruct (card_of i); cbn; naive_solver.
Qed.
End Rules.

(** ** Executions *)

Section Executions.
Context `{NodeHost} `{Blake3} `{Lowercase} `{Uppercase} `{Serde Identity} `{Serde (list rstr)}.
Hypothesis db_answers : ∀ k, db_fails k = false.

(** What the execution after some others starts from. *)
Definition after (reqs : list Request) (c : ExecutionContext) : ExecutionContext := next_execution (serve reqs c).2.

Lemma after_represents reqs c L : represents c L → represents (after reqs c) (answers reqs L).2.
Proof. intros HL. apply registry_represents_next; [done|]. by apply serve_answers. Qed.

Lemma after_fresh reqs : ∃ L, represents (after reqs fresh_context) L ∧ ledger_ok L.
Proof.
  exists (answers reqs empty_ledger).2. split; [apply after_represents, represents_fresh|apply answers_ok, ledger_ok_empty].
Qed.

Lemma execute_answer req c L :
  represents c L → (execute req c).1 = fst <$> answer req L ∧ represents (execute req c).2 (default L (snd <$> answer req L)).
Proof. intros HL. by destruct (request_implements db_answers req c L HL) as (c' & -> & HL'). Qed.

(** An entry stays, with its identifier and its date. *)
Definition kept (L L' : ledger) : Prop :=
  ∀ uid i, entries L !! uid = Some i → ∃ j, entries L' !! uid = Some j ∧ id j = id i ∧ created_at j = created_at i.

Lemma answer_keeps req L r L' : ledger_ok L → answer req L = Some (r, L') → kept L L'.
Proof.
  intros HL Ha. assert (kept L L) as Hrefl by (intros v i Hi; eauto).
  destruct req as [n e b a t|uid|uid n e b a t|uid f| |]; cbn [answer] in Ha; try by injection Ha as <- <-.
  - destruct (good_email e); [|by injection Ha as <- <-]. destruct (good_name n); [|by injection Ha as <- <-]. cbn [negb] in Ha.
    destruct (entries L !! identity_id n e) eqn:Hx; [by injection Ha as <- <-|].
    destruct (card_of _); [|done]. injection Ha as <- <-. intros v i Hi. cbn [entries enter].
    rewrite lookup_insert_ne by congruence. eauto.
  - destruct (entries L !! uid) as [i|] eqn:Hx; [|by injection Ha as <- <-].
    destruct (default true (good_name <$> n)); [|by injection Ha as <- <-].
    destruct (default true (good_email <$> e)); [|by injection Ha as <- <-].
    injection Ha as <- <-. intros v j Hj. cbn [entries amend].
    pose proof (ok_id _ _ (ok_entries _ HL _ _ Hx)) as Hid. change (id (updated_identity i n e b a t)) with (id i). rewrite Hid.
    destruct (decide (uid = v)) as [->|Hne]; [|rewrite lookup_insert_ne by done; eauto].
    rewrite lookup_insert_eq. assert (i = j) as -> by congruence. eauto.
  - destruct (entries L !! uid); [|by injection Ha as <- <-]. destruct (card_of _); [|done]. by injection Ha as <- <-.
Qed.

Lemma answers_keep reqs L : ledger_ok L → kept L (answers reqs L).2.
Proof.
  revert L. induction reqs as [|req reqs IH]; intros L HL; [intros v i Hi; eauto|]. cbn [answers].
  destruct (answer req L) as [[r L']|] eqn:Ha.
  - pose proof (answer_keeps _ _ _ _ HL Ha) as Hk. pose proof (IH L' (answer_ok _ _ _ _ Ha HL)) as Hk'.
    destruct (answers reqs L') as [rs M]. intros v i Hi. destruct (Hk v i Hi) as (j & Hj & K1 & K2).
    destruct (Hk' v j Hj) as (k & ? & ? & ?). exists k. split; [done|]. split; congruence.
  - specialize (IH L HL). by destruct (answers reqs L).
Qed.

(** The registrations of a run succeed with these. *)
Lemma registered n e b a t L uid i svg :
  (fst <$> answer (Register n e b a t) L) = Some (OkRegister uid i svg) →
  uid = identity_id n e ∧ i = new_identity n e b a t ∧ entries L !! uid = None ∧ good_email e = true ∧ good_name n = true
  ∧ (snd <$> answer (Register n e b a t) L) = Some (enter uid i L).
Proof.
  cbn [answer]. destruct (good_email e); [|done]. destruct (good_name n); [|done]. cbn [negb].
  destruct (entries L !! identity_id n e) eqn:Hx; [done|]. destruct (card_of _); [|done]. cbn. by intros [= <- <- <-].
Qed.

Lemma list_run c L :
  represents c L →
  (execute ListAll c).1 =
    Some (OkList (newest_first (omap (λ uid, summary <$> entries L !! uid) (index L)))
                 (length (omap (λ uid, summary <$> entries L !! uid) (index L)))).
Proof. intros HL. apply (execute_answer ListAll c L HL). Qed.

(** The list has every identity once, in the order of registration: all are of the same
    time, so that the sort by it changes nothing. *)
Lemma newest_first_same l : Forall (λ x, s_created_at x = 1734000002) l → newest_first l = l.
Proof.
  induction 1 as [|x l Hx Hl IH]; [done|]. cbn [newest_first foldr]. fold (newest_first l). rewrite IH.
  destruct Hl as [|y l Hy _]; [done|]. cbn [insert_newest]. by rewrite Hx, Hy, Z.ltb_irrefl.
Qed.

Lemma listed L :
  ledger_ok L →
  newest_first (omap (λ uid, summary <$> entries L !! uid) (index L)) = omap (λ uid, summary <$> entries L !! uid) (index L)
  ∧ map s_id (omap (λ uid, summary <$> entries L !! uid) (index L)) = index L.
Proof.
  intros HL. pose proof (λ uid, proj1 (ok_index _ HL uid)) as Hin. revert Hin. generalize (index L). intros ids Hin. split.
  - apply newest_first_same, Forall_forall. intros x (uid & _ & Hx)%list_elem_of_omap.
    destruct (entries L !! uid) as [i|] eqn:Hi; [|done]. injection Hx as <-. apply (ok_entries _ HL _ _ Hi).
  - induction ids as [|uid ids IH]; [done|]. cbn. destruct (Hin uid) as [i Hi]; [by left|]. rewrite Hi. cbn.
    rewrite IH by (intros v Hv; apply Hin; by right). by rewrite (ok_id _ _ (ok_entries _ HL _ _ Hi)).
Qed.

Definition profile (uid : rstr) (c : ExecutionContext) : option Identity :=
  match (execute (GetProfile uid) c).1 with Some (OkProfile i) => Some i | _ => None end.

Lemma profile_run uid c L : represents c L → profile uid c = entries L !! uid.
Proof.
  intros HL. unfold profile. destruct (execute_answer (GetProfile uid) c L HL) as [-> _]. cbn. by destruct (entries L !! uid).
Qed.
End Executions.

Section Statements.
Context `{NodeHost} `{Blake3} `{Lowercase} `{Uppercase} `{Serde Identity} `{Serde (list rstr)}.

(** After any sequence of requests every identity of the registry is stored under its
    own identifier with a checksum of its fields, a name and an address that were
    checked, and the index has exactly the identifiers of the registry, each once. *)
Theorem identity_records_kept (reqs : list Request) :
  (∀ k, db_fails k = false) → ∃ L, represents (after reqs fresh_context) L ∧ ledger_ok L.
Proof. intros Hdb. by apply after_fresh. Qed.

(** The program panics exactly on a registration that would succeed, and on the card of
    an identity, whose bio is longer than 60 bytes with its 57th byte inside a
    character; such an execution has no answer and changes nothing.  An update accepts
    such a bio, and the card of that identity is lost. *)
Theorem identity_panics (reqs : list Request) :
  (∀ k, db_fails k = false) → (∀ x, length (blake3 x) = 32%nat) → (∀ x, byte_list (blake3 x)) →
  ∃ L, represents (after reqs fresh_context) L ∧
    ∀ req, let c := after reqs fresh_context in
      ((execute req c).1 = None ↔ panics req L) ∧ ((execute req c).1 = None → (execute req c).2 = c).
Proof.
  intros Hdb Hlen Hb. destruct (after_fresh Hdb reqs) as (L & HL & Hok). exists L. split; [done|]. intros req c. split.
  - rewrite (proj1 (execute_answer Hdb req c L HL)), fmap_None. by apply answer_none.
  - unfold execute. destruct (handle_request req _) as [[r|[m|]] i]; done.
Qed.

(** A registration stays: whatever is asked afterwards, the profile is found under the
    identifier that was given, with the date of its registration, and the list has it
    exactly once. *)
Theorem identity_lifecycle (reqs reqs' : list Request) n e b a t uid i svg c' :
  (∀ k, db_fails k = false) →
  execute (Register n e b a t) (after reqs fresh_context) = (Some (OkRegister uid i svg), c') →
  profile uid (next_execution c') = Some i ∧
  let c := after reqs' (next_execution c') in
  ∃ j l, profile uid c = Some j ∧ id j = uid ∧ created_at j = created_at i ∧ checksum j = blake3_hex (checksum_input j)
    ∧ (execute ListAll c).1 = Some (OkList l (length l)) ∧ NoDup (map s_id l) ∧ summary j ∈ l.
Proof.
  intros Hdb He. destruct (after_fresh Hdb reqs) as (L & HL & Hok). set (c0 := after reqs fresh_context) in *.
  destruct (execute_answer Hdb (Register n e b a t) c0 L HL) as [Ha Hr]. rewrite He in Ha, Hr. cbn [fst snd] in Ha, Hr. symmetry in Ha.
  destruct (registered _ _ _ _ _ _ _ _ _ Ha) as (Hu & Hi & Hnew & Hem & Hna & Hs). rewrite Hs in Hr. cbn in Hr.
  apply (registry_represents_next Hdb) in Hr. assert (ledger_ok (enter uid i L)) as Hok'.
  { apply enter_ok; [done| |done]. rewrite Hu, Hi. by apply new_entry_ok. }
  assert (entries (enter uid i L) !! uid = Some i) as Hhere by apply lookup_insert_eq.
  split; [by rewrite (profile_run Hdb uid _ _ Hr)|].
  pose proof (after_represents Hdb reqs' _ _ Hr) as Hr3. set (L3 := (answers reqs' (enter uid i L)).2) in *.
  assert (ledger_ok L3) as Hok3 by by apply answers_ok.
  destruct (answers_keep reqs' _ Hok' uid i Hhere) as (j & Hj & Kid & Kc). fold L3 in Hj.
  destruct (listed L3 Hok3) as [Hsort Hids]. intros c. exists j, (omap (λ v, summary <$> entries L3 !! v) (index L3)).
  split; [by rewrite (profile_run Hdb uid _ _ Hr3)|].
  split; [apply (ok_entries _ Hok3 _ _ Hj)|]. split; [done|]. split; [apply (ok_entries _ Hok3 _ _ Hj)|].
  split; [rewrite (list_run Hdb c L3 Hr3); by rewrite Hsort|]. split; [rewrite Hids; apply Hok3|].
  apply list_elem_of_omap. exists uid. split; [apply (ok_index _ Hok3); eauto|]. by rewrite Hj.
Qed.

(** An update replaces the fields that are given and no other field of no other
    identity; but the date of the update is always the second before that of the
    registration. *)
Theorem profile_update_exact (reqs : list Request) uid n e b a t i' c' :
  (∀ k, db_fails k = false) →
  execute (UpdateProfile uid n e b a t) (after reqs fresh_context) = (Some (OkUpdate uid i'), c') →
  ∃ i, profile uid (after reqs fresh_context) = Some i ∧ profile uid (next_execution c') = Some i' ∧
    name i' = default (name i) n ∧ email i' = default (email i) e ∧ theme i' = default (theme i) t ∧
    bio i' = match b with Some x => Some x | None => bio i end ∧ avatar_url i' = match a with Some x => Some x | None => avatar_url i end ∧
    created_at i' = created_at i ∧ updated_at i' = created_at i' - 1 ∧
    ∀ v, v ≠ uid → profile v (next_execution c') = profile v (after reqs fresh_context).
Proof.
  intros Hdb He. destruct (after_fresh Hdb reqs) as (L & HL & Hok). set (c0 := after reqs fresh_context) in *.
  destruct (execute_answer Hdb (UpdateProfile uid n e b a t) c0 L HL) as [Ha Hr]. rewrite He in Ha, Hr. cbn [fst snd answer] in Ha, Hr.
  destruct (entries L !! uid) as [i|] eqn:Hx; [|done]. pose proof (ok_entries _ Hok _ _ Hx) as Hi.
  destruct (default true (good_name <$> n)); [|done]. destruct (default true (good_email <$> e)); [|done].
  cbn in Ha, Hr. injection Ha as ->. apply (registry_represents_next Hdb) in Hr. exists i.
  rewrite (profile_run Hdb uid _ _ HL), (profile_run Hdb uid _ _ Hr). cbn [entries amend].
  change (id (updated_identity i n e b a t)) with (id i). rewrite (ok_id _ _ Hi), lookup_insert_eq.
  split; [done|]. split; [done|]. do 3 (split; [done|]). split; [by destruct b|]. split; [by destruct a|]. split; [done|].
  split; [cbn; by rewrite (ok_created _ _ Hi)|]. intros v Hv.
  rewrite (profile_run Hdb v _ _ Hr), (profile_run Hdb v _ _ HL). cbn [entries amend].
  change (id (updated_identity i n e b a t)) with (id i). by rewrite (ok_id _ _ Hi), lookup_insert_ne.
Qed.

(** An identifier is made of the name followed by the address, with nothing between
    them and at a time that never changes: someone whose name and address give the
    same text as those of an identity cannot be registered. *)
Theorem registration_refused (reqs : list Request) n e b a t n' e' b' a' t' uid i svg c' :
  (∀ k, db_fails k = false) →
  execute (Register n e b a t) (after reqs fresh_context) = (Some (OkRegister uid i svg), c') →
  n' ++ e' = n ++ e → good_name n' = true → good_email e' = true →
  (execute (Register n' e' b' a' t') (next_execution c')).1 = Some (RespErr (js "identity already exists: " ++ uid)).
Proof.
  intros Hdb He Hsame Hn Hem. destruct (after_fresh Hdb reqs) as (L & HL & Hok). set (c0 := after reqs fresh_context) in *.
  destruct (execute_answer Hdb (Register n e b a t) c0 L HL) as [Ha Hr]. rewrite He in Ha, Hr. cbn [fst snd] in Ha, Hr. symmetry in Ha.
  destruct (registered _ _ _ _ _ _ _ _ _ Ha) as (Hu & _ & _ & _ & _ & Hs). rewrite Hs in Hr. cbn in Hr.
  apply (registry_represents_next Hdb) in Hr. rewrite (proj1 (execute_answer Hdb _ _ _ Hr)). cbn [answer]. rewrite Hem, Hn. cbn [negb].
  assert (identity_id n' e' = uid) as ->.
  { rewrite Hu. unfold identity_id. do 3 f_equal. by rewrite !(assoc_L (++)), Hsame. }
  cbn [entries enter]. by rewrite lookup_insert_eq.
Qed.
End Statements.
End RegistryRules.
