(* ===== verification/IdentityCards.v ===== *)
(** * The markup of identity cards

    What people register is text on the card: it cannot add elements or attributes to
    the image, but for the initial of a name that is drawn in place of a picture. *)

From S2P Require Import Prelude JsValue Codec RustLib WasmHost IdentityProgram IdentityLedger IdentityRules.

Module Cards.
Import Rust Registry Ledger RegistryRules.

(** The characters elements and attributes are made of: angle brackets and the double
    quote. *)
Definition is_mark (c : Z) : bool := (c =? 60) || (c =? 62) || (c =? 34).
Definition marks (s : rstr) : list Z := List.filter is_mark s.

Lemma marks_app s t : marks (s ++ t) = marks s ++ marks t.
Proof. apply List.filter_app. Qed.

Lemma marks_none s : Forall (λ c, is_mark c = false) s → marks s = [].
Proof. induction 1 as [|c s Hc _ IH]; [done|]. cbn. by rewrite Hc. Qed.

Lemma filter_replace (P : Z → bool) c r s :
  List.filter P r = [] → List.filter P (replace_char c r s) = List.filter (λ x, negb (x =? c) && P x) s.
Proof.
  intros Hr. induction s as [|x s IH]; [done|]. cbn. destruct (x =? c); cbn; fold (replace_char c r s).
  - by rewrite List.filter_app, Hr, IH.
  - destruct (P x); by rewrite IH.
Qed.

Lemma marks_escape s : marks (escape_xml s) = [].
Proof.
  unfold marks, escape_xml. rewrite !filter_replace by reflexivity. induction s as [|x s IH]; [done|]. cbn [List.filter].
  rewrite IH. unfold is_mark. destruct (x =? 38), (x =? 60), (x =? 62), (x =? 34), (x =? 39); done.
Qed.

Lemma marks_hex bs : byte_list bs → marks (hex_encode bs) = [].
Proof.
  intros Hb. apply marks_none. eapply Forall_impl; [by apply hex_encode_lower|]. intros c. unfold is_hex_lower, is_mark. zbool. lia.
Qed.

Section Cards.
Context `{Blake3} `{Lowercase} `{Uppercase}.

Lemma marks_theme t :
  let '(bg, text, accent) := get_theme_colors t in
  marks bg = [] ∧ marks text = [] ∧ marks accent = [] ∧ marks (darken_color bg) = [].
Proof.
  set (plain := λ p : rstr * rstr * rstr, let '(bg, text, accent) := p in
    forallb is_empty [marks bg; marks text; marks accent; marks (darken_color bg)]).
  assert (plain (get_theme_colors t) = true) as Hp.
  { unfold get_theme_colors. repeat (destruct (str_eqb _ _); [vm_compute; reflexivity|]). vm_compute. reflexivity. }
  destruct (get_theme_colors t) as [[bg text] accent]. unfold plain in Hp. cbn [forallb] in Hp.
  destruct (marks bg), (marks text), (marks accent), (marks (darken_color bg)); try discriminate Hp. repeat split.
Qed.

Lemma marks_time ts : marks (format_timestamp ts) = [].
Proof.
  unfold format_timestamp. destruct (_ =? 0); [done|]. destruct (_ =? 1); [done|].
  rewrite marks_app, marks_none; [done|]. eapply Forall_impl; [apply Z_to_str_chars|].
  intros c. unfold is_digit, is_mark. zbool. lia.
Qed.

#[local] Opaque lit js escape_xml format_timestamp darken_color.

(** The marks of literals are not looked into. *)
Ltac hide_literals := repeat match goal with |- context [marks (lit ?s)] => generalize (marks (lit s)); intro end.

(** The marks of the picture, or of the initial in its place. *)
Definition initial_marks (i : Identity) : option (list Z) :=
  match avatar_url i with
  | Some _ => None
  | None => Some (marks (match first_char (name i) with Some c => c | None => js "?" end))
  end.

(** Neither case mapping makes or removes a mark. *)
Hypothesis upper_marks : ∀ c, marks (char_to_uppercase c) = marks c.

Definition picture_marks (o : option (list Z)) : list Z :=
  match o with
  | None => marks (lit "<image x=`20` y=`20` width=`80` height=`80` href=`") ++ marks (lit "` clip-path=`url(#avatar-clip)` />")
  | Some m =>
      marks (lit "<rect x=`20` y=`20` width=`80` height=`80` rx=`40` fill=`") ++ marks (lit "` />
            <text x=`60` y=`70` font-family=`Arial, sans-serif` font-size=`36` fill=`") ++ marks (lit "` text-anchor=`middle`>")
      ++ m ++ marks (lit "</text>")
  end.

Lemma marks_avatar i bg accent : marks bg = [] → marks accent = [] → marks (avatar_element i bg accent) = picture_marks (initial_marks i).
Proof.
  intros Hb Ha. unfold avatar_element, initial_marks. destruct (avatar_url i).
  - rewrite !marks_app, marks_escape. cbn [picture_marks]. hide_literals. reflexivity.
  - rewrite !marks_app, Hb, Ha. cbn [picture_marks]. hide_literals. destruct (first_char (name i)); [rewrite upper_marks|]; reflexivity.
Qed.

Lemma before_picture {A} (a rest h p t : list A) : rest = h ++ p ++ t → a ++ rest = (a ++ h) ++ p ++ t.
Proof. intros ->. by rewrite app_assoc. Qed.

(** The marks of a card before and after the picture are those of the template. *)
Lemma card_frame : ∃ head tail, ∀ i b s k, marks k = [] → marks (card_text i b s k) = head ++ picture_marks (initial_marks i) ++ tail.
Proof.
  eexists _, _. intros i b s k Hk. unfold card_text. pose proof (marks_theme (theme i)) as Hi.
  destruct (get_theme_colors (theme i)) as [[bg text] accent]. destruct Hi as (E1 & E2 & E3 & E4).
  rewrite !marks_app, !marks_escape, !marks_time, !marks_avatar, E1, E2, E3, E4, Hk by assumption.
  repeat (lazymatch goal with |- picture_marks _ ++ _ = _ => fail | _ => apply before_picture end). symmetry. apply app_nil_l.
Qed.

Lemma picture_length m : length (picture_marks (Some m)) = (length (picture_marks (Some [])) + length m)%nat.
Proof. cbn [picture_marks]. hide_literals. rewrite !length_app. cbn [length]. lia. Qed.

Lemma checksum_marks uid i : (∀ x, byte_list (blake3 x)) → entry_ok uid i → marks (take 12 (checksum i)) = [].
Proof.
  intros Hb Hi. rewrite (ok_checksum _ _ Hi). apply marks_none, Forall_take. eapply Forall_impl; [by apply hex_encode_lower|].
  intros c. unfold is_hex_lower, is_mark. zbool. lia.
Qed.

Lemma card_of_text i card : card_of i = Some card → ∃ b s, card = card_text i b s (take 12 (checksum i)).
Proof.
  unfold card_of. intros Hc. destruct (bio_line i) as [b|]; [|done]. destruct (id_line (id i)) as [s|]; [|done].
  unfold slice_opt in Hc. destruct (is_char_boundary _ _); [|done]. injection Hc as <-. eauto.
Qed.
End Cards.

Section Markup.
Context `{Blake3} `{Lowercase} `{Uppercase}.

(** C34 The angle brackets and quotes of every card of the registry are those of one
    template, with the marks of the picture in between: whatever the names, addresses, bios
    and themes are, they add none.  A picture's address adds none either; where there is
    no picture, the initial of the name, which is drawn unescaped, adds itself if it is a
    mark, and nothing else does. *)
Theorem card_markup_fixed :
  (∀ c, marks (char_to_uppercase c) = marks c) → (∀ x, byte_list (blake3 x)) →
  ∃ head tail, ∀ uid i card, entry_ok uid i → card_of i = Some card →
    marks card = head ++ picture_marks (initial_marks i) ++ tail ∧
    (∀ url, avatar_url i = Some url → initial_marks i = None) ∧
    (∀ x r, avatar_url i = None → name i = x :: r → 0 ≤ x < 128 → initial_marks i = Some (if is_mark x then [x] else [])).
Proof.
  intros Hup Hb. destruct (card_frame Hup) as (head & tail & Hf). exists head, tail. intros uid i card Hi (b & s & ->)%card_of_text.
  split; [by apply Hf, (checksum_marks uid)|]. unfold initial_marks. split; [by intros url ->|]. intros x r -> -> Hx.
  cbn [first_char]. rewrite (proj2 (Z.ltb_lt x 192)) by lia. cbn. by destruct (is_mark x).
Qed.

(** The initial is not escaped: without a picture, the card of someone whose name
    begins with an angle bracket has one mark more than it should. *)
Theorem card_initial_unescaped uid i card uid' j card' r x t :
  (∀ c, marks (char_to_uppercase c) = marks c) → (∀ x, byte_list (blake3 x)) →
  entry_ok uid i → entry_ok uid' j → card_of i = Some card → card_of j = Some card' →
  avatar_url i = None → name i = 60 :: r → avatar_url j = None → name j = x :: t → x < 128 → is_mark x = false →
  length (marks card) = S (length (marks card')).
Proof.
  intros Hup Hb Hi Hj (b & s & ->)%card_of_text (b' & s' & ->)%card_of_text Ai Ni Aj Nj Hx Hm.
  destruct (card_frame Hup) as (head & tail & Hf). rewrite !Hf by by eapply checksum_marks.
  assert (initial_marks i = Some [60]) as -> by (unfold initial_marks; by rewrite Ai, Ni).
  assert (initial_marks j = Some []) as ->.
  { unfold initial_marks. rewrite Aj, Nj. cbn [first_char]. rewrite (proj2 (Z.ltb_lt x 192)) by lia. cbn. by rewrite Hm. }
  rewrite !length_app, (picture_length [60]). cbn [length]. lia.
Qed.
End Markup.
End Cards.
