(* ===== verification/NbookProgram.v ===== *)
(** * wasm_programs/nbook/src/lib.rs: the nbook program

    The program behind the nbook client.  Its operations are written against an
    interface, [Storage], that says what the "state helpers" and the "util helpers" of
    the file do: one instance is the file's own helpers over the host functions
    (NbookStore.v), another keeps typed maps (NbookSpec.v). *)

From Stdlib Require Import SpecFloat.
From S2P Require Import Prelude JsValue Codec RustLib WasmHost.

Module Server.
Import Rust Host.

(** ** Requests, responses and records *)

Inductive Request : Type :=
| ReqRegister (username password : rstr)
| ReqUpdateProfile (session : rstr) (display_name bio avatar_blob_id banner_blob_id : option rstr)
| ReqLogin (username password : rstr)
| ReqLogout (session : rstr)
| ReqCreatePost (session text : rstr) (attachments : list rstr)
| ReqFollow (session target : rstr)
| ReqUnfollow (session target : rstr)
| ReqDeletePost (session post_id : rstr)
| ReqLike (session post_id : rstr)
| ReqComment (session post_id text : rstr)
| ReqFeed (session : rstr) (limit : option nat) (discover : option bool)
| ReqGetPost (post_id : rstr)
| ReqProfile (username : rstr)
| ReqSearchUsers (session query : rstr) (limit : option nat)
| ReqSuggestions (session : rstr) (limit : option nat)
| ReqFollowers (session username : rstr) (limit : option nat)
| ReqFollowing (session username : rstr) (limit : option nat).

Record User : Type := {
  username : rstr;
  password_hash : rstr;
  salt : rstr;
  user_created_at : Z;
  display_name : option rstr;
  bio : option rstr;
  avatar_blob_id : option rstr;
  banner_blob_id : option rstr;
  followers : list rstr;
  following : list rstr;
  user_posts : list rstr;
}.

Record Session : Type := {
  token : rstr;
  session_user : rstr;
  expires_ms : Z;
}.

Record Comment : Type := {
  comment_id : rstr;
  comment_author : rstr;
  comment_text : rstr;
  comment_created_at : Z;
}.

Record Attachment : Type := {
  blob_id : rstr;
  size : Z;
  attachment_hash : rstr;
}.

Record Post : Type := {
  post_id : rstr;
  author : rstr;
  text : rstr;
  attachments : list Attachment;
  created_at : Z;
  likes : list rstr;
  comments : list Comment;
}.

(** [CommentView] has the fields of [Comment]. *)
Record PostView : Type := {
  v_id : rstr;
  v_author : rstr;
  v_text : rstr;
  v_attachments : list Attachment;
  v_created_at : Z;
  v_likes : nat;
  v_comments : list Comment;
}.

Record ProfileView : Type := {
  p_username : rstr;
  p_display_name : option rstr;
  p_bio : option rstr;
  p_avatar_blob_id : option rstr;
  p_banner_blob_id : option rstr;
  p_followers : nat;
  p_following : nat;
  p_follower_list : list rstr;
  p_following_list : list rstr;
  p_posts : list rstr;
  p_created_at : Z;
}.

Record UserSummary : Type := {
  s_username : rstr;
  s_display_name : option rstr;
  s_bio : option rstr;
  s_avatar_blob_id : option rstr;
  s_banner_blob_id : option rstr;
  s_followers : nat;
}.

Inductive Response : Type :=
| RespOk (message : rstr)
| RespLoginOk (session : rstr) (expires : Z)
| RespPost (post : PostView)
| RespFeed (posts : list PostView)
| RespProfile (profile : ProfileView)
| RespUsers (users : list UserSummary)
| RespError (message : rstr).

(** Records with one field changed. *)
Definition with_profile (name b avatar banner : option rstr) (u : User) : User :=
  {| username := username u; password_hash := password_hash u; salt := salt u; user_created_at := user_created_at u;
     display_name := name; bio := b; avatar_blob_id := avatar; banner_blob_id := banner; followers := followers u;
     following := following u; user_posts := user_posts u |}.
Definition with_followers (l : list rstr) (u : User) : User :=
  {| username := username u; password_hash := password_hash u; salt := salt u; user_created_at := user_created_at u;
     display_name := display_name u; bio := bio u; avatar_blob_id := avatar_blob_id u; banner_blob_id := banner_blob_id u;
     followers := l; following := following u; user_posts := user_posts u |}.
Definition with_following (l : list rstr) (u : User) : User :=
  {| username := username u; password_hash := password_hash u; salt := salt u; user_created_at := user_created_at u;
     display_name := display_name u; bio := bio u; avatar_blob_id := avatar_blob_id u; banner_blob_id := banner_blob_id u;
     followers := followers u; following := l; user_posts := user_posts u |}.
Definition with_posts (l : list rstr) (u : User) : User :=
  {| username := username u; password_hash := password_hash u; salt := salt u; user_created_at := user_created_at u;
     display_name := display_name u; bio := bio u; avatar_blob_id := avatar_blob_id u; banner_blob_id := banner_blob_id u;
     followers := followers u; following := following u; user_posts := l |}.
Definition with_likes (l : list rstr) (p : Post) : Post :=
  {| post_id := post_id p; author := author p; text := text p; attachments := attachments p; created_at := created_at p;
     likes := l; comments := comments p |}.
Definition with_comments (l : list Comment) (p : Post) : Post :=
  {| post_id := post_id p; author := author p; text := text p; attachments := attachments p; created_at := created_at p;
     likes := likes p; comments := l |}.

(** ** Keys *)

(** A key with the type of what is stored under it. *)
Inductive key : Type → Type :=
| user_key (username : rstr) : key User
| session_key (token : rstr) : key Session
| post_key (id : rstr) : key Post
| POST_INDEX_KEY : key (list rstr)
| USER_INDEX_KEY : key (list rstr).

Definition key_text {T} (k : key T) : rstr :=
  match k with
  | user_key n => js "user:" ++ n
  | session_key t => js "session:" ++ t
  | post_key i => js "post:" ++ i
  | POST_INDEX_KEY => js "__posts"
  | USER_INDEX_KEY => js "__users"
  end.

(** ** The interface to the state, the clock and the entropy source *)

Class Storage (S : Type) : Type := {
  load_json : ∀ {T}, key T → M rstr S (option T);
  store_json : ∀ {T}, key T → T → M rstr S ();
  delete_key : ∀ {T}, key T → M rstr S ();
  state_exists : ∀ {T}, key T → M rstr S bool;
  now_ms : M rstr S Z;
  random_hex : nat → M rstr S rstr;
  random_u64 : M rstr S Z;
}.

Definition hash_password `{Blake3} (password salt : rstr) : rstr := hex_encode (blake3 (password ++ salt)).

(** ** Blob identifiers *)

Section Blobs.
Context `{NodeHost}.

Definition BLOB_PREFIX : rstr := js "blob".

Definition blob_parse (id : rstr) : outcome rstr bytes :=
  let trimmed := str_trim id in
  if is_empty trimmed then Throw (js "empty blob id")
  else
    let '(rc, raw) := onvm_blob_addr trimmed in
    if rc =? 0 then Ok raw else Throw (js "invalid blob id: " ++ Z_to_str rc).

Definition blob_exists (raw : bytes) : outcome rstr bool :=
  let rc := onvm_blob_exists raw in
  if rc =? 1 then Ok true
  else if rc =? 0 then Ok false
  else Throw (js "blob exists failed: " ++ Z_to_str rc).

Definition blob_len (raw : bytes) : outcome rstr Z :=
  let len := onvm_blob_len raw in
  if len <? 0 then Throw (js "failed to read blob length: " ++ Z_to_str len) else Ok len.

Definition blob_content_hash (raw : bytes) : outcome rstr bytes :=
  let '(rc, hash) := onvm_blob_hash raw in
  if rc =? 0 then Ok hash else Throw (js "failed to read blob hash: " ++ Z_to_str rc).

Definition require_exists (id : rstr) : outcome rstr bytes :=
  let trimmed := str_trim id in
  let! blob := blob_parse trimmed in
  let! found := blob_exists blob in
  if (found : bool) then Ok blob else Throw (js "blob " ++ trimmed ++ js " missing").

Definition canonical (raw : bytes) : rstr := BLOB_PREFIX ++ hex_encode raw.

Definition normalize_blob_id (id : rstr) : outcome rstr rstr := let! blob := blob_parse id in Ok (canonical blob).

Definition normalize_blob_id_opt (id : option rstr) : outcome rstr (option rstr) :=
  match id with
  | Some value =>
      let trimmed := str_trim value in
      if is_empty trimmed then Ok None else let! n := normalize_blob_id trimmed in Ok (Some n)
  | None => Ok None
  end.

Definition resolve_profile_blob_id (id : option rstr) : outcome rstr (option rstr) :=
  match id with
  | Some value =>
      let trimmed := str_trim value in
      if is_empty trimmed then Ok None else let! blob := require_exists trimmed in Ok (Some (canonical blob))
  | None => Ok None
  end.

Fixpoint normalize_attachments (l : list Attachment) : outcome rstr (list Attachment) :=
  match l with
  | [] => Ok []
  | a :: r =>
      let! id := normalize_blob_id (blob_id a) in
      let! r' := normalize_attachments r in
      Ok ({| blob_id := id; size := size a; attachment_hash := attachment_hash a |} :: r')
  end.

Fixpoint build_attachments (ids : list rstr) : outcome rstr (list Attachment) :=
  match ids with
  | [] => Ok []
  | id :: r =>
      let! blob := require_exists id in
      let! len := blob_len blob in
      let! hash := blob_content_hash blob in
      let! r' := build_attachments r in
      Ok ({| blob_id := canonical blob; size := len; attachment_hash := hex_encode hash |} :: r')
  end.
End Blobs.

(** ** Operations *)

Section Operations.
Context `{NodeHost} `{Blake3} `{Lowercase} {S : Type} `{Storage S}.

Abbreviation Res := (M rstr S).

(** [o.ok_or(message)?]. *)
Definition ok_or {A} (message : string) (o : option A) : Res A :=
  match o with Some a => retM a | None => throwM (js message) end.

Definition load_post_index : Res (list rstr) :=
  let* opt := load_json POST_INDEX_KEY in retM (default [] opt).

Definition append_post_index (id : rstr) : Res () :=
  let* idx := load_post_index in store_json POST_INDEX_KEY (sort_str (idx ++ [id])).

Definition remove_post_index (id : rstr) : Res () :=
  let* idx := load_post_index in store_json POST_INDEX_KEY (retain_ne id idx).

Definition load_user_index : Res (list rstr) :=
  let* opt := load_json USER_INDEX_KEY in retM (default [] opt).

Definition append_user_index (name : rstr) : Res () :=
  let* idx := load_user_index in
  if contains idx name then retM tt else store_json USER_INDEX_KEY (sort_str (idx ++ [name])).

Definition require_session_user (session_token : rstr) : Res User :=
  let* stored := load_json (session_key session_token) in
  let* session := ok_or "invalid session" stored in
  let* now := now_ms in
  if expires_ms session <? now then
    do* delete_key (session_key session_token) in throwM (js "session expired")
  else
    let* user := load_json (user_key (session_user session)) in ok_or "user not found" user.

Definition register (name password : rstr) : Res () :=
  if is_empty (str_trim name) || (length password <? 6)%nat then throwM (js "invalid username or password")
  else
    let* exists_ := state_exists (user_key name) in
    if (exists_ : bool) then throwM (js "user already exists")
    else
      let* salt_ := random_hex 16 in
      let hash := hash_password password salt_ in
      let* now := now_ms in
      do* store_json (user_key name)
        {| username := name; password_hash := hash; salt := salt_; user_created_at := now; display_name := None;
           bio := None; avatar_blob_id := None; banner_blob_id := None; followers := []; following := [];
           user_posts := [] |} in
      append_user_index name.

Definition login (name password : rstr) : Res Session :=
  let* stored := load_json (user_key name) in
  let* user := ok_or "user not found" stored in
  if negb (str_eqb (hash_password password (salt user)) (password_hash user)) then throwM (js "invalid credentials")
  else
    let* token_ := random_hex 24 in
    let* now := now_ms in
    let session := {| token := token_; session_user := name; expires_ms := now + 86400000 |} in
    do* store_json (session_key token_) session in
    retM session.

Definition logout (session_token : rstr) : Res () := delete_key (session_key session_token).

Definition longer_than (n : nat) (s : option rstr) : bool :=
  match s with Some t => (n <? length t)%nat | None => false end.

Definition update_profile (session_token : rstr) (name b avatar_id banner_id : option rstr) : Res () :=
  let* user := require_session_user session_token in
  if longer_than 64 name then throwM (js "display name too long")
  else if longer_than 280 b then throwM (js "bio too long")
  else
    let* avatar := liftM (resolve_profile_blob_id avatar_id) in
    let* banner := liftM (resolve_profile_blob_id banner_id) in
    store_json (user_key (username user)) (with_profile name b avatar banner user).

Definition load_post_view (id : rstr) : Res PostView :=
  let* stored := load_json (post_key id) in
  let* post := ok_or "post not found" stored in
  let* attachments_ := liftM (normalize_attachments (attachments post)) in
  retM {| v_id := post_id post; v_author := author post; v_text := text post; v_attachments := attachments_;
          v_created_at := created_at post; v_likes := length (likes post); v_comments := comments post |}.

Definition load_post_author (id : rstr) : Res rstr :=
  let* stored := load_json (post_key id) in
  let* post := ok_or "post not found" stored in
  retM (author post).

Definition create_post (session_token text_ : rstr) (ids : list rstr) : Res PostView :=
  let* user := require_session_user session_token in
  let* suffix := random_hex 12 in
  let id := username user ++ js "-" ++ suffix in
  let* now := now_ms in
  if (2048 <? length text_)%nat then throwM (js "text too long")
  else
    let* attachments_ := liftM (build_attachments ids) in
    do* store_json (post_key id)
      {| post_id := id; author := username user; text := text_; attachments := attachments_; created_at := now;
         likes := []; comments := [] |} in
    do* store_json (user_key (username user)) (with_posts (user_posts user ++ [id]) user) in
    do* append_post_index id in
    load_post_view id.

Definition follow (session_token target : rstr) : Res () :=
  let* me := require_session_user session_token in
  if str_eqb (username me) target then throwM (js "cannot follow self")
  else if contains (following me) target then retM tt
  else
    do* store_json (user_key (username me)) (with_following (following me ++ [target]) me) in
    let* stored := load_json (user_key target) in
    match stored with
    | Some other =>
        if contains (followers other) (username me) then retM tt
        else store_json (user_key target) (with_followers (followers other ++ [username me]) other)
    | None => retM tt
    end.

Definition unfollow (session_token target : rstr) : Res () :=
  let* me := require_session_user session_token in
  do* store_json (user_key (username me)) (with_following (retain_ne target (following me)) me) in
  let* stored := load_json (user_key target) in
  match stored with
  | Some other => store_json (user_key target) (with_followers (retain_ne (username me) (followers other)) other)
  | None => retM tt
  end.

Definition toggle_like (name : rstr) (l : list rstr) : list rstr :=
  match position name l with
  | Some pos => swap_remove pos l
  | None => l ++ [name]
  end.

Definition like (session_token id : rstr) : Res PostView :=
  let* user := require_session_user session_token in
  let* stored := load_json (post_key id) in
  let* post := ok_or "post not found" stored in
  do* store_json (post_key id) (with_likes (toggle_like (username user) (likes post)) post) in
  load_post_view id.

Definition delete_post (session_token id : rstr) : Res () :=
  let* user := require_session_user session_token in
  let* stored := load_json (post_key id) in
  let* post := ok_or "post not found" stored in
  if negb (str_eqb (author post) (username user)) then throwM (js "forbidden")
  else
    do* store_json (user_key (username user)) (with_posts (retain_ne id (user_posts user)) user) in
    do* delete_key (post_key id) in
    remove_post_index id.

Definition comment (session_token id text_ : rstr) : Res PostView :=
  if is_empty text_ || (1024 <? length text_)%nat then throwM (js "invalid comment length")
  else
    let* user := require_session_user session_token in
    let* stored := load_json (post_key id) in
    let* post := ok_or "post not found" stored in
    let* suffix := random_hex 8 in
    let* now := now_ms in
    let c := {| comment_id := id ++ js "-" ++ suffix; comment_author := username user; comment_text := text_;
                comment_created_at := now |} in
    do* store_json (post_key id) (with_comments (comments post ++ [c]) post) in
    load_post_view id.

(** ** The feed *)

(** [if let Ok(x) = c { Some(x) } else { None }]. *)
Definition try_ok {A} (c : Res A) : Res (option A) := catchM (let* a := c in retM (Some a)) (λ _, retM None).

Fixpoint retain_visible (user : User) (ids : list rstr) : Res (list rstr) :=
  match ids with
  | [] => retM []
  | id :: r =>
      let* who := try_ok (load_post_author id) in
      let* r' := retain_visible user r in
      retM (match who with
            | Some a => if str_eqb a (username user) || contains (following user) a then id :: r' else r'
            | None => r'
            end)
  end.

(** [now.saturating_sub(created_at)] in hours; newer and better liked posts score
    higher. *)
Definition post_score (p : PostView) (now : Z) : f64 :=
  let age_hours := f64_div (f64_of_Z (Z.max 0 (now - v_created_at p))) (f64_of_Z 3600000) in
  let recency := f64_div (f64_of_Z 1) (f64_add (f64_of_Z 1) age_hours) in
  f64_add (f64_mul recency (f64_of_Z 2)) (f64_sqrt (f64_of_Z (Z.of_nat (v_likes p)))).

Fixpoint score_all (now : Z) (ids : list rstr) : Res (list (f64 * PostView)) :=
  match ids with
  | [] => retM []
  | id :: r =>
      let* view := try_ok (load_post_view id) in
      let* r' := score_all now r in
      retM (match view with Some p => (post_score p now, p) :: r' | None => r' end)
  end.

Fixpoint add_jitter (l : list (f64 * PostView)) : Res (list (f64 * PostView)) :=
  match l with
  | [] => retM []
  | (s, p) :: r =>
      let* rand := try_ok random_u64 in
      let s' := match rand with
                | Some x => f64_add s (f64_div (f64_of_Z (x mod 100)) (f64_of_Z 10000))
                | None => s
                end in
      let* r' := add_jitter r in
      retM ((s', p) :: r')
  end.

(** [b.0.partial_cmp(&a.0).unwrap_or(Equal)]; the sort is stable. *)
Definition before (a b : f64 * PostView) : comparison := default Eq (SFcompare b.1 a.1).

Fixpoint insert_scored (x : f64 * PostView) (l : list (f64 * PostView)) : list (f64 * PostView) :=
  match l with
  | [] => [x]
  | y :: r => match before x y with Gt => y :: insert_scored x r | _ => x :: l end
  end.
Definition sort_scored (l : list (f64 * PostView)) : list (f64 * PostView) := foldr insert_scored [] l.

Definition feed_internal (session_token : rstr) (limit : nat) (discover : bool) : Res (list PostView) :=
  let* user := require_session_user session_token in
  let* all := load_post_index in
  let* ids := if discover then retM all else retain_visible user all in
  let* now := now_ms in
  let* scored := score_all now (take (Nat.min limit 200) ids) in
  let* scored' := add_jitter scored in
  retM (map snd (take (Nat.min limit 100) (sort_scored scored'))).

(** ** Profiles and lists of users *)

Definition profile (name : rstr) : Res ProfileView :=
  let* stored := load_json (user_key name) in
  let* user := ok_or "user not found" stored in
  let* avatar := liftM (normalize_blob_id_opt (avatar_blob_id user)) in
  let* banner := liftM (normalize_blob_id_opt (banner_blob_id user)) in
  retM {| p_username := username user; p_display_name := display_name user; p_bio := bio user; p_avatar_blob_id := avatar;
          p_banner_blob_id := banner; p_followers := length (followers user); p_following := length (following user);
          p_follower_list := followers user; p_following_list := following user; p_posts := user_posts user;
          p_created_at := user_created_at user |}.

Definition load_user_summary (name : rstr) : Res (option UserSummary) :=
  let* stored := load_json (user_key name) in
  match stored with
  | Some user =>
      let* avatar := liftM (normalize_blob_id_opt (avatar_blob_id user)) in
      let* banner := liftM (normalize_blob_id_opt (banner_blob_id user)) in
      retM (Some {| s_username := username user; s_display_name := display_name user; s_bio := bio user;
                    s_avatar_blob_id := avatar; s_banner_blob_id := banner; s_followers := length (followers user) |})
  | None => retM None
  end.

(** The loop of [search_users], with the results so far. *)
Fixpoint search_loop (q : rstr) (limit : nat) (idx : list rstr) (results : list UserSummary) : Res (list UserSummary) :=
  match idx with
  | [] => retM results
  | name :: r =>
      if (limit <=? length results)%nat then retM results
      else if str_contains q (str_to_lowercase name) then
        let* summary := load_user_summary name in
        search_loop q limit r (match summary with Some s => results ++ [s] | None => results end)
      else search_loop q limit r results
  end.

Definition search_users (session_token query : rstr) (limit : nat) : Res (list UserSummary) :=
  let* _ := require_session_user session_token in
  let* idx := load_user_index in
  search_loop (str_to_lowercase query) limit idx [].

(** The summaries of those of the names that have one. *)
Fixpoint summaries (names : list rstr) : Res (list UserSummary) :=
  match names with
  | [] => retM []
  | name :: r =>
      let* summary := load_user_summary name in
      let* r' := summaries r in
      retM (match summary with Some s => s :: r' | None => r' end)
  end.

(** [v.swap(i, j)] for indices in range. *)
Definition swap {A} (i j : nat) (l : list A) : list A :=
  match l !! i, l !! j with
  | Some x, Some y => <[i := y]> (<[j := x]> l)
  | _, _ => l
  end.

(** [for i in 0..len]; [usize] has 32 bits. *)
Fixpoint shuffle (todo i : nat) (l : list UserSummary) : Res (list UserSummary) :=
  match todo with
  | 0%nat => retM l
  | Datatypes.S todo' =>
      let* rand := try_ok random_u64 in
      shuffle todo' (Datatypes.S i)
        (match rand with
         | Some x => swap i (Z.to_nat ((x mod 2 ^ 32) mod Z.of_nat (length l))) l
         | None => l
         end)
  end.

Definition suggest_users (session_token : rstr) (limit : nat) : Res (list UserSummary) :=
  let* me := require_session_user session_token in
  let* idx := load_user_index in
  let* candidates := summaries (filter (λ n, ¬ (n = username me ∨ n ∈ following me)) idx) in
  let* shuffled := shuffle (length candidates) 0 candidates in
  retM (take (Nat.min limit 20) shuffled).

Definition list_followers (session_token name : rstr) (limit : nat) : Res (list UserSummary) :=
  let* _ := require_session_user session_token in
  let* stored := load_json (user_key name) in
  let* user := ok_or "user not found" stored in
  summaries (take limit (followers user)).

Definition list_following (session_token name : rstr) (limit : nat) : Res (list UserSummary) :=
  let* _ := require_session_user session_token in
  let* stored := load_json (user_key name) in
  let* user := ok_or "user not found" stored in
  summaries (take limit (following user)).

(** ** Dispatch *)

(** [match c { Ok(x) => f(x), Err(e) => Response::Error { message: e } }]. *)
Definition respond {A} (c : Res A) (f : A → Response) : S → Response * S := λ s,
  match c s with
  | (Ok x, s') => (f x, s')
  | (Throw e, s') => (RespError e, s')
  end.

Definition said {A} (message : string) (_ : A) : Response := RespOk (js message).

Definition handle_request (req : Request) : S → Response * S :=
  match req with
  | ReqRegister u p => respond (register u p) (said "registered")
  | ReqUpdateProfile s n b a w => respond (update_profile s n b a w) (said "profile_updated")
  | ReqLogin u p => respond (login u p) (λ sess, RespLoginOk (token sess) (expires_ms sess))
  | ReqLogout s => respond (logout s) (said "logged_out")
  | ReqCreatePost s t l => respond (create_post s t l) RespPost
  | ReqFollow s t => respond (follow s t) (said "following")
  | ReqUnfollow s t => respond (unfollow s t) (said "unfollowed")
  | ReqDeletePost s i => respond (delete_post s i) (said "deleted")
  | ReqLike s i => respond (like s i) RespPost
  | ReqComment s i t => respond (comment s i t) RespPost
  | ReqFeed s l d => respond (feed_internal s (default 20%nat l) (default false d)) RespFeed
  | ReqGetPost i => respond (load_post_view i) RespPost
  | ReqProfile u => respond (profile u) RespProfile
  | ReqSearchUsers s q l => respond (search_users s q (default 10%nat l)) RespUsers
  | ReqSuggestions s l => respond (suggest_users s (default 5%nat l)) RespUsers
  | ReqFollowers s u l => respond (list_followers s u (default 50%nat l)) RespUsers
  | ReqFollowing s u l => respond (list_following s u (default 50%nat l)) RespUsers
  end.
End Operations.
End Server.
