(* ===== verification/NbookBlobs.v ===== *)
(** * Blob identifiers as the nbook program stores them

    What the program stores for an attachment or a picture is the canonical text of
    the identifier, from which the same 32 bytes are read back. *)

From S2P Require Import Prelude JsValue Codec RustLib WasmHost NbookProgram.

Module Blobs.
Import Rust Host Server.

Lemma is_empty_false {X} (l : list X) : l ≠ [] → is_empty l = false.
Proof. by destruct l. Qed.

Section Blobs.
Context `{NodeHost}.

Lemma canonical_graphic raw : byte_list raw → graphic (canonical raw).
Proof. intros Hb. apply Forall_app. split; [by apply (bool_decide_unpack _); vm_compute|by apply hex_encode_graphic]. Qed.

Lemma parse_canonical raw : byte_list raw → length raw = 32%nat → parse_blob_id_str (canonical raw) = Some raw.
Proof.
  intros Hb Hl. unfold parse_blob_id_str, parse_prefixed_hex_id. rewrite str_trim_graphic by (by apply canonical_graphic).
  rewrite is_empty_false by done. unfold canonical. rewrite (take_app_length' BLOB_PREFIX), (drop_app_length' BLOB_PREFIX) by done.
  replace (eq_ignore_ascii_case BLOB_PREFIX BLOB_ID_PREFIX) with true by done. cbv iota beta.
  rewrite str_trim_graphic by (by apply hex_encode_graphic). rewrite hex_strict_encode by done. by rewrite Hl.
Qed.

Lemma blob_parse_canonical raw : byte_list raw → length raw = 32%nat → blob_parse (canonical raw) = Ok raw.
Proof.
  intros Hb Hl. unfold blob_parse. rewrite str_trim_graphic by (by apply canonical_graphic). rewrite is_empty_false by done.
  unfold onvm_blob_addr, read_object_id. rewrite parse_canonical by done.
  replace (length (canonical raw) =? 32)%nat with false; [done|].
  unfold canonical. rewrite length_app, length_hex_encode, Hl. done.
Qed.

(** An identifier as the program stores it. *)
Definition stored_id (s : rstr) : Prop := ∃ raw, byte_list raw ∧ length raw = 32%nat ∧ s = canonical raw.

Lemma normalize_stored s : stored_id s → normalize_blob_id s = Ok s.
Proof. intros (raw & Hb & Hl & ->). unfold normalize_blob_id. by rewrite blob_parse_canonical. Qed.

Lemma hex_strict_bytes n s bs : (length s ≤ n)%nat → hex_strict s = Some bs → byte_list bs.
Proof.
  revert s bs. induction n as [|n IH]; intros [|a [|b r]] bs Hn; cbn [hex_strict length] in *; try (by intros [= <-]; constructor); try lia.
  destruct (hex_val a) as [x|] eqn:Ha; [|done]. destruct (hex_val b) as [y|] eqn:Hb; [|done].
  destruct (hex_strict r) as [l|] eqn:Hr; [|done]. intros [= <-]. apply hex_val_range in Ha, Hb.
  constructor; [lia|]. apply (IH r); [lia|done].
Qed.

Lemma parse_blob_bytes s bs : parse_blob_id_str s = Some bs → byte_list bs ∧ length bs = 32%nat.
Proof.
  unfold parse_blob_id_str, parse_prefixed_hex_id. destruct (is_empty _); [done|].
  match goal with |- context [let '(prefix, rest) := ?p in _] => destruct p as [prefix rest] end.
  destruct (hex_strict _) as [l|] eqn:Hh; [|done]. destruct (length l =? 32)%nat eqn:Hl; [|done].
  apply Nat.eqb_eq in Hl. apply hex_strict_bytes with (n := length (str_trim rest)) in Hh; [|done].
  by destruct prefix as [[]|]; intros [= <-].
Qed.

(** What the host makes of an identifier are 32 bytes, and they are read back from
    their canonical text. *)
Lemma blob_parse_stored s raw : byte_list s → blob_parse s = Ok raw → stored_id (canonical raw).
Proof.
  unfold blob_parse. intros Hs%str_trim_bytes. destruct (is_empty _); [done|]. unfold onvm_blob_addr, read_object_id.
  destruct (length (str_trim s) =? 32)%nat eqn:Hl.
  - intros [= <-]. exists (str_trim s). split; [done|]. split; [by apply Nat.eqb_eq|done].
  - destruct (parse_blob_id_str _) as [bs|] eqn:Hp; [|done]. intros [= <-]. apply parse_blob_bytes in Hp as [Hb Hlb]. by exists bs.
Qed.

Lemma normalize_viewable l : Forall (λ a, stored_id (blob_id a)) l → normalize_attachments l = Ok l.
Proof.
  induction 1 as [|a l Ha _ IH]; [done|]. cbn [normalize_attachments]. rewrite normalize_stored by done. cbn. rewrite IH.
  by destruct a.
Qed.

Lemma build_attachments_stored ids l :
  Forall byte_list ids → build_attachments ids = Ok l → Forall (λ a, stored_id (blob_id a)) l.
Proof.
  intros Hi. revert l. induction Hi as [|id ids Hid _ IH]; intros l; cbn [build_attachments]; [intros [= <-]; constructor|].
  unfold require_exists. destruct (blob_parse _) as [raw|] eqn:Hp; [|done]. cbn. destruct (blob_exists raw) as [[]|]; [|done..]. cbn.
  destruct (blob_len raw); [|done]. cbn. destruct (blob_content_hash raw); [|done]. cbn.
  destruct (build_attachments ids) as [r|]; [|done]. cbn. intros [= <-]. constructor; [|by apply IH]. cbn. eapply blob_parse_stored; [|done].
  by apply str_trim_bytes.
Qed.

(** A profile's picture: none, or a stored identifier. *)
Lemma resolve_stored id o :
  Forall byte_list (option_list id) → resolve_profile_blob_id id = Ok o → ∀ s, o = Some s → stored_id s.
Proof.
  intros Hb. unfold resolve_profile_blob_id. destruct id as [x|]; [|by intros [= <-]]. inv Hb.
  destruct (is_empty _); [by intros [= <-]|]. unfold require_exists. destruct (blob_parse _) as [raw|] eqn:Hp; [|done]. cbn.
  destruct (blob_exists raw) as [[]|]; [|done..]. cbn. intros [= <-] s [= <-]. eapply blob_parse_stored; [|done].
  by do 2 apply str_trim_bytes.
Qed.

Lemma normalize_opt_stored o : (∀ s, o = Some s → stored_id s) → normalize_blob_id_opt o = Ok o.
Proof.
  intros Ho. destruct o as [s|]; [|done]. unfold normalize_blob_id_opt. destruct (Ho s eq_refl) as (raw & Hb & Hl & ->).
  rewrite str_trim_graphic by (by apply canonical_graphic). rewrite is_empty_false by done.
  rewrite normalize_stored; [done|by exists raw].
Qed.
End Blobs.
End Blobs.
