(* ===== verification/NbookStore.v ===== *)
(** * wasm_programs/nbook/src/lib.rs: the state helpers over the host

    [state_get], [state_put], [load_json], [store_json] and the helpers for time and
    randomness, over the host functions of WasmHost.v. *)

From S2P Require Import Prelude JsValue Codec RustLib WasmHost RustModels NbookProgram.

Module Store.
Import Rust Host RustModels Server.

(** The types the program stores. *)
Class StoredTypes : Type := {
  serde_User :: Serde User;
  serde_Session :: Serde Session;
  serde_Post :: Serde Post;
  serde_index :: Serde (list rstr);
}.

Definition key_serde `{StoredTypes} {T} (k : key T) : Serde T :=
  match k with
  | user_key _ => serde_User
  | session_key _ => serde_Session
  | post_key _ => serde_Post
  | POST_INDEX_KEY | USER_INDEX_KEY => serde_index
  end.

Section Helpers.
Context `{NodeHost}.

Abbreviation Res := (M rstr ExecutionContext).

Definition state_put (k value : bytes) : Res () := λ c,
  let '(rc, c') := onvm_state_put k value c in
  ((if rc =? 0 then Ok tt else Throw (js "state put failed: " ++ Z_to_str rc)), c').

(** [for _ in 0..rounds] with the capacity of the buffer: a length that does not fit
    is answered with its negation, and the buffer is enlarged to it. *)
Fixpoint state_get_loop (rounds : nat) (k : bytes) (cap : Z) : Res (option bytes) :=
  match rounds with
  | 0%nat => throwM (js "state get failed")
  | Datatypes.S rounds' => λ c,
      let '(len, buf) := onvm_state_get k cap c in
      if len =? 0 then (Ok None, c)
      else if 0 <? len then (Ok (Some buf), c)
      else state_get_loop rounds' k (- len) c
  end.

Definition state_get (k : bytes) : Res (option bytes) := state_get_loop 6 k 512.

Definition host_now_ms : Res Z := λ c,
  let '(ts, c') := onvm_now_ms c in (Ok (if ts <? 0 then 0 else ts), c').

Definition host_random_hex (len : nat) : Res rstr := λ c,
  let '((rc, buf), c') := onvm_random_bytes len c in
  ((if negb (rc =? 0) then Throw (js "random failed: " ++ Z_to_str rc) else Ok (hex_encode buf)), c').

(** [u64::from_le_bytes]. *)
Fixpoint le_value (bs : bytes) : Z := match bs with [] => 0 | b :: r => b + 256 * le_value r end.

Definition host_random_u64 : Res Z := λ c,
  let '((rc, buf), c') := onvm_random_bytes 8 c in
  ((if negb (rc =? 0) then Throw (js "random failed: " ++ Z_to_str rc) else Ok (le_value buf)), c').

Context `{StoredTypes}.

Definition host_store_json {T} (k : key T) (x : T) : Res () :=
  let serde := key_serde k in state_put (key_text k) (to_vec x).

Definition host_load_json {T} (k : key T) : Res (option T) :=
  let serde := key_serde k in
  let* stored := state_get (key_text k) in
  match stored with
  | Some bs => let* x := liftM (from_slice bs) in retM (Some x)
  | None => retM None
  end.

Definition host_delete_key {T} (k : key T) : Res () := state_put (key_text k) [].

Definition host_state_exists {T} (k : key T) : Res bool :=
  let* stored := state_get (key_text k) in
  retM (match stored with Some _ => true | None => false end).

(** The program as it is. *)
#[global] Instance host_storage : Storage ExecutionContext := {|
  load_json := λ T, host_load_json;
  store_json := λ T, host_store_json;
  delete_key := λ T, host_delete_key;
  state_exists := λ T, host_state_exists;
  now_ms := host_now_ms;
  random_hex := host_random_hex;
  random_u64 := host_random_u64;
|}.
End Helpers.

(** ** Reading grows the buffer once *)

Section Reading.
Context `{NodeHost}.

Lemma state_get_loop_run k rounds c :
  (2 ≤ rounds)%nat →
  state_get_loop rounds k 512 c =
    (match lookup_state k c with
     | Ok _ => Ok (value_at k c)
     | Throw _ => Throw (js "state get failed")
     end, c).
Proof.
  intros Hr. destruct rounds as [|[|rounds]]; [lia|lia|]. clear Hr.
  unfold value_at. destruct (lookup_state k c) as [[v|]|code] eqn:Hl.
  - destruct v as [|b v]; [by cbn [state_get_loop]; unfold onvm_state_get; rewrite Hl|].
    set (len := Z.of_nat (length (b :: v))). assert (0 < len) as Hpos by (unfold len; simpl; lia).
    cbn [state_get_loop]. unfold onvm_state_get at 1. rewrite Hl. fold len.
    assert (onvm_state_get k len c = (len, b :: v)) as Hbig.
    { unfold onvm_state_get. rewrite Hl. fold len. by rewrite Z.ltb_irrefl. }
    destruct (512 <? len).
    + rewrite (proj2 (Z.eqb_neq (- len) 0)), (proj2 (Z.ltb_ge 0 (- len))) by lia. rewrite Z.opp_involutive, Hbig.
      by rewrite (proj2 (Z.eqb_neq len 0)), (proj2 (Z.ltb_lt 0 len)) by lia.
    + by rewrite (proj2 (Z.eqb_neq len 0)), (proj2 (Z.ltb_lt 0 len)) by lia.
  - cbn [state_get_loop]. unfold onvm_state_get. by rewrite Hl.
  - assert (code = -3) as ->.
    { unfold lookup_state in Hl. destruct (pending_writes c !! k); [done|]. by destruct (db_fails k); [injection Hl|]. }
    generalize (Datatypes.S (Datatypes.S rounds)). intros n. generalize 512. induction n as [|n IH]; intros cap; [done|].
    cbn [state_get_loop]. unfold onvm_state_get at 1. rewrite Hl. apply IH.
Qed.

(** Reading the state ends after at most two of its six rounds, whatever the size
    of the value, with exactly the value (a deleted or missing one is none); if the
    node cannot read its database all six rounds fail and an error is returned.
    The state is not changed. *)
Theorem state_get_terminates (k : bytes) (rounds : nat) (c : ExecutionContext) :
  (2 ≤ rounds)%nat →
  state_get_loop rounds k 512 c =
    (match lookup_state k c with
     | Ok _ => Ok (value_at k c)
     | Throw _ => Throw (js "state get failed")
     end, c).
Proof. apply state_get_loop_run. Qed.
End Reading.

Lemma state_get_terminates_witness :
  @state_get_loop quiet_node 6 (js "k") 512 {| db := {[ js "k" := replicate 600 65 ]}; pending_writes := ∅; ticks := 0; draws := 0 |}
  = (Ok (Some (replicate 600 65)), {| db := {[ js "k" := replicate 600 65 ]}; pending_writes := ∅; ticks := 0; draws := 0 |}).
Proof. rewrite (@state_get_terminates quiet_node) by lia. vm_compute. reflexivity. Defined.
End Store.
