(* ===== verification/NbookSpec.v ===== *)
(** * The nbook program over typed maps, and the refinement

    What the program promises is easiest to say over maps of users, sessions and
    posts.  They are another instance of the interface the program is written
    against; the theorem of this file is that the program over the host's byte
    store gives the same responses and keeps representing the same maps. *)

From S2P Require Import Prelude JsValue Codec RustLib WasmHost NbookProgram NbookStore.

Module Spec.
Import Rust Host Server Store.

(** [clock_reads] and [random_reads] count the readings. *)
Record social : Type := {
  users : gmap rstr User;
  sessions : gmap rstr Session;
  posts : gmap rstr Post;
  post_index : option (list rstr);
  user_index : option (list rstr);
  clock_reads : nat;
  random_reads : nat;
}.

Definition set_users (x : gmap rstr User) (A : social) : social :=
  {| users := x; sessions := sessions A; posts := posts A; post_index := post_index A; user_index := user_index A;
     clock_reads := clock_reads A; random_reads := random_reads A |}.
Definition set_sessions (x : gmap rstr Session) (A : social) : social :=
  {| users := users A; sessions := x; posts := posts A; post_index := post_index A; user_index := user_index A;
     clock_reads := clock_reads A; random_reads := random_reads A |}.
Definition set_posts (x : gmap rstr Post) (A : social) : social :=
  {| users := users A; sessions := sessions A; posts := x; post_index := post_index A; user_index := user_index A;
     clock_reads := clock_reads A; random_reads := random_reads A |}.
Definition set_post_index (x : option (list rstr)) (A : social) : social :=
  {| users := users A; sessions := sessions A; posts := posts A; post_index := x; user_index := user_index A;
     clock_reads := clock_reads A; random_reads := random_reads A |}.
Definition set_user_index (x : option (list rstr)) (A : social) : social :=
  {| users := users A; sessions := sessions A; posts := posts A; post_index := post_index A; user_index := x;
     clock_reads := clock_reads A; random_reads := random_reads A |}.
Definition tick (A : social) : social :=
  {| users := users A; sessions := sessions A; posts := posts A; post_index := post_index A; user_index := user_index A;
     clock_reads := S (clock_reads A); random_reads := random_reads A |}.
Definition draw (A : social) : social :=
  {| users := users A; sessions := sessions A; posts := posts A; post_index := post_index A; user_index := user_index A;
     clock_reads := clock_reads A; random_reads := S (random_reads A) |}.

Definition empty_social : social :=
  {| users := ∅; sessions := ∅; posts := ∅; post_index := None; user_index := None; clock_reads := 0; random_reads := 0 |}.

Definition get {T} (k : key T) (A : social) : option T :=
  match k with
  | user_key n => users A !! n
  | session_key t => sessions A !! t
  | post_key i => posts A !! i
  | POST_INDEX_KEY => post_index A
  | USER_INDEX_KEY => user_index A
  end.

Definition put {T} (k : key T) : T → social → social :=
  match k with
  | user_key n => λ u A, set_users (<[n := u]> (users A)) A
  | session_key t => λ s A, set_sessions (<[t := s]> (sessions A)) A
  | post_key i => λ p A, set_posts (<[i := p]> (posts A)) A
  | POST_INDEX_KEY => λ l A, set_post_index (Some l) A
  | USER_INDEX_KEY => λ l A, set_user_index (Some l) A
  end.

Definition remove {T} (k : key T) (A : social) : social :=
  match k with
  | user_key n => set_users (delete n (users A)) A
  | session_key t => set_sessions (delete t (sessions A)) A
  | post_key i => set_posts (delete i (posts A)) A
  | POST_INDEX_KEY => set_post_index None A
  | USER_INDEX_KEY => set_user_index None A
  end.

Section Instance_.
Context `{NodeHost}.

(** The [n]-th reading of the clock, in milliseconds. *)
Definition time_at (n : nat) : Z :=
  let ts := match system_time n with Some ms => as_i64 ms | None => -1 end in
  if ts <? 0 then 0 else ts.

#[global] Instance social_storage : Storage social := {|
  load_json := λ T k A, (Ok (get k A), A);
  store_json := λ T k x A, (Ok tt, put k x A);
  delete_key := λ T k A, (Ok tt, remove k A);
  state_exists := λ T k A, (Ok (match get k A with Some _ => true | None => false end), A);
  now_ms := λ A, (Ok (time_at (clock_reads A)), tick A);
  random_hex := λ n A, (Ok (hex_encode (os_random (random_reads A) n)), draw A);
  random_u64 := λ A, (Ok (le_value (os_random (random_reads A) 8)), draw A);
|}.
End Instance_.

(** ** Representation *)

Section Refinement.
Context `{NodeHost} `{StoredTypes} `{Blake3} `{Lowercase}.
(** The node can read its database. *)
Hypothesis db_answers : ∀ k, db_fails k = false.

Definition encoded {T} (k : key T) : T → bytes := @to_vec T (key_serde k).

Record represents (c : ExecutionContext) (A : social) : Prop := {
  rep_values : ∀ T (k : key T), value_at (key_text k) c = encoded k <$> get k A;
  rep_ticks : ticks c = clock_reads A;
  rep_draws : draws c = random_reads A;
}.

Lemma state_get_run k c : state_get k c = (Ok (value_at k c), c).
Proof. unfold state_get. rewrite state_get_loop_run by lia. by destruct (lookup_ok k c (db_answers k)) as [o ->]. Qed.

Lemma app_prefix_ne (p q a b : rstr) : hd 0 p ≠ hd 0 q → p ≠ [] → q ≠ [] → p ++ a ≠ q ++ b.
Proof. destruct p, q; simpl; try done. intros Hne _ _ [= Heq _]. done. Qed.

(** Two keys with the same text are the same key. *)
Lemma get_put {T T'} (k : key T) (k' : key T') x A :
  if decide (key_text k' = key_text k) then
    encoded k' <$> get k' (put k x A) = Some (encoded k x)
  else get k' (put k x A) = get k' A.
Proof.
  destruct k as [n|n|n| |], k' as [n'|n'|n'| |]; cbn [key_text get put];
    case_decide as Hk; try (by apply app_prefix_ne in Hk); try done;
    try (apply app_inv_head in Hk as ->; cbn [users sessions posts set_users set_sessions set_posts]; by rewrite lookup_insert_eq);
    cbn [users sessions posts set_users set_sessions set_posts]; rewrite lookup_insert_ne; congruence.
Qed.

Lemma get_remove {T T'} (k : key T) (k' : key T') A :
  get k' (remove k A) = if decide (key_text k' = key_text k) then None else get k' A.
Proof.
  destruct k as [n|n|n| |], k' as [n'|n'|n'| |]; cbn [key_text get remove];
    case_decide as Hk; try (by apply app_prefix_ne in Hk); try done;
    try (apply app_inv_head in Hk as ->; cbn [users sessions posts set_users set_sessions set_posts]; by rewrite lookup_delete_eq);
    cbn [users sessions posts set_users set_sessions set_posts]; rewrite lookup_delete_ne; congruence.
Qed.

Lemma represents_put {T} (k : key T) x c A :
  represents c A → represents (written_context (key_text k) (encoded k x) c) (put k x A).
Proof.
  intros [Hv Ht Hd]. split; [|by destruct k..]. intros T' k'. rewrite value_at_written.
  pose proof (get_put k k' x A) as Hg. case_decide as Hk; [|by rewrite Hg].
  rewrite Hg. unfold encoded. destruct (@to_vec T (key_serde k) x) eqn:He; [by apply to_vec_filled in He|done].
Qed.

Lemma represents_remove {T} (k : key T) c A :
  represents c A → represents (written_context (key_text k) [] c) (remove k A).
Proof.
  intros [Hv Ht Hd]. split; [|by destruct k..]. intros T' k'. rewrite value_at_written, get_remove. by case_decide.
Qed.

(** ** Simulation *)

Definition simulates {X} (c1 : M rstr ExecutionContext X) (c2 : M rstr social X) : Prop :=
  ∀ c A, represents c A → (c1 c).1 = (c2 A).1 ∧ represents (c1 c).2 (c2 A).2.

Lemma sim_ret {X} (x : X) : simulates (retM x) (retM x).
Proof. by intros c A Hr. Qed.

Lemma sim_throw {X} e : simulates (X := X) (throwM e) (throwM e).
Proof. by intros c A Hr. Qed.

Lemma sim_lift {X} (o : outcome rstr X) : simulates (liftM o) (liftM o).
Proof. by intros c A Hr. Qed.

Lemma sim_bind {X Y} (c1 : M rstr ExecutionContext X) c2 (k1 : X → M rstr ExecutionContext Y) k2 :
  simulates c1 c2 → (∀ x, simulates (k1 x) (k2 x)) → simulates (bindM c1 k1) (bindM c2 k2).
Proof.
  intros Hc Hk c A Hr. destruct (Hc c A Hr) as [Ho Hr']. unfold bindM.
  destruct (c1 c) as [[x|e] c'], (c2 A) as [[x'|e'] A']; simpl in *; simplify_eq; [|done]. by apply Hk.
Qed.

Lemma sim_catch {X} (c1 : M rstr ExecutionContext X) c2 h1 h2 :
  simulates c1 c2 → (∀ e, simulates (h1 e) (h2 e)) → simulates (catchM c1 h1) (catchM c2 h2).
Proof.
  intros Hc Hh c A Hr. destruct (Hc c A Hr) as [Ho Hr']. unfold catchM.
  destruct (c1 c) as [[x|e] c'], (c2 A) as [[x'|e'] A']; simpl in *; simplify_eq; [done|]. by apply Hh.
Qed.

Lemma sim_load {T} (k : key T) : simulates (load_json k) (load_json k).
Proof.
  intros c A Hr. cbn [load_json host_storage social_storage]. unfold host_load_json, bindM. rewrite state_get_run.
  rewrite (rep_values _ _ Hr). unfold encoded. destruct (get k A) as [x|]; cbn [fmap option_fmap option_map]; [|done].
  unfold liftM. by rewrite from_slice_to_vec.
Qed.

Lemma sim_store {T} (k : key T) x : simulates (store_json k x) (store_json k x).
Proof. intros c A Hr. split; [done|]. by apply represents_put. Qed.

Lemma sim_delete {T} (k : key T) : simulates (delete_key k) (delete_key k).
Proof. intros c A Hr. split; [done|]. by apply represents_remove. Qed.

Lemma sim_exists {T} (k : key T) : simulates (state_exists k) (state_exists k).
Proof.
  intros c A Hr. cbn [state_exists host_storage social_storage]. unfold host_state_exists, bindM. rewrite state_get_run.
  rewrite (rep_values _ _ Hr). by destruct (get k A).
Qed.

Lemma sim_now : simulates now_ms now_ms.
Proof.
  intros c A [Hv Ht Hd]. cbn [now_ms host_storage social_storage]. unfold host_now_ms, onvm_now_ms, time_at. simpl.
  split; [by rewrite Ht|]. split; [exact Hv|simpl; congruence|done].
Qed.

Lemma sim_random_hex n : simulates (random_hex n) (random_hex n).
Proof.
  intros c A [Hv Ht Hd]. cbn [random_hex host_storage social_storage]. unfold host_random_hex, onvm_random_bytes. simpl.
  split; [by rewrite Hd|]. split; [exact Hv|done|simpl; congruence].
Qed.

Lemma sim_random_u64 : simulates random_u64 random_u64.
Proof.
  intros c A [Hv Ht Hd]. cbn [random_u64 host_storage social_storage]. unfold host_random_u64, onvm_random_bytes. simpl.
  split; [by rewrite Hd|]. split; [exact Hv|done|simpl; congruence].
Qed.
End Refinement.

Create HintDb simulation discriminated.
#[export] Hint Constants Opaque : simulation.

(** Goes through a computation of the program step by step. *)
Ltac simulate_step :=
  lazymatch goal with
  | |- simulates (bindM _ _) _ => apply sim_bind; [|intros ?]
  | |- simulates (catchM _ _) _ => apply sim_catch; [|intros ?]
  | |- simulates (ok_or _ ?o) _ => unfold ok_or; destruct o
  | |- simulates (try_ok _) _ => unfold try_ok
  | |- simulates (match ?x with _ => _ end) _ => destruct x
  | |- simulates (if ?x then _ else _) _ => destruct x
  | |- simulates (retM _) _ => apply sim_ret
  | |- simulates (throwM _) _ => apply sim_throw
  | |- simulates (liftM _) _ => apply sim_lift
  | |- simulates (load_json _) _ => by apply sim_load
  | |- simulates (store_json _ _) _ => apply sim_store
  | |- simulates (delete_key _) _ => apply sim_delete
  | |- simulates (state_exists _) _ => by apply sim_exists
  | |- simulates now_ms _ => apply sim_now
  | |- simulates (random_hex _) _ => apply sim_random_hex
  | |- simulates random_u64 _ => apply sim_random_u64
  | |- simulates _ _ => solve [auto 2 with simulation]
  end.
Ltac simulate := repeat simulate_step.

Section Program_.
Context `{NodeHost} `{StoredTypes} `{Blake3} `{Lowercase}.
Hypothesis db_answers : ∀ k, db_fails k = false.

Lemma sim_load_post_view id : simulates (load_post_view id) (load_post_view id).
Proof. unfold load_post_view. simulate. Qed.
Lemma sim_load_post_author id : simulates (load_post_author id) (load_post_author id).
Proof. unfold load_post_author. simulate. Qed.
Lemma sim_load_user_summary n : simulates (load_user_summary n) (load_user_summary n).
Proof. unfold load_user_summary. simulate. Qed.
Lemma sim_load_post_index : simulates load_post_index load_post_index.
Proof. unfold load_post_index. simulate. Qed.
Lemma sim_load_user_index : simulates load_user_index load_user_index.
Proof. unfold load_user_index. simulate. Qed.
Lemma sim_require_session_user t : simulates (require_session_user t) (require_session_user t).
Proof. unfold require_session_user. simulate. Qed.
#[local] Hint Resolve sim_load_post_view sim_load_post_author sim_load_user_summary sim_load_post_index
  sim_load_user_index sim_require_session_user : simulation.

Lemma sim_append_post_index id : simulates (append_post_index id) (append_post_index id).
Proof. unfold append_post_index. simulate. Qed.
Lemma sim_remove_post_index id : simulates (remove_post_index id) (remove_post_index id).
Proof. unfold remove_post_index. simulate. Qed.
Lemma sim_append_user_index n : simulates (append_user_index n) (append_user_index n).
Proof. unfold append_user_index. simulate. Qed.

Lemma sim_retain_visible user ids : simulates (retain_visible user ids) (retain_visible user ids).
Proof. induction ids; cbn [retain_visible]; simulate. Qed.
Lemma sim_score_all now ids : simulates (score_all now ids) (score_all now ids).
Proof. induction ids; cbn [score_all]; simulate. Qed.
Lemma sim_add_jitter l : simulates (add_jitter l) (add_jitter l).
Proof. induction l as [|[s p] l IH]; cbn [add_jitter]; simulate. Qed.
Lemma sim_search_loop q limit idx results : simulates (search_loop q limit idx results) (search_loop q limit idx results).
Proof. revert results. induction idx; intros results; cbn [search_loop]; simulate. Qed.
Lemma sim_summaries names : simulates (summaries names) (summaries names).
Proof. induction names; cbn [summaries]; simulate. Qed.
Lemma sim_shuffle todo i l : simulates (shuffle todo i l) (shuffle todo i l).
Proof. revert i l. induction todo as [|todo IH]; intros i l; cbn [shuffle]; simulate. Qed.
#[local] Hint Resolve sim_append_post_index sim_remove_post_index sim_append_user_index sim_retain_visible sim_score_all
  sim_add_jitter sim_search_loop sim_summaries sim_shuffle : simulation.

Lemma sim_respond {X} (c1 : M rstr ExecutionContext X) c2 f c A :
  simulates c1 c2 → represents c A →
  (respond c1 f c).1 = (respond c2 f A).1 ∧ represents (respond c1 f c).2 (respond c2 f A).2.
Proof.
  intros Hc Hr. destruct (Hc c A Hr) as [Ho Hr']. unfold respond.
  destruct (c1 c) as [[x|e] c'], (c2 A) as [[x'|e'] A']; simpl in *; by simplify_eq.
Qed.

Lemma sim_handle_request req c A :
  represents c A →
  (handle_request req c).1 = (handle_request req A).1 ∧ represents (handle_request req c).2 (handle_request req A).2.
Proof.
  intros Hr. destruct req; apply sim_respond; try done;
    unfold register, update_profile, login, logout, create_post, follow, unfollow, delete_post, like, comment, feed_internal,
      profile, search_users, suggest_users, list_followers, list_following; simulate.
Qed.

(** Requests one after the other, each in an execution of its own. *)
Fixpoint serve {St} `{Storage St} (commit : St → St) (reqs : list Request) (s : St) : list Response * St :=
  match reqs with
  | [] => ([], s)
  | req :: rest =>
      let '(r, s') := handle_request req s in
      let '(rs, s'') := serve commit rest (commit s') in (r :: rs, s'')
  end.

Lemma represents_next c A : represents c A → represents (next_execution c) A.
Proof.
  intros [Hv Ht Hd]. split; [|done..]. intros T k. rewrite <- Hv. by apply value_at_next.
Qed.

Lemma fresh_represents : represents fresh_context empty_social.
Proof.
  split; [|done..]. intros T k. unfold value_at, lookup_state. cbn [pending_writes db fresh_context].
  rewrite lookup_empty, db_answers, lookup_empty. by destruct k.
Qed.

Lemma sim_serve reqs c A :
  represents c A →
  (serve next_execution reqs c).1 = (serve Datatypes.id reqs A).1 ∧
  represents (serve next_execution reqs c).2 (serve Datatypes.id reqs A).2.
Proof.
  revert c A. induction reqs as [|req reqs IH]; intros c A Hr; [done|]. cbn [serve].
  destruct (sim_handle_request req c A Hr) as [Ho Hr']. destruct (handle_request req c) as [o c'], (handle_request req A) as [o' A'].
  simpl in Ho, Hr'. subst o'. destruct (IH (next_execution c') A') as [Hos Hr'']; [by apply represents_next|].
  change (Datatypes.id A') with A'.
  destruct (serve next_execution reqs (next_execution c')), (serve Datatypes.id reqs A'); simpl in *.
  by rewrite Hos.
Qed.
End Program_.

(** C27 Refinement: served request by request, with its writes committed to the database
    after each, the program over the host's byte store (JSON texts under prefixed
    keys, a deleted record being the empty text, values read through a buffer that
    grows) gives the responses of the same program over typed maps, for every
    sequence of requests, and its store represents those maps in the end. *)
Theorem program_refines_maps `{NodeHost} `{StoredTypes} `{Blake3} `{Lowercase} (reqs : list Request) :
  (∀ k, db_fails k = false) →
  let '(answers, c) := serve next_execution reqs fresh_context in
  let '(answers', A) := serve Datatypes.id reqs empty_social in
  answers = answers' ∧ ∀ T (k : key T), value_at (key_text k) c = encoded k <$> get k A.
Proof.
  intros Hdb. pose proof (sim_serve Hdb reqs _ _ (fresh_represents Hdb)) as [Ho Hr].
  destruct (serve next_execution reqs fresh_context), (serve Datatypes.id reqs empty_social). simpl in *.
  split; [done|]. apply Hr.
Qed.
End Spec.
