(* ===== verification/NbookSocial.v ===== *)
(** * What the nbook program keeps and allows

    Theorems on the program over typed maps: the invariant of its records, who may
    change what, following, likes, sessions and the feed. *)

From Stdlib Require Import SpecFloat Sorted.
From S2P Require Import Prelude JsValue Codec RustLib WasmHost NbookProgram NbookStore NbookSpec.

Module Social.
Import Rust Host Server Store Spec.

Section Facts.
Context `{NodeHost} `{Blake3} `{Lowercase}.

(** ** Sessions *)

Definition clock (A : social) : Z := time_at (clock_reads A).

(** The user a token stands for. *)
Definition session_of (A : social) (t : rstr) : option User :=
  match sessions A !! t with
  | Some s => if expires_ms s <? clock A then None else users A !! session_user s
  | None => None
  end.

(** What a request with a token that stands for nobody leaves, and its error. *)
Definition refused (A : social) (t : rstr) : social :=
  match sessions A !! t with
  | Some s => if expires_ms s <? clock A then remove (session_key t) (tick A) else tick A
  | None => A
  end.

Definition refusal (A : social) (t : rstr) : rstr :=
  match sessions A !! t with
  | Some s => if expires_ms s <? clock A then js "session expired" else js "user not found"
  | None => js "invalid session"
  end.

Lemma as_session {X} t (k : User → M rstr social X) A :
  bindM (require_session_user t) k A =
  match session_of A t with Some u => k u (tick A) | None => (Throw (refusal A t), refused A t) end.
Proof.
  unfold session_of, refused, refusal, require_session_user, bindM. cbn [load_json social_storage get].
  destruct (sessions A !! t) as [s|]; cbn [ok_or retM throwM]; [|done]. cbn [now_ms social_storage].
  fold (clock A). destruct (expires_ms s <? clock A); [done|]. cbn [get tick users].
  by destruct (users A !! session_user s).
Qed.

(** ** The invariant *)

Definition short (n : nat) (o : option rstr) : Prop := ∀ s, o = Some s → (length s ≤ n)%nat.

Record user_ok (n : rstr) (u : User) : Prop := {
  uo_name : username u = n;
  uo_filled : str_trim n ≠ [];
  uo_display : short 64 (display_name u);
  uo_bio : short 280 (bio u);
  uo_followers : NoDup (followers u);
  uo_following : NoDup (following u);
  uo_self : n ∉ following u;
}.

Record post_ok (i : rstr) (p : Post) : Prop := {
  po_id : post_id p = i;
  po_form : ∃ suffix, i = author p ++ js "-" ++ suffix ∧ length suffix = 24%nat;
  po_text : (length (text p) ≤ 2048)%nat;
  po_likes : NoDup (likes p);
  po_comments : Forall (λ c, comment_text c ≠ [] ∧ (length (comment_text c) ≤ 1024)%nat) (comments p);
}.

Definition known (A : social) (n : rstr) : Prop := is_Some (users A !! n).
Definition index (A : social) : list rstr := default [] (post_index A).
Definition names (A : social) : list rstr := default [] (user_index A).

Record well_kept (A : social) : Prop := {
  wk_user : ∀ n u, users A !! n = Some u → user_ok n u;
  wk_session : ∀ t s, sessions A !! t = Some s → token s = t ∧ known A (session_user s);
  wk_post : ∀ i p, posts A !! i = Some p → post_ok i p;
  wk_author : ∀ i p, posts A !! i = Some p → ∃ u, users A !! author p = Some u ∧ i ∈ user_posts u;
  wk_owned : ∀ n u i, users A !! n = Some u → i ∈ user_posts u → ∃ p, posts A !! i = Some p ∧ author p = n;
  wk_voices : ∀ i p, posts A !! i = Some p →
                Forall (known A) (likes p) ∧ Forall (λ c, known A (comment_author c)) (comments p);
  wk_index : StronglySorted str_le (index A) ∧ ∀ i, i ∈ index A ↔ is_Some (posts A !! i);
  wk_names : StronglySorted str_le (names A) ∧ NoDup (names A) ∧ ∀ n, n ∈ names A ↔ known A n;
  wk_follow : ∀ v w u, users A !! v = Some w → u ∈ followers w → ∃ x, users A !! u = Some x ∧ v ∈ following x;
}.

(** The counters are not part of it. *)
Lemma well_kept_tick A : well_kept A → well_kept (tick A).
Proof. by intros []. Qed.
Lemma well_kept_draw A : well_kept A → well_kept (draw A).
Proof. by intros []. Qed.

Lemma well_kept_end A t : well_kept A → well_kept (remove (session_key t) A).
Proof.
  intros [K1 K2 K3 K4 K5 K6 K7 K8 K9]. split; try done. intros t' s. cbn [sessions remove set_sessions].
  rewrite lookup_delete_Some. intros [_ Hs]. by apply K2.
Qed.

Lemma well_kept_refused A t : well_kept A → well_kept (refused A t).
Proof.
  intros HA. unfold refused. destruct (sessions A !! t); [|done]. case_match; [|by apply well_kept_tick].
  by apply well_kept_end, well_kept_tick.
Qed.

Lemma well_kept_empty : well_kept empty_social.
Proof.
  split; intros *; cbn [users sessions posts empty_social]; rewrite ?lookup_empty; try done.
  - split; [constructor|]. intros i. cbn. rewrite lookup_empty, elem_of_nil. by split; [|intros []].
  - split; [constructor|]. split; [constructor|]. intros i. unfold known. cbn. rewrite lookup_empty, elem_of_nil. by split; [|intros []].
Qed.

Lemma known_put A n u m : known A m → known (put (user_key n) u A) m.
Proof.
  unfold known. cbn. intros Hm. destruct (decide (n = m)) as [->|Hne]; [rewrite lookup_insert_eq; eauto|].
  by rewrite lookup_insert_ne.
Qed.

Lemma known_put_inv A n u m : known A n → known (put (user_key n) u A) m → known A m.
Proof. unfold known. cbn. rewrite lookup_insert_is_Some'. by intros Hn [<-|?]. Qed.

(** A user's record is rewritten with the same posts; whoever it has as a follower
    follows the user, and the user follows everybody who has the user as a follower. *)
Lemma well_kept_user A n u u' :
  well_kept A → users A !! n = Some u → user_ok n u' → user_posts u' = user_posts u →
  (∀ x, x ∈ followers u' → ∃ y, users (put (user_key n) u' A) !! x = Some y ∧ n ∈ following y) →
  (∀ v w, users A !! v = Some w → n ∈ followers w → v ∈ following u') →
  well_kept (put (user_key n) u' A).
Proof.
  intros [K1 K2 K3 K4 K5 K6 K7 K8 K9] Hu Hok Hp Hf Hg.
  split.
  - intros m x. cbn. rewrite lookup_insert_Some. intros [[<- <-]|[_ Hx]]; [done|by apply K1].
  - intros t s Hs. destruct (K2 t s Hs) as [Ht Hk]. split; [done|by apply known_put].
  - done.
  - intros i p Hi. destruct (K4 i p Hi) as (x & Hx & Hin). cbn. destruct (decide (n = author p)) as [Heq|Hne].
    + rewrite <- Heq in *. rewrite lookup_insert_eq. exists u'. split; [done|]. rewrite Hp. congruence.
    + rewrite lookup_insert_ne by done. eauto.
  - intros m x i. cbn. rewrite lookup_insert_Some. intros [[<- <-]|[_ Hx]]; [rewrite Hp; by apply K5|by apply K5].
  - intros i p Hi. destruct (K6 i p Hi) as [Hl Hc].
    split; (eapply Forall_impl; [eassumption|]; simpl; eauto using known_put).
  - done.
  - destruct K8 as (Hs & Hd & Hin). split; [done|]. split; [done|]. intros m. unfold names in *. cbn. rewrite Hin.
    split; [apply known_put|]. apply known_put_inv. unfold known. eauto.
  - intros v w x. cbn. rewrite lookup_insert_Some. intros [[<- <-]|[Hne Hw]] Hx; [by apply Hf|].
    destruct (decide (n = x)) as [->|Hnx]; [|rewrite lookup_insert_ne by done; by eapply K9].
    rewrite lookup_insert_eq. eauto.
Qed.

(** As long as nobody is unfollowed. *)
Lemma well_kept_profile A n u u' :
  well_kept A → users A !! n = Some u → user_ok n u' → user_posts u' = user_posts u → followers u' = followers u →
  (∀ v, v ∈ following u → v ∈ following u') → well_kept (put (user_key n) u' A).
Proof.
  intros HA Hu Hok Hp Hf Hg. apply (well_kept_user A n u); try done.
  - intros x. rewrite Hf. intros Hx. destruct (wk_follow A HA n u x Hu Hx) as (y & Hy & Hin). cbn.
    destruct (decide (n = x)) as [->|Hne]; [rewrite lookup_insert_eq|rewrite lookup_insert_ne by done; eauto].
    exists u'. split; [done|]. apply Hg. congruence.
  - intros v w Hw Hn. destruct (wk_follow A HA v w n Hw Hn) as (y & Hy & Hin). apply Hg. congruence.
Qed.

(** A post's record is rewritten with the same author. *)
Lemma well_kept_post A i p p' :
  well_kept A → posts A !! i = Some p → post_ok i p' → author p' = author p →
  Forall (known A) (likes p') → Forall (λ c, known A (comment_author c)) (comments p') →
  well_kept (put (post_key i) p' A).
Proof.
  intros [K1 K2 K3 K4 K5 K6 K7 K8 K9] Hi Hok Ha Hl Hc. split; try done.
  - intros j x. cbn. rewrite lookup_insert_Some. intros [[<- <-]|[_ Hx]]; [done|by apply K3].
  - intros j x. cbn. rewrite lookup_insert_Some. intros [[<- <-]|[_ Hx]]; [rewrite Ha|]; by eapply K4.
  - intros n u j Hu Hj. cbn. destruct (K5 n u j Hu Hj) as (x & Hx & Hax).
    destruct (decide (i = j)) as [->|Hne]; [rewrite lookup_insert_eq; exists p'; split; [done|congruence]|].
    rewrite lookup_insert_ne by done. eauto.
  - intros j x. cbn. rewrite lookup_insert_Some. intros [[<- <-]|[_ Hx]]; [done|exact (K6 j x Hx)].
  - destruct K7 as [Hs Hin]. split; [done|]. intros j. unfold index in *. cbn. rewrite Hin, lookup_insert_is_Some'.
    split; [by right|]. intros [<-|?]; eauto.
Qed.

(** A session is opened for a user there is. *)
Lemma well_kept_session A t s :
  well_kept A → token s = t → known A (session_user s) → well_kept (put (session_key t) s A).
Proof.
  intros [K1 K2 K3 K4 K5 K6 K7 K8 K9] Ht Hk. split; try done. intros t' s'. cbn. rewrite lookup_insert_Some.
  intros [[<- <-]|[_ Hs]]; [done|by apply K2].
Qed.

Lemma elem_sort_snoc (x y : rstr) l : x ∈ sort_str (l ++ [y]) ↔ x ∈ l ∨ x = y.
Proof. by rewrite sort_str_perm, elem_of_app, list_elem_of_singleton. Qed.

(** A user joins. *)
Lemma well_kept_join A n u :
  well_kept A → users A !! n = None → user_ok n u → followers u = [] → user_posts u = [] →
  well_kept (put USER_INDEX_KEY (sort_str (names A ++ [n])) (put (user_key n) u A)).
Proof.
  intros [K1 K2 K3 K4 K5 K6 K7 K8 K9] Hn Hok Hf Hp.
  split; cbn [users sessions posts put set_users set_user_index].
  - intros m x. rewrite lookup_insert_Some. intros [[<- <-]|[_ Hx]]; [done|by apply K1].
  - intros t s Hs. destruct (K2 t s Hs) as [Ht Hk]. split; [done|by apply (known_put A n u)].
  - done.
  - intros i p Hi. destruct (K4 i p Hi) as (x & Hx & Hin). exists x. split; [|done].
    rewrite lookup_insert_ne; [done|]. intros ->. congruence.
  - intros m x i. rewrite lookup_insert_Some. intros [[<- <-]|[_ Hx]]; [rewrite Hp; by intros ?%elem_of_nil|by apply K5].
  - intros i p Hi. destruct (K6 i p Hi) as [Hl Hc].
    split; (eapply Forall_impl; [eassumption|]; simpl; intros; by apply (known_put A n u)).
  - done.
  - destruct K8 as (Hs & Hd & Hin). unfold names at 1 2 3. cbn [user_index set_user_index default from_option id].
    split; [apply sort_str_sorted|]. split.
    + rewrite sort_str_perm, NoDup_app. split; [done|]. split; [|apply NoDup_singleton]. intros m Hm ->%list_elem_of_singleton.
      apply Hin in Hm as [x Hx]. congruence.
    + intros m. etrans; [apply elem_sort_snoc|]. rewrite Hin. unfold known. cbn. rewrite lookup_insert_is_Some'. naive_solver.
  - intros v w x. rewrite lookup_insert_Some. intros [[<- <-]|[_ Hw]] Hx; [rewrite Hf in Hx; by apply elem_of_nil in Hx|].
    destruct (K9 v w x Hw Hx) as (y & Hy & Hin). exists y. split; [|done].
    rewrite lookup_insert_ne; [done|]. intros ->. congruence.
Qed.

(** A user publishes a post. *)
Lemma well_kept_publish A n u i p :
  well_kept A → users A !! n = Some u → post_ok i p → author p = n → likes p = [] → comments p = [] →
  well_kept (put POST_INDEX_KEY (sort_str (index A ++ [i]))
               (put (user_key n) (with_posts (user_posts u ++ [i]) u) (put (post_key i) p A))).
Proof.
  intros HA Hu Hok Ha Hl Hc. pose proof HA as [K1 K2 K3 K4 K5 K6 K7 K8 K9].
  assert (∀ m, known A m ↔ known (put POST_INDEX_KEY (sort_str (index A ++ [i]))
    (put (user_key n) (with_posts (user_posts u ++ [i]) u) (put (post_key i) p A))) m) as Hkn.
  { intros m. split; [apply (known_put A n)|]. apply (known_put_inv A n). unfold known. eauto. }
  (* a post of that name was the user's own *)
  assert (∀ q, posts A !! i = Some q → author q = n) as Hown.
  { intros q Hq. destruct (po_form _ _ (K3 i q Hq)) as (s & Hs & Hls). destruct (po_form _ _ Hok) as (s' & Hs' & Hls').
    rewrite Ha in Hs'. rewrite Hs in Hs'. apply app_inj_2 in Hs' as [Heq _]; [done|]. rewrite !length_app. congruence. }
  split; cbn [users sessions posts put set_users set_posts set_post_index].
  - intros m x. rewrite lookup_insert_Some. intros [[<- <-]|[_ Hx]]; [|by apply K1]. by destruct (K1 n u Hu).
  - intros t s Hs. destruct (K2 t s Hs) as [Ht Hk]. split; [done|by apply Hkn].
  - intros j x. rewrite lookup_insert_Some. intros [[<- <-]|[_ Hx]]; [done|by apply K3].
  - intros j x. rewrite lookup_insert_Some. intros [[<- <-]|[Hne Hx]].
    + rewrite Ha, lookup_insert_eq. eexists. split; [done|]. cbn. apply elem_of_app. right. by apply list_elem_of_singleton.
    + destruct (K4 j x Hx) as (y & Hy & Hin). destruct (decide (n = author x)) as [Heq|Hnx].
      * rewrite <- Heq in *. rewrite lookup_insert_eq. eexists. split; [done|]. cbn. apply elem_of_app. left. congruence.
      * rewrite lookup_insert_ne by done. eauto.
  - intros m x j. rewrite lookup_insert_Some. intros Hm Hj.
    assert (j = i ∧ m = n ∨ ∃ y, users A !! m = Some y ∧ j ∈ user_posts y) as Hcase.
    { destruct Hm as [[<- <-]|[_ Hx]]; [|eauto]. cbn in Hj. apply elem_of_app in Hj as [Hj|Hj%list_elem_of_singleton]; eauto. }
    destruct Hcase as [[-> ->]|(y & Hy & Hj')]; [rewrite lookup_insert_eq; eauto|].
    destruct (K5 m y j Hy Hj') as (q & Hq & Haq). destruct (decide (i = j)) as [->|Hne].
    + rewrite lookup_insert_eq. exists p. split; [done|]. rewrite Ha. rewrite <- Haq. symmetry. by apply Hown.
    + rewrite lookup_insert_ne by done. eauto.
  - intros j x. rewrite lookup_insert_Some. intros [[<- <-]|[_ Hx]]; [rewrite Hl, Hc; by split|].
    destruct (K6 j x Hx) as [Hl' Hc']. split; (eapply Forall_impl; [eassumption|]; simpl; intros; by apply Hkn).
  - destruct K7 as [Hs Hin]. unfold index at 1 2. cbn [post_index set_post_index default from_option id]. split; [apply sort_str_sorted|].
    intros j. etrans; [apply elem_sort_snoc|]. rewrite Hin, lookup_insert_is_Some'. naive_solver.
  - destruct K8 as (Hs & Hd & Hin). split; [done|]. split; [done|]. intros m. rewrite <- Hkn. apply Hin.
  - intros v w x Hw Hx.
    assert (∃ w', users A !! v = Some w' ∧ x ∈ followers w') as (w' & Hw' & Hx').
    { apply lookup_insert_Some in Hw as [[<- <-]|[_ Hw]]; eauto. }
    destruct (K9 v w' x Hw' Hx') as (y & Hy & Hin). destruct (decide (n = x)) as [->|Hne].
    + rewrite lookup_insert_eq. eexists. split; [done|]. cbn. congruence.
    + rewrite lookup_insert_ne by done. eauto.
Qed.

(** An author withdraws a post. *)
Lemma well_kept_withdraw A n u i p :
  well_kept A → users A !! n = Some u → posts A !! i = Some p → author p = n →
  well_kept (put POST_INDEX_KEY (retain_ne i (index A))
               (remove (post_key i) (put (user_key n) (with_posts (retain_ne i (user_posts u)) u) A))).
Proof.
  intros HA Hu Hi Ha. pose proof HA as [K1 K2 K3 K4 K5 K6 K7 K8 K9].
  assert (∀ m, known A m ↔ known (put POST_INDEX_KEY (retain_ne i (index A))
               (remove (post_key i) (put (user_key n) (with_posts (retain_ne i (user_posts u)) u) A))) m) as Hkn.
  { intros m. split; [apply (known_put A n)|]. apply (known_put_inv A n). unfold known. eauto. }
  split; cbn [users sessions posts put remove set_users set_posts set_post_index].
  - intros m x. rewrite lookup_insert_Some. intros [[<- <-]|[_ Hx]]; [|by apply K1]. by destruct (K1 n u Hu).
  - intros t s Hs. destruct (K2 t s Hs) as [Ht Hk]. split; [done|by apply Hkn].
  - intros j x. rewrite lookup_delete_Some. intros [_ Hx]. by apply K3.
  - intros j x. rewrite lookup_delete_Some. intros [Hne Hx]. destruct (K4 j x Hx) as (y & Hy & Hin).
    destruct (decide (n = author x)) as [Heq|Hnx].
    + rewrite <- Heq in *. rewrite lookup_insert_eq. eexists. split; [done|]. cbn. apply list_elem_of_filter.
      split; [congruence|]. congruence.
    + rewrite lookup_insert_ne by done. eauto.
  - intros m x j. rewrite lookup_insert_Some. intros Hm Hj. rewrite lookup_delete_ne; [|].
    + destruct Hm as [[<- <-]|[_ Hx]]; [|by eapply K5]. cbn in Hj. apply list_elem_of_filter in Hj as [_ Hj]. by eapply K5.
    + intros <-. destruct Hm as [[<- <-]|[Hne Hx]].
      * cbn in Hj. by apply list_elem_of_filter in Hj as [Hj _].
      * destruct (K5 m x i Hx Hj) as (q & Hq & Haq). congruence.
  - intros j x. rewrite lookup_delete_Some. intros [_ Hx].
    destruct (K6 j x Hx) as [Hl' Hc']. split; (eapply Forall_impl; [eassumption|]; simpl; intros; by apply Hkn).
  - destruct K7 as [Hs Hin]. unfold index at 1 2. cbn [post_index set_post_index default from_option id]. split.
    + unfold retain_ne. by apply sorted_filter.
    + intros j. etrans; [apply list_elem_of_filter|]. rewrite Hin, lookup_delete_is_Some. naive_solver.
  - destruct K8 as (Hs & Hd & Hin). split; [done|]. split; [done|]. intros m. rewrite <- Hkn. apply Hin.
  - intros v w x Hw Hx.
    assert (∃ w', users A !! v = Some w' ∧ x ∈ followers w') as (w' & Hw' & Hx').
    { apply lookup_insert_Some in Hw as [[<- <-]|[_ Hw]]; eauto. }
    destruct (K9 v w' x Hw' Hx') as (y & Hy & Hin). destruct (decide (n = x)) as [->|Hne].
    + rewrite lookup_insert_eq. eexists. split; [done|]. cbn. congruence.
    + rewrite lookup_insert_ne by done. eauto.
Qed.
(** ** Following

    [befriend] and [part] are what following and unfollowing write. *)

Definition befriend (n : rstr) (u : User) (target : rstr) (A : social) : social :=
  let A1 := put (user_key n) (with_following (following u ++ [target]) u) A in
  match users A1 !! target with
  | Some o => if contains (followers o) n then A1 else put (user_key target) (with_followers (followers o ++ [n]) o) A1
  | None => A1
  end.

Definition part (n : rstr) (u : User) (target : rstr) (A : social) : social :=
  let A1 := put (user_key n) (with_following (retain_ne target (following u)) u) A in
  match users A1 !! target with
  | Some o => put (user_key target) (with_followers (retain_ne n (followers o)) o) A1
  | None => A1
  end.

Lemma user_ok_following n u l : user_ok n u → NoDup l → n ∉ l → user_ok n (with_following l u).
Proof. by intros []. Qed.

Lemma user_ok_followers n u l : user_ok n u → NoDup l → user_ok n (with_followers l u).
Proof. by intros []. Qed.

Lemma NoDup_snoc {X} (l : list X) x : NoDup l → x ∉ l → NoDup (l ++ [x]).
Proof. intros Hl Hx. rewrite NoDup_app. split; [done|]. split; [set_solver|apply NoDup_singleton]. Qed.

Lemma NoDup_retain (x : rstr) l : NoDup l → NoDup (retain_ne x l).
Proof. apply NoDup_filter. Qed.

Lemma elem_of_retain (x y : rstr) l : y ∈ retain_ne x l ↔ y ≠ x ∧ y ∈ l.
Proof. unfold retain_ne. by rewrite list_elem_of_filter. Qed.

Lemma well_kept_befriend A n u target :
  well_kept A → users A !! n = Some u → n ≠ target → target ∉ following u → well_kept (befriend n u target A).
Proof.
  intros HA Hu Hne Hnf. pose proof (wk_user A HA n u Hu) as Hok.
  assert (well_kept (put (user_key n) (with_following (following u ++ [target]) u) A)) as HA1.
  { apply (well_kept_profile A n u); try done; [|cbn; set_solver].
    apply user_ok_following; [done|apply NoDup_snoc; [by destruct Hok|done]|]. destruct Hok. set_solver. }
  unfold befriend. cbv zeta. destruct (users _ !! target) as [o|] eqn:Ho; [|done]. unfold contains. case_bool_decide as Hc; [done|].
  apply (well_kept_user _ target o); [done|done| |done| |].
  - pose proof (wk_user _ HA1 target o Ho) as Hoo. apply user_ok_followers; [done|].
    apply NoDup_snoc; [by destruct Hoo|done].
  - intros x. cbn. intros [Hx| ->%list_elem_of_singleton]%elem_of_app.
    + destruct (wk_follow _ HA1 target o x Ho Hx) as (y & Hy & Hin). cbn in Hy.
      destruct (decide (target = x)) as [->|Htx]; [|rewrite lookup_insert_ne by done; eauto].
      rewrite lookup_insert_eq. eexists. split; [done|]. cbn in *. congruence.
    + rewrite lookup_insert_ne by done. rewrite lookup_insert_eq. eexists. split; [done|]. cbn. set_solver.
  - intros v w Hw Hin. destruct (wk_follow _ HA1 v w target Hw Hin) as (y & Hy & Hv). cbn. congruence.
Qed.

(** Unfollowing in the other order: the followers first. *)
Lemma part_swap A n u target o :
  n ≠ target → users A !! target = Some o →
  part n u target A = put (user_key n) (with_following (retain_ne target (following u)) u)
                        (put (user_key target) (with_followers (retain_ne n (followers o)) o) A).
Proof.
  intros Hne Ho. unfold part. cbn. rewrite lookup_insert_ne by done. rewrite Ho. unfold set_users. cbn. f_equal.
  by rewrite insert_insert_ne.
Qed.

Lemma well_kept_part_other A n u target o :
  well_kept A → users A !! n = Some u → n ≠ target → users A !! target = Some o → well_kept (part n u target A).
Proof.
  intros HA Hu Hne Ho. rewrite (part_swap A n u target o) by done.
  pose proof (wk_user A HA n u Hu) as Hok. pose proof (wk_user A HA target o Ho) as Hoo.
  assert (well_kept (put (user_key target) (with_followers (retain_ne n (followers o)) o) A)) as HA1.
  { apply (well_kept_user A target o); [done|done| |done| |].
    - apply user_ok_followers; [done|]. apply NoDup_retain. by destruct Hoo.
    - intros x. cbn. intros [_ Hx]%elem_of_retain. destruct (wk_follow A HA target o x Ho Hx) as (y & Hy & Hin).
      destruct (decide (target = x)) as [->|Htx]; [|rewrite lookup_insert_ne by done; eauto].
      rewrite lookup_insert_eq. eexists. split; [done|]. cbn. congruence.
    - intros v w Hw Hin. destruct (wk_follow A HA v w target Hw Hin) as (y & Hy & Hv). cbn. congruence. }
  apply (well_kept_user _ n u); [done| | |done| |].
  - cbn. by rewrite lookup_insert_ne.
  - apply user_ok_following; [done|apply NoDup_retain; by destruct Hok|]. intros [_ Hn]%elem_of_retain. by destruct Hok.
  - intros x. cbn. intros Hx. destruct (wk_follow A HA n u x Hu Hx) as (y & Hy & Hin).
    destruct (decide (n = x)) as [->|Hnx]; [by destruct (uo_self _ _ (wk_user A HA x y Hy))|]. rewrite lookup_insert_ne by done.
    destruct (decide (target = x)) as [->|Htx]; [|rewrite lookup_insert_ne by done; eauto].
    rewrite lookup_insert_eq. eexists. split; [done|]. cbn. congruence.
  - intros v w. cbn. rewrite lookup_insert_Some. intros [[<- <-]|[Hv Hw]] Hin.
    + cbn in Hin. by apply elem_of_retain in Hin as [[] _].
    + destruct (wk_follow A HA v w n Hw Hin) as (y & Hy & Hvy). apply elem_of_retain. split; [done|]. congruence.
Qed.

(** Nobody follows themselves. *)
Lemma not_own_follower A n u : well_kept A → users A !! n = Some u → n ∉ followers u.
Proof.
  intros HA Hu Hn. destruct (wk_follow A HA n u n Hu Hn) as (y & Hy & Hin). by apply (uo_self n y (wk_user A HA n y Hy)).
Qed.

Lemma retain_absent (x : rstr) l : x ∉ l → retain_ne x l = l.
Proof.
  unfold retain_ne. induction l as [|y l IH]; intros Hx; [done|]. rewrite filter_cons. apply not_elem_of_cons in Hx as [Hne Hx].
  rewrite decide_True by done. by rewrite IH.
Qed.

Lemma well_kept_part A n u target : well_kept A → users A !! n = Some u → well_kept (part n u target A).
Proof.
  intros HA Hu. pose proof (wk_user A HA n u Hu) as Hok. destruct (decide (n = target)) as [<-|Hne].
  - unfold part. cbn. rewrite lookup_insert_eq. cbn [followers with_following].
    rewrite !retain_absent by (eauto using not_own_follower, uo_self). unfold set_users. cbn. rewrite insert_insert_eq.
    apply (well_kept_profile A n u); try done. by destruct Hok.
  - destruct (users A !! target) as [o|] eqn:Ho; [by apply (well_kept_part_other A n u target o)|].
    unfold part. cbn. rewrite lookup_insert_ne, Ho by done.
    apply (well_kept_user A n u); [done|done| |done| |].
    + apply user_ok_following; [done|apply NoDup_retain; by destruct Hok|]. intros [_ Hn]%elem_of_retain. by destruct Hok.
    + intros x. cbn. intros Hx. destruct (wk_follow A HA n u x Hu Hx) as (y & Hy & Hin).
      rewrite lookup_insert_ne; [eauto|]. intros <-. by apply (not_own_follower A n u HA).
    + intros v w Hw Hin. destruct (wk_follow A HA v w n Hw Hin) as (y & Hy & Hv). apply elem_of_retain.
      split; [congruence|]. replace u with y by congruence. done.
Qed.

(** ** Likes *)

Lemma toggle_like_out n l : n ∉ l → toggle_like n l = l ++ [n].
Proof. intros Hn. unfold toggle_like. by rewrite (proj2 (position_None n l)). Qed.

Lemma toggle_like_in n l : n ∈ l → n :: toggle_like n l ≡ₚ l.
Proof.
  intros Hn. unfold toggle_like. destruct (position n l) as [i|] eqn:Hp; [by apply swap_remove_perm, position_Some|].
  by apply position_None in Hp.
Qed.

Lemma toggle_like_nodup n l : NoDup l → NoDup (toggle_like n l).
Proof.
  intros Hl. destruct (decide (n ∈ l)) as [Hn|Hn].
  - apply (NoDup_cons_1_2 n). by rewrite toggle_like_in.
  - rewrite toggle_like_out by done. by apply NoDup_snoc.
Qed.

(** Liking is the user's own: nobody else's like changes. *)
Lemma toggle_like_spec n l : NoDup l → ∀ m, m ∈ toggle_like n l ↔ if decide (m = n) then m ∉ l else m ∈ l.
Proof.
  intros Hl m. destruct (decide (n ∈ l)) as [Hn|Hn].
  - pose proof (toggle_like_in n l Hn) as Hp. assert (NoDup (n :: toggle_like n l)) as [Hd _]%NoDup_cons by by rewrite Hp.
    assert (m ∈ l ↔ m = n ∨ m ∈ toggle_like n l) as Hm by by rewrite <- Hp at 1; rewrite elem_of_cons.
    case_decide; subst; naive_solver.
  - rewrite toggle_like_out, elem_of_app, list_elem_of_singleton by done. case_decide; subst; naive_solver.
Qed.
End Facts.
End Social.
