(* ===== verification/NbookSteps.v ===== *)
(** * What a request does to the records

    The requests of the nbook program as a step relation on its records: every
    request is one of a few steps, taken by the user whose session it carries.
    The invariant and who may change what follow by cases on the steps. *)

From S2P Require Import Prelude JsValue Codec RustLib WasmHost NbookProgram NbookBlobs NbookStore NbookSpec NbookSocial.

Module Steps.
Import Rust Host Server Blobs Store Spec Social.

(** ** States that differ in how often the clock and the entropy source were read *)

#[global] Instance social_equiv : Equiv social := λ A B,
  users A = users B ∧ sessions A = sessions B ∧ posts A = posts B ∧ post_index A = post_index B ∧ user_index A = user_index B.

#[global] Instance social_equivalence : Equivalence (≡@{social}).
Proof.
  split; [by intros A|intros A B (?&?&?&?&?); by repeat split|].
  intros A B C (?&?&?&?&?) (?&?&?&?&?). repeat split; congruence.
Qed.

#[global] Instance put_proper {T} (k : key T) x : Proper ((≡@{social}) ==> (≡)) (put k x).
Proof. intros A B (?&?&?&?&?). destruct k; repeat split; cbn; congruence. Qed.

#[global] Instance remove_proper {T} (k : key T) : Proper ((≡@{social}) ==> (≡)) (remove k).
Proof. intros A B (?&?&?&?&?). destruct k; repeat split; cbn; congruence. Qed.

#[global] Instance well_kept_proper : Proper ((≡) ==> iff) well_kept.
Proof.
  assert (∀ A B, A ≡ B → well_kept A → well_kept B) as Hone.
  { intros [] [] (?&?&?&?&?). simpl in *. simplify_eq. by intros []. }
  intros A B HAB. split; apply Hone; [done|by symmetry].
Qed.

Lemma tick_equiv A : tick A ≡ A.
Proof. done. Qed.
Lemma draw_equiv A : draw A ≡ A.
Proof. done. Qed.

Create HintDb reads discriminated.

Section Steps.
Context `{NodeHost} `{Blake3} `{Lowercase}.

(** ** Computations that only read *)

Definition reads {X} (c : M rstr social X) : Prop := ∀ A, (c A).2 ≡ A.

Lemma reads_ret {X} (x : X) : reads (retM x).
Proof. done. Qed.
Lemma reads_throw {X} e : reads (X := X) (throwM e).
Proof. done. Qed.
Lemma reads_lift {X} (o : outcome rstr X) : reads (liftM o).
Proof. done. Qed.
Lemma reads_load {T} (k : key T) : reads (load_json k).
Proof. done. Qed.
Lemma reads_now : reads now_ms.
Proof. done. Qed.
Lemma reads_u64 : reads random_u64.
Proof. done. Qed.
Lemma reads_ok_or {X} m (o : option X) : reads (ok_or m o).
Proof. by destruct o. Qed.

Lemma reads_bind {X Y} (c : M rstr social X) (k : X → M rstr social Y) : reads c → (∀ x, reads (k x)) → reads (bindM c k).
Proof.
  intros Hc Hk A. unfold bindM. specialize (Hc A). destruct (c A) as [[x|e] A']; simpl in *; [|done].
  etrans; [apply Hk|done].
Qed.

Lemma reads_try {X} (c : M rstr social X) : reads c → reads (try_ok c).
Proof.
  intros Hc A. unfold try_ok, catchM, bindM. specialize (Hc A). by destruct (c A) as [[x|e] A'].
Qed.

#[local] Hint Resolve reads_ret reads_throw reads_lift reads_load reads_now reads_u64 reads_ok_or : reads.

Ltac reading := repeat first [progress auto with reads | apply reads_bind; [|intros] | apply reads_try | case_match].

Lemma reads_post_view i : reads (load_post_view i).
Proof. unfold load_post_view. reading. Qed.
Lemma reads_summary n : reads (load_user_summary n).
Proof. unfold load_user_summary. reading. Qed.
Lemma reads_index : reads load_post_index.
Proof. unfold load_post_index. reading. Qed.
Lemma reads_names : reads load_user_index.
Proof. unfold load_user_index. reading. Qed.
#[local] Hint Resolve reads_post_view reads_summary reads_index reads_names : reads.

Lemma reads_visible u ids : reads (retain_visible u ids).
Proof. induction ids; cbn [retain_visible]; unfold load_post_author; reading. Qed.
Lemma reads_score now ids : reads (score_all now ids).
Proof. induction ids; cbn [score_all]; reading. Qed.
Lemma reads_jitter l : reads (add_jitter l).
Proof. induction l as [|[]]; cbn [add_jitter]; reading. Qed.
Lemma reads_summaries l : reads (summaries l).
Proof. induction l; cbn [summaries]; reading. Qed.
Lemma reads_search q n idx l : reads (search_loop q n idx l).
Proof. revert l. induction idx; intros l; cbn [search_loop]; reading. Qed.
Lemma reads_shuffle n i l : reads (shuffle n i l).
Proof. revert i l. induction n; intros i l; cbn [shuffle]; reading. Qed.
#[local] Hint Resolve reads_visible reads_score reads_jitter reads_summaries reads_search reads_shuffle : reads.

Lemma reads_profile n : reads (profile n).
Proof. unfold profile. reading. Qed.
#[local] Hint Resolve reads_profile : reads.

(** ** Steps *)

(** One step of the user [who], with [ids] the blobs that are named; [None] is somebody
    without a session. *)
Inductive step (A : social) (who : option rstr) (ids : list rstr) : social → Prop :=
| step_none : step A who ids A
| step_end t : step A who ids (remove (session_key t) A)
| step_open t s u :
    who = None → token s = t → users A !! session_user s = Some u → step A who ids (put (session_key t) s A)
| step_join n u :
    who = None → users A !! n = None → str_trim n ≠ [] → username u = n → display_name u = None → bio u = None →
    followers u = [] → following u = [] → user_posts u = [] → avatar_blob_id u = None → banner_blob_id u = None →
    step A who ids (put USER_INDEX_KEY (sort_str (names A ++ [n])) (put (user_key n) u A))
| step_profile n u name b avatar banner :
    who = Some n → users A !! n = Some u → short 64 name → short 280 b →
    (Forall byte_list ids → (∀ s, avatar = Some s → stored_id s) ∧ (∀ s, banner = Some s → stored_id s)) →
    step A who ids (put (user_key n) (with_profile name b avatar banner u) A)
| step_publish n u i suffix p :
    who = Some n → users A !! n = Some u → i = n ++ js "-" ++ suffix → length suffix = 24%nat → post_id p = i → author p = n →
    (length (text p) ≤ 2048)%nat → likes p = [] → comments p = [] → (Forall byte_list ids → Forall (λ a, stored_id (blob_id a)) (attachments p)) →
    step A who ids (put POST_INDEX_KEY (sort_str (index A ++ [i]))
                  (put (user_key n) (with_posts (user_posts u ++ [i]) u) (put (post_key i) p A)))
| step_follow n u target :
    who = Some n → users A !! n = Some u → n ≠ target → target ∉ following u → step A who ids (befriend n u target A)
| step_unfollow n u target :
    who = Some n → users A !! n = Some u → step A who ids (part n u target A)
| step_like n u i p :
    who = Some n → users A !! n = Some u → posts A !! i = Some p →
    step A who ids (put (post_key i) (with_likes (toggle_like n (likes p)) p) A)
| step_comment n u i p c :
    who = Some n → users A !! n = Some u → posts A !! i = Some p → comment_author c = n → comment_text c ≠ [] →
    (length (comment_text c) ≤ 1024)%nat → step A who ids (put (post_key i) (with_comments (comments p ++ [c]) p) A)
| step_withdraw n u i p :
    who = Some n → users A !! n = Some u → posts A !! i = Some p → author p = n →
    step A who ids (put POST_INDEX_KEY (retain_ne i (index A))
                  (remove (post_key i) (put (user_key n) (with_posts (retain_ne i (user_posts u)) u) A))).

Lemma step_well_kept A who ids B : well_kept A → step A who ids B → well_kept B.
Proof.
  intros HA. destruct 1 as [|t|t s u Hw Ht Hu|n u Hw Hn Hf He K1 K2 K3 K4 K5 _ _|n u name b av ba Hw Hu K1 K2 _
    |n u i sf p Hw Hu Hi Hl K1 K2 K3 K4 K5 _|n u tg Hw Hu K1 K2|n u tg Hw Hu|n u i p Hw Hu Hp|n u i p c Hw Hu Hp K1 K2 K3
    |n u i p Hw Hu Hp K1].
  - done.
  - by apply well_kept_end.
  - apply well_kept_session; [done|done|by eexists].
  - apply well_kept_join; try done. split; try done; rewrite ?K1, ?K2, ?K3, ?K4; try done; [constructor..|]. apply not_elem_of_nil.
  - apply (well_kept_profile A n u); try done. by destruct (wk_user A HA n u Hu).
  - apply (well_kept_publish A n u); try done. split; rewrite ?K2, ?K4, ?K5; try done; [by exists sf|constructor].
  - by apply well_kept_befriend.
  - by apply well_kept_part.
  - pose proof (wk_post A HA i p Hp) as Hok. pose proof (wk_voices A HA i p Hp) as [Kl Kc].
    apply (well_kept_post A i p); try done; [destruct Hok; split; try done; by apply toggle_like_nodup|].
    apply Forall_forall. intros m. cbn. rewrite toggle_like_spec by (by destruct Hok). case_decide as Hm.
    + intros _. subst m. by exists u.
    + by apply Forall_forall.
  - pose proof (wk_post A HA i p Hp) as Hok. pose proof (wk_voices A HA i p Hp) as [Kl Kc].
    apply (well_kept_post A i p); try done; cbn.
    + destruct Hok. split; try done. apply Forall_app. by rewrite Forall_singleton.
    + apply Forall_app. split; [done|]. apply Forall_singleton. rewrite K1. by exists u.
  - by apply (well_kept_withdraw A n u i p).
Qed.

(** ** Every request is a step *)

(** The token a request is authorised by. *)
Definition bearer (req : Request) : option rstr :=
  match req with
  | ReqUpdateProfile t _ _ _ _ | ReqCreatePost t _ _ | ReqFollow t _ | ReqUnfollow t _ | ReqDeletePost t _ | ReqLike t _
  | ReqComment t _ _ | ReqFeed t _ _ | ReqSearchUsers t _ _ | ReqSuggestions t _ | ReqFollowers t _ _ | ReqFollowing t _ _ => Some t
  | ReqRegister _ _ | ReqLogin _ _ | ReqLogout _ | ReqGetPost _ | ReqProfile _ => None
  end.

(** The blobs it names. *)
Definition named (req : Request) : list rstr :=
  match req with
  | ReqUpdateProfile _ _ _ a b => option_list a ++ option_list b
  | ReqCreatePost _ _ l => l
  | _ => []
  end.

(** The user it stands for. *)
Definition actor (A : social) (req : Request) : option rstr :=
  match bearer req with Some t => username <$> session_of A t | None => None end.

Definition moves {X} (who : option rstr) (ids : list rstr) (A : social) (c : M rstr social X) : Prop :=
  ∃ A1 B, A1 ≡ A ∧ step A1 who ids B ∧ (c A).2 ≡ B.

Lemma moves_reads {X} who ids A (c : M rstr social X) : reads c → moves who ids A c.
Proof. intros Hc. exists A, A. split; [done|]. split; [constructor|apply Hc]. Qed.

Lemma moves_respond {X} who ids A (c : M rstr social X) f : moves who ids A c → ∃ A1 B, A1 ≡ A ∧ step A1 who ids B ∧ (respond c f A).2 ≡ B.
Proof. intros (A1 & B & K1 & K2 & K3). exists A1, B. split; [done|]. split; [done|]. unfold respond. by destruct (c A) as [[] ?]. Qed.

Lemma session_user_of A t u : well_kept A → session_of A t = Some u → users A !! username u = Some u.
Proof.
  intros HA. unfold session_of. destruct (sessions A !! t) as [s|]; [|done]. case_match; [done|]. intros Hu.
  by rewrite (uo_name _ _ (wk_user A HA _ u Hu)).
Qed.

Lemma moves_refused {X} who ids A t (c : M rstr social X) e : c A = (Throw e, refused A t) → moves who ids A c.
Proof.
  unfold refused, moves. intros ->. cbn [snd]. destruct (sessions A !! t); [case_match|].
  - exists (tick A), (remove (session_key t) (tick A)). split; [done|]. split; [apply step_end|done].
  - exists A, A. split; [done|]. split; [constructor|done].
  - exists A, A. split; [done|]. split; [constructor|done].
Qed.

Lemma moves_session {X} t ids (k : User → M rstr social X) A :
  well_kept A → (∀ u, users A !! username u = Some u → moves (Some (username u)) ids (tick A) (k u)) →
  moves (username <$> session_of A t) ids A (bindM (require_session_user t) k).
Proof.
  intros HA Hk. pose proof (as_session t k A) as Hrun. destruct (session_of A t) as [u|] eqn:Hs.
  - destruct (Hk u (session_user_of A t u HA Hs)) as (A1 & B & K1 & K2 & K3). exists A1, B. by rewrite Hrun.
  - by eapply moves_refused.
Qed.

Lemma moves_load {X T} who ids A (k : key T) m (c : T → M rstr social X) :
  (∀ x, get k A = Some x → moves who ids A (c x)) → moves who ids A (let* o := load_json k in let* x := ok_or m o in c x).
Proof.
  intros Hc. destruct (get k A) as [x|] eqn:Hx.
  - destruct (Hc x eq_refl) as (A1 & B & K1 & K2 & K3). exists A1, B. unfold bindM. cbn. by rewrite Hx.
  - exists A, A. split; [done|]. split; [constructor|]. unfold bindM. cbn. by rewrite Hx.
Qed.

(** A computation that writes and then only reads. *)
Lemma moves_then {X} who ids A B (c : M rstr social X) A1 :
  A1 ≡ A → step A1 who ids B → (c A).2 ≡ B → moves who ids A c.
Proof. intros. by exists A1, B. Qed.

Lemma short_of n o : longer_than n o = false → short n o.
Proof. intros Ho s ->. simpl in Ho. by apply Nat.ltb_ge in Ho. Qed.

Lemma update_profile_moves A t name b av ba :
  well_kept A → moves (username <$> session_of A t) (option_list av ++ option_list ba) A (update_profile t name b av ba).
Proof.
  intros HA. apply moves_session; [done|]. intros u Hu.
  destruct (longer_than 64 name) eqn:K1; [by apply moves_reads|].
  destruct (longer_than 280 b) eqn:K2; [by apply moves_reads|].
  destruct (resolve_profile_blob_id av) as [a|e] eqn:Ha; [|by apply moves_reads].
  destruct (resolve_profile_blob_id ba) as [w|e] eqn:Hb; [|by apply moves_reads].
  eapply (moves_then _ _ _ _ _ (tick A)); [done|..].
  - apply (step_profile (tick A) _ _ (username u) u name b a w eq_refl Hu (short_of _ _ K1) (short_of _ _ K2)).
    intros [Hav Hba]%Forall_app. split; [exact (resolve_stored av a Hav Ha)|exact (resolve_stored ba w Hba Hb)].
  - done.
Qed.

Ltac then_views i := match goal with |- _ ≡ ?B => exact (reads_post_view i B) end.

Lemma create_post_moves A t text_ ids :
  well_kept A → moves (username <$> session_of A t) ids A (create_post t text_ ids).
Proof.
  intros HA. apply moves_session; [done|]. intros u Hu.
  destruct (2048 <? length text_)%nat eqn:Hlen; [by apply moves_reads|].
  destruct (build_attachments ids) as [l|e] eqn:Hl; [|by apply moves_reads].
  eapply (moves_then _ _ _ _ _ (tick (draw (tick A)))); [done|..].
  - apply (step_publish (tick (draw (tick A))) _ _ (username u) u _ (hex_encode (os_random (random_reads A) 12))
      (Build_Post (username u ++ js "-" ++ hex_encode (os_random (random_reads A) 12)) (username u) text_ l (clock (tick A)) [] []) eq_refl Hu eq_refl); try done; [by rewrite length_hex_encode, os_random_length|by apply Nat.ltb_ge in Hlen|].
    intros Hb. by eapply build_attachments_stored.
  - then_views (username u ++ js "-" ++ hex_encode (os_random (random_reads A) 12)).
Qed.

Lemma follow_moves A t target : well_kept A → moves (username <$> session_of A t) [] A (follow t target).
Proof.
  intros HA. apply moves_session; [done|]. intros u Hu.
  destruct (str_eqb (username u) target) eqn:He; [by apply moves_reads|].
  unfold contains. case_bool_decide as Hc; [by apply moves_reads|].
  eapply (moves_then _ _ _ _ _ (tick A)); [done|..].
  - apply (step_follow (tick A) _ _ (username u) u target eq_refl Hu); [|done]. intros <-. by rewrite str_eqb_refl in He.
  - unfold befriend, bindM. cbn. destruct (_ !! target) as [o|]; [|done]. unfold contains. by case_bool_decide.
Qed.

Lemma unfollow_moves A t target : well_kept A → moves (username <$> session_of A t) [] A (unfollow t target).
Proof.
  intros HA. apply moves_session; [done|]. intros u Hu. eapply (moves_then _ _ _ _ _ (tick A)); [done|..].
  - apply (step_unfollow (tick A) _ _ (username u) u target eq_refl Hu).
  - unfold part, bindM. cbn. by destruct (_ !! target) as [o|].
Qed.

Lemma like_moves A t i : well_kept A → moves (username <$> session_of A t) [] A (like t i).
Proof.
  intros HA. apply moves_session; [done|]. intros u Hu. apply moves_load. intros p Hp.
  eapply (moves_then _ _ _ _ _ (tick A)); [done|..].
  - apply (step_like (tick A) _ _ (username u) u i p eq_refl Hu Hp).
  - then_views i.
Qed.

Lemma comment_moves A t i text_ : well_kept A → moves (username <$> session_of A t) [] A (comment t i text_).
Proof.
  intros HA. unfold comment. destruct (is_empty text_ || _) eqn:Hlen; [by apply moves_reads|].
  apply orb_false_iff in Hlen as [He Hlen]. apply moves_session; [done|]. intros u Hu. apply moves_load. intros p Hp.
  eapply (moves_then _ _ _ _ _ (tick (draw (tick A)))); [done|..].
  - apply (step_comment (tick (draw (tick A))) _ _ (username u) u i p
      (Build_Comment (i ++ js "-" ++ hex_encode (os_random (random_reads A) 8)) (username u) text_ (clock (tick A))) eq_refl Hu Hp eq_refl); [by destruct text_|by apply Nat.ltb_ge in Hlen].
  - then_views i.
Qed.

Lemma delete_post_moves A t i : well_kept A → moves (username <$> session_of A t) [] A (delete_post t i).
Proof.
  intros HA. apply moves_session; [done|]. intros u Hu. apply moves_load. intros p Hp.
  destruct (str_eqb (author p) (username u)) eqn:Ha; [|by apply moves_reads].
  eapply (moves_then _ _ _ _ _ (tick A)); [done|..].
  - apply (step_withdraw (tick A) _ _ (username u) u i p eq_refl Hu Hp). by apply str_eqb_eq.
  - done.
Qed.

Lemma register_moves A name password : well_kept A → moves None [] A (register name password).
Proof.
  intros HA. unfold register. destruct (is_empty (str_trim name) || _) eqn:Hin; [by apply moves_reads|].
  apply orb_false_iff in Hin as [Hf _]. destruct (users A !! name) as [u|] eqn:Hu.
  { exists A, A. split; [done|]. split; [constructor|]. unfold bindM. cbn. by rewrite Hu. }
  eapply (moves_then _ _ _ _ _ (tick (draw A))); [done|..].
  - apply (step_join (tick (draw A)) _ _ name (Build_User name (hash_password password (hex_encode (os_random (random_reads A) 16)))
      (hex_encode (os_random (random_reads A) 16)) (clock (draw A)) None None None None [] [] [])); try done.
    by destruct (str_trim name).
  - unfold bindM. cbn. rewrite Hu. cbn. unfold append_user_index, bindM. cbn. fold (names A). unfold contains.
    rewrite bool_decide_eq_false_2; [done|]. destruct (wk_names A HA) as (_ & _ & Hin). rewrite Hin. unfold known.
    rewrite Hu. by intros [].
Qed.

Lemma login_moves A name password : well_kept A → moves None [] A (login name password).
Proof.
  intros HA. apply moves_load. intros u Hu. destruct (str_eqb _ _) eqn:Hp; [|by apply moves_reads].
  eapply (moves_then _ _ _ _ _ (tick (draw A))); [done|..].
  - apply (step_open (tick (draw A)) _ _ (hex_encode (os_random (random_reads A) 24))
      (Build_Session (hex_encode (os_random (random_reads A) 24)) name (clock (draw A) + 86400000)) u); done.
  - done.
Qed.

(** With a session, but only reading. *)
Lemma moves_look {X} t ids (k : User → M rstr social X) A :
  well_kept A → (∀ u, reads (k u)) → moves (username <$> session_of A t) ids A (bindM (require_session_user t) k).
Proof. intros HA Hk. apply moves_session; [done|]. intros u _. by apply moves_reads. Qed.

Lemma request_steps req A :
  well_kept A → ∃ A1 B, A1 ≡ A ∧ step A1 (actor A req) (named req) B ∧ (handle_request req A).2 ≡ B.
Proof.
  intros HA. destruct req; apply moves_respond; cbn [actor bearer named];
    try (apply moves_look; [done|intros u; reading]; fail).
  - by apply register_moves.
  - by apply update_profile_moves.
  - by apply login_moves.
  - exists A, (remove (session_key session) A). split; [done|]. split; [apply step_end|done].
  - by apply create_post_moves.
  - by apply follow_moves.
  - by apply unfollow_moves.
  - by apply delete_post_moves.
  - by apply like_moves.
  - by apply comment_moves.
  - apply moves_reads. reading.
  - apply moves_reads. reading.
Qed.

Lemma request_well_kept req A : well_kept A → well_kept (handle_request req A).2.
Proof.
  intros HA. destruct (request_steps req A HA) as (A1 & B & K1 & K2 & K3). rewrite K3.
  apply (step_well_kept A1 (actor A req) (named req) B); [by rewrite K1|done].
Qed.

(** C28 Whatever requests the program serves, its records stay well kept: a user's record
    is stored under the user's name, and a name is not blank; display names and bios
    are within their limits; nobody follows anybody twice or themselves, and whoever
    is listed as a follower follows; every session is of a registered user; a post is
    listed by its author, and by nobody else, names its author in its identifier, and
    has at most one like of a user, all likes and comments by registered users; the
    index of posts has exactly the posts and the index of users exactly the users, each
    once, both sorted. *)
Theorem program_keeps_records (reqs : list Request) : well_kept (serve Datatypes.id reqs empty_social).2.
Proof.
  assert (∀ A, well_kept A → well_kept (serve Datatypes.id reqs A).2) as Hall; [|apply Hall, well_kept_empty].
  induction reqs as [|req reqs IH]; intros A HA; [done|]. cbn [serve].
  pose proof (request_well_kept req A HA) as HA'. destruct (handle_request req A) as [r A'].
  specialize (IH A' HA'). change (Datatypes.id A') with A'. by destruct (serve Datatypes.id reqs A').
Qed.

(** ** Who may change what *)

(** What of a user's record somebody else ([who]) may change: whether they are among
    the followers. *)
Definition user_touched (who : option rstr) (u u' : User) : Prop :=
  ∃ l, u' = with_followers l u ∧ ∀ x, Some x ≠ who → (x ∈ l ↔ x ∈ followers u).

(** And of a post: whether they like it, and a comment of theirs at its end. *)
Definition post_touched (who : option rstr) (p p' : Post) : Prop :=
  (∃ l, p' = with_likes l p ∧ ∀ x, Some x ≠ who → (x ∈ l ↔ x ∈ likes p)) ∨
  (∃ c, p' = with_comments (comments p ++ [c]) p ∧ who = Some (comment_author c)).

Lemma with_followers_id u : with_followers (followers u) u = u.
Proof. by destruct u. Qed.
Lemma with_likes_id p : with_likes (likes p) p = p.
Proof. by destruct p. Qed.

Lemma user_touched_refl who u : user_touched who u u.
Proof. exists (followers u). by rewrite with_followers_id. Qed.
Lemma post_touched_refl who p : post_touched who p p.
Proof. left. exists (likes p). by rewrite with_likes_id. Qed.
#[local] Hint Resolve user_touched_refl post_touched_refl : core.

Lemma befriend_others A n u target m w :
  users A !! m = Some w → m ≠ n → ∃ w', users (befriend n u target A) !! m = Some w' ∧ user_touched (Some n) w w'.
Proof.
  intros Hm Hne. unfold befriend. cbn. destruct (decide (target = m)) as [->|Ht].
  - rewrite lookup_insert_ne, Hm by done. case_match; cbn.
    + rewrite lookup_insert_ne by done. eauto.
    + rewrite lookup_insert_eq. eexists. split; [done|]. eexists. split; [done|]. intros x Hx.
      rewrite elem_of_app, list_elem_of_singleton. naive_solver.
  - destruct (_ !! target) as [o|]; [case_match|]; cbn; rewrite ?lookup_insert_ne by done; eauto.
Qed.

Lemma part_others A n u target m w :
  users A !! m = Some w → m ≠ n → ∃ w', users (part n u target A) !! m = Some w' ∧ user_touched (Some n) w w'.
Proof.
  intros Hm Hne. unfold part. cbn. destruct (decide (target = m)) as [->|Ht].
  - rewrite lookup_insert_ne, Hm by done. cbn. rewrite lookup_insert_eq. eexists. split; [done|].
    eexists. split; [done|]. intros x Hx. rewrite elem_of_retain. naive_solver.
  - destruct (_ !! target) as [o|]; cbn; rewrite ?lookup_insert_ne by done; eauto.
Qed.

Lemma befriend_posts A n u target : posts (befriend n u target A) = posts A.
Proof. unfold befriend. cbn. by repeat case_match. Qed.
Lemma part_posts A n u target : posts (part n u target A) = posts A.
Proof. unfold part. cbn. by repeat case_match. Qed.

(** A step leaves the records of others. *)
Lemma step_users A who ids B n u :
  step A who ids B → users A !! n = Some u → Some n ≠ who → ∃ u', users B !! n = Some u' ∧ user_touched who u u'.
Proof.
  intros Hs Hu Hn. destruct Hs; try subst who; cbn; rewrite ?lookup_insert_ne by congruence; eauto;
    first [apply befriend_others | apply part_others]; congruence.
Qed.

Lemma step_posts A who ids B i p :
  well_kept A → step A who ids B → posts A !! i = Some p → Some (author p) ≠ who →
  ∃ p', posts B !! i = Some p' ∧ post_touched who p p'.
Proof.
  intros HA Hs Hp Hn.
  destruct Hs as [| | | | |n u j sf q Hw Hu Hj Hl K1 K2 K3 K4 K5 _|n u tg Hw Hu K1 K2|n u tg Hw Hu|n u j q Hw Hu Hq
    |n u j q c Hw Hu Hq K1 K2 K3|n u j q Hw Hu Hq K1]; try subst who; cbn; rewrite ?befriend_posts, ?part_posts; eauto.
  - rewrite lookup_insert_ne; [eauto|]. intros <-. destruct (po_form _ _ (wk_post A HA j p Hp)) as (sf' & Hj' & Hl').
    rewrite Hj in Hj'. apply app_inj_2 in Hj' as [Heq _]; [congruence|]. rewrite !length_app. congruence.
  - destruct (decide (j = i)) as [->|Hne]; [|rewrite lookup_insert_ne by done; eauto].
    rewrite lookup_insert_eq. assert (q = p) as -> by congruence. eexists. split; [done|]. left. eexists. split; [done|]. intros x Hx.
    rewrite toggle_like_spec by apply (po_likes _ _ (wk_post A HA i p Hp)). rewrite decide_False by congruence. done.
  - destruct (decide (j = i)) as [->|Hne]; [|rewrite lookup_insert_ne by done; eauto].
    rewrite lookup_insert_eq. assert (q = p) as -> by congruence. eexists. split; [done|]. right. exists c. by rewrite K1.
  - rewrite lookup_delete_ne; [eauto|]. intros <-. congruence.
Qed.

(** C29 A request changes what is the requester's.  Of another user's record only whether
    the requester is among the followers can change, so that no request of others
    touches a password, a profile, the accounts a user follows or the posts a user
    lists; of another user's post, only whether the requester likes it, or a comment of
    the requester's is appended: its text and the others' likes and comments stay, and
    only its author deletes it. *)
Theorem requests_touch_own_records req A : well_kept A →
  let who := actor A req in
  let A' := (handle_request req A).2 in
  (∀ n u, users A !! n = Some u → Some n ≠ who → ∃ u', users A' !! n = Some u' ∧ user_touched who u u') ∧
  (∀ i p, posts A !! i = Some p → Some (author p) ≠ who → ∃ p', posts A' !! i = Some p' ∧ post_touched who p p').
Proof.
  intros HA who A'. destruct (request_steps req A HA) as (A1 & B & K1 & K2 & K3).
  assert (well_kept A1) as HA1 by by rewrite K1. destruct K1 as (Hu & _ & Hp & _ & _), K3 as (Hu' & _ & Hp' & _ & _).
  unfold A'. rewrite Hu', Hp', <- Hu, <- Hp. split; intros *; [by eapply step_users|by eapply step_posts].
Qed.

(** A request that has to carry a session and whose token is unknown, expired or of a
    user that is gone answers the error that says so and writes nothing but the end of
    the expired session; a comment of an invalid length is refused before that. *)
Theorem no_session_no_effect req t A : bearer req = Some t → session_of A t = None →
  handle_request req A = (RespError (refusal A t), refused A t) ∨
  (∃ i x, req = ReqComment t i x ∧ handle_request req A = (RespError (js "invalid comment length"), A)).
Proof.
  assert (∀ X (k : User → M rstr social X) f, session_of A t = None →
    respond (bindM (require_session_user t) k) f A = (RespError (refusal A t), refused A t)) as Hrun.
  { intros X k f Hs. unfold respond. by rewrite as_session, Hs. }
  intros Hb Hs. destruct req; simplify_eq/=; try (left; by apply Hrun). unfold comment.
  destruct (is_empty _ || _); [|left; by apply Hrun]. right. eauto.
Qed.

(** ** Stored identifiers *)

Definition viewable (p : Post) : Prop := Forall (λ a, stored_id (blob_id a)) (attachments p).
Definition picturable (u : User) : Prop :=
  (∀ s, avatar_blob_id u = Some s → stored_id s) ∧ (∀ s, banner_blob_id u = Some s → stored_id s).

Definition blobs_stored (A : social) : Prop := map_Forall (λ _, picturable) (users A) ∧ map_Forall (λ _, viewable) (posts A).

Lemma blobs_stored_user A n u : blobs_stored A → picturable u → blobs_stored (put (user_key n) u A).
Proof. intros [Hu Hp] Hok. split; [|done]. by apply map_Forall_insert_2. Qed.

Lemma blobs_stored_post A i p : blobs_stored A → viewable p → blobs_stored (put (post_key i) p A).
Proof. intros [Hu Hp] Hok. split; [done|]. by apply map_Forall_insert_2. Qed.

Lemma blobs_stored_at A n u : blobs_stored A → users A !! n = Some u → picturable u.
Proof. intros [Hu _]. apply Hu. Qed.
Lemma blobs_viewable A i p : blobs_stored A → posts A !! i = Some p → viewable p.
Proof. intros [_ Hp]. apply Hp. Qed.

Lemma blobs_stored_befriend A n u target : blobs_stored A → users A !! n = Some u → blobs_stored (befriend n u target A).
Proof.
  intros HA Hu. assert (blobs_stored (put (user_key n) (with_following (following u ++ [target]) u) A)) as HA1.
  { apply blobs_stored_user; [done|]. exact (blobs_stored_at A n u HA Hu). }
  unfold befriend. cbv zeta. destruct (users _ !! target) as [o|] eqn:Ho; [|done]. case_match; [done|].
  apply blobs_stored_user; [done|]. exact (blobs_stored_at _ target o HA1 Ho).
Qed.

Lemma blobs_stored_part A n u target : blobs_stored A → users A !! n = Some u → blobs_stored (part n u target A).
Proof.
  intros HA Hu. assert (blobs_stored (put (user_key n) (with_following (retain_ne target (following u)) u) A)) as HA1.
  { apply blobs_stored_user; [done|]. exact (blobs_stored_at A n u HA Hu). }
  unfold part. cbv zeta. destruct (users _ !! target) as [o|] eqn:Ho; [|done].
  apply blobs_stored_user; [done|]. exact (blobs_stored_at _ target o HA1 Ho).
Qed.

Lemma step_blobs A who ids B : Forall byte_list ids → blobs_stored A → step A who ids B → blobs_stored B.
Proof.
  intros Hids HA. destruct 1 as [|t|t s u Hw Ht Hu|n u Hw Hn Hf He K1 K2 K3 K4 K5 K6 K7|n u name b av ba Hw Hu K1 K2 K3
    |n u i sf p Hw Hu Hi Hl K1 K2 K3 K4 K5 K6|n u tg Hw Hu K1 K2|n u tg Hw Hu|n u i p Hw Hu Hp|n u i p c Hw Hu Hp K1 K2 K3
    |n u i p Hw Hu Hp K1].
  - done.
  - done.
  - done.
  - apply (blobs_stored_user A n u); [done|]. split; intros s; congruence.
  - apply blobs_stored_user; [done|]. by apply K3.
  - apply (blobs_stored_user (put (post_key i) p A) n); [apply blobs_stored_post; [done|by apply K6]|].
    exact (blobs_stored_at A n u HA Hu).
  - by apply blobs_stored_befriend.
  - by apply blobs_stored_part.
  - apply blobs_stored_post; [done|]. exact (blobs_viewable A i p HA Hp).
  - apply blobs_stored_post; [done|]. exact (blobs_viewable A i p HA Hp).
  - assert (blobs_stored (put (user_key n) (with_posts (retain_ne i (user_posts u)) u) A)) as [HA1 HA2].
    { apply blobs_stored_user; [done|]. exact (blobs_stored_at A n u HA Hu). }
    split; [done|]. by apply map_Forall_delete.
Qed.

#[global] Instance blobs_stored_proper : Proper ((≡) ==> iff) blobs_stored.
Proof. intros A B (Hu & _ & Hp & _). unfold blobs_stored. by rewrite Hu, Hp. Qed.

(** Served from the start, with identifiers that are texts. *)
Lemma serve_invariant reqs :
  Forall (λ req, Forall byte_list (named req)) reqs →
  let A := (serve Datatypes.id reqs empty_social).2 in well_kept A ∧ blobs_stored A.
Proof.
  intros Hr. assert (∀ A, well_kept A ∧ blobs_stored A → well_kept (serve Datatypes.id reqs A).2 ∧ blobs_stored (serve Datatypes.id reqs A).2) as Hall;
    [|apply Hall; split; [apply well_kept_empty|split; apply map_Forall_empty]].
  induction Hr as [|req reqs Hreq _ IH]; intros A [HA Hb]; [done|]. cbn [serve].
  pose proof (request_well_kept req A HA) as HA'. assert (blobs_stored (handle_request req A).2) as Hb'.
  { destruct (request_steps req A HA) as (A1 & B & K1 & K2 & K3). rewrite K3. apply (step_blobs A1 (actor A req) (named req)); [done| |done].
    by rewrite K1. }
  destruct (handle_request req A) as [r A']. specialize (IH A' (conj HA' Hb')). change (Datatypes.id A') with A'.
  by destruct (serve Datatypes.id reqs A').
Qed.
End Steps.
End Steps.
