(* ===== verification/NbookRules.v ===== *)
(** * What the requests of the nbook program achieve

    Following and unfollowing, likes, accounts and sessions, and posts, each as the
    effect and the answer of the requests on well kept records. *)

From S2P Require Import Prelude JsValue Codec RustLib WasmHost NbookProgram NbookBlobs NbookStore NbookSpec NbookSocial NbookSteps.

Module Rules.
Import Rust Host Server Blobs Store Spec Social Steps.

Section Rules.
Context `{NodeHost} `{Blake3} `{Lowercase}.

(** ** A session that lasts *)

(** Whatever the clock reads, the token is one of the user [n]. *)
Definition lasting (A : social) (t n : rstr) : Prop :=
  ∃ s, sessions A !! t = Some s ∧ session_user s = n ∧ ∀ k, time_at k ≤ expires_ms s.

Lemma lasting_session A t n u : lasting A t n → users A !! n = Some u → session_of A t = Some u.
Proof.
  intros (s & Hs & Hn & Hc) Hu. unfold session_of. rewrite Hs. destruct (Z.ltb_spec (expires_ms s) (clock A)) as [Hlt|Hge].
  - specialize (Hc (clock_reads A)). fold (clock A) in Hc. lia.
  - by rewrite Hn.
Qed.

(** The rest of a request with such a session. *)
Lemma run_session {X} A t n u (k : User → M rstr social X) (f : X → Response) :
  lasting A t n → users A !! n = Some u → respond (bindM (require_session_user t) k) f A = respond (k u) f (tick A).
Proof. intros Hs Hu. unfold respond. by rewrite as_session, (lasting_session A t n u). Qed.

(** ** Following *)

Lemma contains_false {X} `{EqDecision X} (l : list X) x : x ∉ l → contains l x = false.
Proof. intros Hx. unfold contains. by rewrite bool_decide_eq_false_2. Qed.

Lemma contains_true {X} `{EqDecision X} (l : list X) x : x ∈ l → contains l x = true.
Proof. intros Hx. unfold contains. by rewrite bool_decide_eq_true_2. Qed.

Lemma run_follow A t n u target :
  lasting A t n → users A !! n = Some u → username u = n → n ≠ target → target ∉ following u →
  handle_request (ReqFollow t target) A = (RespOk (js "following"), befriend n u target (tick A)).
Proof.
  intros Hs Hu Hn Hne Hnf. cbn [handle_request]. unfold follow. rewrite (run_session A t n u) by done. unfold respond.
  rewrite Hn, str_eqb_neq, contains_false by done. unfold befriend, bindM. cbn -[js].
  destruct (_ !! target) as [o|]; [|done]. by destruct (contains _ n).
Qed.

Lemma run_unfollow A t n u target :
  lasting A t n → users A !! n = Some u → username u = n →
  handle_request (ReqUnfollow t target) A = (RespOk (js "unfollowed"), part n u target (tick A)).
Proof.
  intros Hs Hu Hn. cbn [handle_request]. unfold unfollow. rewrite (run_session A t n u) by done. unfold respond.
  rewrite Hn. unfold part, bindM. cbn -[js]. by destruct (_ !! target) as [o|].
Qed.

Lemma retain_snoc (x : rstr) l : x ∉ l → retain_ne x (l ++ [x]) = l.
Proof.
  intros Hx. unfold retain_ne. rewrite filter_app, filter_cons_False, filter_nil, app_nil_r by naive_solver.
  by apply retain_absent.
Qed.

Lemma with_following_id u l : with_following (following u) (with_following l u) = u.
Proof. by destruct u. Qed.
Lemma with_followers_back u l : with_followers (followers u) (with_followers l u) = u.
Proof. by destruct u. Qed.

Lemma not_follower A n u target o :
  well_kept A → users A !! n = Some u → users A !! target = Some o → target ∉ following u → n ∉ followers o.
Proof. intros HA Hu Ho Hnf Hin. destruct (wk_follow A HA target o n Ho Hin) as (y & Hy & Hv). congruence. Qed.

(** What following writes, when the user was not followed. *)
Lemma befriend_users A n u target :
  well_kept A → users A !! n = Some u → n ≠ target → target ∉ following u →
  users (befriend n u target A) =
    match users A !! target with
    | Some o => <[target := with_followers (followers o ++ [n]) o]> (<[n := with_following (following u ++ [target]) u]> (users A))
    | None => <[n := with_following (following u ++ [target]) u]> (users A)
    end.
Proof.
  intros HA Hu Hne Hnf. unfold befriend. cbn. rewrite lookup_insert_ne by done.
  destruct (users A !! target) as [o|] eqn:Ho; [|done]. rewrite contains_false; [done|]. by apply (not_follower A n u target o).
Qed.

Lemma part_users A n u target :
  n ≠ target →
  users (part n u target A) =
    match users A !! target with
    | Some o => <[target := with_followers (retain_ne n (followers o)) o]> (<[n := with_following (retain_ne target (following u)) u]> (users A))
    | None => <[n := with_following (retain_ne target (following u)) u]> (users A)
    end.
Proof.
  intros Hne. unfold part. cbn. rewrite lookup_insert_ne by done. by destruct (users A !! target) as [o|].
Qed.

Lemma befriend_part A n u target :
  well_kept A → users A !! n = Some u → n ≠ target → target ∉ following u →
  users (part n (with_following (following u ++ [target]) u) target (tick (befriend n u target A))) = users A.
Proof.
  intros HA Hu Hne Hnf. rewrite part_users by done. cbn [tick users following with_following].
  rewrite befriend_users by done. rewrite retain_snoc by done. rewrite with_following_id.
  destruct (users A !! target) as [o|] eqn:Ho.
  - rewrite lookup_insert_eq. cbn [followers with_followers]. rewrite retain_snoc by (by apply (not_follower A n u target o)).
    rewrite with_followers_back. apply map_eq. intros m. rewrite !lookup_insert. repeat case_decide; congruence.
  - rewrite lookup_insert_ne, Ho by done. rewrite insert_insert_eq. by apply insert_id.
Qed.

(** [befriend] and [part] write users only. *)
Lemma users_only A n u target f :
  f = befriend n u target ∨ f = part n u target →
  sessions (f A) = sessions A ∧ posts (f A) = posts A ∧ post_index (f A) = post_index A ∧ user_index (f A) = user_index A.
Proof. intros [->| ->]; unfold befriend, part; cbn; by repeat case_match. Qed.

(** To follow a user, registered or not, who is not followed yet answers "following",
    puts the target last in the requester's list and, if the target is registered, the
    requester last in the target's followers; nothing else of any record changes.
    To unfollow afterwards restores every record. *)
Theorem follow_unfollow_restores A t n u target :
  well_kept A → lasting A t n → users A !! n = Some u → n ≠ target → target ∉ following u →
  let '(r, A1) := handle_request (ReqFollow t target) A in
  let '(r', A2) := handle_request (ReqUnfollow t target) A1 in
  r = RespOk (js "following") ∧ r' = RespOk (js "unfollowed") ∧
  (∀ m, users A1 !! m =
     if decide (m = n) then Some (with_following (following u ++ [target]) u)
     else if decide (m = target) then (λ o, with_followers (followers o ++ [n]) o) <$> users A !! m
     else users A !! m) ∧
  posts A1 = posts A ∧ sessions A1 = sessions A ∧ A2 ≡ A.
Proof.
  intros HA Hs Hu Hne Hnf. pose proof (uo_name _ _ (wk_user A HA n u Hu)) as Hn.
  rewrite (run_follow A t n u target) by done. set (A1 := befriend n u target (tick A)).
  assert (users A1 = users (befriend n u target A)) as HA1 by (unfold A1, befriend; cbn; by repeat case_match).
  pose proof (befriend_users A n u target HA Hu Hne Hnf) as Hb. rewrite <- HA1 in Hb.
  assert (∀ m, users A1 !! m =
     if decide (m = n) then Some (with_following (following u ++ [target]) u)
     else if decide (m = target) then (λ o, with_followers (followers o ++ [n]) o) <$> users A !! m
     else users A !! m) as Hl.
  { intros m. rewrite Hb. destruct (users A !! target) as [o|] eqn:Ho; rewrite !lookup_insert; repeat case_decide; subst; try done;
      by rewrite Ho. }
  destruct (users_only (tick A) n u target _ (or_introl eq_refl)) as (K1 & K2 & K3 & K4). fold A1 in K1, K2, K3, K4.
  rewrite (run_unfollow A1 t n (with_following (following u ++ [target]) u) target); [|..|done].
  - split; [done|]. split; [done|]. split; [done|]. split; [done|]. split; [done|].
    destruct (users_only (tick A1) n (with_following (following u ++ [target]) u) target _ (or_intror eq_refl)) as (J1 & J2 & J3 & J4).
    split; [|cbn in *; repeat split; congruence]. rewrite <- (befriend_part A n u target) by done.
    rewrite !part_users by done. cbn. by rewrite HA1.
  - destruct Hs as (s & Hs1 & Hs2). exists s. by rewrite K1.
  - rewrite Hl. by rewrite decide_True.
Qed.

(** ** Accounts and sessions *)


(** The record of a new user. *)
Definition new_user (A : social) (name password : rstr) : User :=
  let salt_ := hex_encode (os_random (random_reads A) 16) in
  {| username := name; password_hash := hash_password password salt_; salt := salt_; user_created_at := clock A;
     display_name := None; bio := None; avatar_blob_id := None; banner_blob_id := None; followers := []; following := [];
     user_posts := [] |}.

Lemma run_register A name password :
  well_kept A → users A !! name = None → str_trim name ≠ [] → (6 ≤ length password)%nat →
  handle_request (ReqRegister name password) A =
    (RespOk (js "registered"),
     put USER_INDEX_KEY (sort_str (names A ++ [name])) (put (user_key name) (new_user A name password) (tick (draw A)))).
Proof.
  intros HA Hn Hf Hp. cbn [handle_request]. unfold register, respond. rewrite is_empty_false by done.
  rewrite (proj2 (Nat.ltb_ge (length password) 6)) by done. unfold bindM. cbn -[js]. rewrite Hn. cbn -[js].
  unfold append_user_index, bindM. cbn -[js]. rewrite contains_false; [done|].
  destruct (wk_names A HA) as (_ & _ & Hin). fold (names A). rewrite Hin. unfold known. rewrite Hn. by intros [].
Qed.

Definition new_session (A : social) (name : rstr) : Session :=
  {| token := hex_encode (os_random (random_reads A) 24); session_user := name; expires_ms := clock A + 86400000 |}.

Lemma run_login A name password u :
  users A !! name = Some u →
  handle_request (ReqLogin name password) A =
    if str_eqb (hash_password password (salt u)) (password_hash u) then
      (RespLoginOk (token (new_session A name)) (clock A + 86400000),
       put (session_key (token (new_session A name))) (new_session A name) (tick (draw A)))
    else (RespError (js "invalid credentials"), A).
Proof.
  intros Hu. cbn [handle_request]. unfold login, respond, bindM. cbn -[js]. rewrite Hu. cbn -[js]. by destruct (str_eqb _ _).
Qed.

(** The outcome of the check of a token. *)
Lemma session_checked t B :
  (require_session_user t B).1 =
  match sessions B !! t with
  | Some s => if expires_ms s <? clock B then Throw (js "session expired")
              else match users B !! session_user s with Some v => Ok v | None => Throw (js "user not found") end
  | None => Throw (js "invalid session")
  end.
Proof.
  unfold require_session_user, bindM. cbn [load_json social_storage get]. destruct (sessions B !! t) as [s|]; cbn [ok_or retM throwM]; [|done].
  cbn [now_ms social_storage]. fold (clock B). destruct (expires_ms s <? clock B); [done|]. cbn [get tick users]. by destruct (users B !! session_user s).
Qed.

(** C30 The life of an account.  A new name that is not blank, with a password of at least
    six bytes, is registered; the name cannot be registered again.  A password whose
    salted hash is another is refused and nothing changes; the password opens a session
    under a token of 48 characters.  The check that every request with a session starts
    with accepts the token as the user's, in whatever state keeps the session, as long as
    the clock it reads is at most 24 hours after the login, and then says that the session
    has expired; after the logout it says that there is no such session. *)
Theorem account_lifecycle A name password :
  well_kept A → users A !! name = None → str_trim name ≠ [] → (6 ≤ length password)%nat →
  let '(r1, A1) := handle_request (ReqRegister name password) A in
  let '(r2, A2) := handle_request (ReqLogin name password) A1 in
  r1 = RespOk (js "registered") ∧
  (∀ p, (6 ≤ length p)%nat → handle_request (ReqRegister name p) A1 = (RespError (js "user already exists"), A1)) ∧
  ∃ u t, users A1 !! name = Some u ∧
    (∀ p, hash_password p (salt u) ≠ hash_password password (salt u) →
       handle_request (ReqLogin name p) A1 = (RespError (js "invalid credentials"), A1)) ∧
    r2 = RespLoginOk t (clock A1 + 86400000) ∧ length t = 48%nat ∧
    (∀ B, sessions B !! t = sessions A2 !! t →
       (require_session_user t B).1 =
         if clock B <=? clock A1 + 86400000 then match users B !! name with Some v => Ok v | None => Throw (js "user not found") end
         else Throw (js "session expired")) ∧
    (∀ B, sessions B !! t = sessions (handle_request (ReqLogout t) A2).2 !! t → require_session_user t B = (Throw (js "invalid session"), B)).
Proof.
  intros HA Hn Hf Hp. rewrite run_register by done.
  set (A1 := put USER_INDEX_KEY _ _). assert (users A1 !! name = Some (new_user A name password)) as Hu.
  { cbn. by rewrite lookup_insert_eq. }
  rewrite (run_login A1 name password _ Hu). cbn [salt password_hash new_user]. rewrite str_eqb_refl.
  split; [done|]. split.
  { intros p Hlen. cbn [handle_request]. unfold register, respond. rewrite is_empty_false by done.
    rewrite (proj2 (Nat.ltb_ge (length p) 6)) by done. unfold bindM. cbn -[js A1]. by rewrite Hu. }
  eexists _, _. split; [exact Hu|]. split.
  { intros p Hne. rewrite (run_login A1 name p _ Hu), str_eqb_neq by done. done. }
  split; [done|]. split; [cbn [token new_session]; by rewrite length_hex_encode, os_random_length|]. split.
  - intros B HB. rewrite session_checked, HB. cbn -[A1]. rewrite lookup_insert_eq. cbn -[A1].
    destruct (Z.leb_spec (clock B) (clock A1 + 86400000)); [rewrite (proj2 (Z.ltb_ge _ _)) by done; done|].
    by rewrite (proj2 (Z.ltb_lt _ _)).
  - intros B HB. unfold require_session_user, bindM. cbn -[A1 js] in HB |- *. by rewrite HB, lookup_delete_eq.
Qed.

(** Following a name nobody has registered answers "following" and is remembered.  If
    the name is registered later, following it again answers "following" and writes
    nothing, so that the requester follows a user who does not have the requester among
    the followers. *)
Theorem follow_before_registration A t n u target password :
  well_kept A → lasting A t n → users A !! n = Some u → users A !! target = None → target ∉ following u →
  str_trim target ≠ [] → (6 ≤ length password)%nat →
  let '(r1, A1) := handle_request (ReqFollow t target) A in
  let '(r2, A2) := handle_request (ReqRegister target password) A1 in
  let '(r3, A3) := handle_request (ReqFollow t target) A2 in
  r1 = RespOk (js "following") ∧ r2 = RespOk (js "registered") ∧ r3 = RespOk (js "following") ∧ A3 ≡ A2 ∧
  (∃ u', users A3 !! n = Some u' ∧ target ∈ following u') ∧ (∃ o, users A3 !! target = Some o ∧ followers o = []).
Proof.
  intros HA Hs Hu Ht Hnf Hf Hp. pose proof (uo_name _ _ (wk_user A HA n u Hu)) as Hn.
  assert (n ≠ target) as Hne by congruence. rewrite (run_follow A t n u target) by done.
  assert (well_kept (befriend n u target (tick A))) as HA1 by (by apply well_kept_befriend; [apply well_kept_tick|..]).
  assert (befriend n u target (tick A) = put (user_key n) (with_following (following u ++ [target]) u) (tick A)) as Hb.
  { unfold befriend. cbn. by rewrite lookup_insert_ne, Ht. }
  rewrite Hb in *.
  rewrite run_register; [|done|cbn; by rewrite lookup_insert_ne|done..].
  set (A2 := put USER_INDEX_KEY _ _). set (u' := with_following (following u ++ [target]) u) in *.
  assert (users A2 !! n = Some u') as Hu2 by (cbn; by rewrite lookup_insert_ne, lookup_insert_eq).
  assert (target ∈ following u') as Hin by (cbn; set_solver).
  assert (handle_request (ReqFollow t target) A2 = (RespOk (js "following"), tick A2)) as Hrun.
  { cbn [handle_request]. unfold follow. rewrite (run_session A2 t n u') by (destruct Hs as (s & Hs1 & Hs2); by try exists s).
    unfold respond. replace (username u') with n by done. by rewrite str_eqb_neq, contains_true. }
  rewrite Hrun. repeat (split; [done|]). split; [eauto|].
  eexists. split; [cbn; by rewrite lookup_insert_eq|done].
Qed.

(** ** Posts *)

Definition post_view (p : Post) : PostView :=
  {| v_id := post_id p; v_author := author p; v_text := text p; v_attachments := attachments p; v_created_at := created_at p;
     v_likes := length (likes p); v_comments := comments p |}.


Lemma view_run A i p : posts A !! i = Some p → viewable p → load_post_view i A = (Ok (post_view p), A).
Proof.
  intros Hp Hv. unfold load_post_view, bindM. cbn -[js]. rewrite Hp. cbn -[js]. unfold liftM. by rewrite normalize_viewable.
Qed.


Lemma lasting_same A B t n : sessions B = sessions A → lasting A t n → lasting B t n.
Proof. intros HB (s & Hs). exists s. by rewrite HB. Qed.

Lemma run_get A i p : posts A !! i = Some p → viewable p → handle_request (ReqGetPost i) A = (RespPost (post_view p), A).
Proof. intros Hp Hv. cbn [handle_request]. unfold respond. by rewrite (view_run A i p). Qed.

Lemma run_get_none A i : posts A !! i = None → handle_request (ReqGetPost i) A = (RespError (js "post not found"), A).
Proof. intros Hp. cbn [handle_request]. unfold respond, load_post_view, bindM. cbn -[js]. by rewrite Hp. Qed.

(** The new post and what publishing writes. *)
Definition new_post (A : social) (n text_ : rstr) (l : list Attachment) : Post :=
  {| post_id := n ++ js "-" ++ hex_encode (os_random (random_reads A) 12); author := n; text := text_; attachments := l;
     created_at := clock (tick A); likes := []; comments := [] |}.

Definition publish (A : social) (u : User) (p : Post) : social :=
  put POST_INDEX_KEY (sort_str (index A ++ [post_id p]))
    (put (user_key (username u)) (with_posts (user_posts u ++ [post_id p]) u) (put (post_key (post_id p)) p A)).

Lemma run_create A t n u text_ ids l :
  lasting A t n → users A !! n = Some u → username u = n → (length text_ ≤ 2048)%nat →
  build_attachments ids = Ok l → Forall byte_list ids →
  handle_request (ReqCreatePost t text_ ids) A =
    (RespPost (post_view (new_post A n text_ l)), publish (tick (draw (tick A))) u (new_post A n text_ l)).
Proof.
  intros Hs Hu Hn Ht Hl Hb. cbn [handle_request]. unfold create_post. rewrite (run_session A t n u) by done.
  unfold respond. rewrite (proj2 (Nat.ltb_ge 2048 (length text_))) by done. rewrite Hl, Hn.
  set (B := publish (tick (draw (tick A))) u (new_post A n text_ l)).
  set (i := post_id (new_post A n text_ l)).
  assert (posts B !! i = Some (new_post A n text_ l)) as HB by (cbn; by rewrite lookup_insert_eq).
  assert (load_post_view i B = (Ok (post_view (new_post A n text_ l)), B)) as Hv.
  { apply view_run; [done|]. by apply build_attachments_stored with ids. }
  match goal with |- match ?c with _ => _ end = _ => replace c with (load_post_view i B) end; [by rewrite Hv|].
  unfold B, publish. by rewrite Hn.
Qed.

Lemma run_delete A t n u i p :
  lasting A t n → users A !! n = Some u → username u = n → posts A !! i = Some p → author p = n →
  handle_request (ReqDeletePost t i) A =
    (RespOk (js "deleted"),
     put POST_INDEX_KEY (retain_ne i (index A))
       (remove (post_key i) (put (user_key n) (with_posts (retain_ne i (user_posts u)) u) (tick A)))).
Proof.
  intros Hs Hu Hn Hp Ha. cbn [handle_request]. unfold delete_post. rewrite (run_session A t n u) by done.
  unfold respond, bindM. cbn -[js]. rewrite Hp. cbn -[js]. by rewrite Ha, Hn, str_eqb_refl.
Qed.

(** The life of a post.  A text of at most 2048 bytes with attachments the node has is
    published: the answer is the view of the post, without likes and comments; whoever
    asks for the post gets that view, and its author and the index list it.  Its author
    deletes it: nobody gets it any more, neither index nor author list it, and, its
    identifier being a fresh one, the posts and the users are what they were. *)
Theorem post_lifecycle A t n u text_ ids l :
  well_kept A → lasting A t n → users A !! n = Some u → (length text_ ≤ 2048)%nat →
  build_attachments ids = Ok l → Forall byte_list ids →
  let '(r, A1) := handle_request (ReqCreatePost t text_ ids) A in
  ∃ v, r = RespPost v ∧ v_author v = n ∧ v_text v = text_ ∧ v_attachments v = l ∧ v_likes v = 0%nat ∧ v_comments v = [] ∧
    handle_request (ReqGetPost (v_id v)) A1 = (RespPost v, A1) ∧ v_id v ∈ index A1 ∧
    users A1 = <[n := with_posts (user_posts u ++ [v_id v]) u]> (users A) ∧
    (let '(r', A2) := handle_request (ReqDeletePost t (v_id v)) A1 in
    r' = RespOk (js "deleted") ∧ handle_request (ReqGetPost (v_id v)) A2 = (RespError (js "post not found"), A2) ∧
    (v_id v ∉ index A2) ∧ (posts A !! v_id v = None → posts A2 = posts A ∧ users A2 = users A)).
Proof.
  intros HA Hs Hu Ht Hl Hb. pose proof (uo_name _ _ (wk_user A HA n u Hu)) as Hn.
  rewrite (run_create A t n u text_ ids l) by done. set (p := new_post A n text_ l). set (A1 := publish _ u p).
  assert (posts A1 !! post_id p = Some p) as Hp by (cbn; by rewrite lookup_insert_eq).
  assert (users A1 = <[n := with_posts (user_posts u ++ [post_id p]) u]> (users A)) as Hu1 by (unfold A1, publish; by rewrite Hn).
  exists (post_view p). do 6 (split; [done|]). split.
  { apply run_get; [done|]. by apply build_attachments_stored with ids. }
  split; [apply elem_sort_snoc; by right|]. split; [done|].
  assert (users A1 !! n = Some (with_posts (user_posts u ++ [post_id p]) u)) as Hu1' by (rewrite Hu1; by rewrite lookup_insert_eq).
  change (v_id (post_view p)) with (post_id p). rewrite (run_delete A1 t n _ (post_id p) p (lasting_same A A1 t n eq_refl Hs) Hu1' Hn Hp eq_refl).
  split; [done|]. split; [apply run_get_none; cbn -[A1]; by rewrite lookup_delete_eq|]. split.
  - intros [Hne _]%elem_of_retain. done.
  - intros Hfresh. cbn [users posts put remove set_users set_posts set_post_index user_posts with_posts tick].
    split; [cbn -[p]; by rewrite delete_insert_id|]. rewrite Hu1, insert_insert_eq.
    rewrite retain_snoc; [|].
    + rewrite <- (insert_id (users A) n u Hu) at 2. f_equal. by destruct u.
    + intros Hin. destruct (wk_owned A HA n u _ Hu Hin) as (q & Hq & _). congruence.
Qed.

(** ** Likes *)

Lemma run_like A t n u i p :
  lasting A t n → users A !! n = Some u → username u = n → posts A !! i = Some p → viewable p →
  let p' := with_likes (toggle_like n (likes p)) p in
  handle_request (ReqLike t i) A = (RespPost (post_view p'), put (post_key i) p' (tick A)).
Proof.
  intros Hs Hu Hn Hp Hv p'. cbn [handle_request]. unfold like. rewrite (run_session A t n u) by done.
  unfold respond, bindM. cbn [load_json social_storage get tick posts]. rewrite Hp.
  cbn [ok_or retM store_json social_storage]. rewrite Hn. fold p'.
  rewrite (view_run (put (post_key i) p' (tick A)) i p'); [done|cbn; by rewrite lookup_insert_eq|done].
Qed.

Lemma toggle_twice n l : NoDup l → toggle_like n (toggle_like n l) ≡ₚ l.
Proof.
  intros Hl. destruct (decide (n ∈ l)) as [Hn|Hn].
  - rewrite toggle_like_out; [rewrite <- Permutation_cons_append; by apply toggle_like_in|].
    rewrite toggle_like_spec, decide_True by done. naive_solver.
  - apply (Permutation_cons_inv (a := n)). rewrite toggle_like_in.
    + rewrite toggle_like_out by done. by rewrite <- Permutation_cons_append.
    + rewrite toggle_like_spec, decide_True by done. done.
Qed.

(** A like is a switch of the requester's alone: the likes of the others stay, the
    number that is answered is that of the likes, and liking again takes the like back. *)
Theorem like_is_a_switch A t n u i p :
  well_kept A → lasting A t n → users A !! n = Some u → posts A !! i = Some p → viewable p →
  let '(r1, A1) := handle_request (ReqLike t i) A in
  let '(r2, A2) := handle_request (ReqLike t i) A1 in
  ∃ l1 l2, r1 = RespPost (post_view (with_likes l1 p)) ∧ posts A1 = <[i := with_likes l1 p]> (posts A) ∧ users A1 = users A ∧
    (∀ m, m ∈ l1 ↔ if decide (m = n) then m ∉ likes p else m ∈ likes p) ∧
    r2 = RespPost (post_view (with_likes l2 p)) ∧ posts A2 = <[i := with_likes l2 p]> (posts A) ∧ users A2 = users A ∧
    l2 ≡ₚ likes p.
Proof.
  intros HA Hs Hu Hp Hv. pose proof (uo_name _ _ (wk_user A HA n u Hu)) as Hn.
  pose proof (po_likes _ _ (wk_post A HA i p Hp)) as Hd. rewrite (run_like A t n u i p) by done.
  rewrite (run_like _ t n u i (with_likes (toggle_like n (likes p)) p)); try done; [|cbn; by rewrite lookup_insert_eq].
  exists (toggle_like n (likes p)), (toggle_like n (toggle_like n (likes p))). do 3 (split; [done|]).
  split; [by apply toggle_like_spec|]. split; [done|]. split; [cbn; by rewrite insert_insert_eq|]. split; [done|by apply toggle_twice].
Qed.

(** ** Profiles and posts are always shown *)

Definition profile_view (u : User) : ProfileView :=
  {| p_username := username u; p_display_name := display_name u; p_bio := bio u; p_avatar_blob_id := avatar_blob_id u;
     p_banner_blob_id := banner_blob_id u; p_followers := length (followers u); p_following := length (following u);
     p_follower_list := followers u; p_following_list := following u; p_posts := user_posts u;
     p_created_at := user_created_at u |}.

Lemma run_profile A n u : users A !! n = Some u → picturable u → handle_request (ReqProfile n) A = (RespProfile (profile_view u), A).
Proof.
  intros Hu [Ha Hb]. cbn [handle_request]. unfold respond, profile, bindM. cbn -[js]. rewrite Hu. cbn -[js]. unfold liftM.
  rewrite (normalize_opt_stored (avatar_blob_id u)) by done. by rewrite (normalize_opt_stored (banner_blob_id u)).
Qed.

(** Whatever requests were served, every registered user's profile and every post is
    answered in full, and nothing is written: the identifiers of blobs that were
    accepted are accepted again, and are answered as they are stored. *)
Theorem every_record_shown reqs :
  Forall (λ req, Forall byte_list (named req)) reqs →
  let A := (serve Datatypes.id reqs empty_social).2 in
  (∀ n u, users A !! n = Some u → handle_request (ReqProfile n) A = (RespProfile (profile_view u), A)) ∧
  (∀ i p, posts A !! i = Some p → handle_request (ReqGetPost i) A = (RespPost (post_view p), A)).
Proof.
  intros Hr A. destruct (serve_invariant reqs Hr) as [_ Hb]. fold A in Hb. split.
  - intros n u Hu. apply run_profile; [done|]. exact (blobs_stored_at A n u Hb Hu).
  - intros i p Hp. apply run_get; [done|]. exact (blobs_viewable A i p Hb Hp).
Qed.
End Rules.
End Rules.
