(* ===== verification/NbookRank.v ===== *)
(** * What the nbook program answers from many records

    The feed and its ranking, the suggestions and the search, on well kept records. *)

From Stdlib Require Import SpecFloat Sorted.
From S2P Require Import Prelude JsValue Codec RustLib WasmHost NbookProgram NbookBlobs NbookStore NbookSpec NbookSocial NbookSteps NbookRules.

Module Rank.
Import Rust Host Server Blobs Store Spec Social Steps Rules.

Section Rank.
Context `{NodeHost} `{Blake3} `{Lowercase}.

(** ** Ranking *)

(** The later of two in the ranking has no greater score. *)
Definition ranked_before (x y : f64 * PostView) : Prop := SFcompare y.1 x.1 ≠ Some Gt.

Lemma before_Gt x y : before x y = Gt → ranked_before y x.
Proof.
  unfold before, ranked_before. rewrite (SFcompare_swap x.1 y.1). by destruct (SFcompare x.1 y.1) as [[]|].
Qed.

Lemma before_ranked x y : before x y ≠ Gt → ranked_before x y.
Proof. unfold before, ranked_before. by destruct (SFcompare y.1 x.1) as [[]|]. Qed.

Lemma insert_scored_perm x l : insert_scored x l ≡ₚ x :: l.
Proof. induction l as [|y l IH]; simpl; [done|]. destruct (before x y); try done. rewrite IH. apply Permutation_swap. Qed.

Lemma sort_scored_perm l : sort_scored l ≡ₚ l.
Proof. induction l as [|x l IH]; simpl; [done|]. by rewrite insert_scored_perm, IH. Qed.

Lemma insert_scored_head x y l : HdRel ranked_before y l → ranked_before y x → HdRel ranked_before y (insert_scored x l).
Proof. intros Hl Hx. destruct l as [|z l]; simpl; [by constructor|]. destruct (before x z); constructor; try done; by inv Hl. Qed.

Lemma insert_scored_sorted x l : Sorted ranked_before l → Sorted ranked_before (insert_scored x l).
Proof.
  induction 1 as [|y l Hl IH Hy]; simpl; [by repeat constructor|]. destruct (before x y) eqn:Hb.
  - constructor; [by constructor|]. constructor. apply before_ranked. congruence.
  - constructor; [by constructor|]. constructor. apply before_ranked. congruence.
  - constructor; [done|]. apply insert_scored_head; [done|by apply before_Gt].
Qed.

Lemma sort_scored_sorted l : Sorted ranked_before (sort_scored l).
Proof. induction l as [|x l IH]; simpl; [constructor|by apply insert_scored_sorted]. Qed.

(** ** The loops of the feed *)

Definition in_view (A : social) (u : User) (i : rstr) : bool :=
  match posts A !! i with
  | Some p => str_eqb (author p) (username u) || contains (following u) (author p)
  | None => false
  end.

Definition in_viewP (A : social) (u : User) (i : rstr) : Prop := in_view A u i = true.

#[global] Instance in_viewP_dec A u i : Decision (in_viewP A u i).
Proof. unfold in_viewP. apply _. Defined.

Lemma try_author_run A i : try_ok (load_post_author i) A = (Ok (author <$> posts A !! i), A).
Proof. unfold try_ok, catchM, load_post_author, bindM. cbn -[js]. by destruct (posts A !! i). Qed.

Lemma retain_visible_run A u ids : retain_visible u ids A = (Ok (filter (in_viewP A u) ids), A).
Proof.
  induction ids as [|i ids IH]; [done|]. cbn [retain_visible]. unfold bindM at 1. rewrite try_author_run.
  unfold bindM. rewrite IH. unfold retM. do 2 f_equal. rewrite filter_cons. unfold in_viewP, in_view.
  case_decide as Hd; destruct (posts A !! i) as [p|]; cbn; try done; [by rewrite Hd|].
  by destruct (str_eqb _ _ || contains _ _).
Qed.

Lemma try_view_run A i : blobs_stored A → try_ok (load_post_view i) A = (Ok (post_view <$> posts A !! i), A).
Proof.
  intros Hb. unfold try_ok, catchM, bindM at 1. destruct (posts A !! i) as [p|] eqn:Hp.
  - by rewrite (view_run A i p) by (eauto using blobs_viewable).
  - unfold load_post_view, bindM. cbn -[js]. by rewrite Hp.
Qed.

Definition scored_post (now : Z) (p : Post) : f64 * PostView := (post_score (post_view p) now, post_view p).

Lemma score_all_run A now ids : blobs_stored A → score_all now ids A = (Ok (omap (λ i, scored_post now <$> posts A !! i) ids), A).
Proof.
  intros Hb. induction ids as [|i ids IH]; [done|]. cbn [score_all]. unfold bindM at 1. rewrite try_view_run by done.
  unfold bindM. rewrite IH. unfold retM. do 2 f_equal. cbn [omap list_omap]. by destruct (posts A !! i).
Qed.

Definition jittered (x y : f64 * PostView) : Prop :=
  x.2 = y.2 ∧ ∃ j, 0 ≤ j < 100 ∧ y.1 = f64_add x.1 (f64_div (f64_of_Z j) (f64_of_Z 10000)).

Lemma add_jitter_run l A : ∃ l' A', add_jitter l A = (Ok l', A') ∧ A' ≡ A ∧ Forall2 jittered l l'.
Proof.
  revert A. induction l as [|[s p] l IH]; intros A; [by exists [], A|].
  destruct (IH (draw A)) as (l' & A' & Hrun & HA & Hf). cbn [add_jitter]. unfold try_ok, catchM, bindM.
  cbn [random_u64 social_storage retM]. unfold retM. rewrite Hrun.
  eexists _, _. split; [done|]. split; [done|]. constructor; [|done]. split; [done|]. eexists. split; [|done].
  apply Z.mod_pos_bound. lia.
Qed.

Lemma jittered_views l l' : Forall2 jittered l l' → map snd l' = map snd l.
Proof. induction 1 as [|x y l l' [Hxy _] _ IH]; simpl; congruence. Qed.

(** ** The feed *)

(** The identifiers a feed is made of, in the order of the index. *)
Definition listed (A : social) (u : User) (discover : bool) : list rstr :=
  if discover then index A else filter (in_viewP A u) (index A).

(** The views of those of the posts that are ranked at all. *)
Definition considered (A : social) (u : User) (limit : nat) (discover : bool) : list PostView :=
  omap (λ i, post_view <$> posts A !! i) (take (Nat.min limit 200) (listed A u discover)).

Lemma scored_views now A ids : map snd (omap (λ i, scored_post now <$> posts A !! i) ids) = omap (λ i, post_view <$> posts A !! i) ids.
Proof.
  induction ids as [|i ids IH]; [done|]. cbn [omap list_omap]. destruct (posts A !! i); cbn [fmap option_fmap option_map map];
    [f_equal|]; exact IH.
Qed.

Lemma scored_score now A ids : Forall (λ x, x.1 = post_score x.2 now) (omap (λ i, scored_post now <$> posts A !! i) ids).
Proof.
  induction ids as [|i ids IH]; [constructor|]. cbn [omap list_omap]. destruct (posts A !! i); cbn [fmap option_fmap option_map];
    [by constructor|done].
Qed.

(** The score of the [now] of the ranking, with a jitter below a hundredth. *)
Definition scored_at (now : Z) (x : f64 * PostView) : Prop :=
  ∃ j, 0 ≤ j < 100 ∧ x.1 = f64_add (post_score x.2 now) (f64_div (f64_of_Z j) (f64_of_Z 10000)).

Lemma jittered_score now l l' : Forall (λ x, x.1 = post_score x.2 now) l → Forall2 jittered l l' → Forall (scored_at now) l'.
Proof.
  intros Hl Hj. induction Hj as [|x y l l' [Hv (j & Hj & Hy)] _ IH]; [constructor|]. inversion_clear Hl as [|? ? Hx Hl']. constructor; [|by apply IH].
  exists j. split; [done|]. by rewrite Hy, <- Hv, Hx.
Qed.

Lemma feed_run A t n u limit discover :
  lasting A t n → users A !! n = Some u → blobs_stored A →
  let now := clock (tick A) in
  ∃ ranked A', respond (feed_internal t limit discover) RespFeed A = (RespFeed (map snd (take (Nat.min limit 100) ranked)), A') ∧
    A' ≡ A ∧ map snd ranked ≡ₚ considered A u limit discover ∧ Sorted ranked_before ranked ∧ Forall (scored_at now) ranked.
Proof.
  intros Hs Hu Hb now. unfold feed_internal. rewrite (run_session A t n u) by done.
  set (ids := take (Nat.min limit 200) (listed A u discover)).
  set (scored := omap (λ i, scored_post now <$> posts A !! i) ids).
  destruct (add_jitter_run scored (tick (tick A))) as (l' & A' & Hj & HA' & Hf).
  exists (sort_scored l'), A'. split; [|split; [done|split; [|split; [apply sort_scored_sorted|]]]].
  - unfold respond, load_post_index, bindM. cbn [load_json social_storage get tick post_index retM]. fold (index A).
    assert ((if discover then retM (index A) else retain_visible u (index A)) (tick A) = (Ok (listed A u discover), tick A)) as Hids.
    { destruct discover; [done|]. by rewrite retain_visible_run. }
    unfold retM in Hids. unfold retM at 1. unfold index in Hids. unfold index. rewrite Hids. cbn [now_ms social_storage].
    fold (clock (tick A)). fold now ids. rewrite (score_all_run (tick (tick A)) now ids Hb).
    change (posts (tick (tick A))) with (posts A). fold scored. by rewrite Hj.
  - rewrite sort_scored_perm, (jittered_views _ _ Hf). unfold scored. by rewrite scored_views.
  - rewrite sort_scored_perm. apply (jittered_score now scored); [apply scored_score|done].
Qed.

Lemma considered_length A u limit discover :
  well_kept A → length (considered A u limit discover) = Nat.min (Nat.min limit 200) (length (listed A u discover)).
Proof.
  intros HA. unfold considered. rewrite <- length_take.
  assert (Forall (λ i, is_Some (posts A !! i)) (take (Nat.min limit 200) (listed A u discover))) as Hall.
  { apply Forall_take, Forall_forall. intros i Hi. apply (wk_index A HA). unfold listed in Hi. destruct discover; [done|].
    by apply list_elem_of_filter in Hi as [_ Hi]. }
  induction Hall as [|i ids [p Hp] _ IH]; [done|]. cbn [omap list_omap]. rewrite Hp.
  cbn [fmap option_fmap option_map length]. by rewrite IH.
Qed.

(** The feed.  With a session it answers, writing nothing, as many posts as there are
    and are asked for, at most 100: of the posts of the requester and of those the
    requester follows, or of all for the discovery, in the order of their scores (for
    the clock's time, with a jitter below a hundredth), the best first. *)
Theorem feed_ranked A t n u limit discover :
  well_kept A → blobs_stored A → lasting A t n → users A !! n = Some u →
  let lim := default 20%nat limit in
  let all := default false discover in
  ∃ ranked A', handle_request (ReqFeed t limit discover) A = (RespFeed (map snd (take (Nat.min lim 100) ranked)), A') ∧ A' ≡ A ∧
    map snd ranked ≡ₚ considered A u lim all ∧ Sorted ranked_before ranked ∧ Forall (scored_at (clock (tick A))) ranked ∧
    length (take (Nat.min lim 100) ranked) = Nat.min (Nat.min lim 100) (length (listed A u all)) ∧
    Forall (λ x, ∃ p, posts A !! v_id x.2 = Some p ∧ x.2 = post_view p ∧
      (all = false → author p = n ∨ author p ∈ following u)) ranked.
Proof.
  intros HA Hb Hs Hu lim all. pose proof (uo_name _ _ (wk_user A HA n u Hu)) as Hn.
  destruct (feed_run A t n u lim all Hs Hu Hb) as (ranked & A' & Hrun & HA' & Hp & Hsort & Hsc).
  exists ranked, A'. do 5 (split; [done|]). split.
  - rewrite length_take, <- (length_map snd ranked), Hp, considered_length by done. lia.
  - apply Forall_forall. intros [s v] Hin. assert (v ∈ considered A u lim all) as Hv.
    { rewrite <- Hp. apply list_elem_of_fmap. by exists (s, v). }
    unfold considered in Hv. apply list_elem_of_omap in Hv as (i & Hi & Hv). destruct (posts A !! i) as [p|] eqn:Hpi; [|done].
    injection Hv as <-. exists p. cbn. rewrite (po_id _ _ (wk_post A HA i p Hpi)). split; [done|]. split; [done|].
    intros Hall. unfold listed in Hi. rewrite Hall in Hi. apply elem_of_take in Hi as (k & Hk & _).
    apply list_elem_of_lookup_2, list_elem_of_filter in Hk as [Hk _]. unfold in_viewP, in_view in Hk. rewrite Hpi in Hk.
    apply orb_true_iff in Hk as [Hk|Hk]; [left; apply str_eqb_eq in Hk; congruence|]. right.
    unfold contains in Hk. by apply bool_decide_eq_true in Hk.
Qed.

(** Which posts are ranked is decided before their scores: only those within the first
    posts of the index, as many as are asked for and at most 200.  The index is in the
    order of the identifiers, which begin with their authors' names, so that a post
    after those is in no answer, however recent and liked it is. *)
Theorem feed_cut_before_ranking A t n u limit discover i :
  well_kept A → blobs_stored A → lasting A t n → users A !! n = Some u →
  i ∉ take (Nat.min (default 20%nat limit) 200) (listed A u (default false discover)) →
  ∃ vs A', handle_request (ReqFeed t limit discover) A = (RespFeed vs, A') ∧ Forall (λ v, v_id v ≠ i) vs.
Proof.
  intros HA Hb Hs Hu Hi.
  destruct (feed_run A t n u (default 20%nat limit) (default false discover) Hs Hu Hb) as (ranked & A' & Hrun & _ & Hp & _).
  eexists _, A'. split; [exact Hrun|]. apply Forall_forall. intros v Hv Heq. apply Hi.
  assert (v ∈ considered A u (default 20%nat limit) (default false discover)) as Hc.
  { rewrite <- Hp. apply list_elem_of_fmap in Hv as (x & -> & Hx). apply list_elem_of_fmap. exists x. split; [done|].
    apply elem_of_take in Hx as (k & Hk & _). by apply list_elem_of_lookup_2 in Hk. }
  unfold considered in Hc. apply list_elem_of_omap in Hc as (j & Hj & Hv'). destruct (posts A !! j) as [p|] eqn:Hpj; [|done].
  injection Hv' as <-. cbn in Heq. rewrite (po_id _ _ (wk_post A HA j p Hpj)) in Heq. by subst j.
Qed.

(** ** Lists of users *)

Definition summary_of (u : User) : UserSummary :=
  {| s_username := username u; s_display_name := display_name u; s_bio := bio u; s_avatar_blob_id := avatar_blob_id u;
     s_banner_blob_id := banner_blob_id u; s_followers := length (followers u) |}.

Lemma summary_run A n : blobs_stored A → load_user_summary n A = (Ok (summary_of <$> users A !! n), A).
Proof.
  intros Hb. unfold load_user_summary, bindM. cbn [load_json social_storage get]. destruct (users A !! n) as [u|] eqn:Hu; [|done].
  destruct (blobs_stored_at A n u Hb Hu) as [Ha Hw]. unfold liftM.
  rewrite (normalize_opt_stored (avatar_blob_id u)) by done. by rewrite (normalize_opt_stored (banner_blob_id u)).
Qed.

Definition shown_users (A : social) (l : list rstr) : list UserSummary := omap (λ n, summary_of <$> users A !! n) l.

Lemma summaries_run A l : blobs_stored A → summaries l A = (Ok (shown_users A l), A).
Proof.
  intros Hb. induction l as [|n l IH]; [done|]. cbn [summaries]. unfold bindM. rewrite summary_run, IH by done.
  unfold shown_users. cbn [omap list_omap]. by destruct (users A !! n).
Qed.

Lemma swap_perm {X} i j (l : list X) : swap i j l ≡ₚ l.
Proof.
  unfold swap. destruct (l !! i) as [x|] eqn:Hi; [|done]. destruct (l !! j) as [y|] eqn:Hj; [|done].
  by apply (Permutation_insert_swap l j i y x).
Qed.

Lemma shuffle_run todo i l A : ∃ l' A', shuffle todo i l A = (Ok l', A') ∧ A' ≡ A ∧ l' ≡ₚ l.
Proof.
  revert i l A. induction todo as [|todo IH]; intros i l A; [by exists l, A|]. cbn [shuffle]. unfold try_ok, catchM, bindM.
  cbn [random_u64 social_storage retM]. unfold retM.
  destruct (IH (S i) (swap i (Z.to_nat ((le_value (os_random (random_reads A) 8) mod 2 ^ 32) mod Z.of_nat (length l))) l) (draw A))
    as (l' & A' & -> & HA & Hp).
  exists l', A'. split; [done|]. split; [done|]. by rewrite Hp, swap_perm.
Qed.

(** Whom a user may be suggested. *)
Definition candidates (A : social) (u : User) : list rstr := filter (λ n, ¬ (n = username u ∨ n ∈ following u)) (names A).

Lemma shown_names A l : well_kept A → Forall (known A) l → map s_username (shown_users A l) = l.
Proof.
  intros HA. induction 1 as [|n l [u Hu] _ IH]; [done|]. unfold shown_users. cbn [omap list_omap]. rewrite Hu.
  cbn [fmap option_fmap option_map map]. fold (shown_users A l). rewrite IH. cbn. by rewrite (uo_name _ _ (wk_user A HA n u Hu)).
Qed.

(** The suggestions are users there are, each once, neither the requester nor anybody
    the requester follows: as many as are asked for, up to 20 and to how many there
    are; nothing is written. *)
Theorem suggestions_eligible A t n u limit :
  well_kept A → blobs_stored A → lasting A t n → users A !! n = Some u →
  ∃ l A', handle_request (ReqSuggestions t limit) A = (RespUsers l, A') ∧ A' ≡ A ∧
    length l = Nat.min (Nat.min (default 5%nat limit) 20) (length (candidates A u)) ∧ NoDup (map s_username l) ∧
    Forall (λ s, ∃ v, users A !! s_username s = Some v ∧ s = summary_of v ∧ s_username s ≠ n ∧ s_username s ∉ following u) l.
Proof.
  intros HA Hb Hs Hu. pose proof (uo_name _ _ (wk_user A HA n u Hu)) as Hn. destruct (wk_names A HA) as (_ & Hd & Hin).
  assert (Forall (known A) (candidates A u)) as Hk.
  { apply Forall_forall. intros m [_ Hm]%list_elem_of_filter. by apply Hin. }
  pose proof (shown_names A _ HA Hk) as Hnames. set (all := shown_users A (candidates A u)) in *.
  destruct (shuffle_run (length all) 0 all (tick A)) as (l' & A' & Hrun & HA' & Hp).
  exists (take (Nat.min (default 5%nat limit) 20) l'), A'. split; [|split; [done|split; [|split]]].
  - cbn [handle_request]. unfold suggest_users. rewrite (run_session A t n u) by done. unfold respond, load_user_index, bindM.
    cbn [load_json social_storage get tick user_index retM]. unfold retM at 1. fold (names A). fold (candidates A u).
    rewrite (summaries_run (tick A) (candidates A u) Hb). change (shown_users (tick A) (candidates A u)) with all. by rewrite Hrun.
  - rewrite length_take, Hp. f_equal. by rewrite <- Hnames, length_map.
  - apply (sublist_NoDup _ (map s_username l')); [|rewrite <- firstn_map; apply sublist_take].
    rewrite Hp, Hnames. by apply NoDup_filter.
  - apply Forall_take. rewrite Hp. apply Forall_forall. intros s Hs'. apply list_elem_of_omap in Hs' as (m & Hm & Hv).
    destruct (users A !! m) as [v|] eqn:Hmv; [|done]. injection Hv as <-. exists v. cbn.
    rewrite (uo_name _ _ (wk_user A HA m v Hmv)). apply list_elem_of_filter in Hm as [Hm _].
    split; [done|]. split; [done|]. rewrite Hn in Hm. naive_solver.
Qed.

(** The names a query finds. *)
Definition found (q : rstr) (l : list rstr) : list rstr := filter (λ n, str_contains q (str_to_lowercase n) = true) l.

Lemma search_loop_run A q lim idx res :
  blobs_stored A → Forall (known A) idx →
  search_loop q lim idx res A = (Ok (res ++ take (lim - length res) (shown_users A (found q idx))), A).
Proof.
  intros Hb Hk. revert res. induction Hk as [|n idx [u Hu] _ IH]; intros res; cbn [search_loop].
  - change (found q []) with (@nil rstr). change (shown_users A []) with (@nil UserSummary). by rewrite take_nil, app_nil_r.
  - destruct (Nat.leb_spec lim (length res)) as [Hle|Hlt].
    + replace (lim - length res)%nat with 0%nat by lia. by rewrite take_0, app_nil_r.
    + unfold found. rewrite filter_cons. destruct (str_contains q (str_to_lowercase n)); [|by apply IH].
      rewrite decide_True by done. unfold bindM. rewrite summary_run, Hu by done. cbn [fmap option_fmap option_map].
      rewrite IH, length_app, <- app_assoc. unfold shown_users at 2. cbn [omap list_omap length]. rewrite Hu.
      cbn [fmap option_fmap option_map]. replace (lim - length res)%nat with (S (lim - (length res + 1))) by lia. done.
Qed.

(** The lists of users.  A search answers the first users, in the order of their names,
    whose name in lower case contains the query in lower case; the followers and the
    accounts somebody follows are answered in the order they were added, those that are
    registered, of the first as many as are asked for; a name nobody has is an error. *)
Theorem user_lists A t n u q limit name :
  well_kept A → blobs_stored A → lasting A t n → users A !! n = Some u →
  handle_request (ReqSearchUsers t q limit) A =
    (RespUsers (take (default 10%nat limit) (shown_users A (found (str_to_lowercase q) (names A)))), tick A) ∧
  handle_request (ReqFollowers t name limit) A =
    (match users A !! name with
     | Some v => RespUsers (shown_users A (take (default 50%nat limit) (followers v)))
     | None => RespError (js "user not found")
     end, tick A) ∧
  handle_request (ReqFollowing t name limit) A =
    (match users A !! name with
     | Some v => RespUsers (shown_users A (take (default 50%nat limit) (following v)))
     | None => RespError (js "user not found")
     end, tick A).
Proof.
  intros HA Hb Hs Hu. destruct (wk_names A HA) as (_ & _ & Hin). split; [|split].
  - cbn [handle_request]. unfold search_users. rewrite (run_session A t n u) by done. unfold respond, load_user_index, bindM.
    cbn [load_json social_storage get tick user_index retM]. fold (names A).
    rewrite (search_loop_run (tick A)); [by rewrite Nat.sub_0_r|done|]. apply Forall_forall. intros m Hm. by apply Hin.
  - cbn [handle_request]. unfold list_followers. rewrite (run_session A t n u) by done. unfold respond, bindM.
    cbn [load_json social_storage get tick users]. destruct (users A !! name) as [v|]; [|done]. cbn [ok_or retM]. unfold retM.
    by rewrite (summaries_run (tick A)).
  - cbn [handle_request]. unfold list_following. rewrite (run_session A t n u) by done. unfold respond, bindM.
    cbn [load_json social_storage get tick users]. destruct (users A !! name) as [v|]; [|done]. cbn [ok_or retM]. unfold retM.
    by rewrite (summaries_run (tick A)).
Qed.

(** ** How much is answered *)

(** What a computation returns, when it returns. *)
Definition returns {X} (c : M rstr social X) (P : X → Prop) : Prop := ∀ A x A', c A = (Ok x, A') → P x.

Lemma returns_bind {X Y} (c : M rstr social X) (k : X → M rstr social Y) P : (∀ x, returns (k x) P) → returns (bindM c k) P.
Proof. intros Hk A y A'. unfold bindM. destruct (c A) as [[x|e] A1]; [|done]. apply Hk. Qed.

Lemma returns_bind_pre {X Y} (c : M rstr social X) (k : X → M rstr social Y) P Q :
  returns c Q → (∀ x, Q x → returns (k x) P) → returns (bindM c k) P.
Proof. intros Hc Hk A y A'. unfold bindM. destruct (c A) as [[x|e] A1] eqn:Hx; [|done]. apply Hk. by eapply Hc. Qed.

Lemma returns_ret {X} (x : X) (P : X → Prop) : P x → returns (retM x) P.
Proof. by intros Hx A y A' [= <- <-]. Qed.

Lemma summaries_bound l : returns (summaries l) (λ r, (length r ≤ length l)%nat).
Proof.
  induction l as [|n l IH]; cbn [summaries]; [by apply returns_ret|]. apply returns_bind. intros o.
  apply (returns_bind_pre _ _ _ _ IH). intros r Hr. apply returns_ret. destruct o; simpl; lia.
Qed.

Lemma search_bound q lim idx res :
  (length res ≤ lim)%nat → returns (search_loop q lim idx res) (λ r, (length r ≤ lim)%nat).
Proof.
  revert res. induction idx as [|n idx IH]; intros res Hres; cbn [search_loop]; [by apply returns_ret|].
  destruct (Nat.leb_spec lim (length res)); [by apply returns_ret|]. case_match; [|by apply IH].
  apply returns_bind. intros [s|]; apply IH; rewrite ?length_app; simpl; lia.
Qed.

Lemma respond_bound {X} (c : M rstr social (list X)) f n A :
  returns c (λ l, (length l ≤ n)%nat) → (∀ l m, f l ≠ RespError m) →
  match (respond c f A).1 with RespError _ => True | r => ∃ l, r = f l ∧ (length l ≤ n)%nat end.
Proof.
  intros Hc Hf. unfold respond. destruct (c A) as [[l|e] A'] eqn:Hr; [|done]. cbn [fst].
  specialize (Hc A l A' Hr). destruct (f l) eqn:Hfl; try done; exists l; by rewrite Hfl.
Qed.

(** The longest list a request can be answered with. *)
Definition answer_bound (req : Request) : nat :=
  match req with
  | ReqFeed _ limit _ => Nat.min (default 20%nat limit) 100
  | ReqSearchUsers _ _ limit => default 10%nat limit
  | ReqSuggestions _ limit => Nat.min (default 5%nat limit) 20
  | ReqFollowers _ _ limit | ReqFollowing _ _ limit => default 50%nat limit
  | _ => 0
  end.

(** C31 Whatever the state, a feed is answered with at most 100 posts and the suggestions
    with at most 20 users, and neither with more than the limit of the request; the
    lists of followers, of accounts followed and of users found have no bound but the
    limit of the request, 50 and 10 when it has none. *)
Theorem answers_bounded req A :
  match (handle_request req A).1 with
  | RespFeed l => (length l ≤ answer_bound req)%nat
  | RespUsers l => (length l ≤ answer_bound req)%nat
  | _ => True
  end.
Proof.
  assert (∀ n (c : M rstr social (list PostView)), returns c (λ l, (length l ≤ n)%nat) →
    match (respond c RespFeed A).1 with RespFeed l => (length l ≤ n)%nat | RespUsers l => (length l ≤ n)%nat | _ => True end) as Hf.
  { intros n c Hc. pose proof (respond_bound c RespFeed n A Hc ltac:(done)) as Hb. unfold respond in *.
    destruct (c A) as [[l|e] A']; [|done]. cbn [fst] in *. by destruct Hb as (l' & [= <-] & Hl). }
  assert (∀ n (c : M rstr social (list UserSummary)), returns c (λ l, (length l ≤ n)%nat) →
    match (respond c RespUsers A).1 with RespFeed l => (length l ≤ n)%nat | RespUsers l => (length l ≤ n)%nat | _ => True end) as Hu.
  { intros n c Hc. pose proof (respond_bound c RespUsers n A Hc ltac:(done)) as Hb. unfold respond in *.
    destruct (c A) as [[l|e] A']; [|done]. cbn [fst] in *. by destruct Hb as (l' & [= <-] & Hl). }
  destruct req as [| | | | | | | | | |s lim d| | |s q lim|s lim|s u lim|s u lim]; cbn [handle_request answer_bound];
    try (unfold respond; by match goal with |- context [?c A] => destruct (c A) as [[] ?] end).
  - apply Hf. unfold feed_internal. repeat (apply returns_bind; intros ?). apply returns_ret.
    rewrite length_map, length_take. lia.
  - apply Hu. unfold search_users. do 2 (apply returns_bind; intros ?). apply search_bound. simpl. lia.
  - apply Hu. unfold suggest_users. repeat (apply returns_bind; intros ?). apply returns_ret. rewrite length_take. lia.
  - apply Hu. unfold list_followers. do 3 (apply returns_bind; intros ?). intros B r B' Hr.
    apply summaries_bound in Hr. rewrite length_take in Hr. lia.
  - apply Hu. unfold list_following. do 3 (apply returns_bind; intros ?). intros B r B' Hr.
    apply summaries_bound in Hr. rewrite length_take in Hr. lia.
Qed.
End Rank.
End Rank.
