(* ===== verification/SchoolProgram.v ===== *)
(** * wasm_programs/school_management/main.go: the school program

    Students, teachers, courses and grades in the node's store, and an index of their
    keys.  The handlers of the four kinds are the same but for names; each is an
    instance of one definition here.  A failure is the error of the response; a panic
    ends the execution without an answer and without effect. *)

From S2P Require Import Prelude JsValue Codec Json RustLib GoLib WasmHost.

Module Office.
Import Rust Go Host.

(** ** Records *)

Record Student : Type := {
  student_ID : rstr;
  student_Name : rstr;
  student_Grade : rstr;
  student_Age : Z;
  student_Email : rstr;
  student_Subjects : option (list rstr);
}.

Record Teacher : Type := {
  teacher_ID : rstr;
  teacher_Name : rstr;
  teacher_Subject : rstr;
  teacher_Email : rstr;
  teacher_Phone : rstr;
}.

Record Course : Type := {
  course_ID : rstr;
  course_Name : rstr;
  course_Code : rstr;
  course_TeacherID : rstr;
  course_StudentIDs : option (list rstr);
  course_Description : rstr;
}.

Record Grade : Type := {
  grade_ID : rstr;
  grade_StudentID : rstr;
  grade_CourseID : rstr;
  grade_Score : Z;
  grade_Date : rstr;
}.

(** Decoding, by the tags of the fields. *)
Definition Student_fields (fs : list (jstr * value)) : option Student :=
  i ← decode_string (member (js "id") fs); n ← decode_string (member (js "name") fs); g ← decode_string (member (js "grade") fs);
  a ← decode_int (member (js "age") fs); e ← decode_string (member (js "email") fs); s ← decode_strings (member (js "subjects") fs);
  Some {| student_ID := i; student_Name := n; student_Grade := g; student_Age := a; student_Email := e; student_Subjects := s |}.

Definition Teacher_fields (fs : list (jstr * value)) : option Teacher :=
  i ← decode_string (member (js "id") fs); n ← decode_string (member (js "name") fs); s ← decode_string (member (js "subject") fs);
  e ← decode_string (member (js "email") fs); p ← decode_string (member (js "phone") fs);
  Some {| teacher_ID := i; teacher_Name := n; teacher_Subject := s; teacher_Email := e; teacher_Phone := p |}.

Definition Course_fields (fs : list (jstr * value)) : option Course :=
  i ← decode_string (member (js "id") fs); n ← decode_string (member (js "name") fs); c ← decode_string (member (js "code") fs);
  t ← decode_string (member (js "teacher_id") fs); s ← decode_strings (member (js "student_ids") fs);
  d ← decode_string (member (js "description") fs);
  Some {| course_ID := i; course_Name := n; course_Code := c; course_TeacherID := t; course_StudentIDs := s; course_Description := d |}.

Definition Grade_fields (fs : list (jstr * value)) : option Grade :=
  i ← decode_string (member (js "id") fs); s ← decode_string (member (js "student_id") fs); c ← decode_string (member (js "course_id") fs);
  n ← decode_int (member (js "score") fs); d ← decode_string (member (js "date") fs);
  Some {| grade_ID := i; grade_StudentID := s; grade_CourseID := c; grade_Score := n; grade_Date := d |}.

(** Strings that were decoded. *)
Definition student_ok (x : Student) : Prop :=
  Forall valid ([student_ID x; student_Name x; student_Grade x; student_Email x] ++ default [] (student_Subjects x)).
Definition teacher_ok (x : Teacher) : Prop :=
  Forall valid [teacher_ID x; teacher_Name x; teacher_Subject x; teacher_Email x; teacher_Phone x].
Definition course_ok (x : Course) : Prop :=
  Forall valid ([course_ID x; course_Name x; course_Code x; course_TeacherID x; course_Description x] ++ default [] (course_StudentIDs x)).
Definition grade_ok (x : Grade) : Prop := Forall valid [grade_ID x; grade_StudentID x; grade_CourseID x; grade_Date x].

(** ** Responses *)

(** What [Data] can hold. *)
Inductive Payload : Type :=
| AStudent (x : Student) | Students (l : list Student)
| ATeacher (x : Teacher) | Teachers (l : list Teacher)
| ACourse (x : Course) | Courses (l : list Course)
| AGrade (x : Grade) | Grades (l : list Grade).

Record Response : Type := {
  Status : rstr;
  Message : rstr;
  Data : option Payload;
  Error : rstr;
}.

Definition error_response (e : rstr) : Response := {| Status := js "error"; Message := []; Data := None; Error := e |}.
Definition success (m : rstr) (d : option Payload) : Response := {| Status := js "success"; Message := m; Data := d; Error := [] |}.

(** ** Kinds of records

    The names the messages have, the field of the request, and the record's key. *)
Class Entity (T : Type) : Type := {
  kind : string;
  kind_title : string;
  ent_ok : T → Prop;
  ent_id : T → rstr;
  ent_fields : list (jstr * value) → option T;
  one : T → Payload;
  many : list T → Payload;
}.

#[export] Instance entity_Student : Entity Student :=
  {| kind := "student"; kind_title := "Student"; ent_ok := student_ok; ent_id := student_ID; ent_fields := Student_fields;
     one := AStudent; many := Students |}.
#[export] Instance entity_Teacher : Entity Teacher :=
  {| kind := "teacher"; kind_title := "Teacher"; ent_ok := teacher_ok; ent_id := teacher_ID; ent_fields := Teacher_fields;
     one := ATeacher; many := Teachers |}.
#[export] Instance entity_Course : Entity Course :=
  {| kind := "course"; kind_title := "Course"; ent_ok := course_ok; ent_id := course_ID; ent_fields := Course_fields;
     one := ACourse; many := Courses |}.
#[export] Instance entity_Grade : Entity Grade :=
  {| kind := "grade"; kind_title := "Grade"; ent_ok := grade_ok; ent_id := grade_ID; ent_fields := Grade_fields;
     one := AGrade; many := Grades |}.

Definition ent_prefix (T : Type) `{Entity T} : rstr := js kind ++ js "_".
Definition ent_key {T} `{Entity T} (id : rstr) : rstr := ent_prefix T ++ id.
Arguments ent_key T {_} id.

Inductive fault : Type :=
| Fail (message : rstr)
| Panic.

Section Program.
Context `{NodeHost} `{GoErrors} `{!GoJson Student student_ok} `{!GoJson Teacher teacher_ok} `{!GoJson Course course_ok}
  `{!GoJson Grade grade_ok}.

Abbreviation Res := (M fault ExecutionContext).

Definition fail {A} (message : rstr) : Res A := throwM (Fail message).

(** [if err != nil { return Response{... prefix + err.Error()} }]. *)
Definition wrapped {A} (prefix : rstr) (c : Res A) : Res A :=
  catchM c (λ e, match e with Fail m => fail (prefix ++ m) | Panic => throwM Panic end).

(** ** The state *)

(** [&key[0]] and [&value[0]] panic on empty slices. *)
Definition statePut (key value : bytes) : Res () := λ c,
  if is_empty key || is_empty value then (Throw Panic, c)
  else
    let '(rc, c') := onvm_state_put key value c in
    ((if rc =? 0 then Ok tt else Throw (Fail (js "state put failed with code: " ++ Z_to_str rc))), c').

Definition stateGet (key : bytes) : Res bytes := λ c,
  if is_empty key then (Throw Panic, c)
  else
    let size := (onvm_state_get key 0 c).1 in
    if size =? 0 then (Ok [], c)
    else
      let '(actualSize, buf) := onvm_state_get key (Z.abs size) c in
      if actualSize =? 0 then (Ok [], c)
      else if actualSize <? 0 then (Throw (Fail (js "state get failed with code: " ++ Z_to_str actualSize)), c)
      else (Ok buf, c).

Definition keyIndexKey : rstr := js "__school_keys".

(** The keys in the index's text. *)
Definition loadKeyIndex : Res (list rstr) :=
  let* indexData := stateGet keyIndexKey in
  if is_empty indexData then retM []
  else match DecodeString indexData with
       | None => fail (base64_error indexData)
       | Some decoded => retM (if is_empty decoded then [] else split_on 44 decoded)
       end.

(** It reads the index as [loadKeyIndex] does. *)
Definition updateKeyIndex (newKey : rstr) : Res () :=
  let* keys := loadKeyIndex in
  if contains keys newKey then retM tt else statePut keyIndexKey (b64_encode (join [44] (keys ++ [newKey]))).

(** ** Handlers, for every kind *)

Section Kind.
Context {T : Type} `{Entity T} `{!GoJson T ent_ok}.

(** [json.Marshal(data)] and [json.Unmarshal] into the request with the record in its
    field; [what] is the verb of the message. *)
Definition decode_request (what : string) (data : value) : Res T :=
  match decode_struct (λ fs, decode_struct ent_fields (member (js kind) fs)) data with
  | Some x => retM x
  | None => fail (js "Invalid " ++ js what ++ js " " ++ js kind ++ js " request: " ++ type_error kind data)
  end.

(** [handleAddX], and [handleAssignGrade] with other words. *)
Definition add_record (verb done : string) (data : value) : Res Response :=
  let* x := decode_request verb data in
  let key := ent_key T (ent_id x) in
  do* wrapped (js "Failed to store " ++ js kind ++ js ": ") (statePut key (marshal x)) in
  do* wrapped (js "Failed to update index: ") (updateKeyIndex key) in
  retM (success (js kind_title ++ js " " ++ js done ++ js " successfully") (Some (one x))).

Definition update_record (data : value) : Res Response :=
  let* x := decode_request "update" data in
  do* wrapped (js "Failed to update " ++ js kind ++ js ": ") (statePut (ent_key T (ent_id x)) (marshal x)) in
  retM (success (js kind_title ++ js " updated successfully") (Some (one x))).

(** [data.(string)]. *)
Definition string_id (noun : string) (data : value) : Res rstr :=
  match data with VStr s => retM (utf8_encode s) | _ => fail (js "Invalid " ++ js noun ++ js " ID") end.

(** The record under an id, with the errors of a handler that needs it. *)
Definition load_record (id : rstr) : Res T :=
  let* data := wrapped (js "Failed to retrieve " ++ js kind ++ js ": ") (stateGet (ent_key T id)) in
  if is_empty data then fail (js kind_title ++ js " not found")
  else match unmarshal data with
       | Ok x => retM x
       | Throw e => fail (js "Failed to unmarshal " ++ js kind ++ js ": " ++ e)
       end.

Definition get_record (data : value) : Res Response :=
  let* id := string_id kind data in
  let* x := load_record id in
  retM (success [] (Some (one x))).

Definition delete_record (data : value) : Res Response :=
  let* id := string_id kind data in
  do* wrapped (js "Failed to delete " ++ js kind ++ js ": ") (statePut (ent_key T id) []) in
  retM (success (js kind_title ++ js " deleted successfully") None).

(** The loop of the lists: keys that cannot be read are skipped. *)
Fixpoint collect (keep : T → bool) (keys : list rstr) : Res (list T) :=
  match keys with
  | [] => retM []
  | key :: r =>
      let* here :=
        if starts_with (ent_prefix T) key then
          let* data := catchM (stateGet key) (λ e, match e with Fail _ => retM [] | Panic => throwM Panic end) in
          retM (if is_empty data then []
                else match unmarshal data with Ok x => if keep x then [x] else [] | Throw _ => [] end)
        else retM [] in
      let* rest := collect keep r in
      retM (here ++ rest)
  end.

Definition list_records (keep : T → bool) : Res Response :=
  let* keys := wrapped (js "Failed to load key index: ") loadKeyIndex in
  let* l := collect keep keys in
  retM (success [] (Some (many l))).
End Kind.

(** ** The handlers *)

Definition handleAddStudent : value → Res Response := add_record (T := Student) "add" "added".
Definition handleGetStudent : value → Res Response := get_record (T := Student).
Definition handleUpdateStudent : value → Res Response := update_record (T := Student).
Definition handleDeleteStudent : value → Res Response := delete_record (T := Student).
Definition handleListStudents (data : value) : Res Response := list_records (T := Student) (λ _, true).

Definition handleAddTeacher : value → Res Response := add_record (T := Teacher) "add" "added".
Definition handleGetTeacher : value → Res Response := get_record (T := Teacher).
Definition handleUpdateTeacher : value → Res Response := update_record (T := Teacher).
Definition handleDeleteTeacher : value → Res Response := delete_record (T := Teacher).
Definition handleListTeachers (data : value) : Res Response := list_records (T := Teacher) (λ _, true).

Definition handleAddCourse : value → Res Response := add_record (T := Course) "add" "added".
Definition handleGetCourse : value → Res Response := get_record (T := Course).
Definition handleUpdateCourse : value → Res Response := update_record (T := Course).
Definition handleDeleteCourse : value → Res Response := delete_record (T := Course).
Definition handleListCourses (data : value) : Res Response := list_records (T := Course) (λ _, true).

Definition enrolled (course : Course) (id : rstr) : Course :=
  {| course_ID := course_ID course; course_Name := course_Name course; course_Code := course_Code course;
     course_TeacherID := course_TeacherID course; course_StudentIDs := Some (default [] (course_StudentIDs course) ++ [id]);
     course_Description := course_Description course |}.

Definition handleEnrollStudent (data : value) : Res Response :=
  let decoded := decode_struct (λ fs, s ← decode_string (member (js "student_id") fs); c ← decode_string (member (js "course_id") fs); Some (s, c)) data in
  let* req := match decoded with Some req => retM req | None => fail (js "Invalid enroll student request: " ++ type_error "enroll" data) end in
  let '(StudentID, CourseID) := req in
  let* course := load_record (T := Course) CourseID in
  if contains (default [] (course_StudentIDs course)) StudentID then retM (success (js "Student already enrolled in course") None)
  else
    let course' := enrolled course StudentID in
    do* wrapped (js "Failed to update course: ") (statePut (ent_key Course CourseID) (marshal course')) in
    retM (success (js "Student enrolled successfully") (Some (ACourse course'))).

Definition handleAssignGrade : value → Res Response := add_record (T := Grade) "assign" "assigned".

Definition handleGetStudentGrades (data : value) : Res Response :=
  let* id := string_id "student" data in list_records (T := Grade) (λ g, str_eqb (grade_StudentID g) id).
Definition handleGetCourseGrades (data : value) : Res Response :=
  let* id := string_id "course" data in list_records (T := Grade) (λ g, str_eqb (grade_CourseID g) id).

Definition handleGetStudentsByGrade (data : value) : Res Response :=
  match decode_struct (λ fs, decode_string (member (js "grade") fs)) data with
  | Some g => list_records (T := Student) (λ s, str_eqb (student_Grade s) g)
  | None => fail (js "Invalid get students by grade request: " ++ type_error "by grade" data)
  end.

(** The switch on the operation of a request that was decoded. *)
Definition handleRequest (Operation : rstr) (data : value) : Res Response :=
  let op (name : string) := str_eqb Operation (js name) in
  if op "add_student"%string then handleAddStudent data
  else if op "get_student"%string then handleGetStudent data
  else if op "update_student"%string then handleUpdateStudent data
  else if op "delete_student"%string then handleDeleteStudent data
  else if op "list_students"%string then handleListStudents data
  else if op "add_teacher"%string then handleAddTeacher data
  else if op "get_teacher"%string then handleGetTeacher data
  else if op "update_teacher"%string then handleUpdateTeacher data
  else if op "delete_teacher"%string then handleDeleteTeacher data
  else if op "list_teachers"%string then handleListTeachers data
  else if op "add_course"%string then handleAddCourse data
  else if op "get_course"%string then handleGetCourse data
  else if op "update_course"%string then handleUpdateCourse data
  else if op "delete_course"%string then handleDeleteCourse data
  else if op "list_courses"%string then handleListCourses data
  else if op "enroll_student"%string then handleEnrollStudent data
  else if op "assign_grade"%string then handleAssignGrade data
  else if op "get_student_grades"%string then handleGetStudentGrades data
  else if op "get_course_grades"%string then handleGetCourseGrades data
  else if op "get_students_by_grade"%string then handleGetStudentsByGrade data
  else fail (js "Unknown operation: " ++ Operation).

(** ** An execution: the response, or neither that nor effects after a panic *)

Definition execute (Operation : rstr) (data : value) (c : ExecutionContext) : option Response * ExecutionContext :=
  match handleRequest Operation data c with
  | (Ok r, c') => (Some r, c')
  | (Throw (Fail m), c') => (Some (error_response m), c')
  | (Throw Panic, _) => (None, c)
  end.
End Program.
End Office.
