(* ===== verification/SchoolStore.v ===== *)
(** * The school program over typed records

    What the program promises, on four maps of records and the text of the index of
    their keys; and that the program over the host's byte store implements it. *)

From S2P Require Import Prelude JsValue Codec Json RustLib GoLib WasmHost SchoolProgram.

Module SchoolStore.
Import Rust Go Host Office.

Record school : Type := {
  students : gmap rstr Student;
  teachers : gmap rstr Teacher;
  courses : gmap rstr Course;
  grades : gmap rstr Grade;
  index : rstr;
}.

Definition empty_school : school := {| students := ∅; teachers := ∅; courses := ∅; grades := ∅; index := [] |}.

(** The map of a kind. *)
Class Table (T : Type) `{Entity T} : Type := {
  table : school → gmap rstr T;
  with_table : gmap rstr T → school → school;
  table_with : ∀ m A, table (with_table m A) = m;
  index_with : ∀ m A, index (with_table m A) = index A;
}.

#[export] Instance table_Student : Table Student.
Proof.
  refine {| table := students;
    with_table m A := {| students := m; teachers := teachers A; courses := courses A; grades := grades A; index := index A |} |}; done.
Defined.
#[export] Instance table_Teacher : Table Teacher.
Proof.
  refine {| table := teachers;
    with_table m A := {| students := students A; teachers := m; courses := courses A; grades := grades A; index := index A |} |}; done.
Defined.
#[export] Instance table_Course : Table Course.
Proof.
  refine {| table := courses;
    with_table m A := {| students := students A; teachers := teachers A; courses := m; grades := grades A; index := index A |} |}; done.
Defined.
#[export] Instance table_Grade : Table Grade.
Proof.
  refine {| table := grades;
    with_table m A := {| students := students A; teachers := teachers A; courses := courses A; grades := m; index := index A |} |}; done.
Defined.

Definition set_index (i : rstr) (A : school) : school :=
  {| students := students A; teachers := teachers A; courses := courses A; grades := grades A; index := i |}.

Definition keys_of (text : rstr) : list rstr := if is_empty text then [] else split_on 44 text.
Definition indexed (key : rstr) (A : school) : school :=
  if contains (keys_of (index A)) key then A else set_index (join [44] (keys_of (index A) ++ [key])) A.
Definition stored {T} `{Table T} (x : T) (A : school) : school := with_table (<[ent_id x := x]> (table A)) A.

(** The records of a kind whose keys are in the index, in its order. *)
Definition listed (T : Type) `{Table T} (A : school) : list T :=
  omap (λ key, if starts_with (ent_prefix T) key then table A !! drop (length (ent_prefix T)) key else None) (keys_of (index A)).

(** ** Answers on a school

    The response and the next school; [None] is a panic. *)

Section Answers.
Context `{GoErrors}.

Section Kind.
Context {T : Type} `{Table T}.

Definition decoded (what : string) (data : value) : rstr + T :=
  match decode_struct (λ fs, decode_struct ent_fields (member (js kind) fs)) data with
  | Some x => inr x
  | None => inl (js "Invalid " ++ js what ++ js " " ++ js kind ++ js " request: " ++ type_error kind data)
  end.

Definition add_answer (verb done : string) (data : value) (A : school) : option (Response * school) :=
  Some match decoded verb data with
       | inl e => (error_response e, A)
       | inr x => (success (js kind_title ++ js " " ++ js done ++ js " successfully") (Some (one x)), indexed (ent_key T (ent_id x)) (stored x A))
       end.

Definition update_answer (data : value) (A : school) : option (Response * school) :=
  Some match decoded "update" data with
       | inl e => (error_response e, A)
       | inr x => (success (js kind_title ++ js " updated successfully") (Some (one x)), stored x A)
       end.

Definition get_answer (data : value) (A : school) : option (Response * school) :=
  Some (match data with
        | VStr s => match table A !! utf8_encode s with
                    | Some x => success [] (Some (one x))
                    | None => error_response (js kind_title ++ js " not found")
                    end
        | _ => error_response (js "Invalid " ++ js kind ++ js " ID")
        end, A).

Definition delete_answer (data : value) (A : school) : option (Response * school) :=
  match data with VStr _ => None | _ => Some (error_response (js "Invalid " ++ js kind ++ js " ID"), A) end.

Definition list_answer (keep : T → bool) (A : school) : option (Response * school) :=
  Some (success [] (Some (many (List.filter keep (listed T A)))), A).
End Kind.

Definition enroll_answer (data : value) (A : school) : option (Response * school) :=
  Some match decode_struct (λ fs, s ← decode_string (member (js "student_id") fs); c ← decode_string (member (js "course_id") fs); Some (s, c)) data with
       | None => (error_response (js "Invalid enroll student request: " ++ type_error "enroll" data), A)
       | Some (s, c) =>
           match courses A !! c with
           | None => (error_response (js "Course not found"), A)
           | Some course =>
               if contains (default [] (course_StudentIDs course)) s then (success (js "Student already enrolled in course") None, A)
               else (success (js "Student enrolled successfully") (Some (ACourse (enrolled course s))),
                     with_table (<[c := enrolled course s]> (courses A)) A)
           end
       end.

Definition grades_answer (noun : string) (field : Grade → rstr) (data : value) (A : school) : option (Response * school) :=
  match data with
  | VStr s => list_answer (T := Grade) (λ g, str_eqb (field g) (utf8_encode s)) A
  | _ => Some (error_response (js "Invalid " ++ js noun ++ js " ID"), A)
  end.

Definition by_grade_answer (data : value) (A : school) : option (Response * school) :=
  match decode_struct (λ fs, decode_string (member (js "grade") fs)) data with
  | Some g => list_answer (T := Student) (λ s, str_eqb (student_Grade s) g) A
  | None => Some (error_response (js "Invalid get students by grade request: " ++ type_error "by grade" data), A)
  end.

Definition answer (Operation : rstr) (data : value) (A : school) : option (Response * school) :=
  let op (name : string) := str_eqb Operation (js name) in
  if op "add_student"%string then add_answer (T := Student) "add" "added" data A
  else if op "get_student"%string then get_answer (T := Student) data A
  else if op "update_student"%string then update_answer (T := Student) data A
  else if op "delete_student"%string then delete_answer (T := Student) data A
  else if op "list_students"%string then list_answer (T := Student) (λ _, true) A
  else if op "add_teacher"%string then add_answer (T := Teacher) "add" "added" data A
  else if op "get_teacher"%string then get_answer (T := Teacher) data A
  else if op "update_teacher"%string then update_answer (T := Teacher) data A
  else if op "delete_teacher"%string then delete_answer (T := Teacher) data A
  else if op "list_teachers"%string then list_answer (T := Teacher) (λ _, true) A
  else if op "add_course"%string then add_answer (T := Course) "add" "added" data A
  else if op "get_course"%string then get_answer (T := Course) data A
  else if op "update_course"%string then update_answer (T := Course) data A
  else if op "delete_course"%string then delete_answer (T := Course) data A
  else if op "list_courses"%string then list_answer (T := Course) (λ _, true) A
  else if op "enroll_student"%string then enroll_answer data A
  else if op "assign_grade"%string then add_answer (T := Grade) "assign" "assigned" data A
  else if op "get_student_grades"%string then grades_answer "student" grade_StudentID data A
  else if op "get_course_grades"%string then grades_answer "course" grade_CourseID data A
  else if op "get_students_by_grade"%string then by_grade_answer data A
  else Some (error_response (js "Unknown operation: " ++ Operation), A).
End Answers.

(** ** The program implements them *)

(** Keys of different kinds differ in their first byte. *)
Ltac keys_apart := let Hk := fresh in intros Hk; apply (f_equal (λ k : rstr, nth 0 k 0)) in Hk; vm_compute in Hk; discriminate Hk.

(** Takes a decoder apart: the facts on the fields. *)
Ltac decoded_fields :=
  repeat match goal with
  | Hx : (_ ≫= _) = Some _ |- _ => apply bind_Some in Hx as (? & ? & Hx)
  | Hx : Some _ = Some _ |- _ => injection Hx as <-
  end.

Section Refinement.
Context `{NodeHost} `{GoErrors} `{!GoJson Student student_ok} `{!GoJson Teacher teacher_ok} `{!GoJson Course course_ok}
  `{!GoJson Grade grade_ok}.
(** The node can read its database. *)
Hypothesis db_answers : ∀ k, db_fails k = false.

(** The bytes of the records of one kind. *)
Definition holds {T} `{Entity T} `{!GoJson T ent_ok} (c : ExecutionContext) (m : gmap rstr T) : Prop :=
  (∀ id, value_at (ent_key T id) c = marshal <$> m !! id) ∧ map_Forall (λ _, ent_ok) m.

Record represents (c : ExecutionContext) (A : school) : Prop := {
  rep_students : holds c (students A);
  rep_teachers : holds c (teachers A);
  rep_courses : holds c (courses A);
  rep_grades : holds c (grades A);
  rep_index : value_at keyIndexKey c = if is_empty (index A) then None else Some (b64_encode (index A));
  rep_bytes : byte_list (index A);
}.

(** What the lemmas on the handlers use of a kind. *)
Class Kept (T : Type) `{Table T} `{!GoJson T ent_ok} : Prop := {
  kept_holds : ∀ c A, represents c A → holds c (table A);
  kept_put : ∀ c A id x, represents c A → ent_ok x →
    represents (written_context (ent_key T id) (marshal x) c) (with_table (<[id := x]> (table A)) A);
  kept_fields : ∀ fs x, tree (VObj fs) → ent_fields fs = Some x → ent_ok x;
  kept_id : ∀ x, ent_ok x → valid (ent_id x);
}.

Lemma holds_written {T} `{Entity T} `{!GoJson T ent_ok} (c : ExecutionContext) (m : gmap rstr T) (id : rstr) (x : T) :
  holds c m → ent_ok x → holds (written_context (ent_key T id) (marshal x) c) (<[id := x]> m).
Proof.
  intros [Hm Hok] Hx. split; [|by apply map_Forall_insert_2]. intros id'. rewrite value_at_written. case_decide as Hk.
  - unfold ent_key in Hk. apply (inj (app _)) in Hk as ->. rewrite lookup_insert_eq. pose proof (marshal_filled x).
    change (marshal <$> Some x) with (Some (marshal x)). by destruct (marshal x).
  - rewrite lookup_insert_ne by (intros Hu; by rewrite Hu in Hk). apply Hm.
Qed.

Lemma holds_other {T} `{Entity T} `{!GoJson T ent_ok} (c : ExecutionContext) (m : gmap rstr T) (k v : bytes) :
  (∀ id, ent_key T id ≠ k) → holds c m → holds (written_context k v c) m.
Proof. intros Hk [Hm Hok]. split; [|done]. intros id. rewrite value_at_written, decide_False by apply Hk. apply Hm. Qed.

Ltac prove_put := intros c A id x [] Hx; split; cbn [students teachers courses grades index table with_table];
  first [by apply holds_written | apply holds_other; [intros ?; keys_apart|done] | rewrite value_at_written, decide_False by keys_apart; done | done].

#[export] Instance kept_Student : Kept Student.
Proof.
  split; [by intros c A []|prove_put| |by intros x [? _]%Forall_cons].
  intros fs x Ht Hx. cbn [ent_fields entity_Student] in Hx. unfold Student_fields in Hx. decoded_fields. cbn.
  repeat (constructor; [by eapply decode_string_valid; [apply tree_member|]|]). by eapply decode_strings_valid; [apply tree_member|].
Qed.
#[export] Instance kept_Teacher : Kept Teacher.
Proof.
  split; [by intros c A []|prove_put| |by intros x [? _]%Forall_cons].
  intros fs x Ht Hx. cbn [ent_fields entity_Teacher] in Hx. unfold Teacher_fields in Hx. decoded_fields. cbn.
  repeat (constructor; [by eapply decode_string_valid; [apply tree_member|]|]). constructor.
Qed.
#[export] Instance kept_Course : Kept Course.
Proof.
  split; [by intros c A []|prove_put| |by intros x [? _]%Forall_cons].
  intros fs x Ht Hx. cbn [ent_fields entity_Course] in Hx. unfold Course_fields in Hx. decoded_fields. cbn.
  repeat (constructor; [by eapply decode_string_valid; [apply tree_member|]|]). by eapply decode_strings_valid; [apply tree_member|].
Qed.
#[export] Instance kept_Grade : Kept Grade.
Proof.
  split; [by intros c A []|prove_put| |by intros x [? _]%Forall_cons].
  intros fs x Ht Hx. cbn [ent_fields entity_Grade] in Hx. unfold Grade_fields in Hx. decoded_fields. cbn.
  repeat (constructor; [by eapply decode_string_valid; [apply tree_member|]|]). constructor.
Qed.

(** *** Reading *)

Lemma stateGet_run k c : k ≠ [] → stateGet k c = (Ok (default [] (value_at k c)), c).
Proof.
  intros Hk. unfold stateGet. destruct k as [|b k]; [done|]. cbn [is_empty]. set (key := b :: k).
  rewrite state_get_value by done. destruct (value_at key c) as [v|] eqn:Hv; [|done]. cbv zeta. set (len := Z.of_nat (length v)).
  assert (0 < len) as Hpos by (apply value_at_filled in Hv; unfold len; destruct v; simpl; [done|lia]).
  rewrite (proj2 (Z.ltb_lt 0 len)) by done. cbn [fst]. rewrite (proj2 (Z.eqb_neq (- len) 0)) by lia.
  rewrite Z.abs_opp, Z.abs_eq by lia. rewrite state_get_value by (done || lia). rewrite Hv. cbv zeta. fold len. rewrite Z.ltb_irrefl.
  by rewrite (proj2 (Z.eqb_neq len 0)), (proj2 (Z.ltb_ge len 0)) by lia.
Qed.

Lemma school_index_run c A : represents c A → loadKeyIndex c = (Ok (keys_of (index A)), c).
Proof.
  intros HA. unfold loadKeyIndex, bindM. rewrite stateGet_run by done. rewrite (rep_index _ _ HA). unfold keys_of.
  destruct (index A) as [|b i] eqn:Hi; [done|]. pose proof (b64_filled (b :: i)) as Hf.
  change (default [] (if is_empty (b :: i) then None else Some (b64_encode (b :: i)))) with (b64_encode (b :: i)).
  destruct (is_empty (b64_encode (b :: i))) eqn:He; [by destruct (b64_encode (b :: i)); [destruct Hf|]|].
  rewrite DecodeString_encode by (rewrite <- Hi; apply HA). done.
Qed.

Lemma default_fmap_filled {T} `{Entity T} `{!GoJson T ent_ok} (o : option T) :
  is_empty (default [] (marshal <$> o)) = match o with Some _ => false | None => true end.
Proof. destruct o as [x|]; [|done]. cbn. pose proof (marshal_filled x). by destruct (marshal x). Qed.

Lemma key_filled (T : Type) `{Entity T} id : ent_key T id ≠ [].
Proof. unfold ent_key, ent_prefix. by destruct (js kind). Qed.

Lemma school_load_run {T} `{Kept T} id c A :
  represents c A →
  load_record (T := T) id c = (match table A !! id with Some x => Ok x | None => Throw (Fail (js kind_title ++ js " not found")) end, c).
Proof.
  intros HA. destruct (kept_holds c A HA) as [Hm Hok]. unfold load_record, wrapped, bindM, catchM.
  rewrite stateGet_run by apply key_filled. rewrite Hm, default_fmap_filled. destruct (table A !! id) as [x|] eqn:Hx; [|done].
  cbn. rewrite unmarshal_marshal by by eapply Hok. done.
Qed.

Lemma collect_run {T} `{Kept T} (keep : T → bool) keys c A :
  represents c A →
  collect keep keys c =
    (Ok (List.filter keep (omap (λ key, if starts_with (ent_prefix T) key then table A !! drop (length (ent_prefix T)) key else None) keys)), c).
Proof.
  intros HA. destruct (kept_holds c A HA) as [Hm Hok]. induction keys as [|key keys IH]; [done|]. cbn [collect omap list_omap].
  destruct (starts_with (ent_prefix T) key) eqn:Hs; unfold bindM at 1; [|cbn; unfold bindM; by rewrite IH].
  apply starts_with_spec in Hs as [id ->]. rewrite drop_app_length. fold (ent_key T id).
  unfold bindM at 1, catchM. rewrite stateGet_run by apply key_filled. rewrite Hm. cbn [retM]. rewrite default_fmap_filled.
  destruct (table A !! id) as [x|] eqn:Hx; cbn [default]; unfold bindM; rewrite IH; [|done].
  change (default [] (marshal <$> Some x)) with (marshal x). rewrite unmarshal_marshal by by eapply Hok.
  cbn [List.filter]. by destruct (keep x).
Qed.

(** *** Writing *)

Lemma put_run k v c : k ≠ [] → v ≠ [] → statePut k v c = (Ok tt, written_context k v c).
Proof. intros Hk Hv. unfold statePut. destruct k, v; done. Qed.

Lemma school_represents_indexed c A i :
  i ≠ [] → byte_list i → represents c A → represents (written_context keyIndexKey (b64_encode i) c) (set_index i A).
Proof.
  intros Hi Hb []. split; cbn [students teachers courses grades index set_index];
    try (apply holds_other; [intros ?; keys_apart|done]); [|done].
  rewrite value_at_written, decide_True by done. pose proof (b64_filled i Hi). destruct i as [|b i]; [done|].
  by destruct (b64_encode (b :: i)).
Qed.

Lemma split_bytes s : byte_list s → Forall byte_list (split_on 44 s).
Proof.
  induction 1 as [|b s Hb _ IH]; cbn [split_on]; [by repeat constructor|].
  destruct (b =? 44); [by constructor; [constructor|]|].
  destruct (split_on 44 s) as [|w ws]; [by constructor; [constructor|]|]. apply Forall_cons in IH as [Hw Hws].
  constructor; [by constructor|done].
Qed.

Lemma join_bytes l : Forall byte_list l → byte_list (join [44] l).
Proof.
  induction 1 as [|w l Hw Hl IH]; [constructor|]. destruct l as [|x l]; [done|].
  change (join [44] (w :: x :: l)) with (w ++ [44] ++ join [44] (x :: l)). apply Forall_app. split; [done|]. constructor; [lia|done].
Qed.

Lemma join_filled l w : w ≠ [] → join [44] (l ++ [w]) ≠ [].
Proof. intros Hw. destruct l as [|x [|y l]]; [done|..]; cbn; by destruct x. Qed.

Lemma update_index_run c A key :
  key ≠ [] → byte_list key → represents c A → ∃ c', updateKeyIndex key c = (Ok tt, c') ∧ represents c' (indexed key A).
Proof.
  intros Hk Hb HA. unfold updateKeyIndex, bindM, indexed. rewrite (school_index_run c A) by done.
  destruct (contains (keys_of (index A)) key); [by exists c|].
  assert (byte_list (join [44] (keys_of (index A) ++ [key]))) as Hj.
  { apply join_bytes, Forall_app. split; [|by constructor]. unfold keys_of. destruct (is_empty (index A)); [constructor|].
    apply split_bytes, HA. }
  eexists. split; [apply put_run; [done|]|apply school_represents_indexed; [by apply join_filled|done|done]].
  by apply b64_filled, join_filled.
Qed.

(** *** Handlers *)

Definition conclude (c : ExecutionContext) (p : outcome fault Response * ExecutionContext) : option Response * ExecutionContext :=
  match p with
  | (Ok r, c') => (Some r, c')
  | (Throw (Fail m), c') => (Some (error_response m), c')
  | (Throw Panic, _) => (None, c)
  end.

(** The handler's outcome is the answer. *)
Definition handled (h : M fault ExecutionContext Response) (a : school → option (Response * school)) : Prop :=
  ∀ c A, represents c A →
    (conclude c (h c)).1 = fst <$> a A ∧ represents (conclude c (h c)).2 (default A (snd <$> a A)).

Section Kind.
Context {T : Type} `{Kept T}.

Lemma decode_run verb data c :
  decode_request (T := T) verb data c = (match decoded verb data with inr x => Ok x | inl e => Throw (Fail e) end, c).
Proof. unfold decode_request, decoded. by destruct (decode_struct _ data). Qed.

Lemma decoded_ok verb data (x : T) : tree data → decoded verb data = inr x → ent_ok x.
Proof.
  intros Hd. unfold decoded. destruct (decode_struct _ data) as [y|] eqn:Hy; [|done]. intros [= <-].
  revert Hy. apply decode_struct_tree; [|done]. intros fs Hfs. apply decode_struct_tree; [intros fs' Hfs' Hy; by eapply kept_fields|by apply tree_member].
Qed.

Lemma key_bytes (x : T) : ent_ok x → byte_list (js kind) → byte_list (ent_key T (ent_id x)).
Proof.
  intros Hx Hk. unfold ent_key, ent_prefix. apply Forall_app. split; [|apply valid_bytes, kept_id, Hx].
  apply Forall_app. split; [done|decide_closed].
Qed.

Lemma add_handled verb done data :
  byte_list (js kind) → tree data → handled (add_record (T := T) verb done data) (add_answer (T := T) verb done data).
Proof.
  intros Hk Hd c A HA. unfold add_record, add_answer. unfold bindM at 1 4. rewrite decode_run.
  destruct (decoded verb data) as [e|x] eqn:Hx; [done|]. pose proof (decoded_ok _ _ _ Hd Hx) as Hok.
  unfold bindM at 1 3, wrapped, catchM. rewrite put_run by (apply key_filled || apply marshal_filled). cbv beta iota zeta.
  pose proof (kept_put c A (ent_id x) x HA Hok) as HA'.
  destruct (update_index_run _ _ (ent_key T (ent_id x)) (key_filled T _) (key_bytes x Hok Hk) HA') as (c' & Hu & HA'').
  unfold bindM. rewrite Hu. done.
Qed.

Lemma update_handled data : tree data → handled (update_record (T := T) data) (update_answer (T := T) data).
Proof.
  intros Hd c A HA. unfold update_record, update_answer. unfold bindM at 1 3. rewrite decode_run.
  destruct (decoded "update" data) as [e|x] eqn:Hx; [done|]. pose proof (decoded_ok _ _ _ Hd Hx) as Hok.
  unfold bindM, wrapped, catchM. rewrite put_run by (apply key_filled || apply marshal_filled). split; [done|]. by apply kept_put.
Qed.

Lemma get_handled data : handled (get_record (T := T) data) (get_answer (T := T) data).
Proof.
  intros c A HA. unfold get_record, get_answer, string_id. destruct data as [| | | |s| |]; try done.
  unfold bindM. cbn [retM]. rewrite (school_load_run _ c A HA). by destruct (table A !! utf8_encode s).
Qed.

Lemma delete_handled data : handled (delete_record (T := T) data) (delete_answer (T := T) data).
Proof.
  intros c A HA. unfold delete_record, delete_answer, string_id. destruct data as [| | | |s| |]; try done.
  unfold bindM, wrapped, catchM, statePut. cbn [retM]. rewrite orb_true_r. done.
Qed.

Lemma list_handled (keep : T → bool) : handled (list_records keep) (list_answer keep).
Proof.
  intros c A HA. unfold list_records, list_answer, wrapped, catchM, bindM. rewrite (school_index_run c A HA).
  rewrite (collect_run keep _ c A HA). done.
Qed.
End Kind.

Lemma enrolled_ok course s : course_ok course → valid s → course_ok (enrolled course s).
Proof.
  unfold course_ok, enrolled. cbn. rewrite !Forall_cons. intros (? & ? & ? & ? & ? & ?) Hs. repeat (split; [done|]).
  apply Forall_app. split; [done|]. by constructor.
Qed.

Lemma enroll_handled data : tree data → handled (handleEnrollStudent data) (enroll_answer data).
Proof.
  intros Hd c A HA. unfold handleEnrollStudent, enroll_answer.
  set (fields := λ fs, s ← decode_string (member (js "student_id") fs); c ← decode_string (member (js "course_id") fs); Some (s, c)).
  destruct (decode_struct fields data) as [[s id]|] eqn:Hreq; [|done].
  assert (valid s) as Hs.
  { refine (decode_struct_tree (λ p, valid p.1) fields data (s, id) _ Hd Hreq). intros fs Hfs Hx. unfold fields in Hx.
    apply bind_Some in Hx as (s' & Hs & Hx). apply bind_Some in Hx as (c' & _ & [= <- <-]).
    eapply decode_string_valid; [by apply tree_member|done]. }
  unfold bindM. cbn [retM]. rewrite (school_load_run (T := Course) id c A HA). cbn [table table_Course].
  destruct (courses A !! id) as [course|] eqn:Hc; [|done]. pose proof (proj2 (rep_courses _ _ HA) _ _ Hc) as Hok.
  destruct (contains (default [] (course_StudentIDs course)) s); [done|].
  unfold wrapped, catchM. rewrite put_run by (apply key_filled || apply marshal_filled). split; [done|].
  exact (kept_put (T := Course) c A id (enrolled course s) HA (enrolled_ok course s Hok Hs)).
Qed.

Lemma grades_handled noun (field : Grade → rstr) data :
  handled (let* id := string_id noun data in list_records (T := Grade) (λ g, str_eqb (field g) id)) (grades_answer noun field data).
Proof.
  intros c A HA. unfold grades_answer, string_id. destruct data as [| | | |s| |]; try done.
  by apply (list_handled (T := Grade)).
Qed.

Lemma by_grade_handled data : handled (handleGetStudentsByGrade data) (by_grade_answer data).
Proof.
  intros c A HA. unfold handleGetStudentsByGrade, by_grade_answer.
  destruct (decode_struct _ data) as [g|]; [by apply (list_handled (T := Student))|done].
Qed.

(** The next case of the switch. *)
Ltac on_case tac := match goal with |- handled (if ?b then _ else _) _ => destruct b; [tac|] end.

Lemma request_handled op data : tree data → handled (handleRequest op data) (answer op data).
Proof.
  intros Hd. unfold handleRequest, answer. cbv zeta.
  on_case ltac:(apply (add_handled (T := Student)); [decide_closed|done]).
  on_case ltac:(apply (get_handled (T := Student))).
  on_case ltac:(apply (update_handled (T := Student)); done).
  on_case ltac:(apply (delete_handled (T := Student))).
  on_case ltac:(apply (list_handled (T := Student))).
  on_case ltac:(apply (add_handled (T := Teacher)); [decide_closed|done]).
  on_case ltac:(apply (get_handled (T := Teacher))).
  on_case ltac:(apply (update_handled (T := Teacher)); done).
  on_case ltac:(apply (delete_handled (T := Teacher))).
  on_case ltac:(apply (list_handled (T := Teacher))).
  on_case ltac:(apply (add_handled (T := Course)); [decide_closed|done]).
  on_case ltac:(apply (get_handled (T := Course))).
  on_case ltac:(apply (update_handled (T := Course)); done).
  on_case ltac:(apply (delete_handled (T := Course))).
  on_case ltac:(apply (list_handled (T := Course))).
  on_case ltac:(apply enroll_handled; done).
  on_case ltac:(apply (add_handled (T := Grade)); [decide_closed|done]).
  on_case ltac:(apply (grades_handled "student" grade_StudentID)).
  on_case ltac:(apply (grades_handled "course" grade_CourseID)).
  on_case ltac:(apply by_grade_handled).
  by intros c A HA.
Qed.

Lemma school_execute_answer op data c A :
  tree data → represents c A →
  (execute op data c).1 = fst <$> answer op data A ∧ represents (execute op data c).2 (default A (snd <$> answer op data A)).
Proof. intros Hd HA. exact (request_handled op data Hd c A HA). Qed.

Lemma school_represents_next c A : represents c A → represents (next_execution c) A.
Proof.
  assert (∀ T (E : Entity T) (G : GoJson T ent_ok) (m : gmap rstr T), holds c m → holds (next_execution c) m) as Hh.
  { intros T E G m [Hm Hok]. split; [|done]. intros id. by rewrite value_at_next. }
  intros []. split; [by apply Hh..|by rewrite value_at_next|done].
Qed.

Lemma school_represents_fresh : represents fresh_context empty_school.
Proof.
  assert (∀ T (E : Entity T) (G : GoJson T ent_ok), holds fresh_context (∅ : gmap rstr T)) as Hh.
  { intros T E G. split; [|apply map_Forall_empty]. intros id. by rewrite value_at_fresh, lookup_empty. }
  split; [apply Hh..| |constructor]. by rewrite value_at_fresh.
Qed.

(** ** Sequences of executions *)

Fixpoint serve (reqs : list (rstr * value)) (c : ExecutionContext) : list (option Response) * ExecutionContext :=
  match reqs with
  | [] => ([], c)
  | (op, data) :: rest =>
      let '(r, c') := execute op data c in
      let '(rs, c'') := serve rest (next_execution c') in (r :: rs, c'')
  end.
End Refinement.

(** The same on a school; a panic leaves it as it was. *)
Fixpoint answers `{GoErrors} (reqs : list (rstr * value)) (A : school) : list (option Response) * school :=
  match reqs with
  | [] => ([], A)
  | (op, data) :: rest =>
      let '(rs, A'') := answers rest (default A (snd <$> answer op data A)) in ((fst <$> answer op data A) :: rs, A'')
  end.

Section Refined.
Context `{NodeHost} `{GoErrors} `{!GoJson Student student_ok} `{!GoJson Teacher teacher_ok} `{!GoJson Course course_ok}
  `{!GoJson Grade grade_ok}.

Lemma school_serve_answers reqs c A :
  (∀ k, db_fails k = false) → Forall (λ r, tree r.2) reqs → represents c A →
  (serve reqs c).1 = (answers reqs A).1 ∧ represents (serve reqs c).2 (answers reqs A).2.
Proof.
  intros Hdb Hr. revert c A. induction Hr as [|[op data] reqs Hd _ IH]; intros c A HA; [done|]. cbn [serve answers snd] in *.
  destruct (school_execute_answer Hdb op data c A Hd HA) as [K1 K2]. destruct (execute op data c) as [r c']. cbn [fst snd] in K1, K2.
  destruct (IH _ _ (school_represents_next Hdb _ _ K2)) as [K3 K4].
  destruct (serve reqs (next_execution c')), (answers reqs _). cbn in *. by subst.
Qed.

(** C37 The school program answers every sequence of requests as four maps of records with
    the text of an index do, and its bytes in the node's store are those maps and that
    text afterwards. *)
Theorem school_program_refines (reqs : list (rstr * value)) :
  (∀ k, db_fails k = false) → Forall (λ r, tree r.2) reqs →
  (serve reqs fresh_context).1 = (answers reqs empty_school).1
  ∧ represents (serve reqs fresh_context).2 (answers reqs empty_school).2.
Proof. intros Hdb Hr. apply school_serve_answers; [done|done|apply school_represents_fresh]. Qed.
End Refined.
End SchoolStore.
