(* ===== verification/SchoolRules.v ===== *)
(** * What the school program does to its records

    Records are found under their identifiers, the lists have what was added in the
    order it was added in, where identifiers have no commas, and nothing can be
    deleted. *)

From S2P Require Import Prelude JsValue Codec Json RustLib GoLib WasmHost SchoolProgram SchoolStore.

Module SchoolRules.
Import Rust Go Host Office SchoolStore.

(** ** Records under their identifiers *)

Definition own_ids {T} `{Entity T} (m : gmap rstr T) : Prop := map_Forall (λ id x, ent_id x = id) m.

Record school_ok (A : school) : Prop := {
  own_students : own_ids (students A);
  own_teachers : own_ids (teachers A);
  own_courses : own_ids (courses A);
  own_grades : own_ids (grades A);
}.

Lemma school_ok_empty : school_ok empty_school.
Proof. split; apply map_Forall_empty. Qed.

Lemma indexed_ok key A : school_ok A → school_ok (indexed key A).
Proof. intros []. unfold indexed. by destruct (contains _ key). Qed.

Lemma own_insert {T} `{Entity T} m (x : T) : own_ids m → own_ids (<[ent_id x := x]> m).
Proof. intros Hm. by apply map_Forall_insert_2. Qed.

(** ** The index *)

(** The keys [l] of an index without commas in them. *)
Definition index_is (A : school) (l : list rstr) : Prop :=
  index A = join [44] l ∧ Forall (λ k, k ≠ [] ∧ (44 ∉ k)) l.

Lemma index_keys A l : index_is A l → keys_of (index A) = l.
Proof.
  intros [-> Hl]. unfold keys_of. destruct l as [|k l]; [done|]. destruct (is_empty (join [44] (k :: l))) eqn:He.
  - apply Forall_cons in Hl as [[Hk _] _]. destruct k, l; done.
  - apply split_join; [done|]. eapply Forall_impl; [done|]. by intros ? [].
Qed.

(** A word is added at the end if it is new. *)
Definition add_new (l : list rstr) (x : rstr) : list rstr := if contains l x then l else l ++ [x].

Lemma indexed_is A l key : key ≠ [] → 44 ∉ key → index_is A l → index_is (indexed key A) (add_new l key).
Proof.
  intros Hk Hc Hi. unfold indexed, add_new. rewrite (index_keys A l) by done. destruct (contains l key); [done|].
  split; [done|]. apply Forall_app. split; [apply Hi|by constructor].
Qed.

(** The identifiers of a kind among keys. *)
Definition ids_of (T : Type) `{Entity T} (l : list rstr) : list rstr :=
  omap (λ key, if starts_with (ent_prefix T) key then Some (drop (length (ent_prefix T)) key) else None) l.

Lemma listed_ids {T} `{Table T} A l : index_is A l → listed T A = omap (λ id, table A !! id) (ids_of T l).
Proof.
  intros Hi. unfold listed, ids_of. rewrite (index_keys A l) by done. clear Hi. induction l as [|k l IH]; [done|].
  cbn [omap list_omap]. rewrite IH. destruct (starts_with (ent_prefix T) k); [|done]. cbn [omap list_omap].
  by destruct (table A !! _).
Qed.

Lemma ids_of_app (T : Type) `{Entity T} l k : ids_of T (l ++ k) = ids_of T l ++ ids_of T k.
Proof. unfold ids_of. apply omap_app. Qed.

Lemma ids_of_key (T : Type) `{Entity T} id : ids_of T [ent_key T id] = [id].
Proof. unfold ids_of, ent_key. cbn. by rewrite starts_with_app, drop_app_length. Qed.

Lemma elem_of_ids (T : Type) `{Entity T} l id : id ∈ ids_of T l ↔ ent_key T id ∈ l.
Proof.
  unfold ids_of. rewrite list_elem_of_omap. split.
  - intros (k & Hk & Hd). destruct (starts_with (ent_prefix T) k) eqn:Hs; [|done].
    apply starts_with_spec in Hs as [r ->]. injection Hd as <-. by rewrite drop_app_length.
  - intros Hk. exists (ent_key T id). split; [done|]. unfold ent_key. by rewrite starts_with_app, drop_app_length.
Qed.

Lemma contains_ids (T : Type) `{Entity T} l id : contains (ids_of T l) id = contains l (ent_key T id).
Proof. apply bool_decide_ext, elem_of_ids. Qed.

Lemma add_new_ids (T : Type) `{Entity T} l id : ids_of T (add_new l (ent_key T id)) = add_new (ids_of T l) id.
Proof. unfold add_new. rewrite contains_ids. destruct (contains l _); [done|]. by rewrite ids_of_app, ids_of_key. Qed.

(** Keys of another kind. *)
Lemma add_new_other (T : Type) `{Entity T} l key : starts_with (ent_prefix T) key = false → ids_of T (add_new l key) = ids_of T l.
Proof.
  intros Hs. unfold add_new. destruct (contains l key); [done|]. rewrite ids_of_app. unfold ids_of at 2. cbn. rewrite Hs.
  apply app_nil_r.
Qed.

(** ** What a request can change *)

(** No record is lost. *)
Record grows (A B : school) : Prop := {
  grow_students : ∀ id, is_Some (students A !! id) → is_Some (students B !! id);
  grow_teachers : ∀ id, is_Some (teachers A !! id) → is_Some (teachers B !! id);
  grow_courses : ∀ id, is_Some (courses A !! id) → is_Some (courses B !! id);
  grow_grades : ∀ id, is_Some (grades A !! id) → is_Some (grades B !! id);
}.

(** The record of a key is there. *)
Record present (key : rstr) (A : school) : Prop := {
  present_student : ∀ id, key = ent_key Student id → is_Some (students A !! id);
  present_teacher : ∀ id, key = ent_key Teacher id → is_Some (teachers A !! id);
  present_course : ∀ id, key = ent_key Course id → is_Some (courses A !! id);
  present_grade : ∀ id, key = ent_key Grade id → is_Some (grades A !! id);
}.

Lemma grows_present key A B : grows A B → present key A → present key B.
Proof. intros [] []. split; eauto. Qed.

Lemma grows_refl A : grows A A.
Proof. by split. Qed.

Lemma grows_trans A B C : grows A B → grows B C → grows A C.
Proof. intros [] []. split; eauto. Qed.

Lemma grows_indexed key A : grows A (indexed key A).
Proof. unfold indexed. by destruct (contains _ key); split. Qed.

Lemma present_indexed k key A : present k A → present k (indexed key A).
Proof. apply grows_present, grows_indexed. Qed.

(** The slices of a record are not nil. *)
Class Slices (T : Type) : Type := whole : T → Prop.
#[export] Instance slices_Student : Slices Student := λ x, is_Some (student_Subjects x).
#[export] Instance slices_Teacher : Slices Teacher := λ _, True.
#[export] Instance slices_Course : Slices Course := λ x, is_Some (course_StudentIDs x).
#[export] Instance slices_Grade : Slices Grade := λ _, True.

Record school_whole (A : school) : Prop := {
  whole_students : map_Forall (λ _, whole) (students A);
  whole_courses : map_Forall (λ _, whole) (courses A);
}.

(** The record of a request, if it is one to store a record of this kind. *)
Definition sent (T : Type) `{Entity T} (data : value) : option T :=
  decode_struct (λ fs, decode_struct ent_fields (member (js kind) fs)) data.
Definition stores_op (T : Type) `{Entity T} (op : rstr) : Prop :=
  op ∈ [js "add_" ++ js kind; js "update_" ++ js kind; js "assign_" ++ js kind].

(** A request that stores no record with a nil slice. *)
Definition sends_whole (op : rstr) (data : value) : Prop :=
  (∀ x, stores_op Student op → sent Student data = Some x → whole x) ∧ (∀ x, stores_op Course op → sent Course data = Some x → whole x).

(** What the lemmas on sequences use of a kind. *)
Class Tidy (T : Type) `{Table T} `{Slices T} : Prop := {
  tidy_whole : ∀ A (x : T), school_whole A → whole x → school_whole (stored x A);
  tidy_sent : ∀ op data (x : T), sends_whole op data → stores_op T op → sent T data = Some x → whole x;
  tidy_stored : ∀ A (x : T), school_ok A → school_ok (stored x A);
  tidy_grows : ∀ A (x : T), grows A (stored x A);
  tidy_key : ∀ A (x : T), present (ent_key T (ent_id x)) (stored x A);
  tidy_present : ∀ A id, present (ent_key T id) A → is_Some (table A !! id);
  tidy_own : ∀ A id (x : T), school_ok A → table A !! id = Some x → ent_id x = id;
  tidy_indexed : ∀ A key, table (T := T) (indexed key A) = table A;
}.

Lemma grow_insert {V} (m : gmap rstr V) i x id : is_Some (m !! id) → is_Some (<[i := x]> m !! id).
Proof. intros Hs. rewrite lookup_insert_is_Some'. by right. Qed.

(** The record that was stored is there, and its key is of no other kind. *)
Ltac stored_key :=
  let id := fresh in let Hk := fresh in intros id Hk;
  first [ exfalso; revert Hk; keys_apart
        | unfold ent_key in Hk; apply (inj (app _)) in Hk as <-; cbn; rewrite lookup_insert_eq; by eexists ].

Ltac prove_tidy :=
  split; [ intros A x [] Hx; split; first [assumption | by apply map_Forall_insert_2]
         | intros op data x [] Ho Hx; first [exact I | eauto]
         | intros A x []; split; first [assumption | by apply (own_insert _ x)]
         | intros A x; split; cbn; try done; intros id; apply grow_insert
         | intros A x; split; stored_key
         | intros A id []; eauto
         | intros A id x [] Hx; cbn in Hx; match goal with Ho : own_ids ?m, Hy : ?m !! id = Some x |- _ => exact (Ho _ _ Hy) end
         | intros A key; unfold indexed; by destruct (contains _ key) ].

#[export] Instance tidy_Student : Tidy Student.
Proof. prove_tidy. Qed.
#[export] Instance tidy_Teacher : Tidy Teacher.
Proof. prove_tidy. Qed.
#[export] Instance tidy_Course : Tidy Course.
Proof. prove_tidy. Qed.
#[export] Instance tidy_Grade : Tidy Grade.
Proof. prove_tidy. Qed.

(** The key a request adds to the index, and the school after it. *)
Inductive effect (op : rstr) (data : value) (A : school) : option rstr → school → Prop :=
| effect_none : effect op data A None A
| effect_store {T} `{Tidy T} (x : T) : stores_op T op → sent T data = Some x → effect op data A None (stored x A)
| effect_add {T} `{Tidy T} (x : T) :
    stores_op T op → sent T data = Some x →
    effect op data A (Some (ent_key T (ent_id x))) (indexed (ent_key T (ent_id x)) (stored x A))
| effect_enroll id course s :
    courses A !! id = Some course → effect op data A None (with_table (<[id := enrolled course s]> (courses A)) A).

Definition added_record (T : Type) `{Entity T} (data : value) : option rstr := x ← sent T data; Some (ent_key T (ent_id x)).

Definition added_key (op : rstr) (data : value) : option rstr :=
  if str_eqb op (js "add_student") then added_record Student data
  else if str_eqb op (js "add_teacher") then added_record Teacher data
  else if str_eqb op (js "add_course") then added_record Course data
  else if str_eqb op (js "assign_grade") then added_record Grade data
  else None.

Section Effects.
Context `{GoErrors}.

Lemma add_effect {T} `{Tidy T} verb done op data A :
  stores_op T op → effect op data A (added_record T data) (default A (snd <$> add_answer (T := T) verb done data A)).
Proof.
  intros Ho. unfold add_answer, decoded, added_record. fold (sent T data). destruct (sent T data) as [x|] eqn:Hx; [|apply effect_none].
  by apply (effect_add op data A x).
Qed.

Lemma update_effect {T} `{Tidy T} op data A :
  stores_op T op → effect op data A None (default A (snd <$> update_answer (T := T) data A)).
Proof.
  intros Ho. unfold update_answer, decoded. fold (sent T data). destruct (sent T data) as [x|] eqn:Hx; [|apply effect_none].
  by apply (effect_store op data A x).
Qed.

Lemma delete_effect {T} `{Tidy T} op data A : effect op data A None (default A (snd <$> delete_answer (T := T) data A)).
Proof. destruct data; apply effect_none. Qed.

Lemma enroll_effect op data A : effect op data A None (default A (snd <$> enroll_answer data A)).
Proof.
  unfold enroll_answer. destruct (decode_struct _ data) as [[s c]|]; [|apply effect_none].
  destruct (courses A !! c) as [course|] eqn:Hc; [|apply effect_none]. destruct (contains _ s); [apply effect_none|].
  by apply effect_enroll.
Qed.

Lemma grades_effect noun field op data A : effect op data A None (default A (snd <$> grades_answer noun field data A)).
Proof. destruct data; apply effect_none. Qed.

Lemma by_grade_effect op data A : effect op data A None (default A (snd <$> by_grade_answer data A)).
Proof. unfold by_grade_answer. destruct (decode_struct _ data); apply effect_none. Qed.

(** The next case of the switch: the operation is known in it. *)
Ltac on_op tac :=
  match goal with |- effect _ _ ?A (added_key ?op ?data) (default _ (snd <$> (if str_eqb ?op ?name then _ else _))) =>
    let E := fresh "E" in destruct (str_eqb op name) eqn:E;
    [ apply str_eqb_eq in E; rewrite E; unfold added_key;
      repeat match goal with |- context [str_eqb ?x ?y] =>
        let b := eval vm_compute in (str_eqb x y) in change (str_eqb x y) with b; cbv iota end;
      tac |]
  end.

Lemma answer_effect op data A : effect op data A (added_key op data) (default A (snd <$> answer op data A)).
Proof.
  unfold answer. cbv zeta.
  on_op ltac:(apply (add_effect (T := Student)); unfold stores_op; decide_closed).
  on_op ltac:(apply effect_none).
  on_op ltac:(apply (update_effect (T := Student)); unfold stores_op; decide_closed).
  on_op ltac:(apply (delete_effect (T := Student))).
  on_op ltac:(apply effect_none).
  on_op ltac:(apply (add_effect (T := Teacher)); unfold stores_op; decide_closed).
  on_op ltac:(apply effect_none).
  on_op ltac:(apply (update_effect (T := Teacher)); unfold stores_op; decide_closed).
  on_op ltac:(apply (delete_effect (T := Teacher))).
  on_op ltac:(apply effect_none).
  on_op ltac:(apply (add_effect (T := Course)); unfold stores_op; decide_closed).
  on_op ltac:(apply effect_none).
  on_op ltac:(apply (update_effect (T := Course)); unfold stores_op; decide_closed).
  on_op ltac:(apply (delete_effect (T := Course))).
  on_op ltac:(apply effect_none).
  on_op ltac:(apply enroll_effect).
  on_op ltac:(apply (add_effect (T := Grade)); unfold stores_op; decide_closed).
  on_op ltac:(apply grades_effect).
  on_op ltac:(apply grades_effect).
  on_op ltac:(apply by_grade_effect).
  unfold added_key. repeat match goal with E : str_eqb op _ = false |- _ => rewrite E; clear E end. apply effect_none.
Qed.

Lemma effect_ok op data A o B : effect op data A o B → school_ok A → school_ok B.
Proof.
  intros [|T ? ? ? ? x|T ? ? ? ? x|id course s Hc] HA; [done|by apply tidy_stored|by apply indexed_ok, tidy_stored|].
  destruct HA as [? ? Ho ?]. split; [done..| |done]. apply map_Forall_insert_2; [|done]. exact (Ho _ _ Hc).
Qed.

Lemma effect_whole op data A o B : effect op data A o B → sends_whole op data → school_whole A → school_whole B.
Proof.
  intros He Hs HA. destruct He as [|T ? ? ? ? x Ho Hx|T ? ? ? ? x Ho Hx|id course s Hc]; [done| | |].
  - apply tidy_whole; [done|]. by eapply tidy_sent.
  - pose proof (tidy_whole A x HA (tidy_sent _ _ x Hs Ho Hx)) as []. unfold indexed. by destruct (contains _ _).
  - destruct HA. split; [done|]. apply map_Forall_insert_2; [by eexists|done].
Qed.

Lemma effect_grows op data A o B : effect op data A o B → grows A B.
Proof.
  intros [|T ? ? ? ? x|T ? ? ? ? x|id course s Hc]; [apply grows_refl|apply tidy_grows| |split; cbn; try done; intros i; apply grow_insert].
  eapply grows_trans; [apply tidy_grows|apply grows_indexed].
Qed.

(** The index gets the key that is added. *)
Lemma index_stored {T} `{Table T} (x : T) A : index (stored x A) = index A.
Proof. apply index_with. Qed.

Lemma effect_index op data A o B l :
  effect op data A o B → (∀ k, o = Some k → 44 ∉ k) → index_is A l → index_is B (match o with Some k => add_new l k | None => l end).
Proof.
  intros He Hc Hi. destruct He as [|T ? ? ? ? x|T ? ? ? ? x|id course s _]; [done| | |done].
  - unfold index_is. rewrite index_stored. done.
  - apply indexed_is; [apply key_filled|by apply Hc|]. unfold index_is. rewrite index_stored. done.
Qed.

Lemma effect_present op data A o B : effect op data A o B → ∀ k, o = Some k → present k B.
Proof. intros [|T ? ? ? ? x|T ? ? ? ? x|id course s _] k; [done|done| |done]. intros [= <-]. apply present_indexed, tidy_key. Qed.

(** ** Sequences *)

(** The keys a sequence of requests adds. *)
Definition added_keys (reqs : list (rstr * value)) : list rstr := omap (λ r, added_key r.1 r.2) reqs.

Lemma answers_cons op data reqs A :
  (answers ((op, data) :: reqs) A).2 = (answers reqs (default A (snd <$> answer op data A))).2.
Proof. cbn [answers]. by destruct (answers reqs _). Qed.

Lemma school_answers_ok reqs A : school_ok A → school_ok (answers reqs A).2.
Proof.
  revert A. induction reqs as [|[op data] reqs IH]; intros A HA; [done|]. rewrite answers_cons. apply IH.
  by eapply effect_ok; [apply answer_effect|].
Qed.

Lemma answers_whole reqs A : Forall (λ r, sends_whole r.1 r.2) reqs → school_whole A → school_whole (answers reqs A).2.
Proof.
  intros Hr. revert A. induction Hr as [|[op data] reqs Hd _ IH]; intros A HA; [done|]. rewrite answers_cons. apply IH.
  by eapply effect_whole; [apply answer_effect|..].
Qed.

Lemma answers_grow reqs A : grows A (answers reqs A).2.
Proof.
  revert A. induction reqs as [|[op data] reqs IH]; intros A; [apply grows_refl|]. rewrite answers_cons.
  eapply grows_trans; [eapply effect_grows, answer_effect|apply IH].
Qed.

Lemma answers_index reqs A l :
  Forall (λ k, 44 ∉ k) (added_keys reqs) → index_is A l → index_is (answers reqs A).2 (fold_left add_new (added_keys reqs) l).
Proof.
  revert A l. induction reqs as [|[op data] reqs IH]; intros A l Hc Hi; [done|]. rewrite answers_cons.
  unfold added_keys in *. cbn [omap list_omap fst snd] in *. pose proof (answer_effect op data A) as He.
  destruct (added_key op data) as [k|]; [apply Forall_cons in Hc as [Hk Hc]|]; cbn [fold_left]; apply IH; try done;
    eapply (effect_index _ _ _ _ _ l He); try done. by intros ? [= <-].
Qed.

Lemma answers_present reqs A k : k ∈ added_keys reqs → present k (answers reqs A).2.
Proof.
  revert A. induction reqs as [|[op data] reqs IH]; intros A Hk; [by apply not_elem_of_nil in Hk|]. rewrite answers_cons.
  unfold added_keys in Hk. cbn [omap list_omap fst snd] in Hk. pose proof (answer_effect op data A) as He.
  destruct (added_key op data) as [k'|]; [|by apply IH]. apply elem_of_cons in Hk as [->|Hk]; [|by apply IH].
  eapply grows_present; [apply answers_grow|]. by eapply effect_present.
Qed.
End Effects.

(** ** What the lists have *)

Lemma add_new_all (T : Type) `{Entity T} ks l : ids_of T (fold_left add_new ks l) = fold_left add_new (ids_of T ks) (ids_of T l).
Proof.
  revert l. induction ks as [|k ks IH]; intros l; [done|]. cbn [fold_left]. rewrite IH. unfold ids_of at 3. cbn [omap list_omap].
  fold (ids_of T ks). destruct (starts_with (ent_prefix T) k) eqn:Hs.
  - apply starts_with_spec in Hs as [id ->]. rewrite drop_app_length. cbn [fold_left]. by rewrite <- add_new_ids.
  - by rewrite add_new_other.
Qed.

Lemma add_new_elem ks l x : x ∈ fold_left add_new ks l ↔ x ∈ ks ∨ x ∈ l.
Proof.
  revert l. induction ks as [|k ks IH]; intros l; cbn [fold_left]; [set_solver|]. rewrite IH. unfold add_new, contains.
  case_bool_decide; set_solver.
Qed.

Lemma add_new_once ks l : NoDup l → NoDup (fold_left add_new ks l).
Proof.
  revert l. induction ks as [|k ks IH]; intros l Hl; [done|]. apply IH. unfold add_new, contains. case_bool_decide as Hk; [done|].
  apply NoDup_app. split; [done|]. split; [|apply NoDup_singleton]. intros x Hx ->%list_elem_of_singleton. done.
Qed.

(** The identifiers that requests add, in the order of the first time. *)
Definition first_added (T : Type) `{Entity T} (reqs : list (rstr * value)) : list rstr :=
  fold_left add_new (ids_of T (added_keys reqs)) [].

Lemma listed_exact {T} `{Tidy T} `{GoErrors} reqs :
  Forall (λ k, 44 ∉ k) (added_keys reqs) →
  let A := (answers reqs empty_school).2 in
  map ent_id (listed T A) = first_added T reqs ∧ ∀ x, x ∈ listed T A → table A !! ent_id x = Some x.
Proof.
  intros Hc A. assert (index_is empty_school []) as Hempty by done. pose proof (answers_index reqs _ _ Hc Hempty) as Hi. fold A in Hi.
  assert (school_ok A) as Hok by apply school_answers_ok, school_ok_empty.
  rewrite (listed_ids (T := T) A _ Hi), add_new_all. change (ids_of T []) with (@nil rstr). fold (first_added T reqs).
  assert (∀ id, id ∈ first_added T reqs → is_Some (table A !! id)) as Hin.
  { intros id [Hid|Hid]%add_new_elem; [|by apply not_elem_of_nil in Hid]. apply tidy_present, answers_present. by apply elem_of_ids. }
  split; [|intros x (id & _ & Hx)%list_elem_of_omap; by rewrite (tidy_own A id x Hok Hx)].
  revert Hin. generalize (first_added T reqs). intros ids Hin. induction ids as [|id ids IH]; [done|]. cbn [omap list_omap].
  destruct (Hin id) as [x Hx]; [by left|]. rewrite Hx. cbn [map]. rewrite (tidy_own A id x Hok Hx), IH; [done|].
  intros id' Hid'. apply Hin. by right.
Qed.

Lemma split_no_sep sep (s w : bytes) : w ∈ split_on sep s → sep ∉ w.
Proof.
  revert w. induction s as [|c s IH]; intros w; cbn [split_on]; [intros ->%list_elem_of_singleton; apply not_elem_of_nil|].
  destruct (c =? sep) eqn:Hc; [intros [->|Hw]%elem_of_cons; [apply not_elem_of_nil|by apply IH]|].
  apply Z.eqb_neq in Hc. destruct (split_on sep s) as [|v vs]; [intros ->%list_elem_of_singleton; set_solver|].
  intros [->|Hw]%elem_of_cons; [|by apply IH; right]. intros [?|?]%elem_of_cons; [done|]. by apply (IH v); [left|].
Qed.

Lemma listed_plain {T} `{Tidy T} A (x : T) : school_ok A → x ∈ listed T A → 44 ∉ ent_id x.
Proof.
  intros HA (k & Hk & Hx)%list_elem_of_omap. destruct (starts_with (ent_prefix T) k) eqn:Hs; [|done].
  apply starts_with_spec in Hs as [id ->]. rewrite drop_app_length in Hx. rewrite (tidy_own A id x HA Hx).
  unfold keys_of in Hk. destruct (is_empty (index A)); [by apply not_elem_of_nil in Hk|]. apply split_no_sep in Hk. set_solver.
Qed.

(** ** The program *)

Section Program.
Context `{NodeHost} `{GoErrors} `{!GoJson Student student_ok} `{!GoJson Teacher teacher_ok} `{!GoJson Course course_ok}
  `{!GoJson Grade grade_ok}.

(** What the execution after some others starts from. *)
Definition after (reqs : list (rstr * value)) : ExecutionContext := next_execution (serve reqs fresh_context).2.

(** The requests of a history, on a node that can read its database. *)
Definition history_ok (reqs : list (rstr * value)) : Prop := (∀ k, db_fails k = false) ∧ Forall (λ r, tree r.2) reqs.

Lemma school_after_represents reqs : history_ok reqs → represents (after reqs) (answers reqs empty_school).2.
Proof. intros [Hdb Hr]. apply school_represents_next; [done|]. apply school_serve_answers; [done|done|apply school_represents_fresh]. Qed.

(** The answer to a request after a history. *)
Lemma after_answer reqs op data :
  history_ok reqs → tree data → (execute op data (after reqs)).1 = fst <$> answer op data (answers reqs empty_school).2.
Proof. intros Hr Hd. apply school_execute_answer; [apply Hr|done|by apply school_after_represents]. Qed.

Lemma after_snoc reqs op data :
  history_ok reqs → tree data → history_ok (reqs ++ [(op, data)])
  ∧ (answers (reqs ++ [(op, data)]) empty_school).2
    = default (answers reqs empty_school).2 (snd <$> answer op data (answers reqs empty_school).2).
Proof.
  intros [Hdb Hr] Hd. split; [split; [done|]; by apply Forall_app; split; [|constructor]|]. clear Hr.
  generalize empty_school. induction reqs as [|[op' data'] reqs IH]; intros A; cbn [app]; [by rewrite answers_cons|].
  by rewrite !answers_cons, IH.
Qed.

(** A list with these identifiers, every entry of which is what is found under its
    identifier. *)
Definition shows (T : Type) `{Entity T} (list_op get_op : string) (c : ExecutionContext) (ids : list rstr) : Prop :=
  ∃ l : list T, (execute (js list_op) VNull c).1 = Some (success [] (Some (many l))) ∧ map ent_id l = ids ∧
    ∀ x s, x ∈ l → unit_str s → utf8_encode s = ent_id x → (execute (js get_op) (VStr s) c).1 = Some (success [] (Some (one x))).

Lemma shows_kind (T : Type) `{Tidy T} list_op get_op reqs :
  history_ok reqs → Forall (λ k, 44 ∉ k) (added_keys reqs) →
  (∀ A, answer (js list_op) VNull A = list_answer (T := T) (λ _, true) A) →
  (∀ s A, answer (js get_op) (VStr s) A = get_answer (T := T) (VStr s) A) →
  shows T list_op get_op (after reqs) (first_added T reqs).
Proof.
  intros Hr Hc Hl Hg. destruct (listed_exact (T := T) reqs Hc) as [Hids Hin]. set (A := (answers reqs empty_school).2) in *.
  exists (listed T A). split; [|split; [done|]].
  - rewrite after_answer by (done || constructor). rewrite Hl. unfold list_answer. cbn.
    fold A. by assert (∀ l : list T, List.filter (λ _, true) l = l) as -> by (induction l as [|x l IH]; [done|]; cbn; by rewrite IH).
  - intros x s Hx Hs Hid. rewrite after_answer by (done || by constructor). fold A. rewrite Hg. unfold get_answer. rewrite Hid, Hin by done.
    done.
Qed.

(** After any sequence of requests in which no identifier that is added has a comma, the
    lists of students, teachers and courses have exactly what was added, once, in the
    order in which it was added first and with what is stored for it now: what was only
    updated is not in them. *)
Theorem school_lists_exact (reqs : list (rstr * value)) :
  history_ok reqs → Forall (λ k, 44 ∉ k) (added_keys reqs) →
  shows Student "list_students" "get_student" (after reqs) (first_added Student reqs) ∧
  shows Teacher "list_teachers" "get_teacher" (after reqs) (first_added Teacher reqs) ∧
  shows Course "list_courses" "get_course" (after reqs) (first_added Course reqs).
Proof. intros Hr Hc. split; [by apply (shows_kind Student)|]. split; [by apply (shows_kind Teacher)|by apply (shows_kind Course)]. Qed.

(** A record that is added or updated is what is found under its identifier from then
    on, and no other record of the kind changes. *)
Definition stores (T : Type) `{Entity T} (ops : list string) (get_op : string) : Prop :=
  ∀ reqs op data x, history_ok reqs → tree data → In op ops →
    decode_struct (λ fs, decode_struct (ent_fields (T := T)) (member (js kind) fs)) data = Some x →
    let c := after reqs in
    let c' := after (reqs ++ [(js op, data)]) in
    (∃ m, (execute (js op) data c).1 = Some (success m (Some (one x)))) ∧
    ∀ s, unit_str s →
      (execute (js get_op) (VStr s) c').1 =
      if decide (utf8_encode s = ent_id x) then Some (success [] (Some (one x))) else (execute (js get_op) (VStr s) c).1.

Lemma stores_kind (T : Type) `{Tidy T} add_op update_op get_op :
  (∀ data A, answer (js add_op) data A = add_answer (T := T) "add" "added" data A) →
  (∀ data A, answer (js update_op) data A = update_answer (T := T) data A) →
  (∀ s A, answer (js get_op) (VStr s) A = get_answer (T := T) (VStr s) A) →
  stores T [add_op; update_op] get_op.
Proof.
  intros Ha Hu Hg reqs op data x Hr Hd Hop Hx c c'. destruct (after_snoc reqs (js op) data Hr Hd) as [Hr' Hs'].
  set (A := (answers reqs empty_school).2) in *.
  assert (∃ m B, answer (js op) data A = Some (success m (Some (one x)), B) ∧ table B = <[ent_id x := x]> (table A)) as (m & B & Hans & HB).
  { destruct Hop as [<-|[<-|[]]]; [rewrite Ha|rewrite Hu]; unfold add_answer, update_answer, decoded; rewrite Hx;
      (eexists _, _; split; [done|]); [|apply table_with].
    rewrite tidy_indexed. apply table_with. }
  split.
  - exists m. unfold c. rewrite after_answer by done. fold A. by rewrite Hans.
  - intros s Hs. unfold c, c'. rewrite !after_answer by (done || by constructor). fold A. rewrite Hs', Hans. cbn [fmap option_fmap option_map default snd].
    rewrite !Hg. unfold get_answer. cbn. rewrite HB. case_decide as Hid; [by rewrite Hid, lookup_insert_eq|].
    by rewrite lookup_insert_ne.
Qed.

Lemma stores_Student : stores Student ["add_student"; "update_student"]%string "get_student".
Proof. by apply (stores_kind Student). Qed.
Lemma stores_Teacher : stores Teacher ["add_teacher"; "update_teacher"]%string "get_teacher".
Proof. by apply (stores_kind Teacher). Qed.
Lemma stores_Course : stores Course ["add_course"; "update_course"]%string "get_course".
Proof. by apply (stores_kind Course). Qed.

(** Adding or updating a student, a teacher or a course, whichever were stored before,
    answers with the record as it was read, which is then what is found under its
    identifier; every other identifier is answered as before. *)
Theorem school_stores_records :
  stores Student ["add_student"; "update_student"]%string "get_student" ∧
  stores Teacher ["add_teacher"; "update_teacher"]%string "get_teacher" ∧
  stores Course ["add_course"; "update_course"]%string "get_course".
Proof. split; [apply stores_Student|]. split; [apply stores_Teacher|apply stores_Course]. Qed.

(** The request of an enrolment. *)
Definition enroll_data (student course : jstr) : value := VObj [(js "student_id", VStr student); (js "course_id", VStr course)].

Lemma enroll_tree student course : unit_str student → unit_str course → tree (enroll_data student course).
Proof. intros Hs Hc. repeat ((constructor; [by constructor|]) || constructor); done. Qed.

Lemma enroll_decoded student course A :
  enroll_answer (enroll_data student course) A =
    Some match courses A !! utf8_encode course with
         | None => (error_response (js "Course not found"), A)
         | Some c =>
             if contains (default [] (course_StudentIDs c)) (utf8_encode student) then (success (js "Student already enrolled in course") None, A)
             else (success (js "Student enrolled successfully") (Some (ACourse (enrolled c (utf8_encode student)))),
                   with_table (<[utf8_encode course := enrolled c (utf8_encode student)]> (courses A)) A)
         end.
Proof. done. Qed.

(** Enrolling a student who is not in the course yet puts the identifier at the end of
    the course's list and changes nothing else of it, whether such a student exists or
    not; enrolling again is answered with success and changes nothing. *)
Theorem enroll_once (reqs : list (rstr * value)) (student course : jstr) (x : Course) :
  history_ok reqs → unit_str student → unit_str course →
  (execute (js "get_course") (VStr course) (after reqs)).1 = Some (success [] (Some (ACourse x))) →
  utf8_encode student ∉ default [] (course_StudentIDs x) →
  let enroll := (js "enroll_student", enroll_data student course) in
  let y := enrolled x (utf8_encode student) in
  (execute enroll.1 enroll.2 (after reqs)).1 = Some (success (js "Student enrolled successfully") (Some (ACourse y))) ∧
  (execute (js "get_course") (VStr course) (after (reqs ++ [enroll]))).1 = Some (success [] (Some (ACourse y))) ∧
  (execute enroll.1 enroll.2 (after (reqs ++ [enroll]))).1 = Some (success (js "Student already enrolled in course") None) ∧
  (execute (js "get_course") (VStr course) (after (reqs ++ [enroll; enroll]))).1 = Some (success [] (Some (ACourse y))).
Proof.
  intros Hr Hs Hc Hx Hnew enroll y. pose proof (enroll_tree student course Hs Hc) as Ht. assert (tree (VStr course)) as Htc by by constructor.
  destruct (after_snoc reqs (js "enroll_student") (enroll_data student course) Hr Ht) as [Hr1 Hs1].
  destruct (after_snoc _ (js "enroll_student") (enroll_data student course) Hr1 Ht) as [Hr2 Hs2].
  rewrite <- (app_assoc reqs) in Hr2, Hs2. cbn [app] in Hr2, Hs2. fold enroll in Hr1, Hs1, Hr2, Hs2.
  rewrite after_answer in Hx by done. set (A := (answers reqs empty_school).2) in *.
  change (answer (js "get_course") (VStr course) A) with (get_answer (T := Course) (VStr course) A) in Hx.
  unfold get_answer in Hx. cbn [table table_Course fmap option_fmap option_map fst] in Hx.
  destruct (courses A !! utf8_encode course) as [x'|] eqn:Hx'; [|done]. injection Hx as ->.
  assert (answer (js "enroll_student") (enroll_data student course) A =
    Some (success (js "Student enrolled successfully") (Some (ACourse y)), with_table (<[utf8_encode course := y]> (courses A)) A)) as Ha1.
  { change (enroll_answer (enroll_data student course) A = Some (success (js "Student enrolled successfully") (Some (ACourse y)),
      with_table (<[utf8_encode course := y]> (courses A)) A)).
    rewrite enroll_decoded, Hx'. unfold contains. by rewrite bool_decide_false. }
  set (B := with_table (<[utf8_encode course := y]> (courses A)) A) in *. rewrite Ha1 in Hs1. change (default A _) with B in Hs1.
  assert (courses B !! utf8_encode course = Some y) as HB by apply lookup_insert_eq.
  assert (answer (js "enroll_student") (enroll_data student course) B = Some (success (js "Student already enrolled in course") None, B)) as Ha2.
  { change (enroll_answer (enroll_data student course) B = Some (success (js "Student already enrolled in course") None, B)).
    rewrite enroll_decoded, HB. unfold contains. rewrite bool_decide_true; [done|]. cbn. set_solver. }
  rewrite Hs1, Ha2 in Hs2. change (default B _) with B in Hs2. unfold enroll at 1 2 4 5. cbn [fst snd]. rewrite !after_answer by done. rewrite Hs1, Hs2, Ha2. fold A.
  rewrite Ha1. change (answer (js "get_course") (VStr course) B) with (get_answer (T := Course) (VStr course) B).
  unfold get_answer. cbn [table table_Course]. rewrite HB. done.
Qed.

(** The grades of a student, and those of a course, are the grades that were assigned to
    them, in the order of the first assignment of their identifiers. *)
Theorem school_grades_exact (reqs : list (rstr * value)) :
  history_ok reqs → Forall (λ k, 44 ∉ k) (added_keys reqs) →
  ∃ l : list Grade, map grade_ID l = first_added Grade reqs ∧ ∀ s, unit_str s →
    (execute (js "get_student_grades") (VStr s) (after reqs)).1 =
      Some (success [] (Some (Grades (List.filter (λ g, str_eqb (grade_StudentID g) (utf8_encode s)) l)))) ∧
    (execute (js "get_course_grades") (VStr s) (after reqs)).1 =
      Some (success [] (Some (Grades (List.filter (λ g, str_eqb (grade_CourseID g) (utf8_encode s)) l)))).
Proof.
  intros Hr Hc. destruct (listed_exact (T := Grade) reqs Hc) as [Hids _]. eexists. split; [exact Hids|].
  intros s Hs. rewrite !after_answer by (done || by constructor). done.
Qed.

(** A student whose identifier has a comma is never in the list, in no state that can be
    reached, although the request that adds it succeeds. *)
Theorem comma_never_listed (reqs : list (rstr * value)) :
  history_ok reqs →
  ∃ l, (execute (js "list_students") VNull (after reqs)).1 = Some (success [] (Some (Students l))) ∧
    Forall (λ x, 44 ∉ student_ID x) l.
Proof.
  intros Hr. rewrite after_answer by (done || constructor). eexists. split; [done|].
  apply Forall_forall. intros x Hx. apply list_elem_of_In, List.filter_In in Hx as [Hx%list_elem_of_In _].
  refine (listed_plain (T := Student) _ x _ Hx). apply school_answers_ok, school_ok_empty.
Qed.

(** Nothing can be deleted: a request to delete a student, a teacher or a course traps
    in the host call for the empty value, without an answer and without effect, whether
    the record exists or not. *)
Theorem delete_always_traps (op : string) (s : jstr) (c : ExecutionContext) :
  In op ["delete_student"; "delete_teacher"; "delete_course"]%string → execute (js op) (VStr s) c = (None, c).
Proof.
  intros [<-|[<-|[<-|[]]]]; unfold execute.
  - change (handleRequest (js "delete_student") (VStr s)) with (delete_record (T := Student) (VStr s)).
    unfold delete_record, string_id, bindM, wrapped, catchM, statePut. cbn [retM]. by rewrite orb_true_r.
  - change (handleRequest (js "delete_teacher") (VStr s)) with (delete_record (T := Teacher) (VStr s)).
    unfold delete_record, string_id, bindM, wrapped, catchM, statePut. cbn [retM]. by rewrite orb_true_r.
  - change (handleRequest (js "delete_course") (VStr s)) with (delete_record (T := Course) (VStr s)).
    unfold delete_record, string_id, bindM, wrapped, catchM, statePut. cbn [retM]. by rewrite orb_true_r.
Qed.
End Program.
End SchoolRules.
