(* ===== verification/NodeAuth.v ===== *)
(** * src/rpc/auth.rs: how the node verifies a signed request

    The axum middleware the SDK talks to: replay cache, rate limiter, signature
    check and encryption of the response.  The handler behind it is the
    argument [next], as in the source. *)

From S2P Require Import Prelude JsValue Codec Json Sha256 Platform SdkErrors Models SdkAuth SdkClient RustLib.

Module Node.
Import Errors Auth Client Rust.

(** ** The cryptographic crates

    [hkdf], [hmac] and [chacha20poly1305] implement RFC 5869, HMAC-SHA256 and
    XChaCha20-Poly1305; the last is the scheme @stablelib implements, so that
    its ciphertexts are those of [aead_seal]. *)
Class RustCrypto `{XChaCha} : Type := {
  hkdf_expand : option bytes → bytes → bytes → nat → bytes;
  hkdf_expand_rfc5869 : ∀ salt ikm info n, (n ≤ 255 * 32)%nat →
    hkdf_expand salt ikm info n = hkdf_rfc5869 ikm salt info n;
  hmac_finalize : bytes → bytes → bytes;
  hmac_finalize_rfc2104 : ∀ key m, hmac_finalize key m = hmac_sha256 key m;
  xchacha_encrypt : bytes → bytes → bytes → bytes → bytes;
  xchacha_encrypt_interop : ∀ key nonce msg aad, xchacha_encrypt key nonce msg aad = aead_seal key nonce msg aad;
}.

(** ** Keys *)

Record NodeKeys : Type := {
  nk_project_id : jstr;
  nk_signing_key : bytes;
  nk_response_key : bytes;
}.

(** ** The replay cache *)

(** Instants and durations in nanoseconds. *)
Record NonceCache : Type := {
  entries : gmap jstr Z;
  order : list jstr;
  capacity : nat;
  ttl : Z;
}.

Definition new_NonceCache (cap : nat) (t : Z) : NonceCache :=
  {| entries := ∅; order := []; capacity := cap; ttl := t |}.

(** [Instant::duration_since] saturates at zero. *)
Definition duration_since (now earlier : Z) : Z := Z.max 0 (now - earlier).

Definition stale (now t : Z) (es : gmap jstr Z) (front : jstr) : bool :=
  match es !! front with
  | Some ts => t <? duration_since now ts
  | None => true
  end.

(** The [while let] loop of [evict]. *)
Fixpoint evict_loop (now t : Z) (es : gmap jstr Z) (ord : list jstr) : gmap jstr Z * list jstr :=
  match ord with
  | [] => (es, [])
  | front :: rest =>
      if stale now t es front then evict_loop now t (delete front es) rest else (es, front :: rest)
  end.

Definition evict (now : Z) (c : NonceCache) : NonceCache :=
  let '(es, ord) := evict_loop now (ttl c) (entries c) (order c) in
  {| entries := es; order := ord; capacity := capacity c; ttl := ttl c |}.

(** [true] is [Ok(())]. *)
Definition check_and_insert (nonce : jstr) (now : Z) (c : NonceCache) : bool * NonceCache :=
  let c := evict now c in
  match entries c !! nonce with
  | Some _ => (false, c)
  | None =>
      let '(es, ord) :=
        if (capacity c <=? size (entries c))%nat then
          match order c with
          | oldest :: rest => (delete oldest (entries c), rest)
          | [] => (entries c, [])
          end
        else (entries c, order c) in
      (true, {| entries := <[nonce := now]> es; order := ord ++ [nonce]; capacity := capacity c; ttl := ttl c |})
  end.

(** ** The rate limiter, in binary64 *)

Record TokenBucket : Type := {
  tokens : f64;
  tb_capacity : f64;
  last_refill : Z;
  refill_per_sec : f64;
}.

Definition new_TokenBucket (rate_per_minute : f64) (now : Z) : TokenBucket :=
  let rate_per_sec := f64_div rate_per_minute (f64_of_Z 60) in
  {| tokens := rate_per_sec; tb_capacity := f64_mul rate_per_sec (f64_of_Z 2);
     last_refill := now; refill_per_sec := rate_per_sec |}.

(** [Duration::as_secs_f64]. *)
Definition as_secs_f64 (ns : Z) : f64 :=
  f64_add (f64_of_Z (ns / 1000000000)) (f64_div (f64_of_Z (ns mod 1000000000)) (f64_of_Z 1000000000)).

Definition try_consume (amount : f64) (now : Z) (b : TokenBucket) : bool * TokenBucket :=
  let elapsed := as_secs_f64 (duration_since now (last_refill b)) in
  let t := f64_min (f64_add (tokens b) (f64_mul elapsed (refill_per_sec b))) (tb_capacity b) in
  let ok := f64_ge t amount in
  (ok, {| tokens := if ok then f64_sub t amount else t; tb_capacity := tb_capacity b;
          last_refill := now; refill_per_sec := refill_per_sec b |}).

(** ** The state of the middleware *)

Record AuthConfig : Type := {
  skew : Z;
  nonce_ttl : Z;
  nonce_capacity : nat;
  allowed_methods : list jstr;
}.

Record AuthState : Type := {
  config : AuthConfig;
  keys : gmap jstr NodeKeys;
  replay_cache : NonceCache;
  rate_limiter : option TokenBucket;
}.

Definition new_AuthState (cfg : AuthConfig) (ks : list NodeKeys) (rate_limit_per_minute now : Z) : AuthState :=
  {| config := cfg;
     keys := foldl (λ m k, <[nk_project_id k := k]> m) ∅ ks;
     replay_cache := new_NonceCache (nonce_capacity cfg) (nonce_ttl cfg);
     rate_limiter := if 0 <? rate_limit_per_minute
                     then Some (new_TokenBucket (f64_of_Z rate_limit_per_minute) now) else None |}.

Definition with_cache (c : NonceCache) (st : AuthState) : AuthState :=
  {| config := config st; keys := keys st; replay_cache := c; rate_limiter := rate_limiter st |}.

Definition with_limiter (b : TokenBucket) (st : AuthState) : AuthState :=
  {| config := config st; keys := keys st; replay_cache := replay_cache st; rate_limiter := Some b |}.

(** ** Requests as the node sees them *)

(** [nr_target] is the URI's path and query; reading the body may fail. *)
Record node_request : Type := {
  nr_method : jstr;
  nr_target : jstr;
  nr_headers : list (jstr * jstr);
  nr_body : option bytes;
}.

Definition UNAUTHORIZED : Z := 401.
Definition METHOD_NOT_ALLOWED : Z := 405.
Definition BAD_REQUEST : Z := 400.
Definition TOO_MANY_REQUESTS : Z := 429.
Definition INTERNAL_SERVER_ERROR : Z := 500.

(** [HeaderValue::to_str]: visible ASCII and tab only. *)
Definition header_str (name : jstr) (headers : list (jstr * jstr)) : outcome Z jstr :=
  match obj_get name headers with
  | Some v => if forallb (λ c, ((32 <=? c) && (c <? 127)) || (c =? 9)) v then Ok v else Throw UNAUTHORIZED
  | None => Throw UNAUTHORIZED
  end.

(** [str::parse::<i64>]. *)
Definition parse_i64 (s : jstr) : option Z :=
  let magnitude ds :=
    match ds with
    | [] => None
    | _ => if forallb is_digit ds then Some (digits_val ds) else None
    end in
  let in_range z := if (- 2 ^ 63 <=? z) && (z <? 2 ^ 63) then Some z else None in
  match s with
  | 45 :: ds => magnitude ds ≫= λ z, in_range (- z)
  | 43 :: ds => magnitude ds ≫= in_range
  | ds => magnitude ds ≫= in_range
  end.

Definition ascii_upper (s : jstr) : jstr := map (λ c, if (97 <=? c) && (c <=? 122) then c - 32 else c) s.
Section Middleware.
Context `{RustCrypto}.

Definition derive_keys (secret : bytes) (project_id : jstr) : NodeKeys :=
  let okm := hkdf_expand None secret (js "onvm-rpc-auth") 64 in
  {| nk_project_id := project_id;
     nk_signing_key := take 32 okm;
     nk_response_key := take 32 (drop 32 okm) |}.

Definition derive_response_nonce (response_key : bytes) (nonce : jstr) (ts_ms : Z) : bytes :=
  hkdf_expand (Some response_key) (utf8_encode nonce) (utf8_encode (js "resp-" ++ Z_to_str ts_ms)) 24.

Definition upsert_project (project_id : jstr) (secret : bytes) (st : AuthState) : AuthState :=
  {| config := config st; keys := <[project_id := derive_keys secret project_id]> (keys st);
     replay_cache := replay_cache st; rate_limiter := rate_limiter st |}.

(** [format!("{} {}\n{}\n{}\n{}", method, path, ts_ms, nonce, lossy body)]. *)
Definition node_canonical (method path : jstr) (ts_ms : Z) (nonce : jstr) (body : bytes) : jstr :=
  method ++ [32] ++ path ++ [10] ++ Z_to_str ts_ms ++ [10] ++ nonce ++ [10] ++ utf8_decode body.

(** The readings of the three clocks the middleware consults. *)
Record clocks : Type := {
  now_millis : Z;
  cache_instant : Z;
  limiter_instant : Z;
}.

Definition seal_response (k : NodeKeys) (nonce : jstr) (ts_ms : Z) (canon : jstr) (resp : http_response)
    : outcome Z http_response :=
  if negb (rs_ok resp) then Ok resp
  else
    match rs_body resp with
    | Throw _ => Throw INTERNAL_SERVER_ERROR
    | Ok plaintext =>
        let response_nonce := derive_response_nonce (nk_response_key k) nonce ts_ms in
        let ciphertext := xchacha_encrypt (nk_response_key k) response_nonce plaintext (utf8_encode canon) in
        Ok {| rs_status := rs_status resp; rs_statusText := rs_statusText resp;
              rs_headers := obj_set (js "x-response-aead") (js "XChaCha20Poly1305")
                (obj_set (js "x-response-nonce") (hex_encode response_nonce) (rs_headers resp));
              rs_body := Ok (b64_encode ciphertext) |}
    end.

Definition verify_signed_request (t : clocks) (req : node_request) (next : node_request → http_response)
    : M Z AuthState http_response :=
  let* st := getM in
  if negb (bool_decide (allowed_methods (config st) = []))
     && negb (existsb (str_eqb (ascii_upper (nr_method req))) (allowed_methods (config st))) then
    throwM METHOD_NOT_ALLOWED
  else
  let headers := nr_headers req in
  let* project_id := liftM (header_str HDR_PROJECT_ID headers) in
  match keys st !! project_id with
  | None => throwM UNAUTHORIZED
  | Some project_keys =>
  let* ts := liftM (header_str HDR_TIMESTAMP headers) in
  match parse_i64 ts with
  | None => throwM UNAUTHORIZED
  | Some ts_ms =>
  let* nonce := liftM (header_str HDR_NONCE headers) in
  let* signature_hex := liftM (header_str HDR_SIGNATURE headers) in
  match hex_strict signature_hex with
  | None => throwM UNAUTHORIZED
  | Some signature =>
  if skew (config st) <? Z.abs (now_millis t - ts_ms) then throwM UNAUTHORIZED
  else
  let '(fresh, cache) := check_and_insert nonce (cache_instant t) (replay_cache st) in
  do* modifyM (with_cache cache) in
  if negb fresh then throwM UNAUTHORIZED
  else
  match nr_body req with
  | None => throwM BAD_REQUEST
  | Some body_bytes =>
  let canon := node_canonical (nr_method req) (nr_target req) ts_ms nonce body_bytes in
  let expected := hmac_finalize (nk_signing_key project_keys) (utf8_encode canon) in
  if negb (bool_decide (expected = signature)) then throwM UNAUTHORIZED
  else
  let* allowed := (λ st', match rate_limiter st' with
                          | Some b => let '(ok, b') := try_consume (f64_of_Z 1) (limiter_instant t) b in
                                      (Ok ok, with_limiter b' st')
                          | None => (Ok true, st')
                          end) in
  if negb allowed then throwM TOO_MANY_REQUESTS
  else
  let resp := next {| nr_method := nr_method req; nr_target := nr_target req; nr_headers := nr_headers req;
                      nr_body := Some body_bytes |} in
  liftM (seal_response project_keys nonce ts_ms canon resp)
  end
  end
  end
  end.

(** [Err(status)] becomes an empty response with that status. *)
Definition respond (o : outcome Z http_response) : http_response :=
  match o with
  | Ok r => r
  | Throw status => {| rs_status := status; rs_statusText := []; rs_headers := []; rs_body := Ok [] |}
  end.
End Middleware.

(** ** The replay cache is well formed *)

Definition cache_wf (c : NonceCache) : Prop :=
  NoDup (order c) ∧ (∀ n, n ∈ order c ↔ is_Some (entries c !! n)) ∧
  (length (order c) ≤ Nat.max 1 (capacity c))%nat.

Lemma cache_size es ord :
  NoDup ord → (∀ n, n ∈ ord ↔ is_Some (es !! n)) → size (es : gmap jstr Z) = length ord.
Proof.
  intros Hnd Hdom. rewrite <- size_dom.
  replace (dom es) with (list_to_set ord : gset jstr).
  - by apply size_list_to_set.
  - apply set_eq. intros n. rewrite elem_of_list_to_set, elem_of_dom. apply Hdom.
Qed.

(** Popping the front and pushing a new nonce keep the two views equal. *)
Lemma dom_pop (es : gmap jstr Z) f rest :
  NoDup (f :: rest) → (∀ n, n ∈ f :: rest ↔ is_Some (es !! n)) →
  NoDup rest ∧ ∀ n, n ∈ rest ↔ is_Some (delete f es !! n).
Proof.
  intros [Hf Hnd]%NoDup_cons Hdom. split; [done|]. intros n. destruct (decide (n = f)) as [->|Hne].
  - rewrite lookup_delete_eq. split; [done | by intros [? ?]].
  - rewrite lookup_delete_ne by done. rewrite <- Hdom, elem_of_cons. naive_solver.
Qed.

Lemma dom_push (es : gmap jstr Z) ord n now :
  NoDup ord → (∀ x, x ∈ ord ↔ is_Some (es !! x)) → n ∉ ord →
  NoDup (ord ++ [n]) ∧ ∀ x, x ∈ ord ++ [n] ↔ is_Some (<[n := now]> es !! x).
Proof.
  intros Hnd Hdom Hn. split.
  - apply NoDup_app. split; [done|]. split; [set_solver | apply NoDup_singleton].
  - intros x. rewrite elem_of_app, list_elem_of_singleton, lookup_insert_is_Some, Hdom.
    destruct (decide (n = x)); naive_solver.
Qed.

Lemma new_NonceCache_wf cap t : cache_wf (new_NonceCache cap t).
Proof.
  split; [constructor|]. split; [|simpl; lia]. intros n. cbn [new_NonceCache order entries]. rewrite lookup_empty.
  split; [by intros ?%not_elem_of_nil | by intros [? ?]].
Qed.

Lemma evict_loop_wf now t es ord :
  NoDup ord → (∀ n, n ∈ ord ↔ is_Some (es !! n)) →
  let '(es', ord') := evict_loop now t es ord in
  NoDup ord' ∧ (∀ n, n ∈ ord' ↔ is_Some (es' !! n)) ∧ (length ord' ≤ length ord)%nat.
Proof.
  revert es. induction ord as [|f rest IH]; intros es Hnd Hdom; simpl; [done|].
  destruct (stale now t es f); [|done].
  destruct (dom_pop es f rest Hnd Hdom) as [Hnd' Hdom'].
  specialize (IH (delete f es) Hnd' Hdom'). destruct (evict_loop now t (delete f es) rest) as [es' ord'].
  destruct IH as (? & ? & ?). split; [done|]. split; [done | lia].
Qed.

Lemma evict_wf now c : cache_wf c → cache_wf (evict now c).
Proof.
  intros (Hnd & Hdom & Hlen). unfold evict.
  pose proof (evict_loop_wf now (ttl c) (entries c) (order c) Hnd Hdom) as He.
  destruct (evict_loop _ _ _ _) as [es ord]. destruct He as (? & ? & ?).
  split; [done|]. split; [done | simpl; lia].
Qed.

Lemma check_and_insert_wf n now c : cache_wf c → cache_wf (check_and_insert n now c).2.
Proof.
  intros Hc. unfold check_and_insert. apply (evict_wf now) in Hc. revert Hc.
  generalize (evict now c). clear c. intros c (Hnd & Hdom & Hlen).
  destruct (entries c !! n) as [ts|] eqn:Hn; [done|].
  assert (n ∉ order c) as Hnin by (rewrite Hdom, Hn; by intros [? ?]).
  rewrite (cache_size _ _ Hnd Hdom).
  destruct (Nat.leb_spec (capacity c) (length (order c))) as [Hfull|Hfree].
  - destruct (order c) as [|f rest] eqn:Hord.
    + destruct (dom_push (entries c) [] n now) as [? ?]; [constructor | done | done|].
      split; [done|]. split; [done | simpl; lia].
    + destruct (dom_pop _ _ _ Hnd Hdom) as [Hnd' Hdom']. apply not_elem_of_cons in Hnin as [_ Hnin].
      destruct (dom_push _ _ n now Hnd' Hdom' Hnin) as [? ?].
      split; [done|]. split; [done|]. simpl in *. rewrite length_app. simpl. lia.
  - destruct (dom_push _ _ n now Hnd Hdom Hnin) as [? ?].
    split; [done|]. split; [done|]. simpl. rewrite length_app. simpl. lia.
Qed.

(** ** What the cache remembers *)

(** [n] was accepted at [t], and at most [k] nonces after it. *)
Definition remembers (n : jstr) (t : Z) (k : nat) (c : NonceCache) : Prop :=
  ∃ l1 l2, order c = l1 ++ n :: l2 ∧ entries c !! n = Some t ∧ (length l2 ≤ k)%nat.

Lemma evict_loop_keeps now t es l1 n l2 ts :
  n ∉ l1 → es !! n = Some ts → duration_since now ts ≤ t →
  ∃ es' l1', evict_loop now t es (l1 ++ n :: l2) = (es', l1' ++ n :: l2) ∧ es' !! n = Some ts.
Proof.
  revert es. induction l1 as [|f l1 IH]; intros es Hn Hts Hd; simpl.
  - unfold stale. rewrite Hts. rewrite (proj2 (Z.ltb_ge _ _)) by lia. exists es, []. done.
  - apply not_elem_of_cons in Hn as [Hne Hn].
    destruct (stale now t es f).
    + apply IH; [done | by rewrite lookup_delete_ne | done].
    + exists es, (f :: l1). done.
Qed.

Lemma evict_keeps now n t k c :
  cache_wf c → duration_since now t ≤ ttl c → remembers n t k c → remembers n t k (evict now c).
Proof.
  intros (Hnd & _ & _) Hd (l1 & l2 & Hord & He & Hl).
  assert (n ∉ l1) as Hn1 by (rewrite Hord in Hnd; apply NoDup_app in Hnd as (_ & Hdisj & _); set_solver).
  destruct (evict_loop_keeps now (ttl c) (entries c) l1 n l2 t Hn1 He Hd) as (es' & l1' & Hev & He').
  unfold evict. rewrite Hord, Hev. exists l1', l2. done.
Qed.

Lemma insert_keeps now n n' t k c :
  cache_wf c → duration_since now t ≤ ttl c → (S k < capacity c)%nat →
  remembers n t k c → remembers n t (S k) (check_and_insert n' now c).2.
Proof.
  intros Hwf Hd Hk Hr. unfold check_and_insert.
  apply (evict_keeps now) in Hr; [|done..]. apply (evict_wf now) in Hwf.
  assert (capacity (evict now c) = capacity c) as Hcap
    by (unfold evict; by destruct (evict_loop _ _ _ _)).
  revert Hr Hwf Hcap. generalize (evict now c). intros d (l1 & l2 & Hord & He & Hl) Hwf Hcap.
  destruct (entries d !! n') as [ts|] eqn:Hn'; [exists l1, l2; split; [done|]; split; [done | lia]|].
  assert (n ≠ n') as Hne by congruence.
  destruct Hwf as (Hnd & Hdom & _). rewrite (cache_size _ _ Hnd Hdom).
  destruct (Nat.leb_spec (capacity d) (length (order d))) as [Hfull|_].
  - rewrite Hord in Hfull, Hnd |- *. rewrite length_app in Hfull. simpl in Hfull.
    destruct l1 as [|f l1]; simpl in *; [lia|]. apply NoDup_cons in Hnd as [Hf _].
    exists l1, (l2 ++ [n']). simpl. rewrite <- app_assoc. split; [done|].
    rewrite lookup_insert_ne, lookup_delete_ne by set_solver. rewrite length_app. simpl. split; [done | lia].
  - exists l1, (l2 ++ [n']). simpl. rewrite Hord, <- app_assoc. split; [done|].
    rewrite lookup_insert_ne by done. rewrite length_app. simpl. split; [done | lia].
Qed.

Lemma check_and_insert_config n now c :
  capacity (check_and_insert n now c).2 = capacity c ∧ ttl (check_and_insert n now c).2 = ttl c.
Proof.
  unfold check_and_insert, evict. destruct (evict_loop _ _ _ _) as [es ord]. simpl.
  destruct (es !! n); [done|]. case_if; [destruct ord|]; done.
Qed.

Lemma accepted_remembers n t c c1 : check_and_insert n t c = (true, c1) → remembers n t 0 c1.
Proof.
  unfold check_and_insert. destruct (entries (evict t c) !! n); [done|].
  destruct (if (_ <=? _)%nat then _ else _) as [es ord]. intros [= <-].
  exists ord, []. simpl. by rewrite lookup_insert_eq.
Qed.

(** Requests that reach the cache one after the other. *)
Definition feed (ops : list (jstr * Z)) (c : NonceCache) : NonceCache :=
  foldl (λ c op, (check_and_insert op.1 op.2 c).2) c ops.

Lemma feed_wf ops c : cache_wf c → cache_wf (feed ops c).
Proof.
  revert c. induction ops as [|op ops IH]; intros c Hc; [done|]. by apply IH, check_and_insert_wf.
Qed.

Lemma feed_config ops c : capacity (feed ops c) = capacity c ∧ ttl (feed ops c) = ttl c.
Proof.
  revert c. induction ops as [|op ops IH]; intros c; [done|]. simpl.
  destruct (IH (check_and_insert op.1 op.2 c).2) as [-> ->]. apply check_and_insert_config.
Qed.

Lemma feed_keeps n t ops k c :
  cache_wf c → (k + length ops < capacity c)%nat → Forall (λ op, duration_since op.2 t ≤ ttl c) ops →
  remembers n t k c → remembers n t (k + length ops) (feed ops c).
Proof.
  revert k c. induction ops as [|op ops IH]; intros k c Hwf Hlen Hops Hr; simpl in *.
  - by rewrite Nat.add_0_r.
  - apply Forall_cons in Hops as [Hop Hops].
    destruct (check_and_insert_config op.1 op.2 c) as [Hcap Httl].
    rewrite <- plus_n_Sm. change (S (k + length ops)) with (S k + length ops)%nat.
    apply IH; [by apply check_and_insert_wf | rewrite Hcap; lia | by rewrite Httl|].
    apply insert_keeps; [done | done | lia | done].
Qed.

Lemma remembered_rejected n t k now c :
  cache_wf c → duration_since now t ≤ ttl c → remembers n t k c → (check_and_insert n now c).1 = false.
Proof.
  intros Hwf Hd Hr. apply (evict_keeps now) in Hr as (l1 & l2 & _ & He & _); [|done..].
  unfold check_and_insert. by rewrite He.
Qed.

(** The order after any number of requests is a suffix of the old order followed
    by the new nonces, when these are new. *)
Lemma evict_suffix now c : ∃ l, order c = l ++ order (evict now c).
Proof.
  unfold evict. assert (∀ ord es, ∃ l, ord = l ++ (evict_loop now (ttl c) es ord).2) as Hl.
  { induction ord as [|f rest IH]; intros es; simpl; [by exists []|].
    case_if; [|by exists []]. destruct (IH (delete f es)) as [l Hl]. exists (f :: l). simpl. by f_equal. }
  destruct (Hl (order c) (entries c)) as [l Hl']. exists l.
  by destruct (evict_loop _ _ _ _) as [es ord].
Qed.

Lemma insert_new_suffix n now c :
  cache_wf c → n ∉ order c →
  (check_and_insert n now c).1 = true ∧ ∃ l, order c ++ [n] = l ++ order (check_and_insert n now c).2.
Proof.
  intros Hwf Hn. destruct (evict_suffix now c) as [l Hl]. apply (evict_wf now) in Hwf as (_ & Hdom & _).
  unfold check_and_insert. destruct (entries (evict now c) !! n) eqn:He.
  { destruct Hn. rewrite Hl, elem_of_app. right. apply Hdom. by rewrite He. }
  case_if; [destruct (order (evict now c)) as [|f rest] eqn:Hord|]; split; try done; simpl.
  - exists l. by rewrite Hl, app_nil_r.
  - exists (l ++ [f]). by rewrite Hl, <- !app_assoc.
  - exists l. by rewrite Hl, <- app_assoc.
Qed.

Lemma feed_new_suffix ops c :
  cache_wf c → NoDup ops.*1 → (∀ n, n ∈ ops.*1 → n ∉ order c) →
  ∃ l, order c ++ ops.*1 = l ++ order (feed ops c).
Proof.
  revert c. induction ops as [|[n now] ops IH]; intros c Hwf Hnd Hnew; simpl.
  - exists []. by rewrite app_nil_r.
  - apply NoDup_cons in Hnd as [Hn Hnd].
    destruct (insert_new_suffix n now c Hwf) as [_ [l Hl]]; [apply Hnew; by left|].
    destruct (IH (check_and_insert n now c).2) as [l' Hl']; [by apply check_and_insert_wf | done | |].
    + intros x Hx Hin. assert (x ∈ order c ++ [n]) as Hx' by (rewrite Hl, elem_of_app; by right).
      apply elem_of_app in Hx' as [Hx' | ->%list_elem_of_singleton]; [|done].
      by apply (Hnew x); [right|].
    + exists (l ++ l'). rewrite <- app_assoc, <- Hl'. rewrite app_assoc, <- Hl, <- app_assoc. done.
Qed.

(** ** How the middleware uses the cache *)

Lemma header_str_inv name hs v : header_str name hs = Ok v → obj_get name hs = Some v.
Proof. unfold header_str. destruct (obj_get name hs); [|done]. case_if; [|done]. by intros [= <-]. Qed.

Section CacheUse.
Context `{RustCrypto}.

(** Every run either fails before the cache is consulted, or consults it for the
    request's nonce and fails when the nonce is known. *)
Lemma verify_cases t req next st o st' :
  verify_signed_request t req next st = (o, st') →
  (∃ e, o = Throw e ∧ st' = st) ∨
  (∃ nonce, obj_get HDR_NONCE (nr_headers req) = Some nonce ∧
     replay_cache st' = (check_and_insert nonce (cache_instant t) (replay_cache st)).2 ∧
     ((check_and_insert nonce (cache_instant t) (replay_cache st)).1 = false → ∃ e, o = Throw e)).
Proof.
  unfold verify_signed_request, bindM, getM, throwM, liftM, modifyM.
  case_if; [intros [= <- <-]; by left; eexists|].
  destruct (header_str HDR_PROJECT_ID _) as [pid|e]; [|intros [= <- <-]; by left; eexists].
  destruct (keys st !! pid) as [k|]; [|intros [= <- <-]; by left; eexists].
  destruct (header_str HDR_TIMESTAMP _) as [ts|e]; [|intros [= <- <-]; by left; eexists].
  destruct (parse_i64 ts) as [ts_ms|]; [|intros [= <- <-]; by left; eexists].
  destruct (header_str HDR_NONCE _) as [nonce|e] eqn:Hn; [|intros [= <- <-]; by left; eexists].
  destruct (header_str HDR_SIGNATURE _) as [sig|e]; [|intros [= <- <-]; by left; eexists].
  destruct (hex_strict sig) as [sig_bytes|]; [|intros [= <- <-]; by left; eexists].
  case_if; [intros [= <- <-]; by left; eexists|].
  intros Hrun. right. exists nonce. split; [by apply header_str_inv|].
  destruct (check_and_insert nonce (cache_instant t) (replay_cache st)) as [fresh cache].
  destruct fresh; cbn [negb] in Hrun; [|injection Hrun as <- <-; (split; [done|]; intros; first [done | by eexists])].
  destruct (nr_body req) as [bs|]; [|injection Hrun as <- <-; (split; [done|]; intros; first [done | by eexists])].
  destruct (negb (bool_decide (hmac_finalize _ _ = _))); [injection Hrun as <- <-; (split; [done|]; intros; first [done | by eexists])|].
  cbn [rate_limiter with_cache] in Hrun. destruct (rate_limiter st) as [b|].
  - destruct (try_consume _ _ b) as [ok b']. destruct ok; cbn [negb] in Hrun; injection Hrun as <- <-; (split; [done|]; intros; first [done | by eexists]).
  - cbn [negb] in Hrun. injection Hrun as <- <-; (split; [done|]; intros; first [done | by eexists]).
Qed.

Definition serve (next : node_request → http_response) (log : list (clocks * node_request)) (st : AuthState) : AuthState :=
  foldl (λ st rq, (verify_signed_request rq.1 rq.2 next st).2) st log.

Lemma serve_keeps next log n t k st :
  cache_wf (replay_cache st) → (k + length log < capacity (replay_cache st))%nat →
  Forall (λ rq, duration_since (cache_instant rq.1) t ≤ ttl (replay_cache st)) log →
  remembers n t k (replay_cache st) →
  let c := replay_cache (serve next log st) in
  cache_wf c ∧ ttl c = ttl (replay_cache st) ∧ remembers n t (k + length log) c.
Proof.
  revert k st. induction log as [|[tr rq] log IH]; intros k st Hwf Hlen Hlog Hr; simpl in *.
  - by rewrite Nat.add_0_r.
  - apply Forall_cons in Hlog as [Hop Hlog].
    destruct (verify_signed_request tr rq next st) as [o st'] eqn:Hv. simpl.
    rewrite <- plus_n_Sm. change (S (k + length log)) with (S k + length log)%nat.
    apply verify_cases in Hv as [(e & _ & ->) | (nonce & _ & Hc & _)].
    + apply IH; [done | lia | done|]. destruct Hr as (l1 & l2 & ? & ? & ?). exists l1, l2. split; [done|]. split; [done | lia].
    + destruct (check_and_insert_config nonce (cache_instant tr) (replay_cache st)) as [Hcap Httl].
      rewrite <- Hc in Hcap, Httl. rewrite <- Httl.
      apply IH; [rewrite Hc; by apply check_and_insert_wf | lia | by rewrite Httl|].
      rewrite Hc. apply insert_keeps; [done | done | lia | done].
Qed.

(** C20 Replay protection: once a request was accepted, no request that carries its
    nonce gets past the middleware within the cache's time to live, whatever
    other requests arrive in between, as long as they are fewer than the cache's
    capacity. *)
Theorem replay_rejected (next : node_request → http_response) (st st1 : AuthState) (t t' : clocks)
    (req req' : node_request) (resp : http_response) (nonce : jstr) (log : list (clocks * node_request)) :
  cache_wf (replay_cache st) →
  verify_signed_request t req next st = (Ok resp, st1) →
  obj_get HDR_NONCE (nr_headers req) = Some nonce → obj_get HDR_NONCE (nr_headers req') = Some nonce →
  (length log < capacity (replay_cache st))%nat →
  Forall (λ rq, duration_since (cache_instant rq.1) (cache_instant t) ≤ ttl (replay_cache st)) log →
  duration_since (cache_instant t') (cache_instant t) ≤ ttl (replay_cache st) →
  ∃ status, (verify_signed_request t' req' next (serve next log st1)).1 = Throw status.
Proof.
  intros Hwf Hv Hn Hn' Hlen Hlog Ht'.
  apply verify_cases in Hv as [(e & ? & _) | (n & Hn0 & Hc & Hfail)]; [done|].
  assert (n = nonce) as -> by congruence.
  destruct (check_and_insert nonce (cache_instant t) (replay_cache st)) as [[|] c1] eqn:Hci; simpl in *;
    [|destruct Hfail as [? ?]; done].
  pose proof (check_and_insert_wf nonce (cache_instant t) _ Hwf) as Hwf1.
  pose proof (check_and_insert_config nonce (cache_instant t) (replay_cache st)) as [Hcap Httl].
  rewrite Hci in Hwf1, Hcap, Httl. simpl in *. apply accepted_remembers in Hci. rewrite <- Hc in *.
  destruct (serve_keeps next log nonce (cache_instant t) 0 st1 Hwf1) as (Hwf2 & Httl2 & Hr2);
    [simpl; lia | by rewrite Httl | done|].
  destruct (verify_signed_request t' req' next (serve next log st1)) as [o st2] eqn:Hv2. simpl.
  apply verify_cases in Hv2 as [(e & -> & _) | (n2 & Hn2 & _ & Hrej)]; [by exists e|].
  assert (n2 = nonce) as -> by congruence.
  apply Hrej. eapply remembered_rejected; [done | | exact Hr2]. rewrite Httl2, Httl. done.
Qed.
End CacheUse.

(** ** Client and node agree *)

Lemma parse_i64_Z_to_str z : 0 ≤ z < 2 ^ 63 → parse_i64 (Z_to_str z) = Some z.
Proof.
  intros Hz. unfold Z_to_str. rewrite (proj2 (Z.ltb_ge z 0)) by lia.
  pose proof (digits_value z ltac:(lia)) as Hv. pose proof (digits_nonempty z) as Hne.
  pose proof (digits_digit z) as Hd. destruct (digits z) as [|c ds]; [done|].
  assert (forallb is_digit (c :: ds) = true) as Hall.
  { apply forallb_forall. intros x Hx. rewrite Forall_forall in Hd. by apply Hd, list_elem_of_In. }
  assert (c ≠ 45 ∧ c ≠ 43) as [H45 H43].
  { apply Forall_cons in Hd as [Hc _]. unfold is_digit in Hc. zbool. lia. }
  assert (parse_i64 (c :: ds)
    = (if forallb is_digit (c :: ds) then Some (digits_val (c :: ds)) else None)
        ≫= λ z, if (- 2 ^ 63 <=? z) && (z <? 2 ^ 63) then Some z else None) as ->.
  { unfold parse_i64. destruct c as [|p|p]; try done. repeat (destruct p as [p|p|]; try done; try lia). }
  rewrite Hall, Hv. cbn [mbind option_bind].
  rewrite (proj2 (Z.leb_le _ _)), (proj2 (Z.ltb_lt _ _)) by lia. done.
Qed.

Definition visible (s : jstr) : Prop := Forall (λ c, 32 ≤ c < 127) s.

Lemma header_str_visible name hs v :
  obj_get name hs = Some v → visible v → header_str name hs = Ok v.
Proof.
  intros Hg Hv. unfold header_str. rewrite Hg.
  assert (forallb (λ c, ((32 <=? c) && (c <? 127)) || (c =? 9)) v = true) as ->; [|done].
  apply forallb_forall. intros c Hc. apply list_elem_of_In in Hc. unfold visible in Hv. rewrite Forall_forall in Hv.
  specialize (Hv c Hc). rewrite (proj2 (Z.leb_le _ _)), (proj2 (Z.ltb_lt _ _)) by lia. done.
Qed.

Lemma hex_visible bs : byte_list bs → visible (hex_encode bs).
Proof.
  intros Hb. eapply Forall_impl; [by apply hex_encode_lower|]. intros c. unfold is_hex_lower.
  rewrite orb_true_iff, !andb_true_iff, !Z.leb_le. lia.
Qed.

Lemma decimal_visible z : visible (Z_to_str z).
Proof.
  eapply Forall_impl; [apply Z_to_str_chars|]. intros c [Hc| ->]; [|lia].
  unfold is_digit in Hc. zbool. lia.
Qed.

Section Agreement.
Context `{RustCrypto}.

(** Both sides derive the same keys, and the same response nonce. *)
Lemma derive_keys_agree secret pid k :
  byte_list secret → length secret = 32%nat → deriveKeys (hex_encode secret) = Ok k →
  derive_keys secret pid
  = {| nk_project_id := pid; nk_signing_key := signing_key k; nk_response_key := response_key k |}.
Proof.
  intros Hb Hl Hk. destruct (deriveKeys_ok _ _ Hk) as (Hs & Hr & _ & _ & Happ).
  rewrite hex_decode_encode in Happ by done. unfold derive_keys. rewrite hkdf_expand_rfc5869 by lia.
  rewrite <- Happ. rewrite take_app_exact, drop_app_exact by done.
  by rewrite (take_ge (response_key k)) by lia.
Qed.

Lemma response_nonce_agree key nonce ts : derive_response_nonce key nonce ts = deriveResponseNonce key nonce ts.
Proof.
  unfold derive_response_nonce, deriveResponseNonce. rewrite hkdf_expand_rfc5869 by lia.
  by rewrite <- hkdf_is_rfc5869 by lia.
Qed.

(** The lossy reading of the body's bytes signs to the same octets. *)
Lemma canonical_agree method path ts nonce body :
  ascii_str method → ascii_str path → ascii_str nonce → unit_str body →
  utf8_encode (node_canonical method path ts nonce (utf8_encode body))
  = utf8_encode (canonical method path ts nonce body).
Proof.
  intros Hm Hp Hn Hb.
  change (node_canonical method path ts nonce (utf8_encode body))
    with (canonical method path ts nonce (utf8_decode (utf8_encode body))).
  rewrite !canonical_utf8 by done. by rewrite utf8_encode_decode_encode.
Qed.

(** A request with the headers of [buildAuthHeaders] passes every check. *)
Lemma verify_accepts t st method path hs body next k pid ts nonce key :
  allowed_methods (config st) = [] ∨ ascii_upper method ∈ allowed_methods (config st) →
  obj_get HDR_PROJECT_ID hs = Some pid → visible pid → keys st !! pid = Some k → nk_signing_key k = key →
  obj_get HDR_TIMESTAMP hs = Some (Z_to_str ts) → 0 ≤ ts < 2 ^ 63 →
  obj_get HDR_NONCE hs = Some nonce → visible nonce →
  obj_get HDR_SIGNATURE hs
  = Some (hex_encode (hmac_sha256 key (utf8_encode (node_canonical method path ts nonce body)))) →
  Z.abs (now_millis t - ts) ≤ skew (config st) →
  (check_and_insert nonce (cache_instant t) (replay_cache st)).1 = true →
  rate_limiter st = None →
  let req := {| nr_method := method; nr_target := path; nr_headers := hs; nr_body := Some body |} in
  verify_signed_request t req next st
  = (seal_response k nonce ts (node_canonical method path ts nonce body) (next req),
     with_cache (check_and_insert nonce (cache_instant t) (replay_cache st)).2 st).
Proof.
  intros Hal Hpid Hvp Hk Hkey Hts Hrange Hn Hvn Hsig Hskew Hfresh Hlim req.
  unfold verify_signed_request, bindM, getM. cbn [nr_method nr_headers nr_target nr_body req].
  replace (negb (bool_decide (allowed_methods (config st) = []))
           && negb (existsb (str_eqb (ascii_upper method)) (allowed_methods (config st)))) with false.
  2: { destruct Hal as [Hal|Hal]; [by rewrite Hal|]. symmetry. apply andb_false_intro2, negb_false_iff.
       apply existsb_exists. exists (ascii_upper method). split; [by apply list_elem_of_In | apply str_eqb_refl]. }
  unfold liftM at 1. rewrite (header_str_visible _ _ _ Hpid Hvp), Hk.
  unfold liftM at 1. rewrite (header_str_visible _ _ _ Hts (decimal_visible ts)), parse_i64_Z_to_str by done.
  unfold liftM at 1. rewrite (header_str_visible _ _ _ Hn Hvn).
  unfold liftM at 1. rewrite (header_str_visible _ _ _ Hsig (hex_visible _ (hmac_bytes _ _))).
  rewrite hex_strict_encode by apply hmac_bytes. rewrite (proj2 (Z.ltb_ge _ _)) by lia.
  destruct (check_and_insert nonce (cache_instant t) (replay_cache st)) as [fresh cache].
  simpl in Hfresh. subst fresh. unfold modifyM. cbn [negb].
  rewrite hmac_finalize_rfc2104, Hkey, bool_decide_true by done. cbn [negb].
  unfold with_cache at 1. cbn [rate_limiter]. rewrite Hlim. reflexivity.
Qed.
End Agreement.

(** ** Nonces are recorded before signatures are checked *)

(** A request anyone can make who has seen a project id: an empty signature. *)
Definition forged (pid : jstr) (ts : Z) (nonce : jstr) : node_request :=
  {| nr_method := js "GET"; nr_target := js "/";
     nr_headers := [(HDR_PROJECT_ID, pid); (HDR_TIMESTAMP, Z_to_str ts); (HDR_NONCE, nonce); (HDR_SIGNATURE, [])];
     nr_body := Some [] |}.

Section Forgery.
Context `{RustCrypto}.

Lemma verify_forged t st next k pid ts nonce :
  allowed_methods (config st) = [] → visible pid → keys st !! pid = Some k → 0 ≤ ts < 2 ^ 63 → visible nonce →
  Z.abs (now_millis t - ts) ≤ skew (config st) →
  verify_signed_request t (forged pid ts nonce) next st
  = (Throw UNAUTHORIZED, with_cache (check_and_insert nonce (cache_instant t) (replay_cache st)).2 st).
Proof.
  intros Hal Hvp Hk Hts Hvn Hskew. unfold verify_signed_request, bindM, getM, forged.
  cbn [nr_method nr_headers nr_target nr_body]. rewrite Hal, (bool_decide_true ([] = [])) by done.
  cbn [negb andb].
  set (hs := [_; _; _; _]).
  assert (obj_get HDR_PROJECT_ID hs = Some pid ∧ obj_get HDR_TIMESTAMP hs = Some (Z_to_str ts) ∧
          obj_get HDR_NONCE hs = Some nonce ∧ obj_get HDR_SIGNATURE hs = Some []) as (Hh1 & Hh2 & Hh3 & Hh4) by done.
  unfold liftM. rewrite (header_str_visible _ _ _ Hh1 Hvp), Hk.
  rewrite (header_str_visible _ _ _ Hh2 (decimal_visible ts)), parse_i64_Z_to_str by done.
  rewrite (header_str_visible _ _ _ Hh3 Hvn), (header_str_visible _ _ [] Hh4 (Forall_nil_2 _)).
  cbn [hex_strict]. rewrite (proj2 (Z.ltb_ge _ _)) by lia.
  destruct (check_and_insert nonce (cache_instant t) (replay_cache st)) as [fresh cache].
  unfold modifyM. destruct fresh; [|done]. cbn [negb].
  rewrite hmac_finalize_rfc2104, (bool_decide_false (hmac_sha256 _ _ = [])); [done|].
  intros Hh%(f_equal length). by rewrite hmac_length in Hh.
Qed.

Lemma serve_forged t st next k pid ts names :
  allowed_methods (config st) = [] → visible pid → keys st !! pid = Some k → 0 ≤ ts < 2 ^ 63 → Forall visible names →
  Z.abs (now_millis t - ts) ≤ skew (config st) →
  replay_cache (serve next (map (λ m, (t, forged pid ts m)) names) st)
  = feed (map (λ m, (m, cache_instant t)) names) (replay_cache st).
Proof.
  intros Hal Hvp Hk Hts Hvn Hskew. revert st Hal Hk Hskew.
  induction Hvn as [|m names Hm _ IH]; intros st Hal Hk Hskew; [done|]. simpl.
  rewrite (verify_forged _ _ _ _ _ _ _ Hal Hvp Hk Hts Hm Hskew). by apply IH.
Qed.

(** The cache records a nonce before the signature is checked: as many forged
    requests as the cache holds, each of them refused, push every recorded nonce
    out, and a nonce that was accepted before is accepted again. *)
Theorem forged_requests_flush_cache (next : node_request → http_response) (st : AuthState) (t : clocks)
    (k : NodeKeys) (pid : jstr) (ts : Z) (nonce : jstr) (names : list jstr) :
  cache_wf (replay_cache st) → allowed_methods (config st) = [] → visible pid → keys st !! pid = Some k →
  0 ≤ ts < 2 ^ 63 → Z.abs (now_millis t - ts) ≤ skew (config st) →
  NoDup names → Forall visible names → (∀ m, m ∈ names → m ∉ order (replay_cache st)) → nonce ∉ names →
  length names = capacity (replay_cache st) → (0 < capacity (replay_cache st))%nat →
  (∀ m st', m ∈ names → config st' = config st → keys st' = keys st →
     (verify_signed_request t (forged pid ts m) next st').1 = Throw UNAUTHORIZED) ∧
  (check_and_insert nonce (cache_instant t)
     (replay_cache (serve next (map (λ m, (t, forged pid ts m)) names) st))).1 = true.
Proof.
  intros Hwf Hal Hvp Hk Hts Hskew Hnd Hvn Hnew Hn Hlen Hcap. split.
  - intros m st' Hm Hc Hks. rewrite Forall_forall in Hvn.
    rewrite (verify_forged t st' next k pid ts m); [done | | done | | done | by apply Hvn |]; by rewrite ?Hc, ?Hks.
  - rewrite (serve_forged t st next k pid ts names) by done.
    set (ops := map _ names). assert (ops.*1 = names) as Hops
      by (unfold ops; rewrite <- list_fmap_compose; apply list_fmap_id).
    destruct (feed_new_suffix ops (replay_cache st)) as [l Hl]; [done | by rewrite Hops | by rewrite Hops|].
    pose proof (feed_wf ops _ Hwf) as Hwf'. destruct (feed_config ops (replay_cache st)) as [Hcap' _].
    apply insert_new_suffix; [done|]. intros Hin. apply Hn.
    assert (length (order (feed ops (replay_cache st))) ≤ length names)%nat as Hle
      by (destruct Hwf' as (_ & _ & Hl'); rewrite Hcap' in Hl'; lia).
    rewrite Hops in Hl. pose proof (f_equal length Hl) as Hlen2. rewrite !length_app in Hlen2.
    assert (∃ l', names = l' ++ order (feed ops (replay_cache st))) as [l' Hl']; [|rewrite Hl', elem_of_app; by right].
    exists (drop (length (order (replay_cache st))) l).
    apply (f_equal (drop (length (order (replay_cache st))))) in Hl.
    rewrite drop_app_exact in Hl by done. rewrite Hl at 1. rewrite drop_app_le; [done | lia].
Qed.
End Forgery.

(** ** End to end *)

(** A message as it reaches the node when the client's URL is [origin ++ path]:
    the URL parser leaves the paths the client builds as they are. *)
Definition deliver (origin : jstr) (rq : http_request) : node_request :=
  {| nr_method := rq_method rq; nr_target := drop (length origin) (rq_url rq);
     nr_headers := rq_headers rq; nr_body := Some (body_bytes (rq_body rq)) |}.

Section EndToEnd.
Context `{Engine} `{Env} `{RustCrypto}.

Definition request_ts (s : sdk) : Z := clock (ticks (wd s)).
Definition request_nonce (s : sdk) : jstr := hex_encode (entropy (draws (wd s)) 16).

(** Client and node are set up for each other: the client knows the node is in
    prod mode and holds the keys of the project's secret, the node knows the
    project; the clocks agree up to the skew, the next nonce is new to the node
    and no rate limit is configured. *)
Record paired (s : sdk) (secret : bytes) (pid : jstr) (k : DerivedKeys) (st : AuthState) (t : clocks) (method : jstr)
    : Prop := {
  pr_mode : detectedNodeMode (client s) = Some prod;
  pr_keys : derivedKeys (client s) = Some k;
  pr_pid : projectId (client s) = Some pid;
  pr_pid_nonempty : pid ≠ [];
  pr_pid_visible : visible pid;
  pr_secret : byte_list secret ∧ length secret = 32%nat;
  pr_derived : deriveKeys (hex_encode secret) = Ok k;
  pr_clock : 0 < request_ts s < 2 ^ 63;
  pr_skew : Z.abs (now_millis t - request_ts s) ≤ skew (config st);
  pr_method : ascii_str method ∧ (allowed_methods (config st) = [] ∨ ascii_upper method ∈ allowed_methods (config st));
  pr_registered : keys st !! pid = Some (derive_keys secret pid);
  pr_fresh : (check_and_insert (request_nonce s) (cache_instant t) (replay_cache st)).1 = true;
  pr_unlimited : rate_limiter st = None;
}.

(** A response of the middleware that the client's keys open. *)
Definition sealed_for (k : DerivedKeys) (ts : Z) (nonce canon : jstr) (plaintext : bytes) (resp : http_response) : Prop :=
  let rn := deriveResponseNonce (response_key k) nonce ts in
  rs_ok resp = true ∧
  header (js "x-response-aead") resp = Some (js "XChaCha20Poly1305") ∧
  header (js "x-response-nonce") resp = Some (hex_encode rn) ∧ str_truthy (Some (hex_encode rn)) = true ∧
  rs_text resp = Ok (b64_encode (aead_seal (response_key k) rn plaintext (utf8_encode canon))) ∧
  ∀ hdr, hdr = Some (hex_encode rn) →
    decryptResponseToBuffer (b64_encode (aead_seal (response_key k) rn plaintext (utf8_encode canon)))
      (response_key k) nonce ts canon hdr = Ok plaintext.

Lemma seal_response_sealed nk k ts nonce canon ncanon resp plaintext :
  nk_response_key nk = response_key k → length (response_key k) = 32%nat →
  utf8_encode ncanon = utf8_encode canon →
  rs_ok resp = true → rs_body resp = Ok plaintext → byte_list plaintext →
  ∃ resp', seal_response nk nonce ts ncanon resp = Ok resp' ∧ sealed_for k ts nonce canon plaintext resp'.
Proof.
  intros Hkr Hlen Hcanon Hok Hbody Hpl. unfold seal_response. rewrite Hok, Hbody. cbn [negb].
  eexists. split; [done|]. unfold sealed_for. set (rn := deriveResponseNonce (response_key k) nonce ts).
  rewrite Hkr, response_nonce_agree, Hcanon, xchacha_encrypt_interop. fold rn.
  assert (length rn = 24%nat) as Hrl by apply deriveResponseNonce_length.
  assert (byte_list rn) as Hrb by apply hkdf_bytes.
  split; [exact Hok|]. unfold header. cbn [rs_headers].
  rewrite obj_get_set. split; [done|]. rewrite obj_get_set_ne by done. rewrite obj_get_set. split; [done|].
  split; [pose proof (length_hex_encode rn); by destruct (hex_encode rn); simpl in *; [lia|]|].
  split.
  - unfold rs_text. cbn [rs_body outcome_bind].
    by rewrite utf8_text_ascii by (apply b64_encode_ascii, aead_seal_bytes; done).
  - intros hdr ->.
    pose proof (decrypt_sealed (response_key k) nonce ts canon (Some (hex_encode rn)) plaintext Hlen Hpl) as Hd.
    rewrite response_nonce_hex in Hd by done. by apply Hd.
Qed.

(** The node's side of a signed message. *)
Lemma node_serves s secret pid k st t method path bodyStr bs headers next resp plaintext :
  paired s secret pid k st t method →
  let ts := request_ts s in
  let nonce := request_nonce s in
  let hs := obj_assign headers (auth_headers pid (signing_key k) method path bodyStr ts nonce) in
  let req := {| nr_method := method; nr_target := path; nr_headers := hs; nr_body := Some bs |} in
  utf8_encode (node_canonical method path ts nonce bs) = utf8_encode (canonical method path ts nonce bodyStr) →
  next req = resp → rs_ok resp = true → rs_body resp = Ok plaintext → byte_list plaintext →
  ∃ resp', (verify_signed_request t req next st).1 = Ok resp' ∧
           sealed_for k ts nonce (canonical method path ts nonce bodyStr) plaintext resp'.
Proof.
  intros Hp ts nonce hs req Hcanon Hnext Hok Hbody Hpl. destruct Hp.
  destruct pr_secret0 as [Hsb Hsl]. destruct pr_method0 as [Hmeth Hal].
  destruct (deriveKeys_ok _ _ pr_derived0) as (_ & Hrl & _ & _ & _).
  rewrite (derive_keys_agree _ _ _ Hsb Hsl pr_derived0) in pr_registered0.
  destruct (auth_headers_get pid (signing_key k) method path bodyStr ts nonce headers) as (Hh1 & Hh2 & Hh3 & Hh4).
  fold hs in Hh1, Hh2, Hh3, Hh4. rewrite <- Hcanon in Hh4.
  unfold req. rewrite (verify_accepts t st method path hs bs next _ _ ts nonce (signing_key k) Hal Hh1 pr_pid_visible0
    pr_registered0 eq_refl Hh2 ltac:(unfold ts; lia) Hh3 (hex_visible _ (entropy_bytes _ _)) Hh4 pr_skew0 pr_fresh0
    pr_unlimited0).
  fold req. rewrite Hnext. cbn [fst]. by apply seal_response_sealed.
Qed.

(** C4 Client and node understand each other: in prod mode, a request of a client
    whose secret is the project's is accepted by the node's middleware, reaches
    the handler with its method, path and body unchanged, and the JSON value the
    handler answers is the value the SDK returns, through signing, replay check,
    encryption under the derived nonce, base64 and decryption. *)
Theorem prod_request_end_to_end (method path : jstr) (body : value) (s : sdk) (secret : bytes) (pid : jstr)
    (k : DerivedKeys) (st : AuthState) (t : clocks) (next : node_request → http_response)
    (resp : http_response) (plaintext : bytes) (v : value) :
  paired s secret pid k st t method → ascii_str path → unit_str (body_text body) →
  (∀ rq, server (sent (wd s)) rq
         = Ok (respond (verify_signed_request t (deliver (rpcUrl (client s)) rq) next st).1)) →
  (∀ hs, next {| nr_method := method; nr_target := path; nr_headers := hs;
                 nr_body := Some (utf8_encode (body_text body)) |} = resp) →
  rs_ok resp = true → rs_body resp = Ok plaintext → byte_list plaintext →
  utf8_decode plaintext = json_text v → json_data v →
  ∃ s', request method path body [] s = (Ok v, s').
Proof.
  intros Hpair Hpath Hbody Hsrv Hnext Hok Hrb Hpl Hdec Hv.
  destruct pid as [|p pid]; [by destruct (pr_pid_nonempty _ _ _ _ _ _ _ Hpair)|].
  pose proof (request_signed method path body [] s k p pid (pr_mode _ _ _ _ _ _ _ Hpair)
    (pr_keys _ _ _ _ _ _ _ Hpair) (pr_pid _ _ _ _ _ _ _ Hpair)) as Hrun. cbv zeta in Hrun.
  fold (request_ts s) (request_nonce s) in Hrun. rewrite Hsrv in Hrun.
  unfold deliver, rpc_message in Hrun. cbn [rq_method rq_url rq_headers rq_body] in Hrun.
  rewrite drop_app_exact in Hrun by done.
  replace (body_bytes (match body_text body with [] => None | _ => Some (BodyText (body_text body)) end))
    with (utf8_encode (body_text body)) in Hrun by by destruct (body_text body).
  destruct (node_serves s secret (p :: pid) k st t method path (body_text body) (utf8_encode (body_text body))
    (obj_assign json_content []) next resp plaintext Hpair) as (resp' & Hver & Hsealed);
    [apply canonical_agree; [apply (pr_method _ _ _ _ _ _ _ Hpair) | done | apply hex_encode_ascii, entropy_bytes | done]
    | apply Hnext | done | done | done |].
  rewrite Hver in Hrun. cbn [respond] in Hrun. destruct Hsealed as (Hok' & Ha & Hn & Htr & Ht & Hopen).
  eexists. rewrite Hrun. f_equal. unfold handle_response. rewrite Ht, Hok'. cbn [outcome_bind].
  unfold decode_response. pose proof (pr_clock _ _ _ _ _ _ _ Hpair) as Hts.
  rewrite (auth_context_signed _ k) by (apply (pr_keys _ _ _ _ _ _ _ Hpair) || apply nonce_nonempty || lia).
  rewrite Ha, Hn, bool_decide_true, Htr by done. cbn [andb]. unfold decryptResponse.
  rewrite Hopen by done. cbn [outcome_bind]. by rewrite Hdec, json_parse_text.
Qed.

(** Downloads are exact: in prod mode the client returns the very bytes the
    node's handler produced for the blob, whatever they are. *)
Theorem prod_download_end_to_end (blobId : jstr) (s : sdk) (secret : bytes) (pid : jstr)
    (k : DerivedKeys) (st : AuthState) (t : clocks) (next : node_request → http_response)
    (resp : http_response) (blob : bytes) :
  paired s secret pid k st t (js "GET") → ascii_str blobId →
  (∀ rq, server (sent (wd s)) rq
         = Ok (respond (verify_signed_request t (deliver (rpcUrl (client s)) rq) next st).1)) →
  (∀ hs, next {| nr_method := js "GET"; nr_target := js "/blobs/" ++ blobId; nr_headers := hs;
                 nr_body := Some [] |} = resp) →
  rs_ok resp = true → rs_body resp = Ok blob → byte_list blob →
  ∃ s', downloadBlob blobId s = (Ok blob, s').
Proof.
  intros Hpair Hid Hsrv Hnext Hok Hrb Hpl.
  destruct pid as [|p pid]; [by destruct (pr_pid_nonempty _ _ _ _ _ _ _ Hpair)|].
  assert (ascii_str (js "/blobs/" ++ blobId)) as Hpath by (apply Forall_app; split; [decide_closed | done]).
  destruct (node_serves s secret (p :: pid) k st t (js "GET") (js "/blobs/" ++ blobId) [] [] [] next resp blob Hpair)
    as (resp' & Hver & Hsealed);
    [apply (canonical_agree _ _ _ _ []); [decide_closed | done | apply hex_encode_ascii, entropy_bytes | constructor]
    | apply Hnext | done | done | done |].
  destruct Hsealed as (Hok' & Ha & Hn & Htr & Ht & Hopen).
  pose proof (pr_clock _ _ _ _ _ _ _ Hpair) as Hts.
  eexists. rewrite (downloadBlob_signed blobId s k p pid resp' (pr_mode _ _ _ _ _ _ _ Hpair)
    (pr_keys _ _ _ _ _ _ _ Hpair) (pr_pid _ _ _ _ _ _ _ Hpair)); [|unfold request_ts in Hts; lia | | done].
  - f_equal. unfold open_blob. rewrite Ha, Hn, bool_decide_true, Htr, Ht by done. cbn [outcome_bind]. by apply Hopen.
  - rewrite Hsrv. unfold deliver, blob_message. cbn [rq_method rq_url rq_headers rq_body body_bytes].
    rewrite drop_app_exact by done. fold (request_ts s) (request_nonce s). by rewrite Hver.
Qed.

(** Uploads are exact: in prod mode any byte string, valid UTF-8 or not, passes
    the node's signature check and reaches the handler unchanged, and the
    handler's JSON answer is what [uploadBlob] returns. *)
Theorem prod_upload_end_to_end (data : bytes) (s : sdk) (secret : bytes) (pid : jstr)
    (k : DerivedKeys) (st : AuthState) (t : clocks) (next : node_request → http_response)
    (resp : http_response) (plaintext : bytes) (v : value) :
  paired s secret pid k st t (js "POST") →
  (∀ rq, server (sent (wd s)) rq
         = Ok (respond (verify_signed_request t (deliver (rpcUrl (client s)) rq) next st).1)) →
  (∀ hs, next {| nr_method := js "POST"; nr_target := js "/blobs"; nr_headers := hs;
                 nr_body := Some data |} = resp) →
  rs_ok resp = true → rs_body resp = Ok plaintext → byte_list plaintext →
  utf8_decode plaintext = json_text v → json_data v →
  ∃ s', uploadBlob data None s = (Ok v, s').
Proof.
  intros Hpair Hsrv Hnext Hok Hrb Hpl Hdec Hv.
  destruct pid as [|p pid]; [by destruct (pr_pid_nonempty _ _ _ _ _ _ _ Hpair)|].
  destruct (node_serves s secret (p :: pid) k st t (js "POST") (js "/blobs") (utf8_decode data) data [] next resp
    plaintext Hpair) as (resp' & Hver & Hsealed); [done | apply Hnext | done | done | done|].
  destruct Hsealed as (Hok' & Ha & Hn & Htr & Ht & Hopen).
  pose proof (pr_clock _ _ _ _ _ _ _ Hpair) as Hts.
  eexists. rewrite (uploadBlob_signed data s k p pid resp' (pr_mode _ _ _ _ _ _ _ Hpair)
    (pr_keys _ _ _ _ _ _ _ Hpair) (pr_pid _ _ _ _ _ _ _ Hpair)); [|unfold request_ts in Hts; lia | | done].
  - f_equal. unfold open_upload. rewrite Ht. cbn [outcome_bind]. rewrite Ha, Hn, bool_decide_true, Htr by done.
    unfold decryptResponse. rewrite Hopen by done. cbn [outcome_bind]. by rewrite Hdec, json_parse_text.
  - rewrite Hsrv. unfold deliver, blob_message. cbn [rq_method rq_url rq_headers rq_body body_bytes].
    rewrite drop_app_exact by done. fold (request_ts s) (request_nonce s). by rewrite Hver.
Qed.
End EndToEnd.

(** ** A concrete node and client *)

Lemma rfc5869_expand (salt : option bytes) (ikm info : bytes) (n : nat) :
  (n ≤ 255 * 32)%nat → hkdf_rfc5869 ikm salt info n = hkdf_rfc5869 ikm salt info n.
Proof. done. Qed.

Lemma mac_interop (key nonce msg aad : bytes) :
  Models.mac_seal key nonce msg aad = @aead_seal Models.mac_aead key nonce msg aad.
Proof. reflexivity. Qed.

Definition rust_crypto : @RustCrypto Models.mac_aead := {|
  hkdf_expand := λ salt ikm info n, hkdf_rfc5869 ikm salt info n;
  hkdf_expand_rfc5869 := rfc5869_expand;
  hmac_finalize := hmac_sha256;
  hmac_finalize_rfc2104 := λ _ _, eq_refl;
  xchacha_encrypt := Models.mac_seal;
  xchacha_encrypt_interop := mac_interop;
|}.

Definition demo_secret : bytes := replicate 32 9.

Definition demo_keys : DerivedKeys :=
  match deriveKeys (hex_encode demo_secret) with
  | Ok k => k
  | Throw _ => {| signing_key := []; response_key := [] |}
  end.

Lemma demo_keys_ok : deriveKeys (hex_encode demo_secret) = Ok demo_keys.
Proof.
  destruct (deriveKeys_hex demo_secret) as [k Hk]; [decide_closed | reflexivity|].
  unfold demo_keys. by rewrite Hk.
Qed.

Definition demo_config : AuthConfig :=
  {| skew := 300000; nonce_ttl := 600000000000; nonce_capacity := 1000; allowed_methods := [] |}.

Definition demo_node : AuthState :=
  @upsert_project _ rust_crypto (js "p1") demo_secret (new_AuthState demo_config [] 0 0).

Definition demo_clocks : clocks :=
  {| now_millis := 1700000000500; cache_instant := 0; limiter_instant := 0 |}.

Definition demo_answer : http_response :=
  {| rs_status := 200; rs_statusText := js "OK"; rs_headers := []; rs_body := Ok (js "[]") |}.

Definition demo_handler (_ : node_request) : http_response := demo_answer.

Definition demo_env : Env := Models.env_with (λ _ rq,
  Ok (respond (@verify_signed_request _ rust_crypto demo_clocks (deliver (js "http://n") rq) demo_handler demo_node).1)).

Definition demo_client : sdk :=
  {| client := {| rpcUrl := js "http://n"; programId := None; projectId := Some (js "p1");
                  projectSecret := Some (hex_encode demo_secret); timeout := 30000;
                  derivedKeys := Some demo_keys; detectedNodeMode := Some prod |};
     wd := fresh_world; pending_timers := 0 |}.

Lemma demo_node_key : keys demo_node !! js "p1" = Some (@derive_keys _ rust_crypto demo_secret (js "p1")).
Proof. unfold demo_node, upsert_project. cbn [keys]. apply lookup_insert_eq. Qed.

Lemma demo_paired method :
  ascii_str method → @paired demo_env _ rust_crypto demo_client demo_secret (js "p1") demo_keys demo_node demo_clocks method.
Proof.
  intros Hm.
  split; first [reflexivity | apply demo_keys_ok | apply demo_node_key | (split; [exact Hm | by left]) | decide_closed
               | (split; [decide_closed | reflexivity])].
Qed.

Lemma prod_request_end_to_end_witness :
  ∃ s', @request Models.engine demo_env Models.mac_aead (js "GET") (js "/jobs") VUndef [] demo_client = (Ok (VArr []), s').
Proof.
  apply (@prod_request_end_to_end Models.engine demo_env _ rust_crypto (js "GET") (js "/jobs") VUndef demo_client
    demo_secret (js "p1") demo_keys demo_node demo_clocks demo_handler demo_answer (js "[]") (VArr []));
    [apply demo_paired; decide_closed | decide_closed | decide_closed | reflexivity | reflexivity | reflexivity
    | reflexivity | decide_closed | reflexivity | constructor; constructor].
Defined.

Lemma prod_download_end_to_end_witness :
  ∃ s', @downloadBlob Models.engine demo_env Models.mac_aead (js "b1") demo_client = (Ok (js "[]"), s').
Proof.
  apply (@prod_download_end_to_end Models.engine demo_env _ rust_crypto (js "b1") demo_client
    demo_secret (js "p1") demo_keys demo_node demo_clocks demo_handler demo_answer (js "[]"));
    [apply demo_paired; decide_closed | decide_closed | reflexivity | reflexivity | reflexivity
    | reflexivity | decide_closed].
Defined.

Lemma prod_upload_end_to_end_witness :
  ∃ s', @uploadBlob Models.engine demo_env Models.mac_aead [255; 0; 7] None demo_client = (Ok (VArr []), s').
Proof.
  apply (@prod_upload_end_to_end Models.engine demo_env _ rust_crypto [255; 0; 7] demo_client
    demo_secret (js "p1") demo_keys demo_node demo_clocks demo_handler demo_answer (js "[]") (VArr []));
    [apply demo_paired; decide_closed | reflexivity | reflexivity | reflexivity
    | reflexivity | decide_closed | reflexivity | constructor; constructor].
Defined.

(** The message the demo client sends, as the node receives it. *)
Definition demo_request : node_request :=
  deliver (js "http://n")
    (rpc_message (client demo_client) (js "GET") (js "/jobs") []
       (obj_assign json_content
          (auth_headers (js "p1") (signing_key demo_keys) (js "GET") (js "/jobs") [] 1700000000000
             (hex_encode (replicate 16 7))))).

Lemma demo_accepted :
  ∃ resp st1, @verify_signed_request _ rust_crypto demo_clocks demo_request demo_handler demo_node = (Ok resp, st1).
Proof.
  assert (byte_list demo_secret) as Hb by decide_closed.
  pose proof demo_node_key as Hk. rewrite (@derive_keys_agree _ rust_crypto _ _ _ Hb eq_refl demo_keys_ok) in Hk.
  destruct (auth_headers_get (js "p1") (signing_key demo_keys) (js "GET") (js "/jobs") [] 1700000000000
    (hex_encode (replicate 16 7)) json_content) as (Hh1 & Hh2 & Hh3 & Hh4).
  eexists _, _. etransitivity.
  - exact (@verify_accepts _ rust_crypto demo_clocks demo_node (js "GET") (js "/jobs") _ [] demo_handler _ (js "p1")
      1700000000000 (hex_encode (replicate 16 7)) (signing_key demo_keys) (or_introl eq_refl) Hh1 ltac:(decide_closed)
      Hk eq_refl Hh2 ltac:(lia) Hh3 ltac:(decide_closed) Hh4 ltac:(vm_compute; discriminate) eq_refl eq_refl).
  - reflexivity.
Qed.

Lemma replay_rejected_witness :
  ∃ status, (@verify_signed_request _ rust_crypto demo_clocks demo_request demo_handler
    (@verify_signed_request _ rust_crypto demo_clocks demo_request demo_handler demo_node).2).1 = Throw status.
Proof.
  destruct demo_accepted as (resp & st1 & Hv). rewrite Hv.
  apply (@replay_rejected _ rust_crypto demo_handler demo_node st1 demo_clocks demo_clocks demo_request demo_request
    resp (hex_encode (replicate 16 7)) []);
    [apply new_NonceCache_wf | exact Hv | reflexivity | reflexivity | simpl; lia | constructor | vm_compute; discriminate].
Defined.

(** A node whose cache holds two nonces. *)
Definition small_node : AuthState :=
  @upsert_project _ rust_crypto (js "p1") demo_secret
    (new_AuthState {| skew := 300000; nonce_ttl := 600000000000; nonce_capacity := 2; allowed_methods := [] |} [] 0 0).

Lemma forged_requests_flush_cache_witness :
  (check_and_insert (js "c") 0
     (replay_cache (@serve _ rust_crypto demo_handler
        (map (λ m, (demo_clocks, forged (js "p1") 1700000000000 m)) [js "a"; js "b"])
        (with_cache (check_and_insert (js "c") 0 (replay_cache small_node)).2 small_node)))).1 = true.
Proof.
  apply (@forged_requests_flush_cache _ rust_crypto demo_handler
    (with_cache (check_and_insert (js "c") 0 (replay_cache small_node)).2 small_node) demo_clocks
    (@derive_keys _ rust_crypto demo_secret (js "p1")) (js "p1") 1700000000000 (js "c") [js "a"; js "b"]);
    [apply check_and_insert_wf, new_NonceCache_wf | reflexivity | decide_closed | apply lookup_insert_eq | lia
    | vm_compute; discriminate | decide_closed | decide_closed | | decide_closed | reflexivity | vm_compute; lia].
  intros m Hm. change (order _) with [js "c"].
  repeat (apply elem_of_cons in Hm as [-> | Hm]; [decide_closed|]). by apply not_elem_of_nil in Hm.
Defined.

End Node.
