(* ===== verification/Toast.v ===== *)
(** * hooks/use-toast.ts: the toast store shared by the web front ends

    The module-level variables of the hook are one store; its exported functions,
    the removal timers and the life cycle of the subscribed components are the calls
    of a run. *)

From S2P Require Import Prelude JsValue.

Module Toast.

Definition TOAST_LIMIT : nat := 1.
Definition MAX_SAFE_INTEGER : Z := 2 ^ 53 - 1.

(** [ToasterToast]: [rest] holds title, description, variant and the like; [open] is
    [None] when it is undefined.  The callback [onOpenChange] is the operation
    [onOpenChange] below. *)
Record ToasterToast : Type := {
  id : jstr;
  open : option bool;
  rest : list (jstr * value);
}.

(** [Partial<ToasterToast>]: [p_open] is [None] when there is no such key. *)
Record PartialToast : Type := {
  p_id : option jstr;
  p_open : option (option bool);
  p_rest : list (jstr * value);
}.

Inductive Action : Type :=
| ADD_TOAST (toast : ToasterToast)
| UPDATE_TOAST (toast : PartialToast)
| DISMISS_TOAST (toastId : option jstr)
| REMOVE_TOAST (toastId : option jstr).

(** [interface State]. *)
Abbreviation State := (list ToasterToast).

(** The module's variables, and the hook state of each mounted component. *)
Record store : Type := {
  count : Z;
  toastTimeouts : list jstr;
  memoryState : State;
  listeners : list nat;
  hook_state : gmap nat State;
}.

Definition initial : store :=
  {| count := 0; toastTimeouts := []; memoryState := []; listeners := []; hook_state := ∅ |}.

Definition genId (s : store) : jstr * store :=
  let c := (count s + 1) mod MAX_SAFE_INTEGER in
  (Z_to_str c, {| count := c; toastTimeouts := toastTimeouts s; memoryState := memoryState s;
                  listeners := listeners s; hook_state := hook_state s |}).

Definition addToRemoveQueue (toastId : jstr) (timeouts : list jstr) : list jstr :=
  if bool_decide (toastId ∈ timeouts) then timeouts else timeouts ++ [toastId].

(** [{ ...t, ...action.toast }]. *)
Definition merge (t : ToasterToast) (p : PartialToast) : ToasterToast :=
  {| id := default (id t) (p_id p); open := default (open t) (p_open p); rest := obj_assign (rest t) (p_rest p) |}.

Definition close (t : ToasterToast) : ToasterToast := {| id := id t; open := Some false; rest := rest t |}.

(** The reducer, with the timers its [DISMISS_TOAST] case sets. *)
Definition reducer (state : State) (timeouts : list jstr) (action : Action) : State * list jstr :=
  match action with
  | ADD_TOAST t => (take TOAST_LIMIT (t :: state), timeouts)
  | UPDATE_TOAST p =>
      (map (λ t, if bool_decide (Some (id t) = p_id p) then merge t p else t) state, timeouts)
  | DISMISS_TOAST toastId =>
      (map (λ t, if bool_decide (Some (id t) = toastId) || bool_decide (toastId = None) then close t else t) state,
       match toastId with
       | Some (c :: r) => addToRemoveQueue (c :: r) timeouts
       | _ => foldl (λ ts t, addToRemoveQueue (id t) ts) timeouts state
       end)
  | REMOVE_TOAST None => ([], timeouts)
  | REMOVE_TOAST (Some i) => (filter (λ t, id t ≠ i) state, timeouts)
  end.

Definition dispatch (action : Action) (s : store) : store :=
  let '(m, ts) := reducer (memoryState s) (toastTimeouts s) action in
  {| count := count s; toastTimeouts := ts; memoryState := m; listeners := listeners s;
     hook_state := foldl (λ h c, <[c := m]> h) (hook_state s) (listeners s) |}.

(** [toast(props)]: the new toast's id and the store. *)
Definition toast (props : list (jstr * value)) (s : store) : jstr * store :=
  let '(i, s) := genId s in
  (i, dispatch (ADD_TOAST {| id := i; open := Some true; rest := props |}) s).

(** The three functions a toast carries. *)
Definition update (i : jstr) (p : PartialToast) (s : store) : store :=
  dispatch (UPDATE_TOAST {| p_id := Some i; p_open := p_open p; p_rest := p_rest p |}) s.
Definition dismiss (toastId : option jstr) (s : store) : store := dispatch (DISMISS_TOAST toastId) s.
Definition onOpenChange (i : jstr) (opened : bool) (s : store) : store := if opened then s else dismiss (Some i) s.

(** The callback of a removal timer. *)
Definition timer_fires (i : jstr) (s : store) : store :=
  dispatch (REMOVE_TOAST (Some i))
    {| count := count s; toastTimeouts := filter (λ j, j ≠ i) (toastTimeouts s); memoryState := memoryState s;
       listeners := listeners s; hook_state := hook_state s |}.

(** ** [useToast]: a component's subscription *)

(** [useState(memoryState)] of the first render. *)
Definition render (c : nat) (s : store) : store :=
  {| count := count s; toastTimeouts := toastTimeouts s; memoryState := memoryState s;
     listeners := listeners s; hook_state := <[c := memoryState s]> (hook_state s) |}.

(** The effect and its clean-up. *)
Definition subscribe (c : nat) (s : store) : store :=
  {| count := count s; toastTimeouts := toastTimeouts s; memoryState := memoryState s;
     listeners := listeners s ++ [c]; hook_state := hook_state s |}.

Fixpoint remove_first (c : nat) (l : list nat) : list nat :=
  match l with
  | [] => []
  | x :: r => if bool_decide (x = c) then r else x :: remove_first c r
  end.

Definition unsubscribe (c : nat) (s : store) : store :=
  {| count := count s; toastTimeouts := toastTimeouts s; memoryState := memoryState s;
     listeners := remove_first c (listeners s); hook_state := hook_state s |}.

(** The effect runs again after every change of [state]. *)
Definition refresh (c : nat) (s : store) : store := subscribe c (unsubscribe c s).

(** ** Runs *)

(** One call of the application, with any identifier and any content, one timer or one
    phase of a component's life. *)
Inductive call : Type :=
| Toast (props : list (jstr * value))
| Update (i : jstr) (p : PartialToast)
| Dismiss (toastId : option jstr)
| OpenChange (i : jstr) (opened : bool)
| Timer (i : jstr)
| Render (c : nat)
| Subscribe (c : nat)
| Refresh (c : nat)
| Unmount (c : nat).

Definition perform (c : call) (s : store) : store :=
  match c with
  | Toast props => (toast props s).2
  | Update i p => update i p s
  | Dismiss o => dismiss o s
  | OpenChange i b => onOpenChange i b s
  | Timer i => timer_fires i s
  | Render c => render c s
  | Subscribe c => subscribe c s
  | Refresh c => refresh c s
  | Unmount c => unsubscribe c s
  end.

(** A timer fires when it is pending; a component subscribes once. *)
Definition can (c : call) (s : store) : Prop :=
  match c with
  | Timer i => i ∈ toastTimeouts s
  | Render c => (c ∉ listeners s)
  | Subscribe c => (c ∉ listeners s) ∧ is_Some (hook_state s !! c)
  | Refresh c | Unmount c => c ∈ listeners s
  | _ => True
  end.

Definition play (cs : list call) : store := fold_left (λ s c, perform c s) cs initial.

Inductive possible : list call → Prop :=
| possible_nil : possible []
| possible_snoc cs c : possible cs → can c (play cs) → possible (cs ++ [c]).

Lemma play_snoc cs c : play (cs ++ [c]) = perform c (play cs).
Proof. unfold play. by rewrite fold_left_app. Qed.

(** Ids that [toast] has returned. *)
Definition issued (s : store) (i : jstr) : Prop := ∃ n, i = Z_to_str n ∧ 1 ≤ n ≤ count s.

Definition is_toast (c : call) : bool := match c with Toast _ => true | _ => false end.

(** How many toasts were made. *)
Definition toasts (cs : list call) : Z := Z.of_nat (length (List.filter is_toast cs)).

(** The identifier that a call dismisses. *)
Definition dismisses (c : call) : option jstr :=
  match c with Dismiss (Some i) | OpenChange i false => Some i | _ => None end.

(** The calls that close a toast and set no timer. *)
Definition closed_by_update (cs : list call) (i : jstr) : Prop := ∃ p, Update i p ∈ cs ∧ p_open p = Some (Some false).

(** The calls that leave a toast open whose timer is pending: an update that opens it again,
    a dismissal of the empty identifier, or a dismissal of its own before it was made. *)
Definition reopened (cs : list call) (i : jstr) : Prop := ∃ p o, Update i p ∈ cs ∧ p_open p = Some o ∧ o ≠ Some false.
Definition dismissed_early (cs : list call) (i : jstr) : Prop :=
  ∃ cs1 c cs2, cs = cs1 ++ c :: cs2 ∧ dismisses c = Some i ∧ ¬ issued (play cs1) i.
Definition left_open (cs : list call) (i : jstr) : Prop :=
  reopened cs i ∨ (∃ c, c ∈ cs ∧ dismisses c = Some []) ∨ dismissed_early cs i.

(** ** The invariant *)

Record inv (cs : list call) (s : store) : Prop := {
  inv_limit : (length (memoryState s) ≤ TOAST_LIMIT)%nat;
  inv_count : 0 ≤ count s;
  inv_made : toasts cs < MAX_SAFE_INTEGER → count s = toasts cs;
  inv_ids : Forall (λ t, id t = Z_to_str (count s)) (memoryState s);
  inv_issued : toasts cs < MAX_SAFE_INTEGER → Forall (λ t, 1 ≤ count s) (memoryState s);
  inv_timers : NoDup (toastTimeouts s);
  inv_known : toasts cs < MAX_SAFE_INTEGER → Forall (λ i, issued s i ∨ dismissed_early cs i) (toastTimeouts s);
  inv_closed : Forall (λ t, open t = Some false → id t ∈ toastTimeouts s ∨ closed_by_update cs (id t)) (memoryState s);
  inv_open : toasts cs < MAX_SAFE_INTEGER →
    Forall (λ t, open t ≠ Some false → id t ∈ toastTimeouts s → left_open cs (id t)) (memoryState s);
  inv_listeners : NoDup (listeners s);
}.

Lemma addToRemoveQueue_elem i j ts : j ∈ addToRemoveQueue i ts ↔ j = i ∨ j ∈ ts.
Proof. unfold addToRemoveQueue. case_bool_decide; set_solver. Qed.

Lemma addToRemoveQueue_nodup i ts : NoDup ts → NoDup (addToRemoveQueue i ts).
Proof.
  intros Hnd. unfold addToRemoveQueue. case_bool_decide; [done|].
  apply NoDup_app. split; [done|]. split; [set_solver | apply NoDup_singleton].
Qed.

Lemma queue_all_elem j (l : State) ts :
  j ∈ foldl (λ ts t, addToRemoveQueue (id t) ts) ts l ↔ j ∈ ts ∨ ∃ t, t ∈ l ∧ id t = j.
Proof.
  revert ts. induction l as [|t l IH]; intros ts; simpl; [set_solver|].
  rewrite IH, addToRemoveQueue_elem. setoid_rewrite elem_of_cons. naive_solver.
Qed.

Lemma queue_all_nodup (l : State) ts : NoDup ts → NoDup (foldl (λ ts t, addToRemoveQueue (id t) ts) ts l).
Proof. revert ts. induction l as [|t l IH]; intros ts Hnd; simpl; [done|]. by apply IH, addToRemoveQueue_nodup. Qed.

Lemma shown_nonempty n c : Z_to_str n = c → 0 ≤ n → c ≠ [].
Proof.
  intros <- Hn. unfold Z_to_str. case_if; [done|]. pose proof (digits_nonempty n). by destruct (digits n).
Qed.

Lemma dispatch_count a s : count (dispatch a s) = count s ∧ listeners (dispatch a s) = listeners s.
Proof. unfold dispatch. by destruct (reducer _ _ _). Qed.

Lemma dispatch_state a s :
  memoryState (dispatch a s) = (reducer (memoryState s) (toastTimeouts s) a).1 ∧
  toastTimeouts (dispatch a s) = (reducer (memoryState s) (toastTimeouts s) a).2.
Proof. unfold dispatch. by destruct (reducer _ _ _). Qed.

Lemma issued_mono s s' i : count s ≤ count s' → issued s i → issued s' i.
Proof. intros Hc (n & -> & Hn). exists n. split; [done | lia]. Qed.

Lemma issued_dec s i : issued s i ∨ ¬ issued s i.
Proof.
  destruct (decide (Exists (λ n, i = Z_to_str n) (seqZ 1 (count s)))) as [Hin|Hout].
  - apply Exists_exists in Hin as (n & Hn%elem_of_seqZ & Hi). left. exists n. split; [done|lia].
  - right. intros (n & Hi & Hn). apply Hout, Exists_exists. exists n. split; [apply elem_of_seqZ; lia|done].
Qed.

(** *** The causes stay *)

Lemma toasts_snoc cs c : toasts (cs ++ [c]) = toasts cs + (if is_toast c then 1 else 0).
Proof. unfold toasts. rewrite List.filter_app, length_app. cbn. destruct (is_toast c); cbn; lia. Qed.

Lemma closed_mono cs c i : closed_by_update cs i → closed_by_update (cs ++ [c]) i.
Proof. intros (p & Hin & Hp). exists p. split; [set_solver|done]. Qed.

Lemma early_mono cs c i : dismissed_early cs i → dismissed_early (cs ++ [c]) i.
Proof. intros (cs1 & d & cs2 & -> & Hd). exists cs1, d, (cs2 ++ [c]). split; [by rewrite <- app_assoc|done]. Qed.

Lemma left_mono cs c i : left_open cs i → left_open (cs ++ [c]) i.
Proof.
  intros [(p & o & Hin & Hp)|[(d & Hin & Hd)|He]].
  - left. exists p, o. split; [set_solver|done].
  - right. left. exists d. split; [set_solver|done].
  - right. right. by apply early_mono.
Qed.

Lemma early_now cs c i : dismisses c = Some i → issued (play cs) i ∨ dismissed_early (cs ++ [c]) i.
Proof.
  intros Hd. destruct (issued_dec (play cs) i) as [|Hni]; [by left|right]. exists cs, c, []. done.
Qed.

(** *** One call *)

(** A shown toast after a call, by the toast it was before. *)
Definition follows (cs : list call) (c : call) (s s' : store) (t' : ToasterToast) : Prop :=
  ∃ t, t ∈ memoryState s ∧ id t' = id t
  ∧ (open t' = Some false → open t = Some false ∧ (id t ∈ toastTimeouts s → id t' ∈ toastTimeouts s')
      ∨ id t' ∈ toastTimeouts s' ∨ closed_by_update (cs ++ [c]) (id t'))
  ∧ (open t' ≠ Some false → id t' ∈ toastTimeouts s' → (open t ≠ Some false ∧ id t ∈ toastTimeouts s) ∨ left_open (cs ++ [c]) (id t')).

Lemma inv_next cs c s s' :
  inv cs s → is_toast c = false → count s' = count s → NoDup (listeners s') → NoDup (toastTimeouts s') →
  (length (memoryState s') ≤ TOAST_LIMIT)%nat → (∀ t, t ∈ memoryState s' → follows cs c s s' t) →
  (∀ i, i ∈ toastTimeouts s' → i ∈ toastTimeouts s ∨ (∃ t, t ∈ memoryState s ∧ id t = i) ∨ issued s i ∨ dismissed_early (cs ++ [c]) i) →
  inv (cs ++ [c]) s'.
Proof.
  intros Hinv Hc Hn Hls Hts Hlen Hms Hin. destruct Hinv. rewrite Forall_forall in inv_ids0, inv_closed0.
  split; rewrite ?toasts_snoc, ?Hc, ?Z.add_0_r, ?Hn; try done.
  - apply Forall_forall. intros t Ht. destruct (Hms t Ht) as (t0 & Ht0 & -> & _). by apply inv_ids0.
  - intros Hb. specialize (inv_issued0 Hb). rewrite Forall_forall in inv_issued0. apply Forall_forall. intros t Ht.
    destruct (Hms t Ht) as (t0 & Ht0 & _). by apply (inv_issued0 t0).
  - intros Hb. specialize (inv_known0 Hb). specialize (inv_issued0 Hb). rewrite Forall_forall in inv_known0. rewrite Forall_forall in inv_issued0. apply Forall_forall.
    assert (∀ i, issued s i → issued s' i) as Hmono by (intros i; apply issued_mono; lia). intros i Hi.
    destruct (Hin i Hi) as [Hold|[(t & Ht & <-)|[Hiss|]]]; [|left|left|by right].
    + destruct (inv_known0 i Hold); [left|right; by apply early_mono]. by apply Hmono.
    + apply Hmono. exists (count s). split; [by apply inv_ids0|]. specialize (inv_issued0 t Ht). lia.
    + by apply Hmono.
  - apply Forall_forall. intros t Ht Ho. destruct (Hms t Ht) as (t0 & Ht0 & Hid & Hcl & _). destruct (Hcl Ho) as [[Ho0 Hk]|[|]]; [|by left|by right].
    destruct (inv_closed0 t0 Ht0 Ho0); [left; by apply Hk|right]. rewrite Hid. by apply closed_mono.
  - intros Hb. specialize (inv_open0 Hb). rewrite Forall_forall in inv_open0. apply Forall_forall. intros t Ht Ho Hi.
    destruct (Hms t Ht) as (t0 & Ht0 & Hid & _ & Hop). destruct (Hop Ho Hi) as [[Ho0 Hi0]|]; [|done]. rewrite Hid. by apply left_mono, inv_open0.
Qed.

(** A call that changes neither the toasts nor the timers. *)
Lemma inv_aside cs c s s' :
  inv cs s → is_toast c = false → count s' = count s → memoryState s' = memoryState s → toastTimeouts s' = toastTimeouts s →
  NoDup (listeners s') → inv (cs ++ [c]) s'.
Proof.
  intros Hinv Hc Hn Hm Ht Hl. apply (inv_next cs c s); try done; rewrite ?Ht, ?Hm; try apply Hinv.
  - intros t Hin. exists t. rewrite Ht. split; [done|]. split; [done|]. split; intros; by left.
  - intros i Hi. by left.
Qed.

Lemma inv_toast cs props : inv cs (play cs) → inv (cs ++ [Toast props]) (toast props (play cs)).2.
Proof.
  set (s := play cs). intros Hinv. unfold toast, genId. cbn [snd]. set (n := (count s + 1) mod MAX_SAFE_INTEGER).
  set (s1 := {| count := n; toastTimeouts := _ |}). set (t := {| id := _ |}).
  assert (0 ≤ n) as Hn by (unfold n; apply Z.mod_pos_bound; done).
  assert (toasts (cs ++ [Toast props]) < MAX_SAFE_INTEGER → toasts cs < MAX_SAFE_INTEGER ∧ n = count s + 1 ∧ count s = toasts cs) as Hb.
  { rewrite toasts_snoc. cbn. intros Hb. destruct Hinv. split; [lia|]. assert (count s = toasts cs) as Hn' by (apply inv_made0; lia).
    split; [apply Z.mod_small; lia|done]. }
  assert (memoryState (dispatch (ADD_TOAST t) s1) = [t]) as Hm by done.
  destruct Hinv. split; rewrite ?Hm; cbn; try done.
  - intros (_ & -> & ->)%Hb. rewrite toasts_snoc. done.
  - by repeat constructor.
  - intros (_ & -> & _)%Hb. constructor; [lia|constructor].
  - intros Hlt. destruct (Hb Hlt) as (Hlt' & Hn' & _). eapply Forall_impl; [by apply inv_known0|]. intros i [Hi|]; [left|right; by apply early_mono].
    apply (issued_mono s); [cbn; lia|done].
  - by repeat constructor.
  - intros Hlt. destruct (Hb Hlt) as (Hlt' & Hn' & _). constructor; [|constructor]. intros _ Hin. right. right. apply early_mono.
    specialize (inv_known0 Hlt'). rewrite Forall_forall in inv_known0. destruct (inv_known0 _ Hin) as [(k & Hk & Hr)|]; [|done].
    apply Z_to_str_inj in Hk. lia.
Qed.

Lemma inv_update cs i p s : inv cs s → inv (cs ++ [Update i p]) (update i p s).
Proof.
  intros Hinv. unfold update. set (q := {| p_id := Some i; p_open := p_open p; p_rest := p_rest p |}).
  destruct (dispatch_state (UPDATE_TOAST q) s) as [Hm Ht]. destruct (dispatch_count (UPDATE_TOAST q) s) as [Hc Hl].
  apply (inv_next cs _ s); try done; rewrite ?Hm, ?Ht, ?Hl; cbn [reducer fst snd]; try apply Hinv.
  - rewrite length_map. apply Hinv.
  - intros t (t0 & -> & Hin)%list_elem_of_fmap. exists t0. rewrite Ht. cbn [reducer snd]. split; [done|].
    case_bool_decide as Hi; [|split; [done|split; intros; by left]]. injection Hi as <-. split; [done|]. cbn.
    destruct (p_open p) as [o|] eqn:Ho; cbn; [|split; intros; by left]. split.
    + intros ->. right. right. exists p. split; [set_solver|done].
    + intros Hne _. right. left. exists p, o. split; [set_solver|done].
  - intros j Hj. by left.
Qed.

Lemma inv_dismiss_all cs s : inv cs s → inv (cs ++ [Dismiss None]) (dismiss None s).
Proof.
  intros Hinv. unfold dismiss. destruct (dispatch_state (DISMISS_TOAST None) s) as [Hm Ht]. destruct (dispatch_count (DISMISS_TOAST None) s) as [Hc Hl].
  apply (inv_next cs _ s); try done; rewrite ?Hm, ?Ht, ?Hl; cbn [reducer fst snd]; try apply Hinv.
  - apply queue_all_nodup, Hinv.
  - rewrite length_map. apply Hinv.
  - intros t (t0 & -> & Hin)%list_elem_of_fmap. exists t0. rewrite Ht. cbn [reducer snd]. rewrite (bool_decide_eq_true_2 (None = None)), orb_true_r by done.
    split; [done|]. split; [done|]. split; [|done]. intros _. right. left. apply queue_all_elem. right. by exists t0.
  - intros i [Hi|Hi]%queue_all_elem; auto.
Qed.

(** A dismissal of one identifier, by a call or by the toast itself. *)
Lemma inv_dismiss_one cs c i :
  dismisses c = Some i → inv cs (play cs) → inv (cs ++ [c]) (dismiss (Some i) (play cs)).
Proof.
  set (s := play cs). intros Hd Hinv. unfold dismiss. destruct (dispatch_state (DISMISS_TOAST (Some i)) s) as [Hm Ht].
  destruct (dispatch_count (DISMISS_TOAST (Some i)) s) as [Hc Hl].
  assert (∀ t, t ∈ memoryState s → id t ≠ []) as Hne.
  { destruct Hinv. rewrite Forall_forall in inv_ids0. intros t Hin. by apply (shown_nonempty (count s)); [symmetry; apply inv_ids0|]. }
  apply (inv_next cs _ s); try done; rewrite ?Hm, ?Ht, ?Hl; cbn [reducer fst snd]; try apply Hinv.
  - by destruct c.
  - destruct i; [apply queue_all_nodup|apply addToRemoveQueue_nodup]; apply Hinv.
  - rewrite length_map. apply Hinv.
  - intros t (t0 & -> & Hin)%list_elem_of_fmap. exists t0. rewrite Ht. cbn [reducer snd]. rewrite (bool_decide_eq_false_2 (Some i = None)), orb_false_r by done.
    split; [done|]. split; [by case_bool_decide|]. destruct i as [|u r].
    + rewrite bool_decide_eq_false_2 by (intros [= Heq]; by apply (Hne t0)). split.
      * intros Ho. left. split; [done|]. intros Hi. apply queue_all_elem. by left.
      * intros _ _. right. right. left. exists c. split; [set_solver|done].
    + case_bool_decide as Hi; cbn [close open id].
      * injection Hi as Hi. split; [|done]. intros _. right. left. apply addToRemoveQueue_elem. by left.
      * split; [intros Ho; left; split; [done|]; intros; apply addToRemoveQueue_elem; by right|].
        intros Ho [He|Hin']%addToRemoveQueue_elem; [by rewrite He in Hi|by left].
  - intros j Hj. destruct i as [|u r]; [apply queue_all_elem in Hj as [|]; auto|]. apply addToRemoveQueue_elem in Hj as [->|]; [|by left].
    right. right. by apply early_now.
Qed.

Lemma inv_timer cs i s : inv cs s → inv (cs ++ [Timer i]) (timer_fires i s).
Proof.
  intros Hinv. apply (inv_next cs _ s); cbn; try done; try apply Hinv.
  - apply NoDup_filter, Hinv.
  - etransitivity; [apply length_filter|apply Hinv].
  - intros t [Hne Hin]%list_elem_of_filter. exists t. cbn. split; [done|]. split; [done|]. split.
    + intros Ho. left. split; [done|]. intros. by apply list_elem_of_filter.
    + intros Ho [_ Hi]%list_elem_of_filter. by left.
  - intros j [_ Hj]%list_elem_of_filter. by left.
Qed.

Lemma remove_first_nodup c l : NoDup l → NoDup (remove_first c l) ∧ (c ∉ remove_first c l) ∧ (∀ x, x ∈ remove_first c l → x ∈ l).
Proof.
  induction 1 as [|x l Hx Hnd IH]; simpl; [split; [constructor | set_solver]|].
  case_bool_decide as Hc; [subst; set_solver|]. destruct IH as (? & ? & ?).
  split; [constructor; set_solver | set_solver].
Qed.

Lemma initial_inv : inv [] initial.
Proof. split; cbn; try done; try constructor; lia. Qed.

Lemma possible_inv cs : possible cs → inv cs (play cs).
Proof.
  induction 1 as [|cs c Hp IH Hcan]; [apply initial_inv|]. rewrite play_snoc. pose proof (inv_listeners _ _ IH) as Hl.
  destruct c as [props|i p|[i|]|i [|]|i|c|c|c|c]; cbn [perform].
  - by apply inv_toast.
  - by apply inv_update.
  - by apply inv_dismiss_one.
  - by apply inv_dismiss_all.
  - by apply (inv_aside cs _ (play cs)).
  - by apply (inv_dismiss_one cs (OpenChange i false)).
  - by apply inv_timer.
  - by apply (inv_aside cs _ (play cs)).
  - apply (inv_aside cs _ (play cs)); try done. cbn. destruct Hcan as [Hc _].
    apply NoDup_app. split; [done|]. split; [set_solver | apply NoDup_singleton].
  - apply (inv_aside cs _ (play cs)); try done. cbn. destruct (remove_first_nodup c (listeners (play cs)) Hl) as (Hnd & Hc & _).
    apply NoDup_app. split; [done|]. split; [set_solver | apply NoDup_singleton].
  - apply (inv_aside cs _ (play cs)); try done. cbn. by apply remove_first_nodup.
Qed.

Lemma notify_keeps (l : list nat) (m : State) (h : gmap nat State) c :
  h !! c = Some m → foldl (λ h c, <[c := m]> h) h l !! c = Some m.
Proof.
  revert h. induction l as [|x l IH]; intros h Hh; simpl; [done|]. apply IH.
  destruct (decide (x = c)) as [->|]; [by rewrite lookup_insert_eq | by rewrite lookup_insert_ne].
Qed.

Lemma notify_all (l : list nat) (m : State) (h : gmap nat State) c :
  c ∈ l → foldl (λ h c, <[c := m]> h) h l !! c = Some m.
Proof.
  revert h. induction l as [|x l IH]; intros h; simpl; [by intros ?%not_elem_of_nil|].
  intros [-> |Hin]%elem_of_cons; [|by apply IH].
  apply notify_keeps. by rewrite lookup_insert_eq.
Qed.

Lemma timer_fires_state i s :
  memoryState (timer_fires i s) = filter (λ t, id t ≠ i) (memoryState s) ∧
  toastTimeouts (timer_fires i s) = filter (λ j, j ≠ i) (toastTimeouts s).
Proof. done. Qed.

(** ** Properties *)

(** C21 After any calls of the application, timers and phases of components, at most
    [TOAST_LIMIT] toasts are shown and no toast has two timers.  A closed toast has its
    removal timer pending, unless an [update] closed it; a toast that is not closed has none,
    unless an [update] opened it again, the empty identifier was dismissed, or its own
    before it was made (counting fewer toasts than the identifiers there are).  A timer that
    fires is no longer pending and removes the toasts of its identifier only. *)
Theorem toast_timers_precise (cs : list call) :
  possible cs →
  let s := play cs in
  (length (memoryState s) ≤ TOAST_LIMIT)%nat ∧ NoDup (toastTimeouts s) ∧
  (∀ t, t ∈ memoryState s → open t = Some false → id t ∈ toastTimeouts s ∨ closed_by_update cs (id t)) ∧
  (toasts cs < MAX_SAFE_INTEGER →
   ∀ t, t ∈ memoryState s → open t ≠ Some false → id t ∈ toastTimeouts s → left_open cs (id t)) ∧
  (∀ i, toastTimeouts (timer_fires i s) = filter (λ j, j ≠ i) (toastTimeouts s) ∧
        memoryState (timer_fires i s) = filter (λ t, id t ≠ i) (memoryState s)).
Proof.
  intros Hp s. destruct (possible_inv cs Hp). rewrite Forall_forall in inv_closed0.
  split; [done|]. split; [done|]. split; [exact inv_closed0|]. split; [|by intros i; destruct (timer_fires_state i s)].
  intros Hb. specialize (inv_open0 Hb). by rewrite Forall_forall in inv_open0.
Qed.

(** One toast, dismissed: its timer is pending. *)
Definition dismissed_toast : list call := [Toast []; Dismiss (Some (js "1"))].

Lemma toast_timers_precise_witness :
  (length (memoryState (play dismissed_toast)) ≤ TOAST_LIMIT)%nat ∧ toastTimeouts (play dismissed_toast) = [js "1"] ∧
  memoryState (timer_fires (js "1") (play dismissed_toast)) = [].
Proof.
  assert (possible dismissed_toast) as Hp.
  { apply (possible_snoc [Toast []]); [|done]. by apply (possible_snoc []); [constructor|]. }
  destruct (toast_timers_precise dismissed_toast Hp) as (Hlen & _). split; [exact Hlen | split; reflexivity].
Defined.

(** The exceptions occur: an update closes a toast that then stays, and a dismissal of the
    empty identifier sets the timer of a toast that it leaves open. *)
Definition closing : PartialToast := {| p_id := None; p_open := Some (Some false); p_rest := [] |}.

Example closed_without_timer :
  let s := play [Toast []; Update (js "1") closing] in (map open (memoryState s), toastTimeouts s) = ([Some false], []).
Proof. reflexivity. Qed.

Example open_with_timer :
  let s := play [Toast []; Dismiss (Some [])] in (map open (memoryState s), toastTimeouts s) = ([Some true], [js "1"]).
Proof. reflexivity. Qed.

(** Every dispatched action reaches every subscribed component: whatever the
    action, the hook state of each listener is the new module state, and the list
    of listeners never holds a component twice. *)
Theorem dispatch_notifies (a : Action) (cs : list call) (c : nat) :
  possible cs → c ∈ listeners (play cs) →
  hook_state (dispatch a (play cs)) !! c = Some (memoryState (dispatch a (play cs))) ∧ NoDup (listeners (dispatch a (play cs))).
Proof.
  intros Hp%possible_inv Hc. destruct (dispatch_count a (play cs)) as [_ ->]. split; [|apply Hp].
  unfold dispatch. destruct (reducer _ _ a) as [m ts]. by apply notify_all.
Qed.

End Toast.
