(* ===== verification/Browser.v ===== *)
(** * The browser: storage, coercions and DOM exceptions

    What the front ends use of the browser beside [fetch]: [localStorage], the
    numeric comparison of values read back from it, and the exceptions of
    [btoa], [atob] and friends. *)

From S2P Require Import Prelude JsValue Codec Json Platform SdkErrors.

(** ** [localStorage] *)

Class HasStorage (S : Type) : Type := {
  get_storage : S → list (jstr * jstr);
  set_storage : list (jstr * jstr) → S → S;
  get_set_storage : ∀ st s, get_storage (set_storage st s) = st;
}.

(** Component states with both: storage and platform are independent. *)
Class WebState (S : Type) `{HasWorld S} `{HasStorage S} : Prop := {
  storage_of_world : ∀ w s, get_storage (set_world w s) = get_storage s;
  world_of_storage : ∀ st s, get_world (set_storage st s) = get_world s;
}.

Fixpoint obj_remove {A} (k : jstr) (fs : list (jstr * A)) : list (jstr * A) :=
  match fs with
  | [] => []
  | (k', x) :: r => if str_eqb k k' then obj_remove k r else (k', x) :: obj_remove k r
  end.

Lemma obj_get_remove {A} k (fs : list (jstr * A)) : obj_get k (obj_remove k fs) = None.
Proof.
  induction fs as [|[k' x] fs IH]; simpl; [done|]. destruct (str_eqb k k') eqn:Hk; [done|].
  simpl. by rewrite Hk.
Qed.

Lemma obj_get_remove_ne {A} k k' (fs : list (jstr * A)) : k ≠ k' → obj_get k (obj_remove k' fs) = obj_get k fs.
Proof.
  intros Hne. induction fs as [|[j x] fs IH]; simpl; [done|].
  destruct (str_eqb k' j) eqn:Hk'; simpl.
  - apply str_eqb_eq in Hk' as <-. by rewrite IH, (str_eqb_neq _ _ Hne).
  - by rewrite IH.
Qed.

Section Storage.
Context {S : Type} `{HasStorage S}.

Definition getItem (k : jstr) : M exn S (option jstr) := λ s, (Ok (obj_get k (get_storage s)), s).
Definition setItem (k v : jstr) : M exn S () := λ s, (Ok tt, set_storage (obj_set k v (get_storage s)) s).
Definition removeItem (k : jstr) : M exn S () := λ s, (Ok tt, set_storage (obj_remove k (get_storage s)) s).
End Storage.

(** [typeof window !== "undefined"]: false during server-side rendering. *)
Class Window : Type := in_browser : bool.

(** ** [v > z] with the coercions of the language *)

Definition starts_radix (s : jstr) : option (Z * jstr) :=
  match s with
  | 48 :: c :: r =>
      if (c =? 120) || (c =? 88) then Some (16, r)
      else if (c =? 111) || (c =? 79) then Some (8, r)
      else if (c =? 98) || (c =? 66) then Some (2, r)
      else None
  | _ => None
  end.

Fixpoint radix_val (base acc : Z) (s : jstr) : option Z :=
  match s with
  | [] => Some acc
  | c :: r => match hex_val c with
              | Some d => if d <? base then radix_val base (acc * base + d) r else None
              | None => None
              end
  end.

Definition decimal_literal (neg : bool) (s : jstr) : option num :=
  let '(ip, s1) := span_digits s in
  let '(fp, s2) := match s1 with 46 :: r => span_digits r | _ => ([], s1) end in
  match ip ++ fp, p_exp s2 with
  | _ :: _, Some (e, []) =>
      let m := digits_val (ip ++ fp) in
      Some (mk_num (if neg then - m else m) (e - Z.of_nat (length fp)))
  | _, _ => None
  end.

(** The string, as a number, is greater than [z]. *)
Definition str_gt (s : jstr) (z : Z) : bool :=
  let t := trim s in
  let signed neg r :=
    if str_eqb r (js "Infinity") then negb neg
    else match decimal_literal neg r with Some n => num_gt n z | None => false end in
  match t, starts_radix t with
  | [], _ => z <? 0
  | _, Some (base, c :: r) => match radix_val base 0 (c :: r) with Some n => z <? n | None => false end
  | 45 :: r, _ => signed true r
  | 43 :: r, _ => signed false r
  | _, _ => signed false t
  end.

Definition js_gt (v : value) (z : Z) : bool :=
  match v with
  | VUndef => false
  | VNull => z <? 0
  | VBool b => z <? (if b then 1 else 0)
  | VNum n => num_gt n z
  | VStr s => str_gt s z
  | VArr _ | VObj _ => str_gt (Errors.to_string_prim v) z
  end.

(** ** Exceptions *)

Definition Error (message : jstr) : exn := JsErr (js "Error") message.

(** [new Error(v)] stringifies its argument. *)
Definition Error_of (v : value) : exn := Error (Errors.to_string_prim v).

Definition invalid_character : exn :=
  JsErr (js "InvalidCharacterError") (js "The string to be encoded contains characters outside of the Latin1 range.").

(** [btoa] and [atob] as the calls throw. *)
Definition btoa_call (s : jstr) : outcome exn jstr :=
  match btoa s with Some t => Ok t | None => Throw invalid_character end.
Definition atob_call (v : value) : outcome exn jstr :=
  match atob (Errors.to_string_prim v) with
  | Some t => Ok t
  | None => Throw (JsErr (js "InvalidCharacterError") (js "The string to be decoded is not correctly encoded."))
  end.
