(* ===== verification/NbookClient.v ===== *)
(** * nbook/ui/lib/onvm-client.ts: the browser's client of the nbook program

    Requests are JSON objects, base64-encoded and posted to the Next.js proxy;
    responses come back base64-encoded.  Interfaces are terms of [ty], methods
    computations over any state with a [world]. *)

From S2P Require Import Prelude JsValue Codec Json Platform SdkErrors Browser Models.

Module Nbook.
Import Errors.

(** ** Interfaces *)

Definition User : ty := TObj [
  mem "id" TStr; mem "username" TStr; mem "email" TStr; opt "bio" TStr; opt "avatar" TStr; opt "coverImage" TStr;
  mem "followers" TNum; mem "following" TNum; mem "posts" (TArr TStr); mem "createdAt" TNum].

Definition Attachment : ty := TObj [mem "blob_id_hex" TStr; mem "size" TNum; mem "hash_hex" TStr].

Definition ApiCommentView : ty := TObj [mem "id" TStr; mem "author" TStr; mem "text" TStr; mem "created_at" TNum].

Definition ApiPost : ty := TObj [
  mem "id" TStr; mem "author" TStr; opt "author_avatar_blob_id" (nullable TStr);
  opt "author_display_name" (nullable TStr); mem "text" TStr; mem "attachments" (TArr Attachment);
  mem "created_at" TNum; mem "likes" TNum; mem "comments" (TArr ApiCommentView)].

Definition CommentView : ty := TObj [mem "id" TStr; mem "author" TStr; mem "text" TStr; mem "createdAt" TNum].

Definition Post : ty := TObj [
  mem "id" TStr; mem "author" TStr; opt "displayName" (nullable TStr); opt "avatarBlobId" (nullable TStr);
  mem "text" TStr; mem "attachments" (TArr Attachment); mem "createdAt" TNum; mem "likes" TNum;
  mem "comments" (TArr CommentView)].

Definition ProfileView : ty := TObj [
  mem "username" TStr; opt "displayName" (nullable TStr); opt "bio" (nullable TStr);
  opt "avatarBlobId" (nullable TStr); opt "bannerBlobId" (nullable TStr); mem "followers" TNum;
  mem "following" TNum; mem "followerList" (TArr TStr); mem "followingList" (TArr TStr);
  mem "posts" (TArr TStr); mem "createdAt" TNum].

Definition UserSummary : ty := TObj [
  mem "username" TStr; opt "displayName" (nullable TStr); opt "bio" (nullable TStr);
  opt "avatarBlobId" (nullable TStr); opt "bannerBlobId" (nullable TStr); mem "followers" TNum].

Definition op (name : string) : jstr * (bool * ty) := mem "op" (TLit (js name)).
Arguments op _%_string.

Definition RegisterRequest : ty := TObj [op "register"; mem "username" TStr; mem "password" TStr].
Definition LoginRequest : ty := TObj [op "login"; mem "username" TStr; mem "password" TStr].
Definition LogoutRequest : ty := TObj [op "logout"; mem "session" TStr].
Definition CreatePostRequest : ty := TObj [
  op "create_post"; mem "session" TStr; mem "text" TStr; mem "attachments" (TArr TStr)].
Definition FollowRequest : ty := TObj [op "follow"; mem "session" TStr; mem "target" TStr].
Definition UnfollowRequest : ty := TObj [op "unfollow"; mem "session" TStr; mem "target" TStr].
Definition LikeRequest : ty := TObj [op "like"; mem "session" TStr; mem "post_id" TStr].
Definition CommentRequest : ty := TObj [op "comment"; mem "session" TStr; mem "post_id" TStr; mem "text" TStr].
Definition FeedRequest : ty := TObj [op "feed"; mem "session" TStr; opt "limit" TNum; opt "discover" TBool].
Definition GetPostRequest : ty := TObj [op "get_post"; mem "post_id" TStr].
Definition ProfileRequest : ty := TObj [op "profile"; mem "username" TStr].
Definition UpdateProfileRequest : ty := TObj [
  op "update_profile"; mem "session" TStr; opt "display_name" TStr; opt "bio" TStr; opt "avatar_blob_id" TStr;
  opt "banner_blob_id" TStr].
Definition SearchUsersRequest : ty := TObj [
  op "search_users"; mem "session" TStr; mem "query" TStr; opt "limit" TNum].
Definition SuggestionsRequest : ty := TObj [op "suggestions"; mem "session" TStr; opt "limit" TNum].
Definition FollowersRequest : ty := TObj [
  op "followers"; mem "session" TStr; mem "username" TStr; opt "limit" TNum].
Definition FollowingRequest : ty := TObj [
  op "following"; mem "session" TStr; mem "username" TStr; opt "limit" TNum].

(** The union [Request]. *)
Definition Request : ty := TUnion [
  RegisterRequest; LoginRequest; LogoutRequest; CreatePostRequest; FollowRequest; UnfollowRequest; LikeRequest;
  CommentRequest; FeedRequest; GetPostRequest; ProfileRequest; UpdateProfileRequest; SearchUsersRequest;
  SuggestionsRequest; FollowersRequest; FollowingRequest].

Definition status_is (name : string) : jstr * (bool * ty) := mem "status" (TLit (js name)).
Arguments status_is _%_string.

Definition OkResponse : ty := TObj [status_is "ok"; mem "message" TStr].
Definition LoginOkResponse : ty := TObj [status_is "login_ok"; mem "session" TStr; mem "expires_ms" TNum].
Definition PostResponse : ty := TObj [status_is "post"; mem "post" ApiPost].
Definition FeedResponse : ty := TObj [status_is "feed"; mem "posts" (TArr ApiPost)].
Definition ApiProfile : ty := TObj [
  mem "username" TStr; opt "display_name" (nullable TStr); opt "bio" (nullable TStr);
  opt "avatar_blob_id" (nullable TStr); opt "banner_blob_id" (nullable TStr); mem "followers" TNum;
  mem "following" TNum; mem "follower_list" (TArr TStr); mem "following_list" (TArr TStr);
  mem "posts" (TArr TStr); mem "created_at" TNum].
Definition ProfileResponse : ty := TObj [status_is "profile"; mem "profile" ApiProfile].
Definition ApiUser : ty := TObj [
  mem "username" TStr; opt "display_name" (nullable TStr); opt "bio" (nullable TStr);
  opt "avatar_blob_id" (nullable TStr); opt "banner_blob_id" (nullable TStr); mem "followers" TNum].
Definition UsersResponse : ty := TObj [status_is "users"; mem "users" (TArr ApiUser)].
Definition ErrorResponse : ty := TObj [status_is "error"; mem "message" TStr].

(** ** The client object *)

Record NbookONVMClient : Type := {
  apiEndpoint : jstr;
  programId : jstr;
}.

Definition API_ENDPOINT : jstr := js "/api/onvm".

(** [NEXT_PUBLIC_ONVM_PROGRAM_ID], inlined at build time. *)
Class BuildEnv : Type := NEXT_PUBLIC_ONVM_PROGRAM_ID : option jstr.

Definition PROGRAM_ID `{BuildEnv} : jstr :=
  str_or (default [] NEXT_PUBLIC_ONVM_PROGRAM_ID)
    (js "prog38ec7cf6280521e004e2d6148abbec866c15d797f66f4e80520d0cb21dcb935c").

Definition new_NbookONVMClient `{BuildEnv} : NbookONVMClient :=
  {| apiEndpoint := API_ENDPOINT; programId := PROGRAM_ID |}.

(** The singleton: the module variable and the accessor. *)
Definition getNbookClient `{BuildEnv} (nbookClient : option NbookONVMClient)
    : NbookONVMClient * option NbookONVMClient :=
  match nbookClient with
  | Some c => (c, Some c)
  | None => (new_NbookONVMClient, Some new_NbookONVMClient)
  end.

(** ** Content sniffing *)

(** [bytes[i] === b]: past the end the element is [undefined]. *)
Definition byte_is (bs : bytes) (i : nat) (b : Z) : bool :=
  match bs !! i with Some x => x =? b | None => false end.

(** [bytes[i] === b] for consecutive elements from [i]. *)
Fixpoint bytes_at (bs : bytes) (i : nat) (pattern : list Z) : bool :=
  match pattern with
  | [] => true
  | b :: r => byte_is bs i b && bytes_at bs (S i) r
  end.

Definition sniffContentType (buffer : bytes) (headerCt : jstr) : jstr :=
  let defaultCt := if negb (bool_decide (headerCt = []))
                      && negb (str_eqb headerCt (js "application/octet-stream")) then headerCt else [] in
  let bytes := take 12 buffer in
  if bytes_at bytes 0 [0x89; 0x50; 0x4e; 0x47; 0x0d; 0x0a; 0x1a; 0x0a] then js "image/png"
  else if bytes_at bytes 0 [0xff; 0xd8; 0xff] then js "image/jpeg"
  else if bytes_at bytes 0 [0x47; 0x49; 0x46; 0x38] then js "image/gif"
  else if bytes_at bytes 0 [0x52; 0x49; 0x46; 0x46] && bytes_at bytes 8 [0x57; 0x45; 0x42; 0x50] then js "image/webp"
  else if bytes_at bytes 0 [0x49; 0x44; 0x33]
          || (byte_is bytes 0 0xff
              && match bytes !! 1%nat with Some x => Z.land x 0xe0 =? 0xe0 | None => false end) then js "audio/mpeg"
  else if bytes_at bytes 0 [0x4f; 0x67; 0x67; 0x53] then js "audio/ogg"
  else if bytes_at bytes 0 [0x52; 0x49; 0x46; 0x46] && bytes_at bytes 8 [0x57; 0x41; 0x56; 0x45] then js "audio/wav"
  else if bytes_at bytes 4 [0x66; 0x74; 0x79; 0x70] then js "video/mp4"
  else str_or defaultCt (js "application/octet-stream").

(** ** Methods *)

Section Methods.
Context `{Engine} `{Env} {S : Type} `{HasWorld S}.

Definition normalizeComment (c : value) : outcome exn value :=
  let! id := get c (js "id") in
  let! author := get c (js "author") in
  let! text := get c (js "text") in
  let! created_at := get c (js "created_at") in
  Ok (VObj [(js "id", id); (js "author", author); (js "text", text); (js "createdAt", created_at)]).

Definition normalizePost (api : value) : outcome exn value :=
  let! id := get api (js "id") in
  let! author := get api (js "author") in
  let! displayName := get api (js "author_display_name") in
  let! avatarBlobId := get api (js "author_avatar_blob_id") in
  let! text := get api (js "text") in
  let! attachments := get api (js "attachments") in
  let! createdAt := get api (js "created_at") in
  let! likes := get api (js "likes") in
  let! api_comments := get api (js "comments") in
  let! comments := js_map api_comments normalizeComment in
  Ok (VObj [(js "id", id); (js "author", author); (js "displayName", displayName);
            (js "avatarBlobId", avatarBlobId); (js "text", text); (js "attachments", attachments);
            (js "createdAt", createdAt); (js "likes", likes); (js "comments", comments)]).

Definition normalizeProfile (api : value) : outcome exn value :=
  let! username := get api (js "username") in
  let! displayName := get api (js "display_name") in
  let! bio := get api (js "bio") in
  let! avatarBlobId := get api (js "avatar_blob_id") in
  let! bannerBlobId := get api (js "banner_blob_id") in
  let! followers := get api (js "followers") in
  let! following := get api (js "following") in
  let! followerList := get api (js "follower_list") in
  let! followingList := get api (js "following_list") in
  let! posts := get api (js "posts") in
  let! createdAt := get api (js "created_at") in
  Ok (VObj [(js "username", username); (js "displayName", displayName); (js "bio", bio);
            (js "avatarBlobId", avatarBlobId); (js "bannerBlobId", bannerBlobId); (js "followers", followers);
            (js "following", following); (js "followerList", js_or followerList (VArr []));
            (js "followingList", js_or followingList (VArr [])); (js "posts", posts); (js "createdAt", createdAt)]).

Definition normalizeUser (u : value) : outcome exn value :=
  let! username := get u (js "username") in
  let! displayName := get u (js "display_name") in
  let! bio := get u (js "bio") in
  let! avatarBlobId := get u (js "avatar_blob_id") in
  let! bannerBlobId := get u (js "banner_blob_id") in
  let! followers := get u (js "followers") in
  Ok (VObj [(js "username", username); (js "displayName", displayName); (js "bio", bio);
            (js "avatarBlobId", avatarBlobId); (js "bannerBlobId", bannerBlobId); (js "followers", followers)]).

Definition normalizeUsers (users : value) : outcome exn value := js_map users normalizeUser.

(** [response.json().catch(() => ({ error: fallback }))], then
    [throw new Error(error.error || fallback)]. *)
Definition http_failure {A} (response : http_response) (fallback : jstr) : outcome exn A :=
  let error := match rs_json response with Ok v => v | Throw _ => VObj [(js "error", VStr fallback)] end in
  let! e := get error (js "error") in
  Throw (Error_of (js_or e (VStr fallback))).

Definition post_json (c : NbookONVMClient) (body : value) : http_request :=
  {| rq_method := js "POST"; rq_url := apiEndpoint c; rq_headers := [(js "Content-Type", js "application/json")];
     rq_body := Some (BodyText (json_text body)); rq_timeout := None |}.

Definition execute_body (c : NbookONVMClient) (inputBase64 : jstr) : value :=
  VObj [(js "operation", VStr (js "executeProgram")); (js "program_id", VStr (programId c));
        (js "input_base64", VStr inputBase64)].

Definition decode_result (response : http_response) : outcome exn value :=
  let! result := rs_json response in
  let! return_base64 := get result (js "return_base64") in
  let! returnData := atob_call return_base64 in
  let! parsedResponse := json_parse returnData in
  let! status := get parsedResponse (js "status") in
  if negb (truthy status) then Throw (Error (js "invalid response from program"))
  else Ok parsedResponse.

Definition executeProgram (c : NbookONVMClient) (request : value) : M exn S value :=
  let* inputBase64 := liftM (btoa_call (json_text request)) in
  let* response := fetch (post_json c (execute_body c inputBase64)) in
  if negb (rs_ok response) then liftM (http_failure response (js "Failed to execute program"))
  else liftM (decode_result response).

Definition uploadBlob (c : NbookONVMClient) (buffer : bytes) : M exn S value :=
  let* response := fetch {| rq_method := js "POST"; rq_url := apiEndpoint c;
                            rq_headers := [(js "Content-Type", js "application/octet-stream")];
                            rq_body := Some (BodyBytes buffer); rq_timeout := None |} in
  if negb (rs_ok response) then liftM (http_failure response (js "Failed to upload blob"))
  else
    let* result := liftM (rs_json response) in
    liftM (get result (js "id")).

(** The [Blob] and its content type. *)
Definition fetchBlob (c : NbookONVMClient) (id : jstr) : M exn S (bytes * jstr) :=
  let* response := fetch (post_json c (VObj [(js "operation", VStr (js "downloadBlob")); (js "id", VStr id)])) in
  if negb (rs_ok response) then liftM (http_failure response (js "Failed to download blob"))
  else
    let* arrayBuffer := liftM (rs_arrayBuffer response) in
    let headerCt := default [] (header (js "content-type") response) in
    retM (arrayBuffer, sniffContentType arrayBuffer headerCt).

(** [if (response.status === "error") throw new Error(response.message || fallback)]. *)
Definition check_status (response : value) (fallback : jstr) : outcome exn () :=
  let! status := get response (js "status") in
  if is_str (js "error") status then
    let! message := get response (js "message") in
    Throw (Error_of (js_or message (VStr fallback)))
  else Ok tt.

Definition call (c : NbookONVMClient) (request : list (jstr * value)) (fallback : jstr) : M exn S value :=
  let* response := executeProgram c (VObj request) in
  do* liftM (check_status response fallback) in
  retM response.

Definition field_call (c : NbookONVMClient) (request : list (jstr * value)) (fallback field : jstr)
    (normalize : value → outcome exn value) : M exn S value :=
  let* response := call c request fallback in
  let* x := liftM (get response field) in
  liftM (normalize x).

Definition register (c : NbookONVMClient) (username password : jstr) : M exn S value :=
  call c [(js "op", VStr (js "register")); (js "username", VStr username); (js "password", VStr password)]
    (js "register failed").

(** The pair [{ session, expiresMs }]. *)
Definition login (c : NbookONVMClient) (username password : jstr) : M exn S (value * value) :=
  let* response := executeProgram c (VObj [(js "op", VStr (js "login")); (js "username", VStr username);
                                           (js "password", VStr password)]) in
  let* status := liftM (get response (js "status")) in
  if is_str (js "error") status || negb (is_str (js "login_ok") status) then
    let* message := liftM (get response (js "message")) in
    throwM (Error_of (js_or message (VStr (js "login failed"))))
  else
    let* session := liftM (get response (js "session")) in
    let* expires_ms := liftM (get response (js "expires_ms")) in
    retM (session, expires_ms).

Definition deletePost (c : NbookONVMClient) (session : value) (postId : jstr) : M exn S () :=
  do* call c [(js "op", VStr (js "delete_post")); (js "session", session); (js "post_id", VStr postId)]
        (js "delete failed") in
  retM tt.

Definition logout (c : NbookONVMClient) (session : value) : M exn S () :=
  do* call c [(js "op", VStr (js "logout")); (js "session", session)] (js "logout failed") in
  retM tt.

Definition createPost (c : NbookONVMClient) (session : value) (text : jstr) (attachments : list jstr) : M exn S value :=
  field_call c [(js "op", VStr (js "create_post")); (js "session", session); (js "text", VStr text);
                (js "attachments", VArr (map VStr attachments))] (js "create post failed") (js "post") normalizePost.

Definition getPost (c : NbookONVMClient) (postId : jstr) : M exn S value :=
  field_call c [(js "op", VStr (js "get_post")); (js "post_id", VStr postId)]
    (js "get post failed") (js "post") normalizePost.

Definition likePost (c : NbookONVMClient) (session : value) (postId : jstr) : M exn S value :=
  field_call c [(js "op", VStr (js "like")); (js "session", session); (js "post_id", VStr postId)]
    (js "like failed") (js "post") normalizePost.

Definition commentOnPost (c : NbookONVMClient) (session : value) (postId text : jstr) : M exn S value :=
  field_call c [(js "op", VStr (js "comment")); (js "session", session); (js "post_id", VStr postId);
                (js "text", VStr text)] (js "comment failed") (js "post") normalizePost.

Definition getFeed (c : NbookONVMClient) (session : value) (limit : Z) (discover : bool) : M exn S value :=
  field_call c [(js "op", VStr (js "feed")); (js "session", session); (js "limit", vint limit);
                (js "discover", VBool discover)] (js "feed failed") (js "posts") (λ ps, js_map ps normalizePost).

Definition follow (c : NbookONVMClient) (session : value) (target : jstr) : M exn S () :=
  do* call c [(js "op", VStr (js "follow")); (js "session", session); (js "target", VStr target)]
        (js "follow failed") in
  retM tt.

Definition unfollow (c : NbookONVMClient) (session : value) (target : jstr) : M exn S () :=
  do* call c [(js "op", VStr (js "unfollow")); (js "session", session); (js "target", VStr target)]
        (js "unfollow failed") in
  retM tt.

Definition getProfile (c : NbookONVMClient) (username : jstr) : M exn S value :=
  field_call c [(js "op", VStr (js "profile")); (js "username", VStr username)]
    (js "profile failed") (js "profile") normalizeProfile.

(** An optional string argument as a property value. *)
Definition opt_str (s : option jstr) : value := match s with Some t => VStr t | None => VUndef end.

Definition updateProfile (c : NbookONVMClient) (session : value)
    (displayName bio avatarBlobId bannerBlobId : option jstr) : M exn S () :=
  do* call c [(js "op", VStr (js "update_profile")); (js "session", session);
              (js "display_name", opt_str displayName); (js "bio", opt_str bio);
              (js "avatar_blob_id", opt_str avatarBlobId); (js "banner_blob_id", opt_str bannerBlobId)]
        (js "profile update failed") in
  retM tt.

Definition searchUsers (c : NbookONVMClient) (session : value) (query : jstr) (limit : Z) : M exn S value :=
  field_call c [(js "op", VStr (js "search_users")); (js "session", session); (js "query", VStr query);
                (js "limit", vint limit)] (js "search failed") (js "users") normalizeUsers.

Definition getSuggestions (c : NbookONVMClient) (session : value) (limit : Z) : M exn S value :=
  field_call c [(js "op", VStr (js "suggestions")); (js "session", session); (js "limit", vint limit)]
    (js "suggestions failed") (js "users") normalizeUsers.

Definition listFollowers (c : NbookONVMClient) (session : value) (username : jstr) (limit : Z) : M exn S value :=
  field_call c [(js "op", VStr (js "followers")); (js "session", session); (js "username", VStr username);
                (js "limit", vint limit)] (js "followers failed") (js "users") normalizeUsers.

Definition listFollowing (c : NbookONVMClient) (session : value) (username : jstr) (limit : Z) : M exn S value :=
  field_call c [(js "op", VStr (js "following")); (js "session", session); (js "username", VStr username);
                (js "limit", vint limit)] (js "following failed") (js "users") normalizeUsers.
End Methods.

(** ** Normalisation keeps the types *)

(** Reads every member the normaliser uses, in order. *)
Ltac read_members H :=
  repeat match goal with
  | |- context [get ?v ?k] =>
      let x := fresh "x" in let Hx := fresh "Hx" in let Hm := fresh "Hm" in
      destruct (conforms_get _ v k _ _ H ltac:(simpl; tauto)) as (x & Hx & Hm);
      rewrite Hx; cbn [outcome_bind]; clear Hx
  end.

(** Proves that an object literal conforms, from the facts on its members. *)
Ltac build_object_with tac :=
  apply conforms_obj; eexists; split; [reflexivity|];
  let k := fresh in let o := fresh in let t := fresh in let Hin := fresh "Hin" in
  intros k o t Hin; simpl in Hin;
  repeat (destruct Hin as [Hin|Hin]; [injection Hin as <- <- <-; first [assumption | tac]|]); destruct Hin.
Ltac build_object := build_object_with idtac.

Section Normalise.
Context `{Engine}.

Lemma normalizeComment_typed c :
  conforms ApiCommentView c = true → ∃ d, normalizeComment c = Ok d ∧ conforms CommentView d = true.
Proof. intros Hc. unfold normalizeComment. read_members Hc. eexists. split; [done|]. build_object. Qed.

Lemma member_required t x : member_ok false t (Some x) = true → conforms t x = true.
Proof. by destruct x. Qed.

Lemma member_of_conforms o t x : conforms t x = true → x ≠ VUndef → member_ok o t (Some x) = true.
Proof. by destruct x. Qed.

Lemma normalizePost_typed v :
  conforms ApiPost v = true → ∃ p, normalizePost v = Ok p ∧ conforms Post p = true.
Proof.
  intros Hv. unfold normalizePost. read_members Hv.
  match goal with
  | Hm : member_ok _ (TArr ApiCommentView) _ = true |- _ =>
      apply member_required in Hm;
      destruct (js_map_conforms normalizeComment _ _ _ normalizeComment_typed Hm) as (cs & Hcs & Hty)
  end.
  rewrite Hcs. cbn [outcome_bind]. eexists. split; [done|].
  assert (member_ok false (TArr CommentView) (Some cs) = true) by (by destruct cs).
  build_object.
Qed.

Lemma normalizeProfile_typed v :
  conforms ApiProfile v = true → ∃ p, normalizeProfile v = Ok p ∧ conforms ProfileView p = true.
Proof.
  intros Hv. unfold normalizeProfile. read_members Hv. eexists. split; [done|].
  assert (∀ x, member_ok false (TArr TStr) (Some x) = true → member_ok false (TArr TStr) (Some (js_or x (VArr []))) = true)
    as Hor by (intros y Hy; by destruct y).
  build_object_with ltac:(apply Hor; assumption).
Qed.

Lemma normalizeUser_typed v :
  conforms ApiUser v = true → ∃ p, normalizeUser v = Ok p ∧ conforms UserSummary p = true.
Proof. intros Hv. unfold normalizeUser. read_members Hv. eexists. split; [done|]. build_object. Qed.
End Normalise.

(** ** The operations as a table *)

Section Operations.
Context `{Engine} `{Env} {S : Type} `{HasWorld S}.

(** What a method promises: the request it sends, the type of the program's
    answer and the type it returns. *)
Record operation : Type := {
  o_call : M exn S value;
  o_request : list (jstr * value);
  o_wire : ty;
  o_result : ty;
}.

Definition operations (c : NbookONVMClient) (token a b : jstr) (attachments : list jstr) (limit : Z) (discover : bool)
    : list operation :=
  let session := VStr token in
  [ {| o_call := register c a b; o_wire := OkResponse; o_result := OkResponse;
       o_request := [(js "op", VStr (js "register")); (js "username", VStr a); (js "password", VStr b)] |};
    {| o_call := createPost c session a attachments; o_wire := PostResponse; o_result := Post;
       o_request := [(js "op", VStr (js "create_post")); (js "session", session); (js "text", VStr a);
                     (js "attachments", VArr (map VStr attachments))] |};
    {| o_call := getPost c a; o_wire := PostResponse; o_result := Post;
       o_request := [(js "op", VStr (js "get_post")); (js "post_id", VStr a)] |};
    {| o_call := likePost c session a; o_wire := PostResponse; o_result := Post;
       o_request := [(js "op", VStr (js "like")); (js "session", session); (js "post_id", VStr a)] |};
    {| o_call := commentOnPost c session a b; o_wire := PostResponse; o_result := Post;
       o_request := [(js "op", VStr (js "comment")); (js "session", session); (js "post_id", VStr a);
                     (js "text", VStr b)] |};
    {| o_call := getFeed c session limit discover; o_wire := FeedResponse; o_result := TArr Post;
       o_request := [(js "op", VStr (js "feed")); (js "session", session); (js "limit", vint limit);
                     (js "discover", VBool discover)] |};
    {| o_call := getProfile c a; o_wire := ProfileResponse; o_result := ProfileView;
       o_request := [(js "op", VStr (js "profile")); (js "username", VStr a)] |};
    {| o_call := searchUsers c session a limit; o_wire := UsersResponse; o_result := TArr UserSummary;
       o_request := [(js "op", VStr (js "search_users")); (js "session", session); (js "query", VStr a);
                     (js "limit", vint limit)] |};
    {| o_call := getSuggestions c session limit; o_wire := UsersResponse; o_result := TArr UserSummary;
       o_request := [(js "op", VStr (js "suggestions")); (js "session", session); (js "limit", vint limit)] |};
    {| o_call := listFollowers c session a limit; o_wire := UsersResponse; o_result := TArr UserSummary;
       o_request := [(js "op", VStr (js "followers")); (js "session", session); (js "username", VStr a);
                     (js "limit", vint limit)] |};
    {| o_call := listFollowing c session a limit; o_wire := UsersResponse; o_result := TArr UserSummary;
       o_request := [(js "op", VStr (js "following")); (js "session", session); (js "username", VStr a);
                     (js "limit", vint limit)] |} ].

(** The status literal of an answer decides the check of the methods. *)
Lemma status_literal ms v name :
  conforms (TObj (status_is name :: ms)) v = true → get v (js "status") = Ok (VStr (js name)).
Proof.
  intros Hv. destruct (conforms_get _ _ (js "status") false (TLit (js name)) Hv) as (x & Hx & Hm); [by left|].
  rewrite Hx. destruct x; try done. simpl in Hm. by apply str_eqb_eq in Hm as ->.
Qed.

Lemma call_ok c request fallback s v s' ms name :
  executeProgram c (VObj request) s = (Ok v, s') →
  conforms (TObj (status_is name :: ms)) v = true → js name ≠ js "error" →
  call c request fallback s = (Ok v, s').
Proof.
  intros He Hv Hne. unfold call. rewrite (bindM_ok _ _ _ _ _ He).
  unfold check_status. rewrite (status_literal _ _ _ Hv). cbn [outcome_bind is_str].
  by rewrite str_eqb_neq.
Qed.

Lemma call_error c request fallback s v s' message :
  executeProgram c (VObj request) s = (Ok v, s') →
  get v (js "status") = Ok (VStr (js "error")) → get v (js "message") = Ok message →
  call c request fallback s = (Throw (Error_of (js_or message (VStr fallback))), s').
Proof.
  intros He Hst Hm. unfold call. rewrite (bindM_ok _ _ _ _ _ He).
  unfold check_status. rewrite Hst. cbn [outcome_bind is_str]. rewrite str_eqb_refl, Hm. done.
Qed.

Lemma field_call_ok c request fallback field normalize s v s' ms name t t' :
  executeProgram c (VObj request) s = (Ok v, s') →
  conforms (TObj (status_is name :: ms)) v = true → js name ≠ js "error" → In (field, (false, t)) ms →
  (∀ x, conforms t x = true → ∃ y, normalize x = Ok y ∧ conforms t' y = true) →
  ∃ w, field_call c request fallback field normalize s = (Ok w, s') ∧ conforms t' w = true.
Proof.
  intros He Hv Hne Hin Hn. unfold field_call. rewrite (bindM_ok _ _ _ _ _ (call_ok _ _ _ _ _ _ _ _ He Hv Hne)).
  destruct (conforms_get _ _ field false t Hv) as (x & Hx & Hm); [by right|].
  destruct (Hn x (member_required _ _ Hm)) as (w & Hw & Hcw).
  exists w. unfold bindM, liftM. rewrite Hx, Hw. done.
Qed.

Lemma field_call_error c request fallback field normalize s v s' message :
  executeProgram c (VObj request) s = (Ok v, s') →
  get v (js "status") = Ok (VStr (js "error")) → get v (js "message") = Ok message →
  field_call c request fallback field normalize s = (Throw (Error_of (js_or message (VStr fallback))), s').
Proof.
  intros He Hst Hm. unfold field_call. by rewrite (bindM_err _ _ _ _ _ (call_error _ _ _ _ _ _ _ He Hst Hm)).
Qed.

(** Every operation of the nbook client sends a request of the declared union
    type; when the program answers with the operation's response type, the method
    returns a value of its declared result type (every post, profile and user
    list renamed from snake case without loss of type); and when the program
    answers with an error, the method throws an [Error]. *)
Theorem operations_typed (c : NbookONVMClient) (token a b : jstr) (attachments : list jstr) (limit : Z) (discover : bool)
    (o : operation) (s s' : S) (v : value) :
  In o (operations c token a b attachments limit discover) →
  executeProgram c (VObj (o_request o)) s = (Ok v, s') →
  conforms Request (VObj (o_request o)) = true ∧
  (conforms (o_wire o) v = true → ∃ w, o_call o s = (Ok w, s') ∧ conforms (o_result o) w = true) ∧
  (conforms ErrorResponse v = true → ∃ message, o_call o s = (Throw (Error message), s')).
Proof.
  intros Hin He.
  assert (conforms ErrorResponse v = true →
    get v (js "status") = Ok (VStr (js "error")) ∧ ∃ m, get v (js "message") = Ok m) as Herr.
  { intros Hv. split; [apply (status_literal _ _ _ Hv)|].
    destruct (conforms_get _ _ (js "message") false TStr Hv) as (m & Hm & _); [simpl; tauto | eauto]. }
  pose proof (js_map_conforms normalizePost ApiPost Post) as Hposts.
  pose proof (js_map_conforms normalizeUser ApiUser UserSummary) as Husers.
  assert (forallb (λ v, conforms TStr v) (map VStr attachments) = true) as Hatt by (clear; induction attachments; simpl; done).
  assert (∀ o, In o (operations c token a b attachments limit discover) → conforms Request (VObj (o_request o)) = true)
    as Hreq.
  { intros o' Ho'. simpl in Ho'. destruct Ho' as [<-| [<-|Ho']]; [reflexivity | |].
    - apply existsb_exists. exists CreatePostRequest. split; [simpl; tauto|]. build_object_with ltac:(first [reflexivity | exact Hatt]).
    - repeat (destruct Ho' as [<-|Ho']; [reflexivity|]). destruct Ho'. }
  split; [by apply Hreq|]. clear Hreq.
  simpl in Hin. destruct Hin as [<-|Hin].
  { cbn [o_call o_request o_wire o_result] in *. split.
    - intros Hv. exists v. split; [|done]. by apply (call_ok _ _ _ _ _ _ _ _ He Hv).
    - intros [Hst [m Hm]]%Herr. eexists. by apply (call_error _ _ _ _ _ _ _ He Hst Hm). }
  repeat (destruct Hin as [<-|Hin];
    [cbn [o_call o_request o_wire o_result] in *; split;
     [intros Hv; eapply (field_call_ok _ _ _ _ _ _ _ _ _ _ _ _ He Hv); [done | by left |];
      first [exact normalizePost_typed | exact normalizeProfile_typed
            | intros x; by apply Hposts, normalizePost_typed | intros x; by apply Husers, normalizeUser_typed]
     | intros [Hst [m Hm]]%Herr; eexists; by apply (field_call_error _ _ _ _ _ _ _ _ _ He Hst Hm)]|]).
  destruct Hin.
Qed.
End Operations.

(** ** The transport *)

Definition demo_client : NbookONVMClient := {| apiEndpoint := API_ENDPOINT; programId := js "prog" |}.

Definition demo_answer : value := VObj [(js "status", VStr (js "ok")); (js "message", VStr (js "done"))].

(** The proxy's answer for a program that returned these bytes. *)
Definition proxy_answer (bs : bytes) : value := VObj [(js "return_base64", VStr (b64_encode bs)); (js "fuel", vint 1)].

Definition demo_response (bs : bytes) : http_response :=
  {| rs_status := 200; rs_statusText := []; rs_headers := []; rs_body := Ok (utf8_encode (json_text (proxy_answer bs))) |}.

Lemma operations_typed_witness :
  ∃ w, @register Models.engine (Models.env_with (λ _ _, Ok (demo_response (json_text demo_answer)))) world _
         demo_client (js "ann") (js "pw") fresh_world
       = (Ok w, {| sent := [post_json demo_client (execute_body demo_client
                     (b64_encode (json_text (VObj [(js "op", VStr (js "register")); (js "username", VStr (js "ann"));
                                                   (js "password", VStr (js "pw"))]))))]; ticks := 0; draws := 0 |}) ∧
       conforms OkResponse w = true.
Proof.
  destruct (@operations_typed Models.engine (Models.env_with (λ _ _, Ok (demo_response (json_text demo_answer)))) world _
    demo_client (js "t") (js "ann") (js "pw") [] 1 true
    {| o_call := @register Models.engine (Models.env_with (λ _ _, Ok (demo_response (json_text demo_answer)))) world _
                   demo_client (js "ann") (js "pw");
       o_wire := OkResponse; o_result := OkResponse;
       o_request := [(js "op", VStr (js "register")); (js "username", VStr (js "ann")); (js "password", VStr (js "pw"))] |}
    fresh_world
    {| sent := [post_json demo_client (execute_body demo_client
                 (b64_encode (json_text (VObj [(js "op", VStr (js "register")); (js "username", VStr (js "ann"));
                                               (js "password", VStr (js "pw"))]))))]; ticks := 0; draws := 0 |}
    demo_answer) as (_ & Hok & _); [by left | reflexivity|].
  exact (Hok eq_refl).
Defined.

Section Transport.
Context `{Engine} `{Env} {S : Type} `{HasWorld S}.

(** The transport is faithful for ASCII data: the program's input is the JSON
    text of the request, which it parses back to the request, and the JSON value
    the program returns is the value the client returns. *)
Theorem execute_roundtrip (c : NbookONVMClient) (request answer status : value) (s : S) (resp : http_response)
    (fs : list (jstr * value)) :
  json_data request → ascii_str (json_text request) → json_data answer → ascii_str (json_text answer) →
  get answer (js "status") = Ok status → truthy status = true →
  (∀ rq, server (sent (get_world s)) rq = Ok resp) → rs_ok resp = true → rs_json resp = Ok (VObj fs) →
  obj_get (js "return_base64") fs = Some (VStr (b64_encode (json_text answer))) →
  ∃ input s', executeProgram c request s = (Ok answer, s') ∧
    sent (get_world s') = sent (get_world s) ++ [post_json c (execute_body c input)] ∧
    json_parse (utf8_text (b64_decode input)) = Ok request.
Proof.
  intros Hr Hra Ha Haa Hst Htr Hsrv Hok Hj Hb.
  exists (b64_encode (json_text request)). eexists. split; [|split].
  - unfold executeProgram, btoa_call. rewrite btoa_bytes by by apply ascii_bytes.
    unfold bindM, liftM, fetch. rewrite Hsrv, Hok. cbn [negb]. unfold decode_result. rewrite Hj.
    cbn [outcome_bind get]. rewrite Hb. cbn [from_option outcome_bind]. unfold atob_call, id. cbn [to_string_prim].
    rewrite atob_encode by by apply ascii_bytes. cbn [outcome_bind]. rewrite json_parse_text by done.
    cbn [outcome_bind]. rewrite Hst. cbn [outcome_bind]. rewrite Htr. reflexivity.
  - by rewrite get_set_world.
  - rewrite b64_decode_encode by by apply ascii_bytes. rewrite utf8_text_ascii by done. by apply json_parse_text.
Qed.

(** A request with a character outside Latin-1 (an emoji in a post, a name in
    Cyrillic) cannot be sent: [btoa] throws before the network is used. *)
Theorem execute_non_latin1 (c : NbookONVMClient) (request : value) (s : S) (ch : Z) :
  ch ∈ json_text request → 255 < ch → executeProgram c request s = (Throw invalid_character, s).
Proof.
  intros Hin Hch. unfold executeProgram, btoa_call. by rewrite (btoa_none _ ch Hin Hch).
Qed.
End Transport.

Lemma execute_roundtrip_witness :
  ∃ input s', @executeProgram Models.engine (Models.env_with (λ _ _, Ok (demo_response (json_text demo_answer)))) world _
    demo_client (VObj [(js "op", VStr (js "get_post")); (js "post_id", VStr (js "p"))]) fresh_world = (Ok demo_answer, s') ∧
    sent s' = [post_json demo_client (execute_body demo_client input)].
Proof.
  destruct (@execute_roundtrip Models.engine (Models.env_with (λ _ _, Ok (demo_response (json_text demo_answer)))) world _
    demo_client (VObj [(js "op", VStr (js "get_post")); (js "post_id", VStr (js "p"))]) demo_answer (VStr (js "ok"))
    fresh_world (demo_response (json_text demo_answer))
    [(js "return_base64", VStr (b64_encode (json_text demo_answer))); (js "fuel", vint 1)]) as (input & s' & Hrun & Hs & _);
    try reflexivity; try decide_closed.
  - repeat constructor; try lia; decide_closed.
  - repeat constructor; try lia; decide_closed.
  - exists input, s'. split; [exact Hrun | exact Hs].
Defined.

(** Posting a euro sign. *)
Lemma execute_non_latin1_witness :
  @executeProgram Models.engine (Models.env_with (λ _ _, Ok (demo_response []))) world _ demo_client
    (VObj [(js "op", VStr (js "create_post")); (js "text", VStr [8364])]) fresh_world
  = (Throw invalid_character, fresh_world).
Proof.
  apply (@execute_non_latin1 Models.engine (Models.env_with (λ _ _, Ok (demo_response []))) world _ demo_client
    (VObj [(js "op", VStr (js "create_post")); (js "text", VStr [8364])]) fresh_world 8364); [decide_closed | lia].
Defined.

(** Answers are not decoded as UTF-8: a program that returns the message U+00E9
    in UTF-8 is read as the two characters U+00C3 U+00A9. *)
Theorem answer_not_utf8_decoded :
  @decode_result Models.engine
    (demo_response (utf8_encode (json_text (VObj [(js "status", VStr (js "ok")); (js "message", VStr [233])]))))
  = Ok (VObj [(js "status", VStr (js "ok")); (js "message", VStr [195; 169])]).
Proof. vm_compute. reflexivity. Qed.

End Nbook.
