(* ===== verification/NbookAuth.v ===== *)
(** * nbook/ui/lib/auth.ts and lib/api.ts: sessions and the authenticated calls *)

From S2P Require Import Prelude JsValue Codec Json Platform SdkErrors Browser Models NbookClient.

(** The state of the nbook front end: platform, [localStorage] and the client
    singleton. *)
Record nbook : Type := {
  nb_world : world;
  nb_storage : list (jstr * jstr);
  nb_client : option Nbook.NbookONVMClient;
}.

#[global] Instance nbook_HasWorld : HasWorld nbook.
Proof.
  by refine {| get_world := nb_world;
               set_world := λ w s, {| nb_world := w; nb_storage := nb_storage s; nb_client := nb_client s |} |}.
Defined.

#[global] Instance nbook_HasStorage : HasStorage nbook.
Proof.
  by refine {| get_storage := nb_storage;
               set_storage := λ st s, {| nb_world := nb_world s; nb_storage := st; nb_client := nb_client s |} |}.
Defined.

Module NbookAuth.
Import Errors.

Definition SESSION_KEY : jstr := js "nbook_session".

(** [interface User] of auth.ts. *)
Definition User : ty := TObj [mem "username" TStr; mem "session" TStr; mem "expiresAt" TNum].

Definition user_object (username : jstr) (session expiresAt : value) : value :=
  VObj [(js "username", VStr username); (js "session", session); (js "expiresAt", expiresAt)].

Section Auth.
Context `{Engine} `{Env} `{Nbook.BuildEnv} `{Window}.

(** [getNbookClient()]. *)
Definition the_client : M exn nbook Nbook.NbookONVMClient := λ s,
  let '(c, o) := Nbook.getNbookClient (nb_client s) in
  (Ok c, {| nb_world := nb_world s; nb_storage := nb_storage s; nb_client := o |}).

Definition setSession (session : value) (username : jstr) (expiresMs : value) : M exn nbook () :=
  if in_browser then setItem SESSION_KEY (json_text (user_object username session expiresMs)) else retM tt.

Definition clearSession : M exn nbook () :=
  if in_browser then removeItem SESSION_KEY else retM tt.

Definition getSession : M exn nbook (option value) :=
  if in_browser then
    let* data := getItem SESSION_KEY in
    match data with
    | Some (ch :: r) =>
        let* user := liftM (json_parse (ch :: r)) in
        let* expiresAt := liftM (get user (js "expiresAt")) in
        let* now := date_now in
        if js_gt expiresAt now then retM (Some user)
        else do* clearSession in retM None
    | _ => retM None
    end
  else retM None.

Definition register (username password : jstr) : M exn nbook () :=
  let* client := the_client in
  do* Nbook.register client username password in
  retM tt.

Definition login (username password : jstr) : M exn nbook value :=
  let* client := the_client in
  let* ' (session, expiresMs) := Nbook.login client username password in
  let user := user_object username session expiresMs in
  do* setSession session username expiresMs in
  retM user.

(** The console message of the [catch] is dropped. *)
Definition logout : M exn nbook () :=
  let* session := getSession in
  match session with
  | Some user =>
      let* client := the_client in
      do* catchM (let* token := liftM (get user (js "session")) in Nbook.logout client token) (λ _, retM tt) in
      clearSession
  | None => retM tt
  end.

Definition isAuthenticated : M exn nbook bool :=
  let* session := getSession in
  retM (match session with Some _ => true | None => false end).

(** [session?.username || null]. *)
Definition getCurrentUsername : M exn nbook value :=
  let* session := getSession in
  match session with
  | Some user =>
      let* username := liftM (get user (js "username")) in
      retM (js_or username VNull)
  | None => retM VNull
  end.

(** ** lib/api.ts *)

(** [session?.session || null]; [None] stands for a falsy token. *)
Definition getSessionToken : M exn nbook (option value) :=
  let* session := getSession in
  match session with
  | Some user =>
      let* token := liftM (get user (js "session")) in
      retM (if truthy token then Some token else None)
  | None => retM None
  end.

(** The guard of every authenticated call. *)
Definition with_session {A} (k : Nbook.NbookONVMClient → value → M exn nbook A) : M exn nbook A :=
  let* client := the_client in
  let* sessionToken := getSessionToken in
  match sessionToken with
  | Some token => k client token
  | None => throwM (Error (js "Not authenticated"))
  end.

Definition createPost (text : jstr) (attachments : list jstr) : M exn nbook value :=
  with_session (λ client token, Nbook.createPost client token text attachments).
Definition likePost (postId : jstr) : M exn nbook value :=
  with_session (λ client token, Nbook.likePost client token postId).
Definition commentOnPost (postId text : jstr) : M exn nbook value :=
  with_session (λ client token, Nbook.commentOnPost client token postId text).
Definition getPost (postId : jstr) : M exn nbook value :=
  let* client := the_client in Nbook.getPost client postId.
Definition followUser (username : jstr) : M exn nbook () :=
  with_session (λ client token, Nbook.follow client token username).
Definition unfollowUser (username : jstr) : M exn nbook () :=
  with_session (λ client token, Nbook.unfollow client token username).
Definition getFeed (limit : Z) (discover : bool) : M exn nbook value :=
  with_session (λ client token, Nbook.getFeed client token limit discover).
Definition getProfile (username : jstr) : M exn nbook value :=
  let* client := the_client in Nbook.getProfile client username.
Definition updateProfile (displayName bio avatarBlobId bannerBlobId : option jstr) : M exn nbook () :=
  with_session (λ client token, Nbook.updateProfile client token displayName bio avatarBlobId bannerBlobId).
Definition deletePost (postId : jstr) : M exn nbook () :=
  with_session (λ client token, Nbook.deletePost client token postId).
Definition searchUsers (query : jstr) (limit : Z) : M exn nbook value :=
  with_session (λ client token, Nbook.searchUsers client token query limit).
Definition getSuggestions (limit : Z) : M exn nbook value :=
  with_session (λ client token, Nbook.getSuggestions client token limit).
Definition listFollowers (username : jstr) (limit : Z) : M exn nbook value :=
  with_session (λ client token, Nbook.listFollowers client token username limit).
Definition listFollowing (username : jstr) (limit : Z) : M exn nbook value :=
  with_session (λ client token, Nbook.listFollowing client token username limit).

(** [file.arrayBuffer()] gives the file's bytes. *)
Definition uploadBlob (file : bytes) : M exn nbook value :=
  let* client := the_client in Nbook.uploadBlob client file.
Definition fetchBlob (id : jstr) : M exn nbook (bytes * jstr) :=
  let* client := the_client in Nbook.fetchBlob client id.
End Auth.

(** ** Sessions *)

Section Sessions.
Context `{Engine} `{Env} `{Nbook.BuildEnv} `{Window}.

Definition stored_session (s : nbook) : option jstr := obj_get SESSION_KEY (nb_storage s).

(** A session as [login] stores it. *)
Definition session_of (username token : jstr) (exp : Z) : value := user_object username (VStr token) (vint exp).

Definition session_data (username token : jstr) (exp : Z) : Prop :=
  unit_str username ∧ unit_str token ∧ Z.abs exp < 10 ^ 21.

Lemma session_json username token exp :
  session_data username token exp → json_data (session_of username token exp).
Proof.
  intros (Hu & Ht & He). constructor.
  - decide_closed.
  - repeat constructor; decide_closed.
  - repeat constructor; done.
Qed.

Definition tick (s : nbook) : nbook :=
  set_world {| sent := sent (nb_world s); ticks := S (ticks (nb_world s)); draws := draws (nb_world s) |} s.

Definition cleared (s : nbook) : nbook := set_storage (obj_remove SESSION_KEY (nb_storage s)) s.

Lemma getSession_none s : in_browser = true → stored_session s = None → getSession s = (Ok None, s).
Proof.
  intros Hw Hs. unfold getSession. rewrite Hw. unfold bindM, getItem. cbn [get_storage nbook_HasStorage].
  unfold stored_session in Hs. by rewrite Hs.
Qed.

(** A stored text that is not JSON. *)
Lemma getSession_unreadable s c t e :
  in_browser = true → stored_session s = Some (c :: t) → json_parse (c :: t) = Throw e → getSession s = (Throw e, s).
Proof.
  intros Hw Hs He. unfold getSession. rewrite Hw. unfold bindM at 1, getItem. cbn [get_storage nbook_HasStorage].
  unfold stored_session in Hs. rewrite Hs. unfold bindM, liftM. by rewrite He.
Qed.

Lemma getSession_stored s username token exp :
  in_browser = true → session_data username token exp →
  stored_session s = Some (json_text (session_of username token exp)) →
  getSession s = if clock (ticks (nb_world s)) <? exp
                 then (Ok (Some (session_of username token exp)), tick s)
                 else (Ok None, cleared (tick s)).
Proof.
  intros Hw Hd Hs. pose proof (session_json _ _ _ Hd) as Hj.
  unfold getSession. rewrite Hw. unfold bindM, getItem. cbn [get_storage nbook_HasStorage].
  unfold stored_session in Hs. rewrite Hs.
  destruct (json_text_head _ Hj) as (c & t & Ht & _). rewrite Ht, <- Ht. unfold liftM. rewrite json_parse_text by done.
  change (get (session_of username token exp) (js "expiresAt")) with (Ok (vint exp) : outcome exn value).
  cbv beta iota. unfold date_now. cbn [get_world nbook_HasWorld js_gt vint num_gt].
  destruct (clock (ticks (nb_world s)) <? exp); [done|]. unfold clearSession. by rewrite Hw.
Qed.

(** A session lives from [setSession] until its expiry: while the clock is before
    [expiresAt] the very user object comes back; the first reading at or after it
    gives [null] and removes the stored session; no other stored item is touched. *)
Theorem session_lifecycle (s : nbook) (username token : jstr) (exp : Z) (k : jstr) :
  in_browser = true → session_data username token exp → k ≠ SESSION_KEY →
  let now := clock (ticks (nb_world s)) in
  let s1 := (setSession (VStr token) username (vint exp) s).2 in
  let '(o, s2) := getSession s1 in
  o = Ok (if now <? exp then Some (session_of username token exp) else None) ∧
  stored_session s2 = (if now <? exp then Some (json_text (session_of username token exp)) else None) ∧
  obj_get k (nb_storage s2) = obj_get k (nb_storage s).
Proof.
  intros Hw Hd Hk now s1.
  assert (s1 = set_storage (obj_set SESSION_KEY (json_text (session_of username token exp)) (nb_storage s)) s) as Hs1
    by (unfold s1, setSession; by rewrite Hw).
  rewrite (getSession_stored s1 username token exp Hw Hd) by (rewrite Hs1; apply obj_get_set).
  replace (clock (ticks (nb_world s1))) with now by by rewrite Hs1.
  rewrite Hs1. destruct (now <? exp); (split; [done|]); split.
  - apply obj_get_set.
  - by apply obj_get_set_ne.
  - apply obj_get_remove.
  - unfold cleared, tick. cbn [nb_storage set_storage set_world nbook_HasStorage nbook_HasWorld].
    by rewrite obj_get_remove_ne, obj_get_set_ne.
Qed.

(** ** Authenticated calls *)

Definition ignore {A} (c : M exn nbook A) : M exn nbook () := let* _ := c in retM tt.

Definition authenticated_calls (a b : jstr) (o : option jstr) (l : list jstr) (n : Z) (d : bool) : list (M exn nbook ()) :=
  [ ignore (createPost a l); ignore (likePost a); ignore (commentOnPost a b); followUser a; unfollowUser a;
    ignore (getFeed n d); updateProfile o o o o; deletePost a; ignore (searchUsers a n); ignore (getSuggestions n);
    ignore (listFollowers a n); ignore (listFollowing a n) ].

Definition with_nb_client (s : nbook) : nbook :=
  {| nb_world := nb_world s; nb_storage := nb_storage s; nb_client := Some (Nbook.getNbookClient (nb_client s)).1 |}.

Lemma the_client_run s : the_client s = (Ok (Nbook.getNbookClient (nb_client s)).1, with_nb_client s).
Proof. unfold the_client, with_nb_client. by destruct (nb_client s). Qed.

Lemma with_session_refused {A} (k : Nbook.NbookONVMClient → value → M exn nbook A) s s' :
  getSession (with_nb_client s) = (Ok None, s') → with_session k s = (Throw (Error (js "Not authenticated")), s').
Proof.
  intros Hs. unfold with_session. rewrite (bindM_ok _ _ _ _ _ (the_client_run s)).
  unfold getSessionToken. unfold bindM at 1 2. by rewrite Hs.
Qed.

Lemma with_session_passes {A} (k : Nbook.NbookONVMClient → value → M exn nbook A) s username token exp :
  in_browser = true → session_data username token exp → token ≠ [] →
  stored_session s = Some (json_text (session_of username token exp)) → clock (ticks (nb_world s)) < exp →
  with_session k s = k (Nbook.getNbookClient (nb_client s)).1 (VStr token) (tick (with_nb_client s)).
Proof.
  intros Hw Hd Ht Hs Hexp. unfold with_session. rewrite (bindM_ok _ _ _ _ _ (the_client_run s)).
  unfold getSessionToken. unfold bindM at 1 2.
  rewrite (getSession_stored (with_nb_client s) username token exp Hw Hd Hs).
  cbn [nb_world with_nb_client]. rewrite (proj2 (Z.ltb_lt _ _) Hexp).
  unfold liftM. change (get (session_of username token exp) (js "session")) with (Ok (VStr token) : outcome exn value).
  unfold bindM. by destruct token.
Qed.

(** Without a valid session (none stored, or an expired one) every authenticated
    call throws [Not authenticated] and sends nothing; afterwards no session is
    stored. *)
Theorem logged_out_sends_nothing (a b : jstr) (o : option jstr) (l : list jstr) (n : Z) (d : bool)
    (c : M exn nbook ()) (s : nbook) (username token : jstr) (exp : Z) :
  in_browser = true → In c (authenticated_calls a b o l n d) →
  stored_session s = None ∨
  (session_data username token exp ∧ stored_session s = Some (json_text (session_of username token exp)) ∧
   exp ≤ clock (ticks (nb_world s))) →
  ∃ s', c s = (Throw (Error (js "Not authenticated")), s') ∧
        sent (nb_world s') = sent (nb_world s) ∧ stored_session s' = None.
Proof.
  intros Hw Hin Hs.
  assert (∃ s', getSession (with_nb_client s) = (Ok None, s') ∧ sent (nb_world s') = sent (nb_world s) ∧
                stored_session s' = None) as (s' & Hg & Hsent & Hst).
  { destruct Hs as [Hs|(Hd & Hs & Hexp)].
    - exists (with_nb_client s). split; [by apply getSession_none | done].
    - exists (cleared (tick (with_nb_client s))). split; [|split; [done | apply obj_get_remove]].
      rewrite (getSession_stored (with_nb_client s) username token exp Hw Hd Hs). cbn [nb_world with_nb_client].
      by rewrite (proj2 (Z.ltb_ge _ _)). }
  exists s'. split; [|done]. simpl in Hin.
  repeat (destruct Hin as [<-|Hin];
    [first [by apply with_session_refused | unfold ignore; apply bindM_err; by apply with_session_refused]|]).
  destruct Hin.
Qed.

(** What one call of the program puts on the wire; the stored items and the client stay. *)
Definition program_message (c : Nbook.NbookONVMClient) (request : value) : list http_request :=
  match btoa (json_text request) with
  | Some input => [Nbook.post_json c (Nbook.execute_body c input)]
  | None => []
  end.

Lemma execute_frame c request (s : nbook) :
  nb_storage (Nbook.executeProgram c request s).2 = nb_storage s ∧
  sent (nb_world (Nbook.executeProgram c request s).2) = sent (nb_world s) ++ program_message c request ∧
  nb_client (Nbook.executeProgram c request s).2 = nb_client s.
Proof.
  unfold Nbook.executeProgram, btoa_call, program_message, bindM, liftM, fetch.
  destruct (btoa _) as [input|]; [|by rewrite app_nil_r].
  destruct (server _ _) as [r|]; [|done]. by destruct (negb (rs_ok r)).
Qed.

Lemma call_frame c request fallback (s : nbook) :
  nb_storage (Nbook.call c request fallback s).2 = nb_storage s ∧
  sent (nb_world (Nbook.call c request fallback s).2) = sent (nb_world s) ++ program_message c (VObj request) ∧
  nb_client (Nbook.call c request fallback s).2 = nb_client s.
Proof.
  unfold Nbook.call, bindM, liftM, retM. pose proof (execute_frame c (VObj request) s) as Hs.
  destruct (Nbook.executeProgram _ _ s) as [[v|e] s1]; [|done]. by destruct (Nbook.check_status _ _).
Qed.

(** Logging out always works: with a valid session stored, [logout] does not
    throw, whatever the network or the program answers, asks the program once to
    end this very session, and removes the session from the browser. *)
Theorem logout_clears (s : nbook) (username token : jstr) (exp : Z) :
  in_browser = true → session_data username token exp →
  stored_session s = Some (json_text (session_of username token exp)) → clock (ticks (nb_world s)) < exp →
  let '(o, s') := logout s in
  o = Ok tt ∧ stored_session s' = None ∧
  sent (nb_world s') = sent (nb_world s)
    ++ program_message (Nbook.getNbookClient (nb_client s)).1
         (VObj [(js "op", VStr (js "logout")); (js "session", VStr token)]).
Proof.
  intros Hw Hd Hs Hexp. unfold logout. unfold bindM at 1.
  rewrite (getSession_stored s username token exp Hw Hd Hs), (proj2 (Z.ltb_lt _ _) Hexp).
  rewrite (bindM_ok _ _ _ _ _ (the_client_run (tick s))). cbn [nb_client tick set_world nbook_HasWorld].
  set (c := (Nbook.getNbookClient (nb_client s)).1).
  unfold catchM, bindM, liftM.
  change (get (session_of username token exp) (js "session")) with (Ok (VStr token) : outcome exn value). cbv beta iota.
  unfold Nbook.logout, bindM.
  pose proof (call_frame c [(js "op", VStr (js "logout")); (js "session", VStr token)] (js "logout failed")
    (with_nb_client (tick s))) as (Hst & Hsent & _).
  destruct (Nbook.call _ _ _ _) as [[v|e] s1]; cbn [snd] in *; unfold retM, clearSession; rewrite Hw; unfold removeItem;
    (split; [done|]; split; [apply obj_get_remove | exact Hsent]).
Qed.
End Sessions.

(** ** A logged-in browser *)

Definition ann : nbook :=
  {| nb_world := fresh_world; nb_client := None;
     nb_storage := [(SESSION_KEY, json_text (session_of (js "ann") (js "t0ken") 1800000000000))] |}.

Lemma ann_session_data exp : Z.abs exp < 10 ^ 21 → session_data (js "ann") (js "t0ken") exp.
Proof. intros He. split; [decide_closed|]. split; [decide_closed | done]. Qed.

Definition offline : Env := Models.env_with (λ _ _, Throw (JsErr (js "TypeError") (js "Failed to fetch"))).

Lemma session_lifecycle_witness :
  (@getSession Models.engine offline true (@setSession true (VStr (js "t0ken")) (js "ann") (vint 1800000000000) ann).2).1
  = Ok (Some (session_of (js "ann") (js "t0ken") 1800000000000)).
Proof.
  pose proof (@session_lifecycle Models.engine offline true ann (js "ann") (js "t0ken") 1800000000000 (js "other")
    eq_refl (ann_session_data 1800000000000 eq_refl) ltac:(discriminate)) as Hl. cbv zeta in Hl.
  destruct (getSession _) as [o s2]. destruct Hl as [Ho _]. exact Ho.
Defined.

Lemma logged_out_sends_nothing_witness :
  ∃ s', @deletePost Models.engine offline None true (js "p") {| nb_world := fresh_world; nb_storage := []; nb_client := None |}
        = (Throw (Error (js "Not authenticated")), s').
Proof.
  destruct (@logged_out_sends_nothing Models.engine offline None true (js "p") [] None [] 0 true
    (@deletePost Models.engine offline None true (js "p"))
    {| nb_world := fresh_world; nb_storage := []; nb_client := None |} [] [] 0) as (s' & Hs & _);
    [reflexivity | do 7 right; by left | by left|].
  exists s'. exact Hs.
Defined.

Lemma logout_clears_witness :
  (@logout Models.engine offline None true ann).1 = Ok tt ∧
  stored_session (@logout Models.engine offline None true ann).2 = None.
Proof.
  pose proof (@logout_clears Models.engine offline None true ann (js "ann") (js "t0ken") 1800000000000
    eq_refl (ann_session_data 1800000000000 eq_refl) eq_refl eq_refl) as Hl.
  destruct (logout ann) as [o s']. destruct Hl as (Ho & Hs & _). split; [exact Ho | exact Hs].
Defined.

End NbookAuth.
