(* ===== verification/NbookRoutes.v ===== *)
(** * nbook/ui/app/api/onvm: the Next.js proxy between the browser and the node

    The two route handlers hold a lazily created SDK client in a module variable;
    their state is that variable and the platform. *)

From S2P Require Import Prelude JsValue Codec Json Sha256 Platform SdkErrors SdkTypes Models SdkAuth SdkClient Browser NbookClient NodeRpc.

Module Routes.
Import Errors Types Client.

(** [process.env] of the server. *)
Class ServerEnv : Type := {
  RPC_ENDPOINT : option jstr;
  PROGRAM_ID : option jstr;
  PROJECT_ID : option jstr;
  PROJECT_SECRET : option jstr;
}.

Record route : Type := {
  clientInstance : option OnvmClient;
  r_world : world;
  r_timers : nat;
}.

(** A request that reaches a handler. *)
Record incoming : Type := {
  in_contentType : option jstr;
  in_body : outcome exn bytes;
}.

(** [NextResponse.json(v, { status })] and [new NextResponse(bytes, ...)]. *)
Definition json_response (status : Z) (v : value) : http_response :=
  {| rs_status := status; rs_statusText := []; rs_headers := [(js "content-type", js "application/json")];
     rs_body := Ok (utf8_encode (json_text v)) |}.

Definition bytes_response (headers : list (jstr * jstr)) (bs : bytes) : http_response :=
  {| rs_status := 200; rs_statusText := []; rs_headers := headers; rs_body := Ok bs |}.

Definition error_body (message : jstr) : value := VObj [(js "error", VStr message)].

Section Handlers.
Context `{Engine} `{Env} `{XChaCha} `{ServerEnv}.

(** Runs a method of the client object held in the module variable. *)
Definition on_client {A} (c : OnvmClient) (m : M exn sdk A) : M exn route A := λ r,
  let '(o, s) := m {| client := c; wd := r_world r; pending_timers := r_timers r |} in
  (o, {| clientInstance := Some (client s); r_world := wd s; r_timers := pending_timers s |}).

Definition get_client (make : outcome exn OnvmClient) : M exn route OnvmClient := λ r,
  match clientInstance r with
  | Some c => (Ok c, r)
  | None =>
      match make with
      | Ok c => (Ok c, {| clientInstance := Some c; r_world := r_world r; r_timers := r_timers r |})
      | Throw e => (Throw e, r)
      end
  end.

Definition sdk_config (url : jstr) (program : option jstr) : OnvmClientConfig :=
  {| cfg_rpcUrl := url; cfg_programId := program; cfg_projectId := PROJECT_ID;
     cfg_projectSecret := PROJECT_SECRET; cfg_mode := None; cfg_timeout := Some 30000 |}.

(** ** route.ts *)

(** Without [ONVM_RPC_ENDPOINT] the constructor reads a property of [undefined]. *)
Definition getClient : M exn route OnvmClient :=
  get_client (match RPC_ENDPOINT with
              | Some url => new_OnvmClient (sdk_config url PROGRAM_ID)
              | None => type_error (js "replace")
              end).

(** [catch (error)] of the handlers. *)
Definition failure_response (fallback : jstr) (e : exn) : http_response :=
  json_response 500 (error_body (message_or fallback e)).

Definition json_operation (c : OnvmClient) (body : value) : M exn route http_response :=
  let* operation := liftM (get body (js "operation")) in
  if is_str (js "executeProgram") operation then
    let* program_id := liftM (get body (js "program_id")) in
    let* input_base64 := liftM (get body (js "input_base64")) in
    let* result := on_client c (Client.executeProgram
                     (VObj [(js "program_id", program_id); (js "input_base64", input_base64)])) in
    retM (json_response 200 result)
  else if is_str (js "downloadBlob") operation then
    let* id := liftM (get body (js "id")) in
    let* buffer := on_client c (Client.downloadBlob (to_string_prim id)) in
    retM (bytes_response [(js "content-type", js "application/octet-stream")] buffer)
  else retM (json_response 400 (error_body (js "Invalid operation"))).

Definition POST (request : incoming) : M exn route http_response :=
  let contentType := default [] (in_contentType request) in
  let* c := getClient in
  if negb (includes (js "application/json") contentType) then
    catchM
      (let* arrayBuffer := liftM (in_body request) in
       let* result := on_client c (Client.uploadBlob arrayBuffer None) in
       retM (json_response 200 result))
      (λ error, retM (failure_response (js "Upload failed") error))
  else
    catchM
      (let* bs := liftM (in_body request) in
       let* body := liftM (json_parse (utf8_text bs)) in
       json_operation c body)
      (λ error, retM (failure_response (js "Unknown error") error)).

(** ** blob/[id]/route.ts *)

Definition getBlobClient : M exn route OnvmClient :=
  get_client (new_OnvmClient (sdk_config (str_or (default [] RPC_ENDPOINT) []) None)).

Definition sniffContentType (buffer : bytes) : jstr :=
  let long := (8 <=? length buffer)%nat in
  if long && Nbook.bytes_at buffer 0 [0x89; 0x50; 0x4e; 0x47] then js "image/png"
  else if long && Nbook.bytes_at buffer 0 [0xff; 0xd8; 0xff] then js "image/jpeg"
  else if long && Nbook.bytes_at buffer 0 [0x47; 0x49; 0x46; 0x38] then js "image/gif"
  else if long && Nbook.bytes_at buffer 0 [0x52; 0x49; 0x46; 0x46] && (12 <=? length buffer)%nat
          && Nbook.bytes_at buffer 8 [0x57; 0x45; 0x42; 0x50] then js "image/webp"
  else
    let prefix := utf8_decode (take 5 buffer) in
    if starts_with (js "<?xml") prefix || starts_with (js "<svg") prefix then js "image/svg+xml"
    else js "application/octet-stream".

Definition GET (blobId : jstr) : M exn route http_response :=
  match blobId with
  | [] => retM (json_response 400 (error_body (js "missing blob id")))
  | _ =>
      catchM
        (let* c := getBlobClient in
         let* buffer := on_client c (Client.downloadBlob blobId) in
         retM (bytes_response [(js "content-type", sniffContentType buffer);
                               (js "cache-control", js "public, max-age=60")] buffer))
        (λ error, retM (failure_response (js "Failed to fetch blob") error))
  end.
End Handlers.

(** ** The handlers always answer *)

Section Totality.
Context `{Engine} `{Env} `{XChaCha} `{ServerEnv}.

Definition answers (statuses : list Z) (o : outcome exn http_response) : Prop :=
  ∃ resp, o = Ok resp ∧ In (rs_status resp) statuses.

(** A computation whose normal results are responses with one of the statuses. *)
Definition responds (statuses : list Z) (m : M exn route http_response) : Prop :=
  ∀ r resp r', m r = (Ok resp, r') → In (rs_status resp) statuses.

Lemma responds_bind {A} statuses (m : M exn route A) k :
  (∀ a, responds statuses (k a)) → responds statuses (bindM m k).
Proof. intros Hk r resp r' Hr. apply bindM_inv_ok in Hr as (a & r1 & _ & Hk'). by apply Hk in Hk'. Qed.

Lemma responds_ret statuses resp : In (rs_status resp) statuses → responds statuses (retM resp).
Proof. intros Hin r resp' r' Hr. unfold retM in Hr. by injection Hr as <- _. Qed.

Lemma catch_answers statuses m fallback :
  responds statuses m → In 500 statuses →
  ∀ r, answers statuses (catchM m (λ error, retM (failure_response fallback error)) r).1.
Proof.
  intros Hm H500 r. unfold catchM. destruct (m r) as [[resp|e] r'] eqn:Hr.
  - exists resp. split; [done | by eapply Hm].
  - eexists. split; [done|]. done.
Qed.

Lemma json_operation_responds c body : responds [200; 400] (json_operation c body).
Proof.
  unfold json_operation. apply responds_bind. intros operation.
  case_if; [do 3 (apply responds_bind; intros ?); apply responds_ret; simpl; tauto|].
  case_if; [do 2 (apply responds_bind; intros ?); apply responds_ret; simpl; tauto|].
  apply responds_ret. simpl. tauto.
Qed.

Lemma responds_weaken l l' m : incl l l' → responds l m → responds l' m.
Proof. intros Hi Hm r resp r' Hr. by apply Hi, (Hm _ _ _ Hr). Qed.

(** The blob handler never throws: for every blob id and every behaviour of the
    node it answers 200, 400 or 500.  So does the proxy handler once its client
    exists or its configuration is valid; with [ONVM_RPC_ENDPOINT] unset, however,
    the proxy throws out of the handler, since the client is made outside [try]. *)
Theorem handlers_answer (request : incoming) (blobId : jstr) (r : route) :
  answers [200; 400; 500] (GET blobId r).1 ∧
  (is_Some (clientInstance r) → answers [200; 400; 500] (POST request r).1) ∧
  (clientInstance r = None → RPC_ENDPOINT = None → ∃ m, (POST request r).1 = Throw (JsErr (js "TypeError") m)).
Proof.
  split; [|split].
  - unfold GET. destruct blobId as [|b blobId]; [eexists; split; [done|]; simpl; tauto|].
    apply catch_answers; [|simpl; tauto].
    apply responds_bind. intros c. apply responds_bind. intros bs. apply responds_ret. simpl. tauto.
  - intros [c Hc]. unfold POST, getClient, get_client. unfold bindM at 1. rewrite Hc.
    case_if; (apply catch_answers; [|simpl; tauto]).
    + apply responds_bind. intros bs. apply responds_bind. intros v. apply responds_ret. simpl. tauto.
    + apply responds_bind. intros bs. apply responds_bind. intros v.
      eapply responds_weaken; [|apply json_operation_responds]. intros x. simpl. tauto.
  - intros Hc He. unfold POST, getClient, get_client, bindM. rewrite Hc, He. eexists. reflexivity.
Qed.

(** ** The proxy is transparent *)

Lemma get_client_cached make r c : clientInstance r = Some c → get_client make r = (Ok c, r).
Proof. intros Hc. unfold get_client. by rewrite Hc. Qed.

Definition as_sdk (c : OnvmClient) (r : route) : sdk :=
  {| client := c; wd := r_world r; pending_timers := r_timers r |}.

Definition of_sdk (s : sdk) : route := {| clientInstance := Some (client s); r_world := wd s; r_timers := pending_timers s |}.

Lemma on_client_run {A} c (m : M exn sdk A) r o s : m (as_sdk c r) = (o, s) → on_client c m r = (o, of_sdk s).
Proof. intros Hm. unfold on_client. unfold as_sdk in Hm. by rewrite Hm. Qed.

Lemma liftM_ok {A} (o : outcome exn A) a (r : route) : o = Ok a → liftM o r = (Ok a, r).
Proof. by intros ->. Qed.

Lemma get_field fs k x : obj_get k fs = Some x → get (VObj fs) k = Ok x.
Proof. intros Hk. simpl. by rewrite Hk. Qed.

Lemma proxy_execute_run (request : incoming) (r : route) (c : OnvmClient) (fs : list (jstr * value))
    (program_id input : value) (bs : bytes) (resp : http_response) (v : value) :
  clientInstance r = Some c → detectedNodeMode c = Some dev →
  includes (js "application/json") (default [] (in_contentType request)) = true →
  in_body request = Ok bs → json_parse (utf8_text bs) = Ok (VObj fs) →
  obj_get (js "operation") fs = Some (VStr (js "executeProgram")) →
  obj_get (js "program_id") fs = Some program_id → obj_get (js "input_base64") fs = Some input →
  (∀ rq, server (sent (r_world r)) rq = Ok resp) → rs_ok resp = true → rs_text resp = Ok (json_text v) → json_data v →
  ∃ r', POST request r = (Ok (json_response 200 v), r') ∧
    sent (r_world r') = sent (r_world r)
      ++ [rpc_message c (js "POST") (js "/execute")
            (json_text (VObj [(js "program_id", program_id); (js "input_base64", input)])) json_content].
Proof.
  intros Hc Hm Hct Hb Hp Ho Hpid Hin Hsrv Hok Ht Hv.
  set (body := VObj [(js "program_id", program_id); (js "input_base64", input)]).
  pose proof (request_dev_ok (js "POST") (js "/execute") body (as_sdk c r) resp v Hm Hsrv Hok Ht Hv) as Hreq.
  eexists. split.
  - unfold POST, getClient. rewrite (bindM_ok _ _ _ _ _ (get_client_cached _ _ _ Hc)), Hct. cbn [negb].
    unfold catchM. rewrite (bindM_ok _ _ _ _ _ (liftM_ok _ _ r Hb)), (bindM_ok _ _ _ _ _ (liftM_ok _ _ r Hp)).
    unfold json_operation.
    rewrite (bindM_ok _ _ _ _ _ (liftM_ok _ _ r (get_field _ _ _ Ho))). cbn [is_str]. rewrite str_eqb_refl.
    rewrite (bindM_ok _ _ _ _ _ (liftM_ok _ _ r (get_field _ _ _ Hpid))).
    rewrite (bindM_ok _ _ _ _ _ (liftM_ok _ _ r (get_field _ _ _ Hin))). fold body.
    rewrite (bindM_ok _ _ _ _ _ (on_client_run c _ r _ _ Hreq)). reflexivity.
  - reflexivity.
Qed.
End Totality.

(** ** From the browser to the program and back *)

(** A message of the browser as the handler receives it. *)
Definition incoming_of (rq : http_request) : incoming :=
  {| in_contentType := obj_get (js "Content-Type") (rq_headers rq); in_body := Ok (body_bytes (rq_body rq)) |}.

(** The text of an object, as it is sent and read. *)
Lemma object_text_read fs : json_data (VObj fs) → utf8_text (utf8_encode (json_text (VObj fs))) = json_text (VObj fs).
Proof.
  intros Hd. pose proof (json_text_utf8 _ Hd) as Hu. assert (∃ t, json_text (VObj fs) = 123 :: t) as [t Ht] by by eexists.
  rewrite Ht in *. unfold utf8_text. rewrite utf8_encode_ascii_cons in * by lia. exact Hu.
Qed.

Lemma ascii_units s : ascii_str s → unit_str s.
Proof. intros Hs. eapply Forall_impl; [exact Hs|]. cbn. lia. Qed.

Lemma execute_body_data nb input : unit_str (Nbook.programId nb) → byte_list input → json_data (Nbook.execute_body nb (b64_encode input)).
Proof.
  intros Hp Hi. pose proof (ascii_units _ (b64_encode_ascii input Hi)). constructor; [apply (bool_decide_unpack _); vm_compute; exact I| |].
  - repeat constructor; cbn; lia.
  - repeat (constructor; [constructor; try done; repeat constructor; cbn; lia|]). constructor.
Qed.

Lemma execute_answer_data out fuel : byte_list out → 0 ≤ fuel < 2 ^ 64 → json_data (NodeRpc.execute_answer out fuel).
Proof.
  intros Ho Hf. pose proof (b64_encode_ascii out Ho) as Ha.
  constructor; [apply (bool_decide_unpack _); vm_compute; exact I|repeat constructor; cbn; lia|].
  constructor; [constructor; cbn; rewrite utf8_decode_ascii by done; by apply ascii_units|]. constructor; [constructor; lia|constructor].
Qed.

(** C22 The whole way of a program call, when the proxy's SDK client has found the node in
    dev mode and the node answers with the bytes [out] that the program returned.  A request
    whose JSON text has a character above U+00FF is refused in the browser, and nothing is
    sent.  Any other one reaches the node's [/execute] with the program id, the request's
    text as the input, one byte per character, and nothing else; and what the browser's
    client returns is what [JSON.parse] makes of [out] read one character per byte, or an
    error if that is no JSON or has no status.  So an answer in ASCII comes back unchanged. *)
Theorem browser_to_program (eng : Engine) (browser_env node_env : Env) (aead : XChaCha) (env : ServerEnv)
    (nb : Nbook.NbookONVMClient) (w : world) (r : route) (c : OnvmClient)
    (request : value) (out : bytes) (fuel : Z) (resp : http_response) :
  let text := json_text request in
  clientInstance r = Some c → detectedNodeMode c = Some dev → unit_str (Nbook.programId nb) →
  (∀ hist rq, @server browser_env hist rq = (@POST eng node_env aead env (incoming_of rq) r).1) →
  (∀ rq, @server node_env (sent (r_world r)) rq = Ok resp) → rs_ok resp = true →
  rs_text resp = Ok (json_text (NodeRpc.execute_answer out fuel)) → byte_list out → 0 ≤ fuel < 2 ^ 64 →
  (∀ ch, ch ∈ text → 255 < ch → @Nbook.executeProgram eng browser_env world _ nb request w = (Throw invalid_character, w)) ∧
  (byte_list text →
    (@Nbook.executeProgram eng browser_env world _ nb request w).1
    = (let! answer := json_parse out in
       let! status := get answer (js "status") in
       if truthy status then Ok answer else Throw (Error (js "invalid response from program"))) ∧
    sent (r_world (@POST eng node_env aead env (incoming_of (Nbook.post_json nb (Nbook.execute_body nb (b64_encode text)))) r).2)
    = sent (r_world r)
      ++ [rpc_message c (js "POST") (js "/execute")
            (json_text (VObj [(js "program_id", VStr (Nbook.programId nb)); (js "input_base64", VStr (b64_encode text))])) json_content] ∧
    (∀ answer status, json_data answer → ascii_str (json_text answer) → out = utf8_encode (json_text answer) →
      get answer (js "status") = Ok status → truthy status = true →
      (@Nbook.executeProgram eng browser_env world _ nb request w).1 = Ok answer)).
Proof.
  intros text Hc Hm Hpid Hproxy Hnode Hok Ht Hout Hfuel.
  split; [intros ch Hin Hch; by apply (Nbook.execute_non_latin1 nb request w ch)|]. intros Hlatin.
  set (input := b64_encode text). pose proof (execute_answer_data out fuel Hout Hfuel) as Hrep.
  assert (utf8_text (utf8_encode (json_text (NodeRpc.execute_answer out fuel))) = json_text (NodeRpc.execute_answer out fuel)) as Hread
    by exact (object_text_read _ Hrep).
  assert (json_data (Nbook.execute_body nb input)) as Hbody by by apply execute_body_data.
  assert (json_parse (utf8_text (utf8_encode (json_text (Nbook.execute_body nb input)))) = Ok (Nbook.execute_body nb input))
    as Hparse by (unfold Nbook.execute_body in *; rewrite object_text_read by done; by apply json_parse_text).
  destruct (@proxy_execute_run eng node_env aead env
    (incoming_of (Nbook.post_json nb (Nbook.execute_body nb input))) r c
    [(js "operation", VStr (js "executeProgram")); (js "program_id", VStr (Nbook.programId nb)); (js "input_base64", VStr input)]
    (VStr (Nbook.programId nb)) (VStr input) (utf8_encode (json_text (Nbook.execute_body nb input))) resp (NodeRpc.execute_answer out fuel)
    Hc Hm eq_refl eq_refl Hparse eq_refl eq_refl eq_refl Hnode Hok Ht Hrep) as (r' & Hpost & Hsent).
  assert ((@Nbook.executeProgram eng browser_env world _ nb request w).1
    = (let! answer := json_parse out in
       let! status := get answer (js "status") in
       if truthy status then Ok answer else Throw (Error (js "invalid response from program")))) as Hans.
  { unfold Nbook.executeProgram, btoa_call. fold text. rewrite btoa_bytes by done. fold input.
    unfold bindM, liftM, fetch. rewrite Hproxy, Hpost. cbn [fst json_response rs_ok rs_status].
    change (negb (rs_ok (json_response 200 (NodeRpc.execute_answer out fuel)))) with false. cbv iota.
    unfold Nbook.decode_result, rs_json, rs_text. cbn [json_response rs_body outcome_bind fst]. rewrite Hread, json_parse_text by done. cbn [outcome_bind]. change (get (NodeRpc.execute_answer out fuel) (js "return_base64")) with (Ok (E := exn) (VStr (utf8_decode (b64_encode out)))).
    cbn [outcome_bind]. rewrite utf8_decode_ascii by by apply b64_encode_ascii.
    unfold atob_call. cbn [to_string_prim]. rewrite atob_encode by done. cbn [outcome_bind].
    destruct (json_parse out) as [answer|]; [|done]. cbn [outcome_bind]. destruct (get answer (js "status")) as [status|]; [|done]. cbn [outcome_bind].
    by destruct (truthy status). }
  split; [exact Hans|]. split; [by rewrite Hpost|]. intros answer status Ha Haa -> Hst Htr.
  rewrite Hans, utf8_encode_ascii, json_parse_text by done. cbn [outcome_bind]. rewrite Hst. cbn [outcome_bind]. by rewrite Htr.
Qed.

Definition demo_env : ServerEnv :=
  {| RPC_ENDPOINT := Some (js "http://n"); PROGRAM_ID := None; PROJECT_ID := None; PROJECT_SECRET := None |}.

Definition demo_route : route :=
  {| clientInstance := Some {| rpcUrl := js "http://n"; programId := None; projectId := None; projectSecret := None;
                               timeout := 30000; derivedKeys := None; detectedNodeMode := Some dev |};
     r_world := fresh_world; r_timers := 0 |}.

Definition demo_request : value := VObj [(js "op", VStr (js "get_post")); (js "post_id", VStr (js "p"))].

Definition demo_node : Env :=
  Models.env_with (λ _ _, Ok (Nbook.demo_response (json_text Nbook.demo_answer))).

Definition demo_browser : Env :=
  Models.env_with (λ _ rq, (@POST Models.engine demo_node Models.mac_aead demo_env (incoming_of rq) demo_route).1).

Lemma browser_to_program_witness :
  (@Nbook.executeProgram Models.engine demo_browser world _ Nbook.demo_client demo_request fresh_world).1 = Ok Nbook.demo_answer.
Proof.
  apply (browser_to_program Models.engine demo_browser demo_node Models.mac_aead demo_env Nbook.demo_client fresh_world
    demo_route {| rpcUrl := js "http://n"; programId := None; projectId := None; projectSecret := None;
                  timeout := 30000; derivedKeys := None; detectedNodeMode := Some dev |}
    demo_request (json_text Nbook.demo_answer) 1 (Nbook.demo_response (json_text Nbook.demo_answer))) with (status := VStr (js "ok"));
    try reflexivity; try decide_closed; repeat constructor; try lia; decide_closed.
Defined.

(** ** Sniffing *)

Lemma byte_is_take bs n i b : (i < n)%nat → Nbook.byte_is (take n bs) i b = Nbook.byte_is bs i b.
Proof. intros Hi. unfold Nbook.byte_is. by rewrite lookup_take_lt by done. Qed.

Lemma bytes_at_take bs n i p : (i + length p ≤ n)%nat → Nbook.bytes_at (take n bs) i p = Nbook.bytes_at bs i p.
Proof.
  revert i. induction p as [|b p IH]; intros i Hi; simpl in *; [done|].
  rewrite byte_is_take by lia. rewrite IH by lia. done.
Qed.

Lemma bytes_at_app bs i p q :
  Nbook.bytes_at bs i (p ++ q) = Nbook.bytes_at bs i p && Nbook.bytes_at bs (i + length p) q.
Proof.
  revert i. induction p as [|b p IH]; intros i; simpl; [by rewrite Nat.add_0_r|].
  rewrite IH. replace (S i + length p)%nat with (i + S (length p))%nat by lia. by rewrite andb_assoc.
Qed.

Lemma byte_is_unique bs i a b : Nbook.byte_is bs i a = true → a ≠ b → Nbook.byte_is bs i b = false.
Proof.
  unfold Nbook.byte_is. destruct (bs !! i) as [x|]; [|done]. intros ->%Z.eqb_eq Hne. by apply Z.eqb_neq.
Qed.

Lemma bytes_at_head bs i a b p : Nbook.byte_is bs i a = true → a ≠ b → Nbook.bytes_at bs i (b :: p) = false.
Proof. intros Ha Hne. simpl. by rewrite (byte_is_unique _ _ _ _ Ha Hne). Qed.

Definition image_types : list jstr := [js "image/png"; js "image/jpeg"; js "image/gif"; js "image/webp"].

(** The tail of the client's sniffer never answers with an image type of its own. *)
Lemma sniff_tail buffer headerCt (b1 b2 b3 b4 : bool) :
  ¬ In headerCt image_types →
  ¬ In (if b1 then js "audio/mpeg" else if b2 then js "audio/ogg" else if b3 then js "audio/wav"
        else if b4 then js "video/mp4"
        else str_or (if negb (bool_decide (headerCt = [])) && negb (str_eqb headerCt (js "application/octet-stream"))
                     then headerCt else []) buffer) image_types ∨ In buffer image_types.
Proof.
  intros Hh. destruct b1; [left; simpl; intuition discriminate|]. destruct b2; [left; simpl; intuition discriminate|].
  destruct b3; [left; simpl; intuition discriminate|]. destruct b4; [left; simpl; intuition discriminate|].
  destruct (negb _ && negb _) eqn:Hd; [|destruct (decide (In buffer image_types)) as [|Hn]; [by right | by left]].
  left. destruct headerCt as [|h t]; [by rewrite bool_decide_true in Hd | exact Hh].
Qed.

(** The two sniffers agree on images: whatever the header said, a buffer of at
    least twelve bytes that the browser's client takes for a PNG, JPEG, GIF or
    WebP image is served by the blob route with the same content type. *)
Theorem sniffers_agree (buffer : bytes) (headerCt : jstr) :
  (12 ≤ length buffer)%nat → ¬ In headerCt image_types →
  In (Nbook.sniffContentType buffer headerCt) image_types →
  sniffContentType buffer = Nbook.sniffContentType buffer headerCt.
Proof.
  intros Hlen Hh. unfold Nbook.sniffContentType, sniffContentType. rewrite !bytes_at_take by (simpl; lia).
  rewrite (proj2 (Nat.leb_le 8 _)), (proj2 (Nat.leb_le 12 _)) by lia. cbn [andb]. rewrite andb_true_r.
  set (tail := if _ || _ then js "audio/mpeg" else _).
  assert (¬ In tail image_types) as Htail.
  { destruct (sniff_tail (js "application/octet-stream") headerCt
      (Nbook.bytes_at buffer 0 [73; 68; 51]
       || Nbook.byte_is (take 12 buffer) 0 255
          && match take 12 buffer !! 1%nat with Some x => Z.land x 224 =? 224 | None => false end)
      (Nbook.bytes_at buffer 0 [79; 103; 103; 83])
      (Nbook.bytes_at buffer 0 [82; 73; 70; 70] && Nbook.bytes_at buffer 8 [87; 65; 86; 69])
      (Nbook.bytes_at buffer 4 [102; 116; 121; 112]) Hh) as [Ht|Ht]; [exact Ht|].
    simpl in Ht. intuition discriminate. }
  destruct (Nbook.bytes_at buffer 0 [137; 80; 78; 71]) eqn:Hpng4.
  - assert (Nbook.byte_is buffer 0 137 = true) as H0 by (simpl in Hpng4; by apply andb_prop in Hpng4 as [? _]).
    rewrite (bytes_at_head _ _ _ 255 [216; 255] H0), (bytes_at_head _ _ _ 71 [73; 70; 56] H0),
      (bytes_at_head _ _ _ 82 [73; 70; 70] H0) by done. cbn [andb].
    by destruct (Nbook.bytes_at buffer 0 [137; 80; 78; 71; 13; 10; 26; 10]).
  - assert (Nbook.bytes_at buffer 0 [137; 80; 78; 71; 13; 10; 26; 10] = false) as ->.
    { change [137; 80; 78; 71; 13; 10; 26; 10] with ([137; 80; 78; 71] ++ [13; 10; 26; 10]). by rewrite bytes_at_app, Hpng4. }
    by repeat (case_if; [done|]).
Qed.

Lemma sniffers_agree_witness :
  sniffContentType (js "GIF89a......") = js "image/gif".
Proof.
  apply (sniffers_agree (js "GIF89a......") []); [simpl; lia | simpl; intuition discriminate | simpl; tauto].
Defined.

End Routes.
