(* ===== verification/NbookWire.v ===== *)
(** * Between the nbook client and the nbook program

    What the derived serde implementations of wasm_programs/nbook/src/lib.rs make of
    the requests the client of wasm_programs/nbook/ui/lib/onvm-client.ts sends, and of
    the responses it receives; the entry point of the program; and that the two sides
    agree on requests and responses. *)

From S2P Require Import Prelude JsValue Codec Json RustLib SerdeWire WasmHost NbookProgram Platform SdkErrors NbookClient.

Module Wire.
Import Rust Derive Host Server.

(** ** Responses *)

Definition Comment_json (c : Comment) : value :=
  VObj [(js "id", str_json (comment_id c)); (js "author", str_json (comment_author c));
        (js "text", str_json (comment_text c)); (js "created_at", vint (comment_created_at c))].

Definition Attachment_json (a : Attachment) : value :=
  VObj [(js "blob_id_hex", str_json (blob_id a)); (js "size", vint (size a)); (js "hash_hex", str_json (attachment_hash a))].

Definition PostView_json (p : PostView) : value :=
  VObj [(js "id", str_json (v_id p)); (js "author", str_json (v_author p)); (js "text", str_json (v_text p));
        (js "attachments", VArr (map Attachment_json (v_attachments p))); (js "created_at", vint (v_created_at p));
        (js "likes", usize_json (v_likes p)); (js "comments", VArr (map Comment_json (v_comments p)))].

Definition ProfileView_json (p : ProfileView) : value :=
  VObj [(js "username", str_json (p_username p)); (js "display_name", opt_json (p_display_name p)); (js "bio", opt_json (p_bio p));
        (js "avatar_blob_id", opt_json (p_avatar_blob_id p)); (js "banner_blob_id", opt_json (p_banner_blob_id p));
        (js "followers", usize_json (p_followers p)); (js "following", usize_json (p_following p));
        (js "follower_list", strs_json (p_follower_list p)); (js "following_list", strs_json (p_following_list p));
        (js "posts", strs_json (p_posts p)); (js "created_at", vint (p_created_at p))].

Definition UserSummary_json (u : UserSummary) : value :=
  VObj [(js "username", str_json (s_username u)); (js "display_name", opt_json (s_display_name u)); (js "bio", opt_json (s_bio u));
        (js "avatar_blob_id", opt_json (s_avatar_blob_id u)); (js "banner_blob_id", opt_json (s_banner_blob_id u));
        (js "followers", usize_json (s_followers u))].

(** [#[serde(tag = "status", rename_all = "snake_case")]]. *)
Definition Response_json (r : Response) : value :=
  let tagged (status : string) (fs : list (jstr * value)) := VObj ((js "status", VStr (js status)) :: fs) in
  match r with
  | RespOk m => tagged "ok"%string [(js "message", str_json m)]
  | RespLoginOk s e => tagged "login_ok"%string [(js "session", str_json s); (js "expires_ms", vint e)]
  | RespPost p => tagged "post"%string [(js "post", PostView_json p)]
  | RespFeed l => tagged "feed"%string [(js "posts", VArr (map PostView_json l))]
  | RespProfile p => tagged "profile"%string [(js "profile", ProfileView_json p)]
  | RespUsers l => tagged "users"%string [(js "users", VArr (map UserSummary_json l))]
  | RespError m => tagged "error"%string [(js "message", str_json m)]
  end.

(** ** Requests *)

(** [#[serde(tag = "op", rename_all = "snake_case")]], for an object. *)
Definition Request_of_json (fs : list (jstr * value)) : option Request :=
  let str := field as_string fs in
  let str_opt := field_opt as_string fs in
  let limit := field_opt as_usize fs "limit" in
  op ← match obj_get (js "op") fs with Some (VStr s) => Some s | _ => None end;
  if str_eqb op (js "register") then u ← str "username"; p ← str "password"; Some (ReqRegister u p)
  else if str_eqb op (js "update_profile") then
    s ← str "session"; n ← str_opt "display_name"; b ← str_opt "bio"; a ← str_opt "avatar_blob_id"; w ← str_opt "banner_blob_id";
    Some (ReqUpdateProfile s n b a w)
  else if str_eqb op (js "login") then u ← str "username"; p ← str "password"; Some (ReqLogin u p)
  else if str_eqb op (js "logout") then s ← str "session"; Some (ReqLogout s)
  else if str_eqb op (js "create_post") then
    s ← str "session"; t ← str "text"; l ← field as_strings fs "attachments"; Some (ReqCreatePost s t l)
  else if str_eqb op (js "follow") then s ← str "session"; t ← str "target"; Some (ReqFollow s t)
  else if str_eqb op (js "unfollow") then s ← str "session"; t ← str "target"; Some (ReqUnfollow s t)
  else if str_eqb op (js "delete_post") then s ← str "session"; i ← str "post_id"; Some (ReqDeletePost s i)
  else if str_eqb op (js "like") then s ← str "session"; i ← str "post_id"; Some (ReqLike s i)
  else if str_eqb op (js "comment") then s ← str "session"; i ← str "post_id"; t ← str "text"; Some (ReqComment s i t)
  else if str_eqb op (js "feed") then
    s ← str "session"; l ← limit; d ← field_opt as_bool fs "discover"; Some (ReqFeed s l d)
  else if str_eqb op (js "get_post") then i ← str "post_id"; Some (ReqGetPost i)
  else if str_eqb op (js "profile") then u ← str "username"; Some (ReqProfile u)
  else if str_eqb op (js "search_users") then s ← str "session"; q ← str "query"; l ← limit; Some (ReqSearchUsers s q l)
  else if str_eqb op (js "suggestions") then s ← str "session"; l ← limit; Some (ReqSuggestions s l)
  else if str_eqb op (js "followers") then s ← str "session"; u ← str "username"; l ← limit; Some (ReqFollowers s u l)
  else if str_eqb op (js "following") then s ← str "session"; u ← str "username"; l ← limit; Some (ReqFollowing s u l)
  else None.

(** ** The entry point *)

(** [serde_json] on the two types, as their attributes document it: the text of an
    object that has the form of a request is read as that request, and a response in
    ASCII is written as the text of its form. *)
Class SerdeJson : Type := {
  from_request : bytes → outcome rstr Request;
  to_response : Response → bytes;
  from_request_object : ∀ fs req, json_data (VObj fs) → ascii_str (json_text (VObj fs)) → Request_of_json fs = Some req →
    from_request (json_text (VObj fs)) = Ok req;
  to_response_text : ∀ r, ascii_str (json_text (Response_json r)) → to_response r = json_text (Response_json r);
}.

Section Entry.
Context `{SerdeJson} `{NodeHost} `{Blake3} `{Lowercase} {St : Type} `{Storage St}.

(** Nothing is returned when the lock is held, and its guard is forgotten, not
    dropped. *)
Definition onvm_main (input : bytes) (s : St) (b : OutBuf) : option (bytes * OutBuf) * St :=
  let '(response, s') :=
    match from_request input with
    | Ok req => handle_request req s
    | Throw e => (RespError (js "invalid json: " ++ e), s)
    end in
  let encoded := to_response response in
  ((if locked b then None else Some (encoded, {| contents := Some encoded; locked := true |})), s').

Definition onvm_last_result (b : OutBuf) : option (bytes * OutBuf) :=
  match contents b with
  | Some bs => if locked b then None else Some (bs, {| contents := Some bs; locked := true |})
  | None => Some ([], b)
  end.

(** In a fresh instance of the program the entry point answers, whatever the input and
    the state; from then on neither [onvm_last_result] nor a second call of the entry
    point returns, for the lock of the buffer is never given back. *)
Theorem entry_answers_once (input : bytes) (s : St) :
  ∃ out b s', onvm_main input s {| contents := None; locked := false |} = (Some (out, b), s') ∧
    contents b = Some out ∧ onvm_last_result b = None ∧ ∀ input' s'', (onvm_main input' s'' b).1 = None.
Proof.
  unfold onvm_main at 1. destruct (from_request input) as [req|e]; [destruct (handle_request req s) as [r s']|];
    (eexists _, _, _; split; [done|]; split; [done|]; split; [done|]);
    intros input' s''; unfold onvm_main; destruct (from_request input') as [req'|e']; try done; by destruct (handle_request req' s'').
Qed.

(** ** Agreement *)

(** A response to a request of the client: of the type the client expects, or an error. *)
Definition answers (t : ty) (req : Request) : Prop :=
  ∀ s : St, let v := Response_json (handle_request req s).1 in conforms t v = true ∨ conforms Nbook.ErrorResponse v = true.

Lemma respond_answers {A} (t : ty) (c : M rstr St A) (f : A → Response) s :
  (∀ x, conforms t (Response_json (f x)) = true) →
  let v := Response_json (respond c f s).1 in conforms t v = true ∨ conforms Nbook.ErrorResponse v = true.
Proof. intros Hf. unfold respond. destruct (c s) as [[x|e] s']; cbn [fst]; [left; apply Hf|by right]. Qed.

Lemma Attachment_conforms a : conforms Nbook.Attachment (Attachment_json a) = true.
Proof. done. Qed.
Lemma Comment_conforms c : conforms Nbook.ApiCommentView (Comment_json c) = true.
Proof. done. Qed.

Lemma PostView_conforms p : conforms Nbook.ApiPost (PostView_json p) = true.
Proof.
  Nbook.build_object_with ltac:(first [reflexivity | by apply forallb_map_true, Attachment_conforms | by apply forallb_map_true, Comment_conforms]).
Qed.

Lemma ProfileView_conforms p : conforms Nbook.ApiProfile (ProfileView_json p) = true.
Proof.
  destruct p as [? [] [] [] [] ? ? ? ? ? ?]; Nbook.build_object_with ltac:(first [reflexivity | apply strs_conform]).
Qed.

Lemma UserSummary_conforms u : conforms Nbook.ApiUser (UserSummary_json u) = true.
Proof. destruct u as [? [] [] [] [] ?]; reflexivity. Qed.

(** Decides which request it is and reads its fields. *)
Ltac pick_request :=
  unfold Request_of_json; cbv zeta;
  match goal with |- context [obj_get (js "op") ?fs] =>
    let x := eval vm_compute in (obj_get (js "op") fs) in change (obj_get (js "op") fs) with x end;
  cbn [mbind option_bind];
  repeat match goal with |- context [str_eqb ?x ?y] =>
    let b := eval vm_compute in (str_eqb x y) in change (str_eqb x y) with b; cbv iota end.

(** As it is on the wire, without the members that are undefined. *)
Lemma wire_request fs : NoDup fs.*1 → Request_of_json (drop_undefined fs) = Request_of_json fs.
Proof.
  intros Hd. unfold Request_of_json. cbv zeta. rewrite obj_get_sent by done. rewrite !field_sent, !field_opt_sent by done.
  by destruct (obj_get (js "op") fs) as [[]|].
Qed.

(** *** The methods of the client *)

Inductive method : Type :=
| Register (username password : jstr)
| Login (username password : jstr)
| Logout (token : jstr)
| DeletePost (token postId : jstr)
| CreatePost (token text : jstr) (attachments : list jstr)
| GetPost (postId : jstr)
| LikePost (token postId : jstr)
| CommentOnPost (token postId text : jstr)
| GetFeed (token : jstr) (limit : Z) (discover : bool)
| Follow (token target : jstr)
| Unfollow (token target : jstr)
| GetProfile (username : jstr)
| UpdateProfile (token : jstr) (displayName bio avatarBlobId bannerBlobId : option jstr)
| SearchUsers (token query : jstr) (limit : Z)
| GetSuggestions (token : jstr) (limit : Z)
| ListFollowers (token username : jstr) (limit : Z)
| ListFollowing (token username : jstr) (limit : Z).

Definition void {E T A} (c : M E T A) : M E T () := do* c in retM tt.

Definition invoke {eng : Engine} {env : Env} {W : Type} {HW : HasWorld W} (c : Nbook.NbookONVMClient) (m : method) : M exn W () :=
  match m with
  | Register u p => void (Nbook.register c u p)
  | Login u p => void (Nbook.login c u p)
  | Logout t => Nbook.logout c (VStr t)
  | DeletePost t i => Nbook.deletePost c (VStr t) i
  | CreatePost t x l => void (Nbook.createPost c (VStr t) x l)
  | GetPost i => void (Nbook.getPost c i)
  | LikePost t i => void (Nbook.likePost c (VStr t) i)
  | CommentOnPost t i x => void (Nbook.commentOnPost c (VStr t) i x)
  | GetFeed t n d => void (Nbook.getFeed c (VStr t) n d)
  | Follow t x => Nbook.follow c (VStr t) x
  | Unfollow t x => Nbook.unfollow c (VStr t) x
  | GetProfile u => void (Nbook.getProfile c u)
  | UpdateProfile t n b a w => Nbook.updateProfile c (VStr t) n b a w
  | SearchUsers t q n => void (Nbook.searchUsers c (VStr t) q n)
  | GetSuggestions t n => void (Nbook.getSuggestions c (VStr t) n)
  | ListFollowers t u n => void (Nbook.listFollowers c (VStr t) u n)
  | ListFollowing t u n => void (Nbook.listFollowing c (VStr t) u n)
  end.

(** The request of the program that a method is for. *)
Definition meant (m : method) : Request :=
  let u := utf8_encode in
  match m with
  | Register a p => ReqRegister (u a) (u p)
  | Login a p => ReqLogin (u a) (u p)
  | Logout t => ReqLogout (u t)
  | DeletePost t i => ReqDeletePost (u t) (u i)
  | CreatePost t x l => ReqCreatePost (u t) (u x) (map u l)
  | GetPost i => ReqGetPost (u i)
  | LikePost t i => ReqLike (u t) (u i)
  | CommentOnPost t i x => ReqComment (u t) (u i) (u x)
  | GetFeed t n d => ReqFeed (u t) (Some (Z.to_nat n)) (Some d)
  | Follow t x => ReqFollow (u t) (u x)
  | Unfollow t x => ReqUnfollow (u t) (u x)
  | GetProfile a => ReqProfile (u a)
  | UpdateProfile t n b a w => ReqUpdateProfile (u t) (u <$> n) (u <$> b) (u <$> a) (u <$> w)
  | SearchUsers t q n => ReqSearchUsers (u t) (u q) (Some (Z.to_nat n))
  | GetSuggestions t n => ReqSuggestions (u t) (Some (Z.to_nat n))
  | ListFollowers t a n => ReqFollowers (u t) (u a) (Some (Z.to_nat n))
  | ListFollowing t a n => ReqFollowing (u t) (u a) (Some (Z.to_nat n))
  end.

(** The type of its response in the client. *)
Definition response_type (m : method) : ty :=
  match m with
  | Register _ _ | Logout _ | DeletePost _ _ | Follow _ _ | Unfollow _ _ | UpdateProfile _ _ _ _ _ => Nbook.OkResponse
  | Login _ _ => Nbook.LoginOkResponse
  | CreatePost _ _ _ | GetPost _ | LikePost _ _ | CommentOnPost _ _ _ => Nbook.PostResponse
  | GetFeed _ _ _ => Nbook.FeedResponse
  | GetProfile _ => Nbook.ProfileResponse
  | SearchUsers _ _ _ | GetSuggestions _ _ | ListFollowers _ _ _ | ListFollowing _ _ _ => Nbook.UsersResponse
  end.

(** Texts without unpaired surrogates, and a limit of 32 bits. *)
Definition opt_ok (o : option jstr) : Prop := ∀ s, o = Some s → text_ok s.
Definition limit_ok (n : Z) : Prop := 0 ≤ n < 2 ^ 32.
Definition method_ok (m : method) : Prop :=
  match m with
  | Register a b | Login a b | DeletePost a b | LikePost a b | Follow a b | Unfollow a b => text_ok a ∧ text_ok b
  | Logout a | GetPost a | GetProfile a => text_ok a
  | CreatePost t x l => text_ok t ∧ text_ok x ∧ Forall text_ok l
  | CommentOnPost t i x => text_ok t ∧ text_ok i ∧ text_ok x
  | GetFeed t n _ | GetSuggestions t n => text_ok t ∧ limit_ok n
  | UpdateProfile t n b a w => text_ok t ∧ opt_ok n ∧ opt_ok b ∧ opt_ok a ∧ opt_ok w
  | SearchUsers t x n | ListFollowers t x n | ListFollowing t x n => text_ok t ∧ text_ok x ∧ limit_ok n
  end.

(** What follows a call leaves the state as it is. *)
Section After.
Context {eng : Engine} {env : Env} {W : Type} {HW : HasWorld W}.

Lemma state_after {A B} (c : M exn W A) (k : A → M exn W B) s : (∀ a s, (k a s).2 = s) → (bindM c k s).2 = (c s).2.
Proof. intros Hk. unfold bindM. destruct (c s) as [[a|e] s']; [apply Hk|done]. Qed.

Lemma call_state c fs f s : (Nbook.call c fs f s).2 = (Nbook.executeProgram c (VObj fs) s).2.
Proof. apply state_after. intros a s'. unfold bindM, liftM, retM. by destruct (Nbook.check_status a f). Qed.

Lemma field_call_state c fs f k g s : (Nbook.field_call c fs f k g s).2 = (Nbook.executeProgram c (VObj fs) s).2.
Proof. rewrite <- (call_state c fs f). apply state_after. intros a s'. unfold bindM, liftM. by destruct (get a k). Qed.

Lemma void_state {A} (c : M exn W A) s : (void c s).2 = (c s).2.
Proof. by apply state_after. Qed.
End After.

Lemma method_answers m : answers (response_type m) (meant m).
Proof.
  assert (∀ p : PostView, conforms Nbook.PostResponse (Response_json (RespPost p)) = true) as Hpost.
  { intros p. Nbook.build_object_with ltac:(first [reflexivity | apply PostView_conforms]). }
  assert (∀ l : list UserSummary, conforms Nbook.UsersResponse (Response_json (RespUsers l)) = true) as Husers.
  { intros l. Nbook.build_object_with ltac:(first [reflexivity | apply forallb_map_true, UserSummary_conforms]). }
  assert (∀ l : list PostView, conforms Nbook.FeedResponse (Response_json (RespFeed l)) = true) as Hfeed.
  { intros l. Nbook.build_object_with ltac:(first [reflexivity | apply forallb_map_true, PostView_conforms]). }
  assert (∀ p : ProfileView, conforms Nbook.ProfileResponse (Response_json (RespProfile p)) = true) as Hprofile.
  { intros p. Nbook.build_object_with ltac:(first [reflexivity | apply ProfileView_conforms]). }
  destruct m; intros s; cbn [meant response_type handle_request]; apply respond_answers; intros x;
    match goal with
    | |- conforms Nbook.PostResponse _ = _ => apply Hpost
    | |- conforms Nbook.UsersResponse _ = _ => apply Husers
    | |- conforms Nbook.FeedResponse _ = _ => apply Hfeed
    | |- conforms Nbook.ProfileResponse _ = _ => apply Hprofile
    | _ => reflexivity
    end.
Qed.

Lemma field_strings fs k l :
  obj_get (js k) fs = Some (VArr (map VStr l)) → Forall text_ok l → field as_strings fs k = Some (map utf8_encode l).
Proof. intros Hk Hl. unfold field. rewrite Hk. by apply as_strings_ok. Qed.

(** A method sends the request of the object [fs], and the program reads it as it is meant. *)
Definition agreed {eng : Engine} {env : Env} {W : Type} {HW : HasWorld W} (c : Nbook.NbookONVMClient) (m : method) (fs : list (jstr * value)) : Prop :=
  (∀ s : W, (invoke c m s).2 = (Nbook.executeProgram c (VObj fs) s).2) ∧ NoDup fs.*1 ∧ Request_of_json fs = Some (meant m).

Ltac reads_request :=
  split; [apply (bool_decide_unpack _); vm_compute; exact I|];
  pick_request;
  repeat (erewrite field_strings by first [reflexivity | assumption]; cbn [mbind option_bind]);
  repeat (erewrite field_str by first [reflexivity | assumption]; cbn [mbind option_bind]);
  repeat (erewrite field_opt_str by first [reflexivity | assumption]; cbn [mbind option_bind]);
  repeat (erewrite field_usize by first [reflexivity | assumption]; cbn [mbind option_bind]);
  reflexivity.
Ltac by_field := split; [intros s; etrans; [apply void_state|]; apply field_call_state|reads_request].
Ltac by_call := split; [intros s; etrans; [by apply state_after|apply call_state]|reads_request].

Lemma method_agreed {eng : Engine} {env : Env} {W : Type} {HW : HasWorld W} c m : method_ok m → ∃ fs, agreed (W := W) c m fs.
Proof.
  intros Hm. destruct m; cbn [method_ok] in Hm; repeat match goal with H : _ ∧ _ |- _ => destruct H end; eexists; unfold agreed; cbn [invoke meant];
  [ split; [intros s; etrans; [apply void_state|]; apply call_state|reads_request]
  | split; [intros s; etrans; [apply void_state|]; apply state_after; intros a s'; unfold bindM, liftM, retM, throwM;
            destruct (get a (js "status")); [|done]; destruct (_ || _); destruct (get a _); try done; by destruct (get a _)|reads_request]
  | by_call | by_call | by_field | by_field | by_field | by_field | by_field | by_call | by_call | by_field | by_call
  | by_field | by_field | by_field | by_field ].
Qed.


(** The client takes an author's display name and picture from members a response of
    the program does not have: they are undefined in every post it makes. *)
Theorem posts_without_author_profile `{Engine} (p : PostView) :
  ∃ w, Nbook.normalizePost (PostView_json p) = Ok w ∧
    get w (js "displayName") = Ok VUndef ∧ get w (js "avatarBlobId") = Ok VUndef ∧ get w (js "author") = Ok (str_json (v_author p)).
Proof.
  assert (∃ l, js_map (VArr (map Comment_json (v_comments p))) Nbook.normalizeComment = Ok l) as [l Hl].
  { pose proof (js_map_conforms Nbook.normalizeComment Nbook.ApiCommentView Nbook.CommentView (VArr (map Comment_json (v_comments p))))
      as Hmap.
    destruct Hmap as (l & Hl & _); [intros c; apply Nbook.normalizeComment_typed|by apply forallb_map_true|by exists l]. }
  assert (get (PostView_json p) (js "comments") = Ok (VArr (map Comment_json (v_comments p)))) as Hc by reflexivity.
  assert (get (PostView_json p) (js "author") = Ok (str_json (v_author p))) as Ha by reflexivity.
  assert (get (PostView_json p) (js "author_display_name") = Ok VUndef) as Hd by reflexivity.
  assert (get (PostView_json p) (js "author_avatar_blob_id") = Ok VUndef) as Hb by reflexivity.
  assert (∀ k, ∃ v, get (PostView_json p) k = Ok v) as Hget by (intros k; by eexists).
  unfold Nbook.normalizePost. rewrite Hc, Ha, Hd, Hb.
  destruct (Hget (js "id")) as [i ->], (Hget (js "text")) as [t ->], (Hget (js "attachments")) as [at_ ->],
    (Hget (js "created_at")) as [c ->], (Hget (js "likes")) as [k ->].
  cbn [outcome_bind]. rewrite Hl. cbn [outcome_bind]. eexists. split; [reflexivity|]. split; [reflexivity|]. split; reflexivity.
Qed.
End Entry.
End Wire.
