(* ===== verification/NbookDemo.v ===== *)
(** * The theorems on the nbook program at concrete requests

    A node, a codec for the stored records, hash and case mapping stand-ins, and a
    short history of requests at which the theorems of NbookSpec.v, NbookSteps.v,
    NbookRules.v, NbookRank.v and NbookWire.v are applied. *)

From Stdlib Require Import SpecFloat.
From S2P Require Import Prelude JsValue Codec Json RustLib WasmHost RustModels NbookProgram NbookBlobs NbookStore NbookSpec NbookSocial NbookSteps NbookRules NbookRank Platform NbookClient Models SerdeWire NbookWire.

Module Demo.
Import Rust RustModels Derive Host Server Blobs Store Spec Social Steps Rules Rank Wire.

(** ** The stored records *)

#[global] Instance user_dec : EqDecision User.
Proof. solve_decision. Defined.
#[global] Instance session_dec : EqDecision Session.
Proof. solve_decision. Defined.
#[global] Instance comment_dec : EqDecision Comment.
Proof. solve_decision. Defined.
#[global] Instance attachment_dec : EqDecision Attachment.
Proof. solve_decision. Defined.
#[global] Instance post_dec : EqDecision Post.
Proof. solve_decision. Defined.

#[global] Instance user_countable : Countable User.
Proof.
  apply (inj_countable' (λ u, (username u, password_hash u, salt u, user_created_at u, (display_name u, bio u, avatar_blob_id u),
      (banner_blob_id u, followers u, following u, user_posts u)))
    (λ '(a, b, c, d, (e, f, g), (h, i, j, k)), Build_User a b c d e f g h i j k)). by intros [].
Defined.
#[global] Instance session_countable : Countable Session.
Proof. apply (inj_countable' (λ s, (token s, session_user s, expires_ms s)) (λ '(a, b, c), Build_Session a b c)). by intros []. Defined.
#[global] Instance comment_countable : Countable Comment.
Proof.
  apply (inj_countable' (λ c, (comment_id c, comment_author c, comment_text c, comment_created_at c)) (λ '(a, b, c, d), Build_Comment a b c d)).
  by intros [].
Defined.
#[global] Instance attachment_countable : Countable Attachment.
Proof. apply (inj_countable' (λ a, (blob_id a, size a, attachment_hash a)) (λ '(a, b, c), Build_Attachment a b c)). by intros []. Defined.
#[global] Instance post_countable : Countable Post.
Proof.
  apply (inj_countable' (λ p, (post_id p, author p, text p, attachments p, (created_at p, likes p, comments p)))
    (λ '(a, b, c, d, (e, f, g)), Build_Post a b c d e f g)). by intros [].
Defined.

Definition stored_bits : StoredTypes :=
  {| serde_User := serde_bits; serde_Session := serde_bits; serde_Post := serde_bits; serde_index := serde_bits |}.

#[local] Existing Instances still_node blake3_stub lowercase_ascii stored_bits.

(** ** A history *)

Definition ann : rstr := js "ann".
Definition bob : rstr := js "bob".
Definition pw : rstr := js "secret".
(** The tokens of the third and the fourth draw. *)
Definition ann_token : rstr := hex_encode (replicate 24 2).
Definition bob_token : rstr := hex_encode (replicate 24 3).
Definition ann_post : rstr := ann ++ js "-" ++ hex_encode (replicate 12 4).
Definition bob_post : rstr := bob ++ js "-" ++ hex_encode (replicate 12 5).

(** Ann and Bob register and log in, each publishes a post, and Ann likes Bob's. *)
Definition history : list Request :=
  [ReqRegister ann pw; ReqRegister bob pw; ReqLogin ann pw; ReqLogin bob pw; ReqCreatePost ann_token (js "old") [];
   ReqCreatePost bob_token (js "new") [js "abcdefghijklmnopqrstuvwxyz012345"]; ReqLike ann_token bob_post].

Definition town : social := (serve Datatypes.id history empty_social).2.

Lemma history_texts : Forall (λ req, Forall byte_list (named req)) history.
Proof. apply (bool_decide_unpack _). by vm_compute. Qed.

Lemma town_kept : well_kept town.
Proof. apply (serve_invariant history history_texts). Qed.
Lemma town_stored : blobs_stored town.
Proof. apply (serve_invariant history history_texts). Qed.

Lemma town_lasting t n : (∃ s, sessions town !! t = Some s ∧ session_user s = n ∧ expires_ms s = 1700086400000) → lasting town t n.
Proof. intros (s & Hs & Hn & He). exists s. split; [done|]. split; [done|]. intros k. rewrite He. by vm_compute. Qed.

Lemma ann_lasting : lasting town ann_token ann.
Proof. apply town_lasting. eexists. split; [vm_compute; reflexivity|done]. Qed.

Definition ann_user : User := default (new_user empty_social [] []) (users town !! ann).
Lemma ann_known : users town !! ann = Some ann_user.
Proof. vm_compute. reflexivity. Qed.

Definition the_post : Post := default (new_post empty_social [] [] []) (posts town !! bob_post).
Lemma post_known : posts town !! bob_post = Some the_post.
Proof. vm_compute. reflexivity. Qed.
Lemma post_viewable : viewable the_post.
Proof. exact (blobs_viewable town bob_post the_post town_stored post_known). Qed.

(** ** The refinement *)

Lemma program_refines_maps_witness :
  (serve next_execution history fresh_context).1 =
  (serve Datatypes.id history empty_social).1.
Proof.
  pose proof (@program_refines_maps still_node stored_bits blake3_stub lowercase_ascii history (λ _, eq_refl)) as Href.
  destruct (serve next_execution history fresh_context), (serve Datatypes.id history empty_social). by destruct Href.
Defined.

(** ** Who may change what *)

Lemma requests_touch_own_records_witness :
  ∃ p', posts (handle_request (ReqLike ann_token bob_post) town).2 !! bob_post = Some p' ∧ post_touched (Some ann) the_post p'.
Proof.
  destruct (requests_touch_own_records (ReqLike ann_token bob_post) town town_kept) as [_ Hp].
  apply (Hp bob_post the_post post_known). by vm_compute.
Defined.

Lemma no_session_no_effect_witness :
  handle_request (ReqFollow (js "x") bob) town = (RespError (js "invalid session"), town).
Proof.
  assert (session_of town (js "x") = None) as Hs by (vm_compute; reflexivity).
  destruct (no_session_no_effect (ReqFollow (js "x") bob) (js "x") town eq_refl Hs) as [Hr|(i & x & Hreq & _)]; [|discriminate Hreq].
  rewrite Hr. vm_compute. reflexivity.
Defined.

(** ** Following, accounts, posts and likes *)

Lemma follow_unfollow_restores_witness :
  (handle_request (ReqFollow ann_token bob) town).1 = RespOk (js "following") ∧
  (handle_request (ReqUnfollow ann_token bob) (handle_request (ReqFollow ann_token bob) town).2).2 ≡ town.
Proof.
  assert (bob ∉ following ann_user) as Hnf by (apply (bool_decide_unpack _); by vm_compute).
  pose proof (follow_unfollow_restores town ann_token ann ann_user bob town_kept ann_lasting ann_known ltac:(done) Hnf) as Hf.
  destruct (handle_request (ReqFollow ann_token bob) town) as [r A1]. cbn [snd fst].
  destruct (handle_request (ReqUnfollow ann_token bob) A1) as [r' A2]. by destruct Hf as (-> & _ & _ & _ & _ & HA).
Defined.

Lemma follow_before_registration_witness :
  let A1 := (handle_request (ReqFollow ann_token (js "cid")) town).2 in
  let A2 := (handle_request (ReqRegister (js "cid") pw) A1).2 in
  let A3 := (handle_request (ReqFollow ann_token (js "cid")) A2).2 in
  ∃ o, users A3 !! js "cid" = Some o ∧ followers o = [].
Proof.
  assert (js "cid" ∉ following ann_user) as Hnf by (apply (bool_decide_unpack _); by vm_compute).
  pose proof (follow_before_registration town ann_token ann ann_user (js "cid") pw town_kept ann_lasting ann_known
    ltac:(by vm_compute) Hnf ltac:(by vm_compute) ltac:(vm_compute; lia)) as Hf.
  cbv zeta. destruct (handle_request (ReqFollow ann_token (js "cid")) town) as [r A1]. cbn [snd].
  destruct (handle_request (ReqRegister (js "cid") pw) A1) as [r2 A2]. cbn [snd].
  destruct (handle_request (ReqFollow ann_token (js "cid")) A2) as [r3 A3]. by destruct Hf as (_ & _ & _ & _ & _ & Ho).
Defined.

Lemma account_lifecycle_witness :
  (handle_request (ReqRegister (js "cid") pw) town).1 = RespOk (js "registered").
Proof.
  pose proof (account_lifecycle town (js "cid") pw town_kept ltac:(by vm_compute) ltac:(by vm_compute) ltac:(vm_compute; lia)) as Hl.
  destruct (handle_request (ReqRegister (js "cid") pw) town) as [r A1]. cbn [fst].
  destruct (handle_request (ReqLogin (js "cid") pw) A1) as [r2 A2]. by destruct Hl as [-> _].
Defined.

Lemma post_lifecycle_witness :
  ∃ v, (handle_request (ReqCreatePost ann_token (js "hi") [js "abcdefghijklmnopqrstuvwxyz012345"]) town).1 = RespPost v ∧ v_author v = ann.
Proof.
  pose proof (post_lifecycle town ann_token ann ann_user (js "hi") [js "abcdefghijklmnopqrstuvwxyz012345"] _ town_kept ann_lasting
    ann_known ltac:(vm_compute; lia) eq_refl ltac:(apply (bool_decide_unpack _); by vm_compute)) as Hl.
  destruct (handle_request _ town) as [r A1]. destruct Hl as (v & -> & Hv & _). by exists v.
Defined.

Lemma like_is_a_switch_witness :
  let A1 := (handle_request (ReqLike ann_token bob_post) town).2 in
  let A2 := (handle_request (ReqLike ann_token bob_post) A1).2 in
  ∃ l, posts A2 = <[bob_post := with_likes l the_post]> (posts town) ∧ l ≡ₚ likes the_post.
Proof.
  pose proof (like_is_a_switch town ann_token ann ann_user bob_post the_post town_kept ann_lasting ann_known post_known post_viewable) as Hl.
  cbv zeta. destruct (handle_request (ReqLike ann_token bob_post) town) as [r1 A1]. cbn [snd].
  destruct (handle_request (ReqLike ann_token bob_post) A1) as [r2 A2]. destruct Hl as (l1 & l2 & _ & _ & _ & _ & _ & Hp & _ & Hperm).
  exists l2. exact (conj Hp Hperm).
Defined.

Lemma every_record_shown_witness : handle_request (ReqProfile ann) town = (RespProfile (profile_view ann_user), town).
Proof. exact (proj1 (every_record_shown history history_texts) ann ann_user ann_known). Defined.

(** ** The feed and the lists *)

Lemma feed_ranked_witness :
  ∃ vs A', handle_request (ReqFeed ann_token (Some 5%nat) (Some true)) town = (RespFeed vs, A') ∧ A' ≡ town ∧ length vs = 2%nat.
Proof.
  destruct (feed_ranked town ann_token ann ann_user (Some 5%nat) (Some true) town_kept town_stored ann_lasting ann_known)
    as (ranked & A' & Hrun & HA & _ & _ & _ & Hlen & _).
  eexists _, A'. split; [exact Hrun|]. split; [exact HA|]. rewrite length_map. refine (eq_trans Hlen _). vm_compute. reflexivity.
Defined.

(** Bob's post has a like and Ann's has none, and one post is asked for: Ann's. *)
Lemma feed_cut_before_ranking_witness :
  ∃ vs A', handle_request (ReqFeed ann_token (Some 1%nat) (Some true)) town = (RespFeed vs, A') ∧ Forall (λ v, v_id v ≠ bob_post) vs.
Proof.
  apply (feed_cut_before_ranking town ann_token ann ann_user (Some 1%nat) (Some true) bob_post town_kept town_stored ann_lasting ann_known).
  apply (bool_decide_unpack _). vm_compute. exact I.
Defined.

Lemma suggestions_eligible_witness :
  ∃ l A', handle_request (ReqSuggestions ann_token None) town = (RespUsers l, A') ∧ length l = 1%nat.
Proof.
  destruct (suggestions_eligible town ann_token ann ann_user None town_kept town_stored ann_lasting ann_known)
    as (l & A' & Hrun & _ & Hlen & _).
  exists l, A'. split; [exact Hrun|]. refine (eq_trans Hlen _). vm_compute. reflexivity.
Defined.

Lemma user_lists_witness : (handle_request (ReqFollowers ann_token (js "cid") None) town).1 = RespError (js "user not found").
Proof.
  destruct (user_lists town ann_token ann ann_user (js "A") None (js "cid") town_kept town_stored ann_lasting ann_known) as (_ & Hf & _).
  rewrite Hf. vm_compute. reflexivity.
Defined.

(** ** The wire format *)

Definition parse_request (bs : bytes) : outcome rstr Request :=
  match @json_parse Models.engine bs with
  | Ok (VObj fs) => match Request_of_json fs with Some req => Ok req | None => Throw (js "data did not match") end
  | _ => Throw (js "expected value")
  end.

Lemma parse_request_object fs req :
  json_data (VObj fs) → ascii_str (json_text (VObj fs)) → Request_of_json fs = Some req → parse_request (json_text (VObj fs)) = Ok req.
Proof. intros Hd _ Hr. unfold parse_request. by rewrite json_parse_text, Hr. Qed.

Definition serde_text : SerdeJson :=
  {| from_request := parse_request; to_response := λ r, json_text (Response_json r); from_request_object := parse_request_object;
     to_response_text := λ r _, eq_refl |}.

Lemma entry_answers_once_witness :
  ∃ out b s', @onvm_main serde_text still_node blake3_stub lowercase_ascii social _ (js "no JSON") town
    {| contents := None; locked := false |} = (Some (out, b), s') ∧ onvm_last_result b = None.
Proof.
  destruct (@entry_answers_once serde_text still_node blake3_stub lowercase_ascii social _ (js "no JSON") town) as (out & b & s' & Hr & _ & Hb & _).
  exists out, b, s'. exact (conj Hr Hb).
Defined.

End Demo.
