(* ===== verification/Gateway.v ===== *)
(** * src/blob_gateway/ui: the blob explorer

    lib/format.ts, pages/Index.tsx, pages/SharePage.tsx and the two components
    with logic.  A page is a record of its React state; each handler is one
    definition per synchronous segment, a handler that awaits leaves a pending
    operation with the values it captured, and the page's events are the steps.
    [view] functions give what is rendered and enabled; styling is dropped. *)

From S2P Require Import Prelude JsValue Codec Json Platform SdkErrors Browser Models.

Module Gateway.
Import Errors.

(** ** lib/format.ts *)

(** [x.toFixed(2)] for [x = n / 100] rounded half up. *)
Definition two_digits (d : Z) : jstr := if d <? 10 then 48 :: digits d else digits d.
Definition fixed2 (hundredths : Z) : jstr :=
  Z_to_str (hundredths / 100) ++ [46] ++ two_digits (hundredths mod 100).

(** [(bytes / unit).toFixed(2)]: the quotient by a power of two is exact in
    binary64, so the nearest hundredth (the larger of two) is computed exactly. *)
Definition hundredths (bytes unit : Z) : Z := (200 * bytes + unit) / (2 * unit).

(** [bytes] is [m / scale] bytes. *)
Definition format_scaled (text : jstr) (m scale : Z) : jstr :=
  if m <? 1024 * scale then text ++ js " B"
  else if m <? 1024 * 1024 * scale then fixed2 (hundredths m (1024 * scale)) ++ js " KB"
  else if m <? 1024 * 1024 * 1024 * scale then fixed2 (hundredths m (1024 * 1024 * scale)) ++ js " MB"
  else fixed2 (hundredths m (1024 * 1024 * 1024 * scale)) ++ js " GB".

Definition formatSize (bytes : num) : jstr :=
  match bytes with
  | NInt z => format_scaled (num_to_str bytes) z 1
  | NFrac m k => format_scaled (num_to_str bytes) m (10 ^ Zpos k)
  | NNaN => js "NaN GB"
  end.

Definition truncateId (id : jstr) (len : nat) : jstr :=
  if (length id <=? len)%nat then id else take len id ++ js "...".

(** ** Notifications and the preview *)

Inductive notice : Type :=
| Success (message : jstr)
| Failure (message : jstr).

Inductive preview : Type :=
| PreviewImage (src : jstr)
| PreviewVideo (src : jstr)
| PreviewAudio (src : jstr)
| PreviewNone.

(** components/PreviewSection.tsx: what it renders; [None] is [null]. *)
Definition PreviewSection (content contentType : option jstr) : option (list preview) :=
  match content with
  | None | Some [] => None
  | Some src =>
      let safeType := str_or (default [] contentType) (js "application/octet-stream") in
      let image := starts_with (js "image/") safeType in
      let video := starts_with (js "video/") safeType in
      let audio := starts_with (js "audio/") safeType in
      Some ((if image then [PreviewImage src] else []) ++ (if video then [PreviewVideo src] else [])
            ++ (if audio then [PreviewAudio src] else [])
            ++ (if negb image && negb video && negb audio then [PreviewNone] else []))
  end.

(** ** pages/Index.tsx *)

Definition BlobInfo : ty := TObj [
  mem "id" TStr; mem "size" TNum; mem "chunk_count" TNum; mem "subchunk_count" TNum;
  mem "mime_type" (nullable TStr); mem "detected_mime_type" (nullable TStr); mem "available_locally" TBool].

(** A response with the body its reader found; [Throw] is a rejected [fetch]. *)
Abbreviation settled := (outcome exn http_response).

(** An operation waiting for the network. *)
Inductive operation : Type :=
| FetchInfo (url : jstr)
| FetchFile (url : jstr).

Record Explorer : Type := {
  blobId : jstr;
  loading : bool;
  blobInfo : value;
  previewUrl : option jstr;
  pending : list operation;
  notices : list notice;
  clipboard : option jstr;
  location : jstr;
  downloads : list (jstr * bytes);
}.

Definition apiBase : jstr := js "/explorer/api".
Definition cdnBase : jstr := js "/explorer/api/cdn".

Definition initial : Explorer :=
  {| blobId := []; loading := false; blobInfo := VNull; previewUrl := None; pending := []; notices := [];
     clipboard := None; location := js "/"; downloads := [] |}.

Definition notify (n : notice) (e : Explorer) : Explorer :=
  {| blobId := blobId e; loading := loading e; blobInfo := blobInfo e; previewUrl := previewUrl e;
     pending := pending e; notices := notices e ++ [n]; clipboard := clipboard e; location := location e;
     downloads := downloads e |}.

Definition set_loading (b : bool) (e : Explorer) : Explorer :=
  {| blobId := blobId e; loading := b; blobInfo := blobInfo e; previewUrl := previewUrl e;
     pending := pending e; notices := notices e; clipboard := clipboard e; location := location e;
     downloads := downloads e |}.

Definition set_info (i : value) (e : Explorer) : Explorer :=
  {| blobId := blobId e; loading := loading e; blobInfo := i; previewUrl := previewUrl e;
     pending := pending e; notices := notices e; clipboard := clipboard e; location := location e;
     downloads := downloads e |}.

Definition set_preview (u : option jstr) (e : Explorer) : Explorer :=
  {| blobId := blobId e; loading := loading e; blobInfo := blobInfo e; previewUrl := u;
     pending := pending e; notices := notices e; clipboard := clipboard e; location := location e;
     downloads := downloads e |}.

Definition set_pending (p : list operation) (e : Explorer) : Explorer :=
  {| blobId := blobId e; loading := loading e; blobInfo := blobInfo e; previewUrl := previewUrl e;
     pending := p; notices := notices e; clipboard := clipboard e; location := location e;
     downloads := downloads e |}.

Definition setBlobId (s : jstr) (e : Explorer) : Explorer :=
  {| blobId := s; loading := loading e; blobInfo := blobInfo e; previewUrl := previewUrl e;
     pending := pending e; notices := notices e; clipboard := clipboard e; location := location e;
     downloads := downloads e |}.

Section Pages.
Context `{Engine}.

(** A member of the blob info as a string of a template. *)
Definition info_str (info : value) (k : string) : jstr :=
  match get info (js k) with Ok v => to_string_prim v | Throw _ => [] end.

Definition fetchBlobInfo (e : Explorer) : Explorer :=
  if bool_decide (trim (blobId e) = []) then notify (Failure (js "Please enter a Blob ID")) e
  else
    let e := set_preview None (set_info VNull (set_loading true e)) in
    set_pending (pending e ++ [FetchInfo (apiBase ++ js "/blob/" ++ blobId e ++ js "/info")]) e.

(** [if (!response.ok) throw new Error(await response.text())]. *)
Definition ok_or_text (r : settled) : outcome exn http_response :=
  let! response := r in
  if negb (rs_ok response) then let! t := rs_text response in Throw (Error t) else Ok response.

Definition error_notice (error : exn) : notice := Failure (js "Error: " ++ error_message error).

(** The rest of [fetchBlobInfo] once the network has answered. *)
Definition fetchBlobInfo_settled (r : settled) (e : Explorer) : Explorer :=
  let e := match (let! response := ok_or_text r in rs_json response) with
           | Ok info => notify (Success (js "Blob info loaded successfully")) (set_info info e)
           | Throw error => notify (error_notice error) e
           end in
  set_loading false e.

Definition viewBlob (e : Explorer) : Explorer :=
  if negb (truthy (blobInfo e)) then e
  else
    let e := set_preview (Some (cdnBase ++ js "/" ++ info_str (blobInfo e) "id")) (set_loading true e) in
    set_loading false (notify (Success (js "Blob loaded successfully")) e).

Definition downloadBlob (e : Explorer) : Explorer :=
  if negb (truthy (blobInfo e)) then e
  else
    let e := set_loading true e in
    set_pending (pending e ++ [FetchFile (apiBase ++ js "/blob/" ++ info_str (blobInfo e) "id" ++ js "?download=true")]) e.

(** The group of the first match of [filename=], a quote, one or more characters
    other than quotes, and a quote. *)
Fixpoint match_filename (s : jstr) : option jstr :=
  match s with
  | [] => None
  | _ :: r =>
      let key := js "filename=" ++ [34] in
      if starts_with key s then
        let rest := drop (length key) s in
        let name := take_while (λ c, negb (c =? 34)) rest in
        match name, drop (length name) rest with
        | _ :: _, 34 :: _ => Some name
        | _, _ => match_filename r
        end
      else match_filename r
  end.

Definition download_name (response : http_response) : jstr :=
  match header (js "content-disposition") response with
  | None | Some [] => js "download"
  | Some disposition => default (js "download") (match_filename disposition)
  end.

Definition save_file (name : jstr) (bs : bytes) (e : Explorer) : Explorer :=
  {| blobId := blobId e; loading := loading e; blobInfo := blobInfo e; previewUrl := previewUrl e;
     pending := pending e; notices := notices e; clipboard := clipboard e; location := location e;
     downloads := downloads e ++ [(name, bs)] |}.

Definition downloadBlob_settled (r : settled) (e : Explorer) : Explorer :=
  let e := match (let! response := ok_or_text r in
                  let! blob := rs_arrayBuffer response in Ok (download_name response, blob)) with
           | Ok (filename, blob) => notify (Success (js "Download started")) (save_file filename blob e)
           | Throw error => notify (error_notice error) e
           end in
  set_loading false e.

Definition shareBlob (e : Explorer) : Explorer :=
  if negb (truthy (blobInfo e)) then notify (Failure (js "Please fetch blob info first")) e
  else
    {| blobId := blobId e; loading := loading e; blobInfo := blobInfo e; previewUrl := previewUrl e;
       pending := pending e; notices := notices e; clipboard := clipboard e;
       location := js "/share/" ++ info_str (blobInfo e) "id"; downloads := downloads e |}.

(** [origin] is [window.location.origin]. *)
Definition copyDirectLink (origin : jstr) (e : Explorer) : Explorer :=
  if negb (truthy (blobInfo e)) then notify (Failure (js "Please fetch blob info first")) e
  else
    let cdnUrl := origin ++ cdnBase ++ js "/" ++ info_str (blobInfo e) "id" in
    notify (Success (js "CDN link copied to clipboard!"))
      {| blobId := blobId e; loading := loading e; blobInfo := blobInfo e; previewUrl := previewUrl e;
         pending := pending e; notices := notices e; clipboard := Some cdnUrl; location := location e;
         downloads := downloads e |}.

Definition handleKeyDown (key : jstr) (e : Explorer) : Explorer :=
  if str_eqb key (js "Enter") then fetchBlobInfo e else e.

(** ** What the page shows *)

(** [previewType]. *)
Definition previewType (e : Explorer) : jstr :=
  let member k := if truthy (blobInfo e) then
                    match get (blobInfo e) (js k) with
                    | Ok v => if truthy v then Some (to_string_prim v) else None
                    | Throw _ => None
                    end
                  else None in
  match member "detected_mime_type"%string, member "mime_type"%string with
  | Some t, _ => t
  | None, Some t => t
  | None, None => js "application/octet-stream"
  end.

(** The size of a [BlobInfo] is a number. *)
Definition size_text (v : value) : jstr :=
  match v with
  | VNum n => formatSize n
  | VNull => js "null B"
  | _ => formatSize NNaN
  end.

Definition info_or (info : value) (k : string) (fallback : jstr) : jstr :=
  match get info (js k) with
  | Ok v => if truthy v then to_string_prim v else fallback
  | Throw _ => fallback
  end.

Definition info_val (info : value) (k : string) : value :=
  match get info (js k) with Ok v => v | Throw _ => VUndef end.

Definition stat_cards (info : value) : list (jstr * jstr) :=
  [ (js "Content ID", truncateId (info_str info "id") 12);
    (js "Size", size_text (info_val info "size"));
    (js "Chunks", info_str info "chunk_count" ++ js " / " ++ info_str info "subchunk_count");
    (js "MIME Type", info_or info "mime_type" (js "Unknown"));
    (js "Detected", info_or info "detected_mime_type" (js "N/A"));
    (js "Available", if truthy (info_val info "available_locally") then js "Local " ++ [10003] else js "Remote") ].

Inductive panel : Type :=
| Loading
| Content (stats : list (jstr * jstr)) (preview : option (list preview))
| Empty.

(** The panels that are rendered, and whether the fetch button is enabled. *)
Definition Explorer_view (e : Explorer) : list panel * bool :=
  ((if loading e then [Loading] else [])
   ++ (if truthy (blobInfo e) && negb (loading e)
       then [Content (stat_cards (blobInfo e))
               (match previewUrl e with
                | Some u => PreviewSection (Some u) (Some (previewType e))
                | None => None
                end)]
       else [])
   ++ (if negb (truthy (blobInfo e)) && negb (loading e) then [Empty] else []),
   negb (loading e)).

(** ** Events *)

(** The answer to the [k]-th pending operation arrives. *)
Definition settle (k : nat) (r : settled) (e : Explorer) : Explorer :=
  match pending e !! k with
  | Some (FetchInfo _) => fetchBlobInfo_settled r (set_pending (delete k (pending e)) e)
  | Some (FetchFile _) => downloadBlob_settled r (set_pending (delete k (pending e)) e)
  | None => e
  end.

(** The fetch button works when enabled, the others when the content shows. *)
Inductive step : Explorer → Explorer → Prop :=
| step_type s e : step e (setBlobId s e)
| step_fetch e : (Explorer_view e).2 = true → step e (fetchBlobInfo e)
| step_key key e : step e (handleKeyDown key e)
| step_view e : loading e = false → step e (viewBlob e)
| step_download e : loading e = false → step e (downloadBlob e)
| step_share e : loading e = false → step e (shareBlob e)
| step_copy origin e : loading e = false → step e (copyDirectLink origin e)
| step_settle k r e : step e (settle k r e).

Definition reachable (e : Explorer) : Prop := rtc step initial e.
End Pages.

(** ** components/ShareLinkInput.tsx *)

Record ShareLinkInput : Type := {
  copied : bool;
  reset_timers : nat;
  copied_text : option jstr;
  copy_notices : list notice;
}.

Definition handleCopy (val : jstr) (c : ShareLinkInput) : ShareLinkInput :=
  {| copied := true; reset_timers := S (reset_timers c); copied_text := Some val;
     copy_notices := copy_notices c ++ [Success (js "Copied to clipboard!")] |}.

(** The callback of [setTimeout(() => setCopied(false), 2000)]. *)
Definition copied_timeout (c : ShareLinkInput) : ShareLinkInput :=
  {| copied := false; reset_timers := pred (reset_timers c); copied_text := copied_text c;
     copy_notices := copy_notices c |}.

Definition ShareLinkInput_view (c : ShareLinkInput) : jstr := if copied c then js "Copied" else js "Copy".

(** ** pages/SharePage.tsx *)

(** [sp_pending] are the fetches under way, with the id they were started for. *)
Record SharePage : Type := {
  contentId : jstr;
  sp_loading : bool;
  sp_info : value;
  sp_pending : list jstr;
  sp_notices : list notice;
  sp_clipboard : option jstr;
}.

Section Share.
Context `{Engine}.

(** The effect for the present [contentId]. *)
Definition share_effect (p : SharePage) : SharePage :=
  match contentId p with
  | [] => p
  | id => {| contentId := contentId p; sp_loading := sp_loading p; sp_info := sp_info p;
             sp_pending := sp_pending p ++ [id]; sp_notices := sp_notices p; sp_clipboard := sp_clipboard p |}
  end.

(** First render at [/share/:id]; [id] may be missing from the parameters. *)
Definition share_mount (id : option jstr) : SharePage :=
  share_effect {| contentId := default [] id; sp_loading := true; sp_info := VNull; sp_pending := [];
                  sp_notices := []; sp_clipboard := None |}.

(** The router changes the parameter: state is kept, the effect runs again. *)
Definition share_navigate (id : jstr) (p : SharePage) : SharePage :=
  share_effect {| contentId := id; sp_loading := sp_loading p; sp_info := sp_info p; sp_pending := sp_pending p;
                  sp_notices := sp_notices p; sp_clipboard := sp_clipboard p |}.

Definition share_settled (k : nat) (r : settled) (p : SharePage) : SharePage :=
  match sp_pending p !! k with
  | None => p
  | Some _ =>
      let rest := delete k (sp_pending p) in
      match (let! response := ok_or_text r in rs_json response) with
      | Ok info => {| contentId := contentId p; sp_loading := false; sp_info := info; sp_pending := rest;
                      sp_notices := sp_notices p; sp_clipboard := sp_clipboard p |}
      | Throw error => {| contentId := contentId p; sp_loading := false; sp_info := sp_info p; sp_pending := rest;
                          sp_notices := sp_notices p ++ [error_notice error]; sp_clipboard := sp_clipboard p |}
      end
  end.

Definition directLink (origin : jstr) (p : SharePage) : jstr := origin ++ cdnBase ++ js "/" ++ contentId p.

(** The [img] element with the link as its source. *)
Definition embedCode (origin : jstr) (p : SharePage) : jstr :=
  js "<img src=" ++ [34] ++ directLink origin p ++ [34] ++ js " alt=" ++ [34] ++ js "ONVM Content" ++ [34] ++ js ">".

Definition copy_to (text message : jstr) (p : SharePage) : SharePage :=
  {| contentId := contentId p; sp_loading := sp_loading p; sp_info := sp_info p; sp_pending := sp_pending p;
     sp_notices := sp_notices p ++ [Success message]; sp_clipboard := Some text |}.

Definition handleCopyDirectLink (origin : jstr) (p : SharePage) : SharePage :=
  copy_to (directLink origin p) (js "Direct link copied to clipboard!") p.

Definition handleCopyEmbedCode (origin : jstr) (p : SharePage) : SharePage :=
  copy_to (embedCode origin p) (js "Embed code copied to clipboard!") p.

Inductive share_panel : Type :=
| ShareLoading
| ShareNotFound
| ShareContent (stats : list (jstr * jstr)) (preview : option (list preview)) (links : list jstr).

Definition SharePage_view (origin : jstr) (p : SharePage) : share_panel :=
  if sp_loading p then ShareLoading
  else if negb (truthy (sp_info p)) then ShareNotFound
  else
    let mimeType := info_or (sp_info p) "detected_mime_type"
                      (info_or (sp_info p) "mime_type" (js "application/octet-stream")) in
    ShareContent
      [ (js "Content ID", truncateId (contentId p) 12); (js "Type", mimeType);
        (js "Size", size_text (info_val (sp_info p) "size")) ]
      (PreviewSection (Some (directLink origin p)) (Some mimeType))
      [ directLink origin p; embedCode origin p ].

Inductive share_step : SharePage → SharePage → Prop :=
| share_step_settled k r p : share_step p (share_settled k r p)
| share_step_copy_link origin p : share_step p (handleCopyDirectLink origin p)
| share_step_copy_embed origin p : share_step p (handleCopyEmbedCode origin p).
End Share.

(** ** Properties *)

Definition units : list (Z * jstr) := [(1024, js " KB"); (1024 ^ 2, js " MB"); (1024 ^ 3, js " GB")].

Lemma hundredths_near z unit : 0 < unit → 2 * Z.abs (unit * hundredths z unit - 100 * z) ≤ unit.
Proof.
  intros Hu. unfold hundredths. pose proof (Z.div_mod (200 * z + unit) (2 * unit) ltac:(lia)).
  pose proof (Z.mod_pos_bound (200 * z + unit) (2 * unit) ltac:(lia)). lia.
Qed.

(** Sizes are shown in the largest unit that fits and to the nearest hundredth:
    the number printed differs from the exact size by at most half a hundredth of
    the unit; below one kilobyte the byte count is exact. *)
Theorem formatSize_accurate (z : Z) :
  0 ≤ z < 10 ^ 21 →
  (z < 1024 ∧ formatSize (NInt z) = Z_to_str z ++ js " B") ∨
  ∃ unit suffix h, In (unit, suffix) units ∧ formatSize (NInt z) = fixed2 h ++ suffix ∧
    unit ≤ z ∧ (unit ≠ 1024 ^ 3 → z < 1024 * unit) ∧ 2 * Z.abs (unit * h - 100 * z) ≤ unit.
Proof.
  intros Hz. unfold formatSize, format_scaled, num_to_str. rewrite (proj2 (Z.ltb_lt (Z.abs z) (10 ^ 21))) by lia.
  rewrite !Z.mul_1_r.
  destruct (Z.ltb_spec z 1024); [by left|]. right.
  destruct (Z.ltb_spec z (1024 * 1024)).
  { exists 1024, (js " KB"), (hundredths z 1024). split; [by left|]. split; [done|]. split; [lia|]. split; [lia|].
    by apply hundredths_near. }
  destruct (Z.ltb_spec z (1024 * 1024 * 1024)).
  { exists (1024 ^ 2), (js " MB"), (hundredths z (1024 ^ 2)). split; [right; by left|]. split; [done|].
    split; [lia|]. split; [lia|]. by apply hundredths_near. }
  exists (1024 ^ 3), (js " GB"), (hundredths z (1024 ^ 3)). split; [right; right; by left|]. split; [done|].
  split; [lia|]. split; [lia|]. by apply hundredths_near.
Qed.

Lemma formatSize_accurate_witness : formatSize (NInt 2516582) = js "2.40 MB".
Proof.
  destruct (formatSize_accurate 2516582 ltac:(lia)) as [[Hlt _]|_]; [lia | reflexivity].
Defined.

Section Properties.
Context `{Engine}.

Definition waiting (e : Explorer) : Prop := loading e = true → pending e ≠ [].

Lemma step_waiting e e' : step e e' → waiting e → waiting e'.
Proof.
  unfold waiting. intros Hs Hw. inversion Hs; subst; clear Hs; try done.
  - unfold fetchBlobInfo. case_bool_decide; simpl; [done|]. by destruct (pending _).
  - unfold handleKeyDown. destruct (str_eqb _ _); [|done].
    unfold fetchBlobInfo. case_bool_decide; simpl; [done|]. by destruct (pending _).
  - unfold viewBlob. destruct (negb _); simpl; [done|]. discriminate.
  - unfold downloadBlob. destruct (negb _); simpl; [done|]. by destruct (pending _).
  - unfold shareBlob. by destruct (negb _).
  - unfold copyDirectLink. by destruct (negb _).
  - unfold settle. destruct (pending e !! k) as [[u|u]|]; [discriminate..|done].
Qed.

Lemma reachable_waiting e : reachable e → waiting e.
Proof.
  unfold reachable. intros Hr.
  assert (∀ a b, rtc step a b → waiting a → waiting b) as Hpres.
  { induction 1 as [|a b c Hab _ IH]; [done|]. intros Ha. apply IH. by apply (step_waiting a). }
  by apply (Hpres _ _ Hr).
Qed.

(** In every state the explorer can reach it renders exactly one of its three
    panels, and while the spinner shows an answer of the network is outstanding,
    so that a spinner never stays without a pending operation. *)
Theorem explorer_panels e :
  reachable e →
  (∃ p, (Explorer_view e).1 = [p]) ∧ (In Loading (Explorer_view e).1 → pending e ≠ []).
Proof.
  intros Hr. pose proof (reachable_waiting e Hr) as Hw. unfold waiting in Hw. unfold Explorer_view. simpl.
  destruct (loading e); simpl; [destruct (truthy _); simpl; split; [by eexists|by auto|by eexists|by auto]|].
  destruct (truthy _); simpl; (split; [by eexists|intros [?|[]]; discriminate]).
Qed.

Lemma enter_fetches e :
  trim (blobId e) ≠ [] →
  handleKeyDown (js "Enter") e =
  set_pending (pending e ++ [FetchInfo (apiBase ++ js "/blob/" ++ blobId e ++ js "/info")])
    (set_preview None (set_info VNull (set_loading true e))).
Proof. intros Ht. unfold handleKeyDown. rewrite str_eqb_refl. unfold fetchBlobInfo. by rewrite bool_decide_eq_false_2. Qed.

Lemma settle_info k u r info e :
  pending e !! k = Some (FetchInfo u) → rs_ok r = true → rs_json r = Ok info →
  settle k (Ok r) e =
  set_loading false (notify (Success (js "Blob info loaded successfully"))
    (set_info info (set_pending (delete k (pending e)) e))).
Proof.
  intros Hk Hok Hj. unfold settle, fetchBlobInfo_settled, ok_or_text. rewrite Hk. cbn [outcome_bind]. rewrite Hok.
  cbn [negb outcome_bind]. by rewrite Hj.
Qed.

(** Requests are not told apart when they are answered: after searching [a] and
    then [b] with the keyboard, a late answer for [a] leaves the page idle with
    [b] in the search box and the info of [a] shown. *)
Theorem explorer_stale_answer a b ra rb ia ib :
  trim a ≠ [] → trim b ≠ [] →
  rs_ok ra = true → rs_json ra = Ok ia → rs_ok rb = true → rs_json rb = Ok ib → truthy ia = true →
  ∃ e, reachable e ∧ blobId e = b ∧ blobInfo e = ia ∧ pending e = [] ∧
    (Explorer_view e).1 = [Content (stat_cards ia) None].
Proof.
  intros Ha Hb Hra Hja Hrb Hjb Ht.
  set (e1 := handleKeyDown (js "Enter") (setBlobId a initial)).
  set (e2 := handleKeyDown (js "Enter") (setBlobId b e1)).
  set (e3 := settle 1 (Ok rb) e2). set (e4 := settle 0 (Ok ra) e3).
  assert (reachable e4) as Hr4.
  { unfold reachable. eapply rtc_l; [apply (step_type a)|]. eapply rtc_l; [apply (step_key (js "Enter"))|].
    eapply rtc_l; [apply (step_type b)|]. eapply rtc_l; [apply (step_key (js "Enter"))|].
    eapply rtc_l; [apply (step_settle 1 (Ok rb))|]. eapply rtc_l; [apply (step_settle 0 (Ok ra))|]. apply rtc_refl. }
  exists e4. split; [done|]. clear Hr4. unfold e4, e3, e2, e1.
  rewrite (enter_fetches (setBlobId a initial)) by done. rewrite enter_fetches by done.
  erewrite (settle_info 1); [|done..]. erewrite (settle_info 0); [|done..].
  repeat split. unfold Explorer_view. cbn -[truthy stat_cards]. by rewrite Ht.
Qed.

(** The share page: at an address with an id it waits for exactly one answer,
    which ends the spinner with the content of that id or with the message that
    nothing was found and a notification; at an address without an id it sends
    nothing, and whatever happens afterwards it shows the spinner. *)
Theorem share_page_lifecycle origin :
  (∀ id r, id ≠ [] →
    sp_pending (share_mount (Some id)) = [id] ∧
    let p := share_settled 0 r (share_mount (Some id)) in
    sp_pending p = [] ∧
    match (let! response := ok_or_text r in rs_json response) with
    | Ok info => sp_notices p = [] ∧
        if truthy info then
          ∃ mime preview, SharePage_view origin p =
            ShareContent [ (js "Content ID", truncateId id 12); (js "Type", mime);
                           (js "Size", size_text (info_val info "size")) ] preview
              [ origin ++ js "/explorer/api/cdn/" ++ id; embedCode origin p ]
        else SharePage_view origin p = ShareNotFound
    | Throw error => sp_notices p = [error_notice error] ∧ SharePage_view origin p = ShareNotFound
    end) ∧
  (∀ p, rtc share_step (share_mount None) p → sp_pending p = [] ∧ SharePage_view origin p = ShareLoading).
Proof.
  split.
  - intros id r Hid. destruct id as [|c id]; [done|]. split; [done|].
    unfold share_settled, share_mount, share_effect. cbn -[truthy ok_or_text rs_json].
    destruct (outcome_bind _ _) as [info|x]; [|done]. split; [done|]. split; [done|].
    unfold SharePage_view. cbn -[truthy truncateId]. destruct (truthy info); [|done]. by eexists _, _.
  - assert (∀ p q, rtc share_step p q → sp_pending p = [] → sp_loading p = true →
              sp_pending q = [] ∧ sp_loading q = true) as Hinv.
    { induction 1 as [|p q z Hpq _ IH]; [done|]. intros Hp Hl. inversion Hpq; subst; clear Hpq; try (by apply IH).
      apply IH; unfold share_settled; by rewrite Hp. }
    intros p Hp. destruct (Hinv _ _ Hp) as [-> Hl]; [done..|]. split; [done|]. unfold SharePage_view. by rewrite Hl.
Qed.
End Properties.

#[local] Existing Instance Models.engine.

Lemma explorer_panels_witness :
  let e := setBlobId (js "blob1") (@initial) in
  let e := handleKeyDown (js "Enter") e in
  (∃ p, (@Explorer_view Models.engine e).1 = [p]) ∧ (In Loading (@Explorer_view Models.engine e).1 → pending e ≠ []).
Proof.
  apply (@explorer_panels Models.engine). unfold reachable.
  eapply rtc_l; [apply (step_type (js "blob1"))|]. eapply rtc_l; [apply (step_key (js "Enter"))|]. apply rtc_refl.
Defined.

(** An answer of the gateway for a blob of the given id. *)
Definition sample_answer (id : jstr) : http_response := {|
  rs_status := 200; rs_statusText := js "OK"; rs_headers := [];
  rs_body := Ok (utf8_encode (js "{" ++ [34] ++ js "id" ++ [34; 58; 34] ++ id ++ [34] ++ js "}")) |}.

Lemma explorer_stale_answer_witness :
  ∃ e, @reachable Models.engine e ∧ blobId e = js "blob2" ∧ blobInfo e = VObj [(js "id", VStr (js "blob1"))] ∧
    pending e = [] ∧ (@Explorer_view Models.engine e).1 = [Content (stat_cards (VObj [(js "id", VStr (js "blob1"))])) None].
Proof.
  apply (@explorer_stale_answer Models.engine (js "blob1") (js "blob2") (sample_answer (js "blob1"))
           (sample_answer (js "blob2")) _ (VObj [(js "id", VStr (js "blob2"))]));
    first [discriminate | reflexivity | vm_compute; reflexivity].
Defined.

End Gateway.
