(* ===== verification/GatewayServer.v ===== *)
(** * src/blob_gateway/server.rs, fetcher.rs: the blob gateway of a node

    The routes and their handlers over the node's object store and its fetches from peers
    (ChunkTransfer), and their composition with the explorer of src/blob_gateway/ui
    (Gateway): what one node put and a browser downloads through the gateway of another is
    the file it saves.  The embedded assets, the guess of their type and the text of a hex
    error are parameters; the bodies of the 400 of axum's own rejections are dropped. *)

From S2P Require Import Prelude JsValue Codec Json Platform SdkErrors Browser Models Gateway.
From S2P Require Import RustLib GoLib WasmHost RustModels Merkle StateStore UnifiedStore ChunkTransfer ContentDetector.

Module GatewayServer.
Import Rust Merkle Objects Transfer ContentDetector.

Definition SIZE_THRESHOLD_BYTES : Z := 50 * 1024 * 1024.

(** The display of [hex::FromHexError] for a text that is not hexadecimal. *)
Class HexErrors : Type := hex_error : rstr → rstr.

(** The files of the explorer that the build embeds, and [mime_guess]. *)
Class UiAssets : Type := {
  asset : rstr → option bytes;
  mime_of_path : rstr → rstr;
}.

(** The percent-decoding of a path segment; [None] when the result is not UTF-8. *)
Class PercentDecode : Type := {
  percent_decode : rstr → option rstr;
  percent_decode_plain : ∀ s, 37 ∉ s → percent_decode s = Some s;
}.

(** A handler answers with a status and a text, or panics. *)
Inductive ServerError : Type :=
| Status (code : Z) (text : rstr)
| Panicked.

Record Reply : Type := {
  reply_headers : list (rstr * rstr);
  reply_body : bytes;
}.

Record BlobInfo : Type := {
  info_id : rstr;
  info_size : Z;
  info_chunk_count : Z;
  info_subchunk_count : Z;
  available_locally : bool;
  mime_type : option rstr;
  detected_mime_type : option rstr;
}.

Section Handlers.
Context `{Blake3} `{ObjectCodec} `{HashIter} `{PeerText} {W : World} `{HexErrors} `{UiAssets} `{PercentDecode}.

(** Whether the node has a chunk distributor. *)
Context (distributor : bool).

Definition Server (A : Type) : Type := M ServerError Distributor A.

(** ** src/types.rs *)

Definition parse_object_id_str (input : rstr) : outcome rstr bytes :=
  let trimmed := str_trim input in
  if is_empty trimmed then Throw (js "id cannot be empty")
  else
    let rest :=
      if eq_ignore_ascii_case (take 4 trimmed) Host.BLOB_ID_PREFIX then drop 4 trimmed
      else if eq_ignore_ascii_case (take 4 trimmed) Host.PROGRAM_ID_PREFIX then drop 4 trimmed
      else trimmed in
    let hex_part := str_trim rest in
    match hex_strict hex_part with
    | None => Throw (js "invalid hex: " ++ hex_error hex_part)
    | Some bs =>
        if negb (length bs =? 32)%nat
        then Throw (js "invalid id length: expected 32 bytes, got " ++ Z_to_str (Z.of_nat (length bs)))
        else Ok bs
    end.

Definition to_prefixed_string (id : bytes) : rstr := Host.BLOB_ID_PREFIX ++ hex_encode id.

(** ** fetcher.rs *)

Definition fetcher_fetch_blob (id : bytes) : M rstr Distributor bytes :=
  let* s := getM in
  match get_object (store s) id with
  | Ok data => retM data
  | Throw _ => catchM (fetch_blob distributor id) (λ e, throwM (js "Failed to fetch blob from network: " ++ e))
  end.

Definition check_network (id : bytes) : M rstr Distributor bool :=
  catchM (do* fetch_blob distributor id in retM true) (λ _, retM false).

Definition blob_info (s : Distributor) (id : bytes) : outcome rstr BlobInfo :=
  match get_object_metadata (store s) id with
  | None => Throw (js "Blob metadata not found")
  | Some obj =>
      let complete := is_complete (store s) id in
      Ok {| info_id := to_prefixed_string id; info_size := total_size obj; info_chunk_count := chunk_count obj;
            info_subchunk_count := subchunk_count_for_total_size (total_size obj); available_locally := complete;
            mime_type := match object_type obj with Blob mime _ => mime | WasmProgram _ _ _ _ _ _ => None end;
            detected_mime_type :=
              if complete then match get_object (store s) id with Ok data => Some (detect data) | Throw _ => None end else None |}
  end.

(** ** server.rs *)

Definition parse_id (id_str : rstr) : Server bytes :=
  match parse_object_id_str id_str with
  | Ok id => retM id
  | Throw e => throwM (Status 400 (js "Invalid ID: " ++ e))
  end.

Definition is_program_id (s : Distributor) (id : bytes) : bool :=
  match get_object_metadata (store s) id with
  | Some obj => match object_type obj with WasmProgram _ _ _ _ _ _ => true | Blob _ _ => false end
  | None => false
  end.

Definition is_renderable (content_type : rstr) : bool :=
  starts_with (js "image/") content_type || starts_with (js "video/") content_type || starts_with (js "audio/") content_type
  || str_eqb content_type (js "application/pdf") || starts_with (js "text/") content_type.

Definition program_refused : ServerError :=
  Status 400 (js "ID appears to be a program, not a blob. Gateway only serves blob data.").

(** The answers to a fetch that failed; [syncing] and [missing] are the texts of the handler. *)
Definition failed_fetch {A} (syncing missing : rstr) (id : bytes) (e : rstr) : Server A :=
  if str_contains (js "not found") e then
    let* found := (λ s, let '(o, s) := check_network id s in (Ok o, s)) in
    match found with
    | Ok true => throwM (Status 202 syncing)
    | Ok false | Throw _ => throwM (Status 404 missing)
    end
  else throwM (Status 500 e).

(** The result of a fetch as a value. *)
Definition try_fetch (id : bytes) : Server (outcome rstr bytes) :=
  λ s, let '(o, s) := fetcher_fetch_blob id s in (Ok o, s).

(** [&id_hex[..12]]. *)
Definition first_twelve (id_hex : rstr) : Server rstr :=
  if (12 <=? length id_hex)%nat && is_char_boundary id_hex 12 then retM (take 12 id_hex) else throwM Panicked.

Definition get_blob_handler (id_hex : rstr) (download : bool) : Server Reply :=
  let* id := parse_id id_hex in
  let* s := getM in
  if is_program_id s id then throwM program_refused
  else
    let* fetched := try_fetch id in
    match fetched with
    | Ok data =>
        let size := Z.of_nat (length data) in
        let content_type := detect data in
        let extension := get_extension content_type in
        if download || (SIZE_THRESHOLD_BYTES <? size) || negb (is_renderable content_type) then
          let* head := first_twelve id_hex in
          let filename := head ++ js "." ++ extension in
          retM {| reply_headers := [(js "content-type", content_type);
                                    (js "content-disposition", js "attachment; filename=" ++ [34] ++ filename ++ [34])];
                  reply_body := data |}
        else retM {| reply_headers := [(js "content-type", content_type)]; reply_body := data |}
    | Throw e =>
        failed_fetch (js "Data found in network. Syncing to local node. Please try again later.") (js "Blob not found") id e
    end.

Definition cdn_serve_handler (id_hex : rstr) : Server Reply :=
  let* id := parse_id id_hex in
  let* s := getM in
  if is_program_id s id then throwM program_refused
  else
    let* fetched := try_fetch id in
    match fetched with
    | Ok data =>
        retM {| reply_headers := [(js "content-type", detect data); (js "cache-control", js "public, max-age=31536000, immutable");
                                  (js "access-control-allow-origin", js "*")];
                reply_body := data |}
    | Throw e =>
        failed_fetch (js "Content syncing from network. Please try again in a few moments.") (js "Content not found") id e
    end.

Definition get_blob_info (id_hex : rstr) : Server BlobInfo :=
  let* id := parse_id id_hex in
  let* s := getM in
  match blob_info s id with
  | Ok info => retM info
  | Throw e => throwM (Status 500 e)
  end.

Definition serve_ui_path_inner (path : rstr) : outcome ServerError Reply :=
  let trimmed := drop_while (λ c, c =? 47) path in
  let name :=
    if is_empty trimmed || starts_with (js "#") trimmed then js "index.html"
    else match asset trimmed with Some _ => trimmed | None => js "index.html" end in
  match asset name with
  | Some content => Ok {| reply_headers := [(js "content-type", mime_of_path name)]; reply_body := content |}
  | None => Throw (Status 404 (js "Not found"))
  end.
(** *** Routes *)

Inductive Route : Type :=
| BlobRoute (id : rstr)
| InfoRoute (id : rstr)
| HealthRoute
| CdnRoute (id : rstr)
| CdnPathRoute (id : rstr)
| UiRoute (path : rstr).

(** The segments below [/explorer]; a parameter and a wildcard match no empty text. *)
Definition gateway_router (segments : list rstr) : Route :=
  let ui := UiRoute (join [47] segments) in
  match segments with
  | [a; b] => if str_eqb a (js "api") && str_eqb b (js "health") then HealthRoute else ui
  | a :: b :: id :: rest =>
      if negb (str_eqb a (js "api")) || is_empty id then ui
      else if str_eqb b (js "blob") then
        match rest with
        | [] => BlobRoute id
        | [c] => if str_eqb c (js "info") then InfoRoute id else ui
        | _ => ui
        end
      else if str_eqb b (js "cdn") then
        match rest with
        | [] => CdnRoute id
        | _ => if is_empty (join [47] rest) then ui else CdnPathRoute id
        end
      else ui
  | _ => ui
  end.

(** [Query<BlobQuery>]: the field [download] of the query string; [None] is a rejection. *)
Definition parse_blob_query (query : option rstr) : option bool :=
  match query with
  | None => Some false
  | Some q =>
      match List.filter (λ f, str_eqb (take_while (λ c, negb (c =? 61)) f) (js "download")) (split_on 38 q) with
      | [] => Some false
      | [f] => let v := drop 9 f in
               if str_eqb v (js "true") then Some true else if str_eqb v (js "false") then Some false else None
      | _ => None
      end
  end.

(** The JSON of a [BlobInfo]. *)
Definition info_value (i : BlobInfo) : value :=
  let text (o : option rstr) := match o with Some t => VStr (utf8_decode t) | None => VNull end in
  VObj [(js "id", VStr (info_id i)); (js "size", vint (info_size i)); (js "chunk_count", vint (info_chunk_count i));
        (js "subchunk_count", vint (info_subchunk_count i)); (js "available_locally", VBool (available_locally i));
        (js "mime_type", text (mime_type i)); (js "detected_mime_type", text (detected_mime_type i))].

Definition info_reply (i : BlobInfo) : Reply :=
  {| reply_headers := [(js "content-type", js "application/json")]; reply_body := utf8_encode (json_text (info_value i)) |}.

(** [Path<String>]. *)
Definition path_param (segment : rstr) : Server rstr :=
  match percent_decode segment with Some t => retM t | None => throwM (Status 400 []) end.

Definition dispatch (route : Route) (query : option rstr) : Server Reply :=
  match route with
  | BlobRoute seg =>
      let* id := path_param seg in
      match parse_blob_query query with
      | Some download => get_blob_handler id download
      | None => throwM (Status 400 [])
      end
  | InfoRoute seg => let* id := path_param seg in let* info := get_blob_info id in retM (info_reply info)
  | HealthRoute => retM {| reply_headers := [(js "content-type", js "text/plain; charset=utf-8")]; reply_body := js "Gateway healthy" |}
  | CdnRoute seg => let* id := path_param seg in cdn_serve_handler id
  | CdnPathRoute _ => throwM (Status 500 (js "Wrong number of path arguments for `Path`. Expected 1 but got 2"))
  | UiRoute path => liftM (serve_ui_path_inner path)
  end.

(** What the browser gets; [None] when the handler panicked and the connection is closed. *)
Definition into_response (o : outcome ServerError Reply) : option http_response :=
  match o with
  | Ok r => Some {| rs_status := 200; rs_statusText := js "OK"; rs_headers := reply_headers r; rs_body := Ok (reply_body r) |}
  | Throw (Status code text) =>
      Some {| rs_status := code; rs_statusText := []; rs_headers := [(js "content-type", js "text/plain; charset=utf-8")]; rs_body := Ok text |}
  | Throw Panicked => None
  end.

(** A GET of [url], a path with an optional query; [None] outside the gateway. *)
Definition serve (url : rstr) (s : Distributor) : option http_response * Distributor :=
  let path := take_while (λ c, negb (c =? 63)) url in
  let query := match drop (length path) url with _ :: q => Some q | [] => None end in
  match split_on 47 path with
  | [] :: e :: segments =>
      if str_eqb e (js "explorer") then
        let '(o, s) := dispatch (gateway_router segments) query s in (into_response o, s)
      else (None, s)
  | _ => (None, s)
  end.
End Handlers.
(** ** The statuses *)

(** Whether an [n] is followed by an [o]. *)
Fixpoint no_in (s : rstr) : bool :=
  match s with
  | a :: (b :: _) as r => ((a =? 110) && (b =? 111)) || no_in r
  | _ => false
  end.

Definition ends_n (s : rstr) : bool := match last s with Some c => c =? 110 | None => false end.
Definition begins_o (s : rstr) : bool := match s with c :: _ => c =? 111 | [] => false end.

Lemma no_in_app a b : no_in (a ++ b) = no_in a || no_in b || (ends_n a && begins_o b).
Proof.
  induction a as [|x [|y a] IH].
  - cbn. by rewrite orb_false_r.
  - destruct b as [|z b]; [cbn; by rewrite andb_false_r|].
    change (((x =? 110) && (z =? 111)) || no_in (z :: b) = no_in (z :: b) || ((x =? 110) && (z =? 111))). apply orb_comm.
  - change (((x =? 110) && (y =? 111)) || no_in ((y :: a) ++ b) = ((x =? 110) && (y =? 111)) || no_in (y :: a) || no_in b || (ends_n (y :: a) && begins_o b)).
    rewrite IH. by rewrite !orb_assoc.
Qed.

(** Text without either letter. *)
Definition apart (s : rstr) : Prop := Forall (λ c, c ≠ 110 ∧ c ≠ 111) s.

Lemma apart_no s : apart s → no_in s = false ∧ ends_n s = false ∧ begins_o s = false.
Proof.
  intros Hs. split; [|split].
  - induction Hs as [|a [|b s] [Ha _] Hr IH]; [done..|]. cbn. rewrite (proj2 (Z.eqb_neq a 110) Ha). exact IH.
  - unfold ends_n. destruct (last s) as [c|] eqn:Hl; [|done]. apply last_Some in Hl as [l ->]. apply Forall_app in Hs as [_ Hc].
    apply Forall_cons in Hc as [[Hc _] _]. by apply Z.eqb_neq.
  - destruct Hs as [|c s [_ Hc] _]; [done|]. by apply Z.eqb_neq.
Qed.

(** [a] is a text of a message, [x] a value in it and [b] the rest. *)
Lemma no_in_value a x b : no_in a = false → ends_n a = false → apart x → no_in b = false → no_in (a ++ x ++ b) = false.
Proof.
  intros Ha Hn Hx Hb. destruct (apart_no x Hx) as (H1' & H2' & H3'). rewrite !no_in_app, Ha, Hn, H1', H2', Hb. done.
Qed.

Lemma digits_apart z : apart (Z_to_str z).
Proof.
  assert (∀ n, apart (digits n)) as Hd.
  { intros n. eapply Forall_impl; [apply digits_digit|]. cbv beta. unfold is_digit. intros c Hc. apply andb_true_iff in Hc as [H1' H2']. lia. }
  unfold Z_to_str. destruct (z <? 0); [|apply Hd]. constructor; [lia|apply Hd].
Qed.

Lemma hex_apart bs : byte_list bs → apart (hex_encode bs).
Proof.
  intros Hb. eapply Forall_impl; [by apply hex_encode_lower|]. cbv beta. unfold is_hex_lower. intros c Hc. lia.
Qed.

Lemma contains_no s : str_contains (js "not found") s = true → no_in s = true.
Proof.
  induction s as [|a s IH]; cbn [str_contains]; [done|]. intros [Hs|Hs]%orb_true_iff.
  - apply starts_with_spec in Hs as [r ->]. rewrite no_in_app. by replace (no_in (js "not found")) with true by (vm_compute; reflexivity).
  - destruct s as [|b s]; [done|]. cbn [no_in]. apply orb_true_iff. right. by apply IH.
Qed.

Lemma no_in_last a x : no_in a = false → ends_n a = false → apart x → no_in (a ++ x) = false.
Proof. intros Ha Hn Hx. rewrite <- (app_nil_r x). by apply no_in_value. Qed.

Lemma quiet_text s : no_in s = false → str_contains (js "not found") s = false.
Proof. intros Hs. apply not_true_iff_false. intros Hc%contains_no. congruence. Qed.

Lemma Throw_eq {A} (a b : rstr) : Throw (A := A) a = Throw b → b = a.
Proof. by intros [= ->]. Qed.
Lemma thrown {A S} (a b : rstr) (s s' : S) : (Throw (A := A) a, s) = (Throw b, s') → b = a.
Proof. by intros [= ->]. Qed.

#[local] Hint Resolve digits_apart : core.

Ltac message := repeat first [apply no_in_value; [vm_compute; reflexivity|vm_compute; reflexivity|by auto|]
                             | apply no_in_last; [vm_compute; reflexivity|vm_compute; reflexivity|by auto]].

Section Statuses.
Context `{Blake3} `{!Digest} `{ObjectCodec} `{HashIter} `{PeerText} {W : World} `{HexErrors} `{UiAssets} `{PercentDecode}.
Context (distributor : bool).

Lemma validate_error i from descs e : validate_from i from descs = Throw e → no_in e = false.
Proof.
  revert i from. induction descs as [|d descs IH]; intros i from; cbn [validate_from]; [done|]. destruct (negb _); [|apply IH].
  intros ->%Throw_eq. message.
Qed.

Lemma read_error d descs acc e :
  Forall (λ desc, is_Some (chunk_tree d !! desc_chunk_id desc)) descs → read_chunks d descs acc = Throw e → no_in e = false.
Proof.
  intros Hin. revert acc. induction Hin as [|desc descs [raw Hraw] _ IH]; intros acc; cbn [read_chunks]; [done|].
  unfold get_chunk. rewrite Hraw. unfold Chunk_verify. cbn [chunk_bytes chunk_id]. case_bool_decide as Hh; cbn [outcome_bind]; [|by intros ->%Throw_eq; vm_compute].
  rewrite bool_decide_eq_true_2 by done. cbn [outcome_bind]. destruct (negb _); [|apply IH]. intros ->%Throw_eq. message.
Qed.

(** Records hold bytes. *)
Definition typed (d : Db) : Prop := ∀ id m, manifests d !! id = Some m → byte_list (content_hash m).

Lemma complete_error d id e : typed d → is_complete d id = true → get_object d id = Throw e → no_in e = false.
Proof.
  intros Ht (m & Hm & Hin)%is_complete_spec. unfold get_object, get_manifest_by_object. rewrite Hm.
  destruct (Manifest_validate m) eqn:Hv; cbn [outcome_bind]; [|intros ->%Throw_eq; by eapply validate_error].
  destruct (read_chunks d (chunks m) []) as [data|] eqn:Hr; cbn [outcome_bind]; [|intros ->%Throw_eq; by eapply read_error].
  case_bool_decide; [done|]. intros ->%Throw_eq. assert (apart (hex_encode (content_hash m))) by (eapply hex_apart, Ht, Hm).
  assert (apart (hex_encode (hash_bytes data))) by apply hex_apart, digest_bytes. message.
Qed.

(** No failure of a fetch says that something was not found. *)
Lemma fetch_error id s e s' :
  typed (store s) → fetcher_fetch_blob distributor id s = (Throw e, s') → str_contains (js "not found") e = false.
Proof.
  intros Ht. unfold fetcher_fetch_blob, bindM, getM. destruct (get_object (store s) id) as [data|e0] eqn:Hg; [done|].
  unfold catchM, throwM, fetch_blob, bindM, getM. destruct (is_complete (store s) id) eqn:Hc.
  - unfold liftM. rewrite Hg. intros ->%thrown. apply quiet_text. rewrite no_in_app, (complete_error _ _ _ Ht Hc Hg).
    by replace (no_in (js "Failed to fetch blob from network: ")) with false by (vm_compute; reflexivity).
  - destruct distributor; [|intros ->%thrown; by vm_compute]. unfold context, catchM, throwM, liftM.
    destruct (fetch_object id s) as [[data|e1] s1]; [|intros ->%thrown; by vm_compute].
    destruct (get_object (store s1) id); [done|]. intros ->%thrown; by vm_compute.
Qed.

(** What [get_blob_handler] makes of the data. *)
Definition blob_reply (id_hex : rstr) (download : bool) (data : bytes) : outcome ServerError Reply :=
  let content_type := detect data in
  if download || (SIZE_THRESHOLD_BYTES <? Z.of_nat (length data)) || negb (is_renderable content_type) then
    if (12 <=? length id_hex)%nat && is_char_boundary id_hex 12 then
      Ok {| reply_headers := [(js "content-type", content_type);
                              (js "content-disposition",
                               js "attachment; filename=" ++ [34] ++ (take 12 id_hex ++ js "." ++ get_extension content_type) ++ [34])];
            reply_body := data |}
    else Throw Panicked
  else Ok {| reply_headers := [(js "content-type", content_type)]; reply_body := data |}.

Definition cdn_reply (data : bytes) : outcome ServerError Reply :=
  Ok {| reply_headers := [(js "content-type", detect data); (js "cache-control", js "public, max-age=31536000, immutable");
                          (js "access-control-allow-origin", js "*")];
        reply_body := data |}.

(** An invalid identifier and a known program are refused with 400, a fetch that fails with 500. *)
Definition answer (reply : bytes → outcome ServerError Reply) (id_hex : rstr) (s : Distributor) : outcome ServerError Reply :=
  match parse_object_id_str id_hex with
  | Throw e => Throw (Status 400 (js "Invalid ID: " ++ e))
  | Ok id =>
      if is_program_id s id then Throw program_refused
      else match (fetcher_fetch_blob distributor id s).1 with Ok data => reply data | Throw e => Throw (Status 500 e) end
  end.

Lemma failed_status {A} syncing missing id e s : str_contains (js "not found") e = false → failed_fetch distributor (A := A) syncing missing id e s = (Throw (Status 500 e), s).
Proof. intros He. unfold failed_fetch. by rewrite He. Qed.

Lemma blob_answer id_hex download s : typed (store s) → (get_blob_handler distributor id_hex download s).1 = answer (blob_reply id_hex download) id_hex s.
Proof.
  intros Ht. unfold get_blob_handler, answer, bindM at 1, parse_id. destruct (parse_object_id_str id_hex) as [id|]; [|done]. unfold retM at 1, bindM at 1, getM.
  destruct (is_program_id s id); [done|]. unfold bindM at 1, try_fetch. destruct (fetcher_fetch_blob distributor id s) as [[data|e] s'] eqn:Hf; cbn [fst].
  - unfold blob_reply. cbv zeta. destruct (_ || _); [|done]. unfold bindM, first_twelve. by destruct (_ && _).
  - by rewrite failed_status by (by eapply fetch_error).
Qed.

(** C18 The gateway's answers, for any network: 400 for an identifier that is invalid or of a known
    program, 500 with the reason when the fetch fails, and the data with its detected type otherwise;
    its answers 404 and 202 for a blob that is not found are never given. *)
Theorem gateway_answers (id_hex : rstr) (download : bool) (s : Distributor) :
  typed (store s) →
  (get_blob_handler distributor id_hex download s).1 = answer (blob_reply id_hex download) id_hex s
  ∧ (cdn_serve_handler distributor id_hex s).1 = answer cdn_reply id_hex s.
Proof.
  intros Ht. split; [by apply blob_answer|].
  unfold cdn_serve_handler, answer, bindM at 1, parse_id. destruct (parse_object_id_str id_hex) as [id|]; [|done]. unfold retM at 1, bindM at 1, getM.
  destruct (is_program_id s id); [done|]. unfold bindM at 1, try_fetch. destruct (fetcher_fetch_blob distributor id s) as [[data|e] s'] eqn:Hf; cbn [fst]; [done|].
  by rewrite failed_status by (by eapply fetch_error).
Qed.
End Statuses.

(** ** Identifiers and names *)

Lemma take_while_all p (s : jstr) r : Forall (λ c, p c = true) s → match r with c :: _ => p c = false | [] => True end → take_while p (s ++ r) = s.
Proof.
  induction 1 as [|c s Hc _ IH]; cbn; intros Hr; [destruct r; [done|cbn; by rewrite Hr]|]. rewrite Hc. by rewrite IH.
Qed.

(** Lower-case hexadecimal after the prefix. *)
Lemma prefixed_chars id : byte_list id → Forall (λ c, 48 ≤ c ≤ 57 ∨ 97 ≤ c ≤ 122) (to_prefixed_string id).
Proof.
  intros Hb. apply Forall_app. split; [by apply (bool_decide_unpack _); vm_compute|].
  eapply Forall_impl; [by apply hex_encode_lower|]. cbv beta. unfold is_hex_lower. lia.
Qed.

Lemma prefixed_graphic id : byte_list id → graphic (to_prefixed_string id).
Proof. intros Hb. eapply Forall_impl; [by apply prefixed_chars|]. cbv beta. lia. Qed.

Lemma ascii_prefixed id : byte_list id → ascii_str (to_prefixed_string id).
Proof. intros Hb. eapply Forall_impl; [by apply prefixed_chars|]. cbv beta. lia. Qed.

Lemma drop_while_none (p : Z → bool) s : Forall (λ c, p c = false) s → drop_while p s = s.
Proof. destruct 1 as [|c s Hc _]; [done|]. cbn. by rewrite Hc. Qed.

Lemma prefixed_trim id : byte_list id → length id = 32%nat → trim (to_prefixed_string id) ≠ [].
Proof.
  intros Hb Hl. assert (Forall (λ c, is_space c = false) (to_prefixed_string id)) as Hs.
  { eapply Forall_impl; [by apply prefixed_chars|]. cbv beta. unfold is_space. cbn. lia. }
  unfold trim. rewrite (drop_while_none _ (to_prefixed_string id)) by done. rewrite drop_while_none by (by apply Forall_rev).
  rewrite rev_involutive. intros Hn. pose proof (length_hex_encode id) as Hh. unfold to_prefixed_string in Hn. apply app_nil in Hn as [_ Hn]. rewrite Hn, Hl in Hh. done.
Qed.

Lemma prefixed_without id c : byte_list id → ¬ (48 ≤ c ≤ 57 ∨ 97 ≤ c ≤ 122) → c ∉ to_prefixed_string id.
Proof. intros Hb Hc Hin. pose proof (prefixed_chars id Hb) as Hall. rewrite Forall_forall in Hall. by apply Hc, Hall. Qed.

Lemma prefixed_length id : length id = 32%nat → length (to_prefixed_string id) = 68%nat.
Proof. intros Hl. unfold to_prefixed_string. rewrite length_app, length_hex_encode, Hl. done. Qed.

Lemma parse_prefixed `{HexErrors} id : byte_list id → length id = 32%nat → parse_object_id_str (to_prefixed_string id) = Ok id.
Proof.
  intros Hb Hl. unfold parse_object_id_str. rewrite str_trim_graphic by (by apply prefixed_graphic). unfold to_prefixed_string.
  rewrite (take_app_length' Host.BLOB_ID_PREFIX), (drop_app_length' Host.BLOB_ID_PREFIX) by done.
  replace (is_empty (Host.BLOB_ID_PREFIX ++ hex_encode id)) with false by done.
  replace (eq_ignore_ascii_case Host.BLOB_ID_PREFIX Host.BLOB_ID_PREFIX) with true by done. cbv iota beta.
  rewrite str_trim_graphic by (by apply hex_encode_graphic). rewrite hex_strict_encode by done. by rewrite Hl.
Qed.

Lemma prefixed_twelve id :
  byte_list id → length id = 32%nat → (12 <=? length (to_prefixed_string id))%nat && is_char_boundary (to_prefixed_string id) 12 = true.
Proof.
  intros Hb Hl. rewrite prefixed_length by done. cbn [Nat.leb andb]. unfold is_char_boundary. apply orb_true_iff. right.
  destruct (lookup_lt_is_Some_2 (to_prefixed_string id) 12) as [c Hc]; [rewrite prefixed_length by done; lia|]. rewrite Hc.
  pose proof (prefixed_chars id Hb) as Hall. rewrite Forall_lookup in Hall. specialize (Hall 12%nat c Hc). lia.
Qed.

Lemma extension_plain t : Forall (λ c, c ≠ 34) (get_extension t).
Proof.
  unfold get_extension. destruct (mime_to_ext !! t) as [e|] eqn:He; [|by apply (bool_decide_unpack _); vm_compute].
  apply elem_of_list_to_map_2 in He. assert (Forall (λ p, Forall (λ c, c ≠ 34) p.2) mime_entries) as Hall by (apply (bool_decide_unpack _); vm_compute; exact I).
  rewrite Forall_forall in Hall. exact (Hall (t, e) He).
Qed.

(** *** The name a browser reads from the header *)

Lemma match_skip c r : c ≠ 102 → Gateway.match_filename (c :: r) = Gateway.match_filename r.
Proof.
  intros Hc. cbn [Gateway.match_filename]. replace (starts_with (js "filename=" ++ [34]) (c :: r)) with false; [done|]. symmetry.
  change (js "filename=" ++ [34]) with (102 :: js "ilename=" ++ [34]). cbn [starts_with]. by rewrite (proj2 (Z.eqb_neq 102 c)).
Qed.

Lemma match_name name : name ≠ [] → Forall (λ c, c ≠ 34) name → Gateway.match_filename (js "attachment; filename=" ++ [34] ++ name ++ [34]) = Some name.
Proof.
  intros Hne Hq. change (js "attachment; filename=" ++ [34] ++ name ++ [34])
    with (97 :: 116 :: 116 :: 97 :: 99 :: 104 :: 109 :: 101 :: 110 :: 116 :: 59 :: 32 :: js "filename=" ++ [34] ++ name ++ [34]).
  rewrite !match_skip by done. set (key := js "filename=" ++ [34]).
  replace (js "filename=" ++ [34] ++ name ++ [34]) with (102 :: drop 1 key ++ name ++ [34]) by (unfold key; reflexivity).
  cbn [Gateway.match_filename]. cbv zeta. fold key.
  replace (102 :: drop 1 key ++ name ++ [34]) with (key ++ name ++ [34]) by reflexivity. rewrite starts_with_app.
  rewrite drop_app_length, take_while_all; [|eapply Forall_impl; [done|]; cbv beta; intros c Hc; by apply negb_true_iff, Z.eqb_neq|done].
  destruct name as [|c name]; [done|]. by rewrite (drop_app_length (c :: name)).
Qed.

(** ** The explorer and the gateway *)

Section Session.
Context `{Blake3} `{!Digest} `{ObjectCodec} `{HashIter} `{PeerText} {W : World} `{HexErrors} `{UiAssets} `{PercentDecode} `{Engine}.

(** The path of a request below [/explorer/api/blob/]. *)
Definition blob_path (rest : rstr) : rstr := Gateway.apiBase ++ js "/blob/" ++ rest.

Lemma blob_path_split rest : split_on 47 (blob_path rest) = [] :: js "explorer" :: js "api" :: js "blob" :: split_on 47 rest.
Proof.
  change (blob_path rest) with ([] ++ 47 :: js "explorer" ++ 47 :: js "api" ++ 47 :: js "blob" ++ 47 :: rest).
  by rewrite !Go.split_word by (apply (bool_decide_unpack _); vm_compute; exact I).
Qed.

Lemma blob_path_plain rest : Forall (λ c, c ≠ 63) rest → Forall (λ c, negb (c =? 63) = true) (blob_path rest).
Proof.
  intros Hr. apply Forall_app. split; [by apply (bool_decide_unpack _); vm_compute|]. apply Forall_app.
  split; [by apply (bool_decide_unpack _); vm_compute|]. eapply Forall_impl; [done|]. cbv beta. intros c Hc. by apply negb_true_iff, Z.eqb_neq.
Qed.

Context (id : bytes) (id_bytes : byte_list id) (id_length : length id = 32%nat).

Lemma id_plain c : ¬ (48 ≤ c ≤ 57 ∨ 97 ≤ c ≤ 122) → Forall (λ x, x ≠ c) (to_prefixed_string id).
Proof. intros Hc. apply Forall_forall. intros x Hx ->. by eapply prefixed_without. Qed.

Lemma decode_id : percent_decode (to_prefixed_string id) = Some (to_prefixed_string id).
Proof. apply percent_decode_plain. apply prefixed_without; [done|lia]. Qed.

Lemma id_nonempty : is_empty (to_prefixed_string id) = false.
Proof. pose proof (prefixed_length id id_length) as Hl. by destruct (to_prefixed_string id). Qed.

Lemma serve_blob (distributor : bool) s :
  serve distributor (blob_path (to_prefixed_string id ++ js "?download=true")) s =
  let '(o, s') := get_blob_handler distributor (to_prefixed_string id) true s in (into_response o, s').
Proof.
  unfold serve. replace (blob_path (to_prefixed_string id ++ js "?download=true")) with (blob_path (to_prefixed_string id) ++ js "?download=true")
    by (unfold blob_path; by rewrite <- !app_assoc).
  rewrite take_while_all by (first [apply blob_path_plain, id_plain; lia|done]). rewrite drop_app_length, blob_path_split.
  rewrite Go.split_single by (apply prefixed_without; [done|lia]).
  replace (str_eqb (js "explorer") (js "explorer")) with true by (symmetry; apply str_eqb_refl). cbv zeta.
  replace (gateway_router [js "api"; js "blob"; to_prefixed_string id]) with (BlobRoute (to_prefixed_string id)).
  - change (match js "?download=true" with _ :: q => Some q | [] => None end) with (Some (js "download=true")).
    unfold dispatch, path_param. rewrite decode_id. unfold bindM at 1, retM at 1.
    by replace (parse_blob_query (Some (js "download=true"))) with (Some true) by (vm_compute; reflexivity).
  - unfold gateway_router. rewrite id_nonempty. done.
Qed.

Lemma serve_info (distributor : bool) s :
  serve distributor (blob_path (to_prefixed_string id ++ js "/info")) s =
  let '(o, s') := get_blob_info (to_prefixed_string id) s in
  (into_response (match o with Ok i => Ok (info_reply i) | Throw e => Throw e end), s').
Proof.
  unfold serve. cbv zeta. set (path := blob_path _). assert (take_while (λ c, negb (c =? 63)) path = path) as ->.
  { rewrite <- (app_nil_r path) at 1. apply take_while_all; [|done]. apply blob_path_plain, Forall_app.
    split; [apply id_plain; lia|by apply (bool_decide_unpack _); vm_compute]. }
  rewrite drop_all. unfold path. rewrite blob_path_split. change (js "/info") with (47 :: js "info").
  rewrite Go.split_word by (apply prefixed_without; [done|lia]). rewrite Go.split_single by (apply (bool_decide_unpack _); vm_compute; exact I).
  replace (str_eqb (js "explorer") (js "explorer")) with true by (symmetry; apply str_eqb_refl). cbv zeta.
  replace (gateway_router [js "api"; js "blob"; to_prefixed_string id; js "info"]) with (InfoRoute (to_prefixed_string id)).
  - unfold dispatch, path_param. rewrite decode_id. unfold bindM, retM. by destruct (get_blob_info (to_prefixed_string id) s) as [[i|e] s'].
  - unfold gateway_router. rewrite id_nonempty. done.
Qed.

(** *** What the gateway answers for a replicated blob *)

Context (data : bytes) (m : Manifest) (quiet : ∀ n, arrivals n = []) (made : made_for data id m) (distinct : ¬ collision (pieces data)).

Lemma local_read s x :
  clean data (store s) → manifests (store s) !! id = None ∨ manifests (store s) !! id = Some m → get_object (store s) id = Ok x → x = data.
Proof.
  intros Hc Hm Hg. apply get_object_spec in Hg as Hg'. destruct Hg' as (m' & ps & Hm' & _ & Hps & _ & _). assert (m' = m) as ->.
  { rewrite Hm' in Hm. by destruct Hm as [|[= ->]]. }
  destruct (reads data id m made (store s) Hm' Hc) as [Hd _]; [|congruence].
  clear -Hps. induction Hps as [|desc p descs ps (Ht & _) _ IH]; constructor; [by eexists|done].
Qed.

Lemma fetcher_delivers s :
  reachable_copy data id m (get_providers_for_object s id) → clean data (store s) →
  manifests (store s) !! id = None ∨ manifests (store s) !! id = Some m →
  ∃ s', fetcher_fetch_blob true id s = (Ok data, s').
Proof.
  intros Hr Hc Hm. unfold fetcher_fetch_blob, bindM, getM. destruct (get_object (store s) id) as [x|e] eqn:Hg.
  - exists s. by rewrite (local_read s x Hc Hm Hg).
  - destruct (fetch_blob_delivers data id m quiet made s distinct Hr Hc Hm) as (s' & Hf & _). exists s'. unfold catchM. by rewrite Hf.
Qed.

(** The name of the saved file. *)
Definition saved_name : jstr := take 12 (to_prefixed_string id) ++ js "." ++ get_extension (detect data).

Lemma blob_delivers s :
  is_program_id s id = false → reachable_copy data id m (get_providers_for_object s id) → clean data (store s) →
  manifests (store s) !! id = None ∨ manifests (store s) !! id = Some m →
  ∃ s', get_blob_handler true (to_prefixed_string id) true s
        = (Ok {| reply_headers := [(js "content-type", detect data);
                                   (js "content-disposition", js "attachment; filename=" ++ [34] ++ saved_name ++ [34])];
                 reply_body := data |}, s').
Proof.
  intros Hp Hr Hc Hm. destruct (fetcher_delivers s Hr Hc Hm) as (s' & Hf). exists s'.
  unfold get_blob_handler, bindM at 1, parse_id. rewrite parse_prefixed by done. unfold retM at 1, bindM at 1, getM. rewrite Hp.
  unfold bindM at 1, try_fetch. rewrite Hf. cbn [orb]. unfold bindM, first_twelve. by rewrite prefixed_twelve.
Qed.

Lemma saved_name_plain : saved_name ≠ [] ∧ Forall (λ c, c ≠ 34) saved_name.
Proof.
  split.
  - intros Hn. assert (length saved_name = 0%nat) as Hl by (by rewrite Hn). unfold saved_name in Hl. rewrite length_app, length_take, prefixed_length in Hl by done. lia.
  - apply Forall_app. split; [apply Forall_take, id_plain; lia|]. apply Forall_app. split; [by apply (bool_decide_unpack _); vm_compute|apply extension_plain].
Qed.

(** The explorer saves what it gets under the name in the header. *)
Lemma download_saves k u s s' e :
  Gateway.pending e !! k = Some (Gateway.FetchFile u) →
  get_blob_handler true (to_prefixed_string id) true s
  = (Ok {| reply_headers := [(js "content-type", detect data);
                             (js "content-disposition", js "attachment; filename=" ++ [34] ++ saved_name ++ [34])];
           reply_body := data |}, s') →
  ∃ r, serve true (blob_path (to_prefixed_string id ++ js "?download=true")) s = (Some r, s')
  ∧ Gateway.settle k (Ok r) e
    = Gateway.set_loading false (Gateway.notify (Gateway.Success (js "Download started"))
        (Gateway.save_file saved_name data (Gateway.set_pending (delete k (Gateway.pending e)) e))).
Proof.
  intros Hk Hh. rewrite serve_blob, Hh. eexists. split; [done|]. unfold Gateway.settle. rewrite Hk.
  unfold Gateway.downloadBlob_settled, Gateway.ok_or_text. cbn [outcome_bind into_response]. unfold rs_ok, rs_arrayBuffer. cbn [rs_status].
  change (negb ((200 <=? 200) && (200 <=? 299))) with false. cbv iota. unfold Gateway.download_name, header.
  cbn [outcome_bind rs_headers rs_body reply_headers reply_body].
  match goal with |- context [obj_get ?k ?l] => change (obj_get k l) with (Some (js "attachment; filename=" ++ [34] ++ saved_name ++ [34])) end.
  cbv iota.
  destruct saved_name_plain as [Hn Hq]. by rewrite match_name.
Qed.
End Session.

(** *** The info *)

Lemma subchunk_bound n : 0 ≤ n < 2 ^ 64 → 0 ≤ subchunk_count_for_total_size n < 10 ^ 21.
Proof.
  intros Hn. assert (∀ x d, 0 ≤ x → 1 < d → 0 ≤ div_ceil_u64 x d ≤ x + 1) as Hc.
  { intros x d Hx Hd. unfold div_ceil_u64. destruct (Z.eqb_spec d 0); [lia|]. pose proof (Z.div_pos x d). pose proof (Z.div_le_upper_bound x d x ltac:(lia) ltac:(nia)).
    destruct (_ =? 0); lia. }
  unfold subchunk_count_for_total_size. destruct (n =? 0); [lia|]. destruct (_ <? _).
  - replace (div_ceil_u64 CHUNK_SIZE_LARGE CHUNK_SIZE_SMALL) with 9 by (vm_compute; reflexivity).
    pose proof (Z.mod_pos_bound n CHUNK_SIZE_LARGE ltac:(done)). pose proof (Z.mod_le n CHUNK_SIZE_LARGE ltac:(lia) ltac:(done)).
    pose proof (Z.div_pos n CHUNK_SIZE_LARGE ltac:(lia) ltac:(done)). pose proof (Z.div_le_upper_bound n CHUNK_SIZE_LARGE n ltac:(done) ltac:(unfold CHUNK_SIZE_LARGE; lia)).
    pose proof (Hc (n mod CHUNK_SIZE_LARGE) CHUNK_SIZE_SMALL ltac:(lia) ltac:(done)). destruct (negb _); lia.
  - pose proof (Hc n CHUNK_SIZE_SMALL ltac:(lia) ltac:(done)). lia.
Qed.

Lemma detect_ascii data : ascii_str (detect data).
Proof.
  pose proof (detect_member data) as Hm. apply existsb_exists in Hm as (t & Ht & ->%str_eqb_eq).
  assert (Forall ascii_str (octet_stream :: detectable)) as Hall by (apply (bool_decide_unpack _); vm_compute; exact I).
  rewrite Forall_forall in Hall. by apply Hall, list_elem_of_In.
Qed.

Definition texts_ascii (i : BlobInfo) : Prop :=
  ascii_str (info_id i) ∧ (∀ t, mime_type i = Some t → ascii_str t) ∧ (∀ t, detected_mime_type i = Some t → ascii_str t).

Definition numbers_small (i : BlobInfo) : Prop :=
  Z.abs (info_size i) < 10 ^ 21 ∧ Z.abs (info_chunk_count i) < 10 ^ 21 ∧ Z.abs (info_subchunk_count i) < 10 ^ 21.

Lemma info_json i : texts_ascii i → numbers_small i → json_data (info_value i).
Proof.
  intros (Hid & Hm & Hd) (H1' & H2' & H3').
  assert (∀ o : option rstr, (∀ t, o = Some t → ascii_str t) → json_data (match o with Some t => VStr (utf8_decode t) | None => VNull end)) as Ho.
  { intros [t|] Ht; [|constructor]. constructor. rewrite utf8_decode_ascii by (by apply Ht). by apply ascii_unit, Ht. }
  constructor.
  - apply (bool_decide_unpack _). vm_compute. exact I.
  - cbn [info_value]. repeat (apply Forall_cons_2; [apply (bool_decide_unpack _); vm_compute; exact I|]). apply Forall_nil_2.
  - repeat (apply Forall_cons_2; [cbn [snd]; first [by constructor|by apply Ho|constructor; by apply ascii_unit]|]). apply Forall_nil_2.
Qed.

Lemma info_read `{Engine} i :
  texts_ascii i → numbers_small i →
  rs_json {| rs_status := 200; rs_statusText := js "OK"; rs_headers := reply_headers (info_reply i); rs_body := Ok (reply_body (info_reply i)) |}
  = Ok (info_value i).
Proof.
  intros Ha Hn. pose proof (info_json i Ha Hn) as Hd. unfold rs_json, rs_text. cbn [rs_body outcome_bind info_reply reply_body].
  replace (utf8_text (utf8_encode (json_text (info_value i)))) with (json_text (info_value i)); [by apply json_parse_text|].
  unfold utf8_text. replace (strip_bom (utf8_encode (json_text (info_value i)))) with (utf8_encode (json_text (info_value i))); [by rewrite json_text_utf8|].
  assert (∃ t, json_text (info_value i) = 123 :: t) as [t ->]; [|done].
  revert Hd. unfold info_value. cbv zeta. generalize [(js "id", VStr (info_id i)); (js "size", vint (info_size i)); (js "chunk_count", vint (info_chunk_count i));
    (js "subchunk_count", vint (info_subchunk_count i)); (js "available_locally", VBool (available_locally i));
    (js "mime_type", match mime_type i with Some t => VStr (utf8_decode t) | None => VNull end);
    (js "detected_mime_type", match detected_mime_type i with Some t => VStr (utf8_decode t) | None => VNull end)] as fs.
  intros fs Hd. inversion Hd. rewrite json_text_obj by done. by eexists.
Qed.

(** ** A session *)

Section Download.
Context `{Blake3} `{!Digest} `{ObjectCodec} `{HashIter} `{PeerText} {W : World} `{HexErrors} `{UiAssets} `{PercentDecode} `{Engine}.

(** The gateway answers the explorer's first pending request; a closed connection rejects it. *)
Definition exchange (distributor : bool) (es : Gateway.Explorer * Distributor) : Gateway.Explorer * Distributor :=
  let '(e, s) := es in
  match Gateway.pending e with
  | (Gateway.FetchInfo u | Gateway.FetchFile u) :: _ =>
      let '(r, s) := serve distributor u s in
      (Gateway.settle 0 (match r with Some resp => Ok resp | None => Throw (JsErr (js "TypeError") (js "Failed to fetch")) end) e, s)
  | [] => (e, s)
  end.

(** What the page shows of a blob, [complete] saying whether the node has all of it. *)
Definition info_of (data : bytes) (mime : option rstr) (id : bytes) (complete : bool) : BlobInfo :=
  {| info_id := to_prefixed_string id; info_size := Z.of_nat (length data);
     info_chunk_count := Z.of_nat (length (chunk_data data)) mod 2 ^ 32;
     info_subchunk_count := subchunk_count_for_total_size (Z.of_nat (length data)); available_locally := complete; mime_type := mime;
     detected_mime_type := if complete then Some (detect data) else None |}.

Lemma info_exchange data t mime salt by_node now (s : Distributor) (e : Gateway.Explorer) :
  t = Blob mime salt → let id := object_id_of data t in
  Z.of_nat (length data) < 2 ^ 64 → (∀ x, mime = Some x → ascii_str x) → clean data (store s) →
  manifests (store s) !! id = None ∨ manifests (store s) !! id = Some (manifest_of data t) →
  get_object_metadata (store s) id = Some (object_of data t by_node now) → Gateway.pending e = [] → Gateway.blobId e = to_prefixed_string id →
  exchange true (Gateway.fetchBlobInfo e, s) =
  (Gateway.set_loading false (Gateway.notify (Gateway.Success (js "Blob info loaded successfully"))
     (Gateway.set_info (info_value (info_of data mime id (is_complete (store s) id)))
        (Gateway.set_pending [] (Gateway.set_preview None (Gateway.set_info VNull (Gateway.set_loading true e)))))), s).
Proof.
  intros -> id Hlen Hmime Hc Hm Hmeta Hp Hid. assert (byte_list id) as Hb by apply digest_bytes. assert (length id = 32%nat) as Hl by apply digest_length.
  unfold exchange, Gateway.fetchBlobInfo. rewrite bool_decide_eq_false_2 by (rewrite Hid; by apply prefixed_trim).
  cbn [Gateway.pending Gateway.set_pending Gateway.set_preview Gateway.set_info Gateway.set_loading Gateway.blobId app]. rewrite Hp, Hid. cbn [app].
  change (Gateway.apiBase ++ js "/blob/" ++ to_prefixed_string id ++ js "/info") with (blob_path (to_prefixed_string id ++ js "/info")).
  rewrite serve_info by done. unfold get_blob_info, bindM at 1, parse_id. rewrite parse_prefixed by done. unfold retM at 1, bindM at 1, getM.
  assert (blob_info s id = Ok (info_of data mime id (is_complete (store s) id))) as ->.
  { unfold blob_info. rewrite Hmeta. unfold info_of, object_of. cbn [total_size chunk_count object_type]. do 2 f_equal.
    destruct (is_complete (store s) id) eqn:Hco; [|done]. apply is_complete_spec in Hco as (m & Hm' & Hin). assert (m = manifest_of data (Blob mime salt)) as ->.
    { rewrite Hm' in Hm. by destruct Hm as [|[= ->]]. }
    destruct (reads data id (manifest_of data (Blob mime salt)) ltac:(done) (store s) Hm' Hc Hin) as [-> _]. done. }
  unfold retM. cbn [into_response]. cbv iota beta. erewrite (Gateway.settle_info 0); [|done|done|apply info_read].
  - done.
  - split; [by apply ascii_prefixed|]. split; [done|]. intros x. cbn. destruct (is_complete _ _); [|done]. intros [= <-]. apply detect_ascii.
  - unfold numbers_small, info_of. cbn [info_size info_chunk_count info_subchunk_count].
    pose proof (subchunk_bound (Z.of_nat (length data)) ltac:(lia)). pose proof (Z.mod_pos_bound (Z.of_nat (length (chunk_data data))) (2 ^ 32) ltac:(done)). lia.
Qed.

(** C5 From the identifier to the file.  A node has heard of a blob that was put elsewhere; each of
    its providers answers from a store that holds the blob or does not answer, one of the first three
    answers.  Someone looks the identifier up in the explorer the node serves and presses download:
    the page has shown the blob's size and counts, and the browser saves the bytes that were put, under
    the first twelve characters of the identifier and the extension of the detected type. *)
Theorem explorer_download (data : bytes) (mime : option rstr) (salt by_node : bytes) (now : Z) (s : Distributor) (e : Gateway.Explorer) :
  let t := Blob mime salt in
  let id := object_id_of data t in
  (∀ n, arrivals n = []) → Z.of_nat (length data) < 2 ^ 64 → (∀ x, mime = Some x → ascii_str x) → ¬ collision (pieces data) →
  reachable_copy data id (manifest_of data t) (get_providers_for_object s id) → clean data (store s) →
  manifests (store s) !! id = None ∨ manifests (store s) !! id = Some (manifest_of data t) →
  get_object_metadata (store s) id = Some (object_of data t by_node now) →
  Gateway.pending e = [] → Gateway.blobId e = to_prefixed_string id →
  let '(e1, s1) := exchange true (Gateway.fetchBlobInfo e, s) in
  let '(e2, s2) := exchange true (Gateway.downloadBlob e1, s1) in
  Gateway.downloads e2 = Gateway.downloads e ++ [(saved_name id data, data)]
  ∧ Gateway.blobInfo e2 = info_value (info_of data mime id (is_complete (store s) id))
  ∧ Gateway.notices e2 = Gateway.notices e ++ [Gateway.Success (js "Blob info loaded successfully"); Gateway.Success (js "Download started")]
  ∧ Gateway.loading e2 = false ∧ Gateway.pending e2 = [].
Proof.
  intros t id quiet Hlen Hmime Hdist Hcopy Hc Hm Hmeta Hp Hid. assert (byte_list id) as Hb by apply digest_bytes. assert (length id = 32%nat) as Hl by apply digest_length.
  rewrite (info_exchange data t mime salt by_node now s e eq_refl Hlen Hmime Hc Hm Hmeta Hp Hid). fold id. set (i := info_of _ _ _ _).
  destruct (blob_delivers id Hb Hl data (manifest_of data t) quiet ltac:(done) Hdist s) as (s' & Hh); [|done..|].
  { unfold is_program_id. by rewrite Hmeta. }
  set (e1 := Gateway.set_loading false _). unfold exchange, Gateway.downloadBlob. change (truthy (Gateway.blobInfo e1)) with true. cbn [negb].
  set (e2 := Gateway.set_pending _ _). change (Gateway.pending e2) with [Gateway.FetchFile (blob_path (to_prefixed_string id ++ js "?download=true"))].
  cbv iota beta. destruct (download_saves id Hb Hl data 0 (blob_path (to_prefixed_string id ++ js "?download=true")) s s' e2 eq_refl Hh) as (r & -> & ->).
  cbn. by rewrite <- app_assoc.
Qed.
End Download.
End GatewayServer.

(** ** A gateway *)

Module GatewayModels.
Import Rust RustModels Merkle StoreModels Objects StoreHost Transfer TransferModels ContentDetector GatewayServer.

Definition plain_errors : HexErrors := λ _, js "Invalid character".
Definition no_assets : UiAssets := {| asset _ := None; mime_of_path _ := js "text/html" |}.
Definition no_escapes : PercentDecode := {| percent_decode s := Some s; percent_decode_plain s _ := eq_refl |}.

#[local] Existing Instances blake3_sum sum_digest list_iter plain_codec plain_peers plain_errors no_assets no_escapes Models.engine.

(** A node that knows of the blob [hello] and of two providers, one of which answers. *)
Definition informed : Distributor := set_store (store_object (object_of hello blob_type [] 0) empty_db) asking.
Definition visitor : Gateway.Explorer := Gateway.setBlobId (to_prefixed_string hello_id) Gateway.initial.

Lemma explorer_download_witness :
  let '(e1, s1) := exchange (W := one_peer publisher_db) true (Gateway.fetchBlobInfo visitor, informed) in
  let '(e2, s2) := exchange (W := one_peer publisher_db) true (Gateway.downloadBlob e1, s1) in
  Gateway.downloads e2 = Gateway.downloads visitor ++ [(saved_name hello_id hello, hello)]
  ∧ Gateway.blobInfo e2 = info_value (info_of hello None hello_id (is_complete (store informed) hello_id))
  ∧ Gateway.notices e2 = Gateway.notices visitor ++ [Gateway.Success (js "Blob info loaded successfully"); Gateway.Success (js "Download started")]
  ∧ Gateway.loading e2 = false ∧ Gateway.pending e2 = [].
Proof.
  apply (explorer_download (W := one_peer publisher_db) hello None (replicate 32 0) [] 0 informed visitor).
  - done.
  - done.
  - done.
  - rewrite hello_pieces. apply collision_one.
  - apply (asking_copy hello (manifest_of hello blob_type)), hello_held.
  - apply asking_clean.
  - left. apply lookup_empty.
  - apply lookup_insert_eq.
  - done.
  - done.
Defined.

Lemma gateway_answers_witness :
  (get_blob_handler (W := one_peer publisher_db) true (js "00") false fresh).1
  = answer (W := one_peer publisher_db) true (blob_reply (js "00") false) (js "00") fresh
  ∧ (cdn_serve_handler (W := one_peer publisher_db) true (js "00") fresh).1
    = answer (W := one_peer publisher_db) true cdn_reply (js "00") fresh.
Proof. apply (gateway_answers (W := one_peer publisher_db) true (js "00") false fresh). intros id m Hm. change ((∅ : gmap bytes Manifest) !! id = Some m) in Hm. by rewrite lookup_empty in Hm. Defined.

(** A blob nobody has is an internal error. *)
Lemma missing_blob :
  answer (W := one_peer publisher_db) true cdn_reply (hex_encode (replicate 32 9)) fresh
  = Throw (Status 500 (js "Failed to fetch blob from network: network blob fetch failed")).
Proof. vm_compute. reflexivity. Qed.
End GatewayModels.
