(* ===== verification/ProgramCall.v ===== *)
(** * Calling a WASM program through the SDK

    The private method [executeProgram] that the school and the identity client
    have in common (school_management/ui/lib/onvm-client.ts and
    identity_card/ui/lib/onvm-client.ts): the request's JSON text goes out as
    base64, the program's JSON answer comes back the same way, and an answer with
    the program's error status is thrown.  The two differ in that status and in
    the member that holds the message, which are parameters here. *)

From S2P Require Import Prelude JsValue Codec Json Platform SdkErrors SdkTypes Models SdkAuth SdkClient Browser.

Module ProgramCall.
Import Errors Types Auth Client.

(** [Buffer.from(JSON.stringify(request)).toString('base64')]. *)
Definition encode_input (request : value) : jstr := b64_encode (utf8_encode (json_text request)).

Definition execute_request (programId : jstr) (request : value) : value :=
  VObj [(js "program_id", VStr programId); (js "input_base64", VStr (encode_input request))].

Section Call.
Context `{Engine} `{Env} `{XChaCha} (programId bad field : jstr).

(** [Buffer.from(v, 'base64')]: a string is decoded; [ExecuteResponse] has no
    other values here, and [Buffer.from] refuses [undefined], [null], numbers
    and booleans. *)
Definition Buffer_from_base64 (v : value) : outcome exn bytes :=
  match v with
  | VStr s => Ok (b64_decode s)
  | _ => type_error (js "Buffer.from")
  end.

(** What is done with the node's answer. *)
Definition read_answer (result : value) : outcome exn value :=
  let! return_base64 := get result (js "return_base64") in
  let! returnBytes := Buffer_from_base64 return_base64 in
  let! parsedResponse := json_parse (utf8_decode returnBytes) in
  let! status := get parsedResponse (js "status") in
  if is_str bad status then
    let! error := get parsedResponse field in
    Throw (Error_of (js_or error (VStr (js "Unknown error occurred"))))
  else Ok parsedResponse.

Definition execute (request : value) : M exn sdk value :=
  let* result := Client.executeProgram (execute_request programId request) in
  liftM (read_answer result).

(** ** Lemmas *)

Lemma read_answer_json reply answer :
  json_data answer →
  get reply (js "return_base64") = Ok (VStr (b64_encode (utf8_encode (json_text answer)))) →
  read_answer reply =
  (let! status := get answer (js "status") in
   if is_str bad status then
     let! error := get answer field in
     Throw (Error_of (js_or error (VStr (js "Unknown error occurred"))))
   else Ok answer).
Proof.
  intros Ha Hret. unfold read_answer. rewrite Hret. cbn [outcome_bind Buffer_from_base64].
  rewrite b64_decode_encode by by apply json_text_bytes. rewrite json_text_utf8 by done.
  by rewrite json_parse_text.
Qed.

(** The input that the node hands to the program is the request's JSON text. *)
Lemma input_is_request request :
  json_data request → json_parse (utf8_decode (b64_decode (encode_input request))) = Ok request.
Proof.
  intros Hr. unfold encode_input. rewrite b64_decode_encode by by apply json_text_bytes.
  rewrite json_text_utf8 by done. by apply json_parse_text.
Qed.

Lemma execute_dev request s resp reply :
  detectedNodeMode (client s) = Some dev →
  (∀ rq, server (sent (wd s)) rq = Ok resp) → rs_ok resp = true → rs_text resp = Ok (json_text reply) → json_data reply →
  execute request s =
  (read_answer reply,
   clear_timer (after_fetch (rpc_message (client s) (js "POST") (js "/execute")
                               (json_text (execute_request programId request)) json_content) (arm_timer s))).
Proof.
  intros Hm Hs Hok Ht Hr. unfold execute, Client.executeProgram, POST.
  rewrite (bindM_ok _ _ _ _ _ (request_dev_ok _ _ _ s resp reply Hm Hs Hok Ht Hr)). done.
Qed.

(** A program call, for requests and answers with any characters: the node
    receives the program id and an input that decodes to exactly the request, and
    the value the caller gets is the program's answer, or an error with the
    program's message when the answer has the error status. *)
Theorem program_call (request answer reply status : value) (s : sdk) (resp : http_response) :
  detectedNodeMode (client s) = Some dev →
  json_data request → json_data answer → json_data reply →
  (∀ rq, server (sent (wd s)) rq = Ok resp) → rs_ok resp = true → rs_text resp = Ok (json_text reply) →
  get reply (js "return_base64") = Ok (VStr (b64_encode (utf8_encode (json_text answer)))) →
  get answer (js "status") = Ok status →
  (∃ input s', json_parse (utf8_decode (b64_decode input)) = Ok request ∧
     sent (wd s') = sent (wd s) ++
       [rpc_message (client s) (js "POST") (js "/execute")
          (json_text (VObj [(js "program_id", VStr programId); (js "input_base64", VStr input)])) json_content] ∧
     (execute request s).2 = s') ∧
  (status ≠ VStr bad → (execute request s).1 = Ok answer) ∧
  (status = VStr bad → ∀ m, get answer field = Ok (VStr m) →
     (execute request s).1 = Throw (Error (str_or m (js "Unknown error occurred")))).
Proof.
  intros Hm Hreq Ha Hrep Hs Hok Ht Hret Hst.
  rewrite (execute_dev request s resp reply) by done. rewrite (read_answer_json reply answer) by done.
  rewrite Hst. cbn [outcome_bind fst snd].
  split; [|split].
  - exists (encode_input request). eexists. split; [by apply input_is_request|]. by split; [|done].
  - intros Hne. destruct status; try done. cbn [is_str]. by rewrite str_eqb_neq by congruence.
  - intros -> m Hf. cbn [is_str]. rewrite str_eqb_refl, Hf. by destruct m.
Qed.
End Call.

(** ** A concrete call *)

Definition demo_sdk : sdk :=
  {| client := {| rpcUrl := js "http://n"; programId := None; projectId := None; projectSecret := None;
                  timeout := 30000; derivedKeys := None; detectedNodeMode := Some dev |};
     wd := fresh_world; pending_timers := 0 |}.

Definition demo_answer : value := VObj [(js "status", VStr (js "success")); (js "data", VStr [233; 8364])].

Definition demo_reply : value := VObj [(js "return_base64", VStr (b64_encode (utf8_encode (json_text demo_answer))))].

Definition demo_request : value := VObj [(js "operation", VStr (js "get_student")); (js "data", VStr [233])].

Lemma program_call_witness :
  (@execute Models.engine (Models.env_with (Models.constant_server 200 (json_text demo_reply))) Models.mac_aead
     (js "prog") (js "error") (js "error") demo_request demo_sdk).1 = Ok demo_answer.
Proof.
  apply (@program_call Models.engine (Models.env_with (Models.constant_server 200 (json_text demo_reply))) Models.mac_aead
    (js "prog") (js "error") (js "error") demo_request demo_answer demo_reply (VStr (js "success")) demo_sdk
    {| rs_status := 200; rs_statusText := []; rs_headers := []; rs_body := Ok (utf8_encode (json_text demo_reply)) |});
    try reflexivity; try discriminate; repeat constructor; try lia; decide_closed.
Defined.
End ProgramCall.
