(* ===== verification/SchoolClient.v ===== *)
(** * wasm_programs/school_management/ui: types and client

    types/index.ts and lib/onvm-client.ts.  The client runs in the browser on top
    of the SDK: its state is the SDK's state, the program id is a field that never
    changes.  What a call does is proved in ProgramCall. *)

From S2P Require Import Prelude JsValue Codec Json Platform SdkErrors SdkTypes Models SdkAuth SdkClient Browser ProgramCall.

Module School.
Import Errors Types Auth Client.

(** ** types/index.ts *)

Definition Student : ty := TObj [
  mem "id" TStr; mem "name" TStr; mem "grade" TStr; mem "age" TNum; mem "email" TStr; mem "subjects" (TArr TStr)].

Definition Teacher : ty := TObj [
  mem "id" TStr; mem "name" TStr; mem "subject" TStr; mem "email" TStr; mem "phone" TStr].

Definition Course : ty := TObj [
  mem "id" TStr; mem "name" TStr; mem "code" TStr; mem "teacher_id" TStr; mem "student_ids" (TArr TStr);
  mem "description" TStr].

Definition Grade : ty := TObj [
  mem "id" TStr; mem "student_id" TStr; mem "course_id" TStr; mem "score" TNum; mem "date" TStr;
  opt "studentName" TStr; opt "courseName" TStr].

(** ** lib/onvm-client.ts *)

(** The variables of the build environment. *)
Class SchoolEnv : Type := {
  NEXT_PUBLIC_RPC_URL : option jstr;
  NEXT_PUBLIC_SCHOOL_PROGRAM_ID : option jstr;
  NEXT_PUBLIC_PROJECT_ID : option jstr;
  NEXT_PUBLIC_PROJECT_SECRET : option jstr;
}.

(** [process.env.X || fallback]. *)
Definition env_or (x : option jstr) (fallback : jstr) : jstr := str_or (default [] x) fallback.

Definition RPC_ENDPOINT `{SchoolEnv} : jstr := env_or NEXT_PUBLIC_RPC_URL (js "http://localhost:8081").

Definition PROGRAM_ID `{SchoolEnv} : jstr :=
  env_or NEXT_PUBLIC_SCHOOL_PROGRAM_ID (js "prog618df68d440c4f7ac9dae7f63a36ff8e10fb3bb970c7e7aa3d00b4195e06bbd7").

Record SchoolManagementClient : Type := {
  sc_client : OnvmClient;
  sc_programId : jstr;
}.

Definition new_SchoolManagementClient `{SchoolEnv} : outcome exn SchoolManagementClient :=
  let! c := new_OnvmClient {|
    cfg_rpcUrl := RPC_ENDPOINT; cfg_programId := Some PROGRAM_ID; cfg_projectId := NEXT_PUBLIC_PROJECT_ID;
    cfg_projectSecret := NEXT_PUBLIC_PROJECT_SECRET; cfg_mode := None; cfg_timeout := Some 30000 |} in
  Ok {| sc_client := c; sc_programId := PROGRAM_ID |}.

(** The module variable [schoolClient] before and after a call. *)
Definition getSchoolClient `{SchoolEnv} (schoolClient : option SchoolManagementClient)
    : outcome exn SchoolManagementClient * option SchoolManagementClient :=
  match schoolClient with
  | Some c => (Ok c, Some c)
  | None =>
      match new_SchoolManagementClient with
      | Ok c => (Ok c, Some c)
      | Throw e => (Throw e, None)
      end
  end.

(** The requests of the methods. *)
Definition program_request (operation : string) (data : value) : value :=
  VObj [(js "operation", VStr (js operation)); (js "data", data)].

Section Methods.
Context `{Engine} `{Env} `{XChaCha} (programId : jstr).

Definition executeProgram (request : value) : M exn sdk value :=
  ProgramCall.execute programId (js "error") (js "error") request.

Definition addStudent (student : value) : M exn sdk value :=
  executeProgram (program_request "add_student" (VObj [(js "student", student)])).
Definition getStudent (id : jstr) : M exn sdk value :=
  executeProgram (program_request "get_student" (VStr id)).
Definition updateStudent (student : value) : M exn sdk value :=
  executeProgram (program_request "update_student" (VObj [(js "student", student)])).
Definition deleteStudent (id : jstr) : M exn sdk value :=
  executeProgram (program_request "delete_student" (VStr id)).
Definition listStudents : M exn sdk value := executeProgram (program_request "list_students" VNull).

Definition addTeacher (teacher : value) : M exn sdk value :=
  executeProgram (program_request "add_teacher" (VObj [(js "teacher", teacher)])).
Definition getTeacher (id : jstr) : M exn sdk value :=
  executeProgram (program_request "get_teacher" (VStr id)).
Definition updateTeacher (teacher : value) : M exn sdk value :=
  executeProgram (program_request "update_teacher" (VObj [(js "teacher", teacher)])).
Definition deleteTeacher (id : jstr) : M exn sdk value :=
  executeProgram (program_request "delete_teacher" (VStr id)).
Definition listTeachers : M exn sdk value := executeProgram (program_request "list_teachers" VNull).

Definition addCourse (course : value) : M exn sdk value :=
  executeProgram (program_request "add_course" (VObj [(js "course", course)])).
Definition getCourse (id : jstr) : M exn sdk value :=
  executeProgram (program_request "get_course" (VStr id)).
Definition updateCourse (course : value) : M exn sdk value :=
  executeProgram (program_request "update_course" (VObj [(js "course", course)])).
Definition deleteCourse (id : jstr) : M exn sdk value :=
  executeProgram (program_request "delete_course" (VStr id)).
Definition listCourses : M exn sdk value := executeProgram (program_request "list_courses" VNull).

Definition assignGrade (grade : value) : M exn sdk value :=
  executeProgram (program_request "assign_grade" (VObj [(js "grade", grade)])).
Definition getStudentGrades (studentId : jstr) : M exn sdk value :=
  executeProgram (program_request "get_student_grades" (VStr studentId)).
Definition getCourseGrades (courseId : jstr) : M exn sdk value :=
  executeProgram (program_request "get_course_grades" (VStr courseId)).
Definition enrollStudent (studentId courseId : jstr) : M exn sdk value :=
  executeProgram (program_request "enroll_student"
    (VObj [(js "student_id", VStr studentId); (js "course_id", VStr courseId)])).
End Methods.
End School.
