(* ===== verification/SchoolViews.v ===== *)
(** * wasm_programs/school_management/ui: the list views

    components/students-view.tsx, teachers-view.tsx and courses-view.tsx.  The
    three are one component at three entities, so the component is written once
    over a description of the entity (the dialog's inputs, what the add handler
    builds, what is searched, the card) and instantiated three times.  A call of
    the client that is under way is a pending operation; its outcome is an input
    of the step that settles it. *)

From S2P Require Import Prelude JsValue Codec Json Platform SdkErrors SdkTypes Models SdkAuth SdkClient Browser.
From S2P Require Import ProgramCall SchoolClient.

Module Views.
Import Errors.

(** [toLowerCase] is the engine's Unicode case mapping; on ASCII it is the usual one. *)
Definition ascii_lower_unit (c : Z) : Z := if (65 <=? c) && (c <=? 90) then c + 32 else c.

Class CaseMap : Type := {
  toLowerCase : jstr → jstr;
  toLowerCase_ascii : ∀ s, ascii_str s → toLowerCase s = map ascii_lower_unit s;
}.

Abbreviation form := (list (jstr * value)).

(** [formData.k]. *)
Definition field (f : form) (k : string) : value := default VUndef (obj_get (js k) f).

Inductive input_kind : Type := TextInput | NumberInput.

(** What [onChange] stores for the text of an input. *)
Definition input_value (kind : input_kind) (text : jstr) : value :=
  match kind with
  | TextInput => VStr text
  | NumberInput => VNum (match parse_int text with Some z => NInt z | None => NNaN end)
  end.

Section Rendering.
Context `{Engine} `{CaseMap}.

(** A value as the child of an element. *)
Fixpoint child (v : value) : outcome exn jstr :=
  match v with
  | VStr s => Ok s
  | VNum n => Ok (num_to_str n)
  | VUndef | VNull | VBool _ => Ok []
  | VArr l => (fix go l := match l with
                           | [] => Ok []
                           | x :: r => let! a := child x in let! b := go r in Ok (a ++ b)
                           end) l
  | VObj _ => Throw (Error (js "Objects are not valid as a React child"))
  end.

Definition child_of (x : value) (k : string) : outcome exn jstr := let! v := get x (js k) in child v.

(** [v.split(" ").map(n => n[0]).join("")]. *)
Definition initials (v : value) : outcome exn jstr :=
  match v with
  | VStr s => Ok (concat (map (take 1) (split_on 32 s)))
  | _ => type_error (js "split")
  end.

Definition lower (v : value) : outcome exn jstr :=
  match v with
  | VStr s => Ok (toLowerCase s)
  | _ => type_error (js "toLowerCase")
  end.

(** [x.k1.toLowerCase().includes(q) || x.k2.toLowerCase().includes(q)]. *)
Fixpoint found (q : jstr) (keys : list string) (x : value) : outcome exn bool :=
  match keys with
  | [] => Ok false
  | k :: r =>
      let! v := get x (js k) in
      let! s := lower v in
      if includes q s then Ok true else found q r x
  end.

Fixpoint filter_out (p : value → outcome exn bool) (l : list value) : outcome exn (list value) :=
  match l with
  | [] => Ok []
  | x :: r =>
      let! b := p x in
      let! r' := filter_out p r in
      Ok (if b then x :: r' else r')
  end.

(** [items.filter(...)]. *)
Definition js_filter (v : value) (p : value → outcome exn bool) : outcome exn (list value) :=
  match v with
  | VArr l => filter_out p l
  | _ => type_error (js "filter")
  end.
End Rendering.

(** ** The component *)

(** What differs between the three views. *)
Record entity : Type := {
  singular : string;
  plural : string;
  item_type : ty;
  inputs : list (string * input_kind);
  build : form → Z → option value;
  searched : list string;
}.

(** Calls of the client under way: the list, for the first display or after an
    addition, and an addition. *)
Inductive call : Type :=
| ListCall (after_add : bool)
| AddCall (item : value).

Record view : Type := {
  items : value;
  loading : bool;
  searchQuery : jstr;
  isAddDialogOpen : bool;
  formData : form;
  pending : list call;
  logged : list jstr;
}.

Definition set_pending (p : list call) (v : view) : view :=
  {| items := items v; loading := loading v; searchQuery := searchQuery v; isAddDialogOpen := isAddDialogOpen v;
     formData := formData v; pending := p; logged := logged v |}.
Definition set_loading (b : bool) (v : view) : view :=
  {| items := items v; loading := b; searchQuery := searchQuery v; isAddDialogOpen := isAddDialogOpen v;
     formData := formData v; pending := pending v; logged := logged v |}.
Definition set_items (i : value) (v : view) : view :=
  {| items := i; loading := loading v; searchQuery := searchQuery v; isAddDialogOpen := isAddDialogOpen v;
     formData := formData v; pending := pending v; logged := logged v |}.
Definition set_query (q : jstr) (v : view) : view :=
  {| items := items v; loading := loading v; searchQuery := q; isAddDialogOpen := isAddDialogOpen v;
     formData := formData v; pending := pending v; logged := logged v |}.
Definition set_dialog (b : bool) (v : view) : view :=
  {| items := items v; loading := loading v; searchQuery := searchQuery v; isAddDialogOpen := b;
     formData := formData v; pending := pending v; logged := logged v |}.
Definition set_form (f : form) (v : view) : view :=
  {| items := items v; loading := loading v; searchQuery := searchQuery v; isAddDialogOpen := isAddDialogOpen v;
     formData := f; pending := pending v; logged := logged v |}.
Definition log (m : jstr) (v : view) : view :=
  {| items := items v; loading := loading v; searchQuery := searchQuery v; isAddDialogOpen := isAddDialogOpen v;
     formData := formData v; pending := pending v; logged := logged v ++ [m] |}.

Section Component.
Context `{Engine} `{CaseMap} (E : entity).

(** The list is requested: [fetchStudents] up to its [await]. *)
Definition fetchItems (after_add : bool) (v : view) : view :=
  let v := set_loading true v in
  set_pending (pending v ++ [ListCall after_add]) v.

(** First render and effect. *)
Definition mount : view :=
  fetchItems false
    {| items := VArr []; loading := true; searchQuery := []; isAddDialogOpen := false; formData := [];
       pending := []; logged := [] |}.

(** [response.status === "success"]. *)
Definition succeeded (response : value) : outcome exn bool :=
  let! status := get response (js "status") in Ok (is_str (js "success") status).

(** The data of a successful response when it is truthy. *)
Definition answered (r : outcome exn value) : outcome exn (option value) :=
  let! response := r in
  let! ok := succeeded response in
  if ok then let! data := get response (js "data") in Ok (if truthy data then Some data else None)
  else Ok None.

Definition fetchItems_settled (after_add : bool) (r : outcome exn value) (v : view) : view :=
  let v := match answered r with
           | Ok (Some data) => set_items data v
           | Ok None => v
           | Throw _ => log (js "Failed to fetch " ++ js (plural E) ++ js ":") v
           end in
  let v := set_loading false v in
  if after_add then set_form [] (set_dialog false v) else v.

(** The add handler up to its [await]; [now] is [Date.now()]. *)
Definition handleAdd (now : Z) (v : view) : view :=
  match build E (formData v) now with
  | Some item => set_pending (pending v ++ [AddCall item]) v
  | None => v
  end.

Definition handleAdd_settled (r : outcome exn value) (v : view) : view :=
  match (let! response := r in succeeded response) with
  | Ok true => fetchItems true v
  | Ok false => log (js "Failed to add " ++ js (singular E) ++ js ":") v
  | Throw _ => log (js "Failed to add " ++ js (singular E) ++ js ":") v
  end.

(** The outcome of the [k]-th call arrives. *)
Definition settle (k : nat) (r : outcome exn value) (v : view) : view :=
  match pending v !! k with
  | Some (ListCall after_add) => fetchItems_settled after_add r (set_pending (delete k (pending v)) v)
  | Some (AddCall _) => handleAdd_settled r (set_pending (delete k (pending v)) v)
  | None => v
  end.

Definition onChange (k : string) (kind : input_kind) (text : jstr) (v : view) : view :=
  set_form (obj_set (js k) (input_value kind text) (formData v)) v.

(** ** What is rendered *)

Inductive page : Type :=
| LoadingPage (text : jstr)
| ListPage (cards : list (list jstr)) (dialog : option (list (jstr * jstr))).

(** The inputs of the dialog with their values. *)
Definition dialog_fields (f : form) : list (jstr * jstr) :=
  map (λ i, (js i.1, to_string_prim (js_or (field f i.1) (VStr [])))) (inputs E).

Definition render (card : value → outcome exn (list jstr)) (v : view) : outcome exn page :=
  let! shown := js_filter (items v) (found (toLowerCase (searchQuery v)) (searched E)) in
  if loading v then Ok (LoadingPage (js "Loading " ++ js (plural E) ++ js "..."))
  else
    let! cards := traverse card shown in
    Ok (ListPage cards (if isAddDialogOpen v then Some (dialog_fields (formData v)) else None)).

(** ** Events *)

(** The elements react only when they are rendered; [ans] restricts the outcomes
    of the client's calls. *)
Inductive step (ans : call → outcome exn value → Prop) : view → view → Prop :=
| step_search q v : loading v = false → step ans v (set_query q v)
| step_dialog b v : loading v = false → step ans v (set_dialog b v)
| step_input k kind text v :
    loading v = false → isAddDialogOpen v = true → In (k, kind) (inputs E) → step ans v (onChange k kind text v)
| step_add now v : loading v = false → isAddDialogOpen v = true → step ans v (handleAdd now v)
| step_settle k r v : (∀ c, pending v !! k = Some c → ans c r) → step ans v (settle k r v).

Definition reachable (ans : call → outcome exn value → Prop) (v : view) : Prop := rtc (step ans) mount v.
End Component.

(** ** The three views *)

Definition truthy_fields (f : form) (keys : list string) : bool := forallb (λ k, truthy (field f k)) keys.

Definition build_student (f : form) (now : Z) : option value :=
  if truthy_fields f ["name"; "email"]%string then
    Some (VObj [ (js "id", VStr (Z_to_str now)); (js "name", field f "name");
                 (js "grade", js_or (field f "grade") (VStr [])); (js "age", js_or (field f "age") (vint 0));
                 (js "email", field f "email"); (js "subjects", js_or (field f "subjects") (VArr [])) ])
  else None.

Definition students : entity := {|
  singular := "student"; plural := "students"; item_type := School.Student;
  inputs := [("name", TextInput); ("grade", TextInput); ("age", NumberInput); ("email", TextInput)]%string;
  build := build_student; searched := ["name"; "email"]%string |}.

Definition build_teacher (f : form) (now : Z) : option value :=
  if truthy_fields f ["name"; "email"]%string then
    Some (VObj [ (js "id", VStr (Z_to_str now)); (js "name", field f "name");
                 (js "subject", js_or (field f "subject") (VStr [])); (js "email", field f "email");
                 (js "phone", js_or (field f "phone") (VStr [])) ])
  else None.

Definition teachers : entity := {|
  singular := "teacher"; plural := "teachers"; item_type := School.Teacher;
  inputs := [("name", TextInput); ("subject", TextInput); ("email", TextInput); ("phone", TextInput)]%string;
  build := build_teacher; searched := ["name"; "subject"]%string |}.

Definition build_course (f : form) (now : Z) : option value :=
  if truthy_fields f ["name"; "code"]%string then
    Some (VObj [ (js "id", VStr (Z_to_str now)); (js "name", field f "name"); (js "code", field f "code");
                 (js "teacher_id", js_or (field f "teacherId") (VStr []));
                 (js "student_ids", js_or (field f "studentIds") (VArr []));
                 (js "description", js_or (field f "description") (VStr [])) ])
  else None.

(** A course with the members that only the view mentions. *)
Definition CourseRow : ty := TObj [
  mem "id" TStr; mem "name" TStr; mem "code" TStr; mem "teacher_id" TStr; mem "student_ids" (TArr TStr);
  mem "description" TStr; opt "teacherName" TStr; opt "studentIds" (TArr TStr)].

Definition courses : entity := {|
  singular := "course"; plural := "courses"; item_type := CourseRow;
  inputs := [("name", TextInput); ("code", TextInput); ("teacherName", TextInput); ("description", TextInput)]%string;
  build := build_course; searched := ["name"; "code"]%string |}.

Section Cards.
Context `{Engine}.

Definition student_card (x : value) : outcome exn (list jstr) :=
  let! name := get x (js "name") in
  let! mark := initials name in
  let! shown := child name in
  let! grade := child_of x "grade" in
  let! email := child_of x "email" in
  let! age := child_of x "age" in
  let! subjects := get x (js "subjects") in
  let! tags := js_map subjects (λ s, let! t := child s in Ok (VStr t)) in
  Ok ([mark; shown; grade ++ js " Grade"; email; js "Age: " ++ age]
      ++ match tags with VArr l => map to_string_prim l | _ => [] end).

Definition teacher_card (x : value) : outcome exn (list jstr) :=
  let! name := get x (js "name") in
  let! mark := initials name in
  let! shown := child name in
  let! subject := child_of x "subject" in
  let! email := child_of x "email" in
  let! phone := child_of x "phone" in
  Ok [mark; shown; subject; email; phone].

(** [(course.studentIds || []).length]. *)
Definition js_length (v : value) : outcome exn value :=
  match v with
  | VArr l => Ok (vint (Z.of_nat (length l)))
  | VStr s => Ok (vint (Z.of_nat (length s)))
  | VObj _ => get v (js "length")
  | _ => Ok VUndef
  end.

Definition course_card (x : value) : outcome exn (list jstr) :=
  let! name := child_of x "name" in
  let! code := child_of x "code" in
  let! description := child_of x "description" in
  let! teacherName := get x (js "teacherName") in
  let! mark := initials (js_or teacherName (VStr (js "?"))) in
  let! teacher := child teacherName in
  let! studentIds := get x (js "studentIds") in
  let! count := js_length (js_or studentIds (VArr [])) in
  let! n := child count in
  Ok [name; code; description; mark; teacher; n ++ js " students enrolled"].
End Cards.

Section Instances.
Context `{Engine} `{CaseMap}.
Definition handleAddStudent : Z → view → view := handleAdd students.
Definition handleAddTeacher : Z → view → view := handleAdd teachers.
Definition handleAddCourse : Z → view → view := handleAdd courses.
Definition StudentsView : view → outcome exn page := render students student_card.
Definition TeachersView : view → outcome exn page := render teachers teacher_card.
Definition CoursesView : view → outcome exn page := render courses course_card.
End Instances.

(** ** Lemmas *)

Lemma js_inj s t : js s = js t → s = t.
Proof.
  revert t. induction s as [|a s IH]; intros [|b t] Heq; try done. injection Heq as Hab Ht.
  apply N2Z.inj in Hab. f_equal; [|by apply IH].
  by rewrite <- (Ascii.ascii_N_embedding a), <- (Ascii.ascii_N_embedding b), Hab.
Qed.

Lemma elem_of_delete_ne {A} (l : list A) k x y : l !! k = Some y → x ≠ y → x ∈ l → x ∈ delete k l.
Proof.
  intros Hk Hne Hx. rewrite delete_take_drop. rewrite <- (take_drop_middle l k y Hk) in Hx.
  rewrite elem_of_app, elem_of_cons in *. naive_solver.
Qed.

Lemma filter_out_sub `{Engine} p l l' x : filter_out p l = Ok l' → x ∈ l' → x ∈ l.
Proof.
  revert l'. induction l as [|y l IH]; intros l' Hl Hx; simpl in Hl; [by simplify_eq|].
  destruct (p y) as [b|]; [|done]. simpl in Hl. destruct (filter_out p l) as [r|]; [|done]. simpl in Hl.
  injection Hl as <-. destruct b; rewrite ?elem_of_cons in *; naive_solver.
Qed.

Lemma filter_out_total `{Engine} p l :
  (∀ x, x ∈ l → ∃ b, p x = Ok b) → ∃ l', filter_out p l = Ok l'.
Proof.
  induction l as [|x l IH]; intros Hp; [by eexists|]. simpl.
  destruct (Hp x) as [b ->]; [by left|]. destruct IH as [l' ->]; [intros y Hy; apply Hp; by right|]. by eexists.
Qed.

Lemma traverse_total {A B} (f : A → outcome exn B) l :
  (∀ x, x ∈ l → ∃ y, f x = Ok y) → ∃ l', traverse f l = Ok l'.
Proof.
  induction l as [|x l IH]; intros Hf; [by eexists|]. simpl.
  destruct (Hf x) as [y ->]; [by left|]. destruct IH as [l' ->]; [intros z Hz; apply Hf; by right|]. by eexists.
Qed.

Section Invariant.
Context `{Engine} `{CaseMap} (E : entity) (good : value → Prop).

(** Every entry of the form was stored by an input of the dialog. *)
Definition form_ok (f : form) : Prop :=
  ∀ k x, obj_get k f = Some x → ∃ name kind text, k = js name ∧ In (name, kind) (inputs E) ∧ x = input_value kind text.

Definition builds_good : Prop := ∀ f now item, form_ok f → build E f now = Some item → good item.

Definition waiting (v : view) : Prop := loading v = true → ∃ b, ListCall b ∈ pending v.

Definition additions_good (v : view) : Prop := ∀ item, AddCall item ∈ pending v → good item.

Lemma form_ok_set f k kind text : In (k, kind) (inputs E) → form_ok f → form_ok (obj_set (js k) (input_value kind text) f).
Proof.
  intros Hin Hf k' x Hx. destruct (decide (k' = js k)) as [->|Hne].
  - rewrite obj_get_set in Hx. injection Hx as <-. by exists k, kind, text.
  - rewrite obj_get_set_ne in Hx by done. by apply Hf.
Qed.

Lemma field_input f k :
  form_ok f → field f k = VUndef ∨ ∃ kind text, In (k, kind) (inputs E) ∧ field f k = input_value kind text.
Proof.
  intros Hf. unfold field. destruct (obj_get (js k) f) as [x|] eqn:Hx; [|by left]. right.
  destruct (Hf _ _ Hx) as (name & kind & text & Hk & Hin & ->). apply js_inj in Hk as ->. eauto.
Qed.

Definition inv (v : view) : Prop := waiting v ∧ form_ok (formData v) ∧ additions_good v.

Lemma form_ok_nil : form_ok [].
Proof. by intros k x Hx. Qed.

Lemma inv_mount : inv mount.
Proof.
  split; [|split; [apply form_ok_nil|]].
  - intros _. exists false. by apply list_elem_of_singleton.
  - intros item Hin. by apply list_elem_of_singleton in Hin.
Qed.

Lemma inv_fetch b v : form_ok (formData v) → additions_good v → inv (fetchItems b v).
Proof.
  intros Hf Ha. split; [|split; [done|]].
  - intros _. exists b. simpl. rewrite elem_of_app, list_elem_of_singleton. by right.
  - intros item. simpl. rewrite elem_of_app, list_elem_of_singleton. intros [Hin|]; [by apply Ha|done].
Qed.

Lemma additions_delete k v : additions_good v → additions_good (set_pending (delete k (pending v)) v).
Proof.
  intros Ha item Hin. simpl in Hin. apply Ha. rewrite delete_take_drop, elem_of_app in Hin.
  destruct Hin as [Hin|Hin]; [by apply elem_of_take in Hin as (? & ? & _); apply list_elem_of_lookup_2 in H1|].
  apply list_elem_of_lookup in Hin as [i Hi]. rewrite lookup_drop in Hi. by apply list_elem_of_lookup_2 in Hi.
Qed.

Lemma inv_settle k r v : inv v → inv (settle E k r v).
Proof.
  intros (Hw & Hf & Ha). unfold settle. destruct (pending v !! k) as [[b|item]|] eqn:Hk; [| |done].
  - unfold fetchItems_settled. apply (additions_delete k) in Ha.
    destruct (answered r) as [[d|]|e], b; (split; [done|split; [first [apply form_ok_nil | done]|done]]).
  - apply (additions_delete k) in Ha. unfold handleAdd_settled.
    destruct (let! response := r in succeeded response) as [[|]|e]; [by apply inv_fetch|..].
    all: split; [|by split]; intros Hl; destruct (Hw Hl) as [b Hb]; exists b; simpl;
      by apply (elem_of_delete_ne _ k _ (AddCall item)).
Qed.

Lemma inv_step ans v v' : builds_good → step E ans v v' → inv v → inv v'.
Proof.
  intros Hgood Hs Hv. destruct Hs as [q v Hl|b v Hl|k kind text v Hl Hd Hin|now v Hl Hd|k r v Hans];
    [..|by apply inv_settle]; destruct Hv as (Hw & Hf & Ha).
  - by split.
  - by split.
  - split; [done|split; [by apply form_ok_set|done]].
  - unfold handleAdd. destruct (build E (formData v) now) as [item|] eqn:Hb; [|by split].
    split; [|split; [done|]].
    + intros Hl'. simpl in Hl'. congruence.
    + intros item'. simpl. rewrite elem_of_app, list_elem_of_singleton. intros [Hin|[= ->]]; [by apply Ha|].
      by apply (Hgood (formData v) now).
Qed.

Lemma inv_reachable ans v : builds_good → reachable E ans v → inv v.
Proof.
  intros Hgood. unfold reachable.
  assert (∀ a b, rtc (step E ans) a b → inv a → inv b) as Hpres.
  { induction 1 as [|a b c Hab _ IH]; [done|]. intros Ha. apply IH. by apply (inv_step ans a). }
  intros Hr. apply (Hpres _ _ Hr), inv_mount.
Qed.

Lemma text_field f k :
  form_ok f → (∀ kind, In (k, kind) (inputs E) → kind = TextInput) → field f k = VUndef ∨ ∃ t, field f k = VStr t.
Proof.
  intros Hf Hk. destruct (field_input f k Hf) as [|(kind & text & Hin & ->)]; [by left|].
  rewrite (Hk _ Hin). right. by eexists.
Qed.

Lemma number_field f k :
  form_ok f → (∀ kind, In (k, kind) (inputs E) → kind = NumberInput) → field f k = VUndef ∨ ∃ n, field f k = VNum n.
Proof.
  intros Hf Hk. destruct (field_input f k Hf) as [|(kind & text & Hin & ->)]; [by left|].
  rewrite (Hk _ Hin). right. by eexists.
Qed.

Lemma no_field f k : form_ok f → (∀ kind, ¬ In (k, kind) (inputs E)) → field f k = VUndef.
Proof. intros Hf Hk. destruct (field_input f k Hf) as [|(kind & text & Hin & _)]; [done|]. by destruct (Hk kind). Qed.
End Invariant.

(** The kinds of a concrete input list. *)
Ltac input_kinds :=
  let kind := fresh in let Hin := fresh in
  intros kind Hin; simpl in Hin; repeat destruct Hin as [Hin|Hin]; try done; congruence.

Lemma js_or_text v : v = VUndef ∨ (∃ t, v = VStr t) → ∃ t, js_or v (VStr []) = VStr t.
Proof. intros [->|[t ->]]; [by exists []|]. unfold js_or. destruct (truthy (VStr t)); by eexists. Qed.

Lemma js_or_number v : v = VUndef ∨ (∃ n, v = VNum n) → ∃ n, js_or v (vint 0) = VNum n.
Proof. intros [->|[n ->]]; [by exists (NInt 0)|]. unfold js_or. destruct (truthy (VNum n)); by eexists. Qed.

Lemma truthy_text v : truthy v = true → v = VUndef ∨ (∃ t, v = VStr t) → ∃ t, v = VStr t.
Proof. by intros Ht [->|?]. Qed.

Lemma build_student_typed : builds_good students (λ x, conforms School.Student x = true).
Proof.
  intros f now item Hf Hb. cbn [build students] in Hb. unfold build_student in Hb.
  destruct (truthy_fields f _) eqn:Ht; [|done]. injection Hb as <-. apply andb_prop in Ht as [Hn Ht].
  apply andb_prop in Ht as [He _].
  destruct (truthy_text _ Hn) as [n ->]; [apply (text_field students); [done|input_kinds]|].
  destruct (truthy_text _ He) as [e ->]; [apply (text_field students); [done|input_kinds]|].
  destruct (js_or_text (field f "grade")) as [g ->]; [apply (text_field students); [done|input_kinds]|].
  destruct (js_or_number (field f "age")) as [a ->]; [apply (number_field students); [done|input_kinds]|].
  rewrite (no_field students f "subjects") by (done || input_kinds). reflexivity.
Qed.

Lemma build_teacher_typed : builds_good teachers (λ x, conforms School.Teacher x = true).
Proof.
  intros f now item Hf Hb. cbn [build teachers] in Hb. unfold build_teacher in Hb.
  destruct (truthy_fields f _) eqn:Ht; [|done]. injection Hb as <-. apply andb_prop in Ht as [Hn Ht].
  apply andb_prop in Ht as [He _].
  destruct (truthy_text _ Hn) as [n ->]; [apply (text_field teachers); [done|input_kinds]|].
  destruct (truthy_text _ He) as [e ->]; [apply (text_field teachers); [done|input_kinds]|].
  destruct (js_or_text (field f "subject")) as [g ->]; [apply (text_field teachers); [done|input_kinds]|].
  destruct (js_or_text (field f "phone")) as [a ->]; [apply (text_field teachers); [done|input_kinds]|].
  reflexivity.
Qed.

(** What the course dialog can build. *)
Definition plain_course (x : value) : Prop :=
  ∃ id name code description, x = VObj [
    (js "id", VStr id); (js "name", VStr name); (js "code", VStr code); (js "teacher_id", VStr []);
    (js "student_ids", VArr []); (js "description", VStr description)].

Lemma build_course_plain : builds_good courses plain_course.
Proof.
  intros f now item Hf Hb. cbn [build courses] in Hb. unfold build_course in Hb.
  destruct (truthy_fields f _) eqn:Ht; [|done]. injection Hb as <-. apply andb_prop in Ht as [Hn Ht].
  apply andb_prop in Ht as [Hc _].
  destruct (truthy_text _ Hn) as [n ->]; [apply (text_field courses); [done|input_kinds]|].
  destruct (truthy_text _ Hc) as [c ->]; [apply (text_field courses); [done|input_kinds]|].
  destruct (js_or_text (field f "description")) as [d ->]; [apply (text_field courses); [done|input_kinds]|].
  rewrite (no_field courses f "teacherId") by (done || input_kinds).
  rewrite (no_field courses f "studentIds") by (done || input_kinds). by exists (Z_to_str now), n, c, d.
Qed.

Lemma build_course_typed : builds_good courses (λ x, conforms CourseRow x = true).
Proof. intros f now item Hf Hb. by destruct (build_course_plain f now item Hf Hb) as (? & ? & ? & ? & ->). Qed.

(** ** Rendering of typed lists *)

(** The client's answers when the program keeps to the declared types. *)
Definition typed_answers `{Engine} (E : entity) (c : call) (r : outcome exn value) : Prop :=
  match c with
  | ListCall _ => ∀ data, answered r = Ok (Some data) → conforms (TArr (item_type E)) data = true
  | AddCall _ => True
  end.

(** What holds of the empty list and of every list that was answered holds of the items. *)
Lemma items_from `{Engine} `{CaseMap} E ans (good : value → Prop) v :
  good (VArr []) → (∀ b r data, ans (ListCall b) r → answered r = Ok (Some data) → good data) → reachable E ans v → good (items v).
Proof.
  intros Hnil Hans Hr. unfold reachable in Hr.
  assert (∀ a b, rtc (step E ans) a b → good (items a) → good (items b)) as Hpres; [|by apply (Hpres _ _ Hr)].
  intros a b. induction 1 as [|a b c Hs _ IH]; [done|]. intros Ha. apply IH. clear IH. destruct Hs as [| | |now a Hl Hd|k r a Hk]; try done.
  - unfold handleAdd. by destruct (build E _ _).
  - unfold settle. destruct (pending a !! k) as [[b|item]|] eqn:E'; [| |done].
    + specialize (Hk _ eq_refl). unfold fetchItems_settled. destruct (answered r) as [[d|]|e] eqn:Hd, b; try done; by eapply Hans.
    + unfold handleAdd_settled. by destruct (let! response := r in succeeded response) as [[|]|e].
Qed.

Section Typed.
Context `{Engine} `{CaseMap} (E : entity) (card : value → outcome exn (list jstr)).

Definition items_typed (v : view) : Prop := conforms (TArr (item_type E)) (items v) = true.

Lemma items_reachable v : reachable E (typed_answers E) v → items_typed v.
Proof. apply (items_from E (typed_answers E) (λ x, conforms (TArr (item_type E)) x = true)); [done|]. intros b r data Hr. apply Hr. Qed.

(** Searched members are mandatory strings and the card shows every typed item. *)
Definition searchable : Prop := ∀ x k, conforms (item_type E) x = true → In k (searched E) → ∃ t, get x (js k) = Ok (VStr t).
Definition displayable : Prop := ∀ x, conforms (item_type E) x = true → ∃ c, card x = Ok c.

Lemma found_total q x : searchable → conforms (item_type E) x = true → ∃ b, found q (searched E) x = Ok b.
Proof.
  intros Hs Hx. unfold searchable in Hs. induction (searched E) as [|k l IH]; [by eexists|]. simpl.
  destruct (Hs x k Hx) as [t ->]; [by left|]. simpl. destruct (includes _ _); [by eexists|].
  apply IH. intros y k' Hy Hk'. apply Hs; [done|by right].
Qed.

Lemma render_total v : searchable → displayable → items_typed v → ∃ p, render E card v = Ok p.
Proof.
  unfold items_typed, render. intros Hs Hd Hv. destruct (items v) as [| | | | |l|]; try done. cbn [conforms] in Hv.
  rewrite forallb_forall in Hv. simpl.
  destruct (filter_out_total (found (toLowerCase (searchQuery v)) (searched E)) l) as [l' Hl'].
  { intros x Hx. apply found_total; [done|]. by apply Hv, list_elem_of_In. }
  rewrite Hl'. simpl. destruct (loading v); [by eexists|].
  destruct (traverse_total card l') as [cs ->]; [|by eexists].
  intros x Hx. apply Hd, Hv, list_elem_of_In. by apply (filter_out_sub _ _ _ _ Hl').
Qed.
End Typed.

(** A mandatory string or number member of a typed object. *)
Lemma get_string `{Engine} ms x k : conforms (TObj ms) x = true → In (js k, (false, TStr)) ms → ∃ t, get x (js k) = Ok (VStr t).
Proof.
  intros Hx Hin. destruct (conforms_get ms x (js k) false TStr Hx Hin) as (y & -> & Hy).
  destruct y; try done. by eexists.
Qed.

Lemma get_number `{Engine} ms x k : conforms (TObj ms) x = true → In (js k, (false, TNum)) ms → ∃ n, get x (js k) = Ok (VNum n).
Proof.
  intros Hx Hin. destruct (conforms_get ms x (js k) false TNum Hx Hin) as (y & -> & Hy).
  destruct y; try done. by eexists.
Qed.

Ltac in_members := simpl; repeat first [by left | right].

Lemma student_card_total `{Engine} : displayable students student_card.
Proof.
  intros x Hx. change (conforms School.Student x = true) in Hx. unfold student_card, child_of.
  destruct (get_string _ x "name" Hx ltac:(in_members)) as [n ->].
  destruct (get_string _ x "grade" Hx ltac:(in_members)) as [g ->].
  destruct (get_string _ x "email" Hx ltac:(in_members)) as [e ->].
  destruct (get_number _ x "age" Hx ltac:(in_members)) as [a ->].
  destruct (conforms_get _ x (js "subjects") false (TArr TStr) Hx ltac:(in_members)) as (ss & -> & Hss).
  cbn [outcome_bind initials child].
  destruct (js_map_conforms (λ s, let! t := child s in Ok (VStr t)) TStr TStr ss) as (w & -> & _).
  - intros y Hy. destruct y; try done. by eexists.
  - by destruct ss.
  - by eexists.
Qed.

Lemma teacher_card_total `{Engine} : displayable teachers teacher_card.
Proof.
  intros x Hx. change (conforms School.Teacher x = true) in Hx. unfold teacher_card, child_of.
  destruct (get_string _ x "name" Hx ltac:(in_members)) as [n ->].
  destruct (get_string _ x "subject" Hx ltac:(in_members)) as [g ->].
  destruct (get_string _ x "email" Hx ltac:(in_members)) as [e ->].
  destruct (get_string _ x "phone" Hx ltac:(in_members)) as [a ->]. by eexists.
Qed.

Lemma any_course_card `{Engine} ms x :
  conforms (TObj ms) x = true → (∀ k, In k ["name"; "code"; "description"]%string → In (js k, (false, TStr)) ms) →
  In (js "teacherName", (true, TStr)) ms → In (js "studentIds", (true, TArr TStr)) ms → ∃ c, course_card x = Ok c.
Proof.
  intros Hx Htexts Hteacher Hids. unfold course_card, child_of.
  destruct (get_string _ x "name" Hx ltac:(apply Htexts; in_members)) as [n ->].
  destruct (get_string _ x "code" Hx ltac:(apply Htexts; in_members)) as [c ->].
  destruct (get_string _ x "description" Hx ltac:(apply Htexts; in_members)) as [d ->].
  destruct (conforms_get _ x (js "teacherName") true TStr Hx Hteacher) as (t & -> & Ht).
  destruct (conforms_get _ x (js "studentIds") true (TArr TStr) Hx Hids) as (ids & -> & Hi).
  cbn [outcome_bind child].
  assert (∃ u, js_or t (VStr (js "?")) = VStr u ∧ ∃ w, child t = Ok w) as (u & -> & w & Hw).
  { destruct t as [| | | |t| |]; try done; [by eexists; split; [|by eexists]|].
    unfold js_or. destruct (truthy _); eexists; (split; [done|by eexists]). }
  cbn [outcome_bind initials]. rewrite Hw. cbn [outcome_bind].
  destruct ids as [| | | | |l|]; try done; by eexists.
Qed.

Lemma course_card_total `{Engine} : displayable courses course_card.
Proof.
  intros x Hx. apply (any_course_card _ x Hx); [|in_members..]. intros k [<-|[<-|[<-|[]]]]; in_members.
Qed.

Definition all_views `{Engine} : list (entity * (value → outcome exn (list jstr))) :=
  [(students, student_card); (teachers, teacher_card); (courses, course_card)].

Lemma all_views_ok `{Engine} E card :
  In (E, card) all_views →
  builds_good E (λ x, conforms (item_type E) x = true) ∧ searchable E ∧ displayable E card.
Proof.
  intros [[= <- <-]|[[= <- <-]|[[= <- <-]|[]]]].
  - split; [apply build_student_typed|]. split; [|apply student_card_total].
    intros x k Hx [<-|[<-|[]]]; apply (get_string _ _ _ Hx); in_members.
  - split; [apply build_teacher_typed|]. split; [|apply teacher_card_total].
    intros x k Hx [<-|[<-|[]]]; apply (get_string _ _ _ Hx); in_members.
  - split; [apply build_course_typed|]. split; [|apply course_card_total].
    intros x k Hx [<-|[<-|[]]]; apply (get_string _ _ _ Hx); in_members.
Qed.

(** The students, teachers and courses views, in every state they can reach
    while the program's lists have the declared types: the page renders without
    an exception, the loading page only shows while a list is being fetched, and
    whatever is being added has the declared type. *)
Theorem list_views_safe `{Engine} `{CaseMap} (E : entity) card (v : view) :
  In (E, card) all_views → reachable E (typed_answers E) v →
  (∃ p, render E card v = Ok p) ∧
  (loading v = true → ∃ b, ListCall b ∈ pending v) ∧
  (∀ item, AddCall item ∈ pending v → conforms (item_type E) item = true).
Proof.
  intros (Hb & Hs & Hd)%all_views_ok Hr.
  destruct (inv_reachable E (λ x, conforms (item_type E) x = true) (typed_answers E) v Hb Hr) as (Hw & _ & Ha).
  split; [|by split]. apply render_total; [done..|]. by apply items_reachable.
Qed.

(** The course dialog asks for a teacher that the request drops: every course it
    sends has an empty teacher and no students; and a course of the declared type
    is displayed without teacher and with zero students, however many it has. *)
Theorem course_teacher_dropped `{Engine} `{CaseMap} :
  (∀ ans v item, reachable courses ans v → AddCall item ∈ pending v →
    get item (js "teacher_id") = Ok (VStr []) ∧ get item (js "student_ids") = Ok (VArr [])) ∧
  (∀ id name code teacher students description,
    course_card (VObj [ (js "id", VStr id); (js "name", VStr name); (js "code", VStr code);
                        (js "teacher_id", VStr teacher); (js "student_ids", VArr students);
                        (js "description", VStr description) ])
    = Ok [name; code; description; js "?"; []; js "0 students enrolled"]).
Proof.
  split; [|done]. intros ans v item Hr Hin.
  destruct (inv_reachable courses plain_course ans v build_course_plain Hr) as (_ & _ & Ha).
  by destruct (Ha item Hin) as (? & ? & ? & ? & ->).
Qed.

Definition ascii_case : CaseMap := {| toLowerCase := map ascii_lower_unit; toLowerCase_ascii := λ s _, eq_refl |}.

Lemma list_views_safe_witness :
  ∃ p, @render Models.engine ascii_case students (@student_card Models.engine) mount = Ok p.
Proof.
  apply (@list_views_safe Models.engine ascii_case students student_card mount); [by left|apply rtc_refl].
Defined.

End Views.
