(* ===== verification/SchoolWire.v ===== *)
(** * Between the school client and the school program

    The JSON of the school program's responses, what it reads of the requests of
    wasm_programs/school_management/ui, that records travel unchanged, and that the
    pages are safe with the program's own answers. *)

From S2P Require Import Prelude JsValue Codec Json RustLib SerdeWire GoLib WasmHost SchoolProgram SchoolStore SchoolRules.
From S2P Require Import Platform SdkErrors Browser NbookClient ProgramCall SchoolClient SchoolViews.

Module SchoolWire.
Import Rust Go Derive Host Office SchoolStore SchoolRules.

(** ** Responses *)

(** A nil slice is [null]. *)
Definition slice_json (o : option (list rstr)) : value := match o with Some l => strs_json l | None => VNull end.
Definition list_json {A} (f : A → value) (l : list A) : value := match l with [] => VNull | _ => VArr (map f l) end.

Definition Student_json (x : Student) : value :=
  VObj [(js "id", str_json (student_ID x)); (js "name", str_json (student_Name x)); (js "grade", str_json (student_Grade x));
        (js "age", vint (student_Age x)); (js "email", str_json (student_Email x)); (js "subjects", slice_json (student_Subjects x))].

Definition Teacher_json (x : Teacher) : value :=
  VObj [(js "id", str_json (teacher_ID x)); (js "name", str_json (teacher_Name x)); (js "subject", str_json (teacher_Subject x));
        (js "email", str_json (teacher_Email x)); (js "phone", str_json (teacher_Phone x))].

Definition Course_json (x : Course) : value :=
  VObj [(js "id", str_json (course_ID x)); (js "name", str_json (course_Name x)); (js "code", str_json (course_Code x));
        (js "teacher_id", str_json (course_TeacherID x)); (js "student_ids", slice_json (course_StudentIDs x));
        (js "description", str_json (course_Description x))].

Definition Grade_json (x : Grade) : value :=
  VObj [(js "id", str_json (grade_ID x)); (js "student_id", str_json (grade_StudentID x)); (js "course_id", str_json (grade_CourseID x));
        (js "score", vint (grade_Score x)); (js "date", str_json (grade_Date x))].

(** The loops append to a nil slice: an empty list is [null]. *)
Definition Payload_json (p : Payload) : value :=
  match p with
  | AStudent x => Student_json x | Students l => list_json Student_json l
  | ATeacher x => Teacher_json x | Teachers l => list_json Teacher_json l
  | ACourse x => Course_json x | Courses l => list_json Course_json l
  | AGrade x => Grade_json x | Grades l => list_json Grade_json l
  end.

(** With the members that are left out when they are empty. *)
Definition Response_json (r : Response) : value :=
  let text (k : string) (s : rstr) := if is_empty s then [] else [(js k, str_json s)] in
  VObj ((js "status", str_json (Status r)) :: text "message"%string (Message r)
        ++ match Data r with Some p => [(js "data", Payload_json p)] | None => [] end ++ text "error"%string (Error r)).

(** ** Requests *)

(** The operation and the data of a request; the data are any value. *)
Definition Request_of_json (fs : list (jstr * value)) : option (rstr * value) :=
  op ← decode_string (member (js "operation") fs); Some (op, member (js "data") fs).

(** ** The entry point *)

(** [encoding/json] on the two types: the text of an object is read as the request of its
    members, and what is written for a response is read as its form by a JSON parser. *)
Class GoWire `{Engine} : Type := {
  from_input : bytes → outcome rstr (rstr * value);
  to_output : Response → bytes;
  from_input_object : ∀ fs req, json_data (VObj fs) → Request_of_json fs = Some req → from_input (utf8_encode (json_text (VObj fs))) = Ok req;
  to_output_parsed : ∀ r, json_data (Response_json r) → byte_list (to_output r) ∧ json_parse (utf8_decode (to_output r)) = Ok (Response_json r);
}.

Section Entry.
Context `{GoWire} `{NodeHost} `{GoErrors} `{!GoJson Student student_ok} `{!GoJson Teacher teacher_ok} `{!GoJson Course course_ok}
  `{!GoJson Grade grade_ok}.

(** The answer, which is also [outBuf] afterwards; [None] after a panic. *)
Definition onvm_main (input : bytes) (c : ExecutionContext) : option bytes * ExecutionContext :=
  let '(response, c') :=
    match from_input input with
    | Ok (op, data) => execute op data c
    | Throw e => (Some (error_response (js "Invalid JSON: " ++ e)), c)
    end in
  (to_output <$> response, c').

Definition onvm_last_result (outBuf : bytes) : bytes := outBuf.

Lemma request_read (op : string) data :
  ascii_str (js op) → Request_of_json [(js "operation", VStr (js op)); (js "data", data)] = Some (js op, data).
Proof.
  intros Ho. unfold Request_of_json.
  change (member (js "operation") [(js "operation", VStr (js op)); (js "data", data)]) with (VStr (js op)).
  change (member (js "data") [(js "operation", VStr (js op)); (js "data", data)]) with data.
  cbn [decode_string mbind option_bind]. by rewrite utf8_encode_ascii.
Qed.

(** C40 A call of the client, through the program and back: the program reads the operation
    and the data that were meant, and the caller gets the program's response, or an error
    with the program's message. *)
Theorem school_call_end_to_end (op : string) (data : value) (c c' : ExecutionContext) (r : Response) :
  ascii_str (js op) → json_data (School.program_request op data) → json_data (Response_json r) →
  execute (js op) data c = (Some r, c') → Status r = js "error" ∨ Status r = js "success" →
  ∃ out, onvm_main (b64_decode (ProgramCall.encode_input (School.program_request op data))) c = (Some out, c') ∧
    ∀ reply, get reply (js "return_base64") = Ok (VStr (b64_encode out)) →
      ProgramCall.read_answer (js "error") (js "error") reply =
        if bool_decide (Status r = js "error")
        then Throw (Browser.Error_of (js_or (if is_empty (Error r) then VUndef else str_json (Error r)) (VStr (js "Unknown error occurred"))))
        else Ok (Response_json r).
Proof.
  intros Ho Hq Hd He Hst. exists (to_output r). unfold onvm_main, ProgramCall.encode_input. rewrite b64_decode_encode by by apply json_text_bytes.
  unfold School.program_request in *. rewrite (from_input_object _ (js op, data)); [|done|by apply request_read]. rewrite He.
  split; [done|]. intros reply Hrep. destruct (to_output_parsed r Hd) as [Hb Hp].
  unfold ProgramCall.read_answer. rewrite Hrep. cbn [outcome_bind ProgramCall.Buffer_from_base64]. rewrite b64_decode_encode, Hp by done.
  cbn [outcome_bind]. destruct r as [st m d e]. cbn [Status Error] in *.
  destruct Hst as [->| ->]; [rewrite bool_decide_true by done|rewrite bool_decide_false by done; done].
  destruct e, d, m; reflexivity.
Qed.
End Entry.

(** ** Records travel unchanged *)

Definition text (s : jstr) : Prop := text_ok s ∧ unit_str s.

Lemma text_back s : text s → str_json (utf8_encode s) = VStr s.
Proof. intros [Hw Hu]. unfold str_json. rewrite utf8_decode_encode by done. unfold text_ok in Hw. by rewrite Hw. Qed.

Lemma texts_back l : Forall text l → strs_json (map utf8_encode l) = VArr (map VStr l).
Proof. intros Hl. unfold strs_json. f_equal. induction Hl as [|s l Hs _ IH]; [done|]. cbn [map]. by rewrite text_back, IH. Qed.

Lemma decode_texts l : decode_strings (VArr (map VStr l)) = Some (Some (map utf8_encode l)).
Proof.
  cbn [decode_strings]. assert (mapM decode_string (map VStr l) = Some (map utf8_encode l)) as ->; [|done].
  apply mapM_Some. induction l; by constructor.
Qed.

Lemma decode_int_ok z : - 2 ^ 31 ≤ z < 2 ^ 31 → decode_int (vint z) = Some z.
Proof. intros [K1 K2]. cbn -[Z.pow]. by rewrite (proj2 (Z.leb_le _ z) K1), (proj2 (Z.ltb_lt z _) K2). Qed.

(** A value of the client that the program reads as [x] and writes back as it was. *)
Record travels (T : Type) `{Entity T} `{Slices T} (v : value) (x : T) : Prop := {
  travel_read : sent T (VObj [(js kind, v)]) = Some x;
  travel_written : Payload_json (one x) = v;
  travel_whole : whole x;
  travel_tree : tree v;
}.

(** Reads the members of an object literal. *)
Ltac read_members :=
  cbn [member map];
  repeat match goal with |- context [str_eqb ?a ?b] => let c := eval vm_compute in (str_eqb a b) in change (str_eqb a b) with c; cbv iota end.

Lemma text_tree s : text s → tree (VStr s).
Proof. intros [_ Hu]. by constructor. Qed.
Lemma texts_tree l : Forall text l → tree (VArr (map VStr l)).
Proof. intros Hl. constructor. induction Hl; constructor; [by apply text_tree|done]. Qed.

Definition student_value (id name grade : jstr) (age : Z) (email : jstr) (subjects : list jstr) : value :=
  VObj [(js "id", VStr id); (js "name", VStr name); (js "grade", VStr grade); (js "age", vint age); (js "email", VStr email);
        (js "subjects", VArr (map VStr subjects))].

Lemma student_travels id name grade age email subjects :
  Forall text ([id; name; grade; email] ++ subjects) → - 2 ^ 31 ≤ age < 2 ^ 31 →
  ∃ x, travels Student (student_value id name grade age email subjects) x ∧ student_ID x = utf8_encode id.
Proof.
  cbn [app]. rewrite !Forall_cons. intros (Hi & Hn & Hg & He & Hs) Ha.
  exists {| student_ID := utf8_encode id; student_Name := utf8_encode name; student_Grade := utf8_encode grade; student_Age := age;
            student_Email := utf8_encode email; student_Subjects := Some (map utf8_encode subjects) |}.
  split; [|done]. split; [| |by eexists|].
  - change (Student_fields [(js "id", VStr id); (js "name", VStr name); (js "grade", VStr grade); (js "age", vint age); (js "email", VStr email);
      (js "subjects", VArr (map VStr subjects))] = Some
      {| student_ID := utf8_encode id; student_Name := utf8_encode name; student_Grade := utf8_encode grade; student_Age := age;
         student_Email := utf8_encode email; student_Subjects := Some (map utf8_encode subjects) |}).
    unfold Student_fields. read_members. by rewrite decode_int_ok, decode_texts.
  - cbn [one entity_Student Payload_json]. unfold Student_json.
    cbn [student_ID student_Name student_Grade student_Age student_Email student_Subjects slice_json].
    by rewrite !text_back, texts_back.
  - constructor. repeat (constructor; [first [by apply text_tree | by constructor | by apply texts_tree]|]). constructor.
Qed.

Definition teacher_value (id name subject email phone : jstr) : value :=
  VObj [(js "id", VStr id); (js "name", VStr name); (js "subject", VStr subject); (js "email", VStr email); (js "phone", VStr phone)].

Lemma teacher_travels id name subject email phone :
  Forall text [id; name; subject; email; phone] →
  ∃ x, travels Teacher (teacher_value id name subject email phone) x ∧ teacher_ID x = utf8_encode id.
Proof.
  rewrite !Forall_cons. intros (Hi & Hn & Hs & He & Hp & _).
  exists {| teacher_ID := utf8_encode id; teacher_Name := utf8_encode name; teacher_Subject := utf8_encode subject;
            teacher_Email := utf8_encode email; teacher_Phone := utf8_encode phone |}.
  split; [|done]. split; [|  |done|].
  - reflexivity.
  - cbn [one entity_Teacher Payload_json]. unfold Teacher_json.
    cbn [teacher_ID teacher_Name teacher_Subject teacher_Email teacher_Phone]. by rewrite !text_back.
  - constructor. repeat (constructor; [by apply text_tree|]). constructor.
Qed.

Definition course_value (id name code teacher_id : jstr) (student_ids : list jstr) (description : jstr) : value :=
  VObj [(js "id", VStr id); (js "name", VStr name); (js "code", VStr code); (js "teacher_id", VStr teacher_id);
        (js "student_ids", VArr (map VStr student_ids)); (js "description", VStr description)].

Lemma course_travels id name code teacher_id student_ids description :
  Forall text ([id; name; code; teacher_id; description] ++ student_ids) →
  ∃ x, travels Course (course_value id name code teacher_id student_ids description) x ∧ course_ID x = utf8_encode id.
Proof.
  cbn [app]. rewrite !Forall_cons. intros (Hi & Hn & Hc & Ht & Hd & Hs).
  exists {| course_ID := utf8_encode id; course_Name := utf8_encode name; course_Code := utf8_encode code;
            course_TeacherID := utf8_encode teacher_id; course_StudentIDs := Some (map utf8_encode student_ids);
            course_Description := utf8_encode description |}.
  split; [|done]. split; [| |by eexists|].
  - change (Course_fields [(js "id", VStr id); (js "name", VStr name); (js "code", VStr code); (js "teacher_id", VStr teacher_id);
        (js "student_ids", VArr (map VStr student_ids)); (js "description", VStr description)] = Some
      {| course_ID := utf8_encode id; course_Name := utf8_encode name; course_Code := utf8_encode code;
         course_TeacherID := utf8_encode teacher_id; course_StudentIDs := Some (map utf8_encode student_ids);
         course_Description := utf8_encode description |}).
    unfold Course_fields. read_members. by rewrite decode_texts.
  - cbn [one entity_Course Payload_json]. unfold Course_json.
    cbn [course_ID course_Name course_Code course_TeacherID course_StudentIDs course_Description slice_json].
    by rewrite !text_back, texts_back.
  - constructor. repeat (constructor; [first [by apply text_tree | by apply texts_tree]|]). constructor.
Qed.

(** The response that has only data. *)
Definition data_response (v : value) : value := VObj [(js "status", VStr (js "success")); (js "data", v)].

Section Program.
Context `{NodeHost} `{GoErrors} `{!GoJson Student student_ok} `{!GoJson Teacher teacher_ok} `{!GoJson Course course_ok}
  `{!GoJson Grade grade_ok}.

(** What the client receives for a request after a history; [None] when the node
    reports a trap. *)
Definition answered_with (reqs : list (rstr * value)) (op : string) (data : value) : option value :=
  Response_json <$> (execute (js op) data (after reqs)).1.

Lemma wrap_tree k v : tree v → tree (VObj [(k, v)]).
Proof. intros Hv. constructor. by constructor. Qed.

Lemma record_comes_back (T : Type) `{Entity T} `{Slices T} ops get_op reqs op v x id :
  stores T ops get_op → In op ops → history_ok reqs → travels T v x → unit_str id → ent_id x = utf8_encode id →
  answered_with (reqs ++ [(js op, VObj [(js kind, v)])]) get_op (VStr id) = Some (data_response v).
Proof.
  intros Hst Hop Hr [Hread Hw _ Ht] Hid Hx. unfold answered_with.
  destruct (Hst reqs op (VObj [(js kind, v)]) x Hr (wrap_tree _ v Ht) Hop Hread) as [_ Hget].
  rewrite (Hget id Hid), decide_True by done. unfold data_response. rewrite <- Hw. done.
Qed.

(** A student, teacher or course that the client adds or updates is read by the program
    and comes back, in the answer to a later request for it, as exactly the object that
    was sent, with any characters, where the age has 32 bits. *)
Theorem school_records_travel (reqs : list (rstr * value)) (id a b c : jstr) (n : Z) (l : list jstr) :
  history_ok reqs → Forall text ([id; a; b; c] ++ l) → - 2 ^ 31 ≤ n < 2 ^ 31 →
  let student := student_value id a b n c l in
  let teacher := teacher_value id a b c a in
  let course := course_value id a b c l a in
  (∀ op, In op ["add_student"; "update_student"]%string →
    answered_with (reqs ++ [(js op, VObj [(js "student", student)])]) "get_student" (VStr id) = Some (data_response student)) ∧
  (∀ op, In op ["add_teacher"; "update_teacher"]%string →
    answered_with (reqs ++ [(js op, VObj [(js "teacher", teacher)])]) "get_teacher" (VStr id) = Some (data_response teacher)) ∧
  (∀ op, In op ["add_course"; "update_course"]%string →
    answered_with (reqs ++ [(js op, VObj [(js "course", course)])]) "get_course" (VStr id) = Some (data_response course)).
Proof.
  cbn [app]. rewrite !Forall_cons. intros Hr (Hi & Ha & Hb & Hc & Hl) Hn. split; [|split]; intros op Hop.
  - destruct (student_travels id a b n c l) as (x & Hx & Hid); [by repeat (constructor; [done|])|done|].
    exact (record_comes_back Student _ "get_student" reqs op _ x id stores_Student Hop Hr Hx (proj2 Hi) Hid).
  - destruct (teacher_travels id a b c a) as (x & Hx & Hid); [by repeat (constructor; [done|])|].
    exact (record_comes_back Teacher _ "get_teacher" reqs op _ x id stores_Teacher Hop Hr Hx (proj2 Hi) Hid).
  - destruct (course_travels id a b c l a) as (x & Hx & Hid); [by repeat (constructor; [done|])|].
    exact (record_comes_back Course _ "get_course" reqs op _ x id stores_Course Hop Hr Hx (proj2 Hi) Hid).
Qed.

(** ** The pages with the program's answers *)

Lemma student_conforms x : whole x → conforms School.Student (Student_json x) = true.
Proof.
  intros [l Hl]. destruct x as [i n g a e o]. cbn in Hl. subst o.
  Nbook.build_object_with ltac:(first [reflexivity | apply strs_conform]).
Qed.

Lemma course_conforms x : whole x → conforms Views.CourseRow (Course_json x) = true.
Proof.
  intros [l Hl]. destruct x as [i n c t o d]. cbn in Hl. subst o.
  Nbook.build_object_with ltac:(first [reflexivity | apply strs_conform]).
Qed.

(** The client's answers for a list: the program's, after a history of [allowed] requests, or
    a failure on the way. *)
Definition program_answers (allowed : rstr → value → Prop) (list_op : string) (c : Views.call) (r : outcome exn value) : Prop :=
  match c with
  | Views.ListCall _ =>
      (∃ e, r = Throw e) ∨
      ∃ reqs v, history_ok reqs ∧ Forall (λ q, allowed q.1 q.2) reqs ∧ answered_with reqs list_op VNull = Some v ∧ r = Ok v
  | Views.AddCall _ => True
  end.

(** The records of the program with nil slices among them. *)
Definition AnyStudent : ty := TObj [
  mem "id" TStr; mem "name" TStr; mem "grade" TStr; mem "age" TNum; mem "email" TStr; mem "subjects" (nullable (TArr TStr))].
Definition AnyCourse : ty := TObj [
  mem "id" TStr; mem "name" TStr; mem "code" TStr; mem "teacher_id" TStr; mem "student_ids" (nullable (TArr TStr));
  mem "description" TStr; opt "teacherName" TStr; opt "studentIds" (TArr TStr)].

Definition pages `{Engine} : list (Views.entity * (value → outcome exn (list jstr)) * string * ty) :=
  [(Views.students, Views.student_card, "list_students", AnyStudent); (Views.teachers, Views.teacher_card, "list_teachers", School.Teacher);
   (Views.courses, Views.course_card, "list_courses", AnyCourse)]%string.

Lemma slice_conforms o : conforms (nullable (TArr TStr)) (slice_json o) = true.
Proof. destruct o as [l|]; [|done]. cbn [nullable conforms existsb slice_json]. pose proof (strs_conform l) as Hl. cbn [conforms] in Hl. by rewrite Hl. Qed.

Lemma any_student x : conforms AnyStudent (Student_json x) = true.
Proof.
  destruct x as [i n g a e o]. pose proof (slice_conforms o) as Ho. unfold Student_json. cbn [student_Subjects]. revert Ho.
  generalize (slice_json o). intros v Hv. Nbook.build_object_with ltac:(first [reflexivity | by destruct v]).
Qed.

Lemma any_course x : conforms AnyCourse (Course_json x) = true.
Proof.
  destruct x as [i n c t o d]. pose proof (slice_conforms o) as Ho. unfold Course_json. cbn [course_StudentIDs]. revert Ho.
  generalize (slice_json o). intros v Hv. Nbook.build_object_with ltac:(first [reflexivity | by destruct v]).
Qed.

Lemma list_typed {A} (f : A → value) (t : ty) l :
  (∀ x, x ∈ l → conforms t (f x) = true) → truthy (list_json f l) = true → conforms (TArr t) (list_json f l) = true.
Proof.
  intros Hl Ht. destruct l as [|x l]; [done|]. unfold list_json. cbn [conforms]. apply forallb_forall.
  intros v (y & <- & Hy)%in_map_iff. by apply Hl, list_elem_of_In.
Qed.

Lemma listed_whole {T} `{Table T} `{Slices T} (P : T → Prop) A x :
  (∀ id y, table A !! id = Some y → P y) → x ∈ List.filter (λ _, true) (listed T A) → P x.
Proof.
  intros HP [Hx _]%list_elem_of_In%List.filter_In. apply list_elem_of_In, list_elem_of_omap in Hx as (k & _ & Hx).
  destruct (starts_with _ k); [|done]. by eapply HP.
Qed.

Lemma data_answered `{Engine} p data :
  Views.answered (Ok (Response_json (success [] (Some p)))) = Ok (Some data) → data = Payload_json p ∧ truthy data = true.
Proof.
  change (Views.answered (Ok (Response_json (success [] (Some p)))))
    with (Ok (E := exn) (if truthy (Payload_json p) then Some (Payload_json p) else None)).
  destruct (truthy (Payload_json p)) eqn:Ht; [|done]. by intros [= <-].
Qed.

(** The list that was answered after a history. *)
Lemma list_answer `{Engine} allowed E card op t b r data :
  In (E, card, op, t) pages → program_answers allowed op (Views.ListCall b) r → Views.answered r = Ok (Some data) →
  ∃ reqs, history_ok reqs ∧ Forall (λ q, allowed q.1 q.2) reqs ∧ truthy data = true ∧
    let A := (answers reqs empty_school).2 in
    data = Payload_json (if String.eqb op "list_students" then Students (List.filter (λ _, true) (listed Student A))
                         else if String.eqb op "list_teachers" then Teachers (List.filter (λ _, true) (listed Teacher A))
                         else Courses (List.filter (λ _, true) (listed Course A))).
Proof.
  intros Hin Hans Hdata. destruct Hans as [[e ->]|(reqs & v & Hr & Hw & Hv & ->)]; [done|]. exists reqs. split; [done|]. split; [done|].
  unfold answered_with in Hv. cbv zeta. set (A := (answers reqs empty_school).2) in *.
  destruct Hin as [[= <- <- <- <-]|[[= <- <- <- <-]|[[= <- <- <- <-]|[]]]]; rewrite after_answer in Hv by (done || constructor); fold A in Hv.
  - change (Some (Response_json (success [] (Some (Students (List.filter (λ _, true) (listed Student A)))))) = Some v) in Hv.
    injection Hv as <-. by apply data_answered in Hdata as [-> Ht].
  - change (Some (Response_json (success [] (Some (Teachers (List.filter (λ _, true) (listed Teacher A)))))) = Some v) in Hv.
    injection Hv as <-. by apply data_answered in Hdata as [-> Ht].
  - change (Some (Response_json (success [] (Some (Courses (List.filter (λ _, true) (listed Course A)))))) = Some v) in Hv.
    injection Hv as <-. by apply data_answered in Hdata as [-> Ht].
Qed.

Lemma program_typed `{Engine} E card op t c r :
  In (E, card, op, t) pages → program_answers sends_whole op c r → Views.typed_answers E c r.
Proof.
  intros Hin Hans. destruct c as [b|item]; [|done]. intros data Hdata.
  destruct (list_answer sends_whole E card op t b r data Hin Hans Hdata) as (reqs & _ & Hw & Ht & ->).
  assert (school_whole (answers reqs empty_school).2) as HA.
  { apply answers_whole; [done|]. split; apply map_Forall_empty. }
  destruct Hin as [[= <- <- <- <-]|[[= <- <- <- <-]|[[= <- <- <- <-]|[]]]]; cbn [String.eqb Ascii.eqb Bool.eqb andb] in *;
    apply list_typed; try exact Ht; intros x Hx.
  - apply student_conforms. refine (listed_whole whole _ x _ Hx). intros id y Hy. exact (whole_students _ HA _ _ Hy).
  - reflexivity.
  - apply course_conforms. refine (listed_whole whole _ x _ Hx). intros id y Hy. exact (whole_courses _ HA _ _ Hy).
Qed.

Lemma program_any `{Engine} allowed E card op t b r data :
  In (E, card, op, t) pages → program_answers allowed op (Views.ListCall b) r → Views.answered r = Ok (Some data) → conforms (TArr t) data = true.
Proof.
  intros Hin Hans Hdata. destruct (list_answer allowed E card op t b r data Hin Hans Hdata) as (reqs & _ & _ & Ht & ->).
  destruct Hin as [[= <- <- <- <-]|[[= <- <- <- <-]|[[= <- <- <- <-]|[]]]]; cbn [String.eqb Ascii.eqb Bool.eqb andb] in *;
    apply list_typed; try exact Ht; intros x Hx; [apply any_student|reflexivity|apply any_course].
Qed.

(** A record with a nil slice has a card, but for a student, whose card throws. *)
Lemma any_card `{Engine} E card op t x :
  In (E, card, op, t) pages → conforms t x = true →
  (∃ c, card x = Ok c) ∨ (op = "list_students"%string ∧ get x (js "subjects") = Ok VNull ∧ card x = Throw (JsErr (js "TypeError") (type_error_message (js "map")))).
Proof.
  intros Hin Hx. destruct Hin as [[= <- <- <- <-]|[[= <- <- <- <-]|[[= <- <- <- <-]|[]]]].
  - destruct (conforms_get _ x (js "subjects") false (nullable (TArr TStr)) Hx ltac:(Views.in_members)) as (ss & Hget & Hss).
    unfold Views.student_card, Views.child_of.
    destruct (Views.get_string _ x "name" Hx ltac:(Views.in_members)) as [n ->].
    destruct (Views.get_string _ x "grade" Hx ltac:(Views.in_members)) as [g ->].
    destruct (Views.get_string _ x "email" Hx ltac:(Views.in_members)) as [e ->].
    destruct (Views.get_number _ x "age" Hx ltac:(Views.in_members)) as [a ->].
    rewrite Hget. cbn [outcome_bind Views.initials Views.child]. destruct ss as [| | | | |l|]; try done; [by right|left].
    destruct (js_map_conforms (λ s, let! t := Views.child s in Ok (VStr t)) TStr TStr (VArr l)) as (w & -> & _).
    + intros y Hy. destruct y; try done. by eexists.
    + cbn in Hss. by rewrite orb_false_r in Hss.
    + by eexists.
  - left. by apply Views.teacher_card_total.
  - left. apply (Views.any_course_card _ x Hx); [|Views.in_members..]. intros k [<-|[<-|[<-|[]]]]; Views.in_members.
Qed.

Lemma any_found `{Engine} `{Views.CaseMap} E card op t q x :
  In (E, card, op, t) pages → conforms t x = true → ∃ b, Views.found q (Views.searched E) x = Ok b.
Proof.
  intros Hin Hx. assert (∀ k, In k (Views.searched E) → ∃ s, get x (js k) = Ok (VStr s)) as Hs.
  { destruct Hin as [[= <- <- <- <-]|[[= <- <- <- <-]|[[= <- <- <- <-]|[]]]];
      intros k [<-|[<-|[]]]; apply (Views.get_string _ _ _ Hx); Views.in_members. }
  induction (Views.searched E) as [|k l IH]; [by eexists|]. simpl. destruct (Hs k) as [s ->]; [by left|]. simpl.
  destruct (includes _ _); [by eexists|]. apply IH. intros k' Hk'. apply Hs. by right.
Qed.

Lemma traverse_or {A B} (f : A → outcome exn B) (bad : A → Prop) e l :
  (∀ x, x ∈ l → (∃ y, f x = Ok y) ∨ (bad x ∧ f x = Throw e)) → (∃ ys, traverse f l = Ok ys) ∨ (∃ x, x ∈ l ∧ bad x) ∧ traverse f l = Throw e.
Proof.
  induction l as [|x l IH]; intros Hf; [left; by eexists|]. cbn [traverse]. destruct (Hf x) as [[y ->]|[Hb ->]]; [by left| |].
  - destruct IH as [[ys ->]|[(z & Hz & Hb) ->]]; [intros z Hz; apply Hf; by right|left; by eexists|]. right. split; [|done]. exists z. split; [by right|done].
  - right. split; [|done]. exists x. split; [by left|done].
Qed.

(** C38 The pages and the program together, in every state that the students, teachers and
    courses pages reach with the lists of the school program, after whatever requests.  The
    teachers' and the courses' page render without an exception.  So does the students'
    page, unless it lists a student whose subjects are null, a nil slice of the program:
    then it may throw a [TypeError], and nothing else.  When no request has stored a record
    with a nil slice, it renders as well. *)
Theorem school_pages_render `{Engine} `{Views.CaseMap} E card op t (v : Views.view) :
  In (E, card, op, t) pages →
  (Views.reachable E (program_answers (λ _ _, True) op) v →
    (∃ p, Views.render E card v = Ok p) ∨
    (op = "list_students"%string ∧ Views.render E card v = Throw (JsErr (js "TypeError") (type_error_message (js "map"))) ∧
     ∃ l x, Views.items v = VArr l ∧ x ∈ l ∧ get x (js "subjects") = Ok VNull)) ∧
  (Views.reachable E (program_answers sends_whole op) v → ∃ p, Views.render E card v = Ok p).
Proof.
  intros Hin. split; intros Hr.
  - assert (conforms (TArr t) (Views.items v) = true) as Hitems.
    { apply (Views.items_from E (program_answers (λ _ _, True) op) (λ x, conforms (TArr t) x = true)); [done| |done].
      intros b r data. by apply (program_any (λ _ _, True) E card op t). }
    unfold Views.render. destruct (Views.items v) as [| | | | |l|]; try done. cbn [conforms] in Hitems. rewrite forallb_forall in Hitems. cbn [Views.js_filter].
    destruct (Views.filter_out_total (Views.found (Views.toLowerCase (Views.searchQuery v)) (Views.searched E)) l) as [shown Hshown].
    { intros x Hx. eapply any_found; [done|]. by apply Hitems, list_elem_of_In. }
    rewrite Hshown. cbn [outcome_bind]. destruct (Views.loading v); [left; by eexists|].
    destruct (traverse_or card (λ x, op = "list_students"%string ∧ get x (js "subjects") = Ok VNull)
      (JsErr (js "TypeError") (type_error_message (js "map"))) shown) as [[cs ->]|[(x & Hx & Hop & Hs) Ht]].
    + intros x Hx. destruct (any_card E card op t x Hin) as [|(? & ? & ?)]; [|by left|by right].
      apply Hitems, list_elem_of_In. by apply (Views.filter_out_sub _ _ _ _ Hshown).
    + left. by eexists.
    + right. split; [done|]. rewrite Ht. split; [done|]. exists l, x. split; [done|]. split; [|done]. by apply (Views.filter_out_sub _ _ _ _ Hshown).
  - assert (In (E, card) Views.all_views) as Hall.
    { destruct Hin as [[= <- <- <- <-]|[[= <- <- <- <-]|[[= <- <- <- <-]|[]]]]; [by left|by right; left|by right; right; left]. }
    destruct (Views.all_views_ok E card Hall) as (_ & Hs & Hd). apply Views.render_total; [done..|]. apply Views.items_reachable.
    unfold Views.reachable in *. induction Hr as [v|v w u Hvw _ IH]; [by constructor|]. eapply rtc_l; [|exact IH].
    destruct Hvw as [| | | |k r v Hans]; try by constructor. constructor. intros c Hc. eapply program_typed; [done|by apply Hans].
Qed.
End Program.
End SchoolWire.
