(* ===== verification/SchoolDemo.v ===== *)
(** * The theorems on the school program at concrete requests

    A codec for the records of the school program and a short history, at which the
    theorems of SchoolStore.v, SchoolRules.v and SchoolWire.v are applied. *)

From S2P Require Import Prelude JsValue Codec Json RustLib SerdeWire GoLib WasmHost RustModels SchoolProgram SchoolStore SchoolRules.
From S2P Require Import Platform Models ProgramCall SchoolClient SchoolViews SchoolWire.

Module SchoolDemo.
Import Rust Go Derive Host RustModels Office SchoolStore SchoolRules SchoolWire.

(** ** A codec: fields with their lengths before them *)

Fixpoint unframes (n : nat) (bs : bytes) : option (list bytes * bytes) :=
  match n with
  | 0%nat => Some ([], bs)
  | S n' => '(s, r) ← unframe bs; '(l, r') ← unframes n' r; Some (s :: l, r')
  end.

Lemma unframes_frames l r : unframes (length l) (concat (map frame l) ++ r) = Some (l, r).
Proof.
  induction l as [|s l IH]; [done|]. cbn [length map concat unframes]. rewrite <- app_assoc, unframe_frame. cbn [mbind option_bind].
  by rewrite IH.
Qed.

(** Strings, a number and a slice. *)
Record shape : Type := { texts : list bytes; number : Z; slice : option (list bytes) }.

Definition write_shape (x : shape) : bytes :=
  number x :: Z.of_nat (length (texts x)) :: concat (map frame (texts x))
  ++ match slice x with Some l => 1 :: Z.of_nat (length l) :: concat (map frame l) | None => [0] end.

Definition read_shape (bs : bytes) : option shape :=
  match bs with
  | n :: k :: r =>
      '(ts, r) ← unframes (Z.to_nat k) r;
      match r with
      | 0 :: _ => Some {| texts := ts; number := n; slice := None |}
      | _ :: m :: r' => '(l, _) ← unframes (Z.to_nat m) r'; Some {| texts := ts; number := n; slice := Some l |}
      | _ => None
      end
  | _ => None
  end.

Lemma read_write_shape x : read_shape (write_shape x) = Some x.
Proof.
  destruct x as [ts n [l|]]; unfold read_shape, write_shape; cbn [texts number slice]; rewrite Nat2Z.id, unframes_frames;
    cbn [mbind option_bind]; [|done].
  by rewrite Nat2Z.id, <- (app_nil_r (concat _)), unframes_frames.
Qed.

Definition unshape {T} (f : shape → option T) (bs : bytes) : outcome bytes T :=
  match read_shape bs ≫= f with Some x => Ok x | None => Throw (js "invalid character") end.

Lemma unshape_ok {T} (f : shape → option T) (g : T → shape) x : f (g x) = Some x → unshape f (write_shape (g x)) = Ok x.
Proof. intros Hf. unfold unshape. rewrite read_write_shape. cbn [mbind option_bind]. by rewrite Hf. Qed.

Lemma write_shape_filled x : write_shape x ≠ [].
Proof. done. Qed.

Definition student_shape (x : Student) : shape :=
  {| texts := [student_ID x; student_Name x; student_Grade x; student_Email x]; number := student_Age x; slice := student_Subjects x |}.
Definition shape_student (s : shape) : option Student :=
  match texts s with
  | [i; n; g; e] => Some {| student_ID := i; student_Name := n; student_Grade := g; student_Age := number s; student_Email := e; student_Subjects := slice s |}
  | _ => None
  end.
Lemma student_codec x : student_ok x → unshape shape_student (write_shape (student_shape x)) = Ok x.
Proof. intros _. apply unshape_ok. by destruct x. Qed.

Definition teacher_shape (x : Teacher) : shape :=
  {| texts := [teacher_ID x; teacher_Name x; teacher_Subject x; teacher_Email x; teacher_Phone x]; number := 0; slice := None |}.
Definition shape_teacher (s : shape) : option Teacher :=
  match texts s with
  | [i; n; b; e; p] => Some {| teacher_ID := i; teacher_Name := n; teacher_Subject := b; teacher_Email := e; teacher_Phone := p |}
  | _ => None
  end.
Lemma teacher_codec x : teacher_ok x → unshape shape_teacher (write_shape (teacher_shape x)) = Ok x.
Proof. intros _. apply unshape_ok. by destruct x. Qed.

Definition course_shape (x : Course) : shape :=
  {| texts := [course_ID x; course_Name x; course_Code x; course_TeacherID x; course_Description x]; number := 0; slice := course_StudentIDs x |}.
Definition shape_course (s : shape) : option Course :=
  match texts s with
  | [i; n; c; t; d] =>
      Some {| course_ID := i; course_Name := n; course_Code := c; course_TeacherID := t; course_StudentIDs := slice s; course_Description := d |}
  | _ => None
  end.
Lemma course_codec x : course_ok x → unshape shape_course (write_shape (course_shape x)) = Ok x.
Proof. intros _. apply unshape_ok. by destruct x. Qed.

Definition grade_shape (x : Grade) : shape :=
  {| texts := [grade_ID x; grade_StudentID x; grade_CourseID x; grade_Date x]; number := grade_Score x; slice := None |}.
Definition shape_grade (s : shape) : option Grade :=
  match texts s with
  | [i; t; c; d] => Some {| grade_ID := i; grade_StudentID := t; grade_CourseID := c; grade_Score := number s; grade_Date := d |}
  | _ => None
  end.
Lemma grade_codec x : grade_ok x → unshape shape_grade (write_shape (grade_shape x)) = Ok x.
Proof. intros _. apply unshape_ok. by destruct x. Qed.

Definition json_student : GoJson Student student_ok :=
  {| marshal x := write_shape (student_shape x); unmarshal := unshape shape_student; unmarshal_marshal := student_codec;
     marshal_filled x := write_shape_filled (student_shape x) |}.
Definition json_teacher : GoJson Teacher teacher_ok :=
  {| marshal x := write_shape (teacher_shape x); unmarshal := unshape shape_teacher; unmarshal_marshal := teacher_codec;
     marshal_filled x := write_shape_filled (teacher_shape x) |}.
Definition json_course : GoJson Course course_ok :=
  {| marshal x := write_shape (course_shape x); unmarshal := unshape shape_course; unmarshal_marshal := course_codec;
     marshal_filled x := write_shape_filled (course_shape x) |}.
Definition json_grade : GoJson Grade grade_ok :=
  {| marshal x := write_shape (grade_shape x); unmarshal := unshape shape_grade; unmarshal_marshal := grade_codec;
     marshal_filled x := write_shape_filled (grade_shape x) |}.

Definition go_errors : GoErrors :=
  {| type_error := λ _ _, js "json: cannot unmarshal"; base64_error := λ _, js "illegal base64 data" |}.

#[local] Existing Instances still_node go_errors json_student json_teacher json_course json_grade.

(** ** A history *)

Definition ann : value := student_value (js "1") (js "Ann") (js "10th") 16 (js "a@x") [js "Art"].
Definition bob : value := student_value (js "2,3") (js "Bob") (js "9th") 15 (js "b@x") [].
Definition art : value := course_value (js "7") (js "Art") (js "A1") (js "") [] (js "").
Definition mark : value :=
  VObj [(js "id", VStr (js "g")); (js "student_id", VStr (js "1")); (js "course_id", VStr (js "7")); (js "score", vint 90); (js "date", VStr (js "d"))].

Definition history : list (rstr * value) :=
  [(js "add_student", VObj [(js "student", ann)]); (js "add_course", VObj [(js "course", art)]);
   (js "assign_grade", VObj [(js "grade", mark)]); (js "update_student", VObj [(js "student", ann)])].

Definition with_comma : list (rstr * value) := history ++ [(js "add_student", VObj [(js "student", bob)])].

Ltac closed_tree := repeat first [apply tree_str; decide_closed | apply tree_null | apply tree_num | apply tree_arr | apply tree_obj | apply Forall_nil_2 | apply Forall_cons_2].

Lemma with_comma_ok : history_ok with_comma.
Proof. split; [done|]. repeat (apply Forall_cons_2; [closed_tree|]). apply Forall_nil_2. Qed.
Lemma the_history_ok : history_ok history.
Proof. split; [done|]. repeat (apply Forall_cons_2; [closed_tree|]). apply Forall_nil_2. Qed.

Lemma no_commas : Forall (λ k, 44 ∉ k) (added_keys history).
Proof. apply (bool_decide_unpack _). vm_compute. reflexivity. Qed.

Lemma school_program_refines_witness : (serve with_comma fresh_context).1 = (answers with_comma empty_school).1.
Proof. exact (proj1 (school_program_refines with_comma (proj1 with_comma_ok) (proj2 with_comma_ok))). Defined.

Lemma school_lists_exact_witness : shows Student "list_students" "get_student" (after history) [js "1"].
Proof. exact (proj1 (school_lists_exact history the_history_ok no_commas)). Defined.

Lemma school_grades_exact_witness : ∃ l : list Grade, map grade_ID l = [js "g"].
Proof. destruct (school_grades_exact history the_history_ok no_commas) as (l & Hl & _). exists l. exact Hl. Defined.

(** Bob was added and is not in the list. *)
Lemma comma_never_listed_witness :
  ∃ l, (execute (js "list_students") VNull (after with_comma)).1 = Some (success [] (Some (Students l))) ∧ Forall (λ x, 44 ∉ student_ID x) l.
Proof. exact (comma_never_listed with_comma with_comma_ok). Defined.

Lemma delete_always_traps_witness : execute (js "delete_student") (VStr (js "1")) (after history) = (None, after history).
Proof. apply (delete_always_traps "delete_student"). by left. Defined.

Definition art_course : Course :=
  {| course_ID := js "7"; course_Name := js "Art"; course_Code := js "A1"; course_TeacherID := []; course_StudentIDs := Some []; course_Description := [] |}.

Lemma enroll_once_witness :
  (execute (js "enroll_student") (enroll_data (js "1") (js "7")) (after history)).1
  = Some (success (js "Student enrolled successfully") (Some (ACourse (enrolled art_course (js "1"))))).
Proof.
  refine (proj1 (enroll_once history (js "1") (js "7") art_course the_history_ok _ _ _ _));
    [decide_closed|decide_closed|vm_compute; reflexivity|apply (bool_decide_unpack _); vm_compute; reflexivity].
Defined.

Lemma school_records_travel_witness :
  answered_with (history ++ [(js "add_student", VObj [(js "student", ann)])]) "get_student" (VStr (js "1")) = Some (data_response ann).
Proof.
  refine (proj1 (school_records_travel history (js "1") (js "Ann") (js "10th") (js "a@x") 16 [js "Art"] the_history_ok _ _) "add_student"%string _);
    [|lia|by left].
  repeat (apply Forall_cons_2; [split; [reflexivity|decide_closed]|]). apply Forall_nil_2.
Defined.

(** What the program answers for the list of students. *)
Definition student_list : value := data_response (VArr [ann]).

Lemma history_whole : Forall (λ q, sends_whole q.1 q.2) history.
Proof.
  repeat (apply Forall_cons_2; [split; intros x Ho Hx|]); [..|apply Forall_nil_2];
    unfold stores_op in Ho; apply (bool_decide_pack _) in Ho; vm_compute in Ho; try done;
    vm_compute in Hx; injection Hx as <-; unfold whole, slices_Student, slices_Course; by eexists.
Qed.

Lemma school_pages_render_witness :
  ∃ p, @Views.render Models.engine Views.ascii_case Views.students (@Views.student_card Models.engine)
         (@Views.settle Models.engine Views.students 0 (Ok student_list) Views.mount) = Ok p.
Proof.
  apply (@school_pages_render still_node go_errors json_student json_teacher json_course json_grade Models.engine Views.ascii_case
    Views.students Views.student_card "list_students" AnyStudent); [by left|].
  eapply rtc_l; [apply (Views.step_settle Views.students _ 0 (Ok student_list))|apply rtc_refl].
  intros c [= <-]. right. exists history, student_list. split; [apply the_history_ok|]. split; [apply history_whole|].
  split; [vm_compute; reflexivity|done].
Defined.

(** A student that was sent without subjects makes the page throw. *)
Definition bare_student : list (rstr * value) :=
  [(js "add_student", VObj [(js "student", VObj [(js "id", VStr (js "1")); (js "name", VStr (js "Ann")); (js "email", VStr (js "a@x"))])])].

Example bare_student_throws :
  match answered_with bare_student "list_students" VNull with
  | Some list =>
      @Views.render Models.engine Views.ascii_case Views.students (@Views.student_card Models.engine)
        (@Views.settle Models.engine Views.students 0 (Ok list) Views.mount)
      = Throw (JsErr (js "TypeError") (@type_error_message Models.engine (js "map")))
  | None => False
  end.
Proof. vm_compute. reflexivity. Qed.

(** ** A call *)

#[local] Existing Instance Models.engine.

Definition parse_input (bs : bytes) : outcome rstr (rstr * value) :=
  match json_parse (utf8_decode bs) with
  | Ok (VObj fs) => match Request_of_json fs with Some req => Ok req | None => Throw (js "json: cannot unmarshal") end
  | _ => Throw (js "invalid character")
  end.

Lemma parse_input_object fs req :
  json_data (VObj fs) → Request_of_json fs = Some req → parse_input (utf8_encode (json_text (VObj fs))) = Ok req.
Proof. intros Hd Hr. unfold parse_input. by rewrite json_text_utf8, json_parse_text, Hr. Qed.

Definition output_text (r : Response) : bytes := utf8_encode (json_text (Response_json r)).

Lemma output_parsed r :
  json_data (Response_json r) → byte_list (output_text r) ∧ json_parse (utf8_decode (output_text r)) = Ok (Response_json r).
Proof. intros Hd. split; [by apply json_text_bytes|]. unfold output_text. by rewrite json_text_utf8, json_parse_text. Qed.

Definition go_wire : GoWire :=
  {| from_input := parse_input; to_output := output_text; from_input_object := parse_input_object; to_output_parsed := output_parsed |}.

(** Ann asks for a course that does not exist. *)
Lemma school_call_end_to_end_witness :
  ∃ out, @onvm_main _ go_wire _ _ _ _ _ _ (b64_decode (ProgramCall.encode_input (School.program_request "get_course" (VStr (js "8"))))) (after history)
         = (Some out, after history).
Proof.
  destruct (@school_call_end_to_end _ go_wire _ _ _ _ _ _ "get_course" (VStr (js "8")) (after history) (after history)
    (error_response (js "Course not found"))) as (out & Hm & _).
  - decide_closed.
  - repeat (constructor; try decide_closed).
  - repeat (constructor; try decide_closed).
  - vm_compute. reflexivity.
  - by left.
  - exists out. exact Hm.
Defined.
End SchoolDemo.
