(* ===== verification/Async.v ===== *)
(** * Asynchronous handlers

    A handler that awaits is a [task]: it updates the component's state, waits
    for the outcome of a call, and goes on with it.  Handlers of a component that
    are under way are a pool of tasks; a step gives one of them the outcome of
    its call and runs it up to its next wait, so the order in which calls are
    answered is left open. *)

From S2P Require Import Prelude.

Module Async.

Section Tasks.
Context {S C : Type} {R : C → Type}.

Inductive task : Type :=
| Finish
| Update (f : S → S) (k : task)
| Look (k : S → task)
| Await (c : C) (k : R c → task).

(** Run up to the next wait. *)
Fixpoint advance (t : task) (s : S) : S * list task :=
  match t with
  | Finish => (s, [])
  | Update f k => advance k (f s)
  | Look k => advance (k s) s
  | Await _ _ => (s, [t])
  end.

(** [t] and then [u], as [await t(); u()]. *)
Fixpoint andThen (t u : task) : task :=
  match t with
  | Finish => u
  | Update f k => Update f (andThen k u)
  | Look k => Look (λ s, andThen (k s) u)
  | Await c k => Await c (λ r, andThen (k r) u)
  end.

(** Run to the end when every call is answered by [ans]. *)
Fixpoint run (ans : ∀ c, R c) (t : task) (s : S) : S :=
  match t with
  | Finish => s
  | Update f k => run ans k (f s)
  | Look k => run ans (k s) s
  | Await c k => run ans (k (ans c)) s
  end.

(** The calls it makes then, in order. *)
Fixpoint calls (ans : ∀ c, R c) (t : task) (s : S) : list C :=
  match t with
  | Finish => []
  | Update f k => calls ans k (f s)
  | Look k => calls ans (k s) s
  | Await c k => c :: calls ans (k (ans c)) s
  end.

Record pool : Type := {
  now : S;
  waiting : list task;
}.

Definition idle (s : S) : pool := {| now := s; waiting := [] |}.

(** An event starts a task. *)
Definition start (t : task) (p : pool) : pool :=
  let '(s, ts) := advance t (now p) in {| now := s; waiting := waiting p ++ ts |}.

(** The [n]-th task goes on as [t]. *)
Definition proceed (n : nat) (t : task) (p : pool) : pool :=
  let '(s, ts) := advance t (now p) in
  {| now := s; waiting := take n (waiting p) ++ ts ++ drop (Datatypes.S n) (waiting p) |}.

(** The call of the [n]-th task is answered by [ans]. *)
Definition resume (n : nat) (ans : ∀ c, R c) (p : pool) : pool :=
  match waiting p !! n with
  | Some (Await c f) => proceed n (f (ans c)) p
  | _ => p
  end.

Lemma run_andThen ans t u s : run ans (andThen t u) s = run ans u (run ans t s).
Proof. revert s. induction t as [|f k IH|k IH|c k IH]; intros s; simpl; auto. Qed.

Lemma calls_andThen ans t u s : calls ans (andThen t u) s = calls ans t s ++ calls ans u (run ans t s).
Proof. revert s. induction t as [|f k IH|k IH|c k IH]; intros s; simpl; [done|auto|auto|]. by rewrite IH. Qed.

(** Alone in the pool a task reaches what [run] computes, once each of its calls
    was answered. *)
Lemma resume_run ans t s :
  ∃ n, Nat.iter n (λ p, match waiting p with
                        | Await c _ :: _ => resume 0 ans p
                        | _ => p
                        end) (start t {| now := s; waiting := [] |})
       = {| now := run ans t s; waiting := [] |}.
Proof.
  revert s. induction t as [|f k IH|k IH|c k IH]; intros s.
  - by exists 0%nat.
  - destruct (IH (f s)) as [n Hn]. by exists n.
  - destruct (IH s s) as [n Hn]. by exists n.
  - destruct (IH (ans c) s) as [n Hn]. exists (Datatypes.S n). rewrite Nat.iter_succ_r.
    assert (start (Await c k) {| now := s; waiting := [] |} = {| now := s; waiting := [Await c k] |}) as -> by done.
    unfold resume at 2, proceed. cbn [waiting lookup list_lookup now take drop app].
    etrans; [|exact Hn]. f_equal. unfold start. cbn [now waiting app].
    destruct (advance (k (ans c)) s) as [s' ts]. by rewrite app_nil_r.
Qed.
(** ** Answers come to an end

    What waits after a task ran. *)
Definition residue (t : task) (s : S) : list task := (advance t s).2.

Lemma residue_awaits t s : Forall (λ u, ∃ c k, u = Await c k) (residue t s).
Proof. unfold residue. revert s. induction t as [|f k IH|k IH|c k IH]; intros s; simpl; eauto. Qed.

(** One of the outstanding calls is answered. *)
Definition answer (p q : pool) : Prop := ∃ n c f r, waiting p !! n = Some (Await c f) ∧ q = proceed n (f r) p.

(** The calls that are under way. *)
Definition in_flight (p : pool) : list C := omap (λ t, match t with Await c _ => Some c | _ => None end) (waiting p).

Definition shrinks (w w' : list task) : Prop :=
  ∃ l1 c f r s l2, w = l1 ++ Await c f :: l2 ∧ w' = l1 ++ residue (f r) s ++ l2.

(** [P] of every continuation of a waiting task. *)
Definition after_answer (P : task → Prop) (t : task) : Prop :=
  match t with Await c f => ∀ r, P (f r) | _ => True end.

Lemma shrinks_residue_acc t s w : Acc (flip shrinks) w → Acc (flip shrinks) (residue t s ++ w).
Proof.
  unfold residue. revert s w. induction t as [|f k IH|k IH|c k IH]; intros s w Hw; simpl; [done|auto|auto|].
  assert (after_answer (λ t, ∀ s w, Acc (flip shrinks) w → Acc (flip shrinks) ((advance t s).2 ++ w)) (Await c k)) as Hk
    by exact IH.
  clear IH. induction Hw as [w Hw IHw]. constructor. intros w' (l1 & c' & f' & r & s' & l2 & Heq & ->).
  destruct l1 as [|t l1]; simpl in Heq.
  - pose proof (f_equal (hd Finish) Heq) as Ht. pose proof (f_equal tail Heq) as Hl. simpl in Ht, Hl. subst l2.
    rewrite Ht in Hk. by apply Hk, Acc_intro.
  - pose proof (f_equal (hd Finish) Heq) as Ht. pose proof (f_equal tail Heq) as Hl. simpl in Ht, Hl. subst t.
    simpl. apply IHw. by exists l1, c', f', r, s', l2.
Qed.

Lemma shrinks_acc (s : S) w : Forall (λ u, ∃ c k, u = Await c k) w → Acc (flip shrinks) w.
Proof.
  induction 1 as [|u w (c & k & ->) _ IH].
  - constructor. intros w' (l1 & c & f & r & ? & l2 & Heq & _). by destruct l1.
  - by apply (shrinks_residue_acc (Await c k) s).
Qed.

Definition only_awaits (p : pool) : Prop := Forall (λ u, ∃ c k, u = Await c k) (waiting p).

Lemma proceed_shrinks p n c f r :
  waiting p !! n = Some (Await c f) → shrinks (waiting p) (waiting (proceed n (f r) p)).
Proof.
  intros Hn. exists (take n (waiting p)), c, f, r, (now p), (drop (Datatypes.S n) (waiting p)).
  split; [by rewrite take_drop_middle|]. unfold proceed, residue. by destruct (advance (f r) (now p)).
Qed.

Lemma start_awaits t p : only_awaits p → only_awaits (start t p).
Proof.
  intros Hp. unfold only_awaits, start. pose proof (residue_awaits t (now p)) as Ha. unfold residue in Ha.
  destruct (advance t (now p)) as [s ts]. by apply Forall_app.
Qed.

Lemma proceed_awaits n t p : only_awaits p → only_awaits (proceed n t p).
Proof.
  unfold only_awaits, proceed. intros Hp. pose proof (residue_awaits t (now p)) as Ha. unfold residue in Ha.
  destruct (advance t (now p)) as [s ts]. cbn [waiting].
  rewrite !Forall_app. split; [by apply Forall_take|]. split; [done|by apply Forall_drop].
Qed.

(** However the calls are answered, and in whatever order, the answers stop. *)
Lemma answers_terminate p : only_awaits p → Acc (flip answer) p.
Proof.
  intros Hp. pose proof (shrinks_acc (now p) _ Hp) as Hacc. clear Hp.
  remember (waiting p) as w eqn:Hw. revert p Hw. induction Hacc as [w _ IH]. intros p ->.
  constructor. intros q (n & c & f & r & Hn & ->). by eapply IH; [eapply proceed_shrinks|].
Qed.

(** [P] comes true on every run on which outstanding calls keep being answered. *)
Inductive inevitably (P : pool → Prop) : pool → Prop :=
| inevitably_now p : P p → inevitably P p
| inevitably_next p : in_flight p ≠ [] → (∀ q, answer p q → inevitably P q) → inevitably P p.

Lemma idle_waiting p : only_awaits p → in_flight p = [] → waiting p = [].
Proof. unfold in_flight. by destruct 1 as [|u w (c & k & ->) _]. Qed.

Lemma idle_inevitable p : only_awaits p → inevitably (λ q, waiting q = []) p.
Proof.
  intros Hp. pose proof (answers_terminate p Hp) as Hacc. induction Hacc as [p _ IH].
  destruct (in_flight p) as [|c cs] eqn:Hf; [by apply inevitably_now, idle_waiting|].
  apply inevitably_next; [by rewrite Hf|]. intros q Hq. apply IH; [done|].
  destruct Hq as (n & ? & ? & r & _ & ->). by apply proceed_awaits.
Qed.

Lemma inevitably_mono (P Q : pool → Prop) (I : pool → Prop) p :
  (∀ q q', I q → answer q q' → I q') → (∀ q, I q → P q → Q q) → I p → inevitably P p → inevitably Q p.
Proof.
  intros Hstep HPQ Hp Hi. induction Hi as [p HP|p Hf _ IH]; [by apply inevitably_now, HPQ|].
  apply inevitably_next; [done|]. intros q Hq. by apply IH; [|apply (Hstep p)].
Qed.
End Tasks.

Arguments task : clear implicits.
Arguments pool : clear implicits.

(** ** Components

    [event s t]: in state [s] something can happen that starts [t]; a handler
    without awaits is a task without [Await].  [admissible s c r]: [r] is a possible
    outcome of [c]. *)
Section Machine.
Context {S C : Type} {R : C → Type} (event : S → task S C R → Prop) (admissible : S → ∀ c, R c → Prop).

Inductive step : pool S C R → pool S C R → Prop :=
| step_event t p : event (now p) t → step p (start t p)
| step_answer n c f r p :
    waiting p !! n = Some (Await c f) → admissible (now p) c r → step p (proceed n (f r) p).

(** Every outcome of every call is possible. *)
Definition any_outcome (s : S) (c : C) (r : R c) : Prop := True.

Definition reachable_from (p q : pool S C R) : Prop := rtc step p q.

Lemma reachable_ind' (I : pool S C R → Prop) p q :
  (∀ t p, event (now p) t → I p → I (start t p)) → 
  (∀ n c f r p, waiting p !! n = Some (Await c f) → admissible (now p) c r → I p → I (proceed n (f r) p)) →
  I p → reachable_from p q → I q.
Proof. intros Hs Hr Hp Hq. induction Hq as [|? ? ? [] _ IH]; eauto. Qed.

(** A task may run to its end while the others wait. *)
Lemma run_steps (ans : ∀ c, R c) t s ws :
  (∀ s c, admissible s c (ans c)) →
  rtc step (start t {| now := s; waiting := ws |}) {| now := run ans t s; waiting := ws |}.
Proof.
  intros Hans. revert s. induction t as [|f k IH|k IH|c k IH]; intros s.
  - unfold start. simpl. rewrite app_nil_r. apply rtc_refl.
  - apply (IH (f s)).
  - apply (IH s s).
  - eapply rtc_l; [apply (step_answer (length ws) c k (ans c)); [|apply Hans]|].
    + simpl. by rewrite lookup_app_r, Nat.sub_diag.
    + cbn [run]. specialize (IH (ans c) s). unfold proceed, start in *. cbn [now waiting advance] in *.
      destruct (advance (k (ans c)) s) as [s' ts]. rewrite take_app_length.
      replace (drop (Datatypes.S (length ws)) (ws ++ [Await c k])) with ([] : list (task S C R)); [by rewrite app_nil_r|].
      symmetry. apply drop_ge. rewrite length_app. simpl. lia.
Qed.

Lemma reachable_awaits p q : only_awaits p → reachable_from p q → only_awaits q.
Proof. apply reachable_ind'; [intros; by apply start_awaits|intros; by apply proceed_awaits]. Qed.
End Machine.

(** A property of the calls, given an invariant of the state that the handlers keep. *)
Section Safe.
Context {S C : Type} {R : C → Type} (Q : C → Prop) (I : S → Prop).

Fixpoint safe (t : task S C R) : Prop :=
  match t with
  | Finish => True
  | Update f k => (∀ s, I s → I (f s)) ∧ safe k
  | Look k => ∀ s, I s → safe (k s)
  | Await c k => Q c ∧ ∀ r, safe (k r)
  end.

Lemma advance_safe t s : I s → safe t → I (advance t s).1 ∧ Forall safe (advance t s).2.
Proof.
  revert s. induction t as [|f k IH|k IH|c k IH]; intros s Hs Ht; simpl in *; [done| |by auto|by auto].
  destruct Ht as [Hf Hk]. auto.
Qed.

Lemma safe_reachable (event : S → task S C R → Prop) (admissible : S → ∀ c, R c → Prop) s p :
  reachable_from event admissible (idle s) p → (∀ s t, I s → event s t → safe t) → I s →
  I (now p) ∧ Forall safe (waiting p).
Proof.
  intros Hp He Hs. revert Hp. apply (reachable_ind' event admissible (λ p, I (now p) ∧ Forall safe (waiting p))); [| |by split].
  - intros t q Ht [H1 H2]. unfold start. pose proof (advance_safe t (now q) H1 (He _ _ H1 Ht)) as [H3 H4].
    destruct (advance t (now q)). split; [done|]. by apply Forall_app.
  - intros n c f r q Hn _ [H1 H2]. unfold proceed. pose proof (Forall_lookup_1 _ _ _ _ H2 Hn) as [_ Hf].
    pose proof (advance_safe (f r) (now q) H1 (Hf r)) as [H3 H4]. destruct (advance (f r) (now q)). split; [done|].
    simpl. rewrite !Forall_app. split; [by apply Forall_take|]. split; [done|by apply Forall_drop].
Qed.

Lemma safe_in_flight p : Forall safe (waiting p) → Forall Q (in_flight p).
Proof.
  unfold in_flight. generalize (waiting p). intros w Hw. induction Hw as [|t w Ht _ IH]; [constructor|].
  destruct t as [|?|?|c f]; [done..|]. destruct Ht as [Hc _]. by apply Forall_cons.
Qed.
End Safe.

(** An invariant of the state that the handlers keep when the outcomes of their calls are [good]. *)
Section Sound.
Context {S C : Type} {R : C → Type} (I : S → Prop) (good : ∀ c, R c → Prop).

Fixpoint sound (t : task S C R) : Prop :=
  match t with
  | Finish => True
  | Update f k => (∀ s, I s → I (f s)) ∧ sound k
  | Look k => ∀ s, I s → sound (k s)
  | Await c k => ∀ r, good c r → sound (k r)
  end.

Definition sound_pool (p : pool S C R) : Prop := I (now p) ∧ Forall sound (waiting p).

Lemma advance_sound t s : I s → sound t → I (advance t s).1 ∧ Forall sound (advance t s).2.
Proof.
  revert s. induction t as [|f k IH|k IH|c k IH]; intros s Hs Ht; simpl in *; [done| |by auto|by auto].
  destruct Ht as [Hf Hk]. auto.
Qed.

Lemma sound_andThen t u : sound t → sound u → sound (andThen t u).
Proof.
  intros Ht Hu. induction t as [|f k IH|k IH|c k IH]; simpl in *; [done| |by auto|by auto]. destruct Ht as [Hf Hk]. auto.
Qed.

Lemma sound_start t p : sound t → sound_pool p → sound_pool (start t p).
Proof.
  intros Ht [H1 H2]. unfold sound_pool, start. pose proof (advance_sound t (now p) H1 Ht) as [H3 H4].
  destruct (advance t (now p)). split; [done|]. by apply Forall_app.
Qed.

Lemma sound_proceed n c f r p :
  waiting p !! n = Some (Await c f) → good c r → sound_pool p → sound_pool (proceed n (f r) p).
Proof.
  intros Hn Hr [H1 H2]. unfold sound_pool, proceed. pose proof (Forall_lookup_1 _ _ _ _ H2 Hn r Hr) as Hf.
  pose proof (advance_sound (f r) (now p) H1 Hf) as [H3 H4]. destruct (advance (f r) (now p)). split; [done|].
  simpl. rewrite !Forall_app. split; [by apply Forall_take|]. split; [done|by apply Forall_drop].
Qed.
End Sound.

(** A flag that handlers raise and lower, as a spinner.  [settles due t]: whatever
    is answered, [t] lowers the flag after each time it raised it; with [due] it
    also owes the lowering of the flag it found raised. *)
Section Flag.
Context {S C : Type} {R : C → Type} (busy : S → bool).

Definition lowers (f : S → S) : Prop := ∀ s, busy (f s) = false.
Definition never_raises (f : S → S) : Prop := ∀ s, busy (f s) = true → busy s = true.

Fixpoint settles (due : bool) (t : task S C R) : Prop :=
  match t with
  | Finish => due = false
  | Look k => ∀ s, settles due (k s)
  | Update f k =>
      (lowers f ∧ settles false k) ∨ (never_raises f ∧ settles due k) ∨ settles true k
  | Await _ k => ∀ r, settles due (k r)
  end.

Lemma settles_due due t : settles true t → settles due t.
Proof. destruct due; [done|]. induction t as [|f k IH|k IH|c k IH]; simpl; [done| |auto|auto]. intuition. Qed.

Lemma settles_andThen due t u : settles due t → settles false u → settles due (andThen t u).
Proof.
  intros Ht Hu. revert due Ht. induction t as [|f k IH|k IH|c k IH]; intros due Ht; simpl in *; [by subst due| |auto|auto].
  destruct Ht as [[Hf Hk]|[[Hf Hk]|Hk]]; auto.
Qed.

Lemma settles_andThen_due t u : settles false t → settles true u → settles true (andThen t u).
Proof.
  intros Ht Hu. induction t as [|f k IH|k IH|c k IH]; simpl in *; [done| |auto|auto].
  right; right. apply IH. destruct Ht as [[Hf Hk]|[[Hf Hk]|Hk]]; [done|done|by apply settles_due].
Qed.

Definition flag_inv (p : pool S C R) : Prop :=
  only_awaits p ∧ Forall (settles false) (waiting p) ∧
  (busy (now p) = true → Exists (settles true) (waiting p)).

Lemma advance_settles due t s :
  settles due t →
  Forall (settles false) (advance t s).2 ∧
  (busy (advance t s).1 = true → (due = false ∧ busy s = true) ∨ Exists (settles true) (advance t s).2).
Proof.
  intros Ht. revert due s Ht. induction t as [|f k IH|k IH|c k IH]; intros due s Ht; simpl in *.
  - subst. split; [done|]. auto.
  - destruct Ht as [[Hf Hk]|[[Hf Hk]|Hk]].
    + destruct (IH _ (f s) Hk) as [H1 H2]. split; [done|]. intros Hb. destruct (H2 Hb) as [[_ Hb']|]; [|auto].
      by rewrite Hf in Hb'.
    + destruct (IH _ (f s) Hk) as [H1 H2]. split; [done|]. intros Hb. destruct (H2 Hb) as [[? Hb']|]; auto.
    + destruct (IH _ (f s) Hk) as [H1 H2]. split; [done|]. intros Hb. destruct (H2 Hb) as [[? _]|]; [done|auto].
  - by apply IH.
  - split; [by repeat constructor; intros r; destruct due; [apply settles_due|]|].
    intros Hb. destruct due; [right; by constructor|by left].
Qed.

Lemma flag_start t p : settles false t → flag_inv p → flag_inv (start t p).
Proof.
  intros Ht (Ha & Hw & Hb). split; [by apply start_awaits|].
  pose proof (advance_settles false t (now p) Ht) as Hadv. unfold start.
  destruct (advance t (now p)) as [s ts]. simpl in *. destruct Hadv as [H1 H2].
  split; [by apply Forall_app|]. intros Hs. apply Exists_app. destruct (H2 Hs) as [[_ ?]|?]; auto.
Qed.

(** In state [s] the task leaves nothing waiting and does not raise the flag. *)
Definition quiet (s : S) (t : task S C R) : Prop :=
  (advance t s).2 = [] ∧ (busy (advance t s).1 = true → busy s = true).
Definition calm (s : S) (t : task S C R) : Prop := settles false t ∨ quiet s t.

Lemma flag_start_calm t p : calm (now p) t → flag_inv p → flag_inv (start t p).
Proof.
  intros [Ht|[Hw Hb]]; [by apply flag_start|]. intros (H1 & H2 & H3). unfold start. unfold flag_inv, only_awaits.
  destruct (advance t (now p)) as [s ts]. simpl in *. subst ts. rewrite app_nil_r. auto.
Qed.

Lemma flag_proceed n c f r p :
  waiting p !! n = Some (Await c f) → flag_inv p → flag_inv (proceed n (f r) p).
Proof.
  intros Hn (Ha & Hw & Hb). split; [by apply proceed_awaits|]. unfold proceed.
  pose proof (Forall_lookup_1 _ _ _ _ Hw Hn r) as Hf.
  rewrite <- (take_drop_middle _ _ _ Hn) in Hw, Hb.
  rewrite Forall_app, Forall_cons in Hw. destruct Hw as (Hl & _ & Hr).
  pose proof (advance_settles false (f r) (now p) Hf) as [H1 H2].
  pose proof (advance_settles true (f r) (now p)) as Htrue.
  destruct (advance (f r) (now p)) as [s ts]. simpl in *. split; [by rewrite !Forall_app|].
  rewrite !Exists_app. intros Hs. destruct (H2 Hs) as [[_ Hbusy]|]; [|by auto].
  specialize (Hb Hbusy). rewrite Exists_app, Exists_cons in Hb. destruct Hb as [|[Hk|]]; [by auto| |by auto].
  destruct (Htrue (Hk r)) as [_ Hd]. destruct (Hd Hs) as [[? _]|]; [done|by auto].
Qed.

Lemma flag_resume n ans p : flag_inv p → flag_inv (resume n ans p).
Proof.
  intros Hp. unfold resume. destruct (waiting p !! n) as [[| | |c f]|] eqn:Hn; [done..| |done]. by eapply flag_proceed.
Qed.

Lemma flag_idle p : flag_inv p → waiting p = [] → busy (now p) = false.
Proof.
  intros (_ & _ & Hb) Hw. destruct (busy (now p)); [|done]. specialize (Hb eq_refl). rewrite Hw in Hb. by inv Hb.
Qed.

(** From here on every run of answers is finite, and ends with the flag down. *)
Lemma flag_inv_lowered p : flag_inv p → inevitably (λ q, waiting q = [] ∧ busy (now q) = false) p.
Proof.
  intros Hp. apply (inevitably_mono (λ q, waiting q = []) _ flag_inv); [|by eauto using flag_idle|done|by apply idle_inevitable, Hp].
  intros q1 q2 H1 (n & ? & ? & r & Hn & ->). by eapply flag_proceed.
Qed.

Context (event : S → task S C R → Prop) (admissible : S → ∀ c, R c → Prop).
Hypothesis events_calm : ∀ s t, event s t → calm s t.

Lemma flag_reachable p q : flag_inv p → reachable_from event admissible p q → flag_inv q.
Proof. apply reachable_ind'; [eauto using flag_start_calm|eauto using flag_proceed]. Qed.

(** The flag goes down for good once the outstanding calls are answered. *)
Lemma flag_lowered p q :
  flag_inv p → reachable_from event admissible p q → inevitably (λ q, waiting q = [] ∧ busy (now q) = false) q.
Proof. intros Hp Hq. by eapply flag_inv_lowered, flag_reachable. Qed.

Lemma flag_inv_idle s : busy s = false → flag_inv (idle s).
Proof. intros Hs. split; [by constructor|]. split; [by constructor|]. simpl. by rewrite Hs. Qed.

Lemma lowered_from_idle s q :
  reachable_from event admissible (idle s) q → busy s = false →
  inevitably (λ q, waiting q = [] ∧ busy (now q) = false) q.
Proof. intros Hq Hs. by eapply flag_lowered; [apply flag_inv_idle|]. Qed.
End Flag.

(** An invariant of the steps. *)
Lemma rtc_invariant {A} (step : A → A → Prop) (I : A → Prop) a b :
  (∀ x y, step x y → I x → I y) → I a → rtc step a b → I b.
Proof. intros Hs Ha Hab. induction Hab as [|x y z Hxy _ IH]; eauto. Qed.

(** Several flags at once. *)
Lemma flags_lowered {S C : Type} {R : C → Type} (G : (S → bool) → Prop) (event : S → task S C R → Prop)
    (admissible : S → ∀ c, R c → Prop) s p :
  reachable_from event admissible (idle s) p →
  (∀ g s t, G g → event s t → calm g s t) → (∀ g, G g → g s = false) →
  inevitably (λ q, waiting q = [] ∧ ∀ g, G g → g (now q) = false) p.
Proof.
  intros Hp Hcalm Hs.
  assert (only_awaits p) as Ha by (eapply reachable_awaits; [|exact Hp]; apply Forall_nil_2).
  apply (inevitably_mono (λ q, waiting q = []) _ (λ q, ∀ g, G g → flag_inv g q)).
  - intros q q' Hq (n & c & f & r & Hn & ->) g Hg. eapply flag_proceed; [exact Hn|by apply Hq].
  - intros q Hq Hw. split; [done|]. intros g Hg. by apply (flag_idle g); [apply Hq|].
  - intros g Hg. eapply flag_reachable; [|apply flag_inv_idle; by apply Hs|exact Hp]. intros s' t. by apply Hcalm.
  - by apply idle_inevitable.
Qed.

(** A flag that locks: the handler that finds it down raises it, makes its calls,
    and lowers it; [mine] are the calls made only under the lock, [own] those that
    may be made under it.  [holding h t] is what [t] may do while it holds the lock
    ([h]) or not. *)
Section Lock.
Context {S C : Type} {R : C → Type} (busy : S → bool) (mine own : C → bool).

Definition keeps_flag (f : S → S) : Prop := ∀ s, busy (f s) = busy s.

Fixpoint holding (h : bool) (t : task S C R) : Prop :=
  match t with
  | Finish => h = false
  | Update f k => (h = true ∧ lowers busy f ∧ holding false k) ∨ (keeps_flag f ∧ holding h k)
  | Look k =>
      ∀ s, holding h (k s) ∨
           (h = false ∧ busy s = false ∧
            match k s with Update f k' => busy (f s) = true ∧ holding true k' | _ => False end)
  | Await c k => (if h then own c = true else mine c = false) ∧ ∀ r, holding h (k r)
  end.

(** A handler without calls of its own, or one that takes the lock. *)
Definition takes_lock (s : S) (t : task S C R) : Prop :=
  holding false t ∨
  (busy s = false ∧ ∃ f k, t = Update f k ∧ busy (f s) = true ∧ holding true k).

Definition lock_inv (p : pool S C R) : Prop :=
  ∃ hs, Forall2 holding hs (waiting p) ∧ sum_list_with Nat.b2n hs = Nat.b2n (busy (now p)).

(** The lock is held by as many of the tasks that go on waiting as the flag says,
    counting the one that ran. *)
Definition accounted (t : task S C R) : Prop :=
  ∀ h s, holding h t → (h = true → busy s = true) →
  ∃ hs, Forall2 holding hs (advance t s).2 ∧
        (sum_list_with Nat.b2n hs + Nat.b2n (busy s) = Nat.b2n h + Nat.b2n (busy (advance t s).1))%nat.

Lemma advance_accounted t : accounted t ∧ match t with Update _ k => accounted k | _ => True end.
Proof.
  induction t as [|f k [IH _]|k IH|c k _]; (split; [|done]); intros h s Ht Hs; simpl in *.
  - subst h. exists []. split; [constructor|]. simpl. lia.
  - destruct Ht as [(-> & Hf & Hk)|[Hf Hk]].
    + destruct (IH _ (f s) Hk) as (hs & H1 & H2); [done|]. exists hs. split; [done|].
      rewrite Hf in H2. rewrite Hs by done. simpl in *. lia.
    + destruct (IH _ (f s) Hk) as (hs & H1 & H2); [by rewrite Hf|]. exists hs. split; [done|]. by rewrite Hf in H2.
  - destruct (IH s) as [IHk IHt]. destruct (Ht s) as [Hk|(-> & Hb & Hk)]; [by apply IHk|].
    destruct (k s) as [|f k'| |]; [done| |done|done]. destruct Hk as [Hf Hk]. simpl.
    destruct (IHt _ (f s) Hk) as (hs & H1 & H2); [done|]. exists hs. split; [done|].
    rewrite Hf in H2. rewrite Hb. simpl in *. lia.
  - exists [h]. split; [by constructor|]. simpl. lia.
Qed.

Lemma advance_holding h t s :
  holding h t → (h = true → busy s = true) →
  ∃ hs, Forall2 holding hs (advance t s).2 ∧
        (sum_list_with Nat.b2n hs + Nat.b2n (busy s) = Nat.b2n h + Nat.b2n (busy (advance t s).1))%nat.
Proof. apply advance_accounted. Qed.

Lemma lock_start t p : takes_lock (now p) t → lock_inv p → lock_inv (start t p).
Proof.
  intros Ht (hs & Hw & Hn). unfold start. destruct Ht as [Ht|(Hb & f & k & -> & Hf & Hk)].
  - destruct (advance_holding false t (now p) Ht) as (hs' & H1 & H2); [done|].
    destruct (advance t (now p)) as [s ts]. simpl in *. exists (hs ++ hs'). split; [by apply Forall2_app|].
    cbn [now]. rewrite sum_list_with_app, Hn. lia.
  - destruct (advance_holding true k (f (now p)) Hk) as (hs' & H1 & H2); [done|]. simpl.
    destruct (advance k (f (now p))) as [s ts]. simpl in *. exists (hs ++ hs'). split; [by apply Forall2_app|].
    cbn [now]. rewrite sum_list_with_app, Hn, Hb. rewrite Hf in H2. simpl in *. lia.
Qed.

Lemma lock_proceed n c f r p :
  waiting p !! n = Some (Await c f) → lock_inv p → lock_inv (proceed n (f r) p).
Proof.
  intros Hk (hs & Hw & Hn). unfold proceed. rewrite <- (take_drop_middle _ _ _ Hk) in Hw.
  apply Forall2_app_inv_r in Hw as (h1 & h2 & H1 & H2 & ->). inv H2 as [|h ? h2' ? Hh H3].
  destruct Hh as [_ Hh]. rewrite sum_list_with_app in Hn. simpl in Hn.
  destruct (advance_holding h (f r) (now p) (Hh r)) as (hs' & H4 & H5).
  { intros ->. simpl in Hn. destruct (busy (now p)); [done|]. simpl in Hn. lia. }
  destruct (advance (f r) (now p)) as [s ts]. simpl in *. exists (h1 ++ hs' ++ h2').
  split; [by repeat apply Forall2_app|]. cbn [now]. rewrite !sum_list_with_app. lia.
Qed.

Lemma lock_idle s : busy s = false → lock_inv (idle s).
Proof. intros Hs. exists []. simpl. by rewrite Hs. Qed.

Lemma lock_reachable (event : S → task S C R → Prop) (admissible : S → ∀ c, R c → Prop) p q :
  (∀ s t, event s t → takes_lock s t) → lock_inv p → reachable_from event admissible p q → lock_inv q.
Proof. intros He. apply reachable_ind'; [eauto using lock_start|eauto using lock_proceed]. Qed.

(** At most one call of the lock is under way, and none while the flag is down. *)
Lemma lock_single p : lock_inv p → (length (filter mine (in_flight p)) ≤ Nat.b2n (busy (now p)))%nat.
Proof.
  intros (hs & Hw & <-). unfold in_flight. generalize (waiting p), hs, Hw. clear p hs Hw.
  intros w hs Hw. induction Hw as [|h t hs w Ht _ IH]; [done|]. cbn [sum_list_with].
  destruct t as [|?|?|c f]; [etrans; [exact IH|lia]..|]. destruct Ht as [Ht _].
  cbn [omap list_omap]. rewrite filter_cons. destruct (decide (mine c)) as [Hm|]; [|etrans; [exact IH|lia]].
  destruct h; [|by rewrite Ht in Hm]. cbn [length Nat.b2n Nat.add]. by apply le_n_S.
Qed.

Lemma single_from_idle (event : S → task S C R → Prop) (admissible : S → ∀ c, R c → Prop) s q :
  (∀ s t, event s t → takes_lock s t) → reachable_from event admissible (idle s) q → busy s = false →
  (length (filter mine (in_flight q)) ≤ Nat.b2n (busy (now q)))%nat.
Proof. intros He Hq Hs. eapply lock_single, lock_reachable; [done|by apply lock_idle|done]. Qed.

(** While the flag is up, one of the calls made under the lock is under way. *)
Lemma lock_held p :
  lock_inv p → only_awaits p → busy (now p) = true → ∃ n c f, waiting p !! n = Some (Await c f) ∧ own c = true.
Proof.
  intros (hs & Hw & Hn) Ha Hb. rewrite Hb in Hn. simpl in Hn. unfold only_awaits in Ha. revert Hw Ha Hn.
  generalize (waiting p). intros w Hw. induction Hw as [|h t hs w Ht _ IH]; intros Ha Hn; [done|].
  apply Forall_cons in Ha as [(c & f & ->) Ha]. destruct h.
  - exists 0%nat, c, f. split; [done|]. apply Ht.
  - destruct (IH Ha Hn) as (n & c' & f' & Hl & Hc). by exists (Datatypes.S n), c', f'.
Qed.

Lemma all_mine (l : list C) : (∀ c, mine c = true) → filter mine l = l.
Proof. intros Hm. induction l as [|c l IH]; [done|]. rewrite filter_cons_True by by rewrite Hm. by rewrite IH. Qed.
End Lock.

(** ** Against a real state

    The calls are performed on a state of their own, each when it is made. *)
Section Exec.
Context {S C X : Type} {R : C → Type} (perform : ∀ c, X → R c * X).

Fixpoint exec (t : task S C R) (s : S) (x : X) : S * X :=
  match t with
  | Finish => (s, x)
  | Update f k => exec k (f s) x
  | Look k => exec (k s) s x
  | Await c k => let '(r, x') := perform c x in exec (k r) s x'
  end.

Lemma exec_andThen t u s x : exec (andThen t u) s x = let '(s', x') := exec t s x in exec u s' x'.
Proof.
  revert s x. induction t as [|f k IH|k IH|c k IH]; intros s x; simpl; [done|auto|auto|]. destruct (perform c x) as [r x']. apply IH.
Qed.

(** Such a run is one of the runs of the pool. *)
Lemma exec_answers t s x :
  rtc answer (start t {| now := s; waiting := [] |}) {| now := (exec t s x).1; waiting := [] |}.
Proof.
  revert s x. induction t as [|f k IH|k IH|c k IH]; intros s x; [apply rtc_refl|apply (IH (f s))|apply (IH s s)|].
  simpl. destruct (perform c x) as [r x']. eapply rtc_l; [|apply (IH r s x')].
  exists 0%nat, c, k, r. split; [done|]. unfold start, proceed. simpl. destruct (advance (k r) s) as [s' ts]. simpl.
  by rewrite app_nil_r.
Qed.
End Exec.

(** [safe], [settles] and [holding] of a concrete handler: the outcomes a handler looks at
    are cases, an update lowers the flag, keeps it, or is followed by one that does. *)
Ltac flag_update := intros ?; first [done | by cbn | by cbn; intros].
Ltac safely :=
  cbn [safe];
  first
    [ done
    | intros ?; safely
    | case_match; safely
    | split; [first [done | intros ? Hkept; exact Hkept]|safely] ].
Ltac hold_with update :=
  cbn [holding];
  repeat (case_match || (progress intros); cbn [holding]);
  first
    [ done
    | left; split; [done|split; [update|hold_with update]]
    | right; split; [update|hold_with update]
    | left; hold_with update
    | split; [done|intros ?; hold_with update] ].
Ltac settle_with update :=
  cbn [settles];
  repeat (case_match || (progress intros); cbn [settles]);
  first
    [ done
    | left; split; [update|settle_with update]
    | right; left; split; [update|settle_with update]
    | right; right; settle_with update ].
Ltac hold := hold_with flag_update.
Ltac settle := settle_with flag_update.
End Async.
