(* ===== verification/SchoolGrades.v ===== *)
(** * wasm_programs/school_management/ui: the grades view and the page

    components/grades-view.tsx and app/page.tsx.  The handlers are tasks over
    the component's state; a handler reads the state captured by the render it
    was created in, which is an argument here.  The field [day] is today's date as
    the date part of [new Date().toISOString()]; it is the environment's. *)

From S2P Require Import Prelude JsValue Codec Json Platform SdkErrors SdkTypes Models SdkAuth SdkClient Browser.
From S2P Require Import ProgramCall SchoolClient SchoolViews Async.

Module Grades.
Import Errors Views Async.

(** ** app/page.tsx *)

Inductive View : Type := Vdashboard | Vstudents | Vteachers | Vcourses | Vgrades.

#[global] Instance View_eq_dec : EqDecision View.
Proof. solve_decision. Defined.

Record SchoolPage : Type := {
  currentView : View;
  sidebarOpen : bool;
}.

Definition navigation : list (View * jstr) :=
  [(Vdashboard, js "Dashboard"); (Vstudents, js "Students"); (Vteachers, js "Teachers");
   (Vcourses, js "Courses"); (Vgrades, js "Grades")].

Definition initial_page : SchoolPage := {| currentView := Vdashboard; sidebarOpen := false |}.

Definition navigate (v : View) (_ : SchoolPage) : SchoolPage := {| currentView := v; sidebarOpen := false |}.
Definition setSidebarOpen (b : bool) (p : SchoolPage) : SchoolPage :=
  {| currentView := currentView p; sidebarOpen := b |}.

(** The heading and the views that are mounted. *)
Definition SchoolPage_view (p : SchoolPage) : option jstr * list View :=
  (snd <$> List.find (λ n, bool_decide (n.1 = currentView p)) navigation,
   List.filter (λ v, bool_decide (currentView p = v)) [Vdashboard; Vstudents; Vteachers; Vcourses; Vgrades]).

(** ** The grades view *)

Record gview : Type := {
  grades : value;
  students : value;
  courses : value;
  loading : bool;
  searchQuery : jstr;
  isAddDialogOpen : bool;
  formData : form;
  logged : list jstr;
  day : jstr;
}.

Definition set_grades (x : value) (v : gview) : gview :=
  {| grades := x; students := students v; courses := courses v; loading := loading v; searchQuery := searchQuery v;
     isAddDialogOpen := isAddDialogOpen v; formData := formData v; logged := logged v; day := day v |}.
Definition set_students (x : value) (v : gview) : gview :=
  {| grades := grades v; students := x; courses := courses v; loading := loading v; searchQuery := searchQuery v;
     isAddDialogOpen := isAddDialogOpen v; formData := formData v; logged := logged v; day := day v |}.
Definition set_courses (x : value) (v : gview) : gview :=
  {| grades := grades v; students := students v; courses := x; loading := loading v; searchQuery := searchQuery v;
     isAddDialogOpen := isAddDialogOpen v; formData := formData v; logged := logged v; day := day v |}.
Definition set_loading (b : bool) (v : gview) : gview :=
  {| grades := grades v; students := students v; courses := courses v; loading := b; searchQuery := searchQuery v;
     isAddDialogOpen := isAddDialogOpen v; formData := formData v; logged := logged v; day := day v |}.
Definition set_query (q : jstr) (v : gview) : gview :=
  {| grades := grades v; students := students v; courses := courses v; loading := loading v; searchQuery := q;
     isAddDialogOpen := isAddDialogOpen v; formData := formData v; logged := logged v; day := day v |}.
Definition set_dialog (b : bool) (v : gview) : gview :=
  {| grades := grades v; students := students v; courses := courses v; loading := loading v;
     searchQuery := searchQuery v; isAddDialogOpen := b; formData := formData v; logged := logged v; day := day v |}.
Definition set_form (f : form) (v : gview) : gview :=
  {| grades := grades v; students := students v; courses := courses v; loading := loading v;
     searchQuery := searchQuery v; isAddDialogOpen := isAddDialogOpen v; formData := f; logged := logged v; day := day v |}.
Definition log (m : string) (v : gview) : gview :=
  {| grades := grades v; students := students v; courses := courses v; loading := loading v;
     searchQuery := searchQuery v; isAddDialogOpen := isAddDialogOpen v; formData := formData v;
     logged := logged v ++ [js m]; day := day v |}.

(** The calls of the client the view makes. *)
Inductive request : Type :=
| ListStudents
| ListCourses
| GetStudentGrades (id : value)
| AssignGrade (grade : value).

Abbreviation handler := (task gview request (λ _, outcome exn value)).

(** [a === b] for values read from different JSON texts. *)
Definition strict_eq (a b : value) : bool :=
  match a, b with
  | VUndef, VUndef | VNull, VNull => true
  | VBool x, VBool y => Bool.eqb x y
  | VNum NNaN, VNum _ => false
  | VNum x, VNum y => bool_decide (x = y)
  | VStr x, VStr y => str_eqb x y
  | _, _ => false
  end.

(** [v.length === 0] and [v.length > 0]; what else an answer may hold has no length. *)
Definition no_items (v : value) : bool := match v with VArr [] | VStr [] => true | _ => false end.
Definition some_items (v : value) : bool := match v with VArr (_ :: _) | VStr (_ :: _) => true | _ => false end.

Section Handlers.
Context `{Engine} `{CaseMap}.

(** The element [find] returns. *)
Fixpoint find_id (id : value) (l : list value) : outcome exn (option value) :=
  match l with
  | [] => Ok None
  | x :: r => let! i := get x (js "id") in if strict_eq i id then Ok (Some x) else find_id id r
  end.

(** [v.find(x => x.id === id)]. *)
Definition find_in (v : value) (id : value) : outcome exn (option value) :=
  match v with VArr l => find_id id l | _ => type_error (js "find") end.

(** [info?.name || fallback]. *)
Definition name_or (info : option value) (fallback : jstr) : outcome exn value :=
  match info with
  | None => Ok (VStr fallback)
  | Some x => let! n := get x (js "name") in Ok (js_or n (VStr fallback))
  end.

(** The members of [{...v}]. *)
Definition spread (v : value) : form := match v with VObj fs => fs | _ => [] end.

(** A grade with the names of its student and course. *)
Definition annotate (currentStudents currentCourses : value) (grade : value) : outcome exn value :=
  let! sid := get grade (js "student_id") in
  let! studentInfo := find_in currentStudents sid in
  let! cid := get grade (js "course_id") in
  let! courseInfo := find_in currentCourses cid in
  let! studentName := name_or studentInfo (js "Unknown Student") in
  let! courseName := name_or courseInfo (js "Unknown Course") in
  Ok (VObj (obj_set (js "courseName") courseName (obj_set (js "studentName") studentName (spread grade)))).

(** The code points of a string, surrogate pairs kept together. *)
Fixpoint characters (s : jstr) : list jstr :=
  match s with
  | [] => []
  | c :: r =>
      match r with
      | d :: r' => if is_high c && is_low d then [c; d] :: characters r' else [c] :: characters r
      | [] => [[c]]
      end
  end.

(** The elements [for ... of] visits. *)
Definition elements (v : value) : outcome exn (list value) :=
  match v with
  | VArr l => Ok l
  | VStr s => Ok (map VStr (characters s))
  | _ => type_error (js "iterable")
  end.

(** [fetchStudents] and [fetchCourses] with the state they store into. *)
Definition fetch_into (c : request) (store : value → gview → gview) (message : string) : handler :=
  Await c (λ r, match answered r with
                | Ok (Some data) => Update (store data) Finish
                | Ok None => Finish
                | Throw _ => Update (log message) Finish
                end).

Definition fetchStudents : handler := fetch_into ListStudents set_students "Failed to fetch students:".
Definition fetchCourses : handler := fetch_into ListCourses set_courses "Failed to fetch courses:".

(** The [catch] and [finally] blocks of [fetchGrades]. *)
Definition grades_done : handler := Update (set_loading false) Finish.
Definition grades_failed : handler := Update (log "Failed to fetch grades:") grades_done.

(** Go on with the result of code that may throw. *)
Definition attempt {A} (o : outcome exn A) (k : A → handler) : handler :=
  match o with Ok a => k a | Throw _ => grades_failed end.

(** The loop over the students. *)
Fixpoint grades_loop (currentStudents currentCourses : value) (todo allGrades : list value) : handler :=
  match todo with
  | [] => Update (set_grades (VArr allGrades)) grades_done
  | student :: rest =>
      attempt (get student (js "id")) (λ id,
        Await (GetStudentGrades id) (λ r,
          attempt (answered r) (λ data,
            match data with
            | None => grades_loop currentStudents currentCourses rest allGrades
            | Some d =>
                attempt (let! l := js_map d (annotate currentStudents currentCourses) in elements l) (λ studentGrades,
                  grades_loop currentStudents currentCourses rest (allGrades ++ studentGrades))
            end)))
  end.

(** [xs.length > 0 ? xs : (await client.list()).data || []]. *)
Definition current (captured : value) (c : request) (k : value → handler) : handler :=
  if some_items captured then k captured
  else Await c (λ r, attempt (let! response := r in
                              let! data := get response (js "data") in Ok (js_or data (VArr []))) k).

(** [captured] is the view of the render that created the handler. *)
Definition fetchGrades (captured : gview) : handler :=
  Update (set_loading true)
    (andThen (if no_items (students captured) then fetchStudents else Finish)
      (andThen (if no_items (courses captured) then fetchCourses else Finish)
        (current (students captured) ListStudents (λ ss,
          current (courses captured) ListCourses (λ cs,
            attempt (elements ss) (λ l, grades_loop ss cs l [])))))).

(** The grade that is sent; [now] is [Date.now()]. *)
Definition newGrade (now : Z) (f : form) : option value :=
  if truthy (field f "student_id") && truthy (field f "course_id") && truthy (field f "score") then
    Some (VObj [ (js "id", VStr (Z_to_str now)); (js "student_id", field f "student_id");
                 (js "course_id", field f "course_id"); (js "score", field f "score"); (js "date", field f "date") ])
  else None.

Definition handleAddGrade (now : Z) (captured : gview) : handler :=
  match newGrade now (formData captured) with
  | None => Finish
  | Some g =>
      Await (AssignGrade g) (λ r,
        match (let! response := r in succeeded response) with
        | Ok true =>
            andThen (fetchGrades captured)
              (Update (set_dialog false) (Update (λ v, set_form [(js "date", VStr (day v))] v) Finish))
        | Ok false | Throw _ => Update (log "Failed to assign grade:") Finish
        end)
  end.

(** First render and effect; [d] is today's date then. *)
Definition first_render (d : jstr) : gview :=
  {| grades := VArr []; students := VArr []; courses := VArr []; loading := true; searchQuery := [];
     isAddDialogOpen := false; formData := [(js "date", VStr d)]; logged := []; day := d |}.

Definition mount (d : jstr) : pool gview request (λ _, outcome exn value) :=
  let v := first_render d in
  start fetchCourses (start fetchStudents (start (fetchGrades v) {| now := v; waiting := [] |})).
End Handlers.

(** ** What is rendered *)

Definition num_ge (n : num) (z : Z) : bool :=
  match n with
  | NInt a => z <=? a
  | NFrac m k => z * 10 ^ Zpos k <=? m
  | NNaN => false
  end.

Inductive color : Type := Emerald | Blue | Amber | Red.

Definition getGradeColor (score : num) : color :=
  if num_ge score 90 then Emerald
  else if num_ge score 80 then Blue
  else if num_ge score 70 then Amber
  else Red.

Definition getGradeLetter (score : num) : jstr :=
  if num_ge score 90 then js "A"
  else if num_ge score 80 then js "B"
  else if num_ge score 70 then js "C"
  else if num_ge score 60 then js "D"
  else js "F".

(** [new Date(date).toLocaleDateString()]: the platform's. *)
Class Locale : Type := toLocaleDateString : value → jstr.

Section Rendering.
Context `{Engine} `{CaseMap} `{Locale}.

(** [x.k?.toLowerCase().includes(q)]. *)
Definition found_in (q : jstr) (x : value) (k : string) : outcome exn bool :=
  let! v := get x (js k) in
  match v with
  | VUndef | VNull => Ok false
  | _ => let! s := lower v in Ok (includes q s)
  end.

Definition grade_found (q : jstr) (grade : value) : outcome exn bool :=
  let! b := found_in q grade "studentName" in
  if b then Ok true else found_in q grade "courseName".

(** A score as a number; [Grade] has no other. *)
Definition score_of (v : value) : num := match v with VNum n => n | _ => NNaN end.

Definition grade_row (grade : value) : outcome exn (list jstr * color) :=
  let! studentName := get grade (js "studentName") in
  let! mark := initials (js_or studentName (VStr (js "?"))) in
  let! shownName := child studentName in
  let! courseName := child_of grade "courseName" in
  let! score := get grade (js "score") in
  let! shownScore := child score in
  let! date := get grade (js "date") in
  Ok ([mark; shownName; courseName; shownScore ++ js "%"; getGradeLetter (score_of score); toLocaleDateString date],
      getGradeColor (score_of score)).

(** The options of a select: value and text. *)
Definition options (v : value) : outcome exn value :=
  js_map v (λ x, let! id := get x (js "id") in let! name := child_of x "name" in
                 Ok (VArr [id; VStr name])).

Inductive page : Type :=
| LoadingPage
| GradesPage (rows : list (list jstr * color)) (dialog : option (value * value * list value)).

(** The dialog's selects, and the values of its four fields. *)
Definition dialog (v : gview) : outcome exn (value * value * list value) :=
  let! ss := options (students v) in
  let! cs := options (courses v) in
  Ok (ss, cs, [ js_or (field (formData v) "student_id") (VStr []); js_or (field (formData v) "course_id") (VStr []);
                js_or (field (formData v) "score") (VStr []); js_or (field (formData v) "date") (VStr (day v)) ]).

Definition render (v : gview) : outcome exn page :=
  let! shown := js_filter (grades v) (grade_found (toLowerCase (searchQuery v))) in
  if loading v then Ok LoadingPage
  else
    let! rows := traverse grade_row shown in
    if isAddDialogOpen v then let! d := dialog v in Ok (GradesPage rows (Some d))
    else Ok (GradesPage rows None).

(** ** Events *)

Definition inputs : list (string * input_kind) :=
  [("student_id", TextInput); ("course_id", TextInput); ("score", NumberInput); ("date", TextInput)]%string.

Definition event (f : gview → gview) (p : pool gview request (λ _, outcome exn value)) : pool gview request (λ _, outcome exn value) :=
  {| now := f (now p); waiting := waiting p |}.

Definition onChange (k : string) (kind : input_kind) (text : jstr) (v : gview) : gview :=
  set_form (obj_set (js k) (input_value kind text) (formData v)) v.

Definition set_day (d : jstr) (v : gview) : gview :=
  {| grades := grades v; students := students v; courses := courses v; loading := loading v;
     searchQuery := searchQuery v; isAddDialogOpen := isAddDialogOpen v; formData := formData v;
     logged := logged v; day := d |}.

(** The outcomes of calls that [possible] leaves. *)
Inductive step (possible : request → outcome exn value → Prop) :
    pool gview request (λ _, outcome exn value) → pool gview request (λ _, outcome exn value) → Prop :=
| step_search q p : loading (now p) = false → step possible p (event (set_query q) p)
| step_dialog b p : loading (now p) = false → step possible p (event (set_dialog b) p)
| step_input k kind text p :
    loading (now p) = false → isAddDialogOpen (now p) = true → In (k, kind) inputs →
    step possible p (event (onChange k kind text) p)
| step_add t p :
    loading (now p) = false → isAddDialogOpen (now p) = true → step possible p (start (handleAddGrade t (now p)) p)
| step_day d p : step possible p (event (set_day d) p)
| step_answer k c f r p :
    waiting p !! k = Some (Await c f) → possible c r → step possible p (proceed k (f r) p).
End Rendering.

(** ** What a refresh computes *)

(** A member of an object, and the name of the entry with an id. *)
Definition member (x : value) (k : string) : value := default VUndef (obj_get (js k) (spread x)).

Definition name_of (l : list value) (id : value) (fallback : jstr) : value :=
  match List.find (λ x, strict_eq (member x "id") id) l with
  | Some x => js_or (member x "name") (VStr fallback)
  | None => VStr fallback
  end.

(** A grade as the table shows it. *)
Definition named_grade (ss cs : list value) (g : value) : value :=
  VObj (obj_set (js "courseName") (name_of cs (member g "course_id") (js "Unknown Course"))
         (obj_set (js "studentName") (name_of ss (member g "student_id") (js "Unknown Student")) (spread g))).

Definition is_object (v : value) : bool := match v with VObj _ => true | _ => false end.

Definition success (data : value) : value := VObj [(js "status", VStr (js "success")); (js "data", data)].

Section Refresh.
Context `{Engine} `{CaseMap}.

Lemma get_member x k : is_object x = true → get x (js k) = Ok (member x k).
Proof. by destruct x. Qed.

Lemma find_id_spec id l :
  forallb is_object l = true → find_id id l = Ok (List.find (λ x, strict_eq (member x "id") id) l).
Proof.
  induction l as [|x l IH]; [done|]. cbn [forallb find_id List.find]. intros [Hx Hl]%andb_prop.
  rewrite (get_member x "id" Hx). cbn [outcome_bind].
  destruct (strict_eq _ _); [done|by apply IH].
Qed.

Lemma name_or_spec l id fallback :
  forallb is_object l = true →
  name_or (List.find (λ x, strict_eq (member x "id") id) l) fallback = Ok (name_of l id fallback).
Proof.
  intros Hl. unfold name_of. destruct (List.find _ l) as [x|] eqn:Hf; [|done]. cbn [name_or].
  apply List.find_some in Hf as [Hin _]. rewrite forallb_forall in Hl. by rewrite (get_member x "name" (Hl x Hin)).
Qed.

Lemma annotate_spec ss cs g :
  forallb is_object ss = true → forallb is_object cs = true → is_object g = true →
  annotate (VArr ss) (VArr cs) g = Ok (named_grade ss cs g).
Proof.
  intros Hs Hc Hg. unfold annotate. rewrite (get_member g "student_id" Hg). cbn [outcome_bind find_in].
  rewrite find_id_spec by done. cbn [outcome_bind]. rewrite (get_member g "course_id" Hg). cbn [outcome_bind find_in].
  rewrite find_id_spec by done. cbn [outcome_bind]. rewrite !name_or_spec by done. done.
Qed.

Lemma annotate_all ss cs l :
  forallb is_object ss = true → forallb is_object cs = true → forallb is_object l = true →
  js_map (VArr l) (annotate (VArr ss) (VArr cs)) = Ok (VArr (map (named_grade ss cs) l)).
Proof.
  intros Hs Hc Hl. cbn [js_map]. assert (traverse (annotate (VArr ss) (VArr cs)) l = Ok (map (named_grade ss cs) l)) as ->; [|done].
  induction l as [|g l IH]; [done|]. simpl in *. apply andb_prop in Hl as [Hg Hl].
  rewrite annotate_spec by done. cbn [outcome_bind]. by rewrite IH.
Qed.

Lemma answered_success d : truthy d = true → answered (Ok (success d)) = Ok (Some d).
Proof. intros Hd. unfold answered, succeeded, success. simpl. by rewrite Hd. Qed.

Context (ans : request → outcome exn value) (ss cs : list value) (gradesOf : value → list value).
Context (Hss : ans ListStudents = Ok (success (VArr ss))) (Hcs : ans ListCourses = Ok (success (VArr cs))).
Context (Hgs : ∀ id, ans (GetStudentGrades id) = Ok (success (VArr (gradesOf id)))).
Context (Hs : forallb is_object ss = true) (Hc : forallb is_object cs = true).
Context (Hg : ∀ id, forallb is_object (gradesOf id) = true).

Definition expected (todo : list value) : list value :=
  flat_map (λ s, map (named_grade ss cs) (gradesOf (member s "id"))) todo.

Lemma loop_run todo acc v :
  forallb is_object todo = true →
  run ans (grades_loop (VArr ss) (VArr cs) todo acc) v = set_loading false (set_grades (VArr (acc ++ expected todo)) v) ∧
  calls ans (grades_loop (VArr ss) (VArr cs) todo acc) v = map (λ s, GetStudentGrades (member s "id")) todo.
Proof.
  revert acc. induction todo as [|s todo IH]; intros acc Ht; [by rewrite app_nil_r|].
  cbn [forallb] in Ht. apply andb_prop in Ht as [Hsx Ht]. cbn [grades_loop]. rewrite (get_member s "id" Hsx).
  cbn [attempt run calls]. rewrite Hgs, answered_success by done. cbn [attempt].
  rewrite annotate_all by auto. cbn [outcome_bind elements attempt].
  destruct (IH (acc ++ map (named_grade ss cs) (gradesOf (member s "id"))) Ht) as [-> ->].
  unfold expected. cbn [flat_map map]. by rewrite app_assoc.
Qed.

Lemma fetch_into_run c store message d v :
  ans c = Ok (success (VArr d)) →
  run ans (fetch_into c store message) v = store (VArr d) v ∧ calls ans (fetch_into c store message) v = [c].
Proof. intros Hd. unfold fetch_into. cbn [run calls]. by rewrite Hd, answered_success. Qed.

Lemma current_run c d k v :
  ans c = Ok (success (VArr d)) →
  run ans (current (VArr []) c k) v = run ans (k (VArr d)) v ∧
  calls ans (current (VArr []) c k) v = c :: calls ans (k (VArr d)) v.
Proof. intros Hd. unfold current. cbn [some_items run calls]. by rewrite Hd. Qed.

Lemma refresh_run captured v :
  students captured = VArr [] → courses captured = VArr [] →
  run ans (fetchGrades captured) v =
    set_loading false (set_grades (VArr (expected ss))
      (set_courses (VArr cs) (set_students (VArr ss) (set_loading true v)))) ∧
  calls ans (fetchGrades captured) v =
    [ListStudents; ListCourses; ListStudents; ListCourses] ++ map (λ s, GetStudentGrades (member s "id")) ss.
Proof.
  intros Hs0 Hc0. unfold fetchGrades. rewrite Hs0, Hc0. cbn [no_items run calls].
  rewrite !run_andThen, !calls_andThen. unfold fetchStudents, fetchCourses.
  destruct (fetch_into_run ListStudents set_students "Failed to fetch students:" ss (set_loading true v) Hss) as [-> ->].
  destruct (fetch_into_run ListCourses set_courses "Failed to fetch courses:" cs
              (set_students (VArr ss) (set_loading true v)) Hcs) as [-> ->].
  destruct (current_run ListStudents ss (λ x, current (VArr []) ListCourses (λ y,
    attempt (elements x) (λ l, grades_loop x y l []))) (set_courses (VArr cs) (set_students (VArr ss) (set_loading true v))) Hss)
    as [-> ->].
  destruct (current_run ListCourses cs (λ y, attempt (elements (VArr ss)) (λ l, grades_loop (VArr ss) y l []))
              (set_courses (VArr cs) (set_students (VArr ss) (set_loading true v))) Hcs) as [-> ->].
  cbn [elements attempt].
  destruct (loop_run ss [] (set_courses (VArr cs) (set_students (VArr ss) (set_loading true v))) Hs) as [-> ->]. done.
Qed.
End Refresh.

(** A refresh of the grades view ends, whatever the number of students, with
    the spinner off and, for every student in order, that student's grades with
    the names of the student and the course looked up by id; it calls the program
    once per student and, because the handler reads the lists of an old render,
    fetches both lists twice. *)
Theorem grades_refresh `{Engine} `{CaseMap} (ans : request → outcome exn value) (ss cs : list value)
    (gradesOf : value → list value) (captured v : gview) :
  ans ListStudents = Ok (success (VArr ss)) → ans ListCourses = Ok (success (VArr cs)) →
  (∀ id, ans (GetStudentGrades id) = Ok (success (VArr (gradesOf id)))) →
  forallb is_object ss = true → forallb is_object cs = true → (∀ id, forallb is_object (gradesOf id) = true) →
  students captured = VArr [] → courses captured = VArr [] →
  let final := run ans (fetchGrades captured) v in
  loading final = false ∧ students final = VArr ss ∧ courses final = VArr cs ∧
  grades final = VArr (flat_map (λ s, map (named_grade ss cs) (gradesOf (member s "id"))) ss) ∧
  calls ans (fetchGrades captured) v =
    [ListStudents; ListCourses; ListStudents; ListCourses] ++ map (λ s, GetStudentGrades (member s "id")) ss ∧
  ∃ n, Nat.iter n (λ p, match waiting p with Await c _ :: _ => resume 0 ans p | _ => p end)
         (start (fetchGrades captured) {| now := v; waiting := [] |}) = {| now := final; waiting := [] |}.
Proof.
  intros Hss Hcs Hgs Hs Hc Hg Hs0 Hc0 final. subst final.
  destruct (refresh_run ans ss cs gradesOf Hss Hcs Hgs Hs Hc Hg captured v Hs0 Hc0) as [Hrun Hcalls].
  pose proof (resume_run ans (fetchGrades captured) v) as Hn. rewrite Hcalls, Hrun in *. done.
Qed.

Definition demo_answers (c : request) : outcome exn value :=
  match c with
  | ListStudents => Ok (success (VArr [VObj [(js "id", VStr (js "s")); (js "name", VStr (js "Ann"))]]))
  | ListCourses => Ok (success (VArr [VObj [(js "id", VStr (js "c")); (js "name", VStr (js "Art"))]]))
  | _ => Ok (success (VArr [VObj [(js "student_id", VStr (js "s")); (js "course_id", VStr (js "c"))]]))
  end.

Lemma grades_refresh_witness :
  grades (run demo_answers (@fetchGrades Models.engine (first_render [])) (first_render [])) =
  VArr [VObj [(js "student_id", VStr (js "s")); (js "course_id", VStr (js "c"));
              (js "studentName", VStr (js "Ann")); (js "courseName", VStr (js "Art"))]].
Proof.
  destruct (@grades_refresh Models.engine ascii_case demo_answers
    [VObj [(js "id", VStr (js "s")); (js "name", VStr (js "Ann"))]]
    [VObj [(js "id", VStr (js "c")); (js "name", VStr (js "Art"))]]
    (λ _, [VObj [(js "student_id", VStr (js "s")); (js "course_id", VStr (js "c"))]])
    (first_render []) (first_render []) eq_refl eq_refl (λ _, eq_refl) eq_refl eq_refl (λ _, eq_refl) eq_refl eq_refl)
    as (_ & _ & _ & -> & _). reflexivity.
Defined.

(** Assigning a grade sends the chosen student, course, score and date exactly
    when all are chosen and the score is not zero: a score of zero, which the input
    allows, is silently not assigned. *)
Theorem zero_score_ignored `{Engine} `{CaseMap} (t score : Z) (student course : jstr) (v : gview) :
  student ≠ [] → course ≠ [] →
  field (formData v) "student_id" = VStr student → field (formData v) "course_id" = VStr course →
  let v' := onChange "score" NumberInput (Z_to_str score) v in
  if score =? 0 then handleAddGrade t v' = Finish
  else ∃ k, handleAddGrade t v' = Await (AssignGrade (VObj [
         (js "id", VStr (Z_to_str t)); (js "student_id", VStr student); (js "course_id", VStr course);
         (js "score", vint score); (js "date", field (formData v) "date") ])) k.
Proof.
  intros Hs Hc Hfs Hfc v'. unfold handleAddGrade, newGrade. subst v'. cbn [onChange formData set_form].
  assert (∀ k, k ≠ "score"%string → field (obj_set (js "score") (input_value NumberInput (Z_to_str score)) (formData v)) k
                                   = field (formData v) k) as Hne.
  { intros k Hk. unfold field. rewrite obj_get_set_ne; [done|]. intros Heq%js_inj. done. }
  rewrite (Hne "student_id"%string), (Hne "course_id"%string), (Hne "date"%string), Hfs, Hfc by done.
  assert (field (obj_set (js "score") (input_value NumberInput (Z_to_str score)) (formData v)) "score" = vint score) as ->.
  { unfold field. rewrite obj_get_set. cbn [input_value default]. by rewrite parse_int_Z_to_str. }
  destruct student as [|a student], course as [|b course]; try congruence.
  destruct (Z.eqb_spec score 0) as [->|Hz]; [done|].
  assert (truthy (vint score) = true) as Ht by by destruct score. rewrite Ht. cbn [truthy andb]. eexists. reflexivity.
Qed.

Lemma zero_score_ignored_witness :
  @handleAddGrade Models.engine 1 (onChange "score" NumberInput (Z_to_str 0)
    (set_form [(js "student_id", VStr (js "s")); (js "course_id", VStr (js "c"))] (first_render []))) = Finish.
Proof.
  apply (@zero_score_ignored Models.engine ascii_case 1 0 (js "s") (js "c")
    (set_form [(js "student_id", VStr (js "s")); (js "course_id", VStr (js "c"))] (first_render [])));
    try reflexivity; discriminate.
Defined.
End Grades.
