(* ===== verification/SchoolDashboard.v ===== *)
(** * wasm_programs/school_management/ui: the dashboard

    components/dashboard-view.tsx: the figures it computes from the program's lists,
    in binary64 where the source divides, the recent activity, and what it renders.
    The data of a list response are an array or absent, as the client's types say. *)

From Stdlib Require Import SpecFloat.
From S2P Require Import Prelude JsValue Codec Json RustLib Binary64 SerdeWire GoLib WasmHost SchoolProgram SchoolStore SchoolRules.
From S2P Require Import Platform SdkErrors Models Browser ProgramCall SchoolClient SchoolViews SchoolWire Async SchoolGrades.
From S2P Require Import RustModels SchoolDemo.

Module Dashboard.
Import Errors Views Async.
Import Grades(find_in, find_id, elements, score_of, member, is_object).
Import Rust(f64, f64_add, f64_sub, f64_mul, f64_div, f64_of_Z).

(** ** Numbers *)

(** The number nearest to [a / b], for [b > 0]. *)
Definition nearest_quotient (a b : Z) : f64 :=
  match a, b with
  | Zpos p, Zpos q => f64_div (S754_finite false p 0) (S754_finite false q 0)
  | Zneg p, Zpos q => f64_div (S754_finite true p 0) (S754_finite false q 0)
  | _, _ => S754_zero false
  end.

Definition f64_of_num (n : num) : f64 :=
  match n with
  | NInt z => f64_of_Z z
  | NFrac m k => nearest_quotient m (10 ^ Zpos k)
  | NNaN => S754_nan
  end.

(** [x] times [c], to the nearest integer, halves upwards. *)
Definition scaled_round (sign : bool) (m : positive) (e c : Z) : Z :=
  let z := (if sign then Zneg m else Zpos m) * c in
  if 0 <=? e then z * 2 ^ e else (2 * z + 2 ^ (- e)) / (2 * 2 ^ (- e)).

(** The fewest digits after the point that identify [x], trying [k] and more. *)
Fixpoint shortest (fuel : nat) (k : Z) (sign : bool) (m : positive) (e : Z) : num :=
  match fuel with
  | 0%nat => NNaN
  | S fuel =>
      let d := scaled_round sign m e (10 ^ k) in
      if SFeqb (nearest_quotient d (10 ^ k)) (S754_finite sign m e)
      then match k with Zpos p => NFrac d p | _ => NInt d end
      else shortest fuel (k + 1) sign m e
  end.

(** [`${x}`], for numbers between 1/10 and 2^53, for which twenty digits after the point
    are enough. *)
Definition number_text (x : f64) : jstr :=
  match x with
  | S754_nan => js "NaN"
  | S754_infinity false => js "Infinity"
  | S754_infinity true => js "-Infinity"
  | S754_zero _ => js "0"
  | S754_finite sign m e => num_to_str (shortest 20 0 sign m e)
  end.

(** [Math.round(x)]. *)
Definition Math_round (x : f64) : f64 :=
  match x with S754_finite sign m e => f64_of_Z (scaled_round sign m e 1) | _ => x end.

(** [Math.min] and [Math.max] of two numbers. *)
Definition Math_min (x y : f64) : f64 :=
  match SFcompare x y with None => S754_nan | Some Gt => y | _ => x end.
Definition Math_max (x y : f64) : f64 :=
  match SFcompare x y with None => S754_nan | Some Lt => y | _ => x end.

Definition f64_of_nat (n : nat) : f64 := f64_of_Z (Z.of_nat n).

(** ** State *)

Record stat : Type := {
  title : jstr;
  stat_value : jstr;
  change : jstr;
}.

Record activity : Type := {
  act_student : value;
  action : jstr;
  time : jstr;
}.

Record dashboard : Type := {
  stats : list stat;
  recentActivity : list activity;
  quickStats : list (jstr * jstr);
  logged : list jstr;
}.

Definition set_stats (x : list stat) (d : dashboard) : dashboard :=
  {| stats := x; recentActivity := recentActivity d; quickStats := quickStats d; logged := logged d |}.
Definition set_activity (x : list activity) (d : dashboard) : dashboard :=
  {| stats := stats d; recentActivity := x; quickStats := quickStats d; logged := logged d |}.
Definition set_quick (x : list (jstr * jstr)) (d : dashboard) : dashboard :=
  {| stats := stats d; recentActivity := recentActivity d; quickStats := x; logged := logged d |}.
Definition log (m : string) (d : dashboard) : dashboard :=
  {| stats := stats d; recentActivity := recentActivity d; quickStats := quickStats d; logged := logged d ++ [js m] |}.

Definition stat_of (t : string) (v : jstr) : stat := {| title := js t; stat_value := v; change := js "+0%" |}.

Definition initial : dashboard :=
  {| stats := [stat_of "Total Students" (js "0"); stat_of "Total Teachers" (js "0"); stat_of "Active Courses" (js "0");
               stat_of "Average Grade" (js "0%")];
     recentActivity := [];
     quickStats := [(js "Students enrolled this week", js "0"); (js "Assignments graded", js "0");
                    (js "Course completion rate", js "0%"); (js "Average attendance", js "0%")];
     logged := [] |}.

(** ** fetchStats *)

(** The calls of the client. *)
Inductive request : Type :=
| ListStudents
| ListTeachers
| ListCourses
| GetCourseGrades (id : value).

Abbreviation handler := (task dashboard request (λ _, outcome exn value)).

(** The counters of the first loop. *)
Record tally : Type := {
  gradeSum : f64;
  totalGrades : nat;
  assignmentsGraded : nat;
}.

Definition no_grades : tally := {| gradeSum := S754_zero false; totalGrades := 0; assignmentsGraded := 0 |}.

Definition averageGrade (t : tally) : f64 :=
  if (0 <? totalGrades t)%nat then Math_round (f64_div (gradeSum t) (f64_of_nat (totalGrades t))) else S754_zero false.

Definition completion_rate (graded courses students : nat) : jstr :=
  if (0 <? courses)%nat
  then number_text (Math_round (f64_mul (f64_div (f64_of_nat graded) (f64_mul (f64_of_nat courses) (f64_of_nat (Nat.max 1 students))))
                                        (f64_of_Z 100))) ++ js "%"
  else js "0%".

Definition attendance (students : nat) : jstr :=
  number_text (Math_min (f64_of_Z 100)
    (Math_max (S754_zero false) (f64_sub (f64_of_Z 95) (f64_div (f64_of_nat students) (f64_of_Z 10))))) ++ js "%".

Definition nat_text (n : nat) : jstr := Z_to_str (Z.of_nat n).

Definition stats_of (students teachers courses : nat) (t : tally) : list stat :=
  [stat_of "Total Students" (nat_text students); stat_of "Total Teachers" (nat_text teachers);
   stat_of "Active Courses" (nat_text courses); stat_of "Average Grade" (number_text (averageGrade t) ++ js "%")].

Definition quick_of (students courses : nat) (t : tally) : list (jstr * jstr) :=
  [(js "Students enrolled this week", nat_text students); (js "Assignments graded", nat_text (assignmentsGraded t));
   (js "Course completion rate", completion_rate (assignmentsGraded t) courses students);
   (js "Average attendance", attendance students)].

Section Handlers.
Context `{Engine} `{CaseMap}.

(** The [catch] block around what throws. *)
Definition attempt {A} (o : outcome exn A) (k : A → handler) : handler :=
  match o with Ok a => k a | Throw _ => Update (log "Failed to fetch stats:") Finish end.

(** The items of a list response: none when it was not successful or has no data. *)
Definition items (data : option value) : outcome exn (list value) :=
  match data with None => Ok [] | Some d => elements d end.

(** [await] of a list and its items. *)
Definition fetch (c : request) (k : list value → handler) : handler :=
  Await c (λ r, attempt (let! data := answered r in items data) k).

(** The loop over the grades of a course. *)
Fixpoint count_grades (grades : list value) (t : tally) : outcome exn tally :=
  match grades with
  | [] => Ok t
  | grade :: rest =>
      let! score := get grade (js "score") in
      count_grades rest {| gradeSum := f64_add (gradeSum t) (f64_of_num (score_of score));
                           totalGrades := S (totalGrades t); assignmentsGraded := S (assignmentsGraded t) |}
  end.

Fixpoint sum_loop (courses : list value) (t : tally) (k : tally → handler) : handler :=
  match courses with
  | [] => k t
  | course :: rest =>
      attempt (get course (js "id")) (λ id,
        fetch (GetCourseGrades id) (λ grades,
          attempt (count_grades grades t) (λ t, sum_loop rest t k)))
  end.

Definition enrolled_item (student : value) : outcome exn activity :=
  let! name := get student (js "name") in
  Ok {| act_student := name; action := js "Enrolled in school"; time := js "Recently" |}.

(** The item of a grade; [students] is absent when their list is. *)
Definition grade_item (students : option value) (grade : value) : outcome exn (list activity) :=
  match students with
  | None => Ok []
  | Some l =>
      let! sid := get grade (js "student_id") in
      let! student := find_in l sid in
      match student with
      | None => Ok []
      | Some s =>
          let! name := get s (js "name") in
          let! score := get grade (js "score") in
          Ok [{| act_student := name; action := js "Received grade " ++ to_string_prim score ++ js " in course"; time := js "Recently" |}]
      end
  end.

Fixpoint activity_loop (students : option value) (courses : list value) (acts : list activity) (k : list activity → handler) : handler :=
  match courses with
  | [] => k acts
  | course :: rest =>
      attempt (get course (js "id")) (λ id,
        fetch (GetCourseGrades id) (λ grades,
          attempt (traverse (grade_item students) (take 2 grades)) (λ added,
            activity_loop students rest (acts ++ concat added) k)))
  end.

Definition fetchStats : handler :=
  Await ListStudents (λ r,
    attempt (let! data := answered r in let! l := items data in Ok (data, l)) (λ '(students, ss),
      fetch ListTeachers (λ ts,
        fetch ListCourses (λ cs,
          sum_loop cs no_grades (λ t,
            Update (set_stats (stats_of (length ss) (length ts) (length cs) t))
              (attempt (traverse enrolled_item (take 2 ss)) (λ acts,
                activity_loop students cs acts (λ acts,
                  Update (set_activity (take 4 acts))
                    (Update (set_quick (quick_of (length ss) (length cs) t)) Finish))))))))).

(** The effect of the first render. *)
Definition mount : pool dashboard request (λ _, outcome exn value) := start fetchStats (idle initial).

(** ** What is rendered *)

Definition activity_row (a : activity) : outcome exn (list jstr) :=
  let! mark := initials (act_student a) in
  let! name := child (act_student a) in
  Ok [mark; name; action a; time a].

(** The stats, the recent activity and the quick stats. *)
Definition render (d : dashboard) : outcome exn (list (list jstr) * list (list jstr) * list (jstr * jstr)) :=
  let! rows := traverse activity_row (recentActivity d) in
  Ok (map (λ s, [title s; stat_value s; change s ++ js " from last month"]) (stats d),
      match rows with [] => [[js "No recent activity"]] | _ => rows end, quickStats d).
End Handlers.

(** ** However the calls are answered *)

(** What is shown when all calls were answered well, and when one was not. *)
Inductive settled : dashboard → Prop :=
| settled_all ns nt nc t acts :
    totalGrades t = assignmentsGraded t →
    settled {| stats := stats_of ns nt nc t; recentActivity := take 4 acts; quickStats := quick_of ns nc t; logged := [] |}
| settled_early : settled (log "Failed to fetch stats:" initial)
| settled_late ns nt nc t :
    settled (log "Failed to fetch stats:" (set_stats (stats_of ns nt nc t) initial)).

(** While calls are under way. *)
Definition loading (d : dashboard) : Prop := recentActivity d = [] ∧ quickStats d = quickStats initial ∧ logged d = [].

(** Every run of a task ends in [P], and waits only while loading. *)
Fixpoint ends (P : dashboard → Prop) (t : handler) (d : dashboard) : Prop :=
  match t with
  | Finish => P d
  | Update f k => ends P k (f d)
  | Look k => ends P (k d) d
  | Await c k => loading d ∧ ∀ r, ends P (k r) d
  end.

Section Settling.
Context `{Engine} `{CaseMap}.

Lemma ends_attempt {A} P (o : outcome exn A) k d :
  P (log "Failed to fetch stats:" d) → (∀ a, o = Ok a → ends P (k a) d) → ends P (attempt o k) d.
Proof. destruct o; cbn; auto. Qed.

Lemma ends_fetch P c k d :
  loading d → P (log "Failed to fetch stats:" d) → (∀ l, ends P (k l) d) → ends P (fetch c k) d.
Proof. intros Hd Hf Hk. split; [done|]. intros r. by apply ends_attempt. Qed.

Lemma count_grades_even l t t' : count_grades l t = Ok t' → totalGrades t = assignmentsGraded t → totalGrades t' = assignmentsGraded t'.
Proof.
  revert t. induction l as [|g l IH]; intros t; cbn [count_grades]; [by intros [= ->]|].
  destruct (get g (js "score")) as [s|]; [|done]. cbn [outcome_bind]. intros Hc Ht. apply (IH _ Hc). cbn. lia.
Qed.

Lemma ends_sum_loop P cs t k d :
  loading d → P (log "Failed to fetch stats:" d) → totalGrades t = assignmentsGraded t →
  (∀ t, totalGrades t = assignmentsGraded t → ends P (k t) d) → ends P (sum_loop cs t k) d.
Proof.
  intros Hd Hf. revert t. induction cs as [|c cs IH]; intros t Ht Hk; [by apply Hk|]. cbn [sum_loop].
  apply ends_attempt; [done|]. intros id _. apply ends_fetch; [done..|]. intros l. apply ends_attempt; [done|].
  intros t' Ht'. apply IH; [|done]. by eapply count_grades_even.
Qed.

Lemma ends_activity_loop P ss cs acts k d :
  loading d → P (log "Failed to fetch stats:" d) → (∀ acts, ends P (k acts) d) → ends P (activity_loop ss cs acts k) d.
Proof.
  intros Hd Hf Hk. revert acts. induction cs as [|c cs IH]; intros acts; [by apply Hk|]. cbn [activity_loop].
  apply ends_attempt; [done|]. intros id _. apply ends_fetch; [done..|]. intros l. by apply ends_attempt.
Qed.

Lemma fetchStats_ends : ends settled fetchStats initial.
Proof.
  split; [done|]. intros r. apply ends_attempt; [constructor|]. intros [students ss] _.
  apply ends_fetch; [done|constructor|]. intros ts. apply ends_fetch; [done|constructor|]. intros cs.
  apply ends_sum_loop; [done|constructor|done|]. intros t Ht. cbn [ends].
  apply ends_attempt; [apply settled_late|]. intros acts _.
  apply ends_activity_loop; [done|apply settled_late|]. intros acts'. by apply (settled_all (length ss) (length ts)).
Qed.

(** One task is under way, or it came to its end. *)
Definition under_way (p : pool dashboard request (λ _, outcome exn value)) : Prop :=
  (waiting p = [] ∧ settled (now p)) ∨ ∃ c k, waiting p = [Await c k] ∧ loading (now p) ∧ ∀ r, ends settled (k r) (now p).

Lemma ends_advance t d : ends settled t d → under_way {| now := (advance t d).1; waiting := (advance t d).2 |}.
Proof. revert d. induction t as [|f k IH|k IH|c k IH]; intros d; cbn [ends advance]; intros Ht; [by left|auto|auto|right; by eauto]. Qed.

Lemma under_way_mount : under_way mount.
Proof. pose proof (ends_advance _ _ fetchStats_ends) as He. unfold mount, start, idle. cbn [now waiting]. by destruct (advance fetchStats initial). Qed.

Lemma under_way_answer p q : under_way p → answer p q → under_way q.
Proof.
  intros Hp (n & c & f & r & Hn & ->). destruct Hp as [[Hw _]|(c' & k & Hw & _ & Hk)]; rewrite Hw in Hn; [by destruct n|].
  destruct n as [|n]; [|by destruct n]. cbn in Hn.
  pose (cont := λ o : option handler, match o with Some (Await _ g) => g r | _ => Finish end).
  assert (f r = k r) as -> by exact (eq_sym (f_equal cont Hn)).
  pose proof (ends_advance _ _ (Hk r)) as He. unfold proceed. rewrite Hw. destruct (advance (k r) (now p)) as [s ts]. cbn in *.
  by rewrite app_nil_r.
Qed.

(** However its calls are answered, the dashboard comes to rest: either every figure was
    set from one set of lists, with at most four activities, or one failure was logged and
    the activities and the quick stats are still the first ones, where the stats may already be
    new.  Until then one call is under way and nothing but the stats has changed. *)
Theorem dashboard_settles (p : pool dashboard request (λ _, outcome exn value)) :
  rtc answer mount p →
  inevitably (λ q, waiting q = [] ∧ settled (now q)) p ∧
  (waiting p = [] ∧ settled (now p) ∨ length (in_flight p) = 1%nat ∧ loading (now p)).
Proof.
  intros Hp. assert (under_way p) as Hu.
  { pose proof under_way_mount as Hm. induction Hp as [|x y z Hxy _ IH]; [done|]. by eapply IH, under_way_answer. }
  split; [|destruct Hu as [|(c & k & Hw & Hl & _)]; [by left|right; unfold in_flight; by rewrite Hw]].
  apply (inevitably_mono (λ q, waiting q = []) _ under_way); [by apply under_way_answer| |done|].
  - intros q [Hq|(c & k & Hw & _)] Hi; [done|]. by rewrite Hw in Hi.
  - apply idle_inevitable. unfold only_awaits. destruct Hu as [[-> _]|(c & k & -> & _)]; [constructor|]. by repeat econstructor.
Qed.
End Settling.

(** ** Exact figures *)

(** The figures of scores. *)
Definition tally_of (scores : list Z) : tally :=
  {| gradeSum := fold_left (λ sum z, f64_add sum (f64_of_Z z)) scores (S754_zero false);
     totalGrades := length scores; assignmentsGraded := length scores |}.

Section Exact.
Import Binary64.

Lemma Math_round_rounded m e : 2 ^ 52 ≤ m ≤ 2 ^ 53 → e ≤ -2 →
  Math_round (rounded false m e) = f64_of_Z ((2 * m + 2 ^ (- e)) / (2 * 2 ^ (- e))).
Proof.
  intros Hm He. unfold rounded, Math_round, scaled_round. destruct (Z.eqb_spec m (2 ^ 53)) as [->|Hne]; f_equal.
  - rewrite (proj2 (Z.leb_gt 0 (e + 1))) by lia. replace (- e) with (Z.succ (- (e + 1))) by lia. rewrite Z.pow_succ_r by lia.
    rewrite <- (Z.div_mul_cancel_r (2 * (Z.pos (2 ^ 52) * 1) + 2 ^ (- (e + 1))) (2 * 2 ^ (- (e + 1))) 2) by lia.
    f_equal; lia.
  - rewrite (proj2 (Z.leb_gt 0 e)) by lia. rewrite Z2Pos.id, Z.mul_1_r by lia. done.
Qed.

(** [Math.round] of a quotient of integers is the exact quotient, rounded. *)
Lemma Math_round_quotient a b :
  0 ≤ a < 2 ^ 51 → 0 < b < 2 ^ 53 → Math_round (f64_div (f64_of_Z a) (f64_of_Z b)) = f64_of_Z ((2 * a + b) / (2 * b)).
Proof.
  intros Ha Hb. destruct (decide (a = 0)) as [->|Hne].
  - rewrite (Z.div_small (2 * 0 + b)) by lia. rewrite (f64_of_Z_normal b) by lia. destruct b; [lia|done|lia].
  - destruct (div_nearest a b) as (m & e & Hm & He & Hn & ->); [lia|lia|]. rewrite Math_round_rounded by lia. f_equal.
    apply nearest_half; [lia|lia|lia|by apply Z.pow_pos_nonneg; lia| |done].
    exists (2 ^ (- e - 1)). rewrite <- Z.pow_succ_r by lia. f_equal. lia.
Qed.

Lemma quotient_one p : Zpos p < 2 ^ 53 → nearest_quotient (Zpos p) 1 = normal false p.
Proof.
  intros Hp. pose proof (digits_range p Hp) as Hd. unfold nearest_quotient, f64_div. cbn [SFdiv]. unfold SFdiv_core_binary. cbn [Zdigits2].
  fold (digits p). rewrite fexp_normal by (cbn; lia). change (Z.pos (digits2_pos 1)) with 1.
  replace (Z.min _ _) with (- (54 - digits p)) by lia. replace (0 - 0 - - (54 - digits p)) with (54 - digits p) by lia.
  destruct (54 - digits p) as [|k|k] eqn:Hk; [lia| |lia]. rewrite Z.shiftl_mul_pow2 by lia.
  destruct (Z.pos p * 2 ^ Z.pos k) as [|q|q] eqn:Hq; [lia| |lia].
  pose proof (Z.div_1_r (Zpos q)) as K1. pose proof (Z.mod_1_r (Zpos q)) as K2. unfold Z.div, Z.modulo in K1, K2.
  destruct (Z.div_eucl (Zpos q) 1) as [d r]. subst d r. change (new_location 1 0) with loc_Exact.
  apply (round_aux_exact false p q _ (Zpos k)); lia.
Qed.

Lemma SFeqb_refl s m e : SFeqb (S754_finite s m e) (S754_finite s m e) = true.
Proof. unfold SFeqb. cbn [SFcompare]. rewrite Z.compare_refl. change (Pos.compare_cont Eq m m) with (m ?= m)%positive. rewrite Pos.compare_refl. by destruct s. Qed.

(** An integer is printed with its digits. *)
Lemma number_text_integer z : 0 ≤ z < 2 ^ 53 → number_text (f64_of_Z z) = Z_to_str z.
Proof.
  intros Hz. rewrite f64_of_Z_normal by lia. destruct z as [|p|p]; [done| |lia]. cbn [integer]. unfold normal.
  pose proof (full_mantissa p) as Hf. pose proof (digits_range p) as Hd. cbn [number_text shortest]. change (10 ^ 0) with 1.
  assert (scaled_round false (Z.to_pos (Zpos p * 2 ^ (53 - digits p))) (digits p - 53) 1 = Zpos p) as ->.
  { unfold scaled_round. rewrite Z2Pos.id, Z.mul_1_r by lia. destruct (Z.leb_spec 0 (digits p - 53)).
    - replace (digits p) with 53 by lia. cbn -[Z.mul]. lia.
    - replace (- (digits p - 53)) with (53 - digits p) by lia. pose proof (Z.pow_pos_nonneg 2 (53 - digits p)).
      symmetry. apply (Z.div_unique_pos _ _ _ (2 ^ (53 - digits p))); lia. }
  rewrite quotient_one by lia. unfold normal. rewrite SFeqb_refl. cbn [num_to_str].
  by rewrite (proj2 (Z.ltb_lt _ _)) by lia.
Qed.

(** The mean of the scores in the stats, to the nearest integer. *)
Lemma average_text scores :
  Forall (λ z, 0 ≤ z) scores → foldr Z.add 0 scores < 2 ^ 51 → Z.of_nat (length scores) < 2 ^ 53 →
  number_text (averageGrade (tally_of scores)) =
    let n := Z.of_nat (length scores) in Z_to_str (if n =? 0 then 0 else (2 * foldr Z.add 0 scores + n) / (2 * n)).
Proof.
  intros Hs Hsum Hn. assert (0 ≤ foldr Z.add 0 scores) by (clear -Hs; induction Hs; cbn; lia).
  unfold averageGrade, tally_of. cbn [totalGrades gradeSum].
  change (S754_zero false) with (f64_of_Z 0). rewrite (sum_exact scores 0), Z.add_0_l by (done || lia).
  destruct scores as [|z l]; [done|]. set (sc := z :: l) in *. cbv zeta.
  assert (0 < Z.of_nat (length sc)) by (unfold sc; cbn [length]; lia).
  rewrite (proj2 (Nat.ltb_lt _ _)), (proj2 (Z.eqb_neq _ _)) by lia. unfold f64_of_nat. rewrite Math_round_quotient by lia.
  apply number_text_integer. split; [apply Z.div_pos; lia|]. apply Z.div_lt_upper_bound; nia.
Qed.

Lemma sub_below M p e :
  -46 ≤ e → Zpos M ≤ Zpos p * 2 ^ (e + 46) →
  Math_max (S754_zero false) (f64_sub (S754_finite false M (-46)) (S754_finite false p e)) = S754_zero false.
Proof.
  intros He Hle. unfold f64_sub. cbn [SFsub cond_Zopp]. rewrite Z.min_l by done.
  change (shl_align M (-46) (-46)) with (M, -46). cbn [fst].
  assert (Zpos (shl_align p e (-46)).1 = Zpos p * 2 ^ (e + 46)) as ->.
  { unfold shl_align. destruct (-46 - e) as [|d|d] eqn:Hd; [|lia|]; cbn [fst].
    - replace (e + 46) with 0 by lia. lia.
    - rewrite iter_xO. do 2 f_equal. lia. }
  destruct (Zpos M - Zpos p * 2 ^ (e + 46)) as [|q|q] eqn:Hq; [done|lia|]. cbn [binary_normalize].
  pose proof (binary_round_sign true q (-46)) as Hs. by destruct (binary_round _ _ _ _ _) as [[]|[]| |[] ? ?].
Qed.

(** Above 950 students nobody attends. *)
Lemma attendance_zero n : (950 ≤ n)%nat → Z.of_nat n < 2 ^ 51 → attendance n = js "0%".
Proof.
  intros Hn Hb. unfold attendance, f64_of_nat. destruct (div_nearest (Z.of_nat n) 10) as (m & e & Hm & He & Hq & ->); [lia|lia|].
  assert (0 < 2 ^ (- e)) as HE by (apply Z.pow_pos_nonneg; lia). assert (95 * 2 ^ (- e) ≤ m) as Hle by (unfold nearest in Hq; nia).
  assert (-46 ≤ e) as He46.
  { assert (- e < 47); [|lia]. apply (Z.pow_lt_mono_r_iff 2); [done|done|]. set (E := 2 ^ (- e)) in *. clearbody E. lia. }
  assert (2 ^ 46 = 2 ^ (- e) * 2 ^ (e + 46)) as H46 by (rewrite <- Z.pow_add_r by lia; f_equal; lia).
  assert (0 < 2 ^ (e + 46)) as HE' by (apply Z.pow_pos_nonneg; lia).
  change (f64_of_Z 95) with (S754_finite false 6685030696878080 (-46)). assert (Z.pos 6685030696878080 = 95 * 2 ^ 46) as H95 by done.
  unfold rounded. destruct (Z.eqb_spec m (2 ^ 53)) as [->|]; rewrite sub_below; try done; try lia.
  - replace (e + 1 + 46) with (Z.succ (e + 46)) by lia. rewrite Z.pow_succ_r by lia. change (Z.pos (2 ^ 52)) with (2 ^ 52). nia.
  - rewrite Z2Pos.id by lia. nia.
Qed.

Lemma attendance_small n : (n < 950)%nat → attendance n ≠ js "NaN%".
Proof.
  intros Hn. assert (forallb (λ k, negb (str_eqb (attendance k) (js "NaN%"))) (seq 0 950) = true) as Hall by (vm_compute; reflexivity).
  rewrite forallb_forall in Hall. specialize (Hall n). rewrite in_seq in Hall. intros He. rewrite He, str_eqb_refl in Hall. by discriminate Hall; lia.
Qed.

(** The digits that are tried are enough for every number of students. *)
Lemma attendance_number n : Z.of_nat n < 2 ^ 51 → attendance n ≠ js "NaN%".
Proof. intros Hn. destruct (decide (n < 950)%nat); [by apply attendance_small|]. rewrite attendance_zero by lia. done. Qed.
End Exact.

(** ** With the program's answers *)

Definition tally_add (t : tally) (scores : list Z) : tally :=
  {| gradeSum := fold_left (λ sum z, f64_add sum (f64_of_Z z)) scores (gradeSum t);
     totalGrades := totalGrades t + length scores; assignmentsGraded := assignmentsGraded t + length scores |}.

Section Program.
Import Rust Derive Host Office SchoolStore SchoolRules SchoolWire.
Context `{NodeHost} `{Go.GoErrors} `{!Go.GoJson Student student_ok} `{!Go.GoJson Teacher teacher_ok} `{!Go.GoJson Course course_ok}
  `{!Go.GoJson Grade grade_ok} `{Engine} `{CaseMap} (trapped : exn).

(** What the client makes of a response; a trap fails the call. *)
Definition delivered (r : option Response) : outcome exn value :=
  match r with
  | None => Throw trapped
  | Some r =>
      if bool_decide (Status r = js "error") then Throw (Browser.Error_of (str_json (Office.Error r))) else Ok (Response_json r)
  end.

(** The answer of the program after a history. *)
Definition program_answer (reqs : list (rstr * value)) (c : request) : outcome exn value :=
  delivered match c with
            | ListStudents => (execute (js "list_students") VNull (after reqs)).1
            | ListTeachers => (execute (js "list_teachers") VNull (after reqs)).1
            | ListCourses => (execute (js "list_courses") VNull (after reqs)).1
            | GetCourseGrades id => (execute (js "get_course_grades") id (after reqs)).1
            end.

Definition course_grades (A : school) (c : Course) : list Grade :=
  List.filter (λ g, str_eqb (grade_CourseID g) (course_ID c)) (listed Grade A).

Definition enrolled_activity (s : Student) : activity :=
  {| act_student := str_json (student_Name s); action := js "Enrolled in school"; time := js "Recently" |}.

(** The item of a grade of a student with that id, if there is one. *)
Definition grade_activity (A : school) (g : Grade) : list activity :=
  match List.find (λ s, str_eqb (student_ID s) (grade_StudentID g)) (listed Student A) with
  | Some s => [{| act_student := str_json (student_Name s);
                  action := js "Received grade " ++ num_to_str (NInt (grade_Score g)) ++ js " in course"; time := js "Recently" |}]
  | None => []
  end.

Definition all_scores (A : school) (cs : list Course) : list Z := flat_map (λ c, map grade_Score (course_grades A c)) cs.
Definition all_activity (A : school) (cs : list Course) : list activity :=
  flat_map (λ c, flat_map (grade_activity A) (take 2 (course_grades A c))) cs.
Definition grade_calls (cs : list Course) : list request := map (λ c, GetCourseGrades (str_json (course_ID c))) cs.

Lemma tally_add_app t a b : tally_add (tally_add t a) b = tally_add t (a ++ b).
Proof. unfold tally_add. cbn. rewrite fold_left_app, length_app. f_equal; lia. Qed.

Lemma count_grades_run l t : count_grades (map Grade_json l) t = Ok (tally_add t (map grade_Score l)).
Proof.
  revert t. induction l as [|g l IH]; intros t.
  - destruct t. unfold tally_add. cbn. by rewrite !Nat.add_0_r.
  - cbn [map count_grades]. change (get (Grade_json g) (js "score")) with (Ok (E := exn) (vint (grade_Score g))).
    cbn [outcome_bind score_of]. rewrite IH. transitivity (Ok (E := exn) (tally_add (tally_add t [grade_Score g]) (map grade_Score l))).
    + f_equal. f_equal. unfold tally_add. cbn. f_equal; lia.
    + by rewrite tally_add_app.
Qed.

Context (reqs : list (rstr * value)) (Hreqs : history_ok reqs).
Let A : school := (answers reqs empty_school).2.

(** The data of a list response: none for an empty list. *)
Definition received {T} (f : T → value) (l : list T) : option value :=
  match l with [] => None | _ => Some (VArr (map f l)) end.

(** The items a list response delivers. *)
Lemma payload_items {T} (f : T → value) (l : list T) r p :
  r = Some (success [] (Some p)) → Payload_json p = list_json f l →
  answered (delivered r) = Ok (received f l).
Proof.
  intros -> Hp. cbn [delivered]. rewrite bool_decide_false by done.
  change (answered (Ok (Response_json (success [] (Some p)))))
    with (Ok (E := exn) (if truthy (Payload_json p) then Some (Payload_json p) else None)).
  rewrite Hp. by destruct l.
Qed.

Lemma list_fetch_run {T} (f : T → value) (l : list T) c k d :
  answered (program_answer reqs c) = Ok (received f l) →
  run (program_answer reqs) (fetch c k) d = run (program_answer reqs) (k (map f l)) d ∧
  calls (program_answer reqs) (fetch c k) d = c :: calls (program_answer reqs) (k (map f l)) d.
Proof. intros Hc. unfold fetch. cbn [run calls]. rewrite Hc. by destruct l. Qed.

Lemma filter_all {T} (l : list T) : List.filter (λ _, true) l = l.
Proof. induction l as [|x l IH]; [done|]. cbn. by rewrite IH. Qed.

Lemma students_answered : answered (program_answer reqs ListStudents) = Ok (received Student_json (listed Student A)).
Proof.
  eapply payload_items; [rewrite after_answer by (done || constructor); reflexivity|].
  fold A. by rewrite filter_all.
Qed.

Lemma teachers_answered : answered (program_answer reqs ListTeachers) = Ok (received Teacher_json (listed Teacher A)).
Proof.
  eapply payload_items; [rewrite after_answer by (done || constructor); reflexivity|].
  fold A. by rewrite filter_all.
Qed.

Lemma courses_answered : answered (program_answer reqs ListCourses) = Ok (received Course_json (listed Course A)).
Proof.
  eapply payload_items; [rewrite after_answer by (done || constructor); reflexivity|].
  fold A. by rewrite filter_all.
Qed.

Lemma valid_decoded s : Go.valid s → unit_str (utf8_decode s) ∧ utf8_encode (utf8_decode s) = s.
Proof.
  intros (u & Hu & ->). split; [|by apply utf8_encode_decode_encode].
  apply u8_run_units; [by apply utf8_encode_bytes|done].
Qed.

Lemma valid_str_eqb s t : Go.valid s → Go.valid t → str_eqb (utf8_decode s) (utf8_decode t) = str_eqb s t.
Proof.
  intros [_ Hs]%valid_decoded [_ Ht]%valid_decoded. destruct (decide (s = t)) as [->|Hne]; [by rewrite !str_eqb_refl|].
  rewrite !str_eqb_neq; [done|done|]. intros He. by rewrite <- Hs, He, Ht in Hne.
Qed.

Lemma grades_answered c :
  Go.valid (course_ID c) →
  answered (program_answer reqs (GetCourseGrades (str_json (course_ID c)))) = Ok (received Grade_json (course_grades A c)).
Proof.
  intros [Hu He]%valid_decoded. eapply payload_items; [rewrite after_answer|]; [reflexivity|done|by constructor|].
  fold A. by rewrite He.
Qed.

Lemma listed_ok {T} `{!Entity T} `{!Table T} `{!Go.GoJson T ent_ok} `{!Kept T} x : x ∈ listed T A → ent_ok x.
Proof.
  intros (k & _ & Hx)%list_elem_of_omap. destruct (starts_with _ k); [|done].
  exact (map_Forall_lookup_1 _ _ _ _ (proj2 (kept_holds _ _ (school_after_represents reqs Hreqs))) Hx).
Qed.

Lemma listed_valid {T} `{!Entity T} `{!Table T} `{!Go.GoJson T ent_ok} `{!Kept T} : Forall (λ x, Go.valid (ent_id x)) (listed T A).
Proof. apply Forall_forall. intros x Hx. by apply kept_id, listed_ok. Qed.

Lemma find_run g : Go.valid (grade_StudentID g) →
  find_id (str_json (grade_StudentID g)) (map Student_json (listed Student A)) =
  Ok (Student_json <$> List.find (λ s, str_eqb (student_ID s) (grade_StudentID g)) (listed Student A)).
Proof.
  intros Hg. pose proof (listed_valid (T := Student)) as Hv. induction Hv as [|s l Hs _ IH]; [done|]. cbn [map find_id List.find].
  change (get (Student_json s) (js "id")) with (Ok (E := exn) (str_json (student_ID s))). cbn [outcome_bind].
  change (Grades.strict_eq (str_json (student_ID s)) (str_json (grade_StudentID g)))
    with (str_eqb (utf8_decode (student_ID s)) (utf8_decode (grade_StudentID g))).
  rewrite valid_str_eqb by done. by destruct (str_eqb _ _).
Qed.

Lemma grade_item_run g : Go.valid (grade_StudentID g) →
  grade_item (received Student_json (listed Student A)) (Grade_json g) = Ok (grade_activity A g).
Proof.
  intros Hg. pose proof (find_run g Hg) as Hf. unfold grade_activity. destruct (listed Student A) as [|s l]; [done|].
  cbn [received grade_item]. change (get (Grade_json g) (js "student_id")) with (Ok (E := exn) (str_json (grade_StudentID g))).
  cbn [outcome_bind find_in]. rewrite Hf. cbn [outcome_bind]. by destruct (List.find _ _) as [s'|].
Qed.

Lemma grade_items_run gs : Forall (λ g, Go.valid (grade_StudentID g)) gs →
  traverse (grade_item (received Student_json (listed Student A))) (map Grade_json gs) = Ok (map (grade_activity A) gs).
Proof. induction 1 as [|g gs Hg _ IH]; [done|]. cbn [map traverse]. rewrite grade_item_run by done. cbn [outcome_bind]. by rewrite IH. Qed.

Lemma course_grades_valid c : Forall (λ g, Go.valid (grade_StudentID g)) (course_grades A c).
Proof.
  apply Forall_forall. intros g [Hg _]%list_elem_of_In%List.filter_In. apply list_elem_of_In in Hg.
  apply (listed_ok (T := Grade)) in Hg. cbn in Hg. unfold grade_ok in Hg. by inversion_clear Hg as [|? ? _ Hr]; inversion_clear Hr.
Qed.

Lemma sum_loop_run cs t k d : Forall (λ c, Go.valid (course_ID c)) cs →
  let t' := tally_add t (all_scores A cs) in
  run (program_answer reqs) (sum_loop (map Course_json cs) t k) d = run (program_answer reqs) (k t') d ∧
  calls (program_answer reqs) (sum_loop (map Course_json cs) t k) d = grade_calls cs ++ calls (program_answer reqs) (k t') d.
Proof.
  intros Hcs. revert t. induction Hcs as [|c cs Hc _ IH]; intros t.
  - assert (tally_add t (all_scores A []) = t) as ->; [|done].
    destruct t. unfold tally_add. cbn. by rewrite !Nat.add_0_r.
  - cbn [map sum_loop]. change (get (Course_json c) (js "id")) with (Ok (E := exn) (str_json (course_ID c))). cbn [attempt].
    destruct (list_fetch_run Grade_json (course_grades A c) (GetCourseGrades (str_json (course_ID c)))
      (λ grades, attempt (count_grades grades t) (λ t, sum_loop (map Course_json cs) t k)) d (grades_answered c Hc)) as [-> ->].
    rewrite count_grades_run. cbn [attempt]. destruct (IH (tally_add t (map grade_Score (course_grades A c)))) as [-> ->].
    by rewrite tally_add_app.
Qed.

Lemma activity_loop_run cs acts k d : Forall (λ c, Go.valid (course_ID c)) cs →
  let t := activity_loop (received Student_json (listed Student A)) (map Course_json cs) acts k in
  run (program_answer reqs) t d = run (program_answer reqs) (k (acts ++ all_activity A cs)) d ∧
  calls (program_answer reqs) t d = grade_calls cs ++ calls (program_answer reqs) (k (acts ++ all_activity A cs)) d.
Proof.
  intros Hcs. revert acts. induction Hcs as [|c cs Hc _ IH]; intros acts; [cbn; by rewrite app_nil_r|].
  cbn [map activity_loop]. change (get (Course_json c) (js "id")) with (Ok (E := exn) (str_json (course_ID c))). cbn [attempt].
  destruct (list_fetch_run Grade_json (course_grades A c) (GetCourseGrades (str_json (course_ID c)))
    (λ grades, attempt (traverse (grade_item (received Student_json (listed Student A))) (take 2 grades)) (λ added,
       activity_loop (received Student_json (listed Student A)) (map Course_json cs) (acts ++ concat added) k)) d
    (grades_answered c Hc)) as [-> ->].
  rewrite firstn_map, grade_items_run by apply Forall_take, course_grades_valid. cbn [attempt].
  rewrite <- flat_map_concat_map. destruct (IH (acts ++ flat_map (grade_activity A) (take 2 (course_grades A c)))) as [-> ->].
  by rewrite <- app_assoc.
Qed.

Lemma received_items {T} (f : T → value) l : items (received f l) = Ok (map f l).
Proof. by destruct l. Qed.

Lemma enrolled_run l : traverse enrolled_item (map Student_json l) = Ok (map enrolled_activity l).
Proof.
  induction l as [|s l IH]; [done|]. cbn [map traverse].
  change (enrolled_item (Student_json s)) with (Ok (E := exn) (enrolled_activity s)). cbn [outcome_bind]. by rewrite IH.
Qed.

(** What the dashboard shows of a school. *)
Definition shown : dashboard :=
  let ss := listed Student A in
  let cs := listed Course A in
  let t := tally_of (all_scores A cs) in
  {| stats := stats_of (length ss) (length (listed Teacher A)) (length cs) t;
     recentActivity := take 4 (map enrolled_activity (take 2 ss) ++ all_activity A cs);
     quickStats := quick_of (length ss) (length cs) t;
     logged := [] |}.

Lemma fetchStats_run :
  run (program_answer reqs) fetchStats initial = shown ∧
  calls (program_answer reqs) fetchStats initial =
    [ListStudents; ListTeachers; ListCourses] ++ grade_calls (listed Course A) ++ grade_calls (listed Course A).
Proof.
  pose proof (listed_valid (T := Course)) as Hcs. unfold fetchStats. cbn [run calls]. rewrite students_answered. cbn [outcome_bind].
  rewrite received_items. cbn [outcome_bind attempt].
  edestruct (list_fetch_run Teacher_json (listed Teacher A) ListTeachers) as [-> ->]; [exact teachers_answered|].
  edestruct (list_fetch_run Course_json (listed Course A) ListCourses) as [-> ->]; [exact courses_answered|].
  edestruct (sum_loop_run (listed Course A) no_grades) as [-> ->]; [exact Hcs|]. cbn [run calls].
  rewrite firstn_map, enrolled_run. cbn [attempt].
  edestruct (activity_loop_run (listed Course A)) as [-> ->]; [exact Hcs|]. cbn [run calls]. rewrite app_nil_r, !length_map. done.
Qed.

Lemma shown_renders : ∃ page, render shown = Ok page.
Proof.
  assert (∀ l, Forall (λ a, ∃ s, act_student a = VStr s) l → ∃ rows, traverse activity_row l = Ok rows) as Hrows.
  { induction 1 as [|a l [s Hs] _ [rows IH]]; [by exists []|]. cbn [traverse]. rewrite IH. unfold activity_row. rewrite Hs. by eexists. }
  unfold render. destruct (Hrows (recentActivity shown)) as [rows ->]; [|by eexists]. apply Forall_take, Forall_app. split.
  - apply Forall_fmap, Forall_true. intros x. by eexists.
  - apply Forall_flat_map, Forall_true. intros c. apply Forall_flat_map, Forall_true. intros g. unfold grade_activity.
    destruct (List.find _ _); repeat constructor. by eexists.
Qed.
End Program.

(** The mean of scores, rounded to the nearest integer, halves upwards. *)
Definition mean (scores : list Z) : Z :=
  let n := Z.of_nat (length scores) in if n =? 0 then 0 else (2 * foldr Z.add 0 scores + n) / (2 * n).

Section Theorems.
Import Rust Host Office SchoolStore SchoolRules.
Context `{NodeHost} `{Go.GoErrors} `{!Go.GoJson Student student_ok} `{!Go.GoJson Teacher teacher_ok} `{!Go.GoJson Course course_ok}
  `{!Go.GoJson Grade grade_ok} `{Engine} `{CaseMap}.

(** C39 The dashboard with the school program's answers: loading ends and shows the number of
    students, teachers and courses that the program lists, the number of grades of the listed
    courses and exactly the rounded mean of their scores, although it is computed in binary64,
    and at most four activities; the page renders; and every course's grades are
    requested twice. *)
Theorem dashboard_shows_school (trapped : exn) (reqs : list (rstr * value)) :
  history_ok reqs →
  let A := (answers reqs empty_school).2 in
  let ans := program_answer trapped reqs in
  let scores := all_scores A (listed Course A) in
  let final := run ans fetchStats initial in
  final = shown reqs ∧
  (Forall (λ z, 0 ≤ z) scores → foldr Z.add 0 scores < 2 ^ 51 → Z.of_nat (length scores) < 2 ^ 53 →
   nth_error (stats final) 3 = Some (stat_of "Average Grade" (Z_to_str (mean scores) ++ js "%"))) ∧
  (∃ page, render final = Ok page) ∧
  calls ans fetchStats initial =
    [ListStudents; ListTeachers; ListCourses] ++ grade_calls (listed Course A) ++ grade_calls (listed Course A) ∧
  ∃ n, Nat.iter n (λ p, match waiting p with Await c _ :: _ => resume 0 ans p | _ => p end) mount = idle final.
Proof.
  intros Hr. cbv zeta. destruct (fetchStats_run trapped reqs Hr) as [Hrun Hcalls]. rewrite Hrun. split; [done|]. split; [|split; [|split]].
  - intros Hs Hsum Hn. unfold shown, stats_of. cbn [stats nth_error]. by rewrite (average_text _ Hs Hsum Hn).
  - apply shown_renders.
  - exact Hcalls.
  - rewrite <- Hrun. apply resume_run.
Qed.
End Theorems.

(** The completion rate counts grades, not completed courses, so it can exceed 100%, and
    being rounded twice it can differ from the exact rate: 57 grades of 200 are 28.5%. *)
Lemma completion_rate_off :
  completion_rate 3 1 1 = js "300%" ∧ completion_rate 57 10 20 = js "28%" ∧ (2 * (100 * 57) + 200) / (2 * 200) = 29.
Proof. vm_compute. done. Qed.

(** The attendance is computed from the number of students. *)
Lemma attendance_of_students :
  map attendance [0; 3; 949; 2000]%nat = [js "95%"; js "94.7%"; js "0.09999999999999432%"; js "0%"].
Proof. vm_compute. done. Qed.

(** ** Witnesses *)

Import SchoolDemo RustModels.
#[local] Existing Instances still_node go_errors json_student json_teacher json_course json_grade Models.engine ascii_case.

Lemma dashboard_shows_school_witness :
  map stat_value (stats (run (program_answer (Browser.Error_of VNull) history) fetchStats initial)) = [js "1"; js "0"; js "1"; js "90%"].
Proof. rewrite (proj1 (dashboard_shows_school (Browser.Error_of VNull) history the_history_ok)). vm_compute. reflexivity. Defined.

Lemma dashboard_settles_witness : inevitably (λ q, waiting q = [] ∧ settled (now q)) mount.
Proof. exact (proj1 (dashboard_settles mount (rtc_refl _ _))). Defined.
End Dashboard.
