(* ===== verification/Identity.v ===== *)
(** * wasm_programs/identity_card/ui: types, client, registration form, gallery, statistics

    lib/types.ts, lib/onvm-client.ts, components/registration-form.tsx,
    components/identity-gallery.tsx and components/stats-section.tsx.  The
    components are pools of tasks; a
    call of the client that is under way is the head of its task. *)

From S2P Require Import Prelude JsValue Codec Json Platform SdkErrors SdkTypes Models Sha256 SdkAuth SdkClient Browser.
From S2P Require Import ProgramCall SchoolViews Async Gateway.

Module Identity.
Import Errors Types Auth Client Async.

(** ** lib/types.ts *)

Definition op_is (name : string) : jstr * (bool * ty) := mem "op" (TLit (js name)).
Definition status_is (name : string) : jstr * (bool * ty) := mem "status" (TLit (js name)).

Definition IdentityRequest : ty := TObj [mem "op" (TUnion [
  TLit (js "register"); TLit (js "getprofile"); TLit (js "updateprofile"); TLit (js "getcard"); TLit (js "listall");
  TLit (js "stats")])].

Definition RegisterRequest : ty := TObj [
  op_is "register"; mem "name" TStr; mem "email" TStr; opt "bio" TStr; opt "avatar_url" TStr; opt "theme" TStr].
Definition GetProfileRequest : ty := TObj [op_is "getprofile"; mem "id" TStr].
Definition UpdateProfileRequest : ty := TObj [
  op_is "updateprofile"; mem "id" TStr; opt "name" TStr; opt "email" TStr; opt "bio" TStr; opt "avatar_url" TStr;
  opt "theme" TStr].
Definition GetCardRequest : ty := TObj [op_is "getcard"; mem "id" TStr; opt "format" TStr].

Definition IdentityRecord : ty := TObj [
  mem "id" TStr; mem "name" TStr; mem "email" TStr; opt "bio" TStr; opt "avatar_url" TStr; mem "theme" TStr;
  mem "created_at" TNum; mem "updated_at" TNum; mem "checksum" TStr].
Definition IdentitySummary : ty := TObj [
  mem "id" TStr; mem "name" TStr; mem "email" TStr; mem "theme" TStr; mem "created_at" TNum].

Definition IdentityResponse : ty := TObj [mem "status" TStr].
Definition RegisterResponse : ty := TObj [
  status_is "okregister"; mem "id" TStr; mem "identity" IdentityRecord; mem "card_svg" TStr].
Definition GetProfileResponse : ty := TObj [status_is "okprofile"; mem "identity" IdentityRecord].
Definition UpdateProfileResponse : ty := TObj [status_is "okupdate"; mem "id" TStr; mem "identity" IdentityRecord].
Definition GetCardResponse : ty := TObj [status_is "okcard"; mem "id" TStr; mem "format" TStr; mem "card_svg" TStr].
Definition ListAllResponse : ty := TObj [status_is "oklist"; mem "identities" (TArr IdentitySummary); mem "total" TNum].
Definition StatsResponse : ty := TObj [
  status_is "okstats"; mem "total_identities" TNum; mem "total_storage_bytes" TNum; mem "merkle_root" TStr].

(** ** lib/onvm-client.ts *)

Class IdentityEnv : Type := {
  NEXT_PUBLIC_RPC_URL : option jstr;
  NEXT_PUBLIC_IDENTITY_CARD_PROGRAM_ID : option jstr;
  NEXT_PUBLIC_PROJECT_ID : option jstr;
  NEXT_PUBLIC_PROJECT_SECRET : option jstr;
}.

Definition env_or (x : option jstr) (fallback : jstr) : jstr := str_or (default [] x) fallback.

Definition RPC_ENDPOINT `{IdentityEnv} : jstr := env_or NEXT_PUBLIC_RPC_URL (js "http://localhost:8080").
Definition PROGRAM_ID `{IdentityEnv} : jstr :=
  env_or NEXT_PUBLIC_IDENTITY_CARD_PROGRAM_ID (js "progfdad95913d574dd1d22c9950f37a967720b65911666224ab64119c786a4be023").
Definition PROJECT_ID `{IdentityEnv} : jstr := env_or NEXT_PUBLIC_PROJECT_ID (js "b72724722db7b33071c5e7cf5d10bc53").
Definition PROJECT_SECRET `{IdentityEnv} : jstr :=
  env_or NEXT_PUBLIC_PROJECT_SECRET (js "65eb796b7044c49273d44475608b5f1aa892de2f9b2d6a10c59ac954739bacdc").

(** The constructor: the SDK client and the program id. *)
Definition new_ONVMClient `{IdentityEnv} : outcome exn (OnvmClient * jstr) :=
  let! c := new_OnvmClient {|
    cfg_rpcUrl := RPC_ENDPOINT; cfg_programId := Some PROGRAM_ID; cfg_projectId := Some PROJECT_ID;
    cfg_projectSecret := Some PROJECT_SECRET; cfg_mode := None; cfg_timeout := Some 30000 |} in
  Ok (c, PROGRAM_ID).

Section Methods.
Context `{Engine} `{Env} `{XChaCha} (programId : jstr).

Definition executeProgram (request : value) : M exn sdk value :=
  ProgramCall.execute programId (js "err") (js "message") request.

Definition registerIdentity (request : value) : M exn sdk value := executeProgram request.
Definition getIdentity (request : value) : M exn sdk value := executeProgram request.
Definition updateIdentity (request : value) : M exn sdk value := executeProgram request.
Definition getIdentityCard (request : value) : M exn sdk value := executeProgram request.
Definition listAllIdentities : M exn sdk value := executeProgram (VObj [(js "op", VStr (js "listall"))]).
Definition getStats : M exn sdk value := executeProgram (VObj [(js "op", VStr (js "stats"))]).
End Methods.

(** [err.message || fallback]. *)
Definition error_text (e : exn) (fallback : jstr) : jstr := str_or (error_message e) fallback.

(** ** components/registration-form.tsx *)

Definition THEMES : list jstr :=
  [js "blue"; js "purple"; js "green"; js "red"; js "orange"; js "pink"; js "dark"; js "light"].

Record RegistrationForm : Type := {
  name : jstr;
  email : jstr;
  bio : jstr;
  avatar_url : jstr;
  theme : jstr;
  loading : bool;
  result : value;
  error : option jstr;
}.

Definition initial_form : RegistrationForm :=
  {| name := []; email := []; bio := []; avatar_url := []; theme := js "blue"; loading := false; result := VNull;
     error := None |}.

Definition set_status (l : bool) (r : value) (e : option jstr) (f : RegistrationForm) : RegistrationForm :=
  {| name := name f; email := email f; bio := bio f; avatar_url := avatar_url f; theme := theme f; loading := l;
     result := r; error := e |}.

(** [s || undefined]. *)
Definition or_undefined (s : jstr) : value := match s with [] => VUndef | _ => VStr s end.

Definition register_request (f : RegistrationForm) : value := VObj [
  (js "op", VStr (js "register")); (js "name", VStr (name f)); (js "email", VStr (email f));
  (js "bio", or_undefined (bio f)); (js "avatar_url", or_undefined (avatar_url f)); (js "theme", or_undefined (theme f))].

(** The task's calls are requests of the client. *)
Definition handleSubmit (captured : RegistrationForm) : task RegistrationForm value (λ _, outcome exn value) :=
  Update (set_status true VNull None)
    (Await (register_request captured) (λ r,
      match r with
      | Ok response => Update (λ f, set_status false response (error f) f) Finish
      | Throw err =>
          Update (λ f, set_status false (result f) (Some (error_text err (js "Failed to register identity"))) f) Finish
      end)).

Inductive form_edit : Type :=
| EditName (s : jstr)
| EditEmail (s : jstr)
| EditBio (s : jstr)
| EditAvatar (s : jstr)
| PickTheme (s : jstr).

Definition setFormData (e : form_edit) (f : RegistrationForm) : RegistrationForm :=
  {| name := match e with EditName s => s | _ => name f end;
     email := match e with EditEmail s => s | _ => email f end;
     bio := match e with EditBio s => s | _ => bio f end;
     avatar_url := match e with EditAvatar s => s | _ => avatar_url f end;
     theme := match e with PickTheme s => s | _ => theme f end;
     loading := loading f; result := result f; error := error f |}.

Abbreviation form_pool := (pool RegistrationForm value (λ _, outcome exn value)).

(** The browser submits the form when the button is enabled and the two required
    inputs are filled; a theme is picked from the list. *)
Inductive form_step : form_pool → form_pool → Prop :=
| form_step_edit e p :
    match e with PickTheme s => In s THEMES | _ => True end →
    form_step p {| now := setFormData e (now p); waiting := waiting p |}
| form_step_submit p :
    loading (now p) = false → name (now p) ≠ [] → email (now p) ≠ [] →
    form_step p (start (handleSubmit (now p)) p)
| form_step_answer k r p : form_step p (resume k (λ _, r) p).

Definition form_initial : form_pool := {| now := initial_form; waiting := [] |}.
Definition form_reachable (p : form_pool) : Prop := rtc form_step form_initial p.

(** The message, the id and card of the result, and the text of the button. *)
Definition RegistrationForm_view `{Engine} (f : RegistrationForm) : outcome exn (option jstr * option (jstr * value) * jstr) :=
  let button := if loading f then js "Creating Identity..." else js "Create Identity Card" in
  let shown := match error f with Some (c :: m) => Some (c :: m) | _ => None end in
  if truthy (result f) then
    let! id := Views.child_of (result f) "id" in
    let! card := get (result f) (js "card_svg") in
    Ok (shown, Some (id, card), button)
  else Ok (shown, None, button).

(** ** components/identity-gallery.tsx *)

Record IdentityGallery : Type := {
  identities : value;
  g_loading : bool;
  g_error : option jstr;
  selectedIdentity : value;
  identityCardSvg : value;
  cardLoading : bool;
}.

Definition set_list (i : value) (l : bool) (e : option jstr) (g : IdentityGallery) : IdentityGallery :=
  {| identities := i; g_loading := l; g_error := e; selectedIdentity := selectedIdentity g;
     identityCardSvg := identityCardSvg g; cardLoading := cardLoading g |}.
Definition set_card (sel svg : value) (l : bool) (g : IdentityGallery) : IdentityGallery :=
  {| identities := identities g; g_loading := g_loading g; g_error := g_error g; selectedIdentity := sel;
     identityCardSvg := svg; cardLoading := l |}.

Section Gallery.
Context `{Engine}.

Abbreviation gallery_task := (task IdentityGallery value (λ _, outcome exn value)).
Abbreviation gallery := (pool IdentityGallery value (λ _, outcome exn value)).

Definition loadIdentities : gallery_task :=
  Update (λ g, set_list (identities g) true None g)
    (Await (VObj [(js "op", VStr (js "listall"))]) (λ r,
      match (let! response := r in get response (js "identities")) with
      | Ok l => Update (λ g, set_list l false (g_error g) g) Finish
      | Throw err =>
          Update (λ g, set_list (identities g) false (Some (error_text err (js "Failed to load identities"))) g) Finish
      end)).

Definition card_request (id : value) : value :=
  VObj [(js "op", VStr (js "getcard")); (js "id", id); (js "format", VStr (js "svg"))].

Definition card_failed : gallery_task := Update (λ g, set_card (selectedIdentity g) VNull false g) Finish.

Definition loadIdentityCard (identity : value) : gallery_task :=
  Update (set_card identity VNull true)
    (match get identity (js "id") with
     | Throw _ => card_failed
     | Ok id =>
         Await (card_request id) (λ r,
           match (let! response := r in get response (js "card_svg")) with
           | Ok svg => Update (λ g, set_card (selectedIdentity g) svg false g) Finish
           | Throw _ => card_failed
           end)
     end).

Definition closeDialog (g : IdentityGallery) : IdentityGallery := set_card VNull (identityCardSvg g) (cardLoading g) g.

Definition gallery_initial : IdentityGallery :=
  {| identities := VArr []; g_loading := false; g_error := None; selectedIdentity := VNull; identityCardSvg := VNull;
     cardLoading := false |}.

Definition gallery_mount : gallery := start loadIdentities {| now := gallery_initial; waiting := [] |}.

Inductive dialog_body : Type :=
| CardSpinner
| Card (svg : value)
| CardFailed
| NoCard.

(** The dialog: whether it is open, its title and its body. *)
Definition dialog_view (g : IdentityGallery) : outcome exn (bool * jstr * dialog_body) :=
  let sel := selectedIdentity g in
  let! title := if truthy sel then let! n := get sel (js "name") in Ok (to_string_prim n ++ js "'s Identity Card")
                else Ok (js "Identity Card") in
  Ok (truthy sel, title,
      if cardLoading g then CardSpinner
      else if truthy (identityCardSvg g) then Card (identityCardSvg g)
      else if truthy sel then CardFailed else NoCard).

(** One entry of the grid: initial, name, email, short id, theme; the date is the
    platform's. *)
Definition gallery_entry (x : value) : outcome exn (list jstr) :=
  let! n := get x (js "name") in
  let! i := get x (js "id") in
  match n, i with
  | VStr n, VStr i =>
      let! e := Views.child_of x "email" in
      let! t := Views.child_of x "theme" in
      Ok [take 1 n; n; e; take 8 i ++ js "..."; t]
  | _, _ => type_error (js "charAt")
  end.

(** A modal dialog hides the grid: an identity is chosen when it is closed. *)
Inductive gallery_step : gallery → gallery → Prop :=
| gallery_step_load p : g_loading (now p) = false → gallery_step p (start loadIdentities p)
| gallery_step_view x l p :
    identities (now p) = VArr l → In x l → truthy (selectedIdentity (now p)) = false →
    gallery_step p (start (loadIdentityCard x) p)
| gallery_step_close p : gallery_step p {| now := closeDialog (now p); waiting := waiting p |}
| gallery_step_answer k r p : gallery_step p (resume k (λ _, r) p).

Definition gallery_reachable (p : gallery) : Prop := rtc gallery_step gallery_mount p.
End Gallery.

(** ** components/stats-section.tsx *)

Record StatsSection : Type := {
  total_identities : value;
  total_storage_bytes : value;
  merkle_root : value;
  s_loading : bool;
  s_error : option jstr;
}.

Definition setStats (n b r : value) (s : StatsSection) : StatsSection :=
  {| total_identities := n; total_storage_bytes := b; merkle_root := r; s_loading := s_loading s; s_error := s_error s |}.
Definition set_phase (l : bool) (e : option jstr) (s : StatsSection) : StatsSection :=
  {| total_identities := total_identities s; total_storage_bytes := total_storage_bytes s; merkle_root := merkle_root s;
     s_loading := l; s_error := e |}.

(** [Number.prototype.toLocaleString]: the platform groups the digits. *)
Class NumberLocale : Type := toLocaleString : num → jstr.

Section Stats.
Context `{Engine} `{NumberLocale}.

Abbreviation stats_task := (task StatsSection value (λ _, outcome exn value)).

(** The answer, after [await]. *)
Definition stats_received (r : outcome exn value) : stats_task :=
  match (let! response := r in
         let! n := get response (js "total_identities") in
         let! b := get response (js "total_storage_bytes") in
         let! m := get response (js "merkle_root") in Ok (n, b, m)) with
  | Ok (n, b, m) => Update (setStats n b m) (Update (λ s, set_phase false (s_error s) s) Finish)
  | Throw err => Update (set_phase false (Some (error_text err (js "Failed to load statistics")))) Finish
  end.

Definition loadStats : stats_task :=
  Update (set_phase true None) (Await (VObj [(js "op", VStr (js "stats"))]) stats_received).

Inductive stats_page : Type :=
| StatsLoading
| StatsFailed (message : jstr)
| StatsShown (identities storage root : jstr).

(** [(bytes / 1024 / 1024).toFixed(2)]. *)
Definition megabytes (n : num) : jstr :=
  match n with
  | NInt z => Gateway.fixed2 (Gateway.hundredths z (1024 * 1024))
  | NFrac m k => Gateway.fixed2 (Gateway.hundredths m (1024 * 1024 * 10 ^ Zpos k))
  | NNaN => js "NaN"
  end.

(** Values outside the declared types are an error here; they do not occur. *)
Definition stats_view (s : StatsSection) : outcome exn stats_page :=
  if s_loading s then Ok StatsLoading
  else match s_error s with
       | Some (c :: m) => Ok (StatsFailed (c :: m))
       | _ =>
           match total_identities s, total_storage_bytes s, merkle_root s with
           | VNum n, VNum b, VStr r =>
               Ok (StatsShown (toLocaleString n) (megabytes b ++ js " MB") (take 12 r ++ js "..."))
           | _, _, _ => type_error (js "toLocaleString")
           end
       end.

Definition stats_initial : StatsSection :=
  {| total_identities := vint 0; total_storage_bytes := vint 0; merkle_root := VStr []; s_loading := true; s_error := None |}.

(** Retry is offered with the error. *)
Inductive stats_event : StatsSection → stats_task → Prop :=
| retry m s : stats_view s = Ok (StatsFailed m) → stats_event s loadStats.

(** The program's answers have the type the client declares. *)
Definition stats_answer (s : StatsSection) (c : value) (r : outcome exn value) : Prop :=
  match r with Ok v => conforms StatsResponse v = true | Throw _ => True end.

Definition stats_mount : pool StatsSection value (λ _, outcome exn value) := start loadStats (idle stats_initial).
Definition stats_reachable : pool StatsSection value (λ _, outcome exn value) → Prop :=
  reachable_from stats_event stats_answer stats_mount.
End Stats.

(** ** Properties *)

(** The waiting part of [handleSubmit]. *)
Definition submitting (captured : RegistrationForm) : task RegistrationForm value (λ _, outcome exn value) :=
  match handleSubmit captured with Update _ k => k | t => t end.

Definition form_inv (p : form_pool) : Prop :=
  (loading (now p) = true ∧ (∃ f, waiting p = [submitting f]) ∧ result (now p) = VNull ∧ error (now p) = None) ∨
  (loading (now p) = false ∧ waiting p = [] ∧ (result (now p) = VNull ∨ error (now p) = None)).

Lemma form_inv_step p q : form_step p q → form_inv p → form_inv q.
Proof.
  intros Hs Hp. destruct Hs as [e p He|p Hl Hn Hem|k r p].
  - by destruct Hp as [Hp|Hp]; [left|right].
  - destruct Hp as [(Hl' & _)|(_ & Hw & _)]; [congruence|]. left. unfold start. cbn [handleSubmit advance].
    split; [done|]. split; [|done]. exists (now p). cbn [waiting]. by rewrite Hw.
  - destruct Hp as [(Hl & [f Hw] & Hr & He)|Hp].
    + unfold resume, proceed. rewrite Hw. destruct k as [|k]; [|left; eauto].
      right. cbn [lookup list_lookup submitting handleSubmit].
      destruct r as [v|err]; cbn [advance]; (split; [done|]); (split; [done|]); [right|left]; done.
    + unfold resume. destruct Hp as (Hl & Hw & Hx). rewrite Hw. right. done.
Qed.

Lemma register_request_typed f : conforms RegisterRequest (register_request f) = true.
Proof. destruct f as [n e [|b bs] [|a as'] [|t ts] l r er]; reflexivity. Qed.

(** The registration form sends at most one request at a time, shows its spinner
    exactly while that request is under way, sends only well-typed registrations,
    and never shows a result together with an error. *)
Theorem registration_form_safe (p : form_pool) :
  form_reachable p →
  (loading (now p) = true ↔ ∃ c k, waiting p = [Await c k]) ∧ (loading (now p) = false ↔ waiting p = []) ∧
  (∀ c k, In (Await c k) (waiting p) → conforms RegisterRequest c = true) ∧
  (result (now p) = VNull ∨ error (now p) = None).
Proof.
  intros Hr. assert (form_inv p) as Hp.
  { assert (∀ a b, rtc form_step a b → form_inv a → form_inv b) as Hpres.
    { induction 1 as [|a b c Hab _ IH]; [done|]. intros Ha. apply IH. by apply (form_inv_step a). }
    apply (Hpres _ _ Hr). right. by repeat split; left. }
  destruct Hp as [(-> & [f ->] & Hres & _)|(-> & -> & Hx)].
  - split; [split; [by intros _; eexists _, _|done]|]. split; [done|].
    split; [|by left]. intros c k [[= <- _]|[]]. apply register_request_typed.
  - split; [split; [done|by intros (? & ? & ?)]|]. done.
Qed.

Lemma gallery_load_card `{Engine} (x : list (jstr * value)) id g ws :
  obj_get (js "id") x = Some (VStr id) →
  ∃ k, start (loadIdentityCard (VObj x)) {| now := g; waiting := ws |} =
       {| now := set_card (VObj x) VNull true g; waiting := ws ++ [Await (card_request (VStr id)) k] |} ∧
       ∀ svg, k (Ok (VObj [(js "card_svg", VStr svg)])) = Update (λ g, set_card (selectedIdentity g) (VStr svg) false g) Finish.
Proof.
  intros Hid. unfold start, loadIdentityCard. cbn [get]. rewrite Hid. cbn [default advance now waiting].
  eexists. split; [reflexivity|]. done.
Qed.

(** Cards are not told apart when they arrive: after viewing one identity,
    closing the dialog and viewing another, a late answer for the first leaves the
    dialog open with the second's title and the first's card. *)
Theorem gallery_stale_card `{Engine} (a b : list (jstr * value)) (ida idb nameb svga : jstr) :
  obj_get (js "id") a = Some (VStr ida) → obj_get (js "id") b = Some (VStr idb) →
  obj_get (js "name") b = Some (VStr nameb) → svga ≠ [] →
  ∃ p, gallery_reachable p ∧ waiting p = [] ∧
    dialog_view (now p) = Ok (true, nameb ++ js "'s Identity Card", Card (VStr svga)).
Proof.
  intros Ha Hb Hnb Hs.
  set (g1 := set_list (VArr [VObj a; VObj b]) false None gallery_initial).
  destruct (gallery_load_card a ida g1 [] Ha) as (ka & Hpa & Hka).
  destruct (gallery_load_card b idb (closeDialog (set_card (VObj a) VNull true g1)) [Await (card_request (VStr ida)) ka] Hb)
    as (kb & Hpb & Hkb).
  exists {| now := set_card (VObj b) (VStr svga) false g1; waiting := [] |}. split; [|split; [done|]].
  - unfold gallery_reachable.
    eapply rtc_l; [apply (gallery_step_answer 0 (Ok (VObj [(js "identities", VArr [VObj a; VObj b])])))|].
    change (resume 0 _ gallery_mount) with ({| now := g1; waiting := [] |} : pool IdentityGallery value (λ _, outcome exn value)).
    eapply rtc_l; [apply (gallery_step_view (VObj a) [VObj a; VObj b]); [done|by left|done]|]. rewrite Hpa.
    eapply rtc_l; [apply gallery_step_close|]. cbn [now waiting app].
    eapply rtc_l; [apply (gallery_step_view (VObj b) [VObj a; VObj b]); [done|by right; left|done]|]. rewrite Hpb.
    eapply rtc_l; [apply (gallery_step_answer 1 (Ok (VObj [(js "card_svg", VStr [])])))|].
    unfold resume, proceed. cbn [waiting app lookup list_lookup]. rewrite Hkb. cbn [advance now take drop app].
    eapply rtc_l; [apply (gallery_step_answer 0 (Ok (VObj [(js "card_svg", VStr svga)])))|].
    unfold resume, proceed. cbn [waiting app lookup list_lookup]. rewrite Hka. apply rtc_refl.
  - unfold dialog_view. cbn [now set_card selectedIdentity truthy get]. rewrite Hnb.
    destruct svga; [done|]. done.
Qed.

Lemma registration_form_safe_witness :
  let f := setFormData (EditEmail (js "a@b")) (setFormData (EditName (js "A")) initial_form) in
  let p := start (handleSubmit f) {| now := f; waiting := [] |} in
  result (now p) = VNull ∨ error (now p) = None.
Proof.
  apply registration_form_safe. unfold form_reachable.
  eapply rtc_l; [by apply (form_step_edit (EditName (js "A")))|].
  eapply rtc_l; [by apply (form_step_edit (EditEmail (js "a@b")))|].
  eapply rtc_l; [by apply form_step_submit|]. apply rtc_refl.
Defined.

Lemma gallery_stale_card_witness :
  ∃ p, @gallery_reachable Models.engine p ∧ waiting p = [] ∧
    @dialog_view Models.engine (now p) = Ok (true, js "Bo" ++ js "'s Identity Card", Card (VStr (js "svg-of-ann"))).
Proof.
  apply (@gallery_stale_card Models.engine
    [(js "id", VStr (js "1")); (js "name", VStr (js "Ann"))] [(js "id", VStr (js "2")); (js "name", VStr (js "Bo"))]
    (js "1") (js "2") (js "Bo") (js "svg-of-ann")); try reflexivity; discriminate.
Defined.
End Identity.
