(* ===== verification/IdentityWire.v ===== *)
(** * Between the identity client and the identity program

    What serde makes of the requests of wasm_programs/identity_card/ui and of the
    program's responses, the program's entry point, that the two sides agree, and what
    the pages show of the program's answers. *)

From S2P Require Import Prelude JsValue Codec Json RustLib SerdeWire WasmHost IdentityProgram IdentityLedger IdentityRules.
From S2P Require Import Platform SdkErrors Models Browser NbookClient ProgramCall SchoolViews Gateway Async Identity.

Module IdentityWire.
Import Rust Derive Host Registry Ledger RegistryRules Async.

(** ** Responses *)

Definition Identity_json (i : Registry.Identity) : value :=
  VObj [(js "id", str_json (id i)); (js "name", str_json (name i)); (js "email", str_json (email i)); (js "bio", opt_json (bio i));
        (js "avatar_url", opt_json (avatar_url i)); (js "theme", str_json (theme i)); (js "created_at", vint (created_at i));
        (js "updated_at", vint (updated_at i)); (js "checksum", str_json (checksum i))].

Definition IdentitySummary_json (s : Registry.IdentitySummary) : value :=
  VObj [(js "id", str_json (s_id s)); (js "name", str_json (s_name s)); (js "email", str_json (s_email s));
        (js "theme", str_json (s_theme s)); (js "created_at", vint (s_created_at s))].

(** [#[serde(tag = "status", rename_all = "lowercase")]]. *)
Definition Response_json (r : Response) : value :=
  let tagged (status : string) (fs : list (jstr * value)) := VObj ((js "status", VStr (js status)) :: fs) in
  match r with
  | OkRegister uid i svg => tagged "okregister"%string [(js "id", str_json uid); (js "identity", Identity_json i); (js "card_svg", str_json svg)]
  | OkProfile i => tagged "okprofile"%string [(js "identity", Identity_json i)]
  | OkUpdate uid i => tagged "okupdate"%string [(js "id", str_json uid); (js "identity", Identity_json i)]
  | OkCard uid f svg => tagged "okcard"%string [(js "id", str_json uid); (js "format", str_json f); (js "card_svg", str_json svg)]
  | OkList l n => tagged "oklist"%string [(js "identities", VArr (map IdentitySummary_json l)); (js "total", usize_json n)]
  | OkStats n b root =>
      tagged "okstats"%string [(js "total_identities", usize_json n); (js "total_storage_bytes", usize_json b); (js "merkle_root", str_json root)]
  | RespErr m => tagged "err"%string [(js "message", str_json m)]
  end.

(** ** Requests *)

(** [#[serde(tag = "op", rename_all = "lowercase")]], for an object. *)
Definition Request_of_json (fs : list (jstr * value)) : option Request :=
  let str := field as_string fs in
  let str_opt := field_opt as_string fs in
  op ← match obj_get (js "op") fs with Some (VStr s) => Some s | _ => None end;
  if str_eqb op (js "register") then
    n ← str "name"; e ← str "email"; b ← str_opt "bio"; a ← str_opt "avatar_url"; t ← str_opt "theme"; Some (Register n e b a t)
  else if str_eqb op (js "getprofile") then i ← str "id"; Some (GetProfile i)
  else if str_eqb op (js "updateprofile") then
    i ← str "id"; n ← str_opt "name"; e ← str_opt "email"; b ← str_opt "bio"; a ← str_opt "avatar_url"; t ← str_opt "theme";
    Some (UpdateProfile i n e b a t)
  else if str_eqb op (js "getcard") then i ← str "id"; f ← str_opt "format"; Some (GetCard i f)
  else if str_eqb op (js "listall") then Some ListAll
  else if str_eqb op (js "stats") then Some Stats
  else None.

(** ** The entry point *)

(** [serde_json] on the two types, as their attributes document it: the text of an
    object that has the form of a request is read as that request, and a response is
    written as the text of its form. *)
Class SerdeIdentity : Type := {
  from_request : bytes → outcome rstr Request;
  to_response : Response → bytes;
  from_request_object : ∀ fs req, json_data (VObj fs) → Request_of_json fs = Some req →
    from_request (utf8_encode (json_text (VObj fs))) = Ok req;
  to_response_text : ∀ r, json_data (Response_json r) → to_response r = utf8_encode (json_text (Response_json r));
}.

Section Entry.
Context `{SerdeIdentity} `{NodeHost} `{Blake3} `{Lowercase} `{Uppercase} `{Serde Registry.Identity} `{Serde (list rstr)}.

(** In a fresh instance: the text of the answer and the writes.  Nothing is returned
    after a panic, or when the lock of the buffer is held. *)
Definition onvm_main (input : bytes) (c : ExecutionContext) (b : OutBuf) : option (bytes * OutBuf) * ExecutionContext :=
  let '(response, c') :=
    match from_request input with
    | Ok req => execute req c
    | Throw e => (Some (RespErr (js "invalid json: " ++ e)), c)
    end in
  match response with
  | None => (None, c')
  | Some r =>
      if locked b then (None, c') else (Some (to_response r, {| contents := Some (to_response r); locked := true |}), c')
  end.

Definition onvm_last_result (b : OutBuf) : option (bytes * OutBuf) :=
  match contents b with
  | Some bs => if locked b then None else Some (bs, {| contents := Some bs; locked := true |})
  | None => Some ([], b)
  end.
End Entry.

(** ** Agreement *)

Definition ErrResponse : ty := TObj [mem "status" (TLit (js "err")); mem "message" TStr].

(** The types with [bio] and [avatar_url] as the program writes them. *)
Definition or_null (t : ty) : ty := TUnion [t; TNull].
Definition StoredIdentity : ty := TObj [
  mem "id" TStr; mem "name" TStr; mem "email" TStr; mem "bio" (or_null TStr); mem "avatar_url" (or_null TStr); mem "theme" TStr;
  mem "created_at" TNum; mem "updated_at" TNum; mem "checksum" TStr].
Definition RegisterAnswer : ty := TObj [
  Identity.status_is "okregister"; mem "id" TStr; mem "identity" StoredIdentity; mem "card_svg" TStr].
Definition GetProfileAnswer : ty := TObj [Identity.status_is "okprofile"; mem "identity" StoredIdentity].
Definition UpdateProfileAnswer : ty := TObj [Identity.status_is "okupdate"; mem "id" TStr; mem "identity" StoredIdentity].

(** What the pages and the client's methods send, with the type of the answer. *)
Definition exchanges (f : Identity.RegistrationForm) (uid : jstr) (n e b a t : option jstr) : list (value * ty) :=
  [ (Identity.register_request f, RegisterAnswer);
    (VObj [(js "op", VStr (js "getprofile")); (js "id", VStr uid)], GetProfileAnswer);
    (VObj [(js "op", VStr (js "updateprofile")); (js "id", VStr uid); (js "name", opt_str n); (js "email", opt_str e);
           (js "bio", opt_str b); (js "avatar_url", opt_str a); (js "theme", opt_str t)], UpdateProfileAnswer);
    (Identity.card_request (VStr uid), Identity.GetCardResponse);
    (VObj [(js "op", VStr (js "listall"))], Identity.ListAllResponse);
    (VObj [(js "op", VStr (js "stats"))], Identity.StatsResponse) ].

(** The request a form stands for. *)
Definition filled (s : jstr) : option rstr := match s with [] => None | _ => Some (utf8_encode s) end.
Definition form_request (f : Identity.RegistrationForm) : Request :=
  Register (utf8_encode (Identity.name f)) (utf8_encode (Identity.email f)) (filled (Identity.bio f))
    (filled (Identity.avatar_url f)) (filled (Identity.theme f)).

Definition form_ok (f : Identity.RegistrationForm) : Prop :=
  Forall (λ s, text_ok s ∧ unit_str s) [Identity.name f; Identity.email f; Identity.bio f; Identity.avatar_url f; Identity.theme f].

Lemma field_filled fs k s :
  obj_get (js k) fs = Some (Identity.or_undefined s) → text_ok s → field_opt as_string fs k = Some (filled s).
Proof.
  intros Hk Hs. unfold field_opt. rewrite Hk. destruct s as [|c s]; [done|]. cbn [Identity.or_undefined].
  by rewrite as_string_ok.
Qed.

(** Decides which request it is. *)
Ltac pick_request :=
  unfold Request_of_json; cbv zeta;
  match goal with |- context [obj_get (js "op") ?fs] =>
    let x := eval vm_compute in (obj_get (js "op") fs) in change (obj_get (js "op") fs) with x end;
  cbn [mbind option_bind];
  repeat match goal with |- context [str_eqb ?x ?y] =>
    let b := eval vm_compute in (str_eqb x y) in change (str_eqb x y) with b; cbv iota end.

Definition members (v : value) : list (jstr * value) := match v with VObj fs => fs | _ => [] end.

Lemma form_read f : form_ok f → Request_of_json (members (Identity.register_request f)) = Some (form_request f).
Proof.
  intros Hf. repeat apply Forall_cons in Hf as [[] Hf]. unfold Identity.register_request. cbn [members]. pick_request.
  repeat (erewrite field_str by first [reflexivity | assumption]; cbn [mbind option_bind]).
  repeat (erewrite field_filled by first [reflexivity | assumption]; cbn [mbind option_bind]). reflexivity.
Qed.

(** As it is on the wire, without the members that are undefined. *)
Lemma request_sent fs : NoDup fs.*1 → Request_of_json (drop_undefined fs) = Request_of_json fs.
Proof.
  intros Hd. unfold Request_of_json. cbv zeta. rewrite obj_get_sent by done. rewrite !field_sent, !field_opt_sent by done.
  by destruct (obj_get (js "op") fs) as [[]|].
Qed.

Lemma Identity_conforms i : conforms StoredIdentity (Identity_json i) = true.
Proof. destruct i as [? ? ? [] [] ? ? ? ?]; reflexivity. Qed.

Lemma Summary_conforms x : conforms Identity.IdentitySummary (IdentitySummary_json x) = true.
Proof. reflexivity. Qed.

Section Agreement.
Context `{NodeHost} `{Blake3} `{Lowercase} `{Uppercase} `{Serde Registry.Identity} `{Serde (list rstr)}.

(** What a computation returns, if it does. *)
Definition returns {A} (P : A → Prop) (m : M fault instance A) : Prop := ∀ s a s', m s = (Ok a, s') → P a.

Lemma registry_returns_bind {A B} (P : B → Prop) (m : M fault instance A) (f : A → M fault instance B) :
  (∀ a, returns P (f a)) → returns P (bindM m f).
Proof. intros Hf s b s' Hr. unfold bindM in Hr. destruct (m s) as [[a|e] s1]; [by eapply Hf|done]. Qed.

Lemma registry_returns_ret {A} (P : A → Prop) a : P a → returns P (retM a).
Proof. by intros Ha s b s' [= <- _]. Qed.

Lemma returns_fail {A} (P : A → Prop) m : returns P (fail m).
Proof. done. Qed.

(** A response to a request: of the type that is expected, or an error. *)
Definition answers_with (t : ty) (req : Request) : Prop :=
  ∀ c r c', execute req c = (Some r, c') → conforms t (Response_json r) = true ∨ conforms ErrResponse (Response_json r) = true.

Lemma returns_answers t req : returns (λ r, conforms t (Response_json r) = true) (handle_request req) → answers_with t req.
Proof.
  intros Hr c r c' He. unfold execute in He. destruct (handle_request req _) as [[x|[m|]] i] eqn:Hh; [|by right; injection He as <- <-|done].
  left. injection He as <- <-. by eapply Hr.
Qed.

Ltac returning := repeat first [apply registry_returns_bind; intros ? | apply registry_returns_ret | apply returns_fail | case_match].

Lemma register_answers n e b a t : answers_with RegisterAnswer (Register n e b a t).
Proof.
  apply returns_answers. cbn [handle_request]. unfold register. returning.
  Nbook.build_object_with ltac:(first [reflexivity | apply Identity_conforms]).
Qed.

Lemma profile_answers uid : answers_with GetProfileAnswer (GetProfile uid).
Proof.
  apply returns_answers. cbn [handle_request]. returning. Nbook.build_object_with ltac:(first [reflexivity | apply Identity_conforms]).
Qed.

Lemma update_answers uid n e b a t : answers_with UpdateProfileAnswer (UpdateProfile uid n e b a t).
Proof.
  apply returns_answers. cbn [handle_request]. unfold update_profile. returning;
  Nbook.build_object_with ltac:(first [reflexivity | apply Identity_conforms]).
Qed.

Lemma list_answers : answers_with Identity.ListAllResponse ListAll.
Proof.
  apply returns_answers. cbn [handle_request]. unfold list_all. returning.
  Nbook.build_object_with ltac:(first [reflexivity | apply forallb_map_true, Summary_conforms]).
Qed.

(** The client and the program agree on operations: whatever the pages or the client's
    methods send, without unpaired surrogates, is read by the program as the request
    that is meant, also with the undefined members left out; and in every state each
    answer has the type the client declares, but that a missing bio or picture is
    null, or is an error with a message. *)
Theorem identity_client_agree (f : Identity.RegistrationForm) (uid : jstr) (n e b a t : option jstr) (request : value) (answer : ty) :
  form_ok f → text_ok uid → (∀ o, o ∈ [n; e; b; a; t] → ∀ s, o = Some s → text_ok s) →
  In (request, answer) (exchanges f uid n e b a t) →
  ∃ req, Request_of_json (drop_undefined (members request)) = Some req ∧ answers_with answer req.
Proof.
  intros Hf Hu Ho Hin. assert (∀ o, o ∈ [n; e; b; a; t] → ∀ s, o = Some s → text_ok s) as Ho' by exact Ho.
  unfold exchanges in Hin. destruct Hin as [[= <- <-]|[[= <- <-]|[[= <- <-]|[[= <- <-]|[[= <- <-]|[[= <- <-]|[]]]]]]];
    rewrite request_sent by (apply (bool_decide_unpack _); vm_compute; reflexivity).
  - exists (form_request f). split; [by apply form_read|apply register_answers].
  - exists (GetProfile (utf8_encode uid)). split; [|apply profile_answers]. cbn [members]. pick_request. by erewrite field_str.
  - eexists. split; [|apply update_answers]. cbn [members]. pick_request.
    erewrite field_str by first [reflexivity | assumption]. cbn [mbind option_bind].
    repeat (erewrite field_opt_str by first [reflexivity | apply Ho; set_solver]; cbn [mbind option_bind]). reflexivity.
  - exists (GetCard (utf8_encode uid) (Some (js "svg"))). split; [|apply returns_answers; cbn [handle_request]; unfold get_card; returning; reflexivity].
    unfold Identity.card_request. cbn [members]. pick_request. by erewrite field_str.
  - exists ListAll. split; [reflexivity|apply list_answers].
  - exists Stats. split; [reflexivity|apply returns_answers; cbn [handle_request]; unfold stats; returning; reflexivity].
Qed.

(** The declared type of an identity has no room for null: the answer to a request for a
    profile has the declared type exactly when the identity has both a bio and a
    picture. *)
Theorem declared_profile_type (i : Registry.Identity) :
  conforms Identity.GetProfileResponse (Response_json (OkProfile i)) = true ↔ is_Some (bio i) ∧ is_Some (avatar_url i).
Proof.
  destruct i as [? ? ? [x|] [y|] ? ? ? ?]; cbn [bio avatar_url]; split; try done; try (by intros [[] []]); intros _; split; by eexists.
Qed.
End Agreement.

Section Registration.
Context `{Engine} `{SerdeIdentity} `{NodeHost} `{Blake3} `{Lowercase} `{Uppercase} `{Serde Registry.Identity} `{Serde (list rstr)}.

Definition idle_buf : OutBuf := {| contents := None; locked := false |}.

Lemma request_keys f : NoDup (members (Identity.register_request f)).*1.
Proof. apply (bool_decide_unpack _). vm_compute. reflexivity. Qed.

Lemma request_data f : form_ok f → json_data (VObj (drop_undefined (members (Identity.register_request f)))).
Proof.
  intros Hf. repeat apply Forall_cons in Hf as [[] Hf].
  destruct f as [n e [|b bs] [|a as_] [|t ts] l r er]; cbn -[js]; constructor;
    try decide_closed; repeat (constructor; [first [decide_closed | by apply jd_str | apply jd_str; decide_closed]|]); constructor.
Qed.

Lemma form_received f c :
  form_ok f →
  onvm_main (b64_decode (ProgramCall.encode_input (Identity.register_request f))) c idle_buf =
  (let '(r, c') := execute (form_request f) c in
   (match r with Some r => Some (to_response r, {| contents := Some (to_response r); locked := true |}) | None => None end, c')).
Proof.
  intros Hf. pose proof (request_data f Hf) as Hd. set (fs := members (Identity.register_request f)) in *.
  assert (json_text (Identity.register_request f) = json_text (VObj (drop_undefined fs))) as Ht.
  { unfold json_text. by rewrite <- stringify_drop_undefined. }
  unfold ProgramCall.encode_input. rewrite Ht, b64_decode_encode by by apply json_text_bytes. unfold onvm_main.
  rewrite (from_request_object _ (form_request f)); [by destruct (execute _ c) as [[]]|done|].
  unfold fs. rewrite request_sent by apply request_keys. by apply form_read.
Qed.

Lemma register_response n e b a t c r c' :
  execute (Register n e b a t) c = (Some r, c') → (∃ uid i svg, r = OkRegister uid i svg) ∨ ∃ m, r = RespErr m.
Proof.
  assert (returns (λ r, ∃ uid i svg, r = OkRegister uid i svg) (handle_request (Register n e b a t))) as Hr.
  { cbn [handle_request]. unfold register. repeat first [apply registry_returns_bind; intros ? | apply returns_fail | case_match].
    apply registry_returns_ret. by eexists _, _, _. }
  unfold execute. destruct (handle_request _ _) as [[x|[m|]] i] eqn:Hh; [|by intros [= <- <-]; right; exists m|done].
  intros [= <- <-]. left. by eapply Hr.
Qed.

(** C35 A registration, from the form to the page: the program reads what the form sends as
    the registration that was filled in, and when its answer comes back through the
    node the form is done and shows the identifier and the card that were made, or the
    program's message. *)
Theorem registration_end_to_end (f : Identity.RegistrationForm) (c : ExecutionContext) (r : Response) (c' : ExecutionContext) :
  form_ok f → json_data (Response_json r) → execute (form_request f) c = (Some r, c') →
  ∃ out b, onvm_main (b64_decode (ProgramCall.encode_input (Identity.register_request f))) c idle_buf = (Some (out, b), c') ∧
    ∀ reply, get reply (js "return_base64") = Ok (VStr (b64_encode out)) →
    let p := start (Identity.handleSubmit f) {| now := f; waiting := [] |} in
    let q := resume 0 (λ _, ProgramCall.read_answer (js "err") (js "message") reply) p in
    waiting q = [] ∧
    Identity.RegistrationForm_view (now q) =
      Ok (match r with RespErr m => Some (str_or (utf8_decode m) (js "Unknown error occurred")) | _ => None end,
          match r with OkRegister uid _ svg => Some (utf8_decode uid, str_json svg) | _ => None end, js "Create Identity Card").
Proof.
  intros Hf Hd He. rewrite form_received, He by done. exists (to_response r), {| contents := Some (to_response r); locked := true |}.
  split; [done|]. intros reply. rewrite to_response_text by done. intros Hrep p q.
  pose proof (ProgramCall.read_answer_json (js "err") (js "message") reply (Response_json r) Hd Hrep) as Hans.
  unfold q, p, start, resume, proceed. cbn [Identity.handleSubmit advance waiting now app lookup list_lookup]. rewrite Hans.
  destruct (register_response _ _ _ _ _ _ _ _ He) as [(uid & i & svg & ->)|[m ->]]; cbn -[js utf8_decode]; [done|].
  destruct (utf8_decode m) as [|x t] eqn:Hm; (split; [done|]); unfold str_json; rewrite ?Hm; done.
Qed.
End Registration.
End IdentityWire.
