(* ===== verification/IdentityDemo.v ===== *)
(** * The theorems on the identity program at concrete requests

    A short history of the registry and a form, at which the theorems of
    IdentityLedger.v, IdentityRules.v, IdentityCards.v and IdentityWire.v are applied. *)

From S2P Require Import Prelude JsValue Codec Json RustLib SerdeWire WasmHost RustModels IdentityProgram IdentityLedger IdentityRules IdentityCards.
From S2P Require Import Platform Models Async ProgramCall Identity IdentityWire.

Module IdentityDemo.
Import Rust Derive Host RustModels Registry Ledger RegistryRules Cards IdentityWire.

(** ** A codec for identities *)

Definition write_identity (i : Registry.Identity) : bytes :=
  created_at i :: updated_at i :: frame (id i) ++ frame (name i) ++ frame (email i) ++ frame_opt (bio i) ++ frame_opt (avatar_url i)
    ++ frame (theme i) ++ frame (checksum i).

Definition read_identity (bs : bytes) : outcome rstr Registry.Identity :=
  let parsed :=
    match bs with
    | c :: u :: r =>
        '(i, r) ← unframe r; '(n, r) ← unframe r; '(e, r) ← unframe r; '(b, r) ← unframe_opt r; '(a, r) ← unframe_opt r;
        '(t, r) ← unframe r; '(k, r) ← unframe r; Some (Registry.Build_Identity i n e b a t c u k)
    | _ => None
    end in
  match parsed with Some i => Ok i | None => Throw (js "not an identity") end.

Lemma read_write_identity i : read_identity (write_identity i) = Ok i.
Proof.
  destruct i as [i n e b a t c u k]. unfold read_identity, write_identity. cbn [id name email bio avatar_url theme created_at updated_at checksum].
  rewrite <- (app_nil_r (frame k)).
  repeat (first [rewrite unframe_frame | rewrite unframe_opt_frame]; cbn [mbind option_bind]). done.
Qed.

Lemma write_identity_filled i : write_identity i ≠ [].
Proof. done. Qed.

Definition serde_identity : Serde Registry.Identity :=
  {| to_vec := write_identity; from_slice := read_identity; from_slice_to_vec := read_write_identity; to_vec_filled := write_identity_filled |}.
#[local] Existing Instances still_node blake3_sum lowercase_ascii uppercase_ascii serde_identity serde_list.

Lemma node_answers : ∀ k, db_fails k = false.
Proof. done. Qed.

(** ** A history *)

Definition ann_email : rstr := js "ann@x.org".
Definition ann_id : rstr := identity_id (js "ann") ann_email.
(** Sixty bytes, the 57th of which is the second of a character of two. *)
Definition bad_bio : rstr := replicate 56 97 ++ [195; 169] ++ replicate 4 97.

Definition history : list Request :=
  [Register (js "ann") ann_email None None None; Register (js "<bo") (js "bo@x") (Some (js "hi")) None (Some (js "red"));
   UpdateProfile ann_id None None (Some bad_bio) None None].

Lemma identity_program_refines_witness :
  (serve history fresh_context).1 = (answers history empty_ledger).1.
Proof. exact (proj1 (identity_program_refines history node_answers)). Defined.

Lemma identity_records_kept_witness : ∃ L, represents (after history fresh_context) L ∧ ledger_ok L.
Proof. apply (identity_records_kept history node_answers). Defined.

(** Ann's card cannot be drawn after the update. *)
Lemma identity_panics_witness : ∃ L, represents (after history fresh_context) L ∧ panics (GetCard ann_id None) L.
Proof.
  destruct (identity_panics history node_answers blake3_sum_length blake3_sum_bytes) as (L & HL & Hp).
  exists L. split; [exact HL|]. apply (Hp (GetCard ann_id None)). vm_compute. reflexivity.
Defined.

Lemma identity_lifecycle_witness :
  profile ann_id (next_execution (execute (Register (js "ann") ann_email None None None) (after [] fresh_context)).2)
  = Some (new_identity (js "ann") ann_email None None None).
Proof.
  eapply (identity_lifecycle [] [Stats] (js "ann") ann_email None None None ann_id _ _ _ node_answers).
  vm_compute. reflexivity.
Defined.

Definition renamed : Registry.Identity := updated_identity (new_identity (js "ann") ann_email None None None) (Some (js "anna")) None None None None.

Lemma profile_update_exact_witness : updated_at renamed = created_at renamed - 1.
Proof.
  destruct (profile_update_exact [Register (js "ann") ann_email None None None] ann_id (Some (js "anna")) None None None None renamed
    (execute (UpdateProfile ann_id (Some (js "anna")) None None None None) (after [Register (js "ann") ann_email None None None] fresh_context)).2
    node_answers) as (i & _ & _ & _ & _ & _ & _ & _ & _ & Hu & _); [vm_compute; reflexivity|exact Hu].
Defined.

(** The name [an] with the address [nann@x.org] has the identifier of Ann. *)
Lemma registration_refused_witness :
  (execute (Register (js "an") (js "n" ++ ann_email) None None None)
     (next_execution (execute (Register (js "ann") ann_email None None None) (after [] fresh_context)).2)).1
  = Some (RespErr (js "identity already exists: " ++ ann_id)).
Proof.
  eapply (registration_refused [] (js "ann") ann_email None None None (js "an") (js "n" ++ ann_email) None None None ann_id _ _ _ node_answers);
    [vm_compute; reflexivity|reflexivity..].
Defined.

(** ** Cards *)

Lemma upper_marks : ∀ s, marks (char_to_uppercase s) = marks s.
Proof.
  intros s. unfold char_to_uppercase, uppercase_ascii. induction s as [|c s IH]; [done|]. cbn [map marks List.filter] in *. unfold marks in IH.
  rewrite IH. destruct ((97 <=? c) && (c <=? 122)) eqn:E; [|done]. unfold is_mark. zbool.
  by rewrite (proj2 (Z.eqb_neq (c - 32) 60)), (proj2 (Z.eqb_neq (c - 32) 62)), (proj2 (Z.eqb_neq (c - 32) 34)),
    (proj2 (Z.eqb_neq c 60)), (proj2 (Z.eqb_neq c 62)), (proj2 (Z.eqb_neq c 34)) by lia.
Qed.

Definition ann_record : Registry.Identity := new_identity (js "ann") ann_email None None None.
Definition sly_record : Registry.Identity := new_identity (js "x<script>") (js "s@x") (Some (js "<b>")) None (Some (js "`/><script>")).
Definition bracket_record : Registry.Identity := new_identity (js "<bo") (js "bo@x") None None None.
Definition card_text_of (i : Registry.Identity) : rstr := default [] (card_of i).

Lemma card_markup_fixed_witness : marks (card_text_of sly_record) = marks (card_text_of ann_record).
Proof.
  destruct (card_markup_fixed upper_marks blake3_sum_bytes) as (head & tail & Hcard).
  destruct (Hcard (id sly_record) sly_record (card_text_of sly_record)) as (-> & _); [by apply new_entry_ok|vm_compute; reflexivity|].
  destruct (Hcard (id ann_record) ann_record (card_text_of ann_record)) as (-> & _); [by apply new_entry_ok|vm_compute; reflexivity|].
  reflexivity.
Defined.

Lemma card_initial_unescaped_witness : length (marks (card_text_of bracket_record)) = S (length (marks (card_text_of ann_record))).
Proof.
  eapply (card_initial_unescaped (id bracket_record) bracket_record _ (id ann_record) ann_record _ (js "bo") 97 (js "nn") upper_marks blake3_sum_bytes);
    [by apply new_entry_ok|by apply new_entry_ok|vm_compute; reflexivity|vm_compute; reflexivity|reflexivity..].
Defined.

(** ** The page and the program *)

Definition the_form : Identity.RegistrationForm :=
  Identity.setFormData (Identity.EditEmail ann_email) (Identity.setFormData (Identity.EditName (js "ann")) Identity.initial_form).

Lemma the_form_ok : form_ok the_form.
Proof. repeat (constructor; [split; [reflexivity|decide_closed]|]). constructor. Qed.

Lemma identity_client_agree_witness :
  ∃ req, Request_of_json (drop_undefined (members (Identity.register_request the_form))) = Some req ∧ answers_with RegisterAnswer req.
Proof.
  apply (identity_client_agree the_form (js "1") None None None None None);
    [apply the_form_ok|reflexivity| |by left].
  intros o Ho s ->. repeat (apply elem_of_cons in Ho as [Ho|Ho]; [discriminate Ho|]). by apply not_elem_of_nil in Ho.
Defined.

Definition parse_request (bs : bytes) : outcome rstr Request :=
  match @json_parse Models.engine (utf8_decode bs) with
  | Ok (VObj fs) => match Request_of_json fs with Some req => Ok req | None => Throw (js "data did not match") end
  | _ => Throw (js "expected value")
  end.

Lemma registry_parse_request_object fs req :
  json_data (VObj fs) → Request_of_json fs = Some req → parse_request (utf8_encode (json_text (VObj fs))) = Ok req.
Proof. intros Hd Hr. unfold parse_request. by rewrite json_text_utf8, json_parse_text, Hr. Qed.

Definition serde_text : SerdeIdentity :=
  {| from_request := parse_request; to_response := λ r, utf8_encode (json_text (Response_json r));
     from_request_object := registry_parse_request_object; to_response_text := λ r _, eq_refl |}.

Definition the_answer : Response := OkRegister ann_id (new_identity (js "ann") ann_email None None (Some (js "blue")))
  (card_text_of (new_identity (js "ann") ann_email None None (Some (js "blue")))).

Lemma registration_end_to_end_witness :
  ∃ out b, @onvm_main serde_text _ _ _ _ _ _ (b64_decode (ProgramCall.encode_input (Identity.register_request the_form))) fresh_context idle_buf
           = (Some (out, b), (execute (form_request the_form) fresh_context).2).
Proof.
  destruct (@registration_end_to_end Models.engine serde_text still_node blake3_sum lowercase_ascii uppercase_ascii serde_identity serde_list
    the_form fresh_context the_answer (execute (form_request the_form) fresh_context).2) as (out & b & Hm & _).
  - apply the_form_ok.
  - repeat (constructor; try decide_closed).
  - vm_compute. reflexivity.
  - exists out, b. exact Hm.
Defined.
End IdentityDemo.
