(* ===== verification/Liveness.v ===== *)
(** * Termination and liveness of the school and identity components

    components/grades-view.tsx of the school program, and
    components/identity-gallery.tsx and components/stats-section.tsx of the
    identity program: every run of answers ends, and it ends with the spinners
    gone.  The nbook components have their own such theorems. *)

From S2P Require Import Prelude JsValue Codec Json Platform SdkErrors SdkTypes Models SdkAuth SdkClient Browser.
From S2P Require Import ProgramCall SchoolClient SchoolViews Async SchoolGrades Gateway Identity.

Module Liveness.
Import Async.

(** ** The grades view *)

Section GradesView.
Import Views Grades Async.
Context `{Engine} `{CaseMap}.

Abbreviation settled due := (settles loading due).

Lemma attempt_settles {A} due (o : outcome exn A) k : (∀ a, settled due (k a)) → settled due (attempt o k).
Proof. intros Hk. destruct o as [a|e]; [apply Hk|]. cbn [attempt]. unfold grades_failed, grades_done. settle. Qed.

Lemma grades_loop_settles ss cs todo acc : settled true (grades_loop ss cs todo acc).
Proof.
  revert acc. induction todo as [|x rest IH]; intros acc; cbn [grades_loop].
  - unfold grades_done. settle.
  - apply attempt_settles. intros id r. apply attempt_settles. intros [d|]; [|done]. apply attempt_settles. intros l. apply IH.
Qed.

Lemma current_settles captured c k : (∀ v, settled true (k v)) → settled true (current captured c k).
Proof. intros Hk. unfold current. destruct (some_items captured); [done|]. intros r. by apply attempt_settles. Qed.

Lemma fetch_into_settles c store m : (∀ v, never_raises loading (store v)) → settled false (fetch_into c store m).
Proof. intros Hs r. destruct (Views.answered r) as [[d|]|e]; [|done|]; right; left; (split; [first [apply Hs|by intros ?]|done]). Qed.

Lemma fetchStudents_settles : settled false fetchStudents.
Proof. apply fetch_into_settles. by intros v s. Qed.
Lemma fetchCourses_settles : settled false fetchCourses.
Proof. apply fetch_into_settles. by intros v s. Qed.

(** What [fetchGrades] does once the spinner is shown. *)
Definition fetching (captured : gview) : handler := match fetchGrades captured with Update _ k => k | t => t end.

Lemma fetching_settles v : settled true (fetching v).
Proof.
  unfold fetching, fetchGrades. apply settles_andThen_due; [case_match; [apply fetchStudents_settles|done]|].
  apply settles_andThen_due; [case_match; [apply fetchCourses_settles|done]|].
  apply current_settles. intros ss. apply current_settles. intros cs. apply attempt_settles. intros l. apply grades_loop_settles.
Qed.

Lemma fetchGrades_settles v : settled false (fetchGrades v).
Proof. right; right. apply fetching_settles. Qed.

Lemma handleAddGrade_settles t v : settled false (handleAddGrade t v).
Proof.
  unfold handleAddGrade. destruct (newGrade t (formData v)) as [g|]; [|done]. intros r.
  destruct (let! response := r in Views.succeeded response) as [[]|e]; [|settle..].
  apply settles_andThen; [apply fetchGrades_settles|settle].
Qed.

Lemma mount_flag d : flag_inv loading (mount d).
Proof.
  unfold mount. apply flag_start; [apply fetchCourses_settles|]. apply flag_start; [apply fetchStudents_settles|].
  apply (flag_start loading (fetchGrades (first_render d)) (idle (set_loading false (first_render d))));
    [apply fetchGrades_settles|by apply flag_inv_idle].
Qed.

Lemma grades_step_flag possible p q : Grades.step possible p q → flag_inv loading p → flag_inv loading q.
Proof.
  intros Hs Hp. destruct Hs as [| | | | |k c f r p Hk Hr]; try exact Hp; [apply flag_start; [apply handleAddGrade_settles|done]|].
  by eapply flag_proceed.
Qed.

(** *** What the view shows

    Students and courses with a text as name and grades with a number as score, of which
    types/index.ts declares more members. *)
Definition Named : ty := TObj [mem "name" TStr].
Definition Scored : ty := TObj [mem "score" TNum].
Definition Row : ty := TObj [mem "studentName" TStr; mem "courseName" TStr; mem "score" TNum].

Definition data_type (c : request) : ty :=
  match c with ListStudents | ListCourses => TArr Named | GetStudentGrades _ => TArr Scored | AssignGrade _ => TAny end.

(** The data of an answer, if there is any, have their type. *)
Definition typed_data (c : request) (r : outcome exn value) : Prop :=
  ∀ v data, r = Ok v → get v (js "data") = Ok data → truthy data = true → conforms (data_type c) data = true.

Definition typed_view (v : gview) : Prop :=
  conforms (TArr Named) (students v) = true ∧ conforms (TArr Named) (courses v) = true ∧ conforms (TArr Row) (grades v) = true.

Abbreviation keeps_types := (sound typed_view typed_data).

Lemma answered_typed c r data : typed_data c r → answered r = Ok (Some data) → conforms (data_type c) data = true.
Proof.
  intros Hr. unfold answered, succeeded. destruct r as [v|]; [|done]. cbn [outcome_bind].
  destruct (get v (js "status")) as [st|]; [|done]. cbn [outcome_bind]. destruct (is_str _ _); [|done].
  destruct (get v (js "data")) as [d|] eqn:Hd; [|done]. cbn [outcome_bind]. destruct (truthy d) eqn:Ht; [|done].
  intros [= <-]. by apply (Hr v).
Qed.

Lemma name_or_text info fallback n :
  match info with Some x => conforms Named x = true | None => True end → name_or info fallback = Ok n → ∃ t, n = VStr t.
Proof.
  destruct info as [x|]; cbn [name_or]; [|intros _ [= <-]; by eexists]. intros Hx.
  destruct (get_string _ x "name" Hx ltac:(in_members)) as [t ->]. cbn [outcome_bind]. intros [= <-].
  destruct t; by eexists.
Qed.

Lemma find_id_from i l o : find_id i l = Ok o → match o with Some x => x ∈ l | None => True end.
Proof.
  induction l as [|x l IH]; cbn [find_id]; [by intros [= <-]|]. destruct (get x (js "id")) as [j|]; [|done]. cbn [outcome_bind].
  destruct (strict_eq j i); [intros [= <-]; by left|]. intros Ho. specialize (IH Ho). destruct o; [by right|done].
Qed.

Lemma found_named l i o : conforms (TArr Named) l = true → find_in l i = Ok o → match o with Some x => conforms Named x = true | None => True end.
Proof.
  destruct l as [| | | | |l|]; try done. cbn [find_in conforms]. rewrite forallb_forall. intros Hl Ho. apply find_id_from in Ho.
  destruct o as [x|]; [|done]. by apply Hl, list_elem_of_In.
Qed.

Lemma row_made fs t u :
  conforms Scored (VObj fs) = true → conforms Row (VObj (obj_set (js "courseName") (VStr u) (obj_set (js "studentName") (VStr t) fs))) = true.
Proof.
  set (fs' := obj_set _ _ _). assert (obj_get (js "studentName") fs' = Some (VStr t)) as H1.
  { unfold fs'. rewrite obj_get_set_ne by (intros Heq%js_inj; discriminate). apply obj_get_set. }
  assert (obj_get (js "courseName") fs' = Some (VStr u)) as H2 by apply obj_get_set.
  assert (obj_get (js "score") fs' = obj_get (js "score") fs) as H3.
  { unfold fs'. by rewrite !obj_get_set_ne by (intros Heq%js_inj; discriminate). }
  clearbody fs'. cbn [conforms Row Scored forallb mem]. by rewrite H1, H2, H3.
Qed.

Lemma annotate_row ss cs g y :
  conforms (TArr Named) ss = true → conforms (TArr Named) cs = true → conforms Scored g = true → annotate ss cs g = Ok y → conforms Row y = true.
Proof.
  intros Hs Hc Hg. unfold annotate. destruct (get g (js "student_id")) as [i|]; [|done]. cbn [outcome_bind].
  destruct (find_in ss i) as [si|] eqn:Hsi; [|done]. cbn [outcome_bind]. destruct (get g (js "course_id")) as [j|]; [|done]. cbn [outcome_bind].
  destruct (find_in cs j) as [ci|] eqn:Hci; [|done]. cbn [outcome_bind]. destruct (name_or si _) as [sn|] eqn:Hsn; [|done]. cbn [outcome_bind].
  destruct (name_or ci _) as [cn|] eqn:Hcn; [|done]. cbn [outcome_bind]. intros [= <-].
  destruct (name_or_text si _ sn (found_named ss i si Hs Hsi) Hsn) as [t ->]. destruct (name_or_text ci _ cn (found_named cs j ci Hc Hci) Hcn) as [u ->].
  destruct g as [| | | | | |fs]; try done. cbn [spread]. by apply row_made.
Qed.

Lemma annotate_rows ss cs d l :
  conforms (TArr Named) ss = true → conforms (TArr Named) cs = true → conforms (TArr Scored) d = true →
  js_map d (annotate ss cs) = Ok l → conforms (TArr Row) l = true.
Proof.
  intros Hs Hc Hd. destruct d as [| | | | |gs|]; try done. cbn [js_map conforms] in *.
  destruct (traverse (annotate ss cs) gs) as [ys|] eqn:Ht; [|done]. cbn [outcome_bind]. intros [= <-]. cbn [conforms].
  revert ys Ht. induction gs as [|g gs IH]; cbn [traverse]; intros ys; [by intros [= <-]|]. cbn [forallb] in Hd. apply andb_prop in Hd as [Hg Hd].
  destruct (annotate ss cs g) as [y|] eqn:Hy; [|done]. cbn [outcome_bind]. destruct (traverse _ gs) as [zs|]; [|done]. cbn [outcome_bind].
  intros [= <-]. cbn [forallb]. rewrite (annotate_row ss cs g y) by done. by apply IH.
Qed.

Ltac kept := cbn; repeat (split; [by intros ? (? & ? & ?)|]); try exact I.

Lemma attempt_sound {A} (o : outcome exn A) k : (∀ a, o = Ok a → keeps_types (k a)) → keeps_types (attempt o k).
Proof. intros Hk. destruct o as [a|e]; [by apply Hk|]. kept. Qed.

Lemma grades_loop_sound ss cs todo acc :
  conforms (TArr Named) ss = true → conforms (TArr Named) cs = true → conforms (TArr Row) (VArr acc) = true →
  keeps_types (grades_loop ss cs todo acc).
Proof.
  intros Hs Hc. revert acc. induction todo as [|x rest IH]; intros acc Hacc; cbn [grades_loop].
  - cbn. split; [by intros v (? & ? & _)|]. split; [by intros v (? & ? & ?)|done].
  - apply attempt_sound. intros i _ r Hr. apply attempt_sound. intros [d|] Ha; [|by apply IH]. apply (answered_typed _ r d Hr) in Ha.
    apply attempt_sound. intros l Hl. destruct (js_map d _) as [m|] eqn:Hm; [|done]. cbn [outcome_bind] in Hl.
    apply (annotate_rows ss cs d m Hs Hc Ha) in Hm. destruct m as [| | | | |m|]; try done. injection Hl as <-. apply IH.
    cbn [conforms] in *. rewrite forallb_app. by rewrite Hacc.
Qed.

Lemma fetch_into_sound c store m :
  (∀ data v, conforms (data_type c) data = true → typed_view v → typed_view (store data v)) → keeps_types (fetch_into c store m).
Proof.
  intros Hs r Hr. destruct (answered r) as [[d|]|e] eqn:Ha; [|done|kept].
  split; [|done]. intros v. by apply Hs, (answered_typed c r).
Qed.

Lemma fetchStudents_sound : keeps_types fetchStudents.
Proof. apply fetch_into_sound. by intros data v Hd (_ & ? & ?). Qed.
Lemma fetchCourses_sound : keeps_types fetchCourses.
Proof. apply fetch_into_sound. by intros data v Hd (? & _ & ?). Qed.

Lemma current_sound captured c k :
  data_type c = TArr Named → conforms (TArr Named) captured = true →
  (∀ v, conforms (TArr Named) v = true → keeps_types (k v)) → keeps_types (current captured c k).
Proof.
  intros Hty Hc Hk. unfold current. destruct (some_items captured); [by apply Hk|]. intros r Hr. apply attempt_sound. intros a Ha.
  apply Hk. destruct r as [v|]; [|done]. cbn [outcome_bind] in Ha. destruct (get v (js "data")) as [d|] eqn:Hd; [|done]. cbn [outcome_bind] in Ha.
  injection Ha as <-. unfold js_or. destruct (truthy d) eqn:Ht; [|done]. rewrite <- Hty. by apply (Hr v).
Qed.

Lemma fetchGrades_sound v : typed_view v → keeps_types (fetchGrades v).
Proof.
  intros (Hs & Hc & Hg). cbn [fetchGrades sound]. split; [by intros ? (? & ? & ?)|].
  apply sound_andThen; [case_match; [apply fetchStudents_sound|done]|]. apply sound_andThen; [case_match; [apply fetchCourses_sound|done]|].
  apply current_sound; [done|done|]. intros ss Hss. apply current_sound; [done|done|]. intros cs Hcs. apply attempt_sound. intros l _.
  by apply grades_loop_sound.
Qed.

Lemma handleAddGrade_sound t v : typed_view v → keeps_types (handleAddGrade t v).
Proof.
  intros Hv. unfold handleAddGrade. destruct (newGrade t (formData v)) as [g|]; [|done]. intros r _.
  destruct (let! response := r in succeeded response) as [[]|e]; [|kept..].
  apply sound_andThen; [by apply fetchGrades_sound|]. kept.
Qed.

Lemma typed_reached d p : rtc (Grades.step typed_data) (Grades.mount d) p → typed_view (now p).
Proof.
  intros Hp. enough (sound_pool typed_view typed_data p) as [Hv _] by done.
  eapply (rtc_invariant (Grades.step typed_data)); [| |exact Hp].
  - intros a b Hs [Hv Hw]. destruct Hs as [q p'|b p'|k kind text p'|t p'|d' p'|k c f r p' Hk Hr]; try (split; [by destruct Hv as (? & ? & ?)|exact Hw]).
    + by apply sound_start; [apply handleAddGrade_sound|].
    + by eapply sound_proceed.
  - unfold mount. apply sound_start; [apply fetchCourses_sound|]. apply sound_start; [apply fetchStudents_sound|].
    apply sound_start; [by apply fetchGrades_sound|]. split; [done|constructor].
Qed.

Section Shown.
Context `{Locale}.

Lemma row_found q x : conforms Row x = true → ∃ b, grade_found q x = Ok b.
Proof.
  intros Hx. unfold grade_found, found_in. destruct (get_string _ x "studentName" Hx ltac:(in_members)) as [s ->].
  destruct (get_string _ x "courseName" Hx ltac:(in_members)) as [c ->]. cbn [outcome_bind lower]. destruct (includes q (toLowerCase s)); by eexists.
Qed.

Lemma row_shown x : conforms Row x = true → ∃ c, grade_row x = Ok c.
Proof.
  intros Hx. unfold grade_row, child_of. destruct (get_string _ x "studentName" Hx ltac:(in_members)) as [s ->].
  destruct (get_string _ x "courseName" Hx ltac:(in_members)) as [c ->]. destruct (get_number _ x "score" Hx ltac:(in_members)) as [n ->].
  assert (∃ v, get x (js "date") = Ok v) as [v ->] by (destruct x; try done; by eexists). destruct s; by eexists.
Qed.

Lemma rows_shown q l :
  forallb (conforms Row) l = true → ∃ shown rows, filter_out (grade_found q) l = Ok shown ∧ traverse grade_row shown = Ok rows.
Proof.
  induction l as [|x l IH]; cbn [forallb]; [intros _; by exists [], []|]. intros [Hx Hl]%andb_prop. destruct (IH Hl) as (shown & rows & Hf & Ht).
  destruct (row_found q x Hx) as [b Hb]. destruct (row_shown x Hx) as [c Hc]. cbn [filter_out]. rewrite Hb, Hf. cbn [outcome_bind].
  destruct b; [exists (x :: shown), (c :: rows)|exists shown, rows]; (split; [done|]); [|done]. cbn [traverse]. by rewrite Hc, Ht.
Qed.

Lemma options_shown v : conforms (TArr Named) v = true → ∃ o, options v = Ok o.
Proof.
  destruct v as [| | | | |l|]; try done. cbn [conforms options js_map]. intros Hl.
  enough (∃ ys, traverse (λ x, let! id := get x (js "id") in let! name := child_of x "name" in Ok (VArr [id; VStr name])) l = Ok ys)
    as [ys ->] by by eexists.
  induction l as [|x l IH]; [by eexists|]. cbn [forallb] in Hl. apply andb_prop in Hl as [Hx Hl]. destruct (IH Hl) as [ys Hys].
  cbn [traverse]. unfold child_of at 1. destruct (get_string _ x "name" Hx ltac:(in_members)) as [n ->].
  assert (∃ i, get x (js "id") = Ok i) as [i ->] by (destruct x; try done; by eexists). cbn [outcome_bind child]. rewrite Hys. by eexists.
Qed.

Lemma typed_render v : typed_view v → if loading v then render v = Ok LoadingPage else ∃ rows d, render v = Ok (GradesPage rows d).
Proof.
  intros (Hs & Hc & Hg). unfold render. destruct (grades v) as [| | | | |l|]; try done. cbn [js_filter conforms] in *.
  destruct (rows_shown (toLowerCase (searchQuery v)) l Hg) as (shown & rows & -> & Ht). cbn [outcome_bind]. destruct (loading v); [done|].
  rewrite Ht. cbn [outcome_bind]. destruct (isAddDialogOpen v); [|by eexists _, _]. unfold dialog.
  destruct (options_shown _ Hs) as [ss ->]. destruct (options_shown _ Hc) as [cs ->]. by eexists _, _.
Qed.

(** C23 Termination of the grades view.  After any sequence of events and answers of any
    shape, the answers still to come stop whatever they are and in whatever order they
    arrive (the loop over the students included), and with the last one the spinner is
    gone.  When the students and courses that were answered have a text as name and the
    grades a number as score, as their types declare, the view renders in every state:
    the spinner while it loads, and otherwise the table. *)
Theorem grades_view_terminates (d : jstr) (p : pool gview request (λ _, outcome exn value)) :
  (rtc (Grades.step (λ _ _, True)) (Grades.mount d) p →
   Acc (flip answer) p ∧ inevitably (λ q, waiting q = [] ∧ loading (now q) = false) p) ∧
  (rtc (Grades.step typed_data) (Grades.mount d) p →
   if loading (now p) then Grades.render (now p) = Ok LoadingPage ∧ waiting p ≠ []
   else ∃ rows dialog, Grades.render (now p) = Ok (GradesPage rows dialog)).
Proof.
  split; intros Hp.
  - assert (flag_inv loading p) as Hinv by (eapply rtc_invariant; [apply grades_step_flag|apply mount_flag|exact Hp]).
    split; [apply answers_terminate, Hinv|by apply (flag_inv_lowered loading)].
  - assert (flag_inv loading p) as Hinv by (eapply rtc_invariant; [apply grades_step_flag|apply mount_flag|exact Hp]).
    pose proof (typed_render (now p) (typed_reached d p Hp)) as Hr. destruct (loading (now p)) eqn:Hl; [|done]. split; [done|].
    intros Hw. apply (flag_idle loading p Hinv) in Hw. congruence.
Qed.
End Shown.
End GradesView.

(** ** The identity gallery *)

Section Gallery.
Import Identity Async.
Context `{Engine}.

Lemma gallery_events_settle busy :
  In busy [g_loading; cardLoading] →
  settles busy false loadIdentities ∧ (∀ x, settles busy false (loadIdentityCard x)).
Proof.
  intros Hb. unfold loadIdentities, loadIdentityCard, card_failed.
  destruct Hb as [<-|[<-|[]]]; (split; [settle|intros x; settle]).
Qed.

Lemma gallery_mount_flag busy : In busy [g_loading; cardLoading] → flag_inv busy gallery_mount.
Proof.
  intros Hb. apply flag_start; [by apply gallery_events_settle|]. apply flag_inv_idle. by destruct Hb as [<-|[<-|[]]].
Qed.

Lemma gallery_step_flag busy p q : In busy [g_loading; cardLoading] → gallery_step p q → flag_inv busy p → flag_inv busy q.
Proof.
  intros Hb Hs Hp. destruct Hs; [| |by destruct Hb as [<-|[<-|[]]]|by apply flag_resume];
    (apply flag_start; [by apply gallery_events_settle|done]).
Qed.

(** The gallery's spinners go away: whatever was clicked, once the outstanding
    calls are answered, failures included, neither the list nor the dialog shows a
    spinner, and the dialog, if it is open, shows a card or that there is none. *)
Theorem gallery_settles (p : pool IdentityGallery value (λ _, outcome exn value)) :
  gallery_reachable p →
  inevitably (λ q, waiting q = [] ∧ g_loading (now q) = false ∧
    ∀ o t b, dialog_view (now q) = Ok (o, t, b) → b ≠ CardSpinner ∧ (o = true → b ≠ NoCard)) p.
Proof.
  intros Hp. assert (∀ busy, In busy [g_loading; cardLoading] → flag_inv busy p) as Hinv.
  { intros busy Hb. eapply rtc_invariant; [intros a b; by apply gallery_step_flag|by apply gallery_mount_flag|exact Hp]. }
  apply (inevitably_mono (λ q, waiting q = []) _ (λ q, ∀ busy, In busy [g_loading; cardLoading] → flag_inv busy q));
    [| |done|by apply idle_inevitable; eapply (Hinv g_loading); left].
  - intros a b Ha (n & ? & ? & r & Hn & ->) busy Hb. eapply flag_proceed; [exact Hn|by apply Ha].
  - intros q Hq Hw. split; [done|]. split; [by apply (flag_idle g_loading); [apply Hq; left|]|].
    assert (cardLoading (now q) = false) as Hc by (by apply (flag_idle cardLoading); [apply Hq; right; left|]).
    intros o t b. unfold dialog_view. rewrite Hc. intros Hd.
    destruct (if truthy _ then _ else _) as [u|e]; [|done]. cbn [outcome_bind] in Hd. injection Hd as <- _ <-.
    destruct (truthy (identityCardSvg _)); [done|]. by destruct (truthy (selectedIdentity _)).
Qed.
End Gallery.

(** ** The statistics *)

Section Stats.
Import Identity Async.
Context `{Engine} `{NumberLocale}.

Abbreviation stats_pool := (pool StatsSection value (λ _, outcome exn value)).

(** The part of [loadStats] that waits. *)
Definition loading_stats : task StatsSection value (λ _, outcome exn value) :=
  match loadStats with Update _ k => k | t => t end.

Definition stats_typed (s : StatsSection) : Prop :=
  ∃ n b r, total_identities s = VNum n ∧ total_storage_bytes s = VNum b ∧ merkle_root s = VStr r.

Definition stats_inv (p : stats_pool) : Prop :=
  stats_typed (now p) ∧
  if s_loading (now p) then waiting p = [loading_stats] ∧ s_error (now p) = None
  else waiting p = [] ∧ s_error (now p) ≠ Some [].

(** What an answer of the declared type holds. *)
Lemma stats_members v :
  conforms StatsResponse v = true →
  ∃ n b r, get v (js "total_identities") = Ok (VNum n) ∧ get v (js "total_storage_bytes") = Ok (VNum b) ∧
    get v (js "merkle_root") = Ok (VStr r).
Proof.
  intros Hv. destruct (Views.get_number _ v "total_identities" Hv ltac:(Views.in_members)) as [n ->].
  destruct (Views.get_number _ v "total_storage_bytes" Hv ltac:(Views.in_members)) as [b ->].
  destruct (Views.get_string _ v "merkle_root" Hv ltac:(Views.in_members)) as [r ->]. by eauto 7.
Qed.

Lemma only_stats_waits (p : stats_pool) n c f :
  stats_inv p → waiting p !! n = Some (Await c f) →
  s_loading (now p) = true ∧ waiting p = [loading_stats] ∧ s_error (now p) = None ∧ ∀ r, f r = stats_received r.
Proof.
  intros [_ Hp] Hn. destruct (s_loading (now p)); destruct Hp as [Hw He]; rewrite Hw in Hn; [|by destruct n].
  destruct n as [|[]]; [|done..]. split; [done|]. split; [done|]. split; [done|]. intros r.
  pose (cont := λ o : option (task StatsSection value (λ _, outcome exn value)),
    match o with Some (Await _ g) => g r | _ => Finish end).
  symmetry. exact (f_equal cont Hn).
Qed.

Lemma proceed_only n c f r (p : stats_pool) :
  stats_inv p → waiting p !! n = Some (Await c f) → proceed n (f r) p = start (stats_received r) (idle (now p)).
Proof.
  intros Hp Hn. destruct (only_stats_waits p n c f Hp Hn) as (_ & Hw & _ & Hf). rewrite Hf.
  unfold proceed, start. rewrite Hw in Hn |- *. destruct n as [|[]]; [|done..]. cbn [now idle take drop waiting app].
  destruct (advance (stats_received r) (now p)). by rewrite app_nil_r.
Qed.

Lemma stats_inv_step p q : step stats_event stats_answer p q → stats_inv p → stats_inv q.
Proof.
  intros Hs Hp. destruct Hs as [t p Ht|n c f r p Hn Hr].
  - inv Ht as [m ? Hview]. destruct Hp as [Hty Hp]. unfold stats_view in Hview.
    destruct (s_loading (now p)); [done|]. destruct Hp as [Hw _]. unfold start. cbn [loadStats advance]. split; [done|].
    cbn. by rewrite Hw.
  - rewrite (proceed_only n c f r p Hp Hn). destruct (only_stats_waits p n c f Hp Hn) as (_ & _ & He & _).
    destruct Hp as [Hty _]. destruct r as [v|e].
    + destruct (stats_members v Hr) as (a & b & m & Ha & Hb & Hm). unfold start, stats_received.
      cbn [outcome_bind]. rewrite Ha, Hb, Hm. simpl. split; [by eexists _, _, _|]. simpl. by rewrite He.
    + unfold start, stats_received. simpl. split; [done|]. split; [done|]. intros [= Hx].
      unfold error_text, str_or in Hx. by destruct (Errors.error_message e).
Qed.

Lemma stats_view_page p :
  stats_inv p → waiting p = [] → ∃ page, stats_view (now p) = Ok page ∧ page ≠ StatsLoading.
Proof.
  intros [(n & b & r & Hn & Hb & Hr) Hp] Hw. unfold stats_view.
  destruct (s_loading (now p)); [destruct Hp as [Hp _]; by rewrite Hw in Hp|].
  destruct (s_error (now p)) as [[|ch m]|]; [by destruct Hp| |]; [by eauto|]. rewrite Hn, Hb, Hr. by eauto.
Qed.

End Stats.

Definition offline (k : nat) (p : pool Grades.gview Grades.request (λ _, outcome exn value)) :=
  resume k (λ _, Throw (JsErr (js "Error") (js "offline"))) p.

Lemma grades_view_terminates_witness :
  let p := offline 1 (@Grades.mount Models.engine (js "2026-01-01")) in
  length (waiting p) = 2%nat ∧ Acc (flip answer) p ∧
  @Grades.render Models.engine Views.ascii_case (λ _, []) (now p) = Ok Grades.LoadingPage.
Proof.
  assert (∀ possible : Grades.request → outcome exn value → Prop, (∀ c e, possible c (Throw e)) →
    rtc (@Grades.step Models.engine possible) (@Grades.mount Models.engine (js "2026-01-01"))
      (offline 1 (@Grades.mount Models.engine (js "2026-01-01")))) as Hr.
  { intros possible Hp. apply rtc_once. eapply (@Grades.step_answer Models.engine possible 1); [reflexivity|apply Hp]. }
  destruct (@grades_view_terminates Models.engine Views.ascii_case (λ _, []) (js "2026-01-01")
    (offline 1 (@Grades.mount Models.engine (js "2026-01-01")))) as [Hany Htyped].
  split; [reflexivity|]. split; [by apply Hany, Hr|]. apply Htyped, Hr. by intros c e v data.
Defined.

Lemma gallery_settles_witness :
  inevitably (λ q, waiting q = [] ∧ Identity.g_loading (now q) = false ∧
    ∀ o t b, @Identity.dialog_view Models.engine (now q) = Ok (o, t, b) →
      b ≠ Identity.CardSpinner ∧ (o = true → b ≠ Identity.NoCard))
    (@Identity.gallery_mount Models.engine).
Proof. apply (@gallery_settles Models.engine). apply rtc_refl. Defined.

End Liveness.
