(* ===== verification/NbookPages.v ===== *)
(** * nbook/ui: the login, registration and posting pages

    app/login/page.tsx, app/register/page.tsx, components/feed/create-post-box.tsx,
    components/create/create-post-page.tsx.  Handlers are tasks over the calls of
    lib/auth.ts and lib/api.ts; a call's outcome has the type the library declares.
    What is rendered is the list of its elements. *)

From S2P Require Import Prelude JsValue Codec Json Platform SdkErrors Browser Models NbookClient NbookAuth Async.

Module Ui.
Import Errors.

(** The argument of [toast(...)]. *)
Record note : Type := Note {
  title : jstr;
  description : option jstr;
  destructive : bool;
}.

Definition inform (t d : jstr) : note := Note t (Some d) false.
Definition announce (t : jstr) : note := Note t None false.
Definition alert (t d : jstr) : note := Note t (Some d) true.

(** [e instanceof Error ? e.message : fallback]. *)
Definition reason (e : exn) (fallback : jstr) : jstr := if instanceof_Error e then error_message e else fallback.

Definition try_again : jstr := js "Please try again.".
Definition failure (t : jstr) (e : exn) : note := alert t (reason e try_again).

(** [toUpperCase] is the engine's Unicode case mapping; on ASCII it is the usual one. *)
Class UpperCase : Type := {
  toUpperCase : jstr → jstr;
  toUpperCase_ascii : ∀ s, ascii_str s → toUpperCase s = map (λ c, if (97 <=? c) && (c <=? 122) then c - 32 else c) s;
}.

(** [name.substring(0, 2).toUpperCase()]. *)
Definition badge `{UpperCase} (name : jstr) : jstr := toUpperCase (take 2 name).

(** [Math.round(size / 1024)]. *)
Definition kilobytes (size : Z) : Z := (size + 512) / 1024.

(** What a page shows, without its layout. *)
Inductive element : Type :=
| Text (s : jstr)
| Input (label value : jstr)
| Button (text : jstr) (enabled : bool)
| Link (text href : jstr)
| Image (src : jstr)
| Audio (src : jstr)
| Video (src : jstr)
| Spinner.

Definition Paragraph (s : string) : element := Text (js s).

(** The condition of [{cond && ...}]. *)
Definition when (b : bool) (l : list element) : list element := if b then l else [].

(** The outcome of a call whose result is not used. *)
Definition settled {A} (o : outcome exn A) : outcome exn () := match o with Ok _ => Ok tt | Throw e => Throw e end.
End Ui.

(** ** app/login/page.tsx *)

Module Login.
Import Async Ui.

Record LoginPage : Type := {
  username : jstr;
  password : jstr;
  isLoading : bool;
  notes : list note;
  path : jstr;
}.

Definition setUsername (x : jstr) (p : LoginPage) : LoginPage :=
  {| username := x; password := password p; isLoading := isLoading p; notes := notes p; path := path p |}.
Definition setPassword (x : jstr) (p : LoginPage) : LoginPage :=
  {| username := username p; password := x; isLoading := isLoading p; notes := notes p; path := path p |}.
Definition setIsLoading (b : bool) (p : LoginPage) : LoginPage :=
  {| username := username p; password := password p; isLoading := b; notes := notes p; path := path p |}.
Definition toast (n : note) (p : LoginPage) : LoginPage :=
  {| username := username p; password := password p; isLoading := isLoading p; notes := notes p ++ [n]; path := path p |}.
Definition push (x : jstr) (p : LoginPage) : LoginPage :=
  {| username := username p; password := password p; isLoading := isLoading p; notes := notes p; path := x |}.

Definition initial : LoginPage :=
  {| username := []; password := []; isLoading := false; notes := []; path := js "/login" |}.

Inductive call : Type := CallLogin (username password : jstr).

Abbreviation handler := (task LoginPage call (λ _, outcome exn ())).

Definition handleSubmit (captured : LoginPage) : handler :=
  Update (setIsLoading true)
    (Await (CallLogin (username captured) (password captured)) (λ r,
      match r with
      | Ok _ =>
          Update (toast (inform (js "Welcome back!") (js "You've successfully logged in to nbook.")))
            (Update (push (js "/feed")) (Update (setIsLoading false) Finish))
      | Throw error =>
          Update (toast (alert (js "Login failed") (reason error (js "Invalid username or password."))))
            (Update (setIsLoading false) Finish)
      end)).

Definition render (p : LoginPage) : list element := [
  Link (js "Back to home") (js "/");
  Paragraph "Welcome back"; Paragraph "Sign in to your account to continue";
  Input (js "Username") (username p);
  Link (js "Forgot password?") (js "/forgot-password");
  Input (js "Password") (password p);
  Button (if isLoading p then js "Signing in..." else js "Sign In") (negb (isLoading p));
  Paragraph "Don't have an account?"; Link (js "Create one now") (js "/register") ].

(** A form is submitted when its button is enabled and its required inputs are filled. *)
Inductive event : LoginPage → handler → Prop :=
| type_username s p : event p (Update (setUsername s) Finish)
| type_password s p : event p (Update (setPassword s) Finish)
| submit p : isLoading p = false → username p ≠ [] → password p ≠ [] → event p (handleSubmit p).

(** The calls of the page on the state of the front end. *)
Definition perform `{Engine} `{Env} `{Nbook.BuildEnv} `{Window} (c : call) (s : nbook) : outcome exn () * nbook :=
  let '(CallLogin u p) := c in
  let '(o, s') := NbookAuth.login u p s in (settled o, s').
End Login.

(** ** app/register/page.tsx *)

Module Register.
Import Async Ui.

Record RegisterPage : Type := {
  username : jstr;
  password : jstr;
  confirmPassword : jstr;
  isLoading : bool;
  notes : list note;
  path : jstr;
}.

Definition setUsername (x : jstr) (p : RegisterPage) : RegisterPage :=
  {| username := x; password := password p; confirmPassword := confirmPassword p; isLoading := isLoading p;
     notes := notes p; path := path p |}.
Definition setPassword (x : jstr) (p : RegisterPage) : RegisterPage :=
  {| username := username p; password := x; confirmPassword := confirmPassword p; isLoading := isLoading p;
     notes := notes p; path := path p |}.
Definition setConfirmPassword (x : jstr) (p : RegisterPage) : RegisterPage :=
  {| username := username p; password := password p; confirmPassword := x; isLoading := isLoading p;
     notes := notes p; path := path p |}.
Definition setIsLoading (b : bool) (p : RegisterPage) : RegisterPage :=
  {| username := username p; password := password p; confirmPassword := confirmPassword p; isLoading := b;
     notes := notes p; path := path p |}.
Definition toast (n : note) (p : RegisterPage) : RegisterPage :=
  {| username := username p; password := password p; confirmPassword := confirmPassword p; isLoading := isLoading p;
     notes := notes p ++ [n]; path := path p |}.
Definition push (x : jstr) (p : RegisterPage) : RegisterPage :=
  {| username := username p; password := password p; confirmPassword := confirmPassword p; isLoading := isLoading p;
     notes := notes p; path := x |}.

Definition initial : RegisterPage :=
  {| username := []; password := []; confirmPassword := []; isLoading := false; notes := []; path := js "/register" |}.

Inductive call : Type :=
| CallRegister (username password : jstr)
| CallLogin (username password : jstr).

Abbreviation handler := (task RegisterPage call (λ _, outcome exn ())).

Definition password_length (p : RegisterPage) : Z := Z.of_nat (length (password p)).

Definition passwordRequirements (p : RegisterPage) : list (jstr * bool) := [
  (js "At least 6 characters", 6 <=? password_length p);
  (js "Matches confirmation", str_eqb (password p) (confirmPassword p) && (0 <? password_length p)) ].

Definition registration_failed (error : exn) : handler :=
  Update (toast (alert (js "Registration failed") (reason error (js "Username might be taken. Please try another."))))
    (Update (setIsLoading false) Finish).

Definition handleSubmit (captured : RegisterPage) : handler :=
  if negb (str_eqb (password captured) (confirmPassword captured)) then
    Update (toast (alert (js "Passwords don't match") (js "Please make sure your passwords match."))) Finish
  else if password_length captured <? 6 then
    Update (toast (alert (js "Password too short") (js "Password must be at least 6 characters."))) Finish
  else
    Update (setIsLoading true)
      (Await (CallRegister (username captured) (password captured)) (λ r,
        match r with
        | Throw error => registration_failed error
        | Ok _ =>
            Await (CallLogin (username captured) (password captured)) (λ r,
              match r with
              | Throw error => registration_failed error
              | Ok _ =>
                  Update (toast (inform (js "Account created!") (js "Welcome to nbook. Let's get started!")))
                    (Update (push (js "/feed")) (Update (setIsLoading false) Finish))
              end)
        end)).

Definition render (p : RegisterPage) : list element :=
  [ Link (js "Back to home") (js "/");
    Paragraph "Create your account"; Paragraph "Join thousands of users connecting worldwide";
    Input (js "Username") (username p); Input (js "Password") (password p);
    Input (js "Confirm Password") (confirmPassword p) ]
  ++ when (0 <? password_length p)
       (Paragraph "Password requirements:"
        :: flat_map (λ req, when req.2 [Paragraph "Check"] ++ [Text req.1]) (passwordRequirements p))
  ++ [ Button (if isLoading p then js "Creating account..." else js "Create Account") (negb (isLoading p));
       Paragraph "Already have an account?"; Link (js "Sign in") (js "/login") ].

Inductive event : RegisterPage → handler → Prop :=
| type_username s p : event p (Update (setUsername s) Finish)
| type_password s p : event p (Update (setPassword s) Finish)
| type_confirmation s p : event p (Update (setConfirmPassword s) Finish)
| submit p :
    isLoading p = false → username p ≠ [] → password p ≠ [] → confirmPassword p ≠ [] → event p (handleSubmit p).

Definition perform `{Engine} `{Env} `{Nbook.BuildEnv} `{Window} (c : call) (s : nbook) : outcome exn () * nbook :=
  match c with
  | CallRegister u p => NbookAuth.register u p s
  | CallLogin u p => let '(o, s') := NbookAuth.login u p s in (settled o, s')
  end.
End Register.

(** ** Posting: components/feed/create-post-box.tsx and components/create/create-post-page.tsx *)

Module Posting.
Import Async Ui.

(** A chosen file; its size is the number of its bytes. *)
Record file : Type := {
  file_name : jstr;
  file_contents : bytes;
}.

Definition file_size (f : file) : Z := Z.of_nat (length (file_contents f)).

(** An entry of [attachments]. *)
Record attachment : Type := {
  id : jstr;
  name : jstr;
  size : Z;
}.

Inductive call : Type :=
| CallUpload (f : file)
| CallCreate (text : jstr) (attachments : list jstr).

Definition reply (c : call) : Type :=
  match c with
  | CallUpload _ => outcome exn jstr
  | CallCreate _ _ => outcome exn ()
  end.

(** [attachments.filter((_, i) => i !== idx)]. *)
Definition without (idx : nat) (l : list attachment) : list attachment := delete idx l.

(** The loop of [handleFileSelect] and [handleFiles], over the setters of either component. *)
Fixpoint upload_loop {S} (append : list attachment → S → S) (toast : note → S → S) (done : task S call reply)
    (files : list file) (uploads : list attachment) : task S call reply :=
  match files with
  | [] => Update (append uploads) done
  | f :: rest =>
      Await (CallUpload f) (λ r,
        match r with
        | Ok blobId =>
            upload_loop append toast done rest (uploads ++ [{| id := blobId; name := file_name f; size := file_size f |}])
        | Throw e => Update (toast (failure (js "Upload failed") e)) done
        end)
  end.

(** The rows of the chosen attachments. *)
Definition attachment_rows (l : list attachment) : list element :=
  flat_map (λ a, [Text (name a ++ js " (" ++ Z_to_str (kilobytes (size a)) ++ js " KB)"); Button (js "X") true]) l.

Definition counter (content : jstr) : jstr := Z_to_str (Z.of_nat (length content)) ++ js "/2048".

Definition blank (s : jstr) : bool := str_eqb (trim s) [].
End Posting.

Module CreatePostBox.
Import Async Ui Posting.

Record CreatePostBox : Type := {
  content : jstr;
  isFocused : bool;
  isPosting : bool;
  attachments : list attachment;
  notes : list note;
  created : nat;   (* calls of [onPostCreated] *)
}.

Definition setContent (x : jstr) (b : CreatePostBox) : CreatePostBox :=
  {| content := x; isFocused := isFocused b; isPosting := isPosting b; attachments := attachments b; notes := notes b;
     created := created b |}.
Definition setIsFocused (x : bool) (b : CreatePostBox) : CreatePostBox :=
  {| content := content b; isFocused := x; isPosting := isPosting b; attachments := attachments b; notes := notes b;
     created := created b |}.
Definition setIsPosting (x : bool) (b : CreatePostBox) : CreatePostBox :=
  {| content := content b; isFocused := isFocused b; isPosting := x; attachments := attachments b; notes := notes b;
     created := created b |}.
Definition setAttachments (f : list attachment → list attachment) (b : CreatePostBox) : CreatePostBox :=
  {| content := content b; isFocused := isFocused b; isPosting := isPosting b; attachments := f (attachments b);
     notes := notes b; created := created b |}.
Definition toast (n : note) (b : CreatePostBox) : CreatePostBox :=
  {| content := content b; isFocused := isFocused b; isPosting := isPosting b; attachments := attachments b;
     notes := notes b ++ [n]; created := created b |}.
Definition onPostCreated (b : CreatePostBox) : CreatePostBox :=
  {| content := content b; isFocused := isFocused b; isPosting := isPosting b; attachments := attachments b;
     notes := notes b; created := S (created b) |}.

Definition initial : CreatePostBox :=
  {| content := []; isFocused := false; isPosting := false; attachments := []; notes := []; created := 0 |}.

Abbreviation handler := (task CreatePostBox call reply).

Definition handlePost (captured : CreatePostBox) : handler :=
  if blank (content captured) then Finish
  else
    Update (setIsPosting true)
      (Await (CallCreate (trim (content captured)) (map id (attachments captured))) (λ r,
        match r with
        | Ok _ =>
            Update (toast (inform (js "Posted!") (js "Your post has been shared.")))
              (Update (setContent [])
                (Update (setIsFocused false)
                  (Update (setAttachments (λ _, []))
                    (Update onPostCreated
                      (Update (setIsPosting false) Finish)))))
        | Throw error =>
            Update (toast (failure (js "Failed to post") error)) (Update (setIsPosting false) Finish)
        end)).

Definition getInitials `{UpperCase} (name : option jstr) : jstr :=
  match name with
  | None | Some [] => js "U"
  | Some n => badge n
  end.

Definition handleFileSelect (files : list file) : handler :=
  match files with
  | [] => Finish
  | _ =>
      Update (setIsPosting true)
        (upload_loop (λ uploads, setAttachments (λ prev, prev ++ uploads)) toast (Update (setIsPosting false) Finish) files [])
  end.

(** The toolbar is shown once the box has the focus or a text. *)
Definition toolbar (b : CreatePostBox) : bool := isFocused b || negb (str_eqb (content b) []).

Definition render `{UpperCase} (username : option jstr) (b : CreatePostBox) : list element :=
  [ Text (getInitials username); Input (js "What's on your mind?") (content b) ]
  ++ attachment_rows (attachments b)
  ++ when (toolbar b)
       [ Button (js "Image") true; Button (js "Smile") true; Text (counter (content b));
         Button (if isPosting b then js "Posting..." else js "Post") (negb (blank (content b) || isPosting b)) ].

Inductive event : CreatePostBox → handler → Prop :=
| type s b : event b (Update (setContent s) Finish)
| focus b : event b (Update (setIsFocused true) Finish)
| remove idx b : (idx < length (attachments b))%nat → event b (Update (setAttachments (without idx)) Finish)
| choose files b : toolbar b = true → event b (handleFileSelect files)
| post b : toolbar b = true → blank (content b) || isPosting b = false → event b (handlePost b).
End CreatePostBox.

Module CreatePostPage.
Import Async Ui Posting.

Record CreatePostPage : Type := {
  content : jstr;
  isPosting : bool;
  attachments : list attachment;
  notes : list note;
  path : jstr;
}.

Definition setContent (x : jstr) (b : CreatePostPage) : CreatePostPage :=
  {| content := x; isPosting := isPosting b; attachments := attachments b; notes := notes b; path := path b |}.
Definition setIsPosting (x : bool) (b : CreatePostPage) : CreatePostPage :=
  {| content := content b; isPosting := x; attachments := attachments b; notes := notes b; path := path b |}.
Definition setAttachments (f : list attachment → list attachment) (b : CreatePostPage) : CreatePostPage :=
  {| content := content b; isPosting := isPosting b; attachments := f (attachments b); notes := notes b; path := path b |}.
Definition toast (n : note) (b : CreatePostPage) : CreatePostPage :=
  {| content := content b; isPosting := isPosting b; attachments := attachments b; notes := notes b ++ [n]; path := path b |}.
Definition push (x : jstr) (b : CreatePostPage) : CreatePostPage :=
  {| content := content b; isPosting := isPosting b; attachments := attachments b; notes := notes b; path := x |}.

Definition initial : CreatePostPage :=
  {| content := []; isPosting := false; attachments := []; notes := []; path := js "/create" |}.

Abbreviation handler := (task CreatePostPage call reply).

(** [authenticated] is [session?.session] of the last render. *)
Definition handlePost (authenticated : bool) (captured : CreatePostPage) : handler :=
  if blank (content captured) then
    Update (toast (alert (js "Post is empty") (js "Please write something before posting."))) Finish
  else if negb authenticated then
    Update (toast (alert (js "Login required") (js "Please log in before creating a post."))) Finish
  else
    Update (setIsPosting true)
      (Await (CallCreate (trim (content captured)) (map id (attachments captured))) (λ r,
        match r with
        | Ok _ =>
            Update (toast (inform (js "Post published!") (js "Your post has been shared.")))
              (Update (push (js "/feed")) (Update (setIsPosting false) Finish))
        | Throw error =>
            Update (toast (failure (js "Failed to post") error)) (Update (setIsPosting false) Finish)
        end)).

Definition handleFiles (files : list file) : handler :=
  match files with
  | [] => Finish
  | _ =>
      Update (setIsPosting true)
        (upload_loop (λ uploads, setAttachments (λ prev, prev ++ uploads)) toast (Update (setIsPosting false) Finish) files [])
  end.

Definition render `{UpperCase} (username : option jstr) (b : CreatePostPage) : list element :=
  [ Paragraph "Create Post";
    Button (if isPosting b then js "Posting..." else js "Publish") (negb (isPosting b || blank (content b)));
    Text (badge (str_or (default [] username) (js "NB"))); Input (js "What's happening?") (content b) ]
  ++ attachment_rows (attachments b)
  ++ [ Button (js "Add attachments") true; Text (counter (content b)); Paragraph "Tips for great posts:" ].

Inductive event : CreatePostPage → handler → Prop :=
| type s b : event b (Update (setContent s) Finish)
| remove idx b : (idx < length (attachments b))%nat → event b (Update (setAttachments (without idx)) Finish)
| choose files b : event b (handleFiles files)
| post authenticated b : isPosting b || blank (content b) = false → event b (handlePost authenticated b).
End CreatePostPage.

(** ** Properties *)

Section SignIn.
Import Async Ui.
Context `{Engine} `{Env} `{Nbook.BuildEnv} `{Window}.

Definition login_request (u p : jstr) : value :=
  VObj [(js "op", VStr (js "login")); (js "username", VStr u); (js "password", VStr p)].
Definition register_request (u p : jstr) : value :=
  VObj [(js "op", VStr (js "register")); (js "username", VStr u); (js "password", VStr p)].

(** What the front end sends for a request to the program in state [s]. *)
Definition message_in (s : nbook) (request : value) : list http_request :=
  NbookAuth.program_message (Nbook.getNbookClient (nb_client s)).1 request.

Definition session_stored (u : jstr) (s : nbook) : Prop :=
  ∃ token exp, NbookAuth.stored_session s = Some (json_text (NbookAuth.user_object u token exp)).

Lemma login_run u p (s : nbook) :
  in_browser = true →
  let '(o, s') := NbookAuth.login u p s in
  sent (nb_world s') = sent (nb_world s) ++ message_in s (login_request u p) ∧
  match o with
  | Ok _ => session_stored u s'
  | Throw _ => nb_storage s' = nb_storage s
  end.
Proof.
  intros Hw. unfold NbookAuth.login. rewrite (bindM_ok _ _ _ _ _ (NbookAuth.the_client_run s)).
  unfold Nbook.login, bindM, liftM, retM, throwM.
  pose proof (NbookAuth.execute_frame (Nbook.getNbookClient (nb_client s)).1 (login_request u p)
    (NbookAuth.with_nb_client s)) as (Hst & Hsent & _). unfold login_request in *.
  destruct (Nbook.executeProgram _ _ _) as [[v|e] s1]; cbn [snd] in *; [|by rewrite Hst].
  destruct (get v (js "status")) as [status|e]; [|by rewrite Hst].
  case_if.
  - destruct (get v (js "message")); by rewrite Hst.
  - destruct (get v (js "session")) as [token|e]; [|by rewrite Hst].
    destruct (get v (js "expires_ms")) as [exp|e]; [|by rewrite Hst].
    unfold NbookAuth.setSession. rewrite Hw. split; [exact Hsent|]. exists token, exp. apply obj_get_set.
Qed.

Lemma register_run u p (s : nbook) :
  let '(o, s') := NbookAuth.register u p s in
  sent (nb_world s') = sent (nb_world s) ++ message_in s (register_request u p) ∧ nb_storage s' = nb_storage s ∧
  nb_client s' = Some (Nbook.getNbookClient (nb_client s)).1.
Proof.
  unfold NbookAuth.register. rewrite (bindM_ok _ _ _ _ _ (NbookAuth.the_client_run s)).
  unfold Nbook.register, bindM, retM.
  pose proof (NbookAuth.call_frame (Nbook.getNbookClient (nb_client s)).1
    [(js "op", VStr (js "register")); (js "username", VStr u); (js "password", VStr p)] (js "register failed")
    (NbookAuth.with_nb_client s)) as (Hst & Hsent & Hcl).
  by destruct (Nbook.call _ _ _ _) as [[v|e] s1].
Qed.

(** C24 Submitting the login page against the library and any program: the page ends
    with its spinner off after sending one login with the typed name and password;
    if that succeeds the browser holds a session of that user and shows the feed,
    else the page stays, tells why, and no stored item has changed. *)
Theorem login_page_end_to_end (p : Login.LoginPage) (s : nbook) :
  in_browser = true →
  let '(q, s') := exec Login.perform (Login.handleSubmit p) p s in
  Login.isLoading q = false ∧
  sent (nb_world s') = sent (nb_world s) ++ message_in s (login_request (Login.username p) (Login.password p)) ∧
  ((Login.path q = js "/feed" ∧ session_stored (Login.username p) s') ∨
   (Login.path q = Login.path p ∧ nb_storage s' = nb_storage s ∧
    ∃ d, Login.notes q = Login.notes p ++ [alert (js "Login failed") d])).
Proof.
  intros Hw. cbn [exec Login.handleSubmit Login.perform].
  pose proof (login_run (Login.username p) (Login.password p) s Hw) as Hl.
  destruct (NbookAuth.login _ _ s) as [[u|e] s']; destruct Hl as [Hsent Hst]; cbn [settled exec].
  - split; [done|]. split; [done|]. by left.
  - split; [done|]. split; [done|]. right. eauto.
Qed.

(** The page would submit this pair of passwords. *)
Definition acceptable (p : Register.RegisterPage) : bool :=
  str_eqb (Register.password p) (Register.confirmPassword p) && (6 <=? Register.password_length p).

(** The registration page sends nothing unless the two passwords agree and have
    at least six characters; then it registers, and only if that succeeds logs in.
    It ends on the feed with the user's session stored exactly when both succeed;
    otherwise it stays, with no stored item changed.  When the account was created
    but the login failed it says "Registration failed" all the same. *)
Theorem register_page_end_to_end (p : Register.RegisterPage) (s : nbook) :
  in_browser = true → Register.isLoading p = false →
  let u := Register.username p in
  let pw := Register.password p in
  let '(q, s') := exec Register.perform (Register.handleSubmit p) p s in
  let '(registered, s1) := NbookAuth.register u pw s in
  let '(logged_in, s2) := NbookAuth.login u pw s1 in
  Register.isLoading q = false ∧
  if acceptable p then
    match registered, logged_in with
    | Ok _, Ok _ => s' = s2 ∧ Register.path q = js "/feed" ∧ session_stored u s'
    | Ok _, Throw e =>
        s' = s2 ∧ Register.path q = Register.path p ∧ nb_storage s' = nb_storage s ∧
        sent (nb_world s') = sent (nb_world s) ++ message_in s (register_request u pw)
                               ++ message_in s (login_request u pw) ∧
        ∃ d, Register.notes q = Register.notes p ++ [alert (js "Registration failed") d]
    | Throw e, _ =>
        s' = s1 ∧ Register.path q = Register.path p ∧ nb_storage s' = nb_storage s ∧
        sent (nb_world s') = sent (nb_world s) ++ message_in s (register_request u pw) ∧
        ∃ d, Register.notes q = Register.notes p ++ [alert (js "Registration failed") d]
    end
  else s' = s ∧ Register.path q = Register.path p ∧ ∃ t d, Register.notes q = Register.notes p ++ [alert t d].
Proof.
  intros Hw Hidle u pw. unfold Register.handleSubmit, acceptable.
  rewrite (Z.leb_antisym (Register.password_length p) 6).
  destruct (str_eqb (Register.password p) (Register.confirmPassword p)); cbn [negb andb].
  2: { cbn [exec]. destruct (NbookAuth.register u pw s) as [? s1]. destruct (NbookAuth.login u pw s1). simpl. eauto 6. }
  destruct (Register.password_length p <? 6); cbn [negb].
  { cbn [exec]. destruct (NbookAuth.register u pw s) as [? s1]. destruct (NbookAuth.login u pw s1). simpl. eauto 6. }
  cbn [exec Register.perform].
  pose proof (register_run u pw s) as Hr. fold u pw. destruct (NbookAuth.register u pw s) as [[[]|e] s1];
    destruct Hr as (Hsent1 & Hst1 & Hcl1); cbn [exec Register.perform Register.registration_failed].
  - fold u pw. pose proof (login_run u pw s1 Hw) as Hl. destruct (NbookAuth.login u pw s1) as [[v|e] s2];
      destruct Hl as [Hsent Hst]; cbn [settled exec Register.registration_failed]; [by split; [|split]|].
    split; [done|]. split; [done|]. split; [done|]. split; [by rewrite Hst|]. split; [|simpl; eauto].
    rewrite Hsent, Hsent1, <- app_assoc. unfold message_in. by rewrite Hcl1.
  - destruct (NbookAuth.login u pw s1). repeat split; [done|done|]. simpl. eauto.
Qed.
End SignIn.

Section Forms.
Import Async Ui Posting.

Lemma upload_loop_settles {S} (busy : S → bool) append toast done files uploads :
  (∀ n, never_raises busy (toast n)) → settles (R := reply) busy true done →
  settles busy true (upload_loop append toast done files uploads).
Proof.
  intros Ht Hd. revert uploads. induction files as [|f files IH]; intros uploads; cbn [upload_loop settles].
  - by right; right.
  - intros [blobId|e]; [apply IH|]. right; left. by split.
Qed.

Lemma login_event_calm p t : Login.event p t → calm Login.isLoading p t.
Proof. intros []; left; settle. Qed.
Lemma login_event_lock p t : Login.event p t → takes_lock Login.isLoading (λ _, true) (λ _, true) p t.
Proof. intros [s|s|q Hq _ _]; [left; hold..|]. right. split; [done|]. do 2 eexists. split; [done|]. split; [done|]. hold. Qed.

Lemma register_event_calm p t : Register.event p t → calm Register.isLoading p t.
Proof. intros [| | |q]; left; [settle..|]. unfold Register.handleSubmit, Register.registration_failed. settle. Qed.
Lemma register_event_lock p t : Register.event p t → takes_lock Register.isLoading (λ _, true) (λ _, true) p t.
Proof.
  intros [| | |q Hq _ _ _]; [left; hold..|]. unfold Register.handleSubmit. do 2 (case_if; [left; hold|]).
  right. split; [done|]. do 2 eexists. split; [done|]. split; [done|]. unfold Register.registration_failed. hold.
Qed.

Lemma box_event_calm b t : CreatePostBox.event b t → calm CreatePostBox.isPosting b t.
Proof.
  intros [| | |files b'|b']; left; [settle..| |].
  - unfold CreatePostBox.handleFileSelect. destruct files as [|f files]; [done|]. right; right.
    apply upload_loop_settles; [by intros n s|settle].
  - unfold CreatePostBox.handlePost. settle.
Qed.
Lemma page_event_calm b t : CreatePostPage.event b t → calm CreatePostPage.isPosting b t.
Proof.
  intros [| |files b'|a b']; left; [settle..| |].
  - unfold CreatePostPage.handleFiles. destruct files as [|f files]; [done|]. right; right.
    apply upload_loop_settles; [by intros n s|settle].
  - unfold CreatePostPage.handlePost. settle.
Qed.

(** No form of the front end hangs: from every state the login page, the
    registration page, the post box and the posting page can reach, once the calls
    under way are answered, in any order and with any outcome, nothing is under way
    and the spinner is off.  The first two make at most one call at a time, and
    none while their spinner is off. *)
Theorem forms_settle :
  (∀ p, reachable_from Login.event any_outcome (idle Login.initial) p →
        inevitably (λ q, waiting q = [] ∧ Login.isLoading (now q) = false) p ∧
        (length (in_flight p) ≤ Nat.b2n (Login.isLoading (now p)))%nat) ∧
  (∀ p, reachable_from Register.event any_outcome (idle Register.initial) p →
        inevitably (λ q, waiting q = [] ∧ Register.isLoading (now q) = false) p ∧
        (length (in_flight p) ≤ Nat.b2n (Register.isLoading (now p)))%nat) ∧
  (∀ p, reachable_from CreatePostBox.event any_outcome (idle CreatePostBox.initial) p →
        inevitably (λ q, waiting q = [] ∧ CreatePostBox.isPosting (now q) = false) p) ∧
  (∀ p, reachable_from CreatePostPage.event any_outcome (idle CreatePostPage.initial) p →
        inevitably (λ q, waiting q = [] ∧ CreatePostPage.isPosting (now q) = false) p).
Proof.
  split; [|split; [|split]]; intros p Hp; [split|split| |].
  - by eapply lowered_from_idle; [apply login_event_calm|exact Hp|].
  - rewrite <- (all_mine (λ _, true) (in_flight p)) by done. by eapply single_from_idle; [apply login_event_lock|exact Hp|].
  - by eapply lowered_from_idle; [apply register_event_calm|exact Hp|].
  - rewrite <- (all_mine (λ _, true) (in_flight p)) by done. by eapply single_from_idle; [apply register_event_lock|exact Hp|].
  - by eapply lowered_from_idle; [apply box_event_calm|exact Hp|].
  - by eapply lowered_from_idle; [apply page_event_calm|exact Hp|].
Qed.

(** The files of a batch that are uploaded until one fails, and the attachments they give. *)
Fixpoint batch (upload : file → outcome exn jstr) (files : list file) : list file * outcome exn (list attachment) :=
  match files with
  | [] => ([], Ok [])
  | f :: rest =>
      match upload f with
      | Throw e => ([f], Throw e)
      | Ok blobId =>
          let '(tried, o) := batch upload rest in
          (f :: tried, let! l := o in Ok ({| id := blobId; name := file_name f; size := file_size f |} :: l))
      end
  end.

(** Answers of the two calls. *)
Definition answers (upload : file → outcome exn jstr) (create : outcome exn ()) (c : call) : reply c :=
  match c with CallUpload f => upload f | CallCreate _ _ => create end.

Lemma upload_loop_run {S} append toast (done : task S call reply) upload create files uploads s :
  let '(tried, o) := batch upload files in
  let t := upload_loop append toast done files uploads in
  let s' := match o with Ok l => append (uploads ++ l) s | Throw e => toast (failure (js "Upload failed") e) s end in
  run (answers upload create) t s = run (answers upload create) done s' ∧
  calls (answers upload create) t s = map CallUpload tried ++ calls (answers upload create) done s'.
Proof.
  revert uploads. induction files as [|f files IH]; intros uploads; cbn [batch upload_loop run calls answers].
  - by rewrite app_nil_r.
  - destruct (upload f) as [blobId|e] eqn:Hf; cbn [run calls]; [|done].
    specialize (IH (uploads ++ [{| id := blobId; name := file_name f; size := file_size f |}])).
    destruct (batch upload files) as [tried [l|e]]; destruct IH as [-> ->]; cbn [outcome_bind map app].
    + by rewrite <- app_assoc.
    + done.
Qed.

(** Choosing files in the post box uploads them one after the other in the order
    chosen, up to the first that fails; the attachments gain all of them, in that
    order, or, after a failure, none of them: what was uploaded before it is
    forgotten.  The spinner is off in the end. *)
Theorem upload_batch (upload : file → outcome exn jstr) (create : outcome exn ()) (files : list file)
    (b : CreatePostBox.CreatePostBox) :
  files ≠ [] →
  let '(tried, o) := batch upload files in
  let t := CreatePostBox.handleFileSelect files in
  let b' := run (answers upload create) t b in
  calls (answers upload create) t b = map CallUpload tried ∧ CreatePostBox.isPosting b' = false ∧
  CreatePostBox.content b' = CreatePostBox.content b ∧
  match o with
  | Ok l =>
      tried = files ∧ CreatePostBox.attachments b' = CreatePostBox.attachments b ++ l ∧
      CreatePostBox.notes b' = CreatePostBox.notes b
  | Throw e =>
      CreatePostBox.attachments b' = CreatePostBox.attachments b ∧
      CreatePostBox.notes b' = CreatePostBox.notes b ++ [failure (js "Upload failed") e]
  end.
Proof.
  intros Hne. pose proof (upload_loop_run (λ uploads, CreatePostBox.setAttachments (λ prev, prev ++ uploads))
    CreatePostBox.toast (Update (CreatePostBox.setIsPosting false) Finish) upload create files []
    (CreatePostBox.setIsPosting true b)) as Hrun.
  assert (∀ l, (batch upload files).2 = Ok l → (batch upload files).1 = files) as Hall.
  { clear. induction files as [|f files IH]; [done|]. simpl. destruct (upload f); [|done].
    destruct (batch upload files) as [tried [l|e]]; [|done]. intros l' _. simpl in *. f_equal. by eapply IH. }
  destruct (batch upload files) as [tried o]. destruct files as [|f files]; [done|].
  unfold CreatePostBox.handleFileSelect. cbn [run calls]. destruct Hrun as [-> ->].
  split; [by rewrite app_nil_r|]. split; [done|]. split; [by destruct o|]. destruct o as [l|e]; [|done].
  split; [by apply (Hall l)|done].
Qed.

(** The post box does not protect what is typed or attached while a post is under
    way: when the post succeeds, text and attachments are cleared, whatever they
    are by then; they were not part of the post. *)
Theorem post_discards_edits (b : CreatePostBox.CreatePostBox) (later : jstr) :
  Posting.blank (CreatePostBox.content b) = false → CreatePostBox.isPosting b = false →
  ∃ p q, rtc (step CreatePostBox.event any_outcome) (idle b) p ∧
         in_flight p = [CallCreate (trim (CreatePostBox.content b)) (map id (CreatePostBox.attachments b))] ∧
         CreatePostBox.content (now p) = later ∧
         rtc answer p q ∧ waiting q = [] ∧
         CreatePostBox.content (now q) = [] ∧ CreatePostBox.attachments (now q) = [] ∧
         CreatePostBox.notes (now q) = CreatePostBox.notes b ++ [inform (js "Posted!") (js "Your post has been shared.")].
Proof.
  intros Hb Hp.
  assert (CreatePostBox.toolbar b = true) as Ht.
  { unfold CreatePostBox.toolbar. destruct (CreatePostBox.content b); [done|]. apply orb_true_r. }
  pose (p := start (Update (CreatePostBox.setContent later) Finish) (start (CreatePostBox.handlePost b) (idle b))).
  assert (∃ k, waiting p = [Await (CallCreate (trim (CreatePostBox.content b)) (map id (CreatePostBox.attachments b))) k] ∧
               now p = CreatePostBox.setContent later (CreatePostBox.setIsPosting true b) ∧
               k (Ok tt) = Update (CreatePostBox.toast (inform (js "Posted!") (js "Your post has been shared.")))
              (Update (CreatePostBox.setContent [])
                (Update (CreatePostBox.setIsFocused false)
                  (Update (CreatePostBox.setAttachments (λ _, []))
                    (Update CreatePostBox.onPostCreated
                      (Update (CreatePostBox.setIsPosting false) Finish)))))) as (k & Hw & Hn & Hk).
  { unfold p, CreatePostBox.handlePost. rewrite Hb. eexists. by repeat split. }
  exists p, (proceed 0 (k (Ok tt)) p). split; [|split; [|split; [|split]]].
  - eapply rtc_l; [apply (step_event _ _ (CreatePostBox.handlePost b)); constructor; [done|by rewrite Hb, Hp]|].
    eapply rtc_l; [|apply rtc_refl]. apply step_event. constructor.
  - unfold in_flight. by rewrite Hw.
  - by rewrite Hn.
  - apply rtc_once. exists 0%nat, _, k, (Ok tt). by rewrite Hw.
  - unfold proceed. rewrite Hk, Hw, Hn. by repeat split.
Qed.
End Forms.

(** ** Instances *)

Section FormExamples.
Import Async Ui Posting.

Definition typed_login : Login.LoginPage := Login.setPassword (js "secret") (Login.setUsername (js "ann") Login.initial).

Lemma login_page_end_to_end_witness :
  Login.isLoading (exec (@Login.perform Models.engine NbookAuth.offline None true) (Login.handleSubmit typed_login)
                     typed_login NbookAuth.ann).1 = false.
Proof.
  pose proof (@login_page_end_to_end Models.engine NbookAuth.offline None true typed_login NbookAuth.ann eq_refl) as Hl.
  destruct (exec _ _ _ _) as [q s']. destruct Hl as [Hq _]. exact Hq.
Defined.

Definition typed_registration : Register.RegisterPage :=
  Register.setConfirmPassword (js "secret") (Register.setPassword (js "secret") (Register.setUsername (js "ann") Register.initial)).

Lemma register_page_end_to_end_witness :
  acceptable typed_registration = true ∧
  Register.isLoading (exec (@Register.perform Models.engine NbookAuth.offline None true)
                        (Register.handleSubmit typed_registration) typed_registration NbookAuth.ann).1 = false.
Proof.
  split; [reflexivity|].
  pose proof (@register_page_end_to_end Models.engine NbookAuth.offline None true typed_registration NbookAuth.ann eq_refl eq_refl) as Hr.
  cbv zeta in Hr. destruct (exec _ _ _ _) as [q s']. destruct (NbookAuth.register _ _ _) as [o s1].
  destruct (NbookAuth.login _ _ s1) as [o' s2]. destruct Hr as [Hq _]. exact Hq.
Defined.

Definition two_files : list file := [{| file_name := js "a.png"; file_contents := [1; 2] |}; {| file_name := js "b.png"; file_contents := [3] |}].

Lemma upload_batch_witness :
  calls (answers (λ f, Ok (js "id-" ++ file_name f)) (Ok tt)) (CreatePostBox.handleFileSelect two_files) CreatePostBox.initial
  = map CallUpload two_files.
Proof.
  destruct (upload_batch (λ f, Ok (js "id-" ++ file_name f)) (Ok tt) two_files CreatePostBox.initial ltac:(discriminate)) as [Hc _].
  exact Hc.
Defined.

Lemma post_discards_edits_witness :
  ∃ p : pool CreatePostBox.CreatePostBox call reply, in_flight p = [CallCreate (js "hi") []] ∧ CreatePostBox.content (now p) = js "more".
Proof.
  destruct (post_discards_edits (CreatePostBox.setContent (js "hi") CreatePostBox.initial) (js "more") eq_refl eq_refl)
    as (p & q & _ & Hf & Hc & _).
  exists p. split; [exact Hf|exact Hc].
Defined.
End FormExamples.
