(* ===== verification/NbookFeed.v ===== *)
(** * nbook/ui: the feed, the side panels

    components/feed/feed-content.tsx, right-panel.tsx, sidebar.tsx, mobile-nav.tsx,
    with the client-facing shapes of lib/onvm-client.ts as records: the numbers of
    the program are integers. *)

From S2P Require Import Prelude JsValue Codec Json Platform SdkErrors Browser Models NbookClient NbookAuth Async NbookPages.

Module Data.

Record Attachment : Type := {
  blob_id_hex : jstr;
  size : Z;
  hash_hex : jstr;
}.

Record CommentView : Type := {
  c_id : jstr;
  c_author : jstr;
  c_text : jstr;
  c_createdAt : Z;
}.

Record Post : Type := {
  id : jstr;
  author : jstr;
  displayName : option jstr;
  avatarBlobId : option jstr;
  text : jstr;
  attachments : list Attachment;
  createdAt : Z;
  likes : Z;
  comments : list CommentView;
}.

Record UserSummary : Type := {
  u_username : jstr;
  u_displayName : option jstr;
  u_bio : option jstr;
  u_avatarBlobId : option jstr;
  u_bannerBlobId : option jstr;
  u_followers : Z;
}.

Record ProfileView : Type := {
  p_username : jstr;
  p_displayName : option jstr;
  p_bio : option jstr;
  p_avatarBlobId : option jstr;
  p_bannerBlobId : option jstr;
  p_followers : Z;
  p_following : Z;
  p_followerList : list jstr;
  p_followingList : list jstr;
  p_posts : list jstr;
  p_createdAt : Z;
}.

(** [x || y] for an optional string. *)
Definition opt_or (x : option jstr) (y : jstr) : jstr := str_or (default [] x) y.

(** The string when it is truthy. *)
Definition given (x : option jstr) : option jstr := match x with Some [] => None | _ => x end.

(** The URL of a blob behind the proxy. *)
Definition blob_url (id : jstr) : jstr := js "/api/onvm/blob/" ++ id.
End Data.

(** ** feed-content.tsx *)

Module Feed.
Import Async Ui Data.

Inductive FeedTab : Type := Following | Discover.

#[global] Instance FeedTab_eq_dec : EqDecision FeedTab.
Proof. solve_decision. Defined.

Definition is_discover (t : FeedTab) : bool := match t with Discover => true | Following => false end.

Record props : Type := {
  initialTab : FeedTab;
  fixedDiscover : bool;
  title : option jstr;
  hideToggle : bool;
}.

(** [focusedPostId] is read from the URL; [dirty] says that the effect has not run
    since its dependencies changed; [rendered] are the closures of [loadFeed] that
    children may hold: the tab and post of each render. *)
Record FeedContent : Type := {
  activeTab : FeedTab;
  posts : list Post;
  isLoading : bool;
  unauthenticated : bool;
  notes : list note;
  focusedPostId : option jstr;
  dirty : bool;
  rendered : list (FeedTab * option jstr);
}.

Definition setPosts (x : list Post) (s : FeedContent) : FeedContent :=
  {| activeTab := activeTab s; posts := x; isLoading := isLoading s; unauthenticated := unauthenticated s; notes := notes s;
     focusedPostId := focusedPostId s; dirty := dirty s; rendered := rendered s |}.
Definition setIsLoading (x : bool) (s : FeedContent) : FeedContent :=
  {| activeTab := activeTab s; posts := posts s; isLoading := x; unauthenticated := unauthenticated s; notes := notes s;
     focusedPostId := focusedPostId s; dirty := dirty s; rendered := rendered s |}.
Definition setUnauthenticated (x : bool) (s : FeedContent) : FeedContent :=
  {| activeTab := activeTab s; posts := posts s; isLoading := isLoading s; unauthenticated := x; notes := notes s;
     focusedPostId := focusedPostId s; dirty := dirty s; rendered := rendered s |}.
Definition toast (n : note) (s : FeedContent) : FeedContent :=
  {| activeTab := activeTab s; posts := posts s; isLoading := isLoading s; unauthenticated := unauthenticated s;
     notes := notes s ++ [n]; focusedPostId := focusedPostId s; dirty := dirty s; rendered := rendered s |}.
Definition ran (s : FeedContent) : FeedContent :=
  {| activeTab := activeTab s; posts := posts s; isLoading := isLoading s; unauthenticated := unauthenticated s;
     notes := notes s; focusedPostId := focusedPostId s; dirty := false; rendered := rendered s |}.

(** A render with another tab or another focused post; the effect runs again only then. *)
Definition rerender (tab : FeedTab) (focused : option jstr) (s : FeedContent) : FeedContent :=
  if bool_decide (tab = activeTab s ∧ focused = focusedPostId s) then s
  else {| activeTab := tab; posts := posts s; isLoading := isLoading s; unauthenticated := unauthenticated s;
          notes := notes s; focusedPostId := focused; dirty := true; rendered := (tab, focused) :: rendered s |}.

Definition setActiveTab (tab : FeedTab) (s : FeedContent) : FeedContent := rerender tab (focusedPostId s) s.
Definition navigate (focused : option jstr) (s : FeedContent) : FeedContent := rerender (activeTab s) focused s.

Definition initial (P : props) (focused : option jstr) : FeedContent :=
  let tab := if fixedDiscover P then Discover else initialTab P in
  {| activeTab := tab; posts := []; isLoading := true; unauthenticated := false; notes := []; focusedPostId := focused;
     dirty := true; rendered := [(tab, focused)] |}.

Inductive call : Type :=
| CallGetPost (id : jstr)
| CallGetFeed (limit : Z) (discover : bool).

Definition reply (c : call) : Type :=
  match c with
  | CallGetPost _ => outcome exn Post
  | CallGetFeed _ _ => outcome exn (list Post)
  end.

Abbreviation handler := (task FeedContent call reply).

(** [loadFeed] of a render with [tab] and [focused]; [session] is the outcome of
    [getSession()?.session] when it is called.  When that throws, nothing more is done. *)
Definition loadFeed (tab : FeedTab) (focused : option jstr) (session : outcome exn value) : handler :=
  match given focused with
  | Some postId =>
      Update (setIsLoading true)
        (Update (setUnauthenticated false)
          (Await (CallGetPost postId) (λ r,
            match r with
            | Ok p => Update (setPosts [p]) (Update (setIsLoading false) Finish)
            | Throw error =>
                Update (toast (failure (js "Failed to load post") error))
                  (Update (setPosts []) (Update (setIsLoading false) Finish))
            end)))
  | None =>
      match session with
      | Throw _ => Finish
      | Ok token =>
          if negb (truthy token) then Update (setUnauthenticated true) (Update (setIsLoading false) Finish)
          else
            Update (setUnauthenticated false)
              (Update (setIsLoading true)
                (Await (CallGetFeed 20 (is_discover tab)) (λ r,
                  match r with
                  | Ok feedData => Update (setPosts feedData) (Update (setIsLoading false) Finish)
                  | Throw error =>
                      Update (toast (failure (js "Failed to load feed") error)) (Update (setIsLoading false) Finish)
                  end)))
      end
  end.

(** The body of the effect. *)
Definition effect (P : props) (captured : FeedContent) (session : outcome exn value) : handler :=
  if fixedDiscover P && negb (is_discover (activeTab captured)) then Update (setActiveTab Discover) Finish
  else loadFeed (activeTab captured) (focusedPostId captured) session.

Definition headerTitle (P : props) : jstr :=
  opt_or (title P) (if fixedDiscover P then js "Discover" else js "Home").

Definition other (t : FeedTab) : FeedTab := match t with Following => Discover | Discover => Following end.

(** The heading and the tabs; the post box, unless logged out; what is below. *)
Inductive body : Type :=
| LoggedOut
| Loading
| NoPosts
| Cards (l : list Post).

Definition render (P : props) (s : FeedContent) : list element * bool * body :=
  ( [Text (headerTitle P)]
    ++ when (negb (hideToggle P))
         [Button (match activeTab s with Following => js "Switch to Discover" | Discover => js "Switch to Following" end) true]
    ++ when (negb (fixedDiscover P)) [Button (js "Following") true; Button (js "Discover") true],
    negb (unauthenticated s),
    if unauthenticated s then LoggedOut
    else if isLoading s then Loading
    else match posts s with [] => NoPosts | l => Cards l end ).

(** Clicks on what is rendered, a change of the URL, the effect, and the callbacks
    of the post box and the cards; [sessions] are the outcomes [getSession()?.session]
    may have. *)
Inductive event (sessions : outcome exn value → Prop) (P : props) : FeedContent → handler → Prop :=
| toggle s : hideToggle P = false → event sessions P s (Update (setActiveTab (other (activeTab s))) Finish)
| choose tab s : fixedDiscover P = false → event sessions P s (Update (setActiveTab tab) Finish)
| visit focused s : event sessions P s (Update (navigate focused) Finish)
| run_effect session s : sessions session → dirty s = true → event sessions P s (Update ran (effect P s session))
| callback tab focused session s :
    sessions session → In (tab, focused) (rendered s) → event sessions P s (loadFeed tab focused session).

Definition mount (P : props) (focused : option jstr) : pool FeedContent call reply := idle (initial P focused).
Definition reachable (sessions : outcome exn value → Prop) (P : props) (focused : option jstr) : pool FeedContent call reply → Prop :=
  reachable_from (event sessions P) any_outcome (mount P focused).

(** A session that can be read, or none. *)
Definition readable (session : outcome exn value) : Prop := ∃ token, session = Ok token.

(** The sessions of a user who is logged in. *)
Definition logged_in (session : outcome exn value) : Prop := ∃ token, session = Ok token ∧ truthy token = true.

(** components/discover/discover-content.tsx and trending-content.tsx. *)
Definition discover_page (heading : jstr) : props :=
  {| initialTab := Discover; fixedDiscover := true; title := Some heading; hideToggle := true |}.
(** app/feed/page.tsx. *)
Definition feed_page : props :=
  {| initialTab := Following; fixedDiscover := false; title := None; hideToggle := false |}.
End Feed.

(** ** right-panel.tsx *)

Module Panel.
Import Async Ui Data.

(** [token] is [session?.session] of the last render; [dirty] says that the effect
    has not run since it changed. *)
Record RightPanel : Type := {
  query : jstr;
  results : list UserSummary;
  suggestions : list UserSummary;
  pendingFollow : option jstr;
  notes : list note;
  token : option jstr;
  dirty : bool;
}.

Definition setQuery (x : jstr) (s : RightPanel) : RightPanel :=
  {| query := x; results := results s; suggestions := suggestions s; pendingFollow := pendingFollow s; notes := notes s;
     token := token s; dirty := dirty s |}.
Definition setResults (x : list UserSummary) (s : RightPanel) : RightPanel :=
  {| query := query s; results := x; suggestions := suggestions s; pendingFollow := pendingFollow s; notes := notes s;
     token := token s; dirty := dirty s |}.
Definition setSuggestions (f : list UserSummary → list UserSummary) (s : RightPanel) : RightPanel :=
  {| query := query s; results := results s; suggestions := f (suggestions s); pendingFollow := pendingFollow s;
     notes := notes s; token := token s; dirty := dirty s |}.
Definition setPendingFollow (x : option jstr) (s : RightPanel) : RightPanel :=
  {| query := query s; results := results s; suggestions := suggestions s; pendingFollow := x; notes := notes s;
     token := token s; dirty := dirty s |}.
Definition toast (n : note) (s : RightPanel) : RightPanel :=
  {| query := query s; results := results s; suggestions := suggestions s; pendingFollow := pendingFollow s;
     notes := notes s ++ [n]; token := token s; dirty := dirty s |}.
Definition rerender (x : option jstr) (s : RightPanel) : RightPanel :=
  {| query := query s; results := results s; suggestions := suggestions s; pendingFollow := pendingFollow s;
     notes := notes s; token := x; dirty := dirty s || negb (bool_decide (x = token s)) |}.
Definition ran (s : RightPanel) : RightPanel :=
  {| query := query s; results := results s; suggestions := suggestions s; pendingFollow := pendingFollow s;
     notes := notes s; token := token s; dirty := false |}.

Definition initial (x : option jstr) : RightPanel :=
  {| query := []; results := []; suggestions := []; pendingFollow := None; notes := []; token := x; dirty := true |}.

Inductive call : Type :=
| CallSuggestions (limit : Z)
| CallSearch (query : jstr) (limit : Z)
| CallFollow (username : jstr).

Definition reply (c : call) : Type :=
  match c with
  | CallSuggestions _ | CallSearch _ _ => outcome exn (list UserSummary)
  | CallFollow _ => outcome exn ()
  end.

Abbreviation handler := (task RightPanel call reply).

Definition logged_in (s : RightPanel) : bool := match given (token s) with Some _ => true | None => false end.

(** The console message of the [catch] is dropped. *)
Definition loadSuggestions (captured : RightPanel) : handler :=
  if negb (logged_in captured) then Finish
  else Await (CallSuggestions 5) (λ r,
         match r with
         | Ok users => Update (setSuggestions (λ _, users)) Finish
         | Throw _ => Finish
         end).

Definition performSearch (captured : RightPanel) : handler :=
  if Posting.blank (query captured) then Finish
  else if negb (logged_in captured) then
    Update (toast (alert (js "Login required") (js "Log in to search users."))) Finish
  else Await (CallSearch (trim (query captured)) 10) (λ r,
         match r with
         | Ok users => Update (setResults users) Finish
         | Throw e => Update (toast (failure (js "Search failed") e)) Finish
         end).

Definition not_user (name : jstr) (u : UserSummary) : bool := negb (str_eqb (u_username u) name).

(** The click on the button of a suggestion. *)
Definition follow (name : jstr) : handler :=
  Update (setPendingFollow (Some name))
    (Await (CallFollow name) (λ r,
      match r with
      | Ok _ =>
          Update (toast (announce (js "Following " ++ name)))
            (Update (setSuggestions (filter (λ u, not_user name u)))
              (Update (setPendingFollow None) Finish))
      | Throw e => Update (toast (failure (js "Follow failed") e)) (Update (setPendingFollow None) Finish)
      end)).

(** A row links to the profile; a malformed name makes the rendering throw. *)
Definition renderUserRow `{UpperCase} (u : UserSummary) : outcome exn (list element) :=
  let! name := encodeURIComponent (u_username u) in
  let shown := opt_or (u_displayName u) (u_username u) in
  Ok (match given (u_avatarBlobId u) with Some a => [Image (blob_url a)] | None => [] end
      ++ [ Text (badge (str_or shown (js "NB"))); Link shown (js "/profile?user=" ++ name);
           Text (opt_or (u_bio u) (js "No bio yet")); Text (Z_to_str (u_followers u) ++ js " followers") ]).

Definition pending_is (s : RightPanel) (u : UserSummary) : bool :=
  match pendingFollow s with Some n => str_eqb n (u_username u) | None => false end.

Definition render `{UpperCase} (s : RightPanel) : outcome exn (list element) :=
  let! found := traverse renderUserRow (results s) in
  let! rows := traverse (λ u,
    let! row := renderUserRow u in
    Ok (row ++ [Button (if pending_is s u then js "Following..." else js "Follow") (negb (pending_is s u))])) (suggestions s) in
  Ok ([Input (js "Search users...") (query s)] ++ concat found ++ [Paragraph "Discover people"]
      ++ match suggestions s with [] => [Paragraph "Sign in to see suggestions."] | _ => concat rows end).

Inductive event : RightPanel → handler → Prop :=
| type q s : event s (Update (setQuery q) Finish)
| enter s : event s (performSearch s)
| click u s : In u (suggestions s) → pending_is s u = false → event s (follow (u_username u))
| session x s : event s (Update (rerender x) Finish)
| run_effect s : dirty s = true → event s (Update ran (loadSuggestions s)).

Definition reachable (x : option jstr) : pool RightPanel call reply → Prop :=
  reachable_from event any_outcome (idle (initial x)).
End Panel.

(** ** sidebar.tsx and mobile-nav.tsx *)

Module Navigation.
Import Async Ui Data.

Record Sidebar : Type := {
  username : option jstr;
  hasSession : bool;
  avatarId : option jstr;
}.

Definition initial : Sidebar := {| username := None; hasSession := false; avatarId := None |}.

Definition setAvatarId (x : option jstr) (s : Sidebar) : Sidebar :=
  {| username := username s; hasSession := hasSession s; avatarId := x |}.
Definition set_session (u : option jstr) (b : bool) (s : Sidebar) : Sidebar :=
  {| username := u; hasSession := b; avatarId := avatarId s |}.

Inductive call : Type :=
| CallGetProfile (username : jstr)
| CallLogout.

Definition reply (c : call) : Type :=
  match c with
  | CallGetProfile _ => outcome exn ProfileView
  | CallLogout => outcome exn ()
  end.

Abbreviation handler := (task Sidebar call reply).

(** The effect of the first render; [session] is the user's name in [getSession()]. *)
Definition effect (session : option jstr) : handler :=
  Update (set_session session (match session with Some _ => true | None => false end))
    (match given session with
     | None => Finish
     | Some name =>
         Await (CallGetProfile name) (λ r,
           match r with
           | Ok p => Update (setAvatarId (given (p_avatarBlobId p))) Finish
           | Throw _ => Update (setAvatarId None) Finish
           end)
     end).

(** [logout()] is started and not awaited. *)
Definition onLogout : handler := Update (set_session None false) (Await CallLogout (λ _, Finish)).

Definition navItems (pathname : jstr) : list (jstr * jstr * bool) :=
  map (λ i, (js i.1, js i.2, str_eqb pathname (js i.2)))
    [("Home", "/feed"); ("Discover", "/discover"); ("Create", "/create"); ("Profile", "/profile");
     ("Settings", "/settings")]%string.

Definition render `{UpperCase} (pathname : jstr) (s : Sidebar) : list element :=
  [Link (js "nbook") (js "/feed")] ++ map (λ i, Link i.1.1 i.1.2) (navItems pathname)
  ++ [ match given (avatarId s) with
       | Some a => Image (blob_url a)
       | None => Text (badge (opt_or (username s) (js "NB")))
       end;
       Link (opt_or (username s) (js "Guest")) (if hasSession s then js "/profile" else js "/login");
       Text (if hasSession s then js "View profile" else js "Log in") ]
  ++ when (hasSession s) [Button (js "Logout") true].

(** MobileNav: label, target, and whether it is the current page; the target to
    create a post has no label. *)
Definition mobile_items (pathname : jstr) : list (jstr * jstr * bool) :=
  map (λ i, if str_eqb (js i.2) (js "/create") then ([], js i.2, false) else (js i.1, js i.2, str_eqb pathname (js i.2)))
    [("Home", "/feed"); ("Discover", "/discover"); ("Post", "/create"); ("Profile", "/profile")]%string.

Inductive event : Sidebar → handler → Prop :=
| click_logout s : hasSession s = true → event s onLogout.
End Navigation.

(** ** Properties *)

Section FeedProperties.
Import Async Ui Data Feed.

(** Loading, and not about to load again. *)
Definition spinning (s : FeedContent) : bool := isLoading s && negb (dirty s).

Lemma rerender_never_raises tab focused : never_raises spinning (rerender tab focused).
Proof. intros s. unfold rerender. case_if; [done|]. unfold spinning. simpl. by rewrite andb_false_r. Qed.

Lemma loadFeed_settles tab focused session : readable session → settles spinning true (loadFeed tab focused session).
Proof. intros [token ->]. unfold loadFeed. settle. Qed.

Lemma feed_event_calm P s t : event readable P s t → calm spinning s t.
Proof.
  intros [s' _|tab s' _|focused s'|session s' Hs Hd|tab focused session s' Hs _].
  - left. right; left. split; [intros ?; apply rerender_never_raises|done].
  - left. right; left. split; [intros ?; apply rerender_never_raises|done].
  - left. right; left. split; [intros ?; apply rerender_never_raises|done].
  - unfold effect. case_if.
    + right. split; [done|]. simpl. unfold setActiveTab, rerender, spinning. simpl.
      destruct (activeTab s'); [by rewrite bool_decide_eq_false_2 by naive_solver; rewrite andb_false_r|].
      zbool. done.
    + left. right; right. by apply loadFeed_settles.
  - left. by apply settles_due, loadFeed_settles.
Qed.

(** C25 The feed's spinner.  As long as the stored session can be read, it ends: from every
    reachable state, whatever the tab, the URL and the callbacks did, once the calls under
    way are answered it is off, unless the tab or the URL has just changed and the effect
    that loads again is still to run.  When [getSession()] throws, as it does for a stored
    text that is not JSON, the first effect of a page without a focused post leaves it on
    with no call under way. *)
Theorem feed_settles (P : props) (focused : option jstr) :
  (∀ p, reachable readable P focused p →
    inevitably (λ q, waiting q = [] ∧ (dirty (now q) = false → isLoading (now q) = false)) p) ∧
  (∀ e, given focused = None →
    let q := start (Update ran (effect P (initial P focused) (Throw e))) (mount P focused) in
    waiting q = [] ∧ dirty (now q) = false ∧ (render P (now q)).2 = Loading).
Proof.
  split.
  - intros p Hp. apply (inevitably_mono (λ q, waiting q = [] ∧ spinning (now q) = false) _ (λ _, True)); [done| |done|].
    + intros q _ [Hw Hs]. split; [exact Hw|]. intros Hd. unfold spinning in Hs. rewrite Hd in Hs. by destruct (isLoading (now q)).
    + by eapply lowered_from_idle; [apply feed_event_calm|exact Hp|].
  - intros e Hf. unfold effect, loadFeed. cbn [initial activeTab focusedPostId]. rewrite Hf.
    by destruct (fixedDiscover P), (initialTab P).
Qed.

(** What a page that is fixed on discovery asks for. *)
Definition discovering (c : call) : Prop :=
  match c with CallGetPost id => id ≠ [] | CallGetFeed limit discover => limit = 20 ∧ discover = true end.

Definition on_discover (s : FeedContent) : Prop :=
  activeTab s = Discover ∧ Forall (λ r, r.1 = Discover) (rendered s).

Lemma loadFeed_discover focused session : safe discovering on_discover (loadFeed Discover focused session).
Proof. unfold loadFeed. destruct focused as [[|c l]|]; cbn [given]; safely. Qed.

(** The discover and trending pages only ever fetch the discovery feed (or the one
    post of the URL): no tab, callback or late answer makes them load the feed of
    the people one follows. *)
Theorem discover_page_discovers (heading : jstr) (focused : option jstr) (p : pool FeedContent call reply) :
  reachable (λ _, True) (discover_page heading) focused p →
  Forall discovering (in_flight p) ∧ activeTab (now p) = Discover.
Proof.
  intros Hp. assert (on_discover (now p) ∧ Forall (safe discovering on_discover) (waiting p)) as [[Ht _] Hw].
  { eapply safe_reachable; [exact Hp| |by repeat constructor].
    intros s t [Hs Hr] He. destruct He as [s Hh|tab s Hf|focused' s|session s _ Hd|tab focused' session s _ Hin];
      [done|done| | |].
    - split; [|done]. intros s' [Hs' Hr']. unfold navigate, rerender. case_if; [done|]. split; [done|]. simpl.
      constructor; [done|exact Hr'].
    - split; [done|]. unfold effect. rewrite Hs. cbn [is_discover negb]. rewrite andb_false_r. apply loadFeed_discover.
    - rewrite Forall_forall in Hr. assert (tab = Discover) as -> by (apply (Hr (tab, focused')); by apply list_elem_of_In).
      apply loadFeed_discover. }
  split; [|done]. by eapply safe_in_flight.
Qed.

(** The feed does not tell answers apart: after a switch from the followed people's
    feed to discovery, with both requests under way, a late answer to the first
    replaces the second's posts under the Discover tab. *)
Theorem feed_stale_answer (a b : list Post) :
  a ≠ [] →
  ∃ p k1 k2, reachable logged_in feed_page None p ∧
    waiting p = [Await (CallGetFeed 20 false) k1; Await (CallGetFeed 20 true) k2] ∧
    let q := proceed 0 (k1 (Ok a)) (proceed 1 (k2 (Ok b)) p) in
    waiting q = [] ∧ dirty (now q) = false ∧ activeTab (now q) = Discover ∧
    (render feed_page (now q)).2 = Cards a.
Proof.
  intros Ha. pose (s0 := initial feed_page None). pose (user := Ok (E := exn) (VStr (js "t"))).
  assert (logged_in user) as Hu by by eexists.
  pose (p1 := start (Update ran (effect feed_page s0 user)) (idle s0)).
  pose (p2 := start (Update (setActiveTab Discover) Finish) p1).
  pose (p3 := start (Update ran (effect feed_page (now p2) user)) p2).
  exists p3. do 2 eexists. split; [|split; [reflexivity|]].
  - eapply rtc_l; [apply (step_event _ _ (Update ran (effect feed_page s0 user))); by constructor|].
    eapply rtc_l; [apply (step_event _ _ (Update (setActiveTab Discover) Finish) p1); by constructor|].
    eapply rtc_l; [apply (step_event _ _ (Update ran (effect feed_page (now p2) user)) p2); by constructor|]. apply rtc_refl.
  - cbv zeta. split; [reflexivity|]. split; [reflexivity|]. split; [reflexivity|]. destruct a; [done|]. reflexivity.
Qed.
End FeedProperties.

Section PanelProperties.
Import Async Ui Data Panel.

(** A user that has [name] and nothing else. *)
Definition named (name : jstr) : UserSummary :=
  {| u_username := name; u_displayName := None; u_bio := None; u_avatarBlobId := None; u_bannerBlobId := None;
     u_followers := 0 |}.

(** Calls that all succeed, with [l] as the suggestions. *)
Definition suggesting (l : list UserSummary) (c : call) : reply c :=
  match c with CallSuggestions _ => Ok l | CallSearch _ _ => Ok [] | CallFollow _ => Ok tt end.

(** The panel remembers one pending follow only: while the follow of one suggestion
    is under way, following another and its answer enable the first button again, so
    the same user can be followed twice at the same time. *)
Theorem panel_follows_twice (x : option jstr) (u v : jstr) :
  given x ≠ None → u ≠ v →
  ∃ p, reachable x p ∧ in_flight p = [CallFollow u; CallFollow u].
Proof.
  intros Hx Huv. pose (s0 := initial x).
  assert (logged_in s0 = true) as Hin by (unfold logged_in; simpl; by destruct (given x)).
  pose (s1 := setSuggestions (λ _, [named u; named v]) (ran s0)).
  pose (p2 := start (follow v) (start (follow u) {| now := s1; waiting := [] |} : pool RightPanel call reply)).
  assert (∃ k1 k2, p2 = {| now := setPendingFollow (Some v) (setPendingFollow (Some u) s1);
                           waiting := [Await (CallFollow u) k1; Await (CallFollow v) k2] |} ∧
                   k2 (Ok tt) = Update (toast (announce (js "Following " ++ v)))
                                  (Update (setSuggestions (filter (λ u, not_user v u))) (Update (setPendingFollow None) Finish)))
    as (k1 & k2 & Hp2 & Hk2) by (do 2 eexists; split; reflexivity).
  pose (p3 := proceed 1 (k2 (Ok tt)) p2).
  assert (suggestions (now p3) = [named u] ∧ pendingFollow (now p3) = None ∧ in_flight p3 = [CallFollow u]) as (Hs3 & Hf3 & Hi3).
  { unfold p3, proceed. rewrite Hk2, Hp2. cbn [now waiting advance suggestions setPendingFollow setSuggestions toast s1].
    split; [|done]. rewrite filter_cons_True by (unfold not_user, str_eqb; simpl; by rewrite bool_decide_eq_false_2).
    rewrite filter_cons_False by (unfold not_user, str_eqb; simpl; rewrite bool_decide_eq_true_2 by done; by intros []).
    done. }
  exists (start (follow u) p3). split.
  - eapply rtc_l; [apply (step_event _ _ (Update ran (loadSuggestions s0))); by constructor|].
    etrans; [apply (run_steps event any_outcome (suggesting [named u; named v]) _ s0 []); by intros|].
    replace (run _ _ s0) with s1 by (cbn [run]; unfold loadSuggestions; by rewrite Hin).
    eapply rtc_l; [apply (step_event _ _ (follow u)); apply (click (named u)); [by left|done]|].
    eapply rtc_l; [apply (step_event _ _ (follow v)); apply (click (named v)); [by right; left|]|].
    { unfold pending_is, str_eqb. simpl. by rewrite bool_decide_eq_false_2. }
    fold p2. eapply rtc_l; [apply (step_answer _ _ 1 (CallFollow v) k2 (Ok tt)); [by rewrite Hp2|done]|]. fold p3.
    eapply rtc_l; [apply (step_event _ _ (follow u) p3); apply (click (named u)); [by rewrite Hs3; left|]|apply rtc_refl].
    unfold pending_is. by rewrite Hf3.
  - unfold start. cbn [follow advance]. unfold in_flight in *. cbn [waiting]. rewrite omap_app, Hi3. done.
Qed.
End PanelProperties.

Section SidebarProperties.
Import Async Ui Data Navigation.

(** Logging out of the sidebar turns the user into a guest at once, but leaves the
    picture of the user on display. *)
Theorem logout_keeps_avatar `{UpperCase} (ans : ∀ c, reply c) (name a pathname : jstr) (P : ProfileView) :
  name ≠ [] → a ≠ [] → p_avatarBlobId P = Some a → ans (CallGetProfile name) = Ok P →
  let s := run ans (andThen (effect (Some name)) onLogout) initial in
  username s = None ∧ hasSession s = false ∧
  Image (blob_url a) ∈ render pathname s ∧ Link (js "Guest") (js "/login") ∈ render pathname s ∧
  Button (js "Logout") true ∉ render pathname s.
Proof.
  intros Hn Ha HP Hans. cbv zeta. rewrite run_andThen.
  assert (run ans (effect (Some name)) initial = {| username := Some name; hasSession := true; avatarId := Some a |}) as ->.
  { unfold effect. destruct name; [done|]. cbn [given run]. rewrite Hans. cbn [run]. rewrite HP. by destruct a. }
  destruct a as [|a0 a]; [done|]. cbn [run onLogout]. split; [done|]. split; [done|].
  unfold render. cbn [set_session username hasSession avatarId given opt_or default when]. rewrite !elem_of_app.
  split; [right; right; left; by left|]. split; [right; right; left; by right; left|].
  intros [Hin|[Hin|[Hin|Hin]]]; [set_solver| |set_solver|set_solver].
  by apply list_elem_of_fmap in Hin as (i & Hi & _).
Qed.
End SidebarProperties.

(** ** Instances *)

Module FeedExamples.
Import Async Ui Data.

Definition ascii_upper : UpperCase :=
  {| toUpperCase := map (λ c, if (97 <=? c) && (c <=? 122) then c - 32 else c); toUpperCase_ascii := λ s _, eq_refl |}.

Definition a_post : Post :=
  {| id := js "p1"; author := js "bo"; displayName := None; avatarBlobId := None; text := js "hello";
     attachments := [{| blob_id_hex := js "b10b"; size := 3; hash_hex := js "00" |}]; createdAt := 0; likes := 0;
     comments := [] |}.

Definition profile_of (name : jstr) : ProfileView :=
  {| p_username := name; p_displayName := None; p_bio := None; p_avatarBlobId := Some (js "a7a7"); p_bannerBlobId := None;
     p_followers := 0; p_following := 0; p_followerList := []; p_followingList := []; p_posts := []; p_createdAt := 0 |}.

(** The token of a user who is logged in. *)
Definition a_session : outcome exn value := Ok (VStr (js "t0ken")).

(** The feed page after its effect ran. *)
Definition loading_feed : pool Feed.FeedContent Feed.call Feed.reply :=
  start (Update Feed.ran (Feed.effect Feed.feed_page (Feed.initial Feed.feed_page None) a_session)) (Feed.mount Feed.feed_page None).

Lemma feed_settles_witness :
  Feed.isLoading (now loading_feed) = true ∧
  inevitably (λ q, waiting q = [] ∧ (Feed.dirty (now q) = false → Feed.isLoading (now q) = false)) loading_feed.
Proof.
  split; [vm_compute; reflexivity|]. apply (feed_settles Feed.feed_page None). apply rtc_once, step_event.
  by constructor; [eexists|].
Defined.

Definition loading_discovery : pool Feed.FeedContent Feed.call Feed.reply :=
  start (Update Feed.ran (Feed.effect (Feed.discover_page (js "Trending")) (Feed.initial (Feed.discover_page (js "Trending")) None) a_session))
    (Feed.mount (Feed.discover_page (js "Trending")) None).

Lemma discover_page_discovers_witness :
  in_flight loading_discovery = [Feed.CallGetFeed 20 true] ∧ Forall discovering (in_flight loading_discovery).
Proof.
  split; [vm_compute; reflexivity|]. apply (discover_page_discovers (js "Trending") None). apply rtc_once, step_event. by constructor.
Defined.

Lemma feed_stale_answer_witness :
  ∃ q : pool Feed.FeedContent Feed.call Feed.reply,
    Feed.activeTab (now q) = Feed.Discover ∧ (Feed.render Feed.feed_page (now q)).2 = Feed.Cards [a_post].
Proof.
  destruct (feed_stale_answer [a_post] [] ltac:(discriminate)) as (p & k1 & k2 & _ & _ & _ & _ & Ht & Hb).
  eexists. split; [exact Ht|exact Hb].
Defined.

Lemma panel_follows_twice_witness :
  ∃ p, Panel.reachable (Some (js "t0ken")) p ∧ in_flight p = [Panel.CallFollow (js "bo"); Panel.CallFollow (js "bo")].
Proof. apply (panel_follows_twice (Some (js "t0ken")) (js "bo") (js "cy")); discriminate. Defined.

Definition ann_profile (c : Navigation.call) : Navigation.reply c :=
  match c with Navigation.CallGetProfile u => Ok (profile_of u) | Navigation.CallLogout => Ok tt end.

Lemma logout_keeps_avatar_witness :
  let s := run ann_profile (andThen (Navigation.effect (Some (js "ann"))) Navigation.onLogout) Navigation.initial in
  Navigation.hasSession s = false ∧
  Image (blob_url (js "a7a7")) ∈ @Navigation.render ascii_upper (js "/feed") s.
Proof.
  destruct (@logout_keeps_avatar ascii_upper ann_profile (js "ann") (js "a7a7") (js "/feed") (profile_of (js "ann")))
    as (_ & Hs & Hi & _); [discriminate|discriminate|reflexivity|reflexivity|].
  split; [exact Hs|exact Hi].
Defined.
End FeedExamples.
