(* ===== verification/NbookCards.v ===== *)
(** * nbook/ui/components/feed/post-card.tsx

    The cards of a page share the module variables [cachedFollowing] and
    [cachedFollowingPromise]; a page is therefore the list of its cards with those
    variables.  Handlers and effects are tasks; every call carries the number of the
    card that makes it.  A task that awaits the shared promise of another waits for
    [CallFollowing]; it is answered with what that promise was settled with. *)

From S2P Require Import Prelude JsValue Codec Json Platform SdkErrors Browser Models NbookClient NbookAuth Async NbookPages.
From S2P Require Import NbookFeed.

Module Cards.
Import Errors Async Ui Data.

(** ** State *)

(** The property [post] and the state [localPost].  Arrays are compared by
    reference: [postRef] and [localRef] number the objects the two [attachments]
    come from; every object that arrives is a new one. *)
Record posts : Type := {
  post : Post;
  postRef : nat;
  localPost : Post;
  localRef : nat;
  nextRef : nat;
  postDirty : bool;   (* the effect on [post] is still to run *)
}.

(** The three effects that load: the dependencies of their last run, and the number
    of runs; a run is cancelled once its number is not the last.  [attachSeen] are
    the [attachments] its clean-up refers to. *)
Record effects : Type := {
  attachDeps : option (jstr * nat);
  attachRun : nat;
  attachSeen : list (jstr * jstr);
  profileDeps : option (jstr * option jstr);
  profileRun : nat;
  followDeps : option (option jstr * jstr);
  followRun : nat;
}.

Record PostCard : Type := {
  about : posts;
  isLiking : bool;
  bookmarked : bool;
  attachments : list (jstr * jstr);
  attachmentErrors : list (jstr * jstr);
  showCommentBox : bool;
  commentText : jstr;
  isCommenting : bool;
  sharing : bool;
  shareOpen : bool;
  isFollowingAuthor : option bool;
  followBusy : bool;
  detailOpen : bool;
  runs : effects;
  mounted : bool;
}.

Abbreviation local c := (localPost (about c)).

(** The setters of the state hooks. *)
Inductive edit : Type :=
| SetAbout (x : posts)
| SetIsLiking (b : bool)
| SetBookmarked (b : bool)
| SetAttachments (x : list (jstr * jstr))
| SetAttachmentErrors (x : list (jstr * jstr))
| SetShowCommentBox (b : bool)
| SetCommentText (x : jstr)
| SetIsCommenting (b : bool)
| SetSharing (b : bool)
| SetShareOpen (b : bool)
| SetIsFollowingAuthor (b : bool)
| SetFollowBusy (b : bool)
| SetDetailOpen (b : bool)
| SetRuns (x : effects)
| Unmount.

Definition set (e : edit) (c : PostCard) : PostCard := {|
  about := match e with SetAbout x => x | _ => about c end;
  isLiking := match e with SetIsLiking b => b | _ => isLiking c end;
  bookmarked := match e with SetBookmarked b => b | _ => bookmarked c end;
  attachments := match e with SetAttachments x => x | _ => attachments c end;
  attachmentErrors := match e with SetAttachmentErrors x => x | _ => attachmentErrors c end;
  showCommentBox := match e with SetShowCommentBox b => b | _ => showCommentBox c end;
  commentText := match e with SetCommentText x => x | _ => commentText c end;
  isCommenting := match e with SetIsCommenting b => b | _ => isCommenting c end;
  sharing := match e with SetSharing b => b | _ => sharing c end;
  shareOpen := match e with SetShareOpen b => b | _ => shareOpen c end;
  isFollowingAuthor := match e with SetIsFollowingAuthor b => Some b | _ => isFollowingAuthor c end;
  followBusy := match e with SetFollowBusy b => b | _ => followBusy c end;
  detailOpen := match e with SetDetailOpen b => b | _ => detailOpen c end;
  runs := match e with SetRuns x => x | _ => runs c end;
  mounted := match e with Unmount => false | _ => mounted c end |}.

Definition sets (es : list edit) (c : PostCard) : PostCard := fold_left (λ c e, set e c) es c.

(** [setLocalPost(updated)] with a new object. *)
Definition setLocalPost (p : Post) (c : PostCard) : PostCard :=
  let a := about c in
  set (SetAbout {| post := post a; postRef := postRef a; localPost := p; localRef := nextRef a; nextRef := S (nextRef a);
                   postDirty := postDirty a |}) c.

(** [setLocalPost((prev) => ({ ...prev, avatarBlobId }))]: the arrays stay the same. *)
Definition setAvatar (x : option jstr) (c : PostCard) : PostCard :=
  let a := about c in
  let p := localPost a in
  set (SetAbout {| post := post a; postRef := postRef a;
                   localPost := {| id := id p; author := author p; displayName := displayName p; avatarBlobId := x;
                                   text := text p; Data.attachments := Data.attachments p; createdAt := createdAt p;
                                   likes := likes p; comments := comments p |};
                   localRef := localRef a; nextRef := nextRef a; postDirty := postDirty a |}) c.

(** The parent renders the card with another post, and the effect that copies it. *)
Definition setPost (p : Post) (c : PostCard) : PostCard :=
  let a := about c in
  set (SetAbout {| post := p; postRef := nextRef a; localPost := localPost a; localRef := localRef a;
                   nextRef := S (nextRef a); postDirty := true |}) c.
Definition copyPost (c : PostCard) : PostCard :=
  let a := about c in
  set (SetAbout {| post := post a; postRef := postRef a; localPost := post a; localRef := postRef a;
                   nextRef := nextRef a; postDirty := false |}) c.

(** A loading effect starts: the previous run is cancelled. *)
Definition startAttach (c : PostCard) : PostCard :=
  let e := runs c in
  set (SetRuns {| attachDeps := Some (id (local c), localRef (about c)); attachRun := S (attachRun e);
                  attachSeen := attachments c; profileDeps := profileDeps e; profileRun := profileRun e;
                  followDeps := followDeps e; followRun := followRun e |}) c.
Definition startProfile (c : PostCard) : PostCard :=
  let e := runs c in
  set (SetRuns {| attachDeps := attachDeps e; attachRun := attachRun e; attachSeen := attachSeen e;
                  profileDeps := Some (author (local c), avatarBlobId (local c)); profileRun := S (profileRun e);
                  followDeps := followDeps e; followRun := followRun e |}) c.
Definition startFollow (me : option jstr) (c : PostCard) : PostCard :=
  let e := runs c in
  set (SetRuns {| attachDeps := attachDeps e; attachRun := attachRun e; attachSeen := attachSeen e;
                  profileDeps := profileDeps e; profileRun := profileRun e;
                  followDeps := Some (me, author (local c)); followRun := S (followRun e) |}) c.

(** Every effect is cleaned up. *)
Definition unmount (c : PostCard) : PostCard :=
  let e := runs c in
  set Unmount (set (SetRuns {| attachDeps := attachDeps e; attachRun := S (attachRun e); attachSeen := attachSeen e;
                               profileDeps := profileDeps e; profileRun := S (profileRun e); followDeps := followDeps e;
                               followRun := S (followRun e) |}) c).

Definition new_card (p : Post) : PostCard := {|
  about := {| post := p; postRef := 0; localPost := p; localRef := 0; nextRef := 1; postDirty := true |};
  isLiking := false; bookmarked := false; attachments := []; attachmentErrors := []; showCommentBox := false;
  commentText := []; isCommenting := false; sharing := false; shareOpen := false; isFollowingAuthor := None;
  followBusy := false; detailOpen := false;
  runs := {| attachDeps := None; attachRun := 0; attachSeen := []; profileDeps := None; profileRun := 0;
             followDeps := None; followRun := 0 |};
  mounted := true |}.

(** [promises] are the promises [cachedFollowingPromise] has held, with what they
    were settled with; [current] is the one it holds.  [me] is the user of the last
    renders; [urls] counts the object URLs created. *)
Record page : Type := {
  cards : list PostCard;
  cached : option (gset jstr);
  current : option nat;
  promises : list (option (outcome exn ()));
  me : option jstr;
  urls : nat;
  revoked : list jstr;
  notes : list note;
  updates : nat;
}.

Definition on (i : nat) (f : PostCard → PostCard) (s : page) : page :=
  {| cards := alter f i (cards s); cached := cached s; current := current s; promises := promises s; me := me s;
     urls := urls s; revoked := revoked s; notes := notes s; updates := updates s |}.
Definition setCached (x : option (gset jstr)) (s : page) : page :=
  {| cards := cards s; cached := x; current := current s; promises := promises s; me := me s; urls := urls s;
     revoked := revoked s; notes := notes s; updates := updates s |}.
Definition promised (s : page) : page :=
  {| cards := cards s; cached := cached s; current := Some (length (promises s));
     promises := promises s ++ [None]; me := me s; urls := urls s; revoked := revoked s; notes := notes s;
     updates := updates s |}.
Definition fulfilled (g : nat) (users : list UserSummary) (s : page) : page :=
  {| cards := cards s; cached := Some (list_to_set (map u_username users)); current := current s;
     promises := <[g := Some (Ok tt)]> (promises s); me := me s; urls := urls s; revoked := revoked s;
     notes := notes s; updates := updates s |}.
Definition rejected (g : nat) (e : exn) (s : page) : page :=
  {| cards := cards s; cached := cached s; current := None; promises := <[g := Some (Throw e)]> (promises s);
     me := me s; urls := urls s; revoked := revoked s; notes := notes s; updates := updates s |}.
Definition setMe (x : option jstr) (s : page) : page :=
  {| cards := cards s; cached := cached s; current := current s; promises := promises s; me := x;
     urls := urls s; revoked := revoked s; notes := notes s; updates := updates s |}.
Definition createdURL (s : page) : page :=
  {| cards := cards s; cached := cached s; current := current s; promises := promises s; me := me s;
     urls := S (urls s); revoked := revoked s; notes := notes s; updates := updates s |}.
Definition revoke (l : list jstr) (s : page) : page :=
  {| cards := cards s; cached := cached s; current := current s; promises := promises s; me := me s;
     urls := urls s; revoked := revoked s ++ l; notes := notes s; updates := updates s |}.
Definition toast (n : note) (s : page) : page :=
  {| cards := cards s; cached := cached s; current := current s; promises := promises s; me := me s;
     urls := urls s; revoked := revoked s; notes := notes s ++ [n]; updates := updates s |}.
Definition onUpdate (s : page) : page :=
  {| cards := cards s; cached := cached s; current := current s; promises := promises s; me := me s;
     urls := urls s; revoked := revoked s; notes := notes s; updates := S (updates s) |}.
Definition addCard (p : Post) (s : page) : page :=
  {| cards := cards s ++ [new_card p]; cached := cached s; current := current s; promises := promises s;
     me := me s; urls := urls s; revoked := revoked s; notes := notes s; updates := updates s |}.

Definition empty_page (user : option jstr) : page :=
  {| cards := []; cached := None; current := None; promises := []; me := user; urls := 0; revoked := []; notes := [];
     updates := 0 |}.

(** ** Calls *)

Inductive call : Type :=
| CallLike (i : nat) (postId : jstr)
| CallComment (i : nat) (postId text : jstr)
| CallDelete (i : nat) (postId : jstr)
| CallFollow (i : nat) (username : jstr)
| CallUnfollow (i : nat) (username : jstr)
| CallListFollowing (i : nat) (username : jstr) (limit : Z) (promise : nat)
| CallFollowing (i : nat) (promise : nat)
| CallProfile (i : nat) (username : jstr)
| CallFetchBlob (i : nat) (blob : jstr)
| CallClipboard (i : nat) (text : jstr)
| CallShare (i : nat) (text url : jstr).

Definition reply (c : call) : Type :=
  match c with
  | CallLike _ _ | CallComment _ _ _ => outcome exn Post
  | CallListFollowing _ _ _ _ => outcome exn (list UserSummary)
  | CallProfile _ _ => outcome exn ProfileView
  | CallFetchBlob _ _ => outcome exn (bytes * jstr)
  | _ => outcome exn ()
  end.

(** A shared promise gives what it was settled with; everything else is open. *)
Definition admissible (s : page) (c : call) : reply c → Prop :=
  match c with
  | CallFollowing _ g => λ r, promises s !! g = Some (Some r)
  | _ => λ _, True
  end.

Abbreviation handler := (task page call reply).

(** [URL.createObjectURL]: a new URL each time, without the separator the card uses. *)
Class ObjectURLs : Type := {
  objectURL : nat → jstr;
  objectURL_inj : ∀ m n, objectURL m = objectURL n → m = n;
  objectURL_plain : ∀ n, Forall (λ c, c ≠ 124) (objectURL n);
  objectURL_filled : ∀ n, objectURL n ≠ [];
}.

(** ** The shared set of followed people *)

(** [getFollowingSet(username)] and its continuation.  The first caller makes the
    request, which carries the number of its promise, and settles that promise; the
    others await it. *)
Definition getFollowingSet (i : nat) (username : jstr) (k : outcome exn () → handler) : handler :=
  Look (λ s,
    match cached s, current s with
    | Some _, _ => k (Ok tt)
    | None, Some g => Await (CallFollowing i g) k
    | None, None =>
        let g := length (promises s) in
        Update promised
          (Await (CallListFollowing i username 500 g) (λ r,
            match r with
            | Ok users => Update (fulfilled g users) (k (Ok tt))
            | Throw err => Update (rejected g err) (k (Throw err))
            end))
    end).

(** The one [Set] there is; its methods change it for every card. *)
Definition following (s : page) : gset jstr := default ∅ (cached s).
Definition mutate (f : gset jstr → gset jstr) (s : page) : page := setCached (f <$> cached s) s.

(** ** Handlers *)

Definition handleLike (i : nat) (captured : PostCard) : handler :=
  if isLiking captured then Finish
  else
    Update (on i (set (SetIsLiking true)))
      (Await (CallLike i (id (local captured))) (λ r,
        match r with
        | Ok updated => Update (on i (setLocalPost updated)) (Update (on i (set (SetIsLiking false))) Finish)
        | Throw error =>
            Update (toast (failure (js "Failed to like") error)) (Update (on i (set (SetIsLiking false))) Finish)
        end)).

Definition handleComment (i : nat) (captured : PostCard) : handler :=
  if Posting.blank (commentText captured) then Finish
  else
    Update (on i (set (SetIsCommenting true)))
      (Await (CallComment i (id (local captured)) (trim (commentText captured))) (λ r,
        match r with
        | Ok updated =>
            Update (on i (setLocalPost updated))
              (Update (on i (set (SetCommentText [])))
                (Update (on i (set (SetShowCommentBox false)))
                  (Update (on i (set (SetIsCommenting false))) Finish)))
        | Throw e =>
            Update (toast (failure (js "Failed to comment") e)) (Update (on i (set (SetIsCommenting false))) Finish)
        end)).

(** [!currentUser || !localPost?.author || currentUser === localPost.author], else
    the user. *)
Definition follower (user : option jstr) (p : Post) : option jstr :=
  match given user, author p with
  | Some u, _ :: _ => if str_eqb u (author p) then None else Some u
  | _, _ => None
  end.

Definition follow_failed (i : nat) (e : exn) : handler :=
  Update (toast (failure (js "Follow action failed") e)) (Update (on i (set (SetFollowBusy false))) Finish).

Definition handleFollowToggle (i : nat) (user : option jstr) (captured : PostCard) : handler :=
  let a := author (local captured) in
  match follower user (local captured), isFollowingAuthor captured with
  | None, _ => Update (toast (inform (js "Please log in") (js "Sign in to follow users."))) Finish
  | Some _, None => Finish
  | Some u, Some already =>
      Update (on i (set (SetFollowBusy true)))
        (getFollowingSet i u (λ r,
          match r with
          | Throw e => follow_failed i e
          | Ok _ =>
              if already then
                Await (CallUnfollow i a) (λ r,
                  match r with
                  | Throw e => follow_failed i e
                  | Ok _ =>
                      Update (mutate (λ f, f ∖ {[a]}))
                        (Update (on i (set (SetIsFollowingAuthor false)))
                          (Update (toast (announce (js "Unfollowed " ++ a)))
                            (Update (on i (set (SetFollowBusy false))) Finish)))
                  end)
              else
                Await (CallFollow i a) (λ r,
                  match r with
                  | Throw e => follow_failed i e
                  | Ok _ =>
                      Update (mutate (λ f, {[a]} ∪ f))
                        (Update (on i (set (SetIsFollowingAuthor true)))
                          (Update (toast (announce (js "Following " ++ a)))
                            (Update (on i (set (SetFollowBusy false))) Finish)))
                  end)
          end))
  end.

(** The click on Delete, on the copy button of an attachment, on Copy link and on
    Share via device. *)
Definition onDelete (i : nat) (captured : PostCard) : handler :=
  Await (CallDelete i (id (local captured))) (λ r,
    match r with
    | Ok _ => Update (toast (announce (js "Post deleted"))) (Update onUpdate Finish)
    | Throw e => Update (toast (failure (js "Delete failed") e)) Finish
    end).

Definition copyAttachment (i : nat) (blob : jstr) : handler :=
  Await (CallClipboard i blob) (λ r,
    match r with
    | Ok _ => Update (toast (announce (js "Attachment ID copied"))) Finish
    | Throw _ => Update (toast (alert (js "Copy failed") (js "Could not copy attachment id."))) Finish
    end).

Definition copyLink (i : nat) (shareUrl : jstr) : handler :=
  Await (CallClipboard i shareUrl) (λ r,
    match r with
    | Ok _ => Update (toast (announce (js "Link copied"))) Finish
    | Throw e => Update (toast (failure (js "Copy failed") e)) Finish
    end).

(** [e instanceof Error && e.name === "AbortError"]. *)
Definition aborted (e : exn) : bool := instanceof_Error e && str_eqb (error_name e) (js "AbortError").

Definition shareVia (i : nat) (captured : PostCard) (shareUrl : jstr) : handler :=
  Update (on i (set (SetSharing true)))
    (Await (CallShare i (text (local captured)) shareUrl) (λ r,
      match r with
      | Ok _ => Update (on i (set (SetSharing false))) Finish
      | Throw e =>
          if aborted e then Update (on i (set (SetSharing false))) Finish
          else Update (toast (failure (js "Share failed") e)) (Update (on i (set (SetSharing false))) Finish)
      end)).

(** ** Effects *)

Section Effects.
Context `{ObjectURLs}.

Definition card (i : nat) (s : page) : option PostCard := cards s !! i.

(** Whether run [n] of an effect of card [i] has been cleaned up. *)
Definition cancelled (last : effects → nat) (i n : nat) (s : page) : bool :=
  match card i s with Some c => negb (last (runs c) =? n)%nat | None => true end.

(** [`${URL.createObjectURL(blob)}|${contentType || "application/octet-stream"}`]. *)
Definition stored_blob (url contentType : jstr) : jstr :=
  url ++ [124] ++ str_or contentType (js "application/octet-stream").
Definition stored_url (stored : jstr) : jstr := hd [] (split_on 124 stored).
Definition stored_type (stored : jstr) : jstr := hd [] (tl (split_on 124 stored)).

(** The loop of [load], in run [n]. *)
Fixpoint load_loop (i n : nat) (todo : list Attachment) (next errs : list (jstr * jstr)) : handler :=
  match todo with
  | [] =>
      Look (λ s, if cancelled attachRun i n s then Finish
                 else Update (on i (set (SetAttachments next))) (Update (on i (set (SetAttachmentErrors errs))) Finish))
  | att :: rest =>
      Await (CallFetchBlob i (blob_id_hex att)) (λ r,
        match r with
        | Ok (_, contentType) =>
            Look (λ s, if cancelled attachRun i n s then Finish
                       else Update createdURL
                              (load_loop i n rest
                                 (obj_set (blob_id_hex att) (stored_blob (objectURL (urls s)) contentType) next) errs))
        | Throw e => load_loop i n rest next (obj_set (blob_id_hex att) (reason e (js "failed to load")) errs)
        end)
  end.

Definition load (i n : nat) (p : Post) : handler :=
  match Data.attachments p with [] => Finish | l => load_loop i n l [] [] end.

(** The URLs a clean-up revokes. *)
Definition seen_urls (c : PostCard) : list jstr := map (λ x, stored_url x.2) (attachSeen (runs c)).

Definition attachEffect (i : nat) (captured : PostCard) : handler :=
  Update (revoke (seen_urls captured))
    (Update (on i startAttach) (load i (S (attachRun (runs captured))) (local captured))).

Definition loadAuthorProfile (i n : nat) (p : Post) : handler :=
  match author p, given (avatarBlobId p) with
  | [], _ | _, Some _ => Finish
  | a, None =>
      Await (CallProfile i a) (λ r,
        match r with
        | Ok q =>
            Look (λ s, match given (p_avatarBlobId q) with
                       | Some avatar =>
                           if cancelled profileRun i n s then Finish else Update (on i (setAvatar (Some avatar))) Finish
                       | None => Finish
                       end)
        | Throw _ => Finish
        end)
  end.

Definition profileEffect (i : nat) (captured : PostCard) : handler :=
  Update (on i startProfile) (loadAuthorProfile i (S (profileRun (runs captured))) (local captured)).

Definition loadFollowState (i n : nat) (user : option jstr) (p : Post) : handler :=
  match follower user p with
  | None => Update (on i (set (SetIsFollowingAuthor false))) Finish
  | Some u =>
      getFollowingSet i u (λ r,
        Look (λ s,
          if cancelled followRun i n s then Finish
          else match r with
               | Ok _ => Update (on i (set (SetIsFollowingAuthor (bool_decide (author p ∈ following s))))) Finish
               | Throw _ => Update (on i (set (SetIsFollowingAuthor false))) Finish
               end))
  end.

Definition followEffect (i : nat) (user : option jstr) (captured : PostCard) : handler :=
  Update (on i (startFollow user)) (loadFollowState i (S (followRun (runs captured))) user (local captured)).

Definition unmountCard (i : nat) (captured : PostCard) : handler :=
  Update (revoke (seen_urls captured)) (Update (on i unmount) Finish).
End Effects.

(** ** What is rendered *)

(** [now] and [timestamp] are milliseconds below 2^53. *)
Definition formatTimestamp (now timestamp : Z) : jstr :=
  let diff := now - timestamp in
  let minutes := diff / 60000 in
  let hours := diff / 3600000 in
  let days := diff / 86400000 in
  if minutes <? 1 then js "just now"
  else if minutes <? 60 then Z_to_str minutes ++ js "m ago"
  else if hours <? 24 then Z_to_str hours ++ js "h ago"
  else Z_to_str days ++ js "d ago".

Section Rendering.
Context `{UpperCase}.

Definition shareUrl (origin : jstr) (c : PostCard) : outcome exn jstr :=
  let! e := encodeURIComponent (id (local c)) in
  Ok (origin ++ js "/feed?post=" ++ e).

Definition initials (c : PostCard) : jstr :=
  match str_or (author (local c)) (author (post (about c))) with
  | [] => js "NB"
  | a => badge a
  end.

Definition shortId (blob : jstr) : jstr :=
  if (16 <? length blob)%nat then take 8 blob ++ [8230] ++ drop (length blob - 6) blob else blob.

(** A successfully loaded attachment, by the type of its content. *)
Definition preview (url ct : jstr) : element :=
  if starts_with (js "image/") ct then Image url
  else if starts_with (js "audio/") ct then Audio url
  else if starts_with (js "video/") ct then Video url
  else Link (js "Download attachment (" ++ str_or ct (js "file") ++ js ")") url.

(** The error when there is one, else the preview when it is loaded. *)
Definition attachment_body (c : PostCard) (blob : jstr) : element :=
  match given (obj_get blob (attachmentErrors c)), given (obj_get blob (attachments c)) with
  | Some err, _ => Text (js "Failed to load: " ++ err)
  | None, Some stored =>
      match stored_url stored with
      | [] => Paragraph "Loading attachment"
      | url => preview url (stored_type stored)
      end
  | None, None => Paragraph "Loading attachment"
  end.

Definition attachment_view (c : PostCard) (att : Attachment) : list element :=
  [ Text (shortId (blob_id_hex att)); Text (js "(" ++ Z_to_str (kilobytes (size att)) ++ js " KB)"); Button (js "Copy") true;
    attachment_body c (blob_id_hex att) ].

Definition avatar (c : PostCard) : list element :=
  match given (avatarBlobId (local c)) with Some a => [Image (blob_url a)] | None => [] end ++ [Text (initials c)].

Definition follow_button (user : option jstr) (c : PostCard) : list element :=
  match follower user (local c) with
  | Some _ =>
      [Button (if followBusy c then js "..."
               else match isFollowingAuthor c with Some true => js "Unfollow" | _ => js "Follow" end) (negb (followBusy c))]
  | None => []
  end.

Definition own (user : option jstr) (p : Post) : bool :=
  match given user with Some u => str_eqb u (author p) | None => false end.

Definition count {A} (l : list A) : jstr := Z_to_str (Z.of_nat (length l)).

Definition comment_box (second : string) (c : PostCard) : list element :=
  [ Input (js "Add a comment") (commentText c); Button (js second) true;
    Button (if isCommenting c then js "Posting..." else js "Post") (negb (isCommenting c || Posting.blank (commentText c))) ].

(** The card; its text is that of the property. *)
Definition card_view (now : Z) (user : option jstr) (c : PostCard) : outcome exn (list element) :=
  let p := local c in
  let! a := encodeURIComponent (author p) in
  Ok (avatar c ++ [Link (author p) (js "/profile?user=" ++ a); Text (formatTimestamp now (createdAt p))]
      ++ follow_button user c ++ [Text (text (post (about c)))]
      ++ flat_map (attachment_view c) (Data.attachments p)
      ++ [Button (Z_to_str (likes p)) (negb (isLiking c)); Button (count (comments p)) true; Button (js "Share") true]
      ++ when (own user p) [Button (js "Delete") true] ++ [Button (js "Bookmark") true]
      ++ when (showCommentBox c) (comment_box "Cancel" c)
      ++ flat_map (λ m, [Text (c_author m); Text (c_text m)]) (comments p)).

(** The modal dialog with the post; its text is that of the state. *)
Definition detail_view (now : Z) (user : option jstr) (c : PostCard) : list element :=
  let p := local c in
  when (detailOpen c)
    (avatar c ++ [Text (author p); Text (formatTimestamp now (createdAt p))] ++ follow_button user c
     ++ [Button (js "Close") true; Text (text p)]
     ++ flat_map (attachment_view c) (Data.attachments p)
     ++ [Text (Z_to_str (likes p)); Text (count (comments p))]
     ++ [Button (Z_to_str (likes p)) (negb (isLiking c)); Button (count (comments p)) true; Button (js "Share") true]
     ++ comment_box "Clear" c
     ++ match comments p with
        | [] => [Paragraph "No comments yet."]
        | l => flat_map (λ m, [Text (c_author m); Text (formatTimestamp now (c_createdAt m)); Text (c_text m)]) l
        end).

Definition share_view (c : PostCard) : list element :=
  when (shareOpen c)
    [Paragraph "Share post"; Button (js "Close") true; Button (js "Copy link") true;
     Button (js "Share via device...") (negb (sharing c))].

(** What the card puts on the screen. *)
Definition render (now : Z) (origin : jstr) (user : option jstr) (c : PostCard) : outcome exn (list element) :=
  let! _ := shareUrl origin c in
  let! l := card_view now user c in
  Ok (l ++ detail_view now user c ++ share_view c).
End Rendering.

(** ** Events *)

Section Events.
Context `{ObjectURLs} (origin : jstr) (disableModal : bool).

(** Clicks and inputs that only set state variables of a card. *)
Inductive local_edit (c : PostCard) : list edit → Prop :=
| open_detail : disableModal = false → local_edit c [SetDetailOpen true]
| close_detail : detailOpen c = true → local_edit c [SetDetailOpen false]
| toggle_comments : local_edit c [SetShowCommentBox (negb (showCommentBox c))]
| show_comments : detailOpen c = true → local_edit c [SetShowCommentBox true]
| cancel_comment : showCommentBox c = true → local_edit c [SetCommentText []; SetShowCommentBox false]
| write_comment s : (showCommentBox c || detailOpen c) = true → local_edit c [SetCommentText s]
| open_share : local_edit c [SetShareOpen true]
| close_share : shareOpen c = true → local_edit c [SetShareOpen false]
| bookmark : local_edit c [SetBookmarked (negb (bookmarked c))].

(** The dependencies of an effect differ from those of its last run. *)
Definition attach_due (c : PostCard) : bool :=
  negb (bool_decide (attachDeps (runs c) = Some (id (local c), localRef (about c)))).
Definition profile_due (c : PostCard) : bool :=
  negb (bool_decide (profileDeps (runs c) = Some (author (local c), avatarBlobId (local c)))).
Definition follow_due (user : option jstr) (c : PostCard) : bool :=
  negb (bool_decide (followDeps (runs c) = Some (user, author (local c)))).

Inductive card_event (i : nat) (user : option jstr) (c : PostCard) : handler → Prop :=
| edit_card es : local_edit c es → card_event i user c (Update (on i (sets es)) Finish)
| like : isLiking c = false → card_event i user c (handleLike i c)
| comment : (isCommenting c || Posting.blank (commentText c)) = false → card_event i user c (handleComment i c)
| toggle_follow : follower user (local c) ≠ None → followBusy c = false → card_event i user c (handleFollowToggle i user c)
| delete_post : own user (local c) = true → card_event i user c (onDelete i c)
| copy_id att : In att (Data.attachments (local c)) → card_event i user c (copyAttachment i (blob_id_hex att))
| copy_link u : shareOpen c = true → shareUrl origin c = Ok u → card_event i user c (copyLink i u)
| share u : shareOpen c = true → sharing c = false → shareUrl origin c = Ok u → card_event i user c (shareVia i c u)
| new_props p : card_event i user c (Update (on i (setPost p)) Finish)
| run_copy : postDirty (about c) = true → card_event i user c (Update (on i copyPost) Finish)
| run_attach : attach_due c = true → card_event i user c (attachEffect i c)
| run_profile : profile_due c = true → card_event i user c (profileEffect i c)
| run_follow : follow_due user c = true → card_event i user c (followEffect i user c)
| leave : card_event i user c (unmountCard i c).

(** A card appears, somebody logs in or out, or something happens to a card. *)
Inductive event : page → handler → Prop :=
| appear p s : event s (Update (addCard p) Finish)
| session user s : event s (Update (setMe user) Finish)
| at_card i c t s : cards s !! i = Some c → mounted c = true → card_event i (me s) c t → event s t.

Definition reachable (user : option jstr) : pool page call reply → Prop :=
  reachable_from event admissible (idle (empty_page user)).
End Events.
End Cards.
