(* ===== verification/NbookCardProps.v ===== *)
(** * The post cards: proofs

    Spinners and the calls they guard, the promise the cards share, following, and
    attachments. *)

From S2P Require Import Prelude JsValue Codec Json Platform SdkErrors Browser Models NbookClient NbookAuth Async NbookPages.
From S2P Require Import NbookFeed NbookCards.

Module CardProps.
Import Errors Async Ui Data Cards.

(** ** Flags of the cards *)

Definition flag (g : PostCard → bool) (i : nat) (s : page) : bool :=
  match cards s !! i with Some c => g c | None => false end.

Lemma flag_on g i j f s :
  flag g i (on j f s) = if decide (i = j) then flag (λ c, g (f c)) i s else flag g i s.
Proof.
  unfold flag, on. cbn [cards]. case_decide as Hij.
  - subst. rewrite list_lookup_alter_eq. by destruct (cards s !! j).
  - by rewrite list_lookup_alter_ne.
Qed.

Lemma flag_ext g h i s : (∀ c, g c = h c) → flag g i s = flag h i s.
Proof. intros Hgh. unfold flag. by destruct (cards s !! i). Qed.

Lemma on_lowers g i f : (∀ c, g (f c) = false) → lowers (flag g i) (on i f).
Proof. intros Hf s. rewrite flag_on, decide_True by done. unfold flag. by destruct (cards s !! i). Qed.

Lemma on_raises g i f s c : (∀ c, g (f c) = true) → cards s !! i = Some c → flag g i (on i f s) = true.
Proof. intros Hf Hc. rewrite flag_on, decide_True by done. unfold flag. by rewrite Hc. Qed.

Lemma on_keeps g i j f : (∀ c, g (f c) = g c) → keeps_flag (flag g i) (on j f).
Proof. intros Hf s. rewrite flag_on. case_decide; [|done]. by apply flag_ext. Qed.

Lemma on_other_keeps g i j f : i ≠ j → keeps_flag (flag g i) (on j f).
Proof. intros Hij s. by rewrite flag_on, decide_False. Qed.

Lemma keeps_never_raises {X} (busy : X → bool) f : keeps_flag busy f → never_raises busy f.
Proof. intros Hf s. by rewrite Hf. Qed.

Lemma addCard_keeps g i p : g (new_card p) = false → keeps_flag (flag g i) (addCard p).
Proof.
  intros Hg s. unfold flag, addCard. cbn [cards]. destruct (decide (i < length (cards s))%nat) as [Hi|Hi].
  - by rewrite lookup_app_l.
  - rewrite lookup_app_r by lia. rewrite (lookup_ge_None_2 (cards s)) by lia.
    by destruct (i - length (cards s))%nat as [|[]].
Qed.

Ltac card_keeps :=
  first [by intros ?|apply on_keeps; by intros ?|by apply on_other_keeps|by apply addCard_keeps].
Ltac card_flag := first [by apply on_lowers|card_keeps|apply keeps_never_raises; card_keeps|flag_update].

Definition spinners : list (PostCard → bool) := [isLiking; isCommenting; followBusy; sharing].

Lemma getFollowingSet_settles g i due j u k :
  (∀ r, settles (flag g i) due (k r)) → settles (flag g i) due (getFollowingSet j u k).
Proof.
  intros Hk s. destruct (cached s), (current s); [apply Hk..|intros r; apply Hk|].
  right; left. split; [by intros ?|]. intros [users|err]; (right; left; split; [by intros ?|apply Hk]).
Qed.

Section Settling.
Context `{ObjectURLs} (origin : jstr) (disableModal : bool) (g : PostCard → bool) (i : nat) (Hg : In g spinners).

Ltac each_spinner := destruct Hg as [<-|[<-|[<-|[<-|[]]]]].

Lemma load_loop_settles j n todo next errs : settles (flag g i) false (load_loop j n todo next errs).
Proof.
  revert next errs. induction todo as [|att todo IH]; intros next errs; cbn [load_loop settles].
  - intros s. each_spinner; settle_with card_flag.
  - intros [[bs ct]|e]; [|apply IH]. intros s. case_if; [done|]. right; left. split; [by intros ?|apply IH].
Qed.

Lemma local_edit_keeps c es : local_edit disableModal c es → ∀ c', g (sets es c') = g c'.
Proof. intros Hl c'. each_spinner; by destruct Hl. Qed.

Lemma toggle_settles j user c : settles (flag g i) false (handleFollowToggle j user c).
Proof.
  unfold handleFollowToggle. destruct (follower user (local c)) as [u|]; [|each_spinner; settle_with card_flag].
  destruct (isFollowingAuthor c) as [already|]; [|done].
  destruct (decide (i = j)) as [<-|Hne]; each_spinner;
    (first [right; left; split; [card_flag|]|right; right]); apply getFollowingSet_settles; intros r; unfold follow_failed;
    settle_with card_flag.
Qed.

Lemma followEffect_settles j user c : settles (flag g i) false (followEffect j user c).
Proof.
  unfold followEffect, loadFollowState. right; left. split; [by each_spinner; card_flag|].
  destruct (follower user (local c)); [|by each_spinner; settle_with card_flag].
  apply getFollowingSet_settles. intros r s. each_spinner; settle_with card_flag.
Qed.

Lemma card_event_settles j user c t :
  card_event origin disableModal j user c t → settles (flag g i) false t.
Proof.
  intros [es Hes|?|?|? ?|?|att ?|u ? ?|u ? ? ?|p|?|?|?|?|].
  - right; left. split; [apply keeps_never_raises, on_keeps; by eapply local_edit_keeps|done].
  - unfold handleLike. destruct (decide (i = j)) as [<-|Hne]; each_spinner; settle_with card_flag.
  - unfold handleComment. destruct (decide (i = j)) as [<-|Hne]; each_spinner; settle_with card_flag.
  - apply toggle_settles.
  - unfold onDelete. each_spinner; settle_with card_flag.
  - unfold copyAttachment. each_spinner; settle_with card_flag.
  - unfold copyLink. each_spinner; settle_with card_flag.
  - unfold shareVia. destruct (decide (i = j)) as [<-|Hne]; each_spinner; settle_with card_flag.
  - each_spinner; settle_with card_flag.
  - each_spinner; settle_with card_flag.
  - unfold attachEffect, load. do 2 (right; left; split; [by each_spinner; card_flag|]).
    destruct (Data.attachments (local c)); [done|apply load_loop_settles].
  - unfold profileEffect, loadAuthorProfile. each_spinner; settle_with card_flag.
  - apply followEffect_settles.
  - unfold unmountCard. each_spinner; settle_with card_flag.
Qed.

Lemma event_calm s t : event origin disableModal s t → calm (flag g i) s t.
Proof.
  intros [p s'|user s'|j c t' s' _ _ Ht]; left; [each_spinner; settle_with card_flag..|]. by eapply card_event_settles.
Qed.
End Settling.

(** Each flag locks its calls of card [i]. *)
Definition guarded (i : nat) : list ((PostCard → bool) * (call → bool)) := [
  (isLiking, λ c, match c with CallLike j _ => (j =? i)%nat | _ => false end);
  (isCommenting, λ c, match c with CallComment j _ _ => (j =? i)%nat | _ => false end);
  (followBusy, λ c, match c with CallFollow j _ | CallUnfollow j _ => (j =? i)%nat | _ => false end);
  (sharing, λ c, match c with CallShare j _ _ => (j =? i)%nat | _ => false end) ].

Abbreviation anything := (λ _ : call, true).

Lemma getFollowingSet_holds g mine i h j u k :
  (∀ i u n g, mine (CallListFollowing i u n g) = false) → (∀ i n, mine (CallFollowing i n) = false) →
  (∀ r, holding (flag g i) mine anything h (k r)) → holding (flag g i) mine anything h (getFollowingSet j u k).
Proof.
  intros Hm1 Hm2 Hk s. left. destruct (cached s), (current s); [apply Hk..| |].
  - split; [destruct h; [done|apply Hm2]|done].
  - right. split; [by intros ?|]. split; [destruct h; [done|apply Hm1]|].
    intros [users|err]; (right; split; [by intros ?|apply Hk]).
Qed.

Section Locking.
Context `{ObjectURLs} (origin : jstr) (disableModal : bool).

Ltac each_guard Hgm := destruct Hgm as [[= <- <-]|[[= <- <-]|[[= <- <-]|[[= <- <-]|[]]]]].
Ltac other_card := first [done|by apply Nat.eqb_neq|by apply Nat.eqb_neq, not_eq_sym].
Ltac card_hold :=
  cbn [holding];
  repeat (case_match || (progress intros); cbn [holding]);
  first
    [ done
    | left; split; [done|split; [card_flag|card_hold]]
    | right; split; [card_flag|card_hold]
    | left; card_hold
    | split; [other_card|intros ?; card_hold] ].

Lemma load_loop_holds g mine i j n todo next errs :
  In (g, mine) (guarded i) → holding (flag g i) mine anything false (load_loop j n todo next errs).
Proof.
  intros Hgm. revert next errs. induction todo as [|att todo IH]; intros next errs; cbn [load_loop holding].
  - intros s. left. each_guard Hgm; card_hold.
  - split; [by each_guard Hgm|]. intros [[bs ct]|e]; [|apply IH]. intros s. left. case_if; [done|]. right.
    split; [by intros ?|apply IH].
Qed.

Ltac take_lock Hc Hfree :=
  right; split; [unfold flag; rewrite Hc; exact Hfree|];
  do 2 eexists; split; [reflexivity|]; split; [by eapply on_raises|].
Ltac lock_or_hold Hc Hfree := first [left; solve [card_hold]|take_lock Hc Hfree; card_hold].
Ltac same_or_other i j := destruct (decide (i = j)) as [<-|Hne].

Lemma toggle_lock g mine i j user c s :
  In (g, mine) (guarded i) → cards s !! j = Some c → followBusy c = false →
  takes_lock (flag g i) mine anything s (handleFollowToggle j user c).
Proof.
  intros Hgm Hc Hfree. unfold handleFollowToggle.
  destruct (follower user (local c)) as [u|]; [|left; by each_guard Hgm; card_hold].
  destruct (isFollowingAuthor c) as [already|]; [|by left].
  same_or_other i j; each_guard Hgm;
    (first [left; right; split; [card_flag|]; apply getFollowingSet_holds; [done|done|];
            solve [intros r; unfold follow_failed; card_hold]
           |take_lock Hc Hfree; apply getFollowingSet_holds; [done|done|]; intros r; unfold follow_failed; card_hold]).
Qed.

Lemma followEffect_holds g mine i j user c :
  In (g, mine) (guarded i) → holding (flag g i) mine anything false (followEffect j user c).
Proof.
  intros Hgm. unfold followEffect, loadFollowState. right. split; [by each_guard Hgm; card_flag|].
  destruct (follower user (local c)); [|by each_guard Hgm; card_hold].
  apply getFollowingSet_holds; [by each_guard Hgm..|]. intros r s. left. each_guard Hgm; card_hold.
Qed.

Lemma card_event_lock g mine i j user c t s :
  In (g, mine) (guarded i) → cards s !! j = Some c → card_event origin disableModal j user c t →
  takes_lock (flag g i) mine anything s t.
Proof.
  intros Hgm Hc [es Hes|Hfree|Hfree|? Hfree|?|att ?|u ? ?|u ? Hfree ?|p|?|?|?|?|].
  - left. right. split; [|done]. apply on_keeps. intros c'. each_guard Hgm; by destruct Hes.
  - unfold handleLike. rewrite Hfree. same_or_other i j; each_guard Hgm; lock_or_hold Hc Hfree.
  - apply orb_false_elim in Hfree as [Hfree Hblank]. unfold handleComment. rewrite Hblank.
    same_or_other i j; each_guard Hgm; lock_or_hold Hc Hfree.
  - by apply toggle_lock.
  - left. unfold onDelete. each_guard Hgm; card_hold.
  - left. unfold copyAttachment. each_guard Hgm; card_hold.
  - left. unfold copyLink. each_guard Hgm; card_hold.
  - unfold shareVia. same_or_other i j; each_guard Hgm; lock_or_hold Hc Hfree.
  - left. each_guard Hgm; card_hold.
  - left. each_guard Hgm; card_hold.
  - left. unfold attachEffect, load. do 2 (right; split; [by each_guard Hgm; card_flag|]).
    destruct (Data.attachments (local c)); [done|by apply load_loop_holds].
  - left. unfold profileEffect, loadAuthorProfile. each_guard Hgm; card_hold.
  - left. by apply followEffect_holds.
  - left. unfold unmountCard. each_guard Hgm; card_hold.
Qed.

Lemma event_lock g mine i s t :
  In (g, mine) (guarded i) → event origin disableModal s t → takes_lock (flag g i) mine anything s t.
Proof.
  intros Hgm [p s'|user s'|j c t' s' Hc _ Ht]; [left; by each_guard Hgm; card_hold..|]. by eapply card_event_lock.
Qed.
End Locking.

(** ** The shared promise

    What a handler may do to the promise: nothing, or, when it finds neither the set
    nor a promise, to create one with its request, whose outcome settles it. *)

Definition neutral (f : page → page) : Prop :=
  ∀ s, (cached (f s) = None ↔ cached s = None) ∧ current (f s) = current s ∧ promises (f s) = promises s.

(** [f] settles promise [g] with the outcome [r] of its request. *)
Definition settling (g : nat) (c : call) : reply c → (page → page) → Prop :=
  match c with
  | CallListFollowing _ _ _ g' => λ r f,
      g' = g ∧ match r with Ok users => f = fulfilled g users | Throw e => f = rejected g e end
  | _ => λ _ _, False
  end.

Definition requests_list (c : call) : option nat := match c with CallListFollowing _ _ _ g => Some g | _ => None end.
Definition joins (c : call) : option nat := match c with CallFollowing _ g => Some g | _ => None end.

Fixpoint protocol (t : handler) : Prop :=
  match t with
  | Finish => True
  | Update f k => neutral f ∧ protocol k
  | Await c k => requests_list c = None ∧ joins c = None ∧ ∀ r, protocol (k r)
  | Look k =>
      ∀ s, protocol (k s) ∨
           match k s with
           | Await c m => requests_list c = None ∧ (∀ g, joins c = Some g → current s = Some g) ∧ ∀ r, protocol (m r)
           | Update f k1 =>
               match k1 with
               | Await c m =>
                   cached s = None ∧ current s = None ∧ f = promised ∧ requests_list c = Some (length (promises s)) ∧
                   ∀ r, match m r with Update f' k' => settling (length (promises s)) c r f' ∧ protocol k' | _ => False end
               | _ => False
               end
           | _ => False
           end
  end.

(** What a waiting task will do. *)
Definition in_protocol (t : handler) : Prop :=
  match t with
  | Await c k =>
      match requests_list c with
      | None => ∀ r, protocol (k r)
      | Some g => ∀ r, match k r with Update f k' => settling g c r f ∧ protocol k' | _ => False end
      end
  | _ => False
  end.

Definition of_call {A} (f : call → option A) (t : handler) : option A := match t with Await c _ => f c | _ => None end.

Definition settled_but (pending : nat → Prop) (s : page) : Prop :=
  ∀ g o, promises s !! g = Some o → ¬ pending g → o ≠ None.

(** [gs] are the promises whose request is under way. *)
Definition promise_inv (s : page) (gs : list nat) : Prop :=
  (∀ g, current s = Some g → (g < length (promises s))%nat) ∧
  ((gs = [] ∧ settled_but (λ _, False) s ∧ (cached s = None → current s = None)) ∨
   ∃ g, gs = [g] ∧ cached s = None ∧ current s = Some g ∧ promises s !! g = Some None ∧ settled_but (.= g) s).

Lemma promise_neutral f s gs : neutral f → promise_inv s gs → promise_inv (f s) gs.
Proof.
  intros Hf. destruct (Hf s) as (Hc & Hcur & Hp). unfold promise_inv, settled_but. rewrite Hcur, Hp.
  intros [H1 [(-> & H2 & H3)|(g & -> & H2 & H3)]]; (split; [done|]); [left|right; exists g]; naive_solver.
Qed.

Lemma promise_taken s gs :
  cached s = None → current s = None → promise_inv s gs → gs = [] ∧ promise_inv (promised s) [length (promises s)].
Proof.
  intros Hc Hcur [_ [(-> & Hs & _)|(g & _ & _ & Hg & _)]]; [|congruence]. split; [done|].
  unfold promise_inv, settled_but, promised. cbn [cached current promises]. split.
  - intros g [= <-]. rewrite length_app. simpl. lia.
  - right. exists (length (promises s)). do 3 (split; [done|]). rewrite lookup_app_r, Nat.sub_diag by lia. split; [done|].
    intros g o Hg Hne. apply lookup_app_Some in Hg as [Hg|[Hlen Hg]]; [by apply (Hs _ _ Hg); intros []|].
    destruct (g - length (promises s))%nat as [|n] eqn:Hn; [|done]. exfalso. apply Hne. lia.
Qed.

Lemma promise_settled s g c r f : requests_list c = Some g → settling g c r f → promise_inv s [g] → promise_inv (f s) [].
Proof.
  intros Hreq Hf [Hlt [(? & _)|(g' & [= <-] & Hc & Hcur & Hg & Hs)]]; [done|].
  assert (∀ x, settled_but (λ _, False) (fulfilled g x s)) as H1.
  { intros x g' o. unfold fulfilled. cbn [promises]. intros Hl _ ->. apply list_lookup_insert_Some in Hl as [(? & ? & ?)|[Hne Hl]]; [done|].
    by apply (Hs _ _ Hl); [intros ->|]. }
  destruct c; try done. destruct Hf as [_ Hf]. destruct r as [users|e]; subst f; unfold promise_inv.
  - split; [intros g' Hg'; unfold fulfilled; cbn [promises]; rewrite length_insert; by apply Hlt|].
    left. split; [done|]. split; [apply H1|done].
  - split; [done|]. left. split; [done|]. split; [|done].
    intros g' o. unfold rejected. cbn [promises]. intros Hl _ ->. apply list_lookup_insert_Some in Hl as [(? & ? & ?)|[Hne Hl]]; [done|].
    by apply (Hs _ _ Hl); [intros ->|].
Qed.

Lemma promise_perm s gs gs' : gs ≡ₚ gs' → promise_inv s gs → promise_inv s gs'.
Proof.
  intros Hp [H1 [(-> & H2)|(g & -> & H2)]].
  - apply Permutation_nil_l in Hp. subst gs'. split; [done|by left].
  - apply Permutation_singleton_l in Hp. subst gs'. split; [done|]. right. by exists g.
Qed.

Definition pending_of (ts : list handler) : list nat := omap (of_call requests_list) ts.
Definition joined (s : page) (ts : list handler) : Prop :=
  Forall (λ t, ∀ g, of_call joins t = Some g → (g < length (promises s))%nat) ts.

Lemma advance_protocol t s gs :
  protocol t → promise_inv s gs →
  let '(s', ts) := advance t s in
  Forall in_protocol ts ∧ (length (promises s) ≤ length (promises s'))%nat ∧ promise_inv s' (gs ++ pending_of ts) ∧
  joined s' ts.
Proof.
  revert s. induction t as [|f k IH|k IH|c k IH]; intros s Ht Hs.
  - simpl. rewrite app_nil_r. split; [by apply Forall_nil|]. split; [done|]. split; [done|by apply Forall_nil].
  - destruct Ht as [Hf Hk]. cbn [advance]. specialize (IH (f s) Hk (promise_neutral _ _ _ Hf Hs)).
    destruct (advance k (f s)) as [s' ts]. by rewrite <- (proj2 (proj2 (Hf s))).
  - cbn [advance]. destruct (Ht s) as [Hk|Hk]; [by apply IH|].
    destruct (k s) as [|f k1| |c m]; [done| |done|].
    + destruct k1 as [| | |c m]; [done..|]. destruct Hk as (Hc & Hcur & -> & Hreq & Hm).
      destruct (promise_taken s gs Hc Hcur Hs) as [-> Hs']. cbn [advance].
      split; [apply Forall_singleton; simpl; by rewrite Hreq|]. split; [cbn [promised promises]; rewrite length_app; lia|].
      split; [unfold pending_of; simpl; by rewrite Hreq|]. apply Forall_singleton. intros g Hj. simpl in Hj. by destruct c.
    + destruct Hk as (Hreq & Hj & Hm). cbn [advance]. split; [apply Forall_singleton; simpl; by rewrite Hreq|].
      split; [done|]. split; [unfold pending_of; simpl; by rewrite Hreq, app_nil_r|].
      apply Forall_singleton. intros g Hg. by apply Hs, Hj.
  - destruct Ht as (Hreq & Hj & Hk). cbn [advance]. split; [apply Forall_singleton; simpl; by rewrite Hreq|].
    split; [done|]. split; [unfold pending_of; simpl; by rewrite Hreq, app_nil_r|].
    apply Forall_singleton. intros g Hg. simpl in Hg. congruence.
Qed.

Definition pool_inv (p : pool page call reply) : Prop :=
  Forall in_protocol (waiting p) ∧ promise_inv (now p) (pending_of (waiting p)) ∧ joined (now p) (waiting p).

Lemma joined_mono s s' ts : (length (promises s) ≤ length (promises s'))%nat → joined s ts → joined s' ts.
Proof. intros Hl Hj. eapply Forall_impl; [exact Hj|]. intros t Ht g Hg. specialize (Ht g Hg). lia. Qed.

Lemma pool_start t p : protocol t → pool_inv p → pool_inv (start t p).
Proof.
  intros Ht (H1 & H2 & H3). unfold start. pose proof (advance_protocol t (now p) _ Ht H2) as Ha.
  destruct (advance t (now p)) as [s' ts]. destruct Ha as (H4 & H5 & H6 & H7).
  split; [by apply Forall_app|]. split.
  - unfold pending_of in *. cbn [waiting]. by rewrite omap_app.
  - apply Forall_app. split; [by eapply joined_mono|done].
Qed.

Lemma pool_proceed n c f r p :
  waiting p !! n = Some (Await c f) → pool_inv p → pool_inv (proceed n (f r) p).
Proof.
  intros Hn (H1 & H2 & H3). unfold proceed.
  set (l1 := take n (waiting p)). set (l2 := drop (S n) (waiting p)).
  rewrite <- (take_drop_middle _ _ _ Hn) in H1, H2, H3. fold l1 l2 in H1, H2, H3.
  apply Forall_app in H1 as [Hl1 H1]. apply Forall_cons in H1 as [Hc Hl2].
  unfold joined in H3. rewrite Forall_app, Forall_cons in H3. destruct H3 as (Hj1 & _ & Hj2).
  assert (omap (of_call requests_list) (Await c f :: l2)
          = match requests_list c with Some g => [g] | None => [] end ++ omap (of_call requests_list) l2) as Hom
    by (simpl; by destruct (requests_list c)).
  unfold pending_of in H2. rewrite omap_app, Hom in H2.
  assert (∃ t s, advance (f r) (now p) = advance t s ∧ protocol t ∧ length (promises s) = length (promises (now p)) ∧
                 promise_inv s (pending_of (l1 ++ l2))) as (t & s & -> & Ht & Hlen & Hs).
  { unfold pending_of. rewrite omap_app. simpl in Hc. destruct (requests_list c) as [g|] eqn:Hreq.
    - specialize (Hc r). destruct (f r) as [|fn k'| |] eqn:Hf; [done| |done|done]. destruct Hc as [Hset Hk'].
      exists k', (fn (now p)). split; [done|]. split; [done|].
      assert (omap (of_call requests_list) l1 = [] ∧ omap (of_call requests_list) l2 = []) as [Hl1' Hl2'].
      { destruct H2 as [_ [(H2 & _)|(g' & H2 & _)]]; [by destruct (omap _ l1)|].
        destruct (omap _ l1) as [|? [|]]; simplify_eq/=; done. }
      rewrite Hl1', Hl2' in *.
      split; [|by eapply promise_settled]. destruct c; try done. destruct Hset as [_ Hset].
      destruct r; subst fn; unfold fulfilled, rejected; cbn [promises]; by rewrite length_insert.
    - by exists (f r), (now p). }
  pose proof (advance_protocol t s _ Ht Hs) as Ha. destruct (advance t s) as [s' ts]. destruct Ha as (H4 & H5 & H6 & H7).
  rewrite Hlen in H5. split; [cbn [waiting]; by rewrite !Forall_app|]. split; cbn [now waiting].
  - eapply promise_perm; [|exact H6]. unfold pending_of. rewrite !omap_app. solve_Permutation.
  - unfold joined. rewrite !Forall_app. split; [by eapply joined_mono|]. split; [done|by eapply joined_mono].
Qed.

Ltac neutral_update :=
  intros ?; split; [first [reflexivity|cbn [cached mutate setCached]; by rewrite fmap_None]|split; reflexivity].
Ltac obey :=
  cbn [protocol];
  first
    [ done
    | split; [neutral_update|obey]
    | split; [done|split; [done|intros ?; obey]]
    | intros ?; left; obey
    | case_match; obey ].

Lemma getFollowingSet_protocol i u k : (∀ r, protocol (k r)) → protocol (getFollowingSet i u k).
Proof.
  intros Hk s. destruct (cached s) eqn:Hc; [left; by destruct (current s)|].
  destruct (current s) as [g|] eqn:Hcur; right.
  - split; [done|]. split; [|done]. intros g' [= <-]. done.
  - do 4 (split; [done|]). intros [users|err]; (split; [done|apply Hk]).
Qed.

Section Promise.
Context `{ObjectURLs} (origin : jstr) (disableModal : bool).

Lemma load_loop_protocol i n todo next errs : protocol (load_loop i n todo next errs).
Proof.
  revert next errs. induction todo as [|att todo IH]; intros next errs; cbn [load_loop]; [obey|].
  split; [done|]. split; [done|]. intros [[bs ct]|e]; [|apply IH]. intros s. left. case_if; [done|].
  split; [neutral_update|apply IH].
Qed.

Lemma event_protocol s t : event origin disableModal s t → protocol t.
Proof.
  intros [p s'|user s'|j c t' s' _ _ [es Hes|?|?|? ?|?|att ?|u ? ?|u ? ? ?|p|?|?|?|?|]]; [obey|obey|obey|..].
  - unfold handleLike. obey.
  - unfold handleComment. obey.
  - unfold handleFollowToggle. do 2 (case_match; [|obey]). split; [neutral_update|]. apply getFollowingSet_protocol.
    intros r. unfold follow_failed. obey.
  - unfold onDelete. obey.
  - unfold copyAttachment. obey.
  - unfold copyLink. obey.
  - unfold shareVia. obey.
  - obey.
  - obey.
  - unfold attachEffect, load. do 2 (split; [neutral_update|]). case_match; [done|apply load_loop_protocol].
  - unfold profileEffect, loadAuthorProfile. obey.
  - unfold followEffect, loadFollowState. split; [neutral_update|]. case_match; [|obey].
    apply getFollowingSet_protocol. intros r. obey.
  - unfold unmountCard. obey.
Qed.

Lemma pool_reachable user p : reachable origin disableModal user p → pool_inv p.
Proof.
  apply reachable_ind'.
  - intros t q Ht. apply pool_start. by eapply event_protocol.
  - intros n c f r q Hn _. by apply pool_proceed.
  - split; [by apply Forall_nil|]. split; [|by apply Forall_nil]. split; [done|]. left. by split.
Qed.
End Promise.

(** ** Properties *)

Section Properties.
Context `{ObjectURLs} (origin : jstr) (disableModal : bool).

Lemma in_flight_omap {A} (f : call → option A) (ts : list handler) s :
  omap f (in_flight {| now := s; waiting := ts |}) = omap (of_call f) ts.
Proof.
  unfold in_flight. cbn [waiting]. induction ts as [|[| | |c k] ts IH]; [done|exact IH..|].
  cbn [omap list_omap of_call]. destruct (f c); [f_equal|]; exact IH.
Qed.

Definition requests (p : pool page call reply) : list nat := omap requests_list (in_flight p).

Lemma requests_pending p : requests p = pending_of (waiting p).
Proof. destruct p as [s ts]. apply in_flight_omap. Qed.

Lemma spinners_lowered user p :
  reachable origin disableModal user p →
  inevitably (λ q, waiting q = [] ∧ ∀ i g, In g spinners → flag g i (now q) = false) p.
Proof.
  intros Hp. eapply (inevitably_mono _ _ (λ _, True)); [done| |done|].
  2: { apply (flags_lowered (λ h, ∃ i g, In g spinners ∧ h = flag g i) _ _ _ _ Hp).
       - intros h s t (i & g & Hg & ->). by apply event_calm.
       - by intros h (i & g & Hg & ->). }
  intros q _ [Hw Hq]. split; [exact Hw|]. intros i g Hg. apply Hq. eauto.
Qed.

(** A task that awaits a promise will get an answer: the promise is settled, or its
    request is under way. *)
Lemma promise_answered user p i g k :
  reachable origin disableModal user p → Await (CallFollowing i g) k ∈ waiting p →
  (∃ o, promises (now p) !! g = Some (Some o)) ∨ requests p = [g].
Proof.
  intros Hp Hin. destruct (pool_reachable _ _ _ _ Hp) as (_ & [_ Hs] & Hj).
  unfold joined in Hj. rewrite Forall_forall in Hj. specialize (Hj _ Hin g eq_refl).
  apply lookup_lt_is_Some in Hj as [o Ho]. rewrite requests_pending.
  destruct Hs as [(_ & Hall & _)|(g' & Hgs & _ & _ & _ & Hall)].
  - left. destruct o as [o|]; [eauto|]. exfalso. by apply (Hall _ _ Ho); [intros []|].
  - destruct (decide (g = g')) as [->|Hne]; [by right|]. left. destruct o as [o|]; [eauto|].
    exfalso. by apply (Hall _ _ Ho).
Qed.

(** C26 No card hangs.  From every state a page of cards can reach, once the calls
    under way are answered, in any order and with any outcome, nothing is under way
    and no card is liking, commenting, following or sharing.  And the answers can
    come: a card that waits for the shared list of followed people waits for a
    promise that is settled or whose request is under way. *)
Theorem cards_settle (user : option jstr) (p : pool page call reply) :
  reachable origin disableModal user p →
  inevitably (λ q, waiting q = [] ∧ ∀ i g, In g spinners → flag g i (now q) = false) p ∧
  (in_flight p ≠ [] → ∃ n c f r, waiting p !! n = Some (Await c f) ∧ admissible (now p) c r).
Proof.
  intros Hp. split; [by eapply spinners_lowered|]. intros Hf.
  assert (only_awaits p) as Ha by by (eapply reachable_awaits; [|exact Hp]; apply Forall_nil).
  destruct (waiting p) as [|t ts] eqn:Hw; [by unfold in_flight in Hf; rewrite Hw in Hf|].
  unfold only_awaits in Ha. rewrite Hw in Ha. apply Forall_cons in Ha as [(c & f & ->) _].
  destruct (joins c) as [g|] eqn:Hj.
  - destruct c; simplify_eq/=. destruct (promise_answered user p i g f Hp) as [[o Ho]|Hreq]; [rewrite Hw; by left|..].
    + by exists 0%nat, (CallFollowing i g), f, o.
    + rewrite requests_pending in Hreq.
      assert (g ∈ pending_of (waiting p)) as Hin by (rewrite Hreq; by left). unfold pending_of in Hin.
      apply list_elem_of_omap in Hin as (t & Ht & Hg). apply list_elem_of_lookup in Ht as [n Hn].
      destruct t as [| | |c k]; [done..|]. destruct c; try done. rewrite Hw in Hn.
      by exists n, (CallListFollowing i0 username limit promise), k, (Ok []).
  - exists 0%nat, c, f. destruct c; try done; by exists (Throw (Thrown VUndef)).
Qed.

(** Every button is guarded: in every reachable state a card has at most one like,
    one comment, one follow or unfollow, and one share under way, and none while
    the button shows no spinner. *)
Theorem cards_single_flight (user : option jstr) (p : pool page call reply) (i : nat) (g : PostCard → bool)
    (mine : call → bool) :
  reachable origin disableModal user p → In (g, mine) (guarded i) →
  (length (filter mine (in_flight p)) ≤ Nat.b2n (flag g i (now p)))%nat.
Proof. intros Hp Hgm. eapply single_from_idle; [|exact Hp|done]. intros s t. by apply event_lock. Qed.

(** However many cards there are, the list of followed people is requested by at
    most one of them at a time, by none once it is known; and each promise but the
    one whose request is under way has been settled. *)
Theorem following_requested_once (user : option jstr) (p : pool page call reply) :
  reachable origin disableModal user p →
  (length (requests p) ≤ 1)%nat ∧ (cached (now p) ≠ None → requests p = []) ∧
  ∀ g, promises (now p) !! g = Some None → requests p = [g].
Proof.
  intros Hp. destruct (pool_reachable _ _ _ _ Hp) as (_ & [_ Hs] & _). rewrite requests_pending.
  destruct Hs as [(-> & Hall & _)|(g & -> & Hc & _ & _ & Hall)].
  - split; [simpl; lia|]. split; [done|]. intros g Hg. exfalso. by apply (Hall _ _ Hg); [intros []|].
  - split; [done|]. split; [done|]. intros g' Hg'. destruct (decide (g' = g)) as [->|Hne]; [done|].
    exfalso. by apply (Hall _ _ Hg').
Qed.

Lemma card_on i f s : cards (on i f s) !! i = f <$> cards s !! i.
Proof. apply list_lookup_alter_eq. Qed.

Ltac card_at Hc :=
  repeat first [rewrite card_on | progress cbn [toast mutate setCached setMe createdURL cards]]; by rewrite Hc.

(** Following and unfollowing from a card, when the set of followed people is known:
    one call is made, for the author; when it succeeds the author is in the shared
    set exactly if the card now says so, everybody else is as before, and the button
    has flipped; when it fails the set and the button are unchanged and the user is
    told.  The button's spinner is off in the end. *)
Theorem follow_toggle (ans : ∀ c, reply c) (i : nat) (s : page) (c : PostCard) (u : jstr) (b : bool) (F : gset jstr) :
  cards s !! i = Some c → follower (me s) (local c) = Some u → isFollowingAuthor c = Some b → cached s = Some F →
  let a := author (local c) in
  let t := handleFollowToggle i (me s) c in
  let s' := run ans t s in
  let the_call := if b then CallUnfollow i a else CallFollow i a in
  calls ans t s = [the_call] ∧
  ∃ c' F', cards s' !! i = Some c' ∧ cached s' = Some F' ∧ followBusy c' = false ∧
    match (if b then ans (CallUnfollow i a) else ans (CallFollow i a)) : outcome exn () with
    | Ok _ => isFollowingAuthor c' = Some (negb b) ∧ (a ∈ F' ↔ b = false) ∧ (∀ x, x ≠ a → x ∈ F' ↔ x ∈ F)
    | Throw e => isFollowingAuthor c' = Some b ∧ F' = F ∧ notes s' = notes s ++ [failure (js "Follow action failed") e]
    end.
Proof.
  intros Hc Hu Hb HF. cbv zeta. unfold handleFollowToggle. rewrite Hu, Hb. unfold getFollowingSet, follow_failed.
  cbn [run calls]. change (cached (on i (set (SetFollowBusy true)) s)) with (cached s). rewrite HF.
  destruct b; cbn [run calls].
  - destruct (ans (CallUnfollow i (author (local c)))) as [x|e] eqn:Ho; cbn [run calls]; (split; [done|]).
    + do 2 eexists. split; [card_at Hc|].
      split; [cbn [toast mutate setCached cached on]; by rewrite HF|]. split; [done|]. split; [done|]. set_solver.
    + do 2 eexists. split; [card_at Hc|]. by split; [exact HF|].
  - destruct (ans (CallFollow i (author (local c)))) as [x|e] eqn:Ho; cbn [run calls]; (split; [done|]).
    + do 2 eexists. split; [card_at Hc|].
      split; [cbn [toast mutate setCached cached on]; by rewrite HF|]. split; [done|]. split; [done|]. set_solver.
    + do 2 eexists. split; [card_at Hc|]. by split; [exact HF|].
Qed.

(** The set of followed people is kept for the page, not for the user: once it is
    known, a card that appears after somebody else has logged in shows whether the
    first user follows the author, and asks nobody. *)
Theorem following_outlives_session (ans : ∀ c, reply c) (i : nat) (s : page) (c : PostCard) (other : option jstr) (u : jstr)
    (F : gset jstr) :
  cached s = Some F → cards s !! i = Some c → follower other (local c) = Some u →
  let s1 := run ans (Update (setMe other) Finish) s in
  let t := followEffect i other c in
  calls ans t s1 = [] ∧
  ∃ c', cards (run ans t s1) !! i = Some c' ∧ isFollowingAuthor c' = Some (bool_decide (author (local c) ∈ F)).
Proof.
  intros HF Hc Hu. cbv zeta. unfold followEffect, loadFollowState, getFollowingSet. rewrite Hu.
  assert (cards (on i (startFollow other) (setMe other s)) !! i = Some (startFollow other c)) as Hc1
    by (rewrite card_on; cbn [setMe cards]; by rewrite Hc).
  cbn [run calls]. change (cached (on i (startFollow other) (setMe other s))) with (cached s). rewrite HF.
  cbn [run calls]. unfold cancelled, card. rewrite Hc1. cbn [startFollow set runs followRun]. rewrite Nat.eqb_refl.
  cbn [negb run calls]. split; [done|]. eexists. split; [by rewrite card_on, Hc1|].
  cbn [set isFollowingAuthor]. unfold following. change (cached (on i (startFollow other) (setMe other s))) with (cached s).
  by rewrite HF.
Qed.

(** *** Attachments *)

(** What the loop collects, given what [fetchBlob] answers, and the number of object
    URLs then. *)
Fixpoint collected (fetch : jstr → outcome exn (bytes * jstr)) (todo : list Attachment) (next errs : list (jstr * jstr))
    (m : nat) : list (jstr * jstr) * list (jstr * jstr) * nat :=
  match todo with
  | [] => (next, errs, m)
  | att :: rest =>
      let b := blob_id_hex att in
      match fetch b with
      | Ok (_, ct) => collected fetch rest (obj_set b (stored_blob (objectURL m) ct) next) errs (S m)
      | Throw e => collected fetch rest next (obj_set b (reason e (js "failed to load")) errs) m
      end
  end.

Definition set_urls (m : nat) (s : page) : page :=
  {| cards := cards s; cached := cached s; current := current s; promises := promises s; me := me s; urls := m;
     revoked := revoked s; notes := notes s; updates := updates s |}.

Lemma load_loop_run (ans : ∀ c, reply c) i n c todo next errs s :
  cards s !! i = Some c → attachRun (runs c) = n →
  let '(next', errs', m) := collected (λ b, ans (CallFetchBlob i b)) todo next errs (urls s) in
  run ans (load_loop i n todo next errs) s =
    on i (set (SetAttachmentErrors errs')) (on i (set (SetAttachments next')) (set_urls m s)) ∧
  calls ans (load_loop i n todo next errs) s = map (λ att, CallFetchBlob i (blob_id_hex att)) todo.
Proof.
  intros Hc <-. revert next errs s Hc. induction todo as [|att todo IH]; intros next errs s Hc; cbn [collected load_loop].
  - cbn [run calls map]. unfold cancelled, card. rewrite Hc, Nat.eqb_refl. by destruct s.
  - cbn [run calls map]. destruct (ans (CallFetchBlob i (blob_id_hex att))) as [[bs ct]|e] eqn:Hans.
    + cbn [run calls]. unfold cancelled, card. rewrite Hc, Nat.eqb_refl. cbn [negb run calls].
      specialize (IH (obj_set (blob_id_hex att) (stored_blob (objectURL (urls s)) ct) next) errs (createdURL s) Hc).
      cbn [createdURL urls] in IH. destruct (collected _ todo _ _ _) as [[next' errs'] m]. destruct IH as [-> ->]. done.
    + specialize (IH next (obj_set (blob_id_hex att) (reason e (js "failed to load")) errs) s Hc).
      destruct (collected _ todo _ _ _) as [[next' errs'] m]. by destruct IH as [-> ->].
Qed.

Definition ids (todo : list Attachment) : list jstr := map blob_id_hex todo.

Lemma collected_spec fetch todo next errs m b :
  let '(next', errs', m') := collected fetch todo next errs m in
  (m ≤ m')%nat ∧
  (b ∉ ids todo → obj_get b next' = obj_get b next ∧ obj_get b errs' = obj_get b errs) ∧
  match fetch b with
  | Ok (_, ct) =>
      obj_get b errs' = obj_get b errs ∧
      (b ∈ ids todo → ∃ k, (m ≤ k < m')%nat ∧ obj_get b next' = Some (stored_blob (objectURL k) ct))
  | Throw e =>
      obj_get b next' = obj_get b next ∧ (b ∈ ids todo → obj_get b errs' = Some (reason e (js "failed to load")))
  end.
Proof.
  revert next errs m. induction todo as [|att todo IH]; intros next errs m; cbn [collected].
  - split; [lia|]. split; [done|]. destruct (fetch b) as [[bs ct]|e]; (split; [done|]); intros Hb; by apply elem_of_nil in Hb.
  - cbn [ids map]. set (b0 := blob_id_hex att). destruct (decide (b = b0)) as [->|Hne].
    + destruct (fetch b0) as [[bs ct]|e] eqn:Hf.
      * specialize (IH (obj_set b0 (stored_blob (objectURL m) ct) next) errs (S m)).
        destruct (collected _ todo _ _ _) as [[next' errs'] m']. destruct IH as (H1 & H2 & H3 & H4).
        split; [lia|]. split; [intros Hb; by destruct Hb; left|]. split; [done|]. intros _.
        destruct (decide (b0 ∈ ids todo)) as [Hin|Hout]; [destruct (H4 Hin) as (k & Hk & Hn); exists k; split; [lia|done]|].
        exists m. split; [lia|]. destruct (H2 Hout) as [-> _]. apply obj_get_set.
      * specialize (IH next (obj_set b0 (reason e (js "failed to load")) errs) m).
        destruct (collected _ todo _ _ _) as [[next' errs'] m']. destruct IH as (H1 & H2 & H3 & H4).
        split; [done|]. split; [intros Hb; by destruct Hb; left|]. split; [done|]. intros _.
        destruct (decide (b0 ∈ ids todo)) as [Hin|Hout]; [by apply H4|]. destruct (H2 Hout) as [_ ->]. apply obj_get_set.
    + assert (b ∈ b0 :: ids todo ↔ b ∈ ids todo) as Hmem by set_solver.
      destruct (fetch b0) as [[bs ct]|e];
        [specialize (IH (obj_set b0 (stored_blob (objectURL m) ct) next) errs (S m))
        |specialize (IH next (obj_set b0 (reason e (js "failed to load")) errs) m)];
        destruct (collected _ todo _ _ _) as [[next' errs'] m']; rewrite ?obj_get_set_ne in IH by done;
        destruct IH as (H1 & H2 & H3); (split; [lia|]); (split; [by rewrite Hmem|]);
        destruct (fetch b) as [[bs' ct']|e']; rewrite Hmem; destruct H3 as [H3 H4]; (split; [done|]); [|done| |done];
        intros Hin; destruct (H4 Hin) as (k & Hk & Hn); exists k; (split; [lia|done]).
Qed.

Definition plain (s : jstr) : Prop := Forall (λ c, c ≠ 124) s.

Lemma split_plain a r : plain a → split_on 124 (a ++ 124 :: r) = a :: split_on 124 r.
Proof.
  intros Ha. induction Ha as [|c a Hc _ IH]; [done|]. cbn [split_on app]. rewrite IH.
  by rewrite (proj2 (Z.eqb_neq c 124) Hc).
Qed.

Lemma split_whole a : plain a → split_on 124 a = [a].
Proof.
  intros Ha. induction Ha as [|c a Hc _ IH]; [done|]. cbn [split_on]. rewrite IH. by rewrite (proj2 (Z.eqb_neq c 124) Hc).
Qed.

Definition shown_type (ct : jstr) : jstr := str_or ct (js "application/octet-stream").

Lemma shown_type_plain ct : plain ct → plain (shown_type ct).
Proof. intros Hct. destruct ct; [|done]. unfold plain. apply Forall_forall. intros x Hx ->. by vm_compute in Hx; set_solver. Qed.

Lemma body_loaded c b n ct :
  given (obj_get b (attachmentErrors c)) = None → obj_get b (attachments c) = Some (stored_blob (objectURL n) ct) → plain ct →
  attachment_body c b = preview (objectURL n) (shown_type ct).
Proof.
  intros He Ha Hct. unfold attachment_body, stored_url, stored_type. rewrite He, Ha.
  unfold stored_blob. cbn [app]. pose proof (objectURL_filled n) as Hfill. pose proof (objectURL_plain n) as Hplain.
  destruct (objectURL n) as [|x url] eqn:Hu; [done|]. cbn [given app].
  change (x :: url ++ 124 :: str_or ct (js "application/octet-stream")) with ((x :: url) ++ 124 :: shown_type ct).
  rewrite split_plain, split_whole by (done || by apply shown_type_plain). done.
Qed.

Lemma attach_run (ans : ∀ c, reply c) i s c :
  cards s !! i = Some c → Data.attachments (local c) ≠ [] →
  let '(next, errs, m) := collected (λ b, ans (CallFetchBlob i b)) (Data.attachments (local c)) [] [] (urls s) in
  let t := attachEffect i c in
  calls ans t s = map (λ att, CallFetchBlob i (blob_id_hex att)) (Data.attachments (local c)) ∧
  cards (run ans t s) !! i = Some (set (SetAttachmentErrors errs) (set (SetAttachments next) (startAttach c))) ∧
  urls (run ans t s) = m ∧ revoked (run ans t s) = revoked s ++ seen_urls c.
Proof.
  intros Hc Hne. unfold attachEffect, load. cbn [run calls].
  set (s1 := on i startAttach (revoke (seen_urls c) s)).
  assert (cards s1 !! i = Some (startAttach c)) as Hc1 by (unfold s1; rewrite card_on; cbn [revoke cards]; by rewrite Hc).
  destruct (Data.attachments (local c)) as [|att atts] eqn:Hatts; [done|].
  pose proof (load_loop_run ans i (S (attachRun (runs c))) (startAttach c) (att :: atts) [] [] s1 Hc1 eq_refl) as Hrun.
  change (urls s1) with (urls s) in Hrun. destruct (collected _ (att :: atts) [] [] (urls s)) as [[next errs] m].
  destruct Hrun as [-> ->]. split; [done|]. split; [|done]. rewrite !card_on. cbn [set_urls cards]. by rewrite Hc1.
Qed.

(** Attachments are all dealt with.  A card fetches its attachments one after the
    other, each whatever happened to those before; when that is done every one that
    could be fetched is shown from an object URL made for it, by its content type,
    and every one that could not shows the error (an error without a message
    leaves it as if it were still loading). *)
Theorem attachments_loaded (ans : ∀ c, reply c) (i : nat) (s : page) (c : PostCard) (att : Attachment) :
  cards s !! i = Some c → att ∈ Data.attachments (local c) →
  let b := blob_id_hex att in
  let t := attachEffect i c in
  let s' := run ans t s in
  calls ans t s = map (λ att, CallFetchBlob i (blob_id_hex att)) (Data.attachments (local c)) ∧
  ∃ c', cards s' !! i = Some c' ∧
    match ans (CallFetchBlob i b) : outcome exn (bytes * jstr) with
    | Ok (_, ct) =>
        plain ct → ∃ k, (urls s ≤ k < urls s')%nat ∧ attachment_body c' b = preview (objectURL k) (shown_type ct)
    | Throw e =>
        attachment_body c' b = match reason e (js "failed to load") with
                               | [] => Paragraph "Loading attachment"
                               | msg => Text (js "Failed to load: " ++ msg)
                               end
    end.
Proof.
  intros Hc Hatt. cbv zeta. pose proof (attach_run ans i s c Hc) as Hrun.
  pose proof (collected_spec (λ b, ans (CallFetchBlob i b)) (Data.attachments (local c)) [] [] (urls s) (blob_id_hex att)) as Hspec.
  destruct (collected _ _ [] [] (urls s)) as [[next errs] m]. destruct Hrun as (Hcalls & Hcard & Hm & _).
  { intros Hnil. rewrite Hnil in Hatt. by apply elem_of_nil in Hatt. }
  assert (blob_id_hex att ∈ ids (Data.attachments (local c))) as Hin by by apply list_elem_of_fmap_2.
  split; [exact Hcalls|]. eexists. split; [exact Hcard|]. destruct Hspec as (_ & _ & Hspec).
  destruct (ans (CallFetchBlob i (blob_id_hex att))) as [[bs ct]|e].
  - intros Hct. destruct Hspec as [He Hn]. destruct (Hn Hin) as (k & Hk & Hnext). exists k. rewrite Hm. split; [done|].
    apply body_loaded; [|done|done]. cbn [set attachmentErrors]. by rewrite He.
  - destruct Hspec as [Hn He]. unfold attachment_body. cbn [set attachmentErrors attachments startAttach].
    rewrite (He Hin), Hn. by destruct (reason e (js "failed to load")).
Qed.

(** Object URLs are not given back: when a card has loaded its attachments and is
    taken off the page, the clean-up revokes none of the URLs it shows, because it
    refers to the attachments of the render the loading began in. *)
Theorem attachment_urls_leak (ans : ∀ c, reply c) (i : nat) (s : page) (c : PostCard) :
  cards s !! i = Some c → Data.attachments (local c) ≠ [] → attachments c = [] → attachSeen (runs c) = [] →
  let s1 := run ans (attachEffect i c) s in
  ∃ c1, cards s1 !! i = Some c1 ∧
        (∀ att, att ∈ Data.attachments (local c) → ∀ bs ct, (ans (CallFetchBlob i (blob_id_hex att)) : outcome exn _) = Ok (bs, ct) →
           ∃ k, (urls s ≤ k < urls s1)%nat ∧ obj_get (blob_id_hex att) (attachments c1) = Some (stored_blob (objectURL k) ct)) ∧
        revoked (run ans (unmountCard i c1) s1) = revoked s.
Proof.
  intros Hc Hne Hatt Hseen. cbv zeta. pose proof (attach_run ans i s c Hc Hne) as Hrun.
  pose proof (collected_spec (λ b, ans (CallFetchBlob i b)) (Data.attachments (local c)) [] [] (urls s)) as Hspec.
  destruct (collected _ _ [] [] (urls s)) as [[next errs] m]. destruct Hrun as (_ & Hcard & Hm & Hrev).
  eexists. split; [exact Hcard|]. rewrite Hm. split.
  - intros att Hin bs ct Hans. destruct (Hspec (blob_id_hex att)) as (_ & _ & Hb). rewrite Hans in Hb.
    destruct Hb as [_ Hb]. apply Hb. by apply list_elem_of_fmap_2.
  - unfold unmountCard. cbn [run]. cbn [on revoke revoked]. rewrite Hrev. unfold seen_urls. cbn [set startAttach runs attachSeen].
    by rewrite Hseen, Hatt, !app_nil_r.
Qed.

(** The age of a post is the number of whole minutes below an hour, of whole hours
    below a day, of whole days from then on; under a minute, and for a time in the
    future, it is "just now". *)
Theorem formatTimestamp_spec (now timestamp n : Z) :
  let diff := now - timestamp in
  (diff < 60000 → formatTimestamp now timestamp = js "just now") ∧
  (1 ≤ n < 60 → n * 60000 ≤ diff < (n + 1) * 60000 → formatTimestamp now timestamp = Z_to_str n ++ js "m ago") ∧
  (1 ≤ n < 24 → n * 3600000 ≤ diff < (n + 1) * 3600000 → formatTimestamp now timestamp = Z_to_str n ++ js "h ago") ∧
  (1 ≤ n → n * 86400000 ≤ diff < (n + 1) * 86400000 → formatTimestamp now timestamp = Z_to_str n ++ js "d ago").
Proof.
  cbv zeta. unfold formatTimestamp. set (d := now - timestamp).
  assert (∀ k, 0 < k → n * k ≤ d < (n + 1) * k → d / k = n) as Hdiv.
  { intros k Hk Hd. symmetry. apply (Z.div_unique d k n (d - n * k)); [left; lia|lia]. }
  split; [|split; [|split]].
  - intros Hd. assert (d / 60000 < 1) as Hm by (apply Z.div_lt_upper_bound; lia). by rewrite (proj2 (Z.ltb_lt _ _) Hm).
  - intros Hn Hd. rewrite (Hdiv 60000) by lia. by rewrite (proj2 (Z.ltb_ge n 1)), (proj2 (Z.ltb_lt n 60)) by lia.
  - intros Hn Hd. assert (60 ≤ d / 60000) as Hm by (apply Z.div_le_lower_bound; lia).
    rewrite (proj2 (Z.ltb_ge _ 1)), (proj2 (Z.ltb_ge _ 60)) by lia. rewrite (Hdiv 3600000) by lia.
    by rewrite (proj2 (Z.ltb_lt n 24)) by lia.
  - intros Hn Hd. assert (60 ≤ d / 60000) as Hm by (apply Z.div_le_lower_bound; lia).
    assert (24 ≤ d / 3600000) as Hh by (apply Z.div_le_lower_bound; lia).
    rewrite (proj2 (Z.ltb_ge _ 1)), (proj2 (Z.ltb_ge _ 60)), (proj2 (Z.ltb_ge _ 24)) by lia. by rewrite (Hdiv 86400000) by lia.
Qed.

(** A card does not tell answers apart either: with a like and a comment under way,
    an answer to the like that comes last shows the post as it was before the
    comment. *)
Theorem card_stale_answer (user : option jstr) (first liked commented : Post) (words : jstr) :
  Posting.blank words = false →
  ∃ p k1 k2, reachable origin disableModal user p ∧
    waiting p = [Await (CallLike 0 (id first)) k1; Await (CallComment 0 (id first) (trim words)) k2] ∧
    let q := proceed 0 (k1 (Ok liked)) (proceed 1 (k2 (Ok commented)) p) in
    waiting q = [] ∧ localPost <$> (about <$> cards (now q)) = [liked].
Proof.
  intros Hwords. pose (c0 := new_card first). pose (p1 := start (Update (addCard first) Finish) (idle (empty_page user)) : pool page call reply).
  pose (p2 := start (handleLike 0 c0) p1).
  pose (c2 := set (SetIsLiking true) c0).
  pose (p3 := start (Update (on 0 (sets [SetShowCommentBox true])) Finish) p2).
  pose (c3 := set (SetShowCommentBox true) c2).
  pose (p4 := start (Update (on 0 (sets [SetCommentText words])) Finish) p3).
  pose (c4 := set (SetCommentText words) c3).
  pose (p5 := start (handleComment 0 c4) p4).
  assert (∃ k1 k2, waiting p5 = [Await (CallLike 0 (id first)) k1; Await (CallComment 0 (id first) (trim words)) k2] ∧
            waiting (proceed 0 (k1 (Ok liked)) (proceed 1 (k2 (Ok commented)) p5)) = [] ∧
            localPost <$> (about <$> cards (now (proceed 0 (k1 (Ok liked)) (proceed 1 (k2 (Ok commented)) p5)))) = [liked])
    as (k1 & k2 & Hw & Hq).
  { unfold p5, handleComment. cbn [c4 set commentText]. rewrite Hwords. do 2 eexists. repeat split. }
  exists p5, k1, k2. split; [|by split].
  eapply rtc_l; [apply (step_event _ _ (Update (addCard first) Finish)); constructor|].
  eapply rtc_l; [apply (step_event _ _ (handleLike 0 c0) p1); by apply (at_card _ _ 0 c0); [..|constructor]|].
  eapply rtc_l; [apply (step_event _ _ (Update (on 0 (sets [SetShowCommentBox true])) Finish) p2);
    apply (at_card _ _ 0 c2); [done|done|apply edit_card, (toggle_comments disableModal c2)]|].
  eapply rtc_l; [apply (step_event _ _ (Update (on 0 (sets [SetCommentText words])) Finish) p3);
    apply (at_card _ _ 0 c3); [done|done|by apply edit_card, write_comment]|].
  eapply rtc_l; [apply (step_event _ _ (handleComment 0 c4) p4); apply (at_card _ _ 0 c4); [done|done|by constructor]|].
  apply rtc_refl.
Qed.
End Properties.
(** ** Instances *)

Section Examples.
Import FeedExamples.

Lemma blob_urls_inj (m n : nat) : js "blob:" ++ replicate m 97 = js "blob:" ++ replicate n 97 → m = n.
Proof. intros Heq%app_inv_head. apply (f_equal length) in Heq. by rewrite !length_replicate in Heq. Qed.

Lemma blob_urls_plain (n : nat) : Forall (λ c, c ≠ 124) (js "blob:" ++ replicate n 97).
Proof. apply Forall_app. split; [by decide_closed|by apply Forall_replicate]. Qed.

Definition blob_urls : ObjectURLs := {|
  objectURL := λ n, js "blob:" ++ replicate n 97;
  objectURL_inj := blob_urls_inj;
  objectURL_plain := blob_urls_plain;
  objectURL_filled := λ n Hn, ltac:(discriminate Hn);
|}.

Definition all_ok (c : call) : reply c :=
  match c with
  | CallLike _ _ | CallComment _ _ _ => Ok a_post
  | CallListFollowing _ _ _ _ => Ok []
  | CallProfile _ u => Ok (profile_of u)
  | CallFetchBlob _ _ => Ok ([1; 2; 3], js "image/png")
  | CallDelete _ _ | CallFollow _ _ | CallUnfollow _ _ | CallFollowing _ _ | CallClipboard _ _ | CallShare _ _ _ => Ok tt
  end.

(** A page with one card. *)
Definition one_card : page := addCard a_post (empty_page (Some (js "ann"))).

Lemma one_card_reachable t :
  @card_event blob_urls (js "https://nbook") false 0 (Some (js "ann")) (new_card a_post) t →
  @reachable blob_urls (js "https://nbook") false (Some (js "ann")) (start t (idle one_card)).
Proof.
  intros Ht. unfold reachable. eapply rtc_l; [apply (step_event _ _ (Update (addCard a_post) Finish)), appear|].
  apply rtc_once. apply (step_event _ _ t (idle one_card)). by apply (at_card _ _ 0 (new_card a_post)).
Qed.

Lemma cards_settle_witness :
  in_flight (start (handleLike 0 (new_card a_post)) (idle one_card)) = [CallLike 0 (js "p1")] ∧
  inevitably (λ q, waiting q = [] ∧ ∀ i g, In g spinners → flag g i (now q) = false)
    (start (handleLike 0 (new_card a_post)) (idle one_card)).
Proof.
  split; [reflexivity|]. apply (@cards_settle blob_urls (js "https://nbook") false (Some (js "ann"))).
  apply one_card_reachable. by constructor.
Defined.

Definition likes_first (c : call) : bool := match c with CallLike j _ => (j =? 0)%nat | _ => false end.

Lemma cards_single_flight_witness :
  (length (filter likes_first (in_flight (start (handleLike 0 (new_card a_post)) (idle one_card))))
   ≤ Nat.b2n (flag isLiking 0 (now (start (handleLike 0 (new_card a_post)) (idle one_card)))))%nat.
Proof.
  apply (@cards_single_flight blob_urls (js "https://nbook") false (Some (js "ann")) _ 0 isLiking likes_first).
  - apply one_card_reachable. by constructor.
  - by left.
Defined.

Definition asking : pool page call reply :=
  start (@followEffect 0 (Some (js "ann")) (new_card a_post)) (idle one_card).

Lemma following_requested_once_witness : requests asking = [0%nat] ∧ (length (requests asking) ≤ 1)%nat.
Proof.
  split; [reflexivity|]. apply (@following_requested_once blob_urls (js "https://nbook") false (Some (js "ann"))).
  apply one_card_reachable. by constructor.
Defined.

(** The card knows that its author is not followed. *)
Definition known : page :=
  setCached (Some ∅) (on 0 (set (SetIsFollowingAuthor false)) one_card).

Lemma follow_toggle_witness :
  calls all_ok (handleFollowToggle 0 (me known) (set (SetIsFollowingAuthor false) (new_card a_post))) known
  = [CallFollow 0 (js "bo")].
Proof.
  apply (follow_toggle all_ok 0 known (set (SetIsFollowingAuthor false) (new_card a_post)) (js "ann") false ∅); reflexivity.
Defined.

Lemma following_outlives_session_witness :
  calls all_ok (followEffect 0 (Some (js "cy")) (new_card a_post)) (run all_ok (Update (setMe (Some (js "cy"))) Finish)
    (setCached (Some {[js "bo"]}) one_card)) = [].
Proof.
  apply (following_outlives_session all_ok 0 (setCached (Some {[js "bo"]}) one_card) (new_card a_post) (Some (js "cy"))
    (js "cy") {[js "bo"]}); reflexivity.
Defined.

Lemma attachments_loaded_witness :
  calls all_ok (@attachEffect blob_urls 0 (new_card a_post)) one_card = [CallFetchBlob 0 (js "b10b")].
Proof.
  apply (@attachments_loaded blob_urls all_ok 0 one_card (new_card a_post)
    {| blob_id_hex := js "b10b"; size := 3; hash_hex := js "00" |}); [reflexivity|by left].
Defined.

Lemma attachment_urls_leak_witness :
  ∃ c1, cards (run all_ok (@attachEffect blob_urls 0 (new_card a_post)) one_card) !! 0%nat = Some c1 ∧
        revoked (run all_ok (unmountCard 0 c1) (run all_ok (@attachEffect blob_urls 0 (new_card a_post)) one_card)) = [].
Proof.
  destruct (@attachment_urls_leak blob_urls all_ok 0 one_card (new_card a_post)) as (c1 & Hc & _ & Hr);
    [reflexivity|discriminate|reflexivity|reflexivity|].
  exists c1. split; [exact Hc|exact Hr].
Defined.

Lemma card_stale_answer_witness :
  ∃ p, @reachable blob_urls (js "https://nbook") false None p ∧
       in_flight p = [CallLike 0 (js "p1"); CallComment 0 (js "p1") (js "hi")].
Proof.
  destruct (@card_stale_answer blob_urls (js "https://nbook") false None a_post a_post a_post (js "hi") eq_refl)
    as (p & k1 & k2 & Hp & Hw & _).
  exists p. split; [exact Hp|]. unfold in_flight. by rewrite Hw.
Defined.
End Examples.
End CardProps.
