(* ===== verification/NbookProfile.v ===== *)
(** * nbook/ui/components/profile/profile-content.tsx

    One pool of tasks, as the other components.  The two effects are due after the
    first render and, the second one, after its dependencies changed. *)

From S2P Require Import Prelude JsValue Codec Json Platform SdkErrors Browser Models NbookClient NbookAuth Async NbookPages.
From S2P Require Import NbookFeed.

Module Profile.
Import Errors Async Ui Data.

Inductive modal : Type := Followers | Followings.

(** [requestedUser] is read from the URL.  [mountDue] and [loadDue] say that an effect
    is still to run. *)
Record ProfileContent : Type := {
  profile : option ProfileView;
  posts : list Post;
  loading : bool;
  editing : bool;
  displayName : jstr;
  bio : jstr;
  avatarBlobId : option jstr;
  bannerBlobId : option jstr;
  sessionUser : option jstr;
  hydrated : bool;
  followerModalOpen : option modal;
  followerList : list UserSummary;
  followingList : list UserSummary;
  listLoading : bool;
  isFollowing : bool;
  followBusy : bool;
  notes : list note;
  requestedUser : option jstr;
  mountDue : bool;
  loadDue : bool;
}.

(** The setters of the state hooks, and what the platform changes. *)
Inductive edit : Type :=
| SetProfile (f : option ProfileView → option ProfileView)
| SetPosts (x : list Post)
| SetLoading (b : bool)
| SetEditing (b : bool)
| SetDisplayName (x : jstr)
| SetBio (x : jstr)
| SetAvatarBlobId (x : option jstr)
| SetBannerBlobId (x : option jstr)
| SetFollowerModalOpen (x : option modal)
| SetFollowerList (x : list UserSummary)
| SetFollowingList (x : list UserSummary)
| SetListLoading (b : bool)
| SetIsFollowing (b : bool)
| SetFollowBusy (b : bool)
| Toast (n : note)
| Hydrate (session : option jstr)
| Visit (user : option jstr)
| RanLoad.

Definition set (e : edit) (s : ProfileContent) : ProfileContent := {|
  profile := match e with SetProfile f => f (profile s) | _ => profile s end;
  posts := match e with SetPosts x => x | _ => posts s end;
  loading := match e with SetLoading b => b | _ => loading s end;
  editing := match e with SetEditing b => b | _ => editing s end;
  displayName := match e with SetDisplayName x => x | _ => displayName s end;
  bio := match e with SetBio x => x | _ => bio s end;
  avatarBlobId := match e with SetAvatarBlobId x => x | _ => avatarBlobId s end;
  bannerBlobId := match e with SetBannerBlobId x => x | _ => bannerBlobId s end;
  sessionUser := match e with Hydrate x => x | _ => sessionUser s end;
  hydrated := match e with Hydrate _ => true | _ => hydrated s end;
  followerModalOpen := match e with SetFollowerModalOpen x => x | _ => followerModalOpen s end;
  followerList := match e with SetFollowerList x => x | _ => followerList s end;
  followingList := match e with SetFollowingList x => x | _ => followingList s end;
  listLoading := match e with SetListLoading b => b | _ => listLoading s end;
  isFollowing := match e with SetIsFollowing b => b | _ => isFollowing s end;
  followBusy := match e with SetFollowBusy b => b | _ => followBusy s end;
  notes := match e with Toast n => notes s ++ [n] | _ => notes s end;
  requestedUser := match e with Visit x => x | _ => requestedUser s end;
  mountDue := match e with Hydrate _ => false | _ => mountDue s end;
  loadDue := match e with
             | Hydrate _ => true
             | Visit x => loadDue s || negb (bool_decide (x = requestedUser s))
             | RanLoad => false
             | _ => loadDue s
             end |}.

Definition initial (user : option jstr) : ProfileContent := {|
  profile := None; posts := []; loading := true; editing := false; displayName := []; bio := []; avatarBlobId := None;
  bannerBlobId := None; sessionUser := None; hydrated := false; followerModalOpen := None; followerList := [];
  followingList := []; listLoading := false; isFollowing := false; followBusy := false; notes := [];
  requestedUser := user; mountDue := true; loadDue := true |}.

(** ** Calls *)

Inductive call : Type :=
| CallGetProfile (username : jstr)
| CallGetPosts (ids : list jstr)   (* [Promise.all] of guarded [getPost]s *)
| CallFollow (username : jstr)
| CallUnfollow (username : jstr)
| CallListFollowing (username : jstr) (limit : Z)
| CallListFollowers (username : jstr) (limit : Z)
| CallUpload (f : Posting.file)
| CallUpdate (displayName bio avatarBlobId bannerBlobId : option jstr).

(** A post that cannot be fetched is [null]. *)
Definition reply (c : call) : Type :=
  match c with
  | CallGetProfile _ => outcome exn ProfileView
  | CallGetPosts _ => list (option Post)
  | CallListFollowing _ _ | CallListFollowers _ _ => outcome exn (list UserSummary)
  | CallUpload _ => outcome exn jstr
  | _ => outcome exn ()
  end.

Definition admissible (s : ProfileContent) (c : call) : reply c → Prop :=
  match c with
  | CallGetPosts ids => λ r, length r = length ids
  | _ => λ _, True
  end.

Abbreviation handler := (task ProfileContent call reply).

(** A sequence of setters. *)
Fixpoint sets (l : list edit) (k : handler) : handler :=
  match l with
  | [] => k
  | e :: r => Update (set e) (sets r k)
  end.

(** ** Effects and handlers *)

(** The summary of a user of whom only the name is known. *)
Definition bare (u : jstr) : UserSummary :=
  {| u_username := u; u_displayName := None; u_bio := None; u_avatarBlobId := None; u_bannerBlobId := None; u_followers := 0 |}.

Definition includes (l : list jstr) (u : jstr) : bool := existsb (str_eqb u) l.

(** [sessionUser && (p.followerList || []).includes(sessionUser)]. *)
Definition followed_by (user : option jstr) (p : ProfileView) : bool :=
  match given user with Some u => includes (p_followerList p) u | None => false end.

Definition load (captured : ProfileContent) : handler :=
  if negb (hydrated captured) then Finish
  else
    match given (Some (opt_or (requestedUser captured) (default [] (sessionUser captured)))) with
    | None => sets [SetLoading false] Finish
    | Some targetUser =>
        Await (CallGetProfile targetUser) (λ r,
          match r with
          | Throw error => sets [Toast (failure (js "Failed to load profile") error); SetLoading false] Finish
          | Ok p =>
              sets [ SetProfile (λ _, Some p); SetDisplayName (default [] (p_displayName p)); SetBio (default [] (p_bio p));
                     SetAvatarBlobId (given (p_avatarBlobId p)); SetBannerBlobId (given (p_bannerBlobId p));
                     SetFollowerList (map bare (p_followerList p)); SetFollowingList (map bare (p_followingList p));
                     SetIsFollowing (followed_by (sessionUser captured) p) ]
                (Await (CallGetPosts (p_posts p)) (λ fetched : list (option Post),
                  sets [SetPosts (omap (λ x, x) fetched); SetLoading false] Finish))
          end)
    end.

Definition mountEffect (session : option jstr) : handler := sets [Hydrate session] Finish.
Definition loadEffect (captured : ProfileContent) : handler := Update (set RanLoad) (load captured).

Definition isSelf (s : ProfileContent) : bool :=
  match given (requestedUser s) with
  | None => true
  | Some r => bool_decide (Some r = sessionUser s)
  end.

(** The updates of [setProfile] after unfollowing and following. *)
Definition less (user : jstr) (p : ProfileView) : ProfileView :=
  {| p_username := p_username p; p_displayName := p_displayName p; p_bio := p_bio p; p_avatarBlobId := p_avatarBlobId p;
     p_bannerBlobId := p_bannerBlobId p; p_followers := Z.max 0 (p_followers p - 1); p_following := p_following p;
     p_followerList := filter (λ u, negb (str_eqb u user)) (p_followerList p); p_followingList := p_followingList p;
     p_posts := p_posts p; p_createdAt := p_createdAt p |}.
Definition more (user : jstr) (p : ProfileView) : ProfileView :=
  {| p_username := p_username p; p_displayName := p_displayName p; p_bio := p_bio p; p_avatarBlobId := p_avatarBlobId p;
     p_bannerBlobId := p_bannerBlobId p; p_followers := p_followers p + 1; p_following := p_following p;
     p_followerList := if includes (p_followerList p) user then p_followerList p else p_followerList p ++ [user];
     p_followingList := p_followingList p; p_posts := p_posts p; p_createdAt := p_createdAt p |}.

Definition follow_failed (e : exn) : handler :=
  sets [Toast (failure (js "Follow action failed") e); SetFollowBusy false] Finish.

Definition toggleFollow (captured : ProfileContent) : handler :=
  match given (sessionUser captured), profile captured with
  | Some user, Some p =>
      sets [SetFollowBusy true]
        (if isFollowing captured then
           Await (CallUnfollow (p_username p)) (λ r,
             match r with
             | Throw e => follow_failed e
             | Ok _ => sets [ SetIsFollowing false; SetProfile (option_map (less user));
                              Toast (announce (js "Unfollowed " ++ p_username p)); SetFollowBusy false ] Finish
             end)
         else
           Await (CallFollow (p_username p)) (λ r,
             match r with
             | Throw e => follow_failed e
             | Ok _ => sets [ SetIsFollowing true; SetProfile (option_map (more user));
                              Toast (announce (js "Following " ++ p_username p)); SetFollowBusy false ] Finish
             end))
  | _, _ => sets [Toast (inform (js "Please log in") (js "You need to be signed in to follow people."))] Finish
  end.

(** The buttons with the numbers of people; [p] is the profile that is shown. *)
Definition showFollowing (captured : ProfileContent) (p : ProfileView) : handler :=
  match given (sessionUser captured) with
  | None => Finish
  | Some _ =>
      sets [SetListLoading true]
        (Await (CallListFollowing (p_username p) 50) (λ r,
          match r with
          | Ok users => sets [SetFollowingList users; SetFollowerModalOpen (Some Followings); SetListLoading false] Finish
          | Throw e => sets [Toast (failure (js "Failed to load following") e); SetListLoading false] Finish
          end))
  end.

Definition showFollowers (captured : ProfileContent) (p : ProfileView) : handler :=
  match given (sessionUser captured) with
  | None => Finish
  | Some _ =>
      sets [SetListLoading true]
        (Await (CallListFollowers (p_username p) 50) (λ r,
          match r with
          | Ok users => sets [SetFollowerList users; SetFollowerModalOpen (Some Followers); SetListLoading false] Finish
          | Throw e => sets [Toast (failure (js "Failed to load followers") e); SetListLoading false] Finish
          end))
  end.

(** The file inputs for the avatar and the banner. *)
Definition uploadAvatar (f : Posting.file) : handler :=
  Await (CallUpload f) (λ r,
    match r with
    | Ok i => sets [SetAvatarBlobId (Some i); Toast (announce (js "Avatar uploaded"))] Finish
    | Throw e => sets [Toast (failure (js "Upload failed") e)] Finish
    end).
Definition uploadBanner (f : Posting.file) : handler :=
  Await (CallUpload f) (λ r,
    match r with
    | Ok i => sets [SetBannerBlobId (Some i); Toast (announce (js "Banner uploaded"))] Finish
    | Throw e => sets [Toast (failure (js "Upload failed") e)] Finish
    end).

(** The click on Save changes. *)
Definition save (captured : ProfileContent) (p : ProfileView) : handler :=
  Await (CallUpdate (given (Some (displayName captured))) (given (Some (bio captured))) (given (avatarBlobId captured))
           (given (bannerBlobId captured))) (λ r,
    match r with
    | Throw e => sets [Toast (failure (js "Update failed") e)] Finish
    | Ok _ =>
        sets [Toast (announce (js "Profile updated")); SetEditing false]
          (Await (CallGetProfile (p_username p)) (λ r,
            match r with
            | Ok updated => sets [SetProfile (λ _, Some updated)] Finish
            | Throw e => sets [Toast (failure (js "Update failed") e)] Finish
            end))
    end).

Definition followBack (u : UserSummary) : handler :=
  Await (CallFollow (u_username u)) (λ r,
    match r with
    | Ok _ => sets [Toast (announce (js "Followed back " ++ u_username u))] Finish
    | Throw e => sets [Toast (failure (js "Follow back failed") e)] Finish
    end).

(** ** What is rendered *)

(** [`Joined ${date.toLocaleString(undefined, ...)}`]: the platform formats the date. *)
Class MonthYear : Type := month_year : Z → jstr.

Section Rendering.
Context `{UpperCase} `{MonthYear}.

Definition joinedText (p : ProfileView) : jstr := js "Joined " ++ month_year (p_createdAt p).

Inductive view : Type :=
| LoadingProfile
| LogInFirst
| NotFound
| Page (elements : list element) (cards : list Post).

Definition shown_name (p : ProfileView) : jstr := opt_or (p_displayName p) (p_username p).

Definition header (s : ProfileContent) (p : ProfileView) : list element :=
  [ Text (shown_name p); Text (Z_to_str (Z.of_nat (length (posts s))) ++ js " posts") ]
  ++ when (negb (isSelf s))
       [Button (if followBusy s then js "..." else if isFollowing s then js "Unfollow" else js "Follow") (negb (followBusy s))]
  ++ [Button (js "Settings") true].

Definition banner (s : ProfileContent) (p : ProfileView) : list element :=
  match given (p_bannerBlobId p) with Some b => [Image (blob_url b)] | None => [] end
  ++ [ match given (p_avatarBlobId p) with
       | Some a => Image (blob_url a)
       | None => Text (badge (str_or (p_username p) (js "NB")))
       end ]
  ++ when (isSelf s) [Button (if editing s then js "Cancel" else js "Edit Profile") true]
  ++ [ Text (shown_name p); Text (opt_or (p_bio p) (js "Secure-by-default profile powered by ONVM.")); Text (joinedText p);
       Button (Z_to_str (p_following p) ++ js " Following") true; Button (Z_to_str (p_followers p) ++ js " Followers") true ].

Definition edit_form (s : ProfileContent) : list element :=
  when (isSelf s && editing s)
    [ Input (js "Display name") (displayName s); Input (js "Bio") (bio s);
      Input (js "Avatar (blob<hash>, optional)") (default [] (avatarBlobId s)); Button (js "Upload avatar") true;
      Input (js "Banner (blob<hash>, optional)") (default [] (bannerBlobId s)); Button (js "Upload banner") true;
      Button (js "Save changes") true ].

(** A row of the dialog with the followers or the people followed. *)
Definition person_row (s : ProfileContent) (m : modal) (p : ProfileView) (u : UserSummary) : outcome exn (list element) :=
  let! name := encodeURIComponent (u_username u) in
  let shown := opt_or (u_displayName u) (u_username u) in
  Ok (match given (u_avatarBlobId u) with Some a => [Image (blob_url a)] | None => [] end
      ++ [Text (badge (str_or shown (js "NB"))); Link shown (js "/profile?user=" ++ name)]
      ++ when (match m with Followers => true | Followings => false end && bool_decide (sessionUser s = Some (p_username p)))
           [Button (js "Follow back") true]).

Definition people_dialog (s : ProfileContent) (p : ProfileView) : outcome exn (list element) :=
  match followerModalOpen s with
  | None => Ok []
  | Some m =>
      let! rows := if listLoading s then Ok [[Paragraph "Loading..."]]
                   else traverse (person_row s m p) (match m with Followers => followerList s | Followings => followingList s end) in
      Ok ([Text (match m with Followers => js "Followers" | Followings => js "Following" end); Button (js "Close") true]
          ++ concat rows)
  end.

Definition render (s : ProfileContent) : outcome exn view :=
  if negb (hydrated s) || loading s then Ok LoadingProfile
  else
    match given (sessionUser s), given (requestedUser s), profile s with
    | None, None, _ => Ok LogInFirst
    | _, _, None => Ok NotFound
    | _, _, Some p =>
        let! dialog := people_dialog s p in
        Ok (Page (header s p ++ banner s p ++ edit_form s ++ [Paragraph "Posts"]
                  ++ match posts s with [] => [Paragraph "No posts yet."] | _ => [] end ++ dialog) (posts s))
    end.
End Rendering.

(** ** Events *)

(** The page with the profile is shown. *)
Definition shows (s : ProfileContent) (p : ProfileView) : Prop :=
  hydrated s = true ∧ loading s = false ∧ profile s = Some p.

(** Inputs and clicks that only set state variables. *)
Inductive local_edit (s : ProfileContent) : edit → Prop :=
| toggle_editing : isSelf s = true → local_edit s (SetEditing (negb (editing s)))
| type_name x : isSelf s && editing s = true → local_edit s (SetDisplayName x)
| type_bio x : isSelf s && editing s = true → local_edit s (SetBio x)
| type_avatar x : isSelf s && editing s = true → local_edit s (SetAvatarBlobId (given (Some x)))
| type_banner x : isSelf s && editing s = true → local_edit s (SetBannerBlobId (given (Some x)))
| close_dialog : local_edit s (SetFollowerModalOpen None).

Inductive event : ProfileContent → handler → Prop :=
| run_mount session s : mountDue s = true → event s (mountEffect session)
| run_load s : loadDue s = true → event s (loadEffect s)
| visit user s : event s (sets [Visit user] Finish)
| edit_page e p s : shows s p → local_edit s e → event s (sets [e] Finish)
| click_follow p s : shows s p → isSelf s = false → followBusy s = false → event s (toggleFollow s)
| click_following p s : shows s p → event s (showFollowing s p)
| click_followers p s : shows s p → event s (showFollowers s p)
| choose_avatar f p s : shows s p → isSelf s && editing s = true → event s (uploadAvatar f)
| choose_banner f p s : shows s p → isSelf s && editing s = true → event s (uploadBanner f)
| click_save p s : shows s p → isSelf s && editing s = true → event s (save s p)
| click_back u p s :
    shows s p → followerModalOpen s = Some Followers → sessionUser s = Some (p_username p) → In u (followerList s) →
    event s (followBack u).

Definition reachable (user : option jstr) : pool ProfileContent call reply → Prop :=
  reachable_from event admissible (idle (initial user)).

(** ** Properties *)

(** The page waits for a profile, and is not about to load again. *)
Definition spinning (s : ProfileContent) : bool := hydrated s && loading s && negb (loadDue s).

Definition spinners : list (ProfileContent → bool) := [followBusy; listLoading; spinning].

Ltac each_spinner Hg := destruct Hg as [<-|[<-|[<-|[]]]].
Ltac profile_flag :=
  first [flag_update
        |intros ?; unfold spinning; cbn [set hydrated loading loadDue];
         rewrite ?andb_false_r, ?andb_false_l; first [done|by destruct (hydrated _)|by destruct (loadDue _)]].
Ltac profile_settle := cbn [sets]; settle_with profile_flag.

Lemma visit_keeps x : never_raises spinning (set (Visit x)).
Proof.
  intros s. unfold spinning. cbn [set hydrated loading loadDue]. destruct (loadDue s); [by rewrite andb_false_r|].
  destruct (hydrated s && loading s); [done|by destruct (negb _)].
Qed.

Lemma profile_event_calm g s t : In g spinners → event s t → calm g s t.
Proof.
  intros Hg [session s' _|s' Hd|user s'|e p s' _ He|p s' _ _ _|p s' _|p s' _|f p s' _ _|f p s' _ _|p s' _ _|u p s' _ _ _ _].
  - left. unfold mountEffect. each_spinner Hg; profile_settle.
  - unfold loadEffect, load. destruct (hydrated s') eqn:Hh; cbn [negb].
    + left. each_spinner Hg; profile_settle.
    + right. split; [done|]. each_spinner Hg; [done|done|]. unfold spinning. simpl. by rewrite Hh.
  - left. each_spinner Hg; [profile_settle|profile_settle|]. right; left. split; [apply visit_keeps|done].
  - left. destruct He; each_spinner Hg; profile_settle.
  - left. unfold toggleFollow, follow_failed. each_spinner Hg; profile_settle.
  - left. unfold showFollowing. each_spinner Hg; profile_settle.
  - left. unfold showFollowers. each_spinner Hg; profile_settle.
  - left. unfold uploadAvatar. each_spinner Hg; profile_settle.
  - left. unfold uploadBanner. each_spinner Hg; profile_settle.
  - left. unfold save. each_spinner Hg; profile_settle.
  - left. unfold followBack. each_spinner Hg; profile_settle.
Qed.

(** The profile page never hangs: from every reachable state, once the calls under
    way are answered, the follow button and the lists show no spinner, and the page
    is out of its loading state unless the effect that loads is still to run. *)
Theorem profile_settles (user : option jstr) (p : pool ProfileContent call reply) :
  reachable user p →
  inevitably (λ q, waiting q = [] ∧ followBusy (now q) = false ∧ listLoading (now q) = false ∧
                   (hydrated (now q) = true → loadDue (now q) = false → loading (now q) = false)) p.
Proof.
  intros Hp. eapply (inevitably_mono _ _ (λ _, True)); [done| |done|].
  2: { apply (flags_lowered (λ g, In g spinners) _ _ _ _ Hp); [intros; by apply profile_event_calm|].
       intros g Hg. by each_spinner Hg. }
  intros q _ [Hw Hq]. split; [exact Hw|]. split; [apply Hq; by left|]. split; [apply Hq; by right; left|].
  intros Hh Hd. specialize (Hq spinning ltac:(by right; right; left)). unfold spinning in Hq.
  rewrite Hh, Hd in Hq. by destruct (loading (now q)).
Qed.

(** The followers of a profile are counted right and listed once each. *)
Definition consistent (p : ProfileView) : Prop :=
  p_followers p = Z.of_nat (length (p_followerList p)) ∧ NoDup (p_followerList p).

Lemma includes_spec l u : includes l u = true ↔ u ∈ l.
Proof.
  unfold includes. rewrite existsb_exists, list_elem_of_In. unfold str_eqb. split.
  - intros (x & Hx & Hb). by apply bool_decide_eq_true in Hb as ->.
  - intros Hu. exists u. split; [done|]. by apply bool_decide_eq_true.
Qed.

Lemma less_consistent u p :
  consistent p → u ∈ p_followerList p →
  consistent (less u p) ∧ (∀ x, x ∈ p_followerList (less u p) ↔ x ∈ p_followerList p ∧ x ≠ u).
Proof.
  intros [Hn Hd] Hu. assert (∀ x, x ∈ p_followerList (less u p) ↔ x ∈ p_followerList p ∧ x ≠ u) as Hx.
  { intros x. cbn [less p_followerList]. rewrite list_elem_of_filter. unfold str_eqb.
    destruct (bool_decide_reflect (x = u)); simpl; naive_solver. }
  split; [|done]. split; [|by apply NoDup_filter].
  assert (p_followerList p ≡ₚ u :: p_followerList (less u p)) as Hp.
  { apply NoDup_Permutation; [done|constructor; [by rewrite Hx; naive_solver|by apply NoDup_filter]|].
    intros x. rewrite elem_of_cons, Hx. destruct (decide (x = u)); naive_solver. }
  apply Permutation_length in Hp. cbn [length] in Hp. cbn [less p_followers]. rewrite Hn, Hp. cbn [less p_followerList]. lia.
Qed.

Lemma more_consistent u p :
  consistent p → u ∉ p_followerList p →
  consistent (more u p) ∧ (∀ x, x ∈ p_followerList (more u p) ↔ x ∈ p_followerList p ∨ x = u).
Proof.
  intros [Hn Hd] Hu. assert (p_followerList (more u p) = p_followerList p ++ [u]) as Hl.
  { cbn [more p_followerList]. destruct (includes (p_followerList p) u) eqn:Hi; [by apply includes_spec in Hi|done]. }
  unfold consistent. rewrite Hl. split; [split|].
  - cbn [more p_followers]. rewrite Hn, length_app. simpl. lia.
  - apply NoDup_app. split; [done|]. split; [|apply NoDup_singleton]. intros x Hx. by rewrite list_elem_of_singleton; intros ->.
  - intros x. by rewrite elem_of_app, list_elem_of_singleton.
Qed.

(** Following from a profile keeps the books: with a consistent profile whose button
    is right, a toggle makes one call, for the profile's user; when it succeeds the
    profile is consistent again, its list of followers has gained or lost exactly the
    user, and the button is right; when it fails nothing but a message changed. *)
Theorem profile_follow (ans : ∀ c, reply c) (s : ProfileContent) (p : ProfileView) (u : jstr) :
  sessionUser s = Some u → u ≠ [] → profile s = Some p → consistent p → isFollowing s = followed_by (Some u) p →
  let t := toggleFollow s in
  let s' := run ans t s in
  let the_call := if isFollowing s then CallUnfollow (p_username p) else CallFollow (p_username p) in
  calls ans t s = [the_call] ∧ followBusy s' = false ∧
  match (if isFollowing s then ans (CallUnfollow (p_username p)) else ans (CallFollow (p_username p))) : outcome exn () with
  | Ok _ =>
      ∃ p', profile s' = Some p' ∧ consistent p' ∧ isFollowing s' = negb (isFollowing s) ∧
            isFollowing s' = followed_by (Some u) p' ∧
            ∀ x, x ≠ u → x ∈ p_followerList p' ↔ x ∈ p_followerList p
  | Throw e =>
      profile s' = Some p ∧ isFollowing s' = isFollowing s ∧ notes s' = notes s ++ [failure (js "Follow action failed") e]
  end.
Proof.
  intros Hu Hne Hp Hcons Hf. cbv zeta. unfold toggleFollow. rewrite Hu, Hp.
  assert (given (Some u) = Some u) as -> by by destruct u.
  assert (∀ q, followed_by (Some u) q = includes (p_followerList q) u) as Hby by (intros q; unfold followed_by; by destruct u).
  rewrite Hby in Hf. destruct (isFollowing s) eqn:Hfol.
  - cbn [sets run calls]. symmetry in Hf. apply includes_spec in Hf. destruct (less_consistent u p Hcons Hf) as [Hc Hx].
    destruct (ans (CallUnfollow (p_username p))) as [x|e]; cbn [sets run calls]; (split; [done|]); (split; [done|]).
    + exists (less u p). split; [simpl; by rewrite Hp|]. split; [done|]. split; [done|]. rewrite Hby. split.
      * destruct (includes _ u) eqn:Hi; [|done]. apply includes_spec, Hx in Hi. naive_solver.
      * intros y Hy. rewrite Hx. naive_solver.
    + unfold follow_failed. simpl. by rewrite Hfol, Hp.
  - cbn [sets run calls]. assert (u ∉ p_followerList p) as Hnot by by (rewrite <- includes_spec, <- Hf).
    destruct (more_consistent u p Hcons Hnot) as [Hc Hx].
    destruct (ans (CallFollow (p_username p))) as [x|e]; cbn [sets run calls]; (split; [done|]); (split; [done|]).
    + exists (more u p). split; [simpl; by rewrite Hp|]. split; [done|]. split; [done|]. rewrite Hby. split.
      * symmetry. apply includes_spec, Hx. by right.
      * intros y Hy. rewrite Hx. naive_solver.
    + unfold follow_failed. simpl. by rewrite Hfol, Hp.
Qed.

(** The page's calls when [P] is the profile that is found and no post can be fetched. *)
Definition finding (P : ProfileView) (c : call) : reply c :=
  match c with
  | CallGetProfile _ => Ok P
  | CallGetPosts l => replicate (length l) None
  | CallListFollowing _ _ | CallListFollowers _ _ => Ok []
  | CallUpload _ => Ok []
  | _ => Ok tt
  end.

Lemma finding_admissible P s c : admissible s c (finding P c).
Proof. destruct c; [done|apply length_replicate|done..]. Qed.

Lemma finding_run P s target :
  hydrated s = true ∧ given (Some (opt_or (requestedUser s) (default [] (sessionUser s)))) = Some target →
  ∃ s', run (finding P) (loadEffect s) s = s' ∧ profile s' = Some P ∧
        hydrated s' = true ∧ loading s' = false ∧ requestedUser s' = requestedUser s ∧ sessionUser s' = sessionUser s ∧
        followBusy s' = followBusy s ∧ isFollowing s' = followed_by (sessionUser s) P.
Proof.
  intros [Hh Ht]. eexists. split; [reflexivity|]. unfold loadEffect, load. rewrite Hh, Ht.
  cbn [run negb finding sets set profile hydrated loading requestedUser sessionUser followBusy isFollowing]. done.
Qed.

Lemma toggle_start s P u :
  sessionUser s = Some u → u ≠ [] → profile s = Some P → isFollowing s = false →
  ∃ k, start (toggleFollow s) {| now := s; waiting := [] |} =
         {| now := set (SetFollowBusy true) s; waiting := [Await (CallFollow (p_username P)) k] |} ∧
       k (Ok tt) = sets [ SetIsFollowing true; SetProfile (option_map (more u));
                          Toast (announce (js "Following " ++ p_username P)); SetFollowBusy false ] Finish.
Proof. intros Hu Hne HP Hf. unfold toggleFollow. rewrite Hu, HP, Hf. destruct u; [done|]. eexists. split; reflexivity. Qed.

(** A follow is booked on whatever profile is shown when its answer arrives: following
    one user and moving on to another's page before the answer ends with the second
    user counted and shown as followed, who was not. *)
Theorem follow_hits_other_profile (u a b : jstr) (A B : ProfileView) :
  u ≠ [] → a ≠ [] → b ≠ [] → a ≠ u → a ≠ b → followed_by (Some u) A = false →
  ∃ p k, reachable (Some a) p ∧ waiting p = [Await (CallFollow (p_username A)) k] ∧
    profile (now p) = Some B ∧ requestedUser (now p) = Some b ∧ isFollowing (now p) = followed_by (Some u) B ∧
    let q := proceed 0 (k (Ok tt)) p in
    waiting q = [] ∧ profile (now q) = Some (more u B) ∧ isFollowing (now q) = true.
Proof.
  intros Hu Ha Hb Hau Hab HA. destruct (finding_run A (set (Hydrate (Some u)) (initial (Some a))) a) as (s4 & Hrun4 & Hp4 & Hs4).
  { by destruct a. }
  destruct Hs4 as (Hh4 & Hl4 & Hr4 & Hu4 & Hb4 & Hf4). cbn [set initial hydrated requestedUser sessionUser followBusy] in *.
  rewrite HA in Hf4.
  pose (s6 := set (Visit (Some b)) (set (SetFollowBusy true) s4)).
  destruct (finding_run B s6 b) as (s9 & Hrun9 & Hp9 & _ & _ & Hr9 & _ & _ & Hf9).
  { cbn [s6 set hydrated requestedUser]. split; [done|]. by destruct b. }
  destruct (toggle_start s4 A u Hu4 Hu Hp4 Hf4) as (k & Hstart & Hk).
  exists {| now := s9; waiting := [Await (CallFollow (p_username A)) k] |}, k.
  split; [|split; [done|split; [done|split; [done|split; [by cbn [now]; rewrite Hf9; cbn [s6 set sessionUser]; rewrite Hu4|]]]]].
  - eapply rtc_l; [apply (step_event _ _ (mountEffect (Some u))); by constructor|].
    eapply rtc_l; [apply (step_event _ _ (loadEffect (set (Hydrate (Some u)) (initial (Some a))))); by constructor|].
    etrans; [apply (run_steps event admissible (finding A) _ (set (Hydrate (Some u)) (initial (Some a))) []), finding_admissible|].
    rewrite Hrun4.
    eapply rtc_l; [apply (step_event _ _ (toggleFollow s4)); apply (click_follow A); [done| |done]|].
    { cbn [now]. unfold isSelf. rewrite Hr4, Hu4. destruct a; [done|]. by apply bool_decide_eq_false_2; congruence. }
    rewrite Hstart. eapply rtc_l; [apply (step_event _ _ (sets [Visit (Some b)] Finish)); constructor|].
    eapply rtc_l; [apply (step_event _ _ (loadEffect s6)); constructor|].
    { cbn [sets start advance now s6 set loadDue requestedUser]. rewrite Hr4, bool_decide_eq_false_2 by congruence.
      apply orb_true_r. }
    etrans; [apply (run_steps event admissible (finding B) _ s6 [Await (CallFollow (p_username A)) k]), finding_admissible|].
    rewrite Hrun9. apply rtc_refl.
  - cbv zeta. unfold proceed. rewrite Hk. cbn [sets advance now waiting set profile isFollowing]. by rewrite Hp9.
Qed.

(** The request of [updateProfile]. *)
Definition update_request (token : value) (dn b a n : option jstr) : list (jstr * value) := [
  (js "op", VStr (js "update_profile")); (js "session", token); (js "display_name", Nbook.opt_str dn);
  (js "bio", Nbook.opt_str b); (js "avatar_blob_id", Nbook.opt_str a); (js "banner_blob_id", Nbook.opt_str n)].

(** Saving the form with an empty name or text sends a request in which that field is
    missing, which the program reads as a profile without it. *)
Theorem profile_saves_filled_fields (ans : ∀ c, reply c) (s : ProfileContent) (p : ProfileView) (token : value) :
  let c := CallUpdate (given (Some (displayName s))) (given (Some (bio s))) (given (avatarBlobId s)) (given (bannerBlobId s)) in
  (∃ l, calls ans (save s p) s = c :: l) ∧
  (displayName s = [] → ∀ b a n,
     json_text (VObj (update_request token (given (Some (displayName s))) b a n)) =
     json_text (VObj (filter (λ x, negb (str_eqb x.1 (js "display_name"))) (update_request token None b a n)))) ∧
  (bio s = [] → ∀ d a n,
     json_text (VObj (update_request token d (given (Some (bio s))) a n)) =
     json_text (VObj (filter (λ x, negb (str_eqb x.1 (js "bio"))) (update_request token d None a n)))).
Proof.
  cbv zeta. split; [eexists; reflexivity|]. split; intros ->; intros; reflexivity.
Qed.
(** ** Instances *)

Definition opened : pool ProfileContent call reply := start (mountEffect (Some (js "ann"))) (idle (initial (Some (js "bo")))).

Lemma profile_settles_witness :
  inevitably (λ q, waiting q = [] ∧ followBusy (now q) = false ∧ listLoading (now q) = false ∧
                   (hydrated (now q) = true → loadDue (now q) = false → loading (now q) = false)) opened.
Proof. apply (profile_settles (Some (js "bo"))). apply rtc_once, step_event. by constructor. Defined.

Definition viewing : ProfileContent :=
  set (SetProfile (λ _, Some (FeedExamples.profile_of (js "bo")))) (set (Hydrate (Some (js "ann"))) (initial (Some (js "bo")))).

Definition all_ok (c : call) : reply c :=
  match c with
  | CallGetProfile u => Ok (FeedExamples.profile_of u)
  | CallGetPosts ids => map (λ _, None) ids
  | CallListFollowing _ _ | CallListFollowers _ _ => Ok []
  | CallUpload _ => Ok (js "b10b")
  | CallFollow _ | CallUnfollow _ | CallUpdate _ _ _ _ => Ok tt
  end.

Lemma profile_follow_witness :
  ∃ p', profile (run all_ok (toggleFollow viewing) viewing) = Some p' ∧ followed_by (Some (js "ann")) p' = true.
Proof.
  pose proof (profile_follow all_ok viewing (FeedExamples.profile_of (js "bo")) (js "ann") eq_refl
    ltac:(discriminate) eq_refl ltac:(split; [reflexivity|constructor]) eq_refl) as (_ & _ & p' & Hp & _ & Hn & Hf & _).
  exists p'. split; [exact Hp|]. rewrite <- Hf. exact Hn.
Defined.

Lemma follow_hits_other_profile_witness :
  ∃ q : pool ProfileContent call reply, profile (now q) = Some (more (js "ann") (FeedExamples.profile_of (js "cy"))).
Proof.
  destruct (follow_hits_other_profile (js "ann") (js "bo") (js "cy") (FeedExamples.profile_of (js "bo"))
    (FeedExamples.profile_of (js "cy"))) as (p & k & _ & _ & _ & _ & _ & _ & Hq & _); [discriminate..|reflexivity|].
  eexists. exact Hq.
Defined.
End Profile.
