(* ===== verification/SharedUi.v ===== *)
(** * The shared sidebar: components/ui/sidebar.tsx and hooks/use-mobile.ts

    The four front ends carry the same component (the gateway's copy is an older
    release).  [SidebarProvider] and [useIsMobile] are one state; the parts that only
    pass class names on are left out. *)

From S2P Require Import Prelude JsValue Codec Json Platform SdkErrors Browser Async NbookPages.

Module Sidebar.
Import Errors Ui.

Definition SIDEBAR_COOKIE_NAME : jstr := js "sidebar_state".
Definition SIDEBAR_COOKIE_MAX_AGE : Z := 60 * 60 * 24 * 7.
Definition SIDEBAR_WIDTH : jstr := js "16rem".
Definition SIDEBAR_WIDTH_MOBILE : jstr := js "18rem".
Definition SIDEBAR_WIDTH_ICON : jstr := js "3rem".
Definition SIDEBAR_KEYBOARD_SHORTCUT : jstr := js "b".
Definition MOBILE_BREAKPOINT : Z := 768.

(** [innerWidth] is the window's; [matches] is what the media query last reported.
    [openProp] is the property of a controlled sidebar, and [cookie] the last one
    written. *)
Record SidebarProvider : Type := {
  innerWidth : Z;
  matches : bool;
  mobile : option bool;
  openMobile : bool;
  inner_open : bool;
  openProp : option bool;
  cookie : option jstr;
}.

Definition set_mobile (x : option bool) (s : SidebarProvider) : SidebarProvider :=
  {| innerWidth := innerWidth s; matches := matches s; mobile := x; openMobile := openMobile s; inner_open := inner_open s;
     openProp := openProp s; cookie := cookie s |}.
Definition setOpenMobile (x : bool) (s : SidebarProvider) : SidebarProvider :=
  {| innerWidth := innerWidth s; matches := matches s; mobile := mobile s; openMobile := x; inner_open := inner_open s;
     openProp := openProp s; cookie := cookie s |}.
Definition set_open (i : bool) (p : option bool) (c : jstr) (s : SidebarProvider) : SidebarProvider :=
  {| innerWidth := innerWidth s; matches := matches s; mobile := mobile s; openMobile := openMobile s; inner_open := i;
     openProp := p; cookie := Some c |}.

(** ** use-mobile.ts *)

Definition narrow (width : Z) : bool := width <? MOBILE_BREAKPOINT.

(** The effect of the first render. *)
Definition mobileEffect (s : SidebarProvider) : SidebarProvider := set_mobile (Some (narrow (innerWidth s))) s.

(** The window is resized; the media query [(max-width: 767px)] reports a change. *)
Definition resize (width : Z) (s : SidebarProvider) : SidebarProvider :=
  let m := width <=? MOBILE_BREAKPOINT - 1 in
  let s1 := {| innerWidth := width; matches := m; mobile := mobile s; openMobile := openMobile s;
               inner_open := inner_open s; openProp := openProp s; cookie := cookie s |} in
  if Bool.eqb m (matches s) then s1 else set_mobile (Some (narrow width)) s1.

Definition useIsMobile (s : SidebarProvider) : bool := default false (mobile s).

(** ** SidebarProvider *)

Section Provider.
(** [onOpenChange]: what the parent makes of the property, when it is given. *)
Context (setOpenProp : option (bool → option bool)).

(** [openProp ?? _open]. *)
Definition open (s : SidebarProvider) : bool := default (inner_open s) (openProp s).

Definition bool_text (b : bool) : jstr := if b then js "true" else js "false".

Definition cookie_text (openState : bool) : jstr :=
  SIDEBAR_COOKIE_NAME ++ js "=" ++ bool_text openState ++ js "; path=/; max-age=" ++ Z_to_str SIDEBAR_COOKIE_MAX_AGE.

Definition setOpen (openState : bool) (s : SidebarProvider) : SidebarProvider :=
  match setOpenProp with
  | Some f => set_open (inner_open s) (f openState) (cookie_text openState) s
  | None => set_open openState (openProp s) (cookie_text openState) s
  end.

(** [captured] is the render the callback belongs to. *)
Definition toggleSidebar (captured s : SidebarProvider) : SidebarProvider :=
  if useIsMobile captured then setOpenMobile (negb (openMobile s)) s else setOpen (negb (open captured)) s.

Definition shortcut (key : jstr) (metaKey ctrlKey : bool) : bool :=
  str_eqb key SIDEBAR_KEYBOARD_SHORTCUT && (metaKey || ctrlKey).

Definition handleKeyDown (key : jstr) (metaKey ctrlKey : bool) (s : SidebarProvider) : SidebarProvider :=
  if shortcut key metaKey ctrlKey then toggleSidebar s s else s.

(** The value of the context; a component outside a provider throws. *)
Record SidebarContextProps : Type := {
  ctx_state : jstr;
  ctx_open : bool;
  ctx_isMobile : bool;
  ctx_openMobile : bool;
}.

Definition contextValue (s : SidebarProvider) : SidebarContextProps :=
  {| ctx_state := if open s then js "expanded" else js "collapsed"; ctx_open := open s; ctx_isMobile := useIsMobile s;
     ctx_openMobile := openMobile s |}.

Definition useSidebar (context : option SidebarContextProps) : outcome exn SidebarContextProps :=
  match context with
  | Some c => Ok c
  | None => Throw (Error (js "useSidebar must be used within a SidebarProvider."))
  end.

(** ** Sidebar and SidebarMenuButton *)

Inductive collapse : Type := Offcanvas | IconOnly | NoCollapse.

Inductive shape : Type :=
| Fixed
| Sheet (shown : bool) (width : jstr)
| Desktop (data_state data_collapsible : jstr).

Definition collapse_text (c : collapse) : jstr :=
  match c with Offcanvas => js "offcanvas" | IconOnly => js "icon" | NoCollapse => js "none" end.

Definition Sidebar (collapsible : collapse) (context : option SidebarContextProps) : outcome exn shape :=
  let! c := useSidebar context in
  match collapsible with
  | NoCollapse => Ok Fixed
  | _ =>
      if ctx_isMobile c then Ok (Sheet (ctx_openMobile c) SIDEBAR_WIDTH_MOBILE)
      else Ok (Desktop (ctx_state c) (if str_eqb (ctx_state c) (js "collapsed") then collapse_text collapsible else []))
  end.

(** Whether the tooltip of a button is hidden. *)
Definition tooltip_hidden (context : option SidebarContextProps) : outcome exn bool :=
  let! c := useSidebar context in
  Ok (negb (str_eqb (ctx_state c) (js "collapsed")) || ctx_isMobile c).

(** The width of a skeleton, from a sample of [Math.random()] in 40ths. *)
Definition skeleton_width (sample : Z) : jstr := Z_to_str (sample + 50) ++ js "%".

(** ** Events *)

Inductive step : SidebarProvider → SidebarProvider → Prop :=
| step_resize w s : step s (resize w s)
| step_trigger s : step s (toggleSidebar s s)
| step_key key m c s : step s (handleKeyDown key m c s)
| step_sheet b s : useIsMobile s = true → step s (setOpenMobile b s)
| step_set b s : step s (setOpen b s).

(** The first render, and its effect. *)
Definition mount (width : Z) (defaultOpen : bool) (prop : option bool) : SidebarProvider :=
  mobileEffect {| innerWidth := width; matches := width <=? MOBILE_BREAKPOINT - 1; mobile := None; openMobile := false;
                  inner_open := defaultOpen; openProp := prop; cookie := None |}.
End Provider.

(** ** Properties *)

Definition well_kept (setOpenProp : option (bool → option bool)) (s : SidebarProvider) : Prop :=
  mobile s = Some (innerWidth s <? MOBILE_BREAKPOINT) ∧ matches s = (innerWidth s <? MOBILE_BREAKPOINT) ∧
  (setOpenProp = None → openProp s = None) ∧ (cookie s = None ∨ cookie s = Some (cookie_text (open s))).

Lemma narrow_query w : (w <=? MOBILE_BREAKPOINT - 1) = (w <? MOBILE_BREAKPOINT).
Proof. unfold MOBILE_BREAKPOINT. destruct (Z.leb_spec w (768 - 1)), (Z.ltb_spec w 768); lia. Qed.

Section Invariant.
Context (setOpenProp : option (bool → option bool)).
Hypothesis Hfollows : ∀ f, setOpenProp = Some f → ∀ b, f b = Some b.

Lemma setOpen_kept b s : well_kept setOpenProp s → well_kept setOpenProp (setOpen setOpenProp b s) ∧ open (setOpen setOpenProp b s) = b.
Proof.
  intros (H1 & H2 & H3 & _). unfold setOpen, well_kept, open. destruct setOpenProp as [f|]; cbn [set_open].
  - rewrite (Hfollows f eq_refl b). cbn. split; [|done]. repeat split; try done. by right.
  - cbn. rewrite H3 by done. cbn. repeat split; try done. by right.
Qed.

Lemma toggle_kept s : well_kept setOpenProp s → well_kept setOpenProp (toggleSidebar setOpenProp s s).
Proof. intros Hs. unfold toggleSidebar. destruct (useIsMobile s); [done|by apply setOpen_kept]. Qed.

Lemma step_kept s s' : step setOpenProp s s' → well_kept setOpenProp s → well_kept setOpenProp s'.
Proof.
  intros [w s1|s1|key m c s1|b s1 _|b s1] Hs; [|by apply toggle_kept| |done|by apply setOpen_kept].
  - destruct Hs as (H1 & H2 & H3 & H4). unfold resize. rewrite narrow_query, H2.
    destruct (Bool.eqb_spec (w <? MOBILE_BREAKPOINT) (innerWidth s1 <? MOBILE_BREAKPOINT)) as [He|He];
      (split; [cbn [mobile innerWidth set_mobile]; by rewrite ?H1, ?He|by repeat split]).
  - unfold handleKeyDown. case_if; [by apply toggle_kept|done].
Qed.
End Invariant.

(** The sidebar keeps its state straight: whatever is clicked, pressed or resized,
    it counts as mobile exactly when the window is narrower than 768 pixels, and the
    cookie, once written, records what is shown (with a parent that follows what it
    is told).  Toggling changes what is shown and nothing else: on a narrow window
    the sheet, else the panel; toggling twice changes nothing but the cookie. *)
Theorem sidebar_well_kept (setOpenProp : option (bool → option bool)) (width : Z) (defaultOpen : bool) (prop : option bool)
    (s : SidebarProvider) :
  (∀ f, setOpenProp = Some f → ∀ b, f b = Some b) → (setOpenProp = None → prop = None) →
  rtc (step setOpenProp) (mount width defaultOpen prop) s →
  well_kept setOpenProp s ∧
  let t := toggleSidebar setOpenProp s s in
  let t' := toggleSidebar setOpenProp t t in
  (if innerWidth s <? MOBILE_BREAKPOINT
   then openMobile t = negb (openMobile s) ∧ open t = open s ∧ cookie t = cookie s
   else open t = negb (open s) ∧ openMobile t = openMobile s ∧ cookie t = Some (cookie_text (open t))) ∧
  open t' = open s ∧ openMobile t' = openMobile s.
Proof.
  intros Hf Hprop Hs.
  assert (well_kept setOpenProp s) as Hk.
  { assert (well_kept setOpenProp (mount width defaultOpen prop)) as Hm.
    { split; [done|]. split; [cbn; apply narrow_query|]. split; [exact Hprop|by left]. }
    revert Hm. induction Hs as [|a b c Hab _ IH]; [done|]. intros Ha. apply IH. by eapply step_kept. }
  split; [done|]. pose proof Hk as (Hm & _). cbv zeta.
  destruct (innerWidth s <? MOBILE_BREAKPOINT) eqn:Hw.
  - assert (∀ x, mobile x = mobile s → toggleSidebar setOpenProp x x = setOpenMobile (negb (openMobile x)) x) as Ht.
    { intros x Hx. unfold toggleSidebar, useIsMobile. by rewrite Hx, Hm. }
    rewrite (Ht s eq_refl), Ht by done. repeat split. cbn. apply negb_involutive.
  - assert (∀ x, mobile x = mobile s → toggleSidebar setOpenProp x x = setOpen setOpenProp (negb (open x)) x) as Ht.
    { intros x Hx. unfold toggleSidebar, useIsMobile. by rewrite Hx, Hm. }
    rewrite (Ht s eq_refl). set (t := setOpen setOpenProp (negb (open s)) s).
    assert (well_kept setOpenProp t ∧ open t = negb (open s)) as [Hkt Hot] by by apply setOpen_kept.
    assert (mobile t = mobile s ∧ openMobile t = openMobile s ∧ cookie t = Some (cookie_text (negb (open s)))) as (H1 & H2 & H3)
      by (unfold t, setOpen; by destruct setOpenProp).
    rewrite (Ht t H1). assert (open (setOpen setOpenProp (negb (open t)) t) = negb (open t)) as -> by by apply setOpen_kept.
    rewrite Hot, negb_involutive. repeat split; [done|done|]. unfold setOpen. by destruct setOpenProp.
Qed.

Lemma sidebar_well_kept_witness :
  open (toggleSidebar None (mount 1024 true None) (mount 1024 true None)) = false.
Proof.
  destruct (sidebar_well_kept None 1024 true None (mount 1024 true None)) as (_ & (H1 & _) & _);
    [done|done|apply rtc_refl|exact H1].
Defined.
End Sidebar.
